(* ===== verification/_CoqProject ===== *)
-Q . S2P
Prelude.v
Priority.v
Kahn.v
Errors.v
Tracker.v
Suitability.v
Markdown.v
Complexity.v
Context.v
State.v
Workflow.v
WorkflowSpec.v
DepGraph.v
DepGraphSpec.v
Review.v
Verdict.v
WorkState.v
Gates.v
Progression.v
Queue.v
Throttle.v
Dag.v
Health.v
Routing.v
Commits.v
Watchdog.v
Fences.v
Sections.v
Knowledge.v
DiffGuard.v
Links.v
Merge.v
MergeQueue.v
CiMonitor.v
PrBody.v
Recovery.v
Liveness.v
SelfHeal.v
Finalize.v
Regex.v
Guard.v
CommitFold.v
Validate.v
Confidence.v
GitRebase.v
Worktrees.v
AutoRebase.v
Develop.v
CheckCache.v
AddressReview.v
