(* ===== verification/Prelude.v ===== *)
(** * SOVA: a verification development

    SOVA (src/sova) takes issues from a tracker to merged pull requests: a
    supervisor decides which issue to work on, a workflow engine runs the steps of an
    agent, and a dashboard says what each issue and pull request needs next. This
    library translates the parts that make these decisions into executable
    definitions, and proves what they guarantee. Paths below are under src/sova.

    ** What decides, and how the parts call each other

    - The tracker's data. [Tracker] has [Task], [TaskState] (adapters/base.py) and the
      label predicates (supervisor/labels.py); [Priority] the priorities and milestone
      phases (adapters/priority.py, adapters/milestone.py); [State] the statuses of
      runs and the lifecycle (core/state.py).
    - Text. [Markdown] masks fenced blocks and extracts sections, [Sections] writes and
      removes them, and [Fences] unwraps a model's answer (utils/markdown.py);
      [Review] has the markers a review carries and its body, written and read
      (utils/review_markers.py, roles/_review_format.py); [Commits] the lines of
      commits and pull requests (core/steps/commit_convention.py, and its users
      core/steps/commit.py and core/steps/create_pr.py).
    - Dependencies. [Kahn] is the loop both graph modules sort with; [DepGraph] is the
      dependency graph of issues with its parsing, its build and its cache
      (supervisor/dependency_graph.py), [DepGraphSpec] its theorems; [Dag] the
      workflow graphs of commands (core/dag.py).
    - Which issue. [Suitability] classifies and ranks issues
      (supervisor/suitability.py); it knows a graph only through the class [GraphView],
      whose laws [GraphViewLaws] [DepGraphSpec] proves of the real graph. [Queue] is
      the upkeep of the supervisor's queue (supervisor/queue_maintenance.py).
    - Whether an agent may start. [Gates] has every gate of supervisor/gates/ and the
      overlap of changed files (supervisor/file_overlap.py); [Health] the trackers of
      the network and of rate limits that two of them read
      (supervisor/network_health.py, supervisor/github_quota.py); [Progression] the
      engine that asks them, plans and acts (supervisor/progression.py).
    - A run. [Workflow] is the engine of core/workflow.py with the step interface of
      core/steps/base.py, over the context of [Context] (core/context.py,
      llm/models.py) and the failure categories of [Errors] (llm/errors.py);
      [WorkflowSpec] has its theorems. [Complexity] is the tier of an issue
      (llm/complexity.py), [Routing] the model it gets (llm/routing.py), [Watchdog] what
      stops a run that is stuck (supervisor/watchdog.py), [DiffGuard] what fails a command
      whose branch reverts or downgrades something (core/pr_diff_guard.py, and its check
      in dashboard/services/agent_db.py), [Throttle] what holds its
      pull request back (supervisor/pr_throttle.py, supervisor/coderabbit_quota.py).
    - What next. [Verdict] reads a review history and caches the answer
      (dashboard/services/work_verdict.py, and the circuit breaker of
      dashboard/services/agent_handoff.py); [WorkState] is the resolver that the
      dashboard and the supervisor share (dashboard/services/work_state.py).
    - A pull request. [PrBody] writes its body and decides whether it closes the issue
      (core/steps/_pr_body.py); [CiMonitor] waits for its checks and has failing ones
      repaired (core/steps/monitor_ci.py, and the readings of git/pr.py). [Links] reads which issues its body and branch name
      (utils/gh.py); [Merge] is what opening or merging it does to those issues, and
      [MergeQueue] the merge, the wait in GitHub's queue and the monitor of the queue
      (git/merge.py, dashboard/services/merge_queue_monitor.py).
    - What becomes of runs. [Finalize] is what the dashboard records when an agent's
      process exits (dashboard/services/agent_finalize.py and agent_db.py); [Recovery]
      settles the runs that lost their process and rolls their issues back
      (dashboard/services/agent_recovery.py); [Liveness] is the faster sweep of the
      dashboard, which only ends rows (dashboard/app.py), and the check that an issue has
      no other agent (agent_validation.py); [SelfHeal] resumes what an outage of the
      network ended (the last part of agent_recovery.py, utils/network.py).
    - The steps of a run. [CommitFold] folds what is pending into a commit
      (core/steps/_commit_fold.py, git/safety.py); [Validate] is the validation step with
      the comparison of test baselines (core/steps/validate.py, core/test_baseline.py);
      [Confidence] the scoring step (core/steps/confidence_score.py); [GitRebase] the
      rebase whose conflicts a model resolves (git/rebase.py, core/steps/rebase.py);
      [Worktrees] the worktrees that agents work in, their repair, their removal and
      their garbage collection (git/worktree.py); [Develop] the step that writes the code,
      the loop that has its checks repaired and the bounds of what it is given
      (core/steps/develop.py); [CheckCache] the reuse of a check that passed on the same
      content (core/check_cache.py); [AddressReview] the step that reads the findings of
      reviews back and has them addressed (core/steps/address_review.py).
    - A pull request that conflicts. [AutoRebase] rebases it in a worktree and pushes it
      (supervisor/rebase.py), over [Worktrees] and the interface of its operations, which
      [GitRebase] fills in the examples.
    - What a model is shown. [Guard] scans text for injections and decides what to do
      about them (llm/guard.py), with the patterns searched by [Regex].
    - What is remembered. [Knowledge] is the upkeep of the memories
      (knowledge/lifecycle.py, knowledge/similarity.py).

    ** How the code is modelled

    A pure function is a function of the same name. Python exceptions are values
    ([exn], [outcome]). Code that reads the database, the tracker, GitHub or the system
    takes the answers as arguments, so that its theorems hold for every answer, failures
    included. Where the code writes, the writes are part of the result ([Queue],
    [Progression]) or of a state that is threaded through ([Workflow] runs in a state
    monad with exceptions over a database whose every transaction may fail). Where
    several tasks or processes share state, the code is cut where it awaits or where a
    statement ends, and an execution is a list of steps: the graph cache in [DepGraph],
    the verdict cache in [Verdict], the pull request queue in [Throttle]; [Health] and
    [Watchdog] are folded over a history of what they observe. GitHub's issues are a
    state in [Merge], under commands that may fail before or after their effect. The order of a Python set
    is a parameter ([SetOrder], below). Text is ASCII, except in [Guard], whose text is a list of code
    points; regular expressions are written out as matchers, except there, where
    [Regex] searches by derivatives and is proved to find exactly the matches. Integers are unbounded as in Python; dollars, times and memory are
    integers of a fixed unit instead of floats.

    ** What the theorems show

    - Starting and stopping: an agent starts only with every gate open
      ([Progression.spawn_passes_every_gate]), never beyond the free slots
      ([capacity_never_overcommitted]), and its issue is rolled back only when abandoned
      ([reset_only_when_abandoned]); the gates count and match exactly what they claim
      ([Gates]); the network and rate limit gates are closed exactly as the history of
      calls says ([Health]); the watchdog stops a run only for cause, misses no fatal
      anomaly and does not repeat itself ([Watchdog]); the diff guard accuses a command
      exactly on evidence ([DiffGuard]).
    - Runs: a run ends ([WorkflowSpec.run_terminates]) with one verdict, the one it
      records ([run_verdict]); attempts and spending are bounded ([attempts_bounded],
      [limits_stop_the_run]); a failure is retried, rerouted or final as its category
      says ([failure_policy]); the costs of an attempt add up ([attempt_costs_add_up]).
    - Merging: the resolver integrates exactly when it may ([integrate_exactly_when]),
      on a standing approval of the trusted account ([merge_needs_trusted_approval]),
      and cycles are capped ([budget_stops_cycles]); verdicts are the newest that count,
      and the cache serves no other ([Verdict]); what a review writes is what is read
      back ([Review]).
    - Order: the ranking, the graph and its cache, cycles, groups and unblock counts
      ([Suitability], [DepGraphSpec]), the queue ([Queue]), workflow graphs ([Dag]).
    - The pull request queue is a state machine under any interleaving, creates at most
      one pull request for an entry, and drains ([Throttle]).
    - The first line of a commit is valid whatever it is built from ([Commits]).
    - A body closes its issue exactly on evidence for every criterion, and what it lists as
      not done is what merging reads back ([PrBody], on the round trip of [Sections]). The
      step that waits for the checks ends, passes only on complete checks of the commit
      it is bound to or on confirmed absence of CI, and repairs within its attempts and
      its budget ([CiMonitor]).
    - Merging touches exactly the issues the body names, comments each at most once
      however often it is repeated, and takes no label another pull request needs
      ([Merge]); the monitor ends an entry of the queue only on what GitHub said, an overdue
      one at the next look, and a wait always ends ([MergeQueue]).
    - The upkeep of memories merges each at most once and loses no confirmation
      ([Knowledge]).

    - A run that exits gets the status its exit and its validation say, and keeps one it
      ended with before, unless a validation fails it ([Finalize.run_finalized]); the
      repairs of a review are accepted only with a confirmed push
      ([address_pr_confirmed]). The recovery signals and rolls back only on its grounds and
      settles exactly the abandoned runs ([Recovery]), the faster sweep ends only rows
      whose process is gone ([Liveness]), and an outage resumes at most one run a tick,
      the most advanced that qualifies ([SelfHeal]).
    - A fold that succeeds leaves no marker commit, and one that fails takes its own fixup
      back ([CommitFold]); the validation step succeeds only without a hook, on a run of
      the hook that passes on what is on the branch, or when resources run low, which the
      code intends, and it asks the model within its limits ([Validate]); the scoring step
      never fails a run that its exceptions do not, and no heading or bare reference of the
      model's prose reaches the body of the pull request ([Confidence]).
    - A rebase that returns was completed with nothing unmerged or aborted, with the stash
      restored ([GitRebase.rebase_ends]), is continued only where nothing is unmerged
      ([continue_only_when_resolved]) and asks the model boundedly often
      ([rebase_returns]); the answer of many models is a valid one with the greatest
      agreement ([consensus_sound]). A worktree is removed only when its issue is over
      and it is idle and clean ([Worktrees.gc_removes_only_spent]), and what is created
      has its branch ([created_worktree_has_branch]). A branch is pushed over only after a
      rebase and a hook that succeeded in a worktree that was free
      ([AutoRebase.push_justified]), at most once per head ([one_attempt_per_head]), with
      the outcome in its row ([outcome_recorded]).
    - Development succeeds only after work and with checks that pass in the end, are off,
      cannot be found or are given up, after repairs that spare the tests
      ([Develop.development_justified], [fix_within_limits], [gate_needs_work]), and what
      it is given is bounded ([context_bounded]). A check is skipped exactly on a content,
      as git tells it, that was recorded as passed ([CheckCache.reuse_justified],
      [same_content_skipped]).
    - From the body of a review that [Review] writes, the address step reads exactly its
      findings ([AddressReview.review_read_back]), a collapsed one gets the text of its own
      comment or none ([hydrated_from_its_comment]), what counts as addressed was handed to an
      agent ([addressed_was_handed_over]), and its gate clears the labels of a bad verdict only on
      evidence of the run ([stale_label_justified]).
    - The guard refuses a prompt exactly when it is on and a pattern of at least the
      threshold's weight is found ([Guard.guard_refuses_exactly]).

    Defects that modelling found are proved as examples next to the theorems they
    limit: [WorkflowSpec.stale_gate_masks_exception],
    [WorkflowSpec.total_cost_omits_failed_attempts],
    [Verdict.late_lookup_undoes_invalidation], [Verdict.quoted_marker_hides_review],
    [WorkState.approved_pr_reviewed_again], [Queue.Examples.freed_slot_ignores_dependencies],
    [Throttle.creation_spends_no_quota], [Throttle.Examples.wait_too_short],
    [Routing.Examples.explicit_route_replaced], [Commits.Examples.no_space_after_colon],
    [Commits.Examples.prefix_only_title], [Knowledge.recomputation_resets_recency],
    [MergeQueue.Examples.deletion_reported_anyway], [MergeQueue.Examples.unreadable_is_ejected],
    [CiMonitor.Examples.existing_cancelled_passes], [PrBody.Examples.criterion_closes],
    [Recovery.Examples.watch_loop_killed], [Recovery.Examples.outage_is_done],
    [Recovery.Examples.no_repository_raises], [Recovery.Examples.no_pid_is_stale],
    [SelfHeal.Examples.unmarked_resume_again], [Finalize.Examples.outage_ends_well],
    [Finalize.Examples.fragment_survives], [Finalize.Examples.blocked_never_healed],
    [Guard.Examples.wide_spaces_hide], [CommitFold.Examples.quoted_hides],
    [CommitFold.Examples.exception_keeps_marker], [Validate.Examples.exit_codes_never_compared],
    [Confidence.Examples.infinite_score_raises], [Confidence.Examples.stale_prose_stays],
    [GitRebase.Examples.timeout_leaves_rebase], [GitRebase.Examples.resolved_file_not_checked_again],
    [GitRebase.Examples.quoted_file_not_checked], [GitRebase.Examples.resolved_in_two_rounds],
    [Worktrees.Examples.lost_link_is_deleted], [Worktrees.Examples.conflict_removes_changes],
    [AutoRebase.Examples.commits_are_dropped], [AutoRebase.Examples.refused_push_is_done],
    [AutoRebase.Examples.unread_row_stays_running],
    [Develop.Examples.reset_drops_development], [Develop.Examples.own_test_is_weakened],
    [Develop.Examples.idle_repair_not_seen], [Develop.Examples.prefixed_command_is_skipped],
    [Develop.Examples.body_exceeds_budget], [AddressReview.Examples.unknown_head_passes],
    [AddressReview.Examples.category_refuses_the_prompt].

    ** Fuel

    Loops that Python bounds by their data recurse on that data. Where the recursion is
    not structural the fuel is derived and proved enough: one more than the number of
    nodes for [Kahn.loop], 2 + n * n for the search of a component of n nodes in
    [Dag.bfs_fuel], one unit per dependency or node for the walks of [DepGraph], the
    length of the text for the matcher of [Gates.FileOverlap], and for the retry and
    fallback loops of [Workflow] the bounds of [WorkflowSpec.run_terminates]. The wait of
    [MergeQueue] takes its fuel as an argument and ends with two more than the intervals
    in the timeout; the polling of [CiMonitor] likewise, with two more than the ticks of
    its limit, since the clock advances in every round. The commits and attempts of
    [GitRebase] are bounded by arguments of the code, on which it recurses; the sections of
    [AddressReview] take the length of the text, which exceeds the number of headings. Running out is a value of its own, and never happens.

    ** Not modelled

    Input and output itself: subprocesses, git, HTTP, the model clients, prompts, the
    command line, the dashboard's pages and SQL, third-party APIs, and text that is only
    displayed or logged. Of modules that are modelled in part the manifest's notes say
    what is left out. Of the logic that is
    left, the handoff between processes (ipc/handoff.py), the knowledge tiers (knowledge/tiers.py), the redaction of what
    leaves the machine (llm/egress.py), the actions that agent_recovery.py synthesises
    for pull requests and the start of an agent (dashboard/services/agent_lifecycle.py) have
    no model. *)

From stdpp Require Import base gmap strings list fin_maps sorting.
From Stdlib Require Import Ascii.

(** ** Automation *)

(** Close the goals that case analysis on the booleans of a handler leaves. *)
Ltac bool_simp :=
  repeat match goal with
  | H : (_ && _)%bool = true |- _ => apply andb_true_iff in H as [??]
  | H : (_ || _)%bool = false |- _ => apply orb_false_iff in H as [??]
  | H : negb _ = true |- _ => apply negb_true_iff in H
  | H : negb _ = false |- _ => apply negb_false_iff in H
  | H : bool_decide _ = true |- _ => apply bool_decide_eq_true_1 in H
  | H : bool_decide _ = false |- _ => apply bool_decide_eq_false_1 in H
  end.

(** Split on every [match]/[if] of the goal, simplifying as it goes. *)
Ltac split_cases := repeat (case_match; simplify_eq/=).

Create HintDb sova discriminated.
#[export] Hint Constants Opaque : sova.

(** ** Python exceptions

    The exceptions the modelled code raises or lets through, with the text that
    [str(exc)] gives. [OtherExn] is any other subclass of [Exception]. *)
Inductive exn :=
  | ValueError (msg : string)
  | KeyError (msg : string)
  | RuntimeError (msg : string)
  | AdapterError (msg : string)
  | TimeoutError
  | SQLAlchemyError (msg : string)
  | OSError (msg : string)
  | OtherExn (msg : string).

#[export] Instance exn_eq_dec : EqDecision exn.
Proof. solve_decision. Defined.

Definition exn_str (e : exn) : string :=
  match e with
  | ValueError m | KeyError m | RuntimeError m | AdapterError m
  | SQLAlchemyError m | OSError m | OtherExn m => m
  | TimeoutError => ""
  end.

(** [type(exc).__name__] *)
Definition exn_name (e : exn) : string :=
  match e with
  | ValueError _ => "ValueError"
  | KeyError _ => "KeyError"
  | RuntimeError _ => "RuntimeError"
  | AdapterError _ => "AdapterError"
  | TimeoutError => "TimeoutError"
  | SQLAlchemyError _ => "SQLAlchemyError"
  | OSError _ => "OSError"
  | OtherExn _ => "Exception"
  end.

(** The outcome of a Python call: a value, or an exception that propagates. *)
Inductive outcome (A : Type) :=
  | Ret (x : A)
  | Raise (e : exn).
Arguments Ret {A} _.
Arguments Raise {A} _.

Definition obind {A B} (m : outcome A) (k : A -> outcome B) : outcome B :=
  match m with
  | Ret x => k x
  | Raise e => Raise e
  end.

Declare Scope sova_scope.
Delimit Scope sova_scope with sova.
Notation "'let?' x := m 'in' k" := (obind m (fun x => k))
  (at level 10, x name, m at level 100, k at level 200) : sova_scope.

(** ** Python text

    A [str] is modelled as the list of its characters, 7-bit text only: the
    tracker labels, headings and error prefixes the code inspects are ASCII. *)
Module PyStr.

Definition to_list : string -> list ascii := String.list_ascii_of_string.
Definition of_list : list ascii -> string := String.string_of_list_ascii.

(** [str.isspace] on one ASCII character: tab, newline, vertical tab, form
    feed, carriage return, the four separators 0x1c..0x1f, and space. *)
Definition is_space (c : ascii) : bool :=
  let n := nat_of_ascii c in
  ((9 <=? n) && (n <=? 13)) || ((28 <=? n) && (n <=? 32)).

Definition is_digit (c : ascii) : bool :=
  let n := nat_of_ascii c in (48 <=? n) && (n <=? 57).

Definition digit_val (c : ascii) : Z := Z.of_nat (nat_of_ascii c - 48).

Definition lower_char (c : ascii) : ascii :=
  let n := nat_of_ascii c in
  if (65 <=? n) && (n <=? 90) then ascii_of_nat (n + 32) else c.

Fixpoint drop_while {A} (f : A -> bool) (l : list A) : list A :=
  match l with
  | [] => []
  | c :: l' => if f c then drop_while f l' else l
  end.

Fixpoint take_while {A} (f : A -> bool) (l : list A) : list A :=
  match l with
  | [] => []
  | c :: l' => if f c then c :: take_while f l' else []
  end.

Definition drop_while_end {A} (f : A -> bool) (l : list A) : list A :=
  rev (drop_while f (rev l)).

Definition strip_list (l : list ascii) : list ascii :=
  drop_while_end is_space (drop_while is_space l).

(** [s.strip()] *)
Definition strip (s : string) : string := of_list (strip_list (to_list s)).

(** [s.lower()] *)
Definition lower (s : string) : string := of_list (map lower_char (to_list s)).

(** [s.startswith(p)] *)
Definition startswith (s p : string) : bool := String.prefix p s.

Definition endswith (s p : string) : bool :=
  String.prefix (of_list (rev (to_list p))) (of_list (rev (to_list s))).

(** [s.removeprefix(p)] *)
Fixpoint drop_chars (n : nat) (s : string) : string :=
  match n, s with
  | S n', String _ s' => drop_chars n' s'
  | _, _ => s
  end.

Definition removeprefix (s p : string) : string :=
  if startswith s p then drop_chars (String.length p) s else s.

(** [p in s] *)
Definition contains (s p : string) : bool :=
  match String.index 0 p s with Some _ => true | None => false end.

(** [s.split(sep, 1)]: the text before the first separator, and the text after
    it when the separator occurs. *)
Definition split_once (s sep : string) : string * option string :=
  match String.index 0 sep s with
  | Some i =>
      (String.substring 0 i s,
       Some (drop_chars (i + String.length sep) s))
  | None => (s, None)
  end.

(** [sep.join(l)] *)
Fixpoint join (sep : string) (l : list string) : string :=
  match l with
  | [] => ""
  | [x] => x
  | x :: l' => (x ++ sep ++ join sep l')%string
  end.

(** [s.split()]: the maximal runs of characters that are not whitespace. *)
Fixpoint words (word l : list ascii) : list (list ascii) :=
  match l with
  | [] => match word with [] => [] | _ => [rev word] end
  | c :: l' =>
      if is_space c then match word with [] => words [] l' | _ => rev word :: words [] l' end
      else words (c :: word) l'
  end.

Definition split (s : string) : list string := map of_list (words [] (to_list s)).

(** [" ".join(s.split())] *)
Definition flatten (s : string) : string := join " " (split s).

(** What follows a literal at the start of a text. *)
Fixpoint after_literal (p l : list ascii) : option (list ascii) :=
  match p, l with
  | [], _ => Some l
  | c :: p, d :: l => if Ascii.eqb c d then after_literal p l else None
  | _ :: _, [] => None
  end.

(** [s.splitlines()] on ASCII text: a line feed, a carriage return (or both), a
    vertical tab, a form feed and the separators 0x1c..0x1e end a line. *)
Definition is_line_break (c : ascii) : bool :=
  let n := nat_of_ascii c in ((10 <=? n) && (n <=? 13)) || ((28 <=? n) && (n <=? 30)).

Fixpoint lines_from (line l : list ascii) : list (list ascii) :=
  match l with
  | [] => match line with [] => [] | _ => [rev line] end
  | c :: l =>
      if is_line_break c then
        rev line ::
        (if Ascii.eqb c "013"%char
         then match l with
              | d :: l' => if Ascii.eqb d "010"%char then lines_from [] l' else lines_from [] l
              | [] => []
              end
         else lines_from [] l)
      else lines_from (c :: line) l
  end.

Definition splitlines (s : string) : list (list ascii) := lines_from [] (to_list s).

(** [s[:n]] *)
Definition slice_to (n : nat) (s : string) : string := of_list (take n (to_list s)).

(** [int(s)] on ASCII text: surrounding whitespace, one sign, decimal digits
    with single underscores between them. [None] stands for [ValueError]. *)
Fixpoint digits_val (acc : Z) (after_digit : bool) (l : list ascii) : option Z :=
  match l with
  | [] => if after_digit then Some acc else None
  | c :: l' =>
      if is_digit c then digits_val (10 * acc + digit_val c) true l'
      else if Ascii.eqb c "_"%char && after_digit then digits_val acc false l'
      else None
  end.

Definition int_of (s : string) : option Z :=
  match strip_list (to_list s) with
  | [] => None
  | c :: l =>
      if Ascii.eqb c "-"%char then Z.opp <$> digits_val 0 false l
      else if Ascii.eqb c "+"%char then digits_val 0 false l
      else digits_val 0 false (c :: l)
  end.

(** *** Lemmas *)

Lemma to_of_list l : to_list (of_list l) = l.
Proof. apply String.list_ascii_of_string_of_list_ascii. Qed.

Lemma of_to_list s : of_list (to_list s) = s.
Proof. apply String.string_of_list_ascii_of_string. Qed.

Lemma length_to_list s : length (to_list s) = String.length s.
Proof. induction s as [|c s IH]; [done|]. cbn. by rewrite <- IH. Qed.

Lemma is_space_lower c : is_space (lower_char c) = is_space c.
Proof. destruct c as [[] [] [] [] [] [] [] []]; reflexivity. Qed.

Lemma lower_char_idemp c : lower_char (lower_char c) = lower_char c.
Proof. destruct c as [[] [] [] [] [] [] [] []]; reflexivity. Qed.

Lemma drop_while_map {A} (f : A -> bool) (g : A -> A) l :
  (forall c, f (g c) = f c) -> drop_while f (map g l) = map g (drop_while f l).
Proof.
  intros Hfg. induction l as [|c l IH]; [done|]. cbn.
  rewrite Hfg. by destruct (f c).
Qed.

Lemma drop_while_idemp {A} (f : A -> bool) l :
  drop_while f (drop_while f l) = drop_while f l.
Proof. induction l as [|c l IH]; [done|]. cbn. destruct (f c) eqn:E; [done|]. cbn. by rewrite E. Qed.

Lemma drop_while_end_map {A} (f : A -> bool) (g : A -> A) l :
  (forall c, f (g c) = f c) -> drop_while_end f (map g l) = map g (drop_while_end f l).
Proof.
  intros Hfg. unfold drop_while_end.
  by rewrite <- map_rev, drop_while_map, map_rev.
Qed.

Lemma strip_lower s : strip (lower s) = lower (strip s).
Proof.
  unfold strip, lower, strip_list. rewrite !to_of_list.
  by rewrite drop_while_map, drop_while_end_map by apply is_space_lower.
Qed.

Lemma lower_idemp s : lower (lower s) = lower s.
Proof.
  unfold lower. rewrite to_of_list, map_map. f_equal.
  apply map_ext, lower_char_idemp.
Qed.

(** Dropping a blank tail of a list whose head is not blank keeps the head. *)
Lemma drop_while_app_r {A} (f : A -> bool) l c :
  f c = false -> drop_while f (l ++ [c]) = drop_while f l ++ [c].
Proof.
  intros Hc. induction l as [|a l IH]; cbn; [by rewrite Hc|].
  destruct (f a); [apply IH|done].
Qed.

(** The longest run of characters that satisfy a predicate, and what follows it. *)
Lemma take_while_app {A} (f : A -> bool) k x l :
  forallb f k = true -> f x = false -> take_while f (k ++ x :: l) = k.
Proof.
  intros Hk Hx. induction k as [|a k IH]; cbn in *; [by rewrite Hx|].
  apply andb_true_iff in Hk as [-> Hk]. f_equal. auto.
Qed.

Lemma drop_while_app {A} (f : A -> bool) k x l :
  forallb f k = true -> f x = false -> drop_while f (k ++ x :: l) = x :: l.
Proof.
  intros Hk Hx. induction k as [|a k IH]; cbn in *; [by rewrite Hx|].
  apply andb_true_iff in Hk as [-> Hk]. auto.
Qed.

Lemma drop_while_strip {A} (f : A -> bool) l :
  drop_while f (drop_while_end f (drop_while f l)) = drop_while_end f (drop_while f l).
Proof.
  unfold drop_while_end.
  destruct (drop_while f l) as [|c l'] eqn:E; [done|].
  assert (f c = false) as Hc.
  { clear -E. induction l as [|a l IH]; cbn in E; [done|].
    destruct (f a) eqn:Ea; [auto|]. by simplify_eq. }
  cbn [rev]. rewrite drop_while_app_r, rev_app_distr by done. cbn. by rewrite Hc.
Qed.

Lemma strip_idemp s : strip (strip s) = strip s.
Proof.
  unfold strip, strip_list. rewrite to_of_list, drop_while_strip.
  unfold drop_while_end. by rewrite rev_involutive, drop_while_idemp.
Qed.

Lemma strip_lower_idemp s : strip (lower (strip (lower s))) = strip (lower s).
Proof. by rewrite !strip_lower, strip_idemp, lower_idemp. Qed.

End PyStr.

Create Rewrite HintDb pystr.
#[export] Hint Rewrite PyStr.lower_idemp PyStr.strip_idemp PyStr.strip_lower_idemp : pystr.

(** ** Iteration over Python sets

    The order in which a Python [set] is iterated is not specified: it is a
    parameter of every definition that iterates one, and the theorems hold for
    every order. *)
Class SetOrder (A : Type) `{Countable A} := {
  set_iter : gset A -> list A;
  set_iter_elements : forall X, set_iter X ≡ₚ elements X;
}.

(** One possible order, for the concrete runs. *)
Definition elements_order {A} `{Countable A} : SetOrder A :=
  {| set_iter X := elements X; set_iter_elements X := reflexivity _ |}.

Section set_iter.
Context {A : Type} `{SetOrder A}.

Lemma elem_of_set_iter (X : gset A) x : x ∈ set_iter X <-> x ∈ X.
Proof. rewrite set_iter_elements. apply elem_of_elements. Qed.

Lemma NoDup_set_iter (X : gset A) : NoDup (set_iter X).
Proof. rewrite set_iter_elements. apply NoDup_elements. Qed.
End set_iter.
#[export] Hint Resolve NoDup_set_iter : sova.

(** ** Sorting

    [list.sort(key=...)] and [sorted(...)]: a stable sort. Keys are compared as
    Python compares tuples of integers, lexicographically. *)
Section sort.
Context {A : Type} (key : A -> list Z).

Fixpoint lex_leb (k1 k2 : list Z) : bool :=
  match k1, k2 with
  | [], _ => true
  | _ :: _, [] => false
  | x :: k1, y :: k2 => if Z.ltb x y then true else if Z.ltb y x then false else lex_leb k1 k2
  end.

Fixpoint insert_sorted (x : A) (l : list A) : list A :=
  match l with
  | [] => [x]
  | y :: l' => if lex_leb (key x) (key y) then x :: y :: l' else y :: insert_sorted x l'
  end.

Definition sort_by (l : list A) : list A := foldr insert_sorted [] l.

Definition key_le (x y : A) : Prop := lex_leb (key x) (key y) = true.

Lemma lex_leb_refl k : lex_leb k k = true.
Proof. induction k as [|x k IH]; [done|]. cbn. by rewrite Z.ltb_irrefl. Qed.

Lemma lex_leb_total k1 k2 : lex_leb k1 k2 = true \/ lex_leb k2 k1 = true.
Proof.
  revert k2. induction k1 as [|x k1 IH]; intros [|y k2]; cbn; auto.
  destruct (Z.ltb_spec x y), (Z.ltb_spec y x); auto; lia.
Qed.

Lemma lex_leb_trans k1 k2 k3 :
  lex_leb k1 k2 = true -> lex_leb k2 k3 = true -> lex_leb k1 k3 = true.
Proof.
  revert k2 k3. induction k1 as [|x k1 IH]; intros [|y k2] [|z k3]; cbn; try done.
  destruct (Z.ltb_spec x y), (Z.ltb_spec y x), (Z.ltb_spec y z), (Z.ltb_spec z y),
    (Z.ltb_spec x z), (Z.ltb_spec z x); try done; try lia. apply IH.
Qed.

Lemma lex_leb_antisym k1 k2 : lex_leb k1 k2 = true -> lex_leb k2 k1 = true -> k1 = k2.
Proof.
  revert k2. induction k1 as [|x k1 IH]; intros [|y k2]; cbn; try done.
  destruct (Z.ltb_spec x y), (Z.ltb_spec y x); try done; try lia.
  intros. f_equal; [lia|auto].
Qed.

Lemma insert_sorted_perm x l : insert_sorted x l ≡ₚ x :: l.
Proof.
  induction l as [|y l IH]; [done|]. cbn. case_match; [done|].
  rewrite IH. apply Permutation_swap.
Qed.

Lemma sort_by_perm l : sort_by l ≡ₚ l.
Proof. induction l as [|x l IH]; [done|]. cbn. by rewrite insert_sorted_perm, IH. Qed.

Lemma insert_sorted_sorted x l :
  StronglySorted key_le l -> StronglySorted key_le (insert_sorted x l).
Proof.
  induction l as [|y l IH]; cbn; [repeat constructor|].
  intros [Hl Hy]%StronglySorted_inv. destruct (lex_leb (key x) (key y)) eqn:E.
  - constructor; [by constructor|]. constructor; [done|].
    eapply Forall_impl; [exact Hy|]. intros z. unfold key_le. by apply lex_leb_trans.
  - constructor; [by apply IH|]. rewrite insert_sorted_perm. constructor; [|done].
    unfold key_le. destruct (lex_leb_total (key x) (key y)); congruence.
Qed.

Lemma sort_by_sorted l : StronglySorted key_le (sort_by l).
Proof. induction l; [constructor|]. by apply insert_sorted_sorted. Qed.

(** With distinct keys the result does not depend on the input order. *)
Lemma sorted_unique l1 l2 :
  (forall x y, x ∈ l1 -> y ∈ l1 -> key x = key y -> x = y) ->
  StronglySorted key_le l1 -> StronglySorted key_le l2 -> l1 ≡ₚ l2 -> l1 = l2.
Proof.
  revert l2. induction l1 as [|x l1 IH]; intros l2 Hinj H1 H2 HP.
  { symmetry. by apply Permutation_nil_l in HP as ->. }
  destruct l2 as [|y l2]; [by apply Permutation_nil_r in HP|].
  apply StronglySorted_inv in H1 as [H1 Hx]. apply StronglySorted_inv in H2 as [H2 Hy].
  assert (x = y) as ->.
  { assert (y ∈ x :: l1) as Hyin by (rewrite HP; constructor).
    assert (x ∈ y :: l2) as Hxin by (rewrite <- HP; constructor).
    apply elem_of_cons in Hyin as [->|Hyin]; [done|].
    apply elem_of_cons in Hxin as [->|Hxin]; [done|].
    apply Hinj; [by constructor|by constructor|].
    rewrite Forall_forall in Hx, Hy. apply lex_leb_antisym; [by apply Hx|by apply Hy]. }
  f_equal. apply IH; [|done|done|by apply Permutation_cons_inv in HP].
  intros a b Ha Hb. apply Hinj; by constructor.
Qed.

Lemma sort_by_unique l1 l2 :
  (forall x y, x ∈ l1 -> y ∈ l1 -> key x = key y -> x = y) ->
  l1 ≡ₚ l2 -> sort_by l1 = sort_by l2.
Proof.
  intros Hinj HP. apply sorted_unique; [|apply sort_by_sorted..|].
  - intros x y. rewrite !sort_by_perm. apply Hinj.
  - by rewrite !sort_by_perm.
Qed.
End sort.

(** [sorted(s)] for a set of issue numbers. *)
Definition sorted_set (X : gset Z) : list Z := sort_by (fun n => [n]) (elements X).

Lemma elem_of_sorted_set X n : n ∈ sorted_set X <-> n ∈ X.
Proof. unfold sorted_set. rewrite sort_by_perm. apply elem_of_elements. Qed.

Lemma NoDup_sorted_set X : NoDup (sorted_set X).
Proof. unfold sorted_set. rewrite sort_by_perm. apply NoDup_elements. Qed.

Lemma sorted_set_nil X : sorted_set X = [] <-> X = ∅.
Proof.
  split; [|by intros ->]. intros E. apply set_eq. intros n.
  rewrite <- elem_of_sorted_set, E. set_solver.
Qed.

Lemma NoDup_map_filter {A B} (g : A -> B) (f : A -> bool) l : NoDup (map g l) -> NoDup (map g (List.filter f l)).
Proof.
  induction l as [|a l IH]; cbn; [done|]. intros [Ha Hl]%NoDup_cons.
  destruct (f a); [|auto]. apply NoDup_cons. split; [|auto].
  intros (x & E & Hx)%list_elem_of_fmap. apply list_elem_of_In, List.filter_In in Hx as [Hx _].
  apply Ha, list_elem_of_fmap. exists x. by rewrite list_elem_of_In.
Qed.

Lemma filter_none {A} (l : list A) : List.filter (fun _ => false) l = [].
Proof. by induction l. Qed.

(** [sorted(s)] for a set of strings, which Python orders by their code points. *)
Definition str_key (s : string) : list Z := map (fun c => Z.of_nat (nat_of_ascii c)) (PyStr.to_list s).

Definition sorted_strings (X : gset string) : list string := sort_by str_key (elements X).

Lemma elem_of_sorted_strings X s : s ∈ sorted_strings X <-> s ∈ X.
Proof. unfold sorted_strings. rewrite sort_by_perm. apply elem_of_elements. Qed.

(** [list(dict.fromkeys(l))]; [seen] are the elements already there. *)
Section dedup.
Context {A : Type} `{EqDecision A}.

Fixpoint dedup (seen l : list A) : list A :=
  match l with
  | [] => []
  | i :: l => if bool_decide (i ∈ seen) then dedup seen l else i :: dedup (i :: seen) l
  end.

Lemma elem_of_dedup seen l i : i ∈ dedup seen l <-> i ∈ l /\ i ∉ seen.
Proof.
  revert seen. induction l as [|j l IH]; intros seen; cbn [dedup]; [set_solver|].
  case_bool_decide; rewrite ?elem_of_cons, IH; [set_solver|]. destruct (decide (i = j)) as [->|]; set_solver.
Qed.

Lemma NoDup_dedup seen l : NoDup (dedup seen l).
Proof.
  revert seen. induction l as [|j l IH]; intros seen; cbn [dedup]; [constructor|].
  case_bool_decide; [done|]. constructor; [|done]. rewrite elem_of_dedup. set_solver.
Qed.
End dedup.

(** [l[:limit]] *)
Definition py_take {A} (limit : Z) (l : list A) : list A :=
  if Z.leb 0 limit then take (Z.to_nat limit) l
  else take (length l - Z.to_nat (- limit)) l.
