(* ===== verification/Priority.v ===== *)
(** * Priorities and milestone phases

    [sova/adapters/priority.py] (the [Priority] enumeration, its rank and its
    label and Jira parsers) and [sova/adapters/milestone.py]
    ([extract_phase_order]): the two leaf modules every ranking of the program
    reads its sort keys from. *)

From stdpp Require Import base gmap strings list fin_maps sorting.
From S2P Require Import Prelude.
Local Open Scope string_scope.

Module Priority.

(** [class Priority(StrEnum)], in declaration order. *)
Inductive t := BLOCKER | CRITICAL | HIGH | MEDIUM | LOW | UNDEFINED.

#[global] Instance t_eq_dec : EqDecision t.
Proof. solve_decision. Defined.

(** [list(Priority)]: declaration order. *)
Definition members : list t := [BLOCKER; CRITICAL; HIGH; MEDIUM; LOW; UNDEFINED].

(** [p.value] *)
Definition value (p : t) : string :=
  match p with
  | BLOCKER => "blocker"
  | CRITICAL => "critical"
  | HIGH => "high"
  | MEDIUM => "medium"
  | LOW => "low"
  | UNDEFINED => "undefined"
  end.

(** [_RANK[p]], where [_RANK = {p: i for i, p in enumerate(Priority)}]. *)
Fixpoint position (p : t) (l : list t) : nat :=
  match l with
  | [] => 0%nat
  | q :: l' => if decide (p = q) then 0%nat else S (position p l')
  end.

Definition rank (p : t) : nat := position p members.

(** [p.github_label] *)
Definition github_label (p : t) : string := "priority: " ++ value p.

(** [cls(v)]: the member with that value, [None] for [ValueError]. *)
Definition of_value (v : string) : option t :=
  snd <$> list_find (fun p => value p = v) members.

Definition label_prefix : string := "priority:".

(** One label of the loop of [from_labels]: the level it names, if any. *)
Definition parse_label (label : string) : option t :=
  let normalized := PyStr.lower (PyStr.strip label) in
  if PyStr.startswith normalized label_prefix
  then of_value (PyStr.strip (PyStr.removeprefix normalized label_prefix))
  else None.

(** [min(matches, key=lambda p: p.rank)]: the first of the least rank. *)
Fixpoint min_rank (p : t) (l : list t) : t :=
  match l with
  | [] => p
  | q :: l' => if (rank q <? rank p)%nat then min_rank q l' else min_rank p l'
  end.

(** [Priority.from_labels] *)
Definition from_labels (labels : list string) : t :=
  match omap parse_label labels with
  | [] => UNDEFINED
  | p :: matches => min_rank p matches
  end.

(** [_JIRA_ALIASES.get(name)] *)
Definition jira_aliases : list (string * t) :=
  [("blocker", BLOCKER); ("critical", CRITICAL); ("highest", CRITICAL);
   ("major", HIGH); ("high", HIGH); ("normal", MEDIUM); ("medium", MEDIUM);
   ("minor", LOW); ("low", LOW); ("trivial", LOW); ("lowest", LOW)].

Definition jira_alias (name : string) : option t :=
  (fun ikv => ikv.2.2) <$> list_find (fun kv : string * t => kv.1 = name) jira_aliases.

(** [Priority.from_jira] *)
Definition from_jira (name : option string) : t :=
  match name with
  | None => UNDEFINED
  | Some n => if decide (n = "") then UNDEFINED
              else default UNDEFINED (jira_alias (PyStr.lower (PyStr.strip n)))
  end.

(** [Priority.has_label] *)
Definition has_label (labels : list string) : bool :=
  existsb (fun label =>
    let n := PyStr.lower (PyStr.strip label) in
    PyStr.startswith n label_prefix &&
    negb (bool_decide (PyStr.strip (PyStr.removeprefix n label_prefix) = ""))) labels.

(** *** Lemmas *)

Lemma rank_inj p q : rank p = rank q -> p = q.
Proof. by destruct p, q. Qed.

Lemma parse_github_label p : parse_label (github_label p) = Some p.
Proof. by destruct p. Qed.

Lemma parse_label_norm l : parse_label (PyStr.lower (PyStr.strip l)) = parse_label l.
Proof.
  unfold parse_label.
  by rewrite PyStr.strip_lower, PyStr.lower_idemp, PyStr.strip_idemp.
Qed.

(** The loop of [min] keeps a least element of what it has read. *)
Lemma min_rank_spec p l :
  min_rank p l ∈ p :: l /\ forall q, q ∈ p :: l -> rank (min_rank p l) <= rank q.
Proof.
  revert p. induction l as [|q l IH]; intros p; cbn [min_rank].
  - split; [constructor|]. intros q Hq. apply list_elem_of_singleton in Hq as ->. lia.
  - destruct (Nat.ltb_spec (rank q) (rank p)) as [Hlt|Hge].
    + destruct (IH q) as [Hin Hle]. split; [by constructor|].
      intros r Hr. apply elem_of_cons in Hr as [->|Hr]; [|by apply Hle].
      specialize (Hle q (list_elem_of_here _ _)). lia.
    + destruct (IH p) as [Hin Hle]. split.
      { rewrite elem_of_cons in Hin |- *. rewrite elem_of_cons. tauto. }
      specialize (Hle p (list_elem_of_here _ _)) as Hp.
      intros r Hr. rewrite !elem_of_cons in Hr. destruct Hr as [->|[->|Hr]]; [done|lia|].
      apply Hle. by constructor.
Qed.

(** The level a list of labels has: the most urgent one any of them names. *)
Definition level_of (labels : list string) (p : t) : Prop :=
  (p ∈ omap parse_label labels /\
   forall q, q ∈ omap parse_label labels -> rank p <= rank q) \/
  (omap parse_label labels = [] /\ p = UNDEFINED).

Lemma from_labels_level labels : level_of labels (from_labels labels).
Proof.
  unfold level_of, from_labels. destruct (omap parse_label labels) as [|p l]; [by right|].
  left. apply min_rank_spec.
Qed.

Lemma level_of_unique labels p q : level_of labels p -> level_of labels q -> p = q.
Proof.
  unfold level_of. generalize (omap parse_label labels) as L. intros L.
  intros [[Hp Hp']|[-> ->]] [[Hq Hq']|[E ->]]; [|by subst; inversion Hp|by inversion Hq|done].
  apply rank_inj. specialize (Hp' q Hq). specialize (Hq' p Hp). lia.
Qed.

Lemma from_labels_iff labels p : from_labels labels = p <-> level_of labels p.
Proof.
  split; [intros <-; apply from_labels_level|].
  intros H. eapply level_of_unique; [apply from_labels_level|done].
Qed.

Lemma from_labels_perm l1 l2 : l1 ≡ₚ l2 -> from_labels l1 = from_labels l2.
Proof.
  intros HP. apply from_labels_iff.
  pose proof (from_labels_level l2) as [[H1 H2]|[H1 H2]]; [left|right].
  - rewrite HP. split; [done|]. intros q. rewrite HP. apply H2.
  - split; [|done]. apply Permutation_nil_r. by rewrite HP, H1.
Qed.

Lemma from_labels_norm labels :
  from_labels (map (fun l => PyStr.lower (PyStr.strip l)) labels) = from_labels labels.
Proof.
  unfold from_labels. replace (omap parse_label (map _ labels)) with (omap parse_label labels); [done|].
  induction labels as [|l ls IH]; [done|]. cbn. by rewrite parse_label_norm, IH.
Qed.

(** A label [from_labels] recognises is one [has_label] sees. *)
Lemma has_label_of_parse labels p :
  p ∈ omap parse_label labels -> has_label labels = true.
Proof.
  intros (l & Hl & Hp)%list_elem_of_omap. unfold has_label.
  apply existsb_exists. exists l. split; [by apply list_elem_of_In|].
  unfold parse_label in Hp. case_match; [|done]. cbn.
  apply negb_true_iff, bool_decide_eq_false_2. intros E. rewrite E in Hp. by vm_compute in Hp.
Qed.

End Priority.

(** ** Milestone phases ([sova/adapters/milestone.py]) *)
Module Milestone.

Definition UNPHASED : Z := 99.

(** [\d+] at the start of the text, as the integer it denotes. *)
Definition match_digits (l : list Ascii.ascii) : option Z :=
  match l with
  | c :: _ =>
      if PyStr.is_digit c then
        PyStr.digits_val 0 false (PyStr.take_while PyStr.is_digit l)
      else None
  | [] => None
  end.

(** [_PHASE_RE.match(s)]: [(?:Phase\s*|P)(\d+)], ignoring case. *)
Definition phase_match (s : string) : option Z :=
  let low := PyStr.lower s in
  match (if PyStr.startswith low "phase"
         then match_digits (PyStr.drop_while PyStr.is_space
                              (PyStr.to_list (PyStr.removeprefix low "phase")))
         else None) with
  | Some n => Some n
  | None =>
      if PyStr.startswith low "p"
      then match_digits (PyStr.to_list (PyStr.removeprefix low "p"))
      else None
  end.

(** [extract_phase_order] *)
Definition extract_phase_order (milestone : string) : Z :=
  if decide (milestone = "") then UNPHASED
  else default UNPHASED (phase_match (PyStr.strip milestone)).

Example phase_0 : extract_phase_order "Phase 0: Ship It" = 0%Z.
Proof. reflexivity. Qed.
Example phase_12 : extract_phase_order " p12: x" = 12%Z.
Proof. reflexivity. Qed.
Example phase_none : extract_phase_order "Backlog" = UNPHASED.
Proof. reflexivity. Qed.

Lemma digits_val_nonneg acc b l n :
  (0 <= acc)%Z -> PyStr.digits_val acc b l = Some n -> (0 <= n)%Z.
Proof.
  revert acc b. induction l as [|c l IH]; cbn; intros acc b Hacc E.
  - destruct b; by simplify_eq.
  - case_match; [eapply IH; [|done]; unfold PyStr.digit_val; lia|].
    case_match; [|done]. by eapply IH.
Qed.

Lemma match_digits_nonneg l n : match_digits l = Some n -> (0 <= n)%Z.
Proof.
  unfold match_digits. intros E. destruct l as [|c l]; [done|].
  case_match; [|done]. by apply digits_val_nonneg in E.
Qed.

Lemma phase_match_nonneg s n : phase_match s = Some n -> (0 <= n)%Z.
Proof.
  unfold phase_match. intros E.
  repeat case_match; simplify_eq; by eapply match_digits_nonneg.
Qed.

Lemma extract_phase_order_nonneg m : (0 <= extract_phase_order m)%Z.
Proof.
  unfold extract_phase_order. case_decide; [done|].
  destruct (phase_match _) eqn:E; [by eapply phase_match_nonneg|done].
Qed.

End Milestone.
