(* ===== verification/Kahn.v ===== *)
(** * Kahn's algorithm

    Both graph modules of the program sort topologically with the same loop:
    [DependencyGraph._topo_sort] ([sova/supervisor/dependency_graph.py]) and
    [_topological_sort] ([sova/core/dag.py]). The loop is defined once, over a
    dictionary of in-degrees and a work queue, and its correctness is proved
    once: what it returns, in which order, what it leaves out and why. *)

From stdpp Require Import base gmap list fin_maps sets relations list_numbers.
From S2P Require Import Prelude.

Section kahn.
Context {K : Type} `{Countable K}.

(** The guard of the inner loop and the successors of a node, in the order the
    inner loop visits them. *)
Context (keep : K -> bool) (adj : K -> list K).

(** The inner loop: one decrement per kept successor; a successor whose
    in-degree reaches zero is appended to the queue. *)
Fixpoint relax (ds : list K) (in_degree : gmap K Z) (queue : list K) : gmap K Z * list K :=
  match ds with
  | [] => (in_degree, queue)
  | d :: ds' =>
      if keep d then
        let in_degree := alter Z.pred d in_degree in
        let queue := if decide (in_degree !! d = Some 0%Z) then queue ++ [d] else queue in
        relax ds' in_degree queue
      else relax ds' in_degree queue
  end.

(** The outer loop: [while queue: nid = queue.popleft(); result.append(nid); ...].
    [None] is a loop the fuel did not finish. *)
Fixpoint loop (fuel : nat) (in_degree : gmap K Z) (queue result : list K) : option (list K) :=
  match fuel with
  | 0 => None
  | S fuel =>
      match queue with
      | [] => Some result
      | nid :: queue =>
          let '(in_degree, queue) := relax (adj nid) in_degree queue in
          loop fuel in_degree queue (result ++ [nid])
      end
  end.

(** ** Specification *)

Context (N : gset K).

(** The successors the loop counts. *)
Definition succs (n : K) : list K := filter (fun d => keep d = true) (adj n).

(** [n] must come before [d]. *)
Definition edge (n d : K) : Prop := n ∈ N /\ d ∈ N /\ d ∈ succs n.

Definition occ (d : K) (l : list K) : nat := length (filter (d =.) l).

(** How many edges into [d] come from nodes that are not in [r]. *)
Definition pending (r : list K) (d : K) : nat :=
  sum_list_with (fun n => if decide (n ∈ r) then 0 else occ d (succs n)) (elements N).

(** ** Counting lemmas *)

Lemma snoc_split (l l1 l2 : list K) (x y : K) :
  l ++ [x] = l1 ++ y :: l2 ->
  (exists l2', l2 = l2' ++ [x] /\ l = l1 ++ y :: l2') \/ (l2 = [] /\ y = x /\ l = l1).
Proof.
  destruct l2 as [|z l2 _] using rev_ind; intros E.
  - right. apply app_inj_tail in E as [-> ->]. done.
  - left. exists l2. rewrite app_comm_cons, app_assoc in E.
    apply app_inj_tail in E as [-> ->]. done.
Qed.

Lemma occ_cons d e l : occ d (e :: l) = (if decide (d = e) then 1 else 0) + occ d l.
Proof. unfold occ. rewrite filter_cons. by case_decide. Qed.

Lemma occ_pos d l : d ∈ l <-> 0 < occ d l.
Proof.
  induction l as [|e l IH]; [split; [by inversion 1|intros Hlt; by apply Nat.lt_irrefl in Hlt]|].
  rewrite occ_cons, elem_of_cons, IH. case_decide.
  - split; [lia|by left].
  - split; [intros [?|?]; [done|lia]|right; lia].
Qed.

Lemma sum_list_ext (f g : K -> nat) l :
  (forall x, x ∈ l -> f x = g x) -> sum_list_with f l = sum_list_with g l.
Proof.
  induction l as [|x l IH]; intros Hfg; [done|]. cbn. rewrite (Hfg x) by constructor.
  f_equal. apply IH. intros y Hy. apply Hfg. by constructor.
Qed.

Lemma sum_list_zero (f : K -> nat) l :
  sum_list_with f l = 0 <-> forall x, x ∈ l -> f x = 0.
Proof.
  induction l as [|x l IH]; [split; [by inversion 2|done]|].
  cbn. setoid_rewrite elem_of_cons. split.
  - intros E y [->|Hy]; [lia|]. apply IH; [lia|done].
  - intros Hz. rewrite (Hz x) by auto. apply IH. auto.
Qed.

Lemma pending_snoc r n d :
  n ∈ N -> n ∉ r -> pending r d = occ d (succs n) + pending (r ++ [n]) d.
Proof.
  intros HnN Hnr. unfold pending.
  apply elem_of_elements in HnN. pose proof (NoDup_elements N) as Hnd.
  apply list_elem_of_split in HnN as (l1 & l2 & E). rewrite E in Hnd |- *.
  apply NoDup_app in Hnd as (_ & Hd1 & Hnd%NoDup_cons). destruct Hnd as [Hn2 _].
  assert (n ∉ l1) as Hn1 by (intros Hin; apply (Hd1 n Hin); constructor).
  rewrite !sum_list_with_app. cbn.
  rewrite decide_False by done. rewrite decide_True by set_solver.
  enough (forall l, n ∉ l ->
    sum_list_with (fun m => if decide (m ∈ r) then 0 else occ d (succs m)) l =
    sum_list_with (fun m => if decide (m ∈ r ++ [n]) then 0 else occ d (succs m)) l) as Heq.
  { rewrite (Heq l1 Hn1), (Heq l2 Hn2). lia. }
  intros l Hl. apply sum_list_ext. intros m Hm.
  assert (m <> n) by (intros ->; done).
  destruct (decide (m ∈ r)); [rewrite decide_True|rewrite decide_False]; set_solver.
Qed.

Lemma pending_zero r d :
  pending r d = 0 <-> forall n, n ∈ N -> d ∈ succs n -> n ∈ r.
Proof.
  unfold pending. rewrite sum_list_zero. setoid_rewrite elem_of_elements.
  split; intros Hz n Hn.
  - intros Hd%occ_pos. specialize (Hz n Hn). case_decide; [done|lia].
  - case_decide as Hr; [done|]. destruct (occ d (succs n)) eqn:E; [done|].
    destruct Hr. apply Hz; [done|]. apply occ_pos. lia.
Qed.

(** ** The loop invariant *)

Hypothesis keep_in : forall n d, n ∈ N -> d ∈ succs n -> d ∈ N.

Record inv (in_degree : gmap K Z) (queue result : list K) : Prop := {
  inv_nodup : NoDup (result ++ queue);
  inv_nodes : forall n, n ∈ result ++ queue -> n ∈ N;
  inv_degree : forall d, d ∈ N -> in_degree !! d = Some (Z.of_nat (pending result d));
  inv_zero : forall d, d ∈ N -> pending result d = 0 <-> d ∈ result ++ queue;
  inv_order : forall l1 d l2, result = l1 ++ d :: l2 -> forall n, edge n d -> n ∈ l1;
}.

(** The state inside the inner loop, with the successors [todo] still to visit. *)
Record relax_inv (r : list K) (todo : list K) (in_degree : gmap K Z) (q : list K) : Prop := {
  ri_nodup : NoDup q;
  ri_nodes : forall n, n ∈ q -> n ∈ N;
  ri_degree : forall d, d ∈ N ->
    in_degree !! d = Some (Z.of_nat (pending r d + occ d (filter (fun d => keep d = true) todo)));
  ri_zero : forall d, d ∈ N ->
    pending r d + occ d (filter (fun d => keep d = true) todo) = 0 <-> d ∈ q;
}.

Lemma relax_step r q0 todo in_degree q :
  (forall d, d ∈ todo -> keep d = true -> d ∈ N) ->
  relax_inv r todo in_degree (q0 ++ q) ->
  exists in_degree' q', relax todo in_degree q = (in_degree', q') /\
    relax_inv r [] in_degree' (q0 ++ q').
Proof.
  revert in_degree q. induction todo as [|d todo IH]; intros in_degree q HN [Hnd Hns Hdeg Hz].
  { cbn. eauto 10 using Build_relax_inv. }
  cbn [relax]. destruct (keep d) eqn:Hk; cycle 1.
  { apply IH; [intros; apply HN; [by constructor|done]|].
    split; [done|done| |]; intros e He; [rewrite Hdeg by done|rewrite <- Hz by done];
      rewrite filter_cons_False by congruence; done. }
  assert (d ∈ N) as HdN by (apply HN; [constructor|done]).
  set (todo' := filter (fun d => keep d = true) todo) in *.
  assert (forall e, occ e (filter (fun d => keep d = true) (d :: todo)) =
    (if decide (e = d) then 1 else 0) + occ e todo') as Hocc.
  { intros e. rewrite filter_cons_True by done. apply occ_cons. }
  assert (alter Z.pred d in_degree !! d = Some (Z.of_nat (pending r d + occ d todo'))) as Hd.
  { rewrite lookup_alter_eq, Hdeg, Hocc, decide_True by done. cbn. f_equal. lia. }
  assert (d ∉ q0 ++ q) as Hdq.
  { rewrite <- Hz by done. rewrite Hocc, decide_True by done. lia. }
  assert (forall e, e ∈ N -> alter Z.pred d in_degree !! e =
      Some (Z.of_nat (pending r e + occ e todo'))) as Hdeg'.
  { intros e He. destruct (decide (e = d)) as [->|Hne]; [done|].
    rewrite lookup_alter_ne, Hdeg, Hocc, decide_False by done. done. }
  apply IH; [intros; apply HN; [by constructor|done]|].
  rewrite Hd. destruct (decide (Some (Z.of_nat (pending r d + occ d todo')) = Some 0%Z)) as [E|E].
  - rewrite app_assoc. split; [| |exact Hdeg'|].
    + apply NoDup_app. split; [done|]. split; [|apply NoDup_singleton]. set_solver.
    + intros n [Hn|Hn%list_elem_of_singleton]%elem_of_app; [by apply Hns|by subst].
    + intros e He. fold todo'. rewrite elem_of_app, list_elem_of_singleton, <- Hz, Hocc by done.
      destruct (decide (e = d)) as [->|]; [|naive_solver].
      injection E as E. split; [by right|intros _; lia].
  - split; [done|done|exact Hdeg'|].
    intros e He. fold todo'. rewrite <- Hz, Hocc by done.
    destruct (decide (e = d)) as [->|]; [|done].
    split; [|lia]. intros E'. rewrite E' in E. done.
Qed.

Lemma loop_step n queue result in_degree :
  inv in_degree (n :: queue) result ->
  exists in_degree' queue', relax (adj n) in_degree queue = (in_degree', queue') /\
    inv in_degree' queue' (result ++ [n]).
Proof.
  intros [Hnd Hns Hdeg Hz Hord].
  assert (n ∈ N) as HnN by (apply Hns; set_solver).
  assert (n ∉ result) as Hnr.
  { apply NoDup_app in Hnd as (_ & Hd & _). intros Hin. apply (Hd n Hin). constructor. }
  assert (forall d, pending (result ++ [n]) d + occ d (filter (fun d => keep d = true) (adj n)) =
    pending result d) as Hp.
  { intros d. rewrite (pending_snoc result n d) by done. unfold succs. lia. }
  destruct (relax_step (result ++ [n]) (result ++ [n]) (adj n) in_degree queue)
    as (in_degree' & queue' & Hr & [Hnd' Hns' Hdeg' Hz']).
  { intros d Hd Hk. apply (keep_in n); [done|]. by apply list_elem_of_filter. }
  { split.
    - by rewrite <- app_assoc.
    - intros m Hm. apply Hns. by rewrite <- app_assoc in Hm.
    - intros d Hd. by rewrite Hp, Hdeg.
    - intros d Hd. rewrite Hp, Hz by done. by rewrite <- app_assoc. }
  exists in_degree', queue'. split; [done|]. split; [done|done| | |].
  - intros d Hd. rewrite Hdeg' by done. unfold occ. cbn. f_equal. lia.
  - intros d Hd. rewrite <- Hz' by done. unfold occ. cbn. lia.
  - intros l1 d l2 E m Hm. destruct (snoc_split _ _ _ _ _ E) as [(l2' & -> & E')|(-> & -> & ->)].
    + by eapply Hord.
    + destruct Hm as (HmN & HdN & Hs). revert m HmN Hs. apply pending_zero.
      apply Hz; [done|]. set_solver.
Qed.

(** ** What the loop returns *)

(** A topological order of the nodes that can be ordered: nodes of the graph,
    each once, each after every node that must come before it, and every node
    whose predecessors are all in it. *)
Record topological (r : list K) : Prop := {
  topo_nodup : NoDup r;
  topo_nodes : forall n, n ∈ r -> n ∈ N;
  topo_order : forall l1 d l2, r = l1 ++ d :: l2 -> forall n, edge n d -> n ∈ l1;
  topo_complete : forall d, d ∈ N -> (forall n, edge n d -> n ∈ r) -> d ∈ r;
}.

Lemma loop_total fuel in_degree queue result :
  inv in_degree queue result ->
  size N < fuel + length result ->
  exists r, loop fuel in_degree queue result = Some r /\ topological r.
Proof.
  revert in_degree queue result.
  induction fuel as [|fuel IH]; intros in_degree queue result Hinv Hsize.
  - destruct Hinv as [Hnd Hns _ _ _].
    apply NoDup_app in Hnd as (Hnd & _ & _).
    assert (list_to_set result ⊆ N) as Hsub%subseteq_size.
    { intros n Hn%elem_of_list_to_set. apply Hns. apply elem_of_app. by left. }
    rewrite size_list_to_set in Hsub by done. cbn in Hsize. lia.
  - destruct queue as [|n queue]; cbn [loop].
    + exists result. split; [done|].
      destruct Hinv as [Hnd Hns _ Hz Hord]. rewrite app_nil_r in *. split; [done..|].
      intros d Hd Hpre. apply Hz; [done|]. apply pending_zero.
      intros n Hn Hs. by apply Hpre.
    + destruct (loop_step _ _ _ _ Hinv) as (in_degree' & queue' & -> & Hinv').
      apply IH; [done|]. rewrite length_app. cbn. lia.
Qed.

(** The initial state of both callers: the in-degree dictionary holds the number
    of edges into each node, the queue the nodes of in-degree zero. *)
Lemma inv_init in_degree queue :
  (forall d, d ∈ N -> in_degree !! d = Some (Z.of_nat (pending [] d))) ->
  NoDup queue ->
  (forall d, d ∈ queue <-> d ∈ N /\ in_degree !! d = Some 0%Z) ->
  inv in_degree queue [].
Proof.
  intros Hdeg Hnd Hq. split; cbn.
  - done.
  - intros n Hn. by apply Hq in Hn as [? _].
  - done.
  - intros d Hd. rewrite Hq, Hdeg by done. split; [|intros [_ [= E]]; lia].
    intros ->. by split.
  - intros [] d l2 E; discriminate.
Qed.

Section topological.
Context (r : list K) (Hr : topological r).

Lemma topo_acc d : d ∈ N -> d ∈ r <-> Acc edge d.
Proof.
  intros HdN. split.
  - intros (l1 & l2 & E)%list_elem_of_split. revert d l2 E HdN.
    induction l1 as [l1 IH] using (induction_ltof1 _ length).
    intros d l2 E HdN. constructor. intros n Hn.
    pose proof (topo_order r Hr _ _ _ E n Hn) as (k1 & k2 & E1)%list_elem_of_split.
    subst l1. rewrite <- app_assoc in E. cbn in E.
    eapply (IH k1); [unfold ltof; rewrite length_app; cbn; lia|exact E|by destruct Hn].
  - induction 1 as [d _ IH]. apply (topo_complete r Hr); [done|].
    intros n Hn. apply IH; [done|]. by destruct Hn.
Qed.

Lemma topo_before x d l1 l2 : tc edge x d -> r = l1 ++ d :: l2 -> x ∈ l1.
Proof.
  intros Hx. revert l1 l2. induction Hx as [x d Hxd|x y d Hxy _ IH]; intros l1 l2 E.
  - by eapply (topo_order r Hr).
  - pose proof (IH _ _ E) as (a & b & ->)%list_elem_of_split.
    rewrite <- app_assoc in E. cbn in E.
    apply elem_of_app. left. by eapply (topo_order r Hr).
Qed.

Lemma left_out_pred d : d ∈ N -> d ∉ r -> exists n, edge n d /\ n ∉ r.
Proof.
  intros HdN Hdr.
  assert (Exists (fun n => d ∈ succs n /\ n ∉ r) (elements N)) as Hex.
  { destruct (decide (Exists (fun n => d ∈ succs n /\ n ∉ r) (elements N))) as [|Hno]; [done|].
    destruct Hdr. apply (topo_complete r Hr); [done|]. intros n (HnN & _ & Hs).
    destruct (decide (n ∈ r)) as [|Hnr]; [done|]. destruct Hno.
    apply Exists_exists. exists n. by rewrite elem_of_elements. }
  apply Exists_exists in Hex as (n & Hn%elem_of_elements & Hs & Hnr).
  exists n. done.
Qed.

Lemma left_out_walk k x p :
  size N < length p + k -> NoDup p -> (forall y, y ∈ p -> y ∈ N /\ tc edge x y) ->
  x ∈ N -> x ∉ r -> x ∉ p ->
  exists c, tc edge c c /\ rtc edge c x.
Proof.
  revert x p. induction k as [|k IH]; intros x p Hsize Hnd Hp HxN Hxr Hxp.
  - assert (list_to_set p ⊆ N) as Hsub%subseteq_size.
    { intros y Hy%elem_of_list_to_set. by apply Hp. }
    rewrite size_list_to_set in Hsub by done. lia.
  - destruct (left_out_pred x HxN Hxr) as (n & Hedge & Hnr).
    destruct (decide (n = x)) as [->|Hne].
    { exists x. split; [by apply tc_once|done]. }
    destruct (decide (n ∈ p)) as [Hnp|Hnp].
    { exists n. split; [|by apply rtc_once].
      eapply tc_l; [done|]. by apply Hp. }
    destruct (IH n (x :: p)) as (c & Hc & Hcn).
    + cbn. lia.
    + by constructor.
    + intros y [->|Hy]%elem_of_cons; [split; [done|by apply tc_once]|].
      split; [by apply Hp|]. eapply tc_l; [done|by apply Hp].
    + by destruct Hedge.
    + done.
    + by intros [?|?]%elem_of_cons.
    + exists c. split; [done|]. by eapply rtc_r.
Qed.

Lemma tc_inv_r (R : relation K) x z : tc R x z -> exists y, rtc R x y /\ R y z.
Proof.
  induction 1 as [x z Hxz|x y z Hxy _ (w & Hyw & Hwz)]; [by exists x|].
  exists w. split; [by eapply rtc_l|done].
Qed.

Lemma acc_no_cycle c : Acc edge c -> ~ tc edge c c.
Proof.
  induction 1 as [c _ IH]. intros Hcyc.
  destruct (tc_inv_r _ _ _ Hcyc) as (y & Hcy & Hyc).
  apply (IH y Hyc). eapply tc_rtc_r; [by apply tc_once|done].
Qed.

(** What is left out is exactly what a cycle must come before. *)
Lemma topo_left_out d :
  d ∈ N -> d ∉ r <-> exists c, tc edge c c /\ rtc edge c d.
Proof.
  intros HdN. split.
  - intros Hdr. apply (left_out_walk (S (size N)) d []); [cbn; lia|constructor|by inversion 1|done|done|].
    by inversion 1.
  - intros (c & Hcyc & Hcd) Hdr%topo_acc; [|done].
    assert (Acc edge c) as Hacc.
    { clear Hcyc. induction Hcd as [|x y z Hxy _ IH]; [done|].
      assert (Acc edge y) as [Hy] by (apply IH; [by destruct Hxy as (_ & ? & _)|done]). by apply Hy. }
    by eapply acc_no_cycle.
Qed.

Lemma topo_all_iff_acyclic :
  (forall d, d ∈ N -> d ∈ r) <-> (forall c, ~ tc edge c c).
Proof.
  split.
  - intros Hall c Hc.
    assert (c ∈ N) as HcN by (by inversion Hc as [? ? (? & _)|? ? ? (? & _)]; subst).
    destruct (proj2 (topo_left_out c HcN)); [by exists c|by apply Hall].
  - intros Hac d HdN. destruct (decide (d ∈ r)) as [|Hdr]; [done|].
    apply topo_left_out in Hdr as (c & Hc & _); [|done]. by apply Hac in Hc.
Qed.
End topological.

End kahn.
