(* ===== verification/Errors.v ===== *)
(** * Failure classification

    [sova/llm/errors.py]: the category of an LLM failure, read from its text or
    from the exception. The workflow engine decides with it whether to retry, to
    switch to a fallback model, or to give up. *)

From stdpp Require Import base strings list.
From S2P Require Import Prelude.
Local Open Scope string_scope.

(** The exception classes; every one is a direct subclass of [LLMError]. *)
Inductive llm_error :=
  | LLMError | BillingError | ConfigurationError | ModelUnavailableError | RateLimitError
  | ProviderUnavailableError | LLMTimeoutError | LLMInvocationError.

#[export] Instance llm_error_eq_dec : EqDecision llm_error.
Proof. solve_decision. Defined.

Definition BILLING_PATTERNS : list string := ["budget_exhausted"; "billing"; "insufficient_quota"].
Definition CONFIGURATION_PATTERNS : list string := ["sova_configuration_error"].
Definition MODEL_UNAVAILABLE_PATTERNS : list string := ["is not available"; "not_available"].
Definition RATE_LIMIT_PATTERNS : list string := ["rate_limit"; "overloaded"; " 429"].
Definition PROVIDER_UNAVAILABLE_PATTERNS : list string :=
  ["connection refused"; "connection error"; "command not found"; "no such file or directory"].
Definition TIMEOUT_PATTERNS : list string := ["timed out"; "timeout"; "deadline exceeded"].

(** [_CATEGORIES], in scanning order. *)
Definition CATEGORIES : list (llm_error * list string) :=
  [(ConfigurationError, CONFIGURATION_PATTERNS);
   (BillingError, BILLING_PATTERNS);
   (ModelUnavailableError, MODEL_UNAVAILABLE_PATTERNS);
   (RateLimitError, RATE_LIMIT_PATTERNS);
   (ProviderUnavailableError, PROVIDER_UNAVAILABLE_PATTERNS);
   (LLMTimeoutError, TIMEOUT_PATTERNS)].

(** [_FALLBACK_ELIGIBLE], [_BILLING_FAILURE_CATEGORIES] *)
Definition FALLBACK_ELIGIBLE : list llm_error :=
  [ModelUnavailableError; RateLimitError; ProviderUnavailableError; LLMTimeoutError].

Definition BILLING_FAILURE_CATEGORIES : list llm_error :=
  [BillingError; ModelUnavailableError; RateLimitError].

(** [_EXCEPTION_NAMES], [_STATUS_CODES] *)
Definition EXCEPTION_NAMES : list (string * llm_error) :=
  [("APIConnectionError", ProviderUnavailableError);
   ("APITimeoutError", LLMTimeoutError);
   ("BudgetExceededError", BillingError);
   ("ConnectError", ProviderUnavailableError);
   ("ConnectionError", ProviderUnavailableError);
   ("InternalServerError", ProviderUnavailableError);
   ("NotFoundError", ModelUnavailableError);
   ("RateLimitError", RateLimitError);
   ("ServiceUnavailableError", ProviderUnavailableError);
   ("Timeout", LLMTimeoutError);
   ("TimeoutError", LLMTimeoutError)].

Definition STATUS_CODES : list (Z * llm_error) :=
  [(402%Z, BillingError); (404%Z, ModelUnavailableError); (408%Z, LLMTimeoutError);
   (429%Z, RateLimitError)].

Fixpoint assoc {A B} `{EqDecision A} (k : A) (l : list (A * B)) : option B :=
  match l with
  | [] => None
  | (k', v) :: l' => if decide (k = k') then Some v else assoc k l'
  end.

(** The loop over [_CATEGORIES]. *)
Fixpoint scan (lower : string) (cats : list (llm_error * list string)) : llm_error :=
  match cats with
  | [] => LLMInvocationError
  | (cls, patterns) :: cats' =>
      if existsb (PyStr.contains lower) patterns then cls else scan lower cats'
  end.

(** [classify_error]; [None] and the empty text are both falsy. *)
Definition classify_error (detail : option string) : llm_error :=
  match detail with
  | None => LLMInvocationError
  | Some d => if decide (d = "") then LLMInvocationError else scan (PyStr.lower d) CATEGORIES
  end.

(** What the code reads of a raised exception: its class when it is one of the
    hierarchy, the names along its MRO, an integer [status_code], and [str(exc)]. *)
Record exception := {
  exc_class : option llm_error;
  exc_mro : list string;
  exc_status_code : option Z;
  exc_text : string;
}.

Fixpoint first_mapped (names : list string) : option llm_error :=
  match names with
  | [] => None
  | n :: names' =>
      match assoc n EXCEPTION_NAMES with
      | Some c => Some c
      | None => first_mapped names'
      end
  end.

Definition classify_status (code : Z) : option llm_error :=
  match assoc code STATUS_CODES with
  | Some c => Some c
  | None => if Z.leb 500 code then Some ProviderUnavailableError else None
  end.

(** [classify_exception] *)
Definition classify_exception (exc : exception) : llm_error :=
  match exc_class exc with
  | Some c => c
  | None =>
      match first_mapped (exc_mro exc) with
      | Some c => c
      | None =>
          match exc_status_code exc ≫= classify_status with
          | Some c => c
          | None => classify_error (Some (exc_text exc))
          end
      end
  end.

(** The two forms a failure is classified from. *)
Inductive failure := Detail (d : option string) | Exc (e : exception).

(** [resolve_error_category]; a non-exception stays uncategorized. *)
Definition resolve_error_category (f : failure) : llm_error :=
  match f with
  | Exc e => match exc_class e with Some c => c | None => classify_error (Some (exc_text e)) end
  | Detail _ => LLMInvocationError
  end.

(** [is_fallback_eligible] *)
Definition is_fallback_eligible (f : failure) : bool :=
  bool_decide (resolve_error_category f ∈ FALLBACK_ELIGIBLE).

(** [is_billing_failure], [is_configuration_failure] *)
Definition category (f : failure) : llm_error :=
  match f with Exc e => classify_exception e | Detail d => classify_error d end.

Definition is_billing_failure (f : failure) : bool :=
  bool_decide (category f ∈ BILLING_FAILURE_CATEGORIES).

Definition is_configuration_failure (f : failure) : bool :=
  bool_decide (category f = ConfigurationError).

(** ** Lemmas *)

Local Close Scope string_scope.

(** A detail mentions a category. *)
Definition mentions (d : string) (patterns : list string) : Prop :=
  exists p, p ∈ patterns /\ PyStr.contains (PyStr.lower d) p = true.

Lemma existsb_mentions d patterns :
  existsb (PyStr.contains (PyStr.lower d)) patterns = true <-> mentions d patterns.
Proof. unfold mentions. rewrite existsb_exists. by setoid_rewrite list_elem_of_In. Qed.

Lemma scan_spec d cats c :
  scan (PyStr.lower d) cats = c <->
  (exists cats1 patterns cats2, cats = cats1 ++ (c, patterns) :: cats2 /\ mentions d patterns /\
     Forall (fun cp => ~ mentions d cp.2) cats1) \/
  (c = LLMInvocationError /\ Forall (fun cp => ~ mentions d cp.2) cats).
Proof.
  revert c. induction cats as [|[c0 patterns] cats IH]; intros c; cbn [scan].
  - split; [intros <-; right; split; [done|constructor]|].
    intros [(cats1 & ? & ? & E & _)|[-> _]]; [by destruct cats1|done].
  - destruct (existsb _ patterns) eqn:E.
    + apply existsb_mentions in E. split.
      * intros <-. left. exists [], patterns, cats. split_and!; [done..|constructor].
      * intros [(cats1 & p & cats2 & Ec & Hm & Hn)|[_ Hn]].
        -- destruct cats1 as [|x cats1]; [by injection Ec|].
           injection Ec as <- _. apply Forall_cons in Hn as [Hn _]. done.
        -- apply Forall_cons in Hn as [Hn _]. done.
    + assert (~ mentions d patterns) as Hno by (rewrite <- existsb_mentions; congruence).
      rewrite IH. split.
      * intros [(cats1 & p & cats2 & -> & Hm & Hn)|[-> Hn]].
        -- left. exists ((c0, patterns) :: cats1), p, cats2. split_and!; [done..|by constructor].
        -- right. split; [done|by constructor].
      * intros [(cats1 & p & cats2 & Ec & Hm & Hn)|[-> Hn]].
        -- destruct cats1 as [|x cats1]; [by injection Ec as -> -> _|].
           injection Ec as <- Ec. apply Forall_cons in Hn as [_ Hn]. left. by exists cats1, p, cats2.
        -- apply Forall_cons in Hn as [_ Hn]. by right.
Qed.

Lemma scan_category d : scan (PyStr.lower d) CATEGORIES <> LLMError.
Proof. unfold CATEGORIES. cbn [scan]. repeat case_match; done. Qed.

(** ** Properties *)

(** [classify_error] scans terminal categories first. Text that names a
    configuration fault is a configuration failure whatever else it mentions:
    never a billing failure and never eligible for a fallback model. Otherwise
    text that names an exhausted budget is a billing failure, and not eligible
    for a fallback model even when it also mentions a 429 or a timeout. The
    classification ignores case, and missing or empty text names no category. *)
Theorem classify_terminal_first (d : string) (e : exception) :
  exc_class e = None -> exc_text e = d -> d <> ""%string ->
  (mentions d CONFIGURATION_PATTERNS ->
     is_configuration_failure (Detail (Some d)) = true /\ is_billing_failure (Detail (Some d)) = false /\
     is_fallback_eligible (Exc e) = false) /\
  (~ mentions d CONFIGURATION_PATTERNS -> mentions d BILLING_PATTERNS ->
     is_configuration_failure (Detail (Some d)) = false /\ is_billing_failure (Detail (Some d)) = true /\
     is_fallback_eligible (Exc e) = false) /\
  (classify_error (Some d) = LLMInvocationError <->
     forall c patterns, (c, patterns) ∈ CATEGORIES -> ~ mentions d patterns) /\
  classify_error (Some (PyStr.lower d)) = classify_error (Some d) /\
  classify_error None = classify_error (Some ""%string).
Proof.
  intros Hc He Hd. unfold is_configuration_failure, is_billing_failure, is_fallback_eligible.
  cbn [category resolve_error_category]. rewrite Hc, He.
  assert (classify_error (Some d) = scan (PyStr.lower d) CATEGORIES) as E.
  { unfold classify_error. by rewrite decide_False. }
  rewrite E. split; [|split; [|split; [|split]]].
  - intros Hm. replace (scan (PyStr.lower d) CATEGORIES) with ConfigurationError; [done|].
    symmetry. apply scan_spec. left. exists [], CONFIGURATION_PATTERNS. eexists. split_and!; [done..|constructor].
  - intros Hn Hm. replace (scan (PyStr.lower d) CATEGORIES) with BillingError; [done|].
    symmetry. apply scan_spec. left.
    exists [(ConfigurationError, CONFIGURATION_PATTERNS)], BILLING_PATTERNS. eexists.
    split_and!; [done..|by repeat constructor].
  - rewrite scan_spec. split.
    + intros [(c1 & p & c2 & Ec & _)|[_ Hn]] c patterns Hin.
      * exfalso. assert (LLMInvocationError ∈ CATEGORIES.*1) as Hbad.
        { rewrite Ec, fmap_app. apply elem_of_app. right. constructor. }
        clear -Hbad. cbn in Hbad. repeat (apply elem_of_cons in Hbad as [?|Hbad]; [done|]). by inversion Hbad.
      * rewrite Forall_forall in Hn. by apply (Hn (c, patterns)).
    + intros Hn. right. split; [done|]. apply Forall_forall. intros [c p] Hin. by eapply Hn.
  - assert (PyStr.lower d <> ""%string) as Hl.
    { intros El. apply Hd. apply (f_equal PyStr.to_list) in El. unfold PyStr.lower in El.
      rewrite PyStr.to_of_list in El. destruct d; [done|]. done. }
    unfold classify_error. rewrite !decide_False by done. by rewrite PyStr.lower_idemp.
  - done.
Qed.

Lemma classify_terminal_first_witness :
  is_billing_failure (Detail (Some "Insufficient_quota: HTTP 429"%string)) = true /\
  is_fallback_eligible (Exc {| exc_class := None; exc_mro := []; exc_status_code := None;
                               exc_text := "Insufficient_quota: HTTP 429"%string |}) = false.
Proof.
  edestruct (classify_terminal_first "Insufficient_quota: HTTP 429"%string
    {| exc_class := None; exc_mro := []; exc_status_code := None;
       exc_text := "Insufficient_quota: HTTP 429"%string |}) as (_ & H & _); [done|done|done|].
  assert (~ mentions "Insufficient_quota: HTTP 429"%string CONFIGURATION_PATTERNS) as H1.
  { rewrite <- existsb_mentions. by vm_compute. }
  assert (mentions "Insufficient_quota: HTTP 429"%string BILLING_PATTERNS) as H2.
  { rewrite <- existsb_mentions. by vm_compute. }
  destruct (H H1 H2) as (_ & ? & ?). by split.
Defined.
