(* ===== verification/Tracker.v ===== *)
(** * The tracker data model

    [Task] and [TaskState] of [sova/adapters/base.py], and the label helpers of
    [sova/supervisor/labels.py]. The record keeps the fields the scheduling code
    reads; the remaining ones (assignees, url, metadata, Jira extras) are only
    carried around. *)

From stdpp Require Import base gmap strings list fin_maps sorting.
From S2P Require Import Prelude Priority.
Local Open Scope string_scope.

Module TaskState.

Inductive t :=
  | BACKLOG | TRIAGED | RESEARCHED | IN_PROGRESS | IN_REVIEW | ON_QA | DONE
  | NEEDS_SPEC | HUMAN_ONLY.

#[global] Instance t_eq_dec : EqDecision t.
Proof. solve_decision. Defined.

Definition value (s : t) : string :=
  match s with
  | BACKLOG => "backlog"
  | TRIAGED => "triaged"
  | RESEARCHED => "researched"
  | IN_PROGRESS => "in_progress"
  | IN_REVIEW => "in_review"
  | ON_QA => "on_qa"
  | DONE => "done"
  | NEEDS_SPEC => "needs_spec"
  | HUMAN_ONLY => "human_only"
  end.

End TaskState.

(** [class Task] *)
Record Task := {
  task_id : string;
  task_title : string;
  task_body : string;
  task_state : TaskState.t;
  task_labels : list string;
  task_assignees : list string;
  task_milestone : string;
  task_priority : Priority.t;
}.

#[export] Instance Task_eq_dec : EqDecision Task.
Proof. solve_decision. Defined.

(** [sova/supervisor/labels.py] *)
Module Labels.

(** [label.lower().strip()] *)
Definition norm (label : string) : string := PyStr.strip (PyStr.lower label).

(** [any(label.lower().strip() == wanted for label in labels)] *)
Definition has (wanted : string) (labels : list string) : bool :=
  existsb (fun label => bool_decide (norm label = wanted)) labels.

Definition is_epic (labels : list string) : bool := has "type: epic" labels.
Definition is_human_only (labels : list string) : bool := has "agent:human-only" labels.
Definition is_interactive_recommended (labels : list string) : bool :=
  has "agent:interactive-recommended" labels.
Definition is_on_hold (labels : list string) : bool := has "agent:on-hold" labels.
Definition is_ready (labels : list string) : bool := has "agent:ready" labels.

Definition past_pre_development_labels : gset string :=
  {["agent:triaged"; "agent:researched"; "agent:in-progress"; "agent:in-review"; "agent:on-qa"]}.

Definition is_past_pre_development (labels : list string) : bool :=
  bool_decide (list_to_set (map norm labels) ∩ past_pre_development_labels <> ∅).

Definition local_assessment_applies (labels : list string) : bool :=
  negb (is_ready labels) && negb (is_past_pre_development labels) &&
  negb (is_human_only labels) && negb (is_interactive_recommended labels) &&
  negb (is_on_hold labels) && negb (is_epic labels).

Lemma has_true w labels : has w labels = true <-> exists l, l ∈ labels /\ norm l = w.
Proof.
  unfold has. rewrite existsb_exists. setoid_rewrite list_elem_of_In.
  setoid_rewrite bool_decide_eq_true. done.
Qed.

Lemma has_norm w labels : has w (map norm labels) = has w labels.
Proof.
  unfold has. induction labels as [|l ls IH]; [done|]. cbn. rewrite IH.
  unfold norm. by rewrite PyStr.strip_lower_idemp.
Qed.

End Labels.
