(* ===== verification/Suitability.v ===== *)
(** * Suitability: which issues an agent may pick up, and in which order

    [sova/supervisor/suitability.py]. The classifier and the ranker read the
    dependency graph only through four of its methods: that interface is the
    class [GraphView], implemented by [DepGraph]. *)

From stdpp Require Import base gmap strings list fin_maps sorting relations pretty.
From S2P Require Import Prelude Priority Tracker.
Local Open Scope string_scope.

(** ** What the classifier needs from a dependency graph *)

Class GraphView (G : Type) := {
  has_task : G -> Z -> bool;
  get_task : G -> Z -> option Task;
  get_dependencies : G -> Z -> gset Z;
  get_dependents : G -> Z -> gset Z;
  (** the issues of the graph: every dependent is one *)
  graph_nodes : G -> gset Z;
}.

Class GraphViewLaws (G : Type) `{GraphView G} := {
  has_task_get : forall g i, has_task g i = true <-> is_Some (get_task g i);
  get_task_nodes : forall g i, is_Some (get_task g i) <-> i ∈ graph_nodes g;
  (** the graphs the implementation builds *)
  view_ok : G -> Prop;
  get_dependents_nodes : forall g i, view_ok g -> get_dependents g i ⊆ graph_nodes g;
}.

(** ** Data *)

(** [class SuitabilityMode(StrEnum)] *)
Inductive SuitabilityMode := EPIC | HUMAN | BLOCKED | INTERACTIVE | AUTONOMOUS | UNCLASSIFIED.

#[global] Instance SuitabilityMode_eq_dec : EqDecision SuitabilityMode.
Proof. solve_decision. Defined.

(** [AGENT_ELIGIBLE_MODES] *)
Definition agent_eligible (m : SuitabilityMode) : bool :=
  match m with AUTONOMOUS | UNCLASSIFIED => true | _ => false end.

(** One entry of [reasons]: a dictionary with a source and a value, which is a
    text for the labels, the local record and the graph, an issue number for a
    dependency. *)
Inductive reason :=
  | reason_text (source value : string)
  | reason_dependency (dep : Z).

Record Suitability := {
  mode : SuitabilityMode;
  reasons : list reason;
  blocked_by : list Z;
}.

(** [_LOCAL_READY], [_LOCAL_INTERACTIVE], [_LOCAL_HUMAN_ONLY]: the stored values
    of [SUITABILITY_SHORTHANDS] ([sova/knowledge/assessments.py]). *)
Definition SUITABILITY_SHORTHANDS : list (string * string) :=
  [("ready", "ready"); ("interactive", "interactive_recommended"); ("human-only", "human_only")].

Definition LOCAL_READY : string := "ready".
Definition LOCAL_INTERACTIVE : string := "interactive_recommended".
Definition LOCAL_HUMAN_ONLY : string := "human_only".

Section suitability.
Context {G : Type} `{GraphView G}.

(** ** Classification *)

(** One dependency of the walk: [Some dep] when it blocks. *)
Definition blocking_dep (g : G) (dep : Z) : option Z :=
  match get_task g dep with
  | None => Some dep
  | Some dep_task =>
      if Labels.is_epic (task_labels dep_task) then None
      else if decide (task_state dep_task = TaskState.DONE) then None
      else Some dep
  end.

(** [unsatisfied_dependencies] *)
Definition unsatisfied_dependencies (issue : Z) (graph : option G) : option (list Z) :=
  match graph with
  | None => None
  | Some g =>
      if has_task g issue
      then Some (omap (blocking_dep g) (sorted_set (get_dependencies g issue)))
      else None
  end.

(** [_unsatisfied_dependencies] *)
Definition unsatisfied_dependencies_of (task : Task) (graph : option G) : option (list Z) :=
  match PyStr.int_of (task_id task) with
  | None => None
  | Some tid => unsatisfied_dependencies tid graph
  end.

Definition verdict (m : SuitabilityMode) (rs : list reason) : Suitability :=
  {| mode := m; reasons := rs; blocked_by := [] |}.

(** The part of [assess_suitability] after the dependency branch. *)
Definition assess_after_dependencies
    (labels : list string) (local_assessment : option string) : Suitability :=
  let ready_label := Labels.is_ready labels in
  if Labels.is_interactive_recommended labels
  then verdict INTERACTIVE [reason_text "label" "agent:interactive-recommended"]
  else if negb ready_label && bool_decide (local_assessment = Some LOCAL_INTERACTIVE)
  then verdict INTERACTIVE [reason_text "local_assessment" "interactive_recommended"]
  else if ready_label
  then verdict AUTONOMOUS [reason_text "label" "agent:ready"]
  else if bool_decide (local_assessment = Some LOCAL_READY)
  then verdict AUTONOMOUS [reason_text "local_assessment" "ready"]
  else verdict UNCLASSIFIED [].

(** [assess_suitability] *)
Definition assess_suitability (task : Task) (graph : option G)
    (local_assessment : option string) (consider_dependencies : bool) : Suitability :=
  let labels := task_labels task in
  if Labels.is_epic labels
  then verdict EPIC [reason_text "label" "type: epic"]
  else
  let ready_label := Labels.is_ready labels in
  if Labels.is_human_only labels
  then verdict HUMAN [reason_text "label" "agent:human-only"]
  else if negb ready_label && bool_decide (local_assessment = Some LOCAL_HUMAN_ONLY)
  then verdict HUMAN [reason_text "local_assessment" "human_only"]
  else if Labels.is_on_hold labels
  then verdict BLOCKED [reason_text "label" "agent:on-hold"]
  else if consider_dependencies
  then match unsatisfied_dependencies_of task graph with
       | None => verdict BLOCKED [reason_text "graph" "unavailable"]
       | Some [] => assess_after_dependencies labels local_assessment
       | Some deps =>
           {| mode := BLOCKED; reasons := map reason_dependency deps; blocked_by := deps |}
       end
  else assess_after_dependencies labels local_assessment.

(** ** Ranking *)

(** [_NEXT_TASK_STATES] *)
Definition next_task_state (s : TaskState.t) : bool :=
  match s with TaskState.TRIAGED | TaskState.RESEARCHED => true | _ => false end.

(** [class RankedTask] *)
Record RankedTask := {
  rt_task : Task;
  rt_rank : nat;
  rt_unblocks : nat;
  rt_phase : Z;
  rt_mode : SuitabilityMode;
  rt_why : list string;
}.

(** [_candidates] *)
Definition candidate (g : G) (running open_prs : gset Z) (task : Task) : option (Z * Task * Suitability) :=
  match PyStr.int_of (task_id task) with
  | None => None
  | Some issue =>
      if negb (next_task_state (task_state task)) || bool_decide (issue ∈ running)
         || bool_decide (issue ∈ open_prs)
      then None
      else Some (issue, task, assess_suitability task (Some g) None true)
  end.

Definition candidates (tasks : list Task) (g : G) (running open_prs : gset Z) :=
  omap (candidate g running open_prs) tasks.

(** Whether [_unblock_count] counts a dependent and walks on through it. *)
Definition counts (g : G) (dependent : Z) : bool :=
  match get_task g dependent with
  | None => false
  | Some t => negb (bool_decide (task_state t = TaskState.DONE) || Labels.is_epic (task_labels t))
  end.

Context `{!SetOrder Z}.

(** The inner loop of [_unblock_count] over the dependents of one issue. *)
Fixpoint unblock_visit (g : G) (dependents : list Z) (seen : gset Z) (pending : list Z) (count : nat)
    : gset Z * list Z * nat :=
  match dependents with
  | [] => (seen, pending, count)
  | dependent :: rest =>
      if bool_decide (dependent ∈ seen) then unblock_visit g rest seen pending count
      else
        let seen := {[dependent]} ∪ seen in
        if counts g dependent
        then unblock_visit g rest seen (pending ++ [dependent]) (S count)
        else unblock_visit g rest seen pending count
  end.

Fixpoint unblock_loop (fuel : nat) (g : G) (seen : gset Z) (pending : list Z) (count : nat) : option nat :=
  match fuel with
  | 0 => None
  | S fuel =>
      match pending with
      | [] => Some count
      | issue :: pending =>
          let '(seen, pending, count) :=
            unblock_visit g (set_iter (get_dependents g issue)) seen pending count in
          unblock_loop fuel g seen pending count
      end
  end%nat.

(** [_unblock_count]; the fuel is enough for every graph ([unblock_count_spec]). *)
Definition unblock_count (issue : Z) (g : G) : nat :=
  default 0%nat (unblock_loop (2 + size (graph_nodes g)) g {[issue]} [issue] 0).

(** [_why] *)
Definition why (task : Task) (unblocks : nat) (phase : Z) : list string :=
  ["priority:" ++ Priority.value (task_priority task)]
  ++ (if decide (0 < unblocks)%nat then ["unblocks:" ++ pretty (Z.of_nat unblocks)] else [])
  ++ (if decide (phase <> Milestone.UNPHASED) then ["phase:" ++ pretty phase] else [])
  ++ ["state:" ++ TaskState.value (task_state task)].

(** The loop of [_rank_candidates] that builds the unranked entries. *)
Definition unranked_entry (g : G) (c : Z * Task * Suitability) : option RankedTask :=
  let '(issue, task, suitability) := c in
  if decide (mode suitability = AUTONOMOUS) then
    let unblocks := unblock_count issue g in
    let phase := Milestone.extract_phase_order (task_milestone task) in
    Some {| rt_task := task; rt_rank := 0; rt_unblocks := unblocks; rt_phase := phase;
            rt_mode := mode suitability; rt_why := why task unblocks phase |}
  else None.

(** The sort key: [(priority.rank, -unblocks, phase, int(task.id))]. *)
Definition rank_key (r : RankedTask) : list Z :=
  [Z.of_nat (Priority.rank (task_priority (rt_task r))); (- Z.of_nat (rt_unblocks r))%Z;
   rt_phase r; default 0%Z (PyStr.int_of (task_id (rt_task r)))].

(** [replace(r, rank=position) for position, r in enumerate(unranked, start=1)] *)
Fixpoint number_from (position : nat) (l : list RankedTask) : list RankedTask :=
  match l with
  | [] => []
  | r :: l' =>
      {| rt_task := rt_task r; rt_rank := position; rt_unblocks := rt_unblocks r;
         rt_phase := rt_phase r; rt_mode := rt_mode r; rt_why := rt_why r |}
      :: number_from (S position) l'
  end.

(** [_rank_candidates] *)
Definition rank_candidates (cs : list (Z * Task * Suitability)) (g : G) (limit : option Z) : list RankedTask :=
  let unranked := omap (unranked_entry g) cs in
  let ranked := number_from 1 (sort_by rank_key unranked) in
  match limit with
  | None => ranked
  | Some limit => py_take limit ranked
  end.

(** [_count_unclassified] *)
Definition count_unclassified (cs : list (Z * Task * Suitability)) : nat :=
  length (filter (fun c : Z * Task * Suitability => mode c.2 = UNCLASSIFIED) cs).

(** [rank_next_tasks] *)
Definition rank_next_tasks (tasks : list Task) (g : G) (running open_prs : gset Z) (limit : option Z)
    : list RankedTask :=
  rank_candidates (candidates tasks g running open_prs) g limit.

(** [rank_and_count_next_tasks] *)
Definition rank_and_count_next_tasks (tasks : list Task) (g : G) (running open_prs : gset Z)
    (limit : option Z) : list RankedTask * nat :=
  let cs := candidates tasks g running open_prs in
  (rank_candidates cs g limit, count_unclassified cs).

End suitability.

(** ** Classification: specification and theorems *)

Local Close Scope string_scope.

Section classification.
Context {G : Type} `{GraphViewLaws G}.

(** A dependency that does not block: an epic, or a finished issue. *)
Definition dep_satisfied (g : G) (dep : Z) : Prop :=
  exists t, get_task g dep = Some t /\
    (Labels.is_epic (task_labels t) = true \/ task_state t = TaskState.DONE).

Lemma blocking_dep_None g dep : blocking_dep g dep = None <-> dep_satisfied g dep.
Proof.
  unfold blocking_dep, dep_satisfied.
  destruct (get_task g dep) as [t|]; [|split; [done|by intros (? & ? & _)]].
  destruct (Labels.is_epic (task_labels t)) eqn:E; [split; eauto|].
  case_decide; (split; [eauto|]); [done|done|]. intros (t' & [= <-] & [?|?]); congruence.
Qed.

Lemma blocking_dep_Some g dep d : blocking_dep g dep = Some d -> d = dep.
Proof. unfold blocking_dep. intros E. repeat case_match; congruence. Qed.

Lemma elem_of_unsatisfied g issue deps d :
  unsatisfied_dependencies issue (Some g) = Some deps ->
  d ∈ deps <-> d ∈ get_dependencies g issue /\ ~ dep_satisfied g d.
Proof.
  unfold unsatisfied_dependencies. case_match; [|done]. intros [= <-].
  rewrite list_elem_of_omap. setoid_rewrite elem_of_sorted_set.
  setoid_rewrite <- blocking_dep_None. split.
  - intros (x & Hx & Hd). pose proof (blocking_dep_Some _ _ _ Hd) as ->. by rewrite Hd.
  - intros [Hd Hb]. exists d. split; [done|].
    destruct (blocking_dep g d) eqn:E; [|done]. by rewrite (blocking_dep_Some _ _ _ E).
Qed.

Lemma unsatisfied_nil_iff g issue :
  unsatisfied_dependencies issue (Some g) = Some [] <->
  has_task g issue = true /\ forall d, d ∈ get_dependencies g issue -> dep_satisfied g d.
Proof.
  unfold unsatisfied_dependencies. case_match; [|split; [done|by intros [? _]]].
  split.
  - intros [= E]. split; [done|]. intros d Hd.
    apply blocking_dep_None, eq_None_not_Some. intros [x Hx].
    assert (x ∈ omap (blocking_dep g) (sorted_set (get_dependencies g issue))) as Hin.
    { apply list_elem_of_omap. exists d. by rewrite elem_of_sorted_set. }
    rewrite E in Hin. by inversion Hin.
  - intros [_ Hall]. f_equal. apply elem_of_nil_inv. intros x (d & Hd & Hx)%list_elem_of_omap.
    apply elem_of_sorted_set, Hall, blocking_dep_None in Hd. congruence.
Qed.

(** The condition under which each mode applies, read on its own. *)
Definition mode_applies (task : Task) (graph : option G) (local : option string)
    (consider_dependencies : bool) (m : SuitabilityMode) : bool :=
  let labels := task_labels task in
  let ready := Labels.is_ready labels in
  match m with
  | EPIC => Labels.is_epic labels
  | HUMAN =>
      Labels.is_human_only labels || negb ready && bool_decide (local = Some LOCAL_HUMAN_ONLY)
  | BLOCKED =>
      Labels.is_on_hold labels ||
      consider_dependencies &&
        negb (bool_decide (unsatisfied_dependencies_of task graph = Some []))
  | INTERACTIVE =>
      Labels.is_interactive_recommended labels ||
      negb ready && bool_decide (local = Some LOCAL_INTERACTIVE)
  | AUTONOMOUS => ready || bool_decide (local = Some LOCAL_READY)
  | UNCLASSIFIED => true
  end.

(** [Precedence: epic > human > blocked > interactive > autonomous > unclassified]. *)
Definition precedence : list SuitabilityMode :=
  [EPIC; HUMAN; BLOCKED; INTERACTIVE; AUTONOMOUS; UNCLASSIFIED].

Fixpoint first_in (applies : SuitabilityMode -> bool) (l : list SuitabilityMode) : SuitabilityMode :=
  match l with
  | [] => UNCLASSIFIED
  | m :: l' => if applies m then m else first_in applies l'
  end.

Definition first_mode (applies : SuitabilityMode -> bool) : SuitabilityMode :=
  first_in applies precedence.

Lemma assess_after_mode labels local :
  mode (assess_after_dependencies labels local) =
  if Labels.is_interactive_recommended labels
     || negb (Labels.is_ready labels) && bool_decide (local = Some LOCAL_INTERACTIVE)
  then INTERACTIVE
  else if Labels.is_ready labels || bool_decide (local = Some LOCAL_READY)
  then AUTONOMOUS else UNCLASSIFIED.
Proof. unfold assess_after_dependencies. repeat case_match; simpl in *; congruence. Qed.

Lemma first_mode_unfold applies :
  first_mode applies =
  if applies EPIC then EPIC else if applies HUMAN then HUMAN
  else if applies BLOCKED then BLOCKED else if applies INTERACTIVE then INTERACTIVE
  else if applies AUTONOMOUS then AUTONOMOUS else UNCLASSIFIED.
Proof. unfold first_mode. cbn. by destruct (applies UNCLASSIFIED). Qed.

Lemma assess_mode_first task graph local cd :
  mode (assess_suitability task graph local cd) =
  first_mode (mode_applies task graph local cd).
Proof.
  rewrite first_mode_unfold. unfold assess_suitability, mode_applies.
  destruct (Labels.is_epic _); [done|].
  destruct (Labels.is_human_only _); [done|]. cbn [orb].
  destruct (negb _ && bool_decide (local = Some LOCAL_HUMAN_ONLY)); [done|].
  destruct (Labels.is_on_hold _); [done|]. cbn [orb].
  destruct cd; cbn [andb]; [|apply assess_after_mode].
  destruct (unsatisfied_dependencies_of task graph) as [[|d deps]|] eqn:E; cbn [negb].
  - rewrite bool_decide_eq_true_2 by done. apply assess_after_mode.
  - by rewrite bool_decide_eq_false_2.
  - by rewrite bool_decide_eq_false_2.
Qed.

(** When an agent may work on an issue, given the whole graph. *)
Definition schedulable (task : Task) (g : G) (local : option string) : Prop :=
  let labels := task_labels task in
  Labels.is_epic labels = false /\ Labels.is_human_only labels = false /\
  Labels.is_on_hold labels = false /\ Labels.is_interactive_recommended labels = false /\
  (Labels.is_ready labels = true \/
   (local <> Some LOCAL_HUMAN_ONLY /\ local <> Some LOCAL_INTERACTIVE)) /\
  exists issue, PyStr.int_of (task_id task) = Some issue /\ has_task g issue = true /\
    forall d, d ∈ get_dependencies g issue -> dep_satisfied g d.

Lemma assess_eligible_schedulable task g local :
  agent_eligible (mode (assess_suitability task (Some g) local true)) = true <->
  schedulable task g local.
Proof.
  rewrite assess_mode_first, first_mode_unfold.
  assert (unsatisfied_dependencies_of task (Some g) = Some [] <->
    exists issue, PyStr.int_of (task_id task) = Some issue /\ has_task g issue = true /\
      forall d, d ∈ get_dependencies g issue -> dep_satisfied g d) as Hdeps.
  { unfold unsatisfied_dependencies_of. destruct (PyStr.int_of _) as [i|].
    - rewrite unsatisfied_nil_iff. split; [by exists i|by intros (? & [= <-] & ?)].
    - split; [done|by intros (? & [=] & _)]. }
  unfold schedulable. rewrite <- Hdeps. unfold mode_applies. clear Hdeps.
  destruct (Labels.is_epic _); [cbn; intuition congruence|].
  destruct (Labels.is_human_only _); [cbn; intuition congruence|].
  destruct (Labels.is_on_hold _); cbn [orb andb]; [case_match; cbn; intuition congruence|].
  destruct (Labels.is_interactive_recommended _), (Labels.is_ready _); cbn [orb andb negb];
  repeat (case_bool_decide; cbn [orb andb negb]); cbn; intuition congruence.
Qed.

(** The refusals carry the open dependencies, and only them. *)
Lemma assess_blocked_by task g local :
  let s := assess_suitability task (Some g) local true in
  blocked_by s <> [] ->
  mode s = BLOCKED /\ reasons s = map reason_dependency (blocked_by s) /\
  exists issue, PyStr.int_of (task_id task) = Some issue /\ has_task g issue = true /\
    forall d, d ∈ blocked_by s <-> d ∈ get_dependencies g issue /\ ~ dep_satisfied g d.
Proof.
  cbn. unfold assess_suitability, unsatisfied_dependencies_of.
  destruct (Labels.is_epic _); [done|]. destruct (Labels.is_human_only _); [done|].
  destruct (_ && _); [done|]. destruct (Labels.is_on_hold _); [done|].
  destruct (PyStr.int_of _) as [i|]; [|done].
  assert (blocked_by (assess_after_dependencies (task_labels task) local) = []) as Ha.
  { unfold assess_after_dependencies. by repeat case_match. }
  destruct (unsatisfied_dependencies i (Some g)) as [[|d deps]|] eqn:E; [by rewrite Ha|..|done].
  intros _. cbn [mode reasons blocked_by]. split; [done|]. split; [done|].
  exists i. split; [done|]. split.
  - unfold unsatisfied_dependencies in E. by case_match.
  - intros x. by apply elem_of_unsatisfied.
Qed.
End classification.

(** ** The unblock count *)

Section unblock.
Context {G : Type} `{GraphViewLaws G} `{!SetOrder Z}.
Implicit Types (g : G).

(** The open, non-epic issues that transitively depend on [i], through issues of
    the same kind. *)
Inductive unblocks g (i : Z) : Z -> Prop :=
  | unblocks_direct d : d ∈ get_dependents g i -> counts g d = true -> unblocks g i d
  | unblocks_step e d :
      unblocks g i e -> d ∈ get_dependents g e -> counts g d = true -> unblocks g i d.

Lemma unblocks_counts g i d : unblocks g i d -> counts g d = true.
Proof. by destruct 1. Qed.

(** The state of the walk: [cnt] lists the issues counted so far. *)
Record walk g (i : Z) (seen : gset Z) (pending cnt : list Z) : Prop := {
  walk_start : i ∈ seen;
  walk_seen : seen ⊆ {[i]} ∪ graph_nodes g;
  walk_nodup : NoDup cnt;
  walk_cnt : forall d, d ∈ cnt <-> d ∈ seen /\ d <> i /\ counts g d = true;
  walk_sound : forall d, d ∈ cnt -> unblocks g i d;
  walk_pending : forall e, e ∈ pending -> e = i \/ e ∈ cnt;
  walk_closed : forall e, e = i \/ e ∈ cnt -> e ∉ pending ->
    forall d, d ∈ get_dependents g e -> d ∈ seen;
}.

(** Inside one visit, the popped issue [e0] is exempt from closure, except for
    the dependents already visited. *)
Lemma visit_step g i e0 ds seen pending cnt :
  view_ok g ->
  (forall d, d ∈ ds -> d ∈ get_dependents g e0) ->
  (forall d, d ∈ get_dependents g e0 -> d ∈ ds \/ d ∈ seen) ->
  e0 = i \/ e0 ∈ cnt ->
  walk g i seen (e0 :: pending) cnt ->
  exists seen' pending' cnt',
    unblock_visit g ds seen pending (length cnt) = (seen', pending', length cnt') /\
    walk g i seen' pending' cnt' /\
    length pending' + size (graph_nodes g ∖ seen') <= length pending + size (graph_nodes g ∖ seen).
Proof.
  intros Hok. revert seen pending cnt.
  induction ds as [|d ds IH]; intros seen pending cnt Hds Hrest He0 Hw.
  - exists seen, pending, cnt. split; [done|]. split; [|done].
    destruct Hw as [H1 H2 H3 H4 H5 H6 H7]. split; [done..| |].
    + intros e He. apply H6. by constructor.
    + intros e He Hnp d Hd. destruct (decide (e = e0)) as [->|Hne].
      * destruct (Hrest d Hd) as [Hin|]; [by inversion Hin|done].
      * eapply H7; [done| |done]. by intros [?|?]%elem_of_cons.
  - cbn [unblock_visit]. case_bool_decide as Hseen.
    { apply IH; [intros; apply Hds; by constructor| |done|done].
      intros x Hx. destruct (Hrest x Hx) as [[->|]%elem_of_cons|]; auto. }
    assert (d ∈ get_dependents g e0) as Hd by (apply Hds; constructor).
    assert (d ∈ graph_nodes g) as Hdn by (by eapply get_dependents_nodes, Hd).
    assert (size (graph_nodes g ∖ seen) = S (size (graph_nodes g ∖ ({[d]} ∪ seen)))) as Hsize.
    { replace (graph_nodes g ∖ seen) with ({[d]} ∪ (graph_nodes g ∖ ({[d]} ∪ seen))).
      - rewrite size_union by set_solver. by rewrite size_singleton.
      - apply set_eq. intros x. destruct (decide (x = d)) as [->|]; set_solver. }
    destruct Hw as [H1 H2 H3 H4 H5 H6 H7].
    assert (d <> i) as Hdi by (intros ->; done).
    destruct (counts g d) eqn:Hc.
    + destruct (IH ({[d]} ∪ seen) (pending ++ [d]) (d :: cnt)) as (s' & p' & c' & E & Hw' & Hm).
      * intros; apply Hds; by constructor.
      * intros x Hx. destruct (Hrest x Hx) as [[->|]%elem_of_cons|]; set_solver.
      * destruct He0; [by left|right; by constructor].
      * split.
        -- set_solver.
        -- set_solver.
        -- constructor; [|done]. rewrite H4. tauto.
        -- intros x. rewrite elem_of_cons, H4. split; [intros [->|?]|]; set_solver.
        -- intros x [->|Hx]%elem_of_cons; [|by apply H5].
           destruct He0 as [->|He0]; [by apply unblocks_direct|].
           eapply unblocks_step; [by apply H5|done|done].
        -- intros e [->|[He|He%list_elem_of_singleton]%elem_of_app]%elem_of_cons.
           ++ destruct He0; [by left|right; by constructor].
           ++ destruct (H6 e) as [|]; [by constructor|by left|right; by constructor].
           ++ subst. right. constructor.
        -- intros e He Hnp x Hx. destruct He as [->|[->|He]%elem_of_cons].
           ++ eapply elem_of_union_r, H7; [by left| |done]. set_solver.
           ++ set_solver.
           ++ eapply elem_of_union_r, H7; [by right| |done]. set_solver.
      * exists s', p', c'. split; [exact E|]. split; [done|].
        rewrite length_app in Hm. cbn in Hm. lia.
    + destruct (IH ({[d]} ∪ seen) pending cnt) as (s' & p' & c' & E & Hw' & Hm).
      * intros; apply Hds; by constructor.
      * intros x Hx. destruct (Hrest x Hx) as [[->|]%elem_of_cons|]; set_solver.
      * done.
      * split; [set_solver|set_solver|done| |done|done|].
        -- intros x. rewrite H4. destruct (decide (x = d)) as [->|]; [|set_solver].
           split; [tauto|]. intros (_ & _ & Hx). congruence.
        -- intros e He Hnp x Hx. eapply elem_of_union_r, H7; done.
      * exists s', p', c'. split; [exact E|]. split; [done|]. lia.
Qed.

Lemma unblock_loop_spec fuel g i seen pending cnt :
  view_ok g ->
  walk g i seen pending cnt ->
  length pending + size (graph_nodes g ∖ seen) < fuel ->
  exists cnt', unblock_loop fuel g seen pending (length cnt) = Some (length cnt') /\
    NoDup cnt' /\ forall d, d ∈ cnt' <-> d <> i /\ unblocks g i d.
Proof.
  intros Hok. revert seen pending cnt.
  induction fuel as [|fuel IH]; intros seen pending cnt Hw Hf; [lia|].
  destruct pending as [|e0 pending]; cbn [unblock_loop].
  - exists cnt. split; [done|]. destruct Hw as [H1 H2 H3 H4 H5 H6 H7].
    split; [done|]. intros d. split.
    + intros Hd. split; [by apply H4 in Hd as (_ & ? & _)|by apply H5].
    + intros [Hdi Hu]. apply H4.
      assert (d ∈ seen) as Hs; [|split; [done|by eauto using unblocks_counts]].
      clear Hdi. induction Hu as [d Hd Hc|e d Hu IHu Hd Hc].
      * eapply H7; [by left|by inversion 1|done].
      * destruct (decide (e = i)) as [->|]; [eapply H7; [by left|by inversion 1|done]|].
        eapply H7; [right|by inversion 1|done]. apply H4. eauto using unblocks_counts.
  - destruct (visit_step g i e0 (set_iter (get_dependents g e0)) seen pending cnt)
      as (s' & p' & c' & -> & Hw' & Hm); [done|..].
    + intros d. by rewrite elem_of_set_iter.
    + intros d Hd. left. by rewrite elem_of_set_iter.
    + apply (walk_pending _ _ _ _ _ Hw). constructor.
    + done.
    + apply IH; [done|]. cbn in Hf. lia.
Qed.

Lemma walk_initial g i : walk g i {[i]} [i] [].
Proof.
  split.
  - set_solver.
  - set_solver.
  - constructor.
  - intros d. split; [by inversion 1|set_solver].
  - by inversion 1.
  - intros e ->%list_elem_of_singleton. by left.
  - intros e [->|He] Hnp; [|by inversion He]. destruct Hnp. constructor.
Qed.

Lemma walk_fuel g i : length [i] + size (graph_nodes g ∖ {[i]}) < 2 + size (graph_nodes g).
Proof.
  cbn. pose proof (subseteq_size (graph_nodes g ∖ {[i]}) (graph_nodes g)) as Hs.
  specialize (Hs ltac:(set_solver)). lia.
Qed.
End unblock.

(** ** The ranking *)

Section ranking.
Context {G : Type} `{GraphViewLaws G} `{!SetOrder Z}.
Implicit Types (g : G).

(** The issues the ranking is about. *)
Definition pickable g (running open_prs : gset Z) (t : Task) : Prop :=
  exists i, PyStr.int_of (task_id t) = Some i /\ next_task_state (task_state t) = true /\
    i ∉ running /\ i ∉ open_prs /\ mode (assess_suitability t (Some g) None true) = AUTONOMOUS.

(** The entry the ranking makes of an issue, before it is numbered. *)
Definition entry g (t : Task) : RankedTask :=
  let i := default 0%Z (PyStr.int_of (task_id t)) in
  let u := unblock_count i g in
  let p := Milestone.extract_phase_order (task_milestone t) in
  {| rt_task := t; rt_rank := 0; rt_unblocks := u; rt_phase := p;
     rt_mode := AUTONOMOUS; rt_why := why t u p |}.

Definition unranked g (running open_prs : gset Z) (tasks : list Task) : list RankedTask :=
  omap (unranked_entry g) (candidates tasks g running open_prs).

Lemma unranked_cons_yes g running open_prs t ts :
  pickable g running open_prs t ->
  unranked g running open_prs (t :: ts) = entry g t :: unranked g running open_prs ts.
Proof.
  intros (i & Hi & Hs & Hr & Hp & Hm). unfold unranked, candidates. cbn.
  unfold candidate at 1. rewrite Hi, Hs, bool_decide_eq_false_2, bool_decide_eq_false_2 by done. cbn.
  rewrite Hm. rewrite decide_True by done. unfold entry. rewrite Hi. done.
Qed.

Lemma unranked_cons_no g running open_prs t ts :
  ~ pickable g running open_prs t ->
  unranked g running open_prs (t :: ts) = unranked g running open_prs ts.
Proof.
  intros Hn. unfold unranked, candidates. cbn.
  unfold candidate at 1. destruct (PyStr.int_of (task_id t)) as [i|] eqn:Hi; [|done].
  destruct (next_task_state (task_state t)) eqn:Hs; [|done].
  case_bool_decide as Hr; [done|]. case_bool_decide as Hp; [done|]. cbn.
  case_decide as Hm; [|done]. destruct Hn. by exists i.
Qed.

#[export] Instance pickable_dec g running open_prs t : Decision (pickable g running open_prs t).
Proof.
  unfold pickable. destruct (PyStr.int_of (task_id t)) as [i|]; [|right; by intros (? & [=] & _)].
  destruct (decide (next_task_state (task_state t) = true /\ i ∉ running /\ i ∉ open_prs /\
    mode (assess_suitability t (Some g) None true) = AUTONOMOUS)) as [|Hn];
    [left; by exists i|right; by intros (? & [= <-] & ?)].
Defined.

(** The unranked list is the image of the issues that can be picked up. *)
Lemma unranked_map g running open_prs tasks :
  unranked g running open_prs tasks = map (entry g) (filter (pickable g running open_prs) tasks).
Proof.
  induction tasks as [|t ts IH]; [done|]. rewrite filter_cons.
  case_decide; [rewrite unranked_cons_yes by done|rewrite unranked_cons_no by done]; cbn; by rewrite IH.
Qed.

Lemma number_from_lookup k l i r :
  number_from k l !! i = Some r ->
  rt_rank r = k + i /\ exists r0, l !! i = Some r0 /\
    rt_task r = rt_task r0 /\ rt_unblocks r = rt_unblocks r0 /\ rt_phase r = rt_phase r0 /\
    rt_mode r = rt_mode r0 /\ rt_why r = rt_why r0.
Proof.
  revert k i. induction l as [|r0 l IH]; intros k i E; [done|].
  destruct i as [|i]; cbn in E.
  - injection E as <-. cbn. split; [lia|]. by exists r0.
  - apply IH in E as [-> ?]. split; [lia|done].
Qed.

Lemma number_from_map {B} (f : RankedTask -> B) k l :
  (forall r k, f {| rt_task := rt_task r; rt_rank := k; rt_unblocks := rt_unblocks r;
    rt_phase := rt_phase r; rt_mode := rt_mode r; rt_why := rt_why r |} = f r) ->
  map f (number_from k l) = map f l.
Proof.
  intros Hf. revert k. induction l as [|r l IH]; intros k; [done|]. cbn. by rewrite Hf, IH.
Qed.

Lemma number_from_sorted k l :
  StronglySorted (key_le rank_key) l -> StronglySorted (key_le rank_key) (number_from k l).
Proof.
  intros Hl. revert k. induction Hl as [|r l Hl IH Hr]; intros k; cbn; constructor; [done|].
  apply Forall_forall. intros x Hx.
  apply list_elem_of_lookup in Hx as (i & (_ & r0 & Hi & Ht & Hu & Hp & _)%number_from_lookup).
  rewrite Forall_forall in Hr. specialize (Hr r0 (list_elem_of_lookup_2 _ _ _ Hi)).
  unfold key_le, rank_key in *. cbn [rt_task rt_unblocks rt_phase]. by rewrite Ht, Hu, Hp.
Qed.

(** Distinct issue numbers make the sort key injective on the list. *)
Definition distinct_ids (tasks : list Task) : Prop :=
  NoDup (omap (fun t => PyStr.int_of (task_id t)) tasks).

Lemma distinct_ids_inj tasks t1 t2 i :
  distinct_ids tasks -> t1 ∈ tasks -> t2 ∈ tasks ->
  PyStr.int_of (task_id t1) = Some i -> PyStr.int_of (task_id t2) = Some i -> t1 = t2.
Proof.
  unfold distinct_ids. induction tasks as [|t ts IH]; intros Hnd H1 H2 E1 E2; [by inversion H1|].
  assert (forall t', t' ∈ ts -> PyStr.int_of (task_id t') = Some i ->
    i ∈ omap (fun t => PyStr.int_of (task_id t)) ts) as Hin.
  { intros t' Ht' Ei. apply list_elem_of_omap. by exists t'. }
  cbn in Hnd. apply elem_of_cons in H1 as [->|H1], H2 as [->|H2]; [done|..].
  - rewrite E1 in Hnd. apply NoDup_cons in Hnd as [Hni _]. destruct Hni. by eapply Hin.
  - rewrite E2 in Hnd. apply NoDup_cons in Hnd as [Hni _]. destruct Hni. by eapply Hin.
  - apply IH; [|done..]. destruct (PyStr.int_of (task_id t)); [|done]. by apply NoDup_cons in Hnd as [_ ?].
Qed.

(** The tasks of the pool are distinct when the issue numbers are. *)
Lemma distinct_ids_filter_NoDup g running open_prs tasks :
  distinct_ids tasks -> NoDup (filter (pickable g running open_prs) tasks).
Proof.
  intros Hd. induction tasks as [|t ts IH]; [constructor|].
  assert (distinct_ids ts) as Hd'.
  { unfold distinct_ids in *. cbn in Hd. destruct (PyStr.int_of (task_id t)); [|done].
    by apply NoDup_cons in Hd as [_ ?]. }
  rewrite filter_cons. case_decide as Hp; [|by apply IH]. constructor; [|by apply IH].
  intros [_ Hin]%list_elem_of_filter. destruct Hp as (i & Hi & _).
  unfold distinct_ids in Hd. cbn in Hd. rewrite Hi in Hd. apply NoDup_cons in Hd as [Hn _].
  destruct Hn. apply list_elem_of_omap. by exists t.
Qed.

Lemma ranked_entry g running open_prs tasks k e :
  number_from 1 (sort_by rank_key (map (entry g) (filter (pickable g running open_prs) tasks))) !! k
    = Some e ->
  rt_rank e = S k /\ rt_mode e = AUTONOMOUS /\
  forall i, PyStr.int_of (task_id (rt_task e)) = Some i -> rt_unblocks e = unblock_count i g.
Proof.
  intros (Hr & r0 & Hk & Ht & Hu & _ & Hm & _)%number_from_lookup.
  apply list_elem_of_lookup_2 in Hk. rewrite sort_by_perm in Hk.
  apply list_elem_of_fmap in Hk as (t & -> & _). cbn in *. rewrite Ht, Hu, Hm.
  split; [done|]. split; [done|]. intros i ->. done.
Qed.

Lemma rank_next_tasks_None g running open_prs tasks :
  rank_next_tasks tasks g running open_prs None =
  number_from 1 (sort_by rank_key (map (entry g) (filter (pickable g running open_prs) tasks))).
Proof. unfold rank_next_tasks, rank_candidates. fold (unranked g running open_prs tasks). by rewrite unranked_map. Qed.

Lemma rank_perm g running open_prs l1 l2 limit :
  distinct_ids l1 -> l1 ≡ₚ l2 ->
  rank_next_tasks l1 g running open_prs limit = rank_next_tasks l2 g running open_prs limit.
Proof.
  intros Hd HP. unfold rank_next_tasks, rank_candidates.
  fold (unranked g running open_prs l1) (unranked g running open_prs l2). rewrite !unranked_map.
  enough (sort_by rank_key (map (entry g) (filter (pickable g running open_prs) l1)) =
          sort_by rank_key (map (entry g) (filter (pickable g running open_prs) l2))) as -> by done.
  apply sort_by_unique; [|by rewrite HP].
  intros x y (t1 & -> & [Hp1 Hin1]%list_elem_of_filter)%list_elem_of_fmap
    (t2 & -> & [Hp2 Hin2]%list_elem_of_filter)%list_elem_of_fmap E.
  destruct Hp1 as (i1 & E1 & _), Hp2 as (i2 & E2 & _).
  injection E as _ _ _ E. cbn [entry rt_task] in E. rewrite E1, E2 in E. cbn in E. subst.
  f_equal. by eapply distinct_ids_inj.
Qed.
End ranking.

(** ** Properties *)

(** C40: [assess_suitability] is the documented precedence
    [epic > human > blocked > interactive > autonomous > unclassified]: whatever
    the labels, the local record and the graph, the mode it reports is the first
    mode of that order whose own condition holds. *)
Theorem assess_precedence {G} `{GraphView G} (task : Task) (graph : option G)
    (local : option string) (consider_dependencies : bool) :
  mode (assess_suitability task graph local consider_dependencies) =
  first_mode (mode_applies task graph local consider_dependencies).
Proof. apply assess_mode_first. Qed.

(** the classifier fails closed. With dependencies considered, an issue is
    eligible for an agent exactly when no label and no local record withholds
    it, it is a node of an available graph, and every dependency of it is a
    known issue that is an epic or done; without a graph nothing is eligible;
    and a refusal for dependencies lists exactly the open ones. *)
Theorem assess_fails_closed {G} `{GraphView G} (task : Task) (g : G) (local : option string) :
  (agent_eligible (mode (assess_suitability task (Some g) local true)) = true <->
     schedulable task g local) /\
  agent_eligible (mode (assess_suitability task (@None G) local true)) = false /\
  (let s := assess_suitability task (Some g) local true in
   blocked_by s <> [] ->
   mode s = BLOCKED /\ reasons s = map reason_dependency (blocked_by s) /\
   exists issue, PyStr.int_of (task_id task) = Some issue /\ has_task g issue = true /\
     forall d, d ∈ blocked_by s <-> d ∈ get_dependencies g issue /\ ~ dep_satisfied g d).
Proof.
  split; [apply assess_eligible_schedulable|]. split; [|apply assess_blocked_by].
  rewrite assess_mode_first, first_mode_unfold. unfold mode_applies, unsatisfied_dependencies_of.
  destruct (Labels.is_epic _); [done|]. destruct (_ || _); [done|].
  rewrite bool_decide_eq_false_2 by (by destruct (PyStr.int_of _)).
  by destruct (Labels.is_on_hold _).
Qed.

(** [_unblock_count] terminates on every graph, cycles included, and counts
    each open non-epic issue that transitively depends on [issue] through such
    issues exactly once, [issue] itself never. *)
Theorem unblock_count_exact {G} `{GraphViewLaws G} `{!SetOrder Z} (issue : Z) (g : G) :
  view_ok g ->
  exists counted : gset Z,
    unblock_loop (2 + size (graph_nodes g)) g {[issue]} [issue] 0 = Some (size counted) /\
    unblock_count issue g = size counted /\
    forall d, d ∈ counted <-> d <> issue /\ unblocks g issue d.
Proof.
  intros Hok.
  destruct (unblock_loop_spec (2 + size (graph_nodes g)) g issue {[issue]} [issue] [])
    as (cnt & E & Hnd & Hcnt); [done|..].
  - apply walk_initial.
  - apply walk_fuel.
  - exists (list_to_set cnt). rewrite size_list_to_set by done. split; [done|].
    unfold unblock_count. cbn [length] in E. rewrite E. split; [done|].
    intros d. by rewrite elem_of_list_to_set.
Qed.

(** C11: [rank_next_tasks] lists exactly the issues that can be picked up
    (triaged or researched, no running agent, no open PR, autonomous), each
    once, sorted by priority rank, then unblocked dependents, then phase, then
    number; entry [k] has rank [k+1] whatever the limit; a limit keeps a prefix;
    [rank_and_count_next_tasks] returns the same ranking; and the result does
    not depend on the order the tracker lists the issues in. *)
Theorem rank_next_tasks_correct {G} `{GraphViewLaws G} `{!SetOrder Z}
    (g : G) (running open_prs : gset Z) (tasks tasks' : list Task) (limit : nat) :
  distinct_ids tasks -> tasks ≡ₚ tasks' ->
  let r := rank_next_tasks tasks g running open_prs None in
  (forall t, t ∈ map rt_task r <-> t ∈ tasks /\ pickable g running open_prs t) /\
  NoDup (map rt_task r) /\
  StronglySorted (key_le rank_key) r /\
  (forall k e, r !! k = Some e ->
     rt_rank e = S k /\ rt_mode e = AUTONOMOUS /\
     (forall i, PyStr.int_of (task_id (rt_task e)) = Some i -> rt_unblocks e = unblock_count i g)) /\
  rank_next_tasks tasks g running open_prs (Some (Z.of_nat limit)) = take limit r /\
  rank_next_tasks tasks' g running open_prs None = r /\
  (rank_and_count_next_tasks tasks g running open_prs None).1 = r.
Proof.
  intros Hd HP r. pose proof (rank_next_tasks_None g running open_prs tasks) as Er.
  fold r in Er.
  assert (map rt_task r ≡ₚ filter (pickable g running open_prs) tasks) as Htasks.
  { rewrite Er, (number_from_map rt_task), sort_by_perm by done.
    rewrite map_map. cbn. by rewrite map_id. }
  split; [|split; [|split; [|split; [|split; [|split]]]]].
  - intros t. rewrite Htasks, list_elem_of_filter. tauto.
  - rewrite Htasks. by apply distinct_ids_filter_NoDup.
  - rewrite Er. apply number_from_sorted, sort_by_sorted.
  - intros k e Hk. rewrite Er in Hk. by apply ranked_entry in Hk.
  - unfold rank_next_tasks, rank_candidates, py_take.
    rewrite (proj2 (Z.leb_le _ _)) by lia. by rewrite Nat2Z.id.
  - symmetry. by apply rank_perm.
  - done.
Qed.
