(* ===== verification/Markdown.v ===== *)
(** * Markdown sections

    [mask_fenced_blocks] and [extract_section] of [sova/utils/markdown.py]. The
    code finds offsets in a masked copy of the text and slices the original with
    them; the model works on the lines of both, paired. *)

From stdpp Require Import base gmap strings list.
From Stdlib Require Import Ascii.
From S2P Require Import Prelude.

Module Markdown.

Definition nl : ascii := "010"%char.
Definition space : ascii := " "%char.
Definition tab : ascii := "009"%char.
Definition cr : ascii := "013"%char.

Notation line := (list ascii).

(** [text.split(nl)] *)
Fixpoint split_nl (text : list ascii) : list line :=
  match text with
  | [] => [[]]
  | c :: text' =>
      if decide (c = nl) then [] :: split_nl text'
      else match split_nl text' with
           | l :: ls => (c :: l) :: ls
           | [] => [[c]]
           end
  end.

(** [nl.join(lines)] *)
Fixpoint join_nl (lines : list line) : list ascii :=
  match lines with
  | [] => []
  | [l] => l
  | l :: ls => l ++ nl :: join_nl ls
  end.

(** ** Fenced code blocks *)

(** The run of [c] at the head of a line, when it is at least three long. *)
Definition fence_run (c : ascii) (l : line) : option (ascii * nat) :=
  let n := length (PyStr.take_while (fun x => bool_decide (x = c)) l) in
  if 3 <=? n then Some (c, n) else None.

(** [_FENCE_OPEN_RE.match(line.lstrip())]: the fence character and its count. *)
Definition fence_open (l : line) : option (ascii * nat) :=
  let l := PyStr.drop_while PyStr.is_space l in
  match fence_run "`"%char l with
  | Some f => Some f
  | None => fence_run "~"%char l
  end.

(** Whether a line closes the fence [(c, n)]. *)
Definition fence_close (c : ascii) (n : nat) (l : line) : bool :=
  let stripped := PyStr.strip_list l in
  negb (bool_decide (stripped = [])) && forallb (fun x => bool_decide (x = c)) stripped
    && (n <=? length stripped).

Definition blank (l : line) : line := repeat space (length l).

(** The loop of [mask_fenced_blocks]; the state is the open fence. *)
Fixpoint mask_lines (fence : option (ascii * nat)) (lines : list line) : list line :=
  match lines with
  | [] => []
  | l :: ls =>
      match fence with
      | None =>
          match fence_open l with
          | Some f => blank l :: mask_lines (Some f) ls
          | None => l :: mask_lines None ls
          end
      | Some (c, n) =>
          if fence_close c n l
          then blank l :: mask_lines None ls
          else blank l :: mask_lines (Some (c, n)) ls
      end
  end.

(** [mask_fenced_blocks] *)
Definition mask_fenced_blocks (text : string) : string :=
  PyStr.of_list (join_nl (mask_lines None (split_nl (PyStr.to_list text)))).

(** ** Sections *)

(** [^##[ \t]+<heading>[ \t\r]*$] on one masked line. *)
Definition is_heading (heading : list ascii) (l : line) : bool :=
  match l with
  | c1 :: c2 :: c3 :: l' =>
      bool_decide (c1 = "#"%char) && bool_decide (c2 = "#"%char) &&
      (bool_decide (c3 = space) || bool_decide (c3 = tab)) &&
      (let rest := PyStr.drop_while (fun c => bool_decide (c = space) || bool_decide (c = tab)) l' in
       bool_decide (take (length heading) rest = heading) &&
       forallb (fun c => bool_decide (c = space) || bool_decide (c = tab) || bool_decide (c = cr))
         (drop (length heading) rest))
  | _ => false
  end.

(** [^##[ \t]] on one masked line. *)
Definition is_boundary (l : line) : bool :=
  match l with
  | c1 :: c2 :: c3 :: _ =>
      bool_decide (c1 = "#"%char) && bool_decide (c2 = "#"%char) &&
      (bool_decide (c3 = space) || bool_decide (c3 = tab))
  | _ => false
  end.

(** The original lines up to the next boundary of the masked ones. *)
Fixpoint until_boundary (masked original : list line) : list line :=
  match masked, original with
  | m :: masked, o :: original => if is_boundary m then [] else o :: until_boundary masked original
  | _, _ => []
  end.

(** The original lines after the first heading line, up to the next boundary. *)
Fixpoint after_heading (heading : list ascii) (masked original : list line) : option (list line) :=
  match masked, original with
  | m :: masked, o :: original =>
      if is_heading heading m then Some (until_boundary masked original)
      else after_heading heading masked original
  | _, _ => None
  end.

(** [extract_section(text, heading)], for a heading without line breaks or
    leading blanks. *)
Definition extract_section (text heading : string) : string :=
  let lines := split_nl (PyStr.to_list text) in
  match after_heading (PyStr.to_list heading) (mask_lines None lines) lines with
  | None => EmptyString
  | Some section => PyStr.of_list (PyStr.strip_list (join_nl section))
  end.

(** ** Lemmas *)

Lemma split_nl_nonempty text : split_nl text <> [].
Proof. induction text as [|c text IH]; [done|]. cbn. case_decide; [done|]. by destruct (split_nl text). Qed.

Lemma join_split_nl text : join_nl (split_nl text) = text.
Proof.
  induction text as [|c text IH]; [done|]. cbn [split_nl].
  destruct (decide (c = nl)) as [Hc|Hc].
  - subst c. destruct (split_nl text) eqn:E; [by apply split_nl_nonempty in E|]. cbn. by rewrite <- IH.
  - destruct (split_nl text) as [|l ls] eqn:E; [by apply split_nl_nonempty in E|].
    rewrite <- IH. by destruct ls.
Qed.

Lemma split_nl_no_nl text l : l ∈ split_nl text -> nl ∉ l.
Proof.
  revert l. induction text as [|c text IH]; intros l; cbn.
  - intros ->%list_elem_of_singleton. by inversion 1.
  - case_decide as Hc.
    + intros [->|Hl]%elem_of_cons; [by inversion 1|by apply IH].
    + destruct (split_nl text) as [|l0 ls]; [intros ->%list_elem_of_singleton Hin%list_elem_of_singleton; congruence|].
      intros [->|Hl]%elem_of_cons; [|apply IH; by constructor].
      intros [Hin|Hin]%elem_of_cons; [by subst c|]. by apply (IH l0); [constructor|].
Qed.

Lemma split_nl_app l text : nl ∉ l -> split_nl (l ++ nl :: text) = l :: split_nl text.
Proof.
  induction l as [|c l IH]; intros Hl; cbn.
  - by rewrite decide_True.
  - apply not_elem_of_cons in Hl as [Hc Hl]. rewrite decide_False by done. by rewrite IH.
Qed.

Lemma split_nl_line l : nl ∉ l -> split_nl l = [l].
Proof.
  induction l as [|c l IH]; intros Hl; [done|].
  apply not_elem_of_cons in Hl as [Hc Hl]. cbn. rewrite decide_False by done. by rewrite IH.
Qed.

Lemma split_join_nl lines :
  lines <> [] -> (forall l, l ∈ lines -> nl ∉ l) -> split_nl (join_nl lines) = lines.
Proof.
  induction lines as [|l ls IH]; [done|]. intros _ Hno. destruct ls as [|l' ls].
  - apply split_nl_line, Hno. by constructor.
  - change (join_nl (l :: l' :: ls)) with (l ++ nl :: join_nl (l' :: ls)).
    rewrite split_nl_app by (apply Hno; by constructor).
    f_equal. apply IH; [done|]. intros x Hx. apply Hno. by constructor.
Qed.

(** A masked line is the line itself or as many spaces. *)
Lemma mask_lines_Forall2 fence lines :
  Forall2 (fun m l => m = l \/ m = blank l) (mask_lines fence lines) lines.
Proof.
  revert fence. induction lines as [|l ls IH]; intros fence; [constructor|]. cbn.
  repeat case_match; constructor; auto.
Qed.

Lemma blank_no_nl l : nl ∉ blank l.
Proof. intros Hin%list_elem_of_In%repeat_spec. done. Qed.

Lemma mask_lines_no_nl fence lines :
  (forall l, l ∈ lines -> nl ∉ l) -> forall m, m ∈ mask_lines fence lines -> nl ∉ m.
Proof.
  intros Hno m Hm. pose proof (mask_lines_Forall2 fence lines) as HF.
  apply list_elem_of_lookup in Hm as (i & Hi).
  destruct (Forall2_lookup_l _ _ _ _ _ HF Hi) as (l & Hl & [E|E]); subst m.
  - apply Hno. by eapply list_elem_of_lookup_2.
  - apply blank_no_nl.
Qed.

Lemma split_mask text :
  split_nl (PyStr.to_list (mask_fenced_blocks text)) =
  mask_lines None (split_nl (PyStr.to_list text)).
Proof.
  unfold mask_fenced_blocks. rewrite PyStr.to_of_list. apply split_join_nl.
  - destruct (split_nl (PyStr.to_list text)) eqn:E; [by apply split_nl_nonempty in E|].
    cbn. by repeat case_match.
  - apply mask_lines_no_nl. intros l. apply split_nl_no_nl.
Qed.

(** A masked character: the character itself, or a space for one that is not a
    line break. *)
Definition masked_char (x y : ascii) : Prop := x = y \/ (x = space /\ y <> nl).

Lemma masked_line m l : m = l \/ m = blank l -> nl ∉ l -> Forall2 masked_char m l.
Proof.
  intros [-> | ->] Hnl.
  - clear. induction l; constructor; [by left|done].
  - unfold blank. induction l as [|c l IH]; [constructor|].
    apply not_elem_of_cons in Hnl as [Hc Hnl]. cbn.
    constructor; [right; split; congruence|by apply IH].
Qed.

Lemma join_nl_masked masked lines :
  Forall2 (fun m l => m = l \/ m = blank l) masked lines ->
  (forall l, l ∈ lines -> nl ∉ l) ->
  Forall2 masked_char (join_nl masked) (join_nl lines).
Proof.
  induction 1 as [|m l ms ls Hml HF IH]; intros Hno; [constructor|].
  assert (Forall2 masked_char m l) as Hline by (apply masked_line; [done|apply Hno; by constructor]).
  destruct HF as [|m' l' ms ls]; [done|].
  change (join_nl (m :: m' :: ms)) with (m ++ nl :: join_nl (m' :: ms)).
  change (join_nl (l :: l' :: ls)) with (l ++ nl :: join_nl (l' :: ls)).
  apply Forall2_app; [done|]. constructor; [by left|].
  apply IH. intros x Hx. apply Hno. by constructor.
Qed.

(** ** Properties *)

(** masking fenced blocks preserves every offset: the masked text has the
    length of the original, each of its characters is the original one or a
    space standing for a character that is not a line break, and its lines are
    the masked lines one for one, so an offset found in it slices the original. *)
Theorem mask_preserves_offsets (text : string) :
  Forall2 masked_char (PyStr.to_list (mask_fenced_blocks text)) (PyStr.to_list text) /\
  String.length (mask_fenced_blocks text) = String.length text /\
  split_nl (PyStr.to_list (mask_fenced_blocks text)) =
    mask_lines None (split_nl (PyStr.to_list text)).
Proof.
  assert (Forall2 masked_char (PyStr.to_list (mask_fenced_blocks text)) (PyStr.to_list text)) as HF.
  { unfold mask_fenced_blocks. rewrite PyStr.to_of_list.
    rewrite <- (join_split_nl (PyStr.to_list text)) at 2.
    apply join_nl_masked; [apply mask_lines_Forall2|]. intros l. apply split_nl_no_nl. }
  split; [done|]. split; [|apply split_mask].
  rewrite <- !PyStr.length_to_list. by eapply Forall2_length.
Qed.

End Markdown.
