(* ===== verification/Complexity.v ===== *)
(** * Task complexity

    [sova/llm/complexity.py]: the tier of an issue from its text, labels and file
    count, and what the engine derives from a tier. Python's float average of a
    few small integers is a rational here; its rounding is half to even. Texts
    are 7-bit, so that the word characters of the patterns are the ASCII ones. *)

From stdpp Require Import base strings list.
From Stdlib Require Import Ascii.
From S2P Require Import Prelude Errors Markdown.
Local Open Scope string_scope.

Module Complexity.

Inductive ComplexityTier := TRIVIAL | SIMPLE | MODERATE | COMPLEX | EPIC.

#[global] Instance tier_eq_dec : EqDecision ComplexityTier.
Proof. solve_decision. Defined.

Definition TIER_ORDER : list ComplexityTier := [TRIVIAL; SIMPLE; MODERATE; COMPLEX; EPIC].

Definition tier_value (t : ComplexityTier) : string :=
  match t with
  | TRIVIAL => "trivial" | SIMPLE => "simple" | MODERATE => "moderate"
  | COMPLEX => "complex" | EPIC => "epic"
  end.

Definition tier_of_value (v : string) : option ComplexityTier :=
  snd <$> list_find (fun t => tier_value t = v) TIER_ORDER.

(** [_tier_index] *)
Definition tier_index (t : ComplexityTier) : Z :=
  match t with TRIVIAL => 0 | SIMPLE => 1 | MODERATE => 2 | COMPLEX => 3 | EPIC => 4 end.

(** ** Keyword patterns

    The regular expressions of [_KEYWORD_SIGNALS]: pieces between two word
    boundaries, matched on lower-cased text. *)
Inductive piece :=
  | Lit (s : string)
  | Spaces                  (** [\s+] *)
  | Sep                     (** [[- ]] *)
  | Alt (ss : list string). (** [(?:s1|s2)] *)

Definition strip_prefix (p l : list ascii) : list (list ascii) :=
  if decide (take (length p) l = p) then [drop (length p) l] else [].

(** Every text that can remain after one or more blanks. *)
Fixpoint after_spaces (l : list ascii) : list (list ascii) :=
  match l with
  | c :: l' => if PyStr.is_space c then l' :: after_spaces l' else []
  | [] => []
  end.

Definition match_piece (p : piece) (l : list ascii) : list (list ascii) :=
  match p with
  | Lit s => strip_prefix (PyStr.to_list s) l
  | Spaces => after_spaces l
  | Sep => match l with
           | c :: l' => if bool_decide (c = "-"%char) || bool_decide (c = " "%char) then [l'] else []
           | [] => []
           end
  | Alt ss => ss ≫= fun s => strip_prefix (PyStr.to_list s) l
  end.

Fixpoint match_pieces (ps : list piece) (l : list ascii) : list (list ascii) :=
  match ps with
  | [] => [l]
  | p :: ps => match_piece p l ≫= match_pieces ps
  end.

Definition is_word (c : ascii) : bool :=
  let n := nat_of_ascii c in
  PyStr.is_digit c || ((97 <=? n) && (n <=? 122))%nat || ((65 <=? n) && (n <=? 90))%nat
  || bool_decide (c = "_"%char).

(** [\b] between two characters, [None] at an end of the text. *)
Definition boundary (before after : option ascii) : bool :=
  xorb (match before with Some c => is_word c | None => false end)
       (match after with Some c => is_word c | None => false end).

(** [pattern.search], from a position whose previous character is [before]. *)
Fixpoint search_from (ps : list piece) (before : option ascii) (l : list ascii) : bool :=
  (boundary before (head l) &&
   existsb (fun r => boundary (last (take (length l - length r) l)) (head r)) (match_pieces ps l))
  || match l with
     | [] => false
     | c :: l' => search_from ps (Some c) l'
     end.

Definition search (ps : list piece) (text : string) : bool :=
  search_from ps None (PyStr.to_list (PyStr.lower text)).

Definition KEYWORD_SIGNALS : list (list piece * ComplexityTier) :=
  [([Alt ["typo"; "typos"]], TRIVIAL);
   ([Lit "rename"], TRIVIAL);
   ([Lit "bump"; Spaces; Lit "version"], TRIVIAL);
   ([Lit "update"; Spaces; Alt ["readme"; "docs"; "changelog"]], TRIVIAL);
   ([Lit "config"; Spaces; Lit "change"], TRIVIAL);
   ([Lit "add"; Spaces; Lit "test"], SIMPLE);
   ([Lit "single"; Sep; Lit "file"], SIMPLE);
   ([Lit "small"; Spaces; Lit "fix"], SIMPLE);
   ([Lit "minor"; Spaces; Alt ["fix"; "change"; "update"]], SIMPLE);
   ([Lit "multi"; Sep; Lit "file"], MODERATE);
   ([Lit "new"; Spaces; Alt ["function"; "endpoint"; "route"; "command"]], MODERATE);
   ([Lit "integrat"; Alt ["e"; "ion"]], MODERATE);
   ([Lit "refactor"], COMPLEX);
   ([Lit "migrat"; Alt ["e"; "ion"]], COMPLEX);
   ([Lit "new"; Spaces; Lit "module"], COMPLEX);
   ([Lit "architectur"; Alt ["e"; "al"]], COMPLEX);
   ([Lit "redesign"], COMPLEX);
   ([Lit "cross"; Sep; Lit "cutting"], EPIC);
   ([Lit "multi"; Sep; Lit "system"], EPIC);
   ([Lit "breaking"; Spaces; Lit "change"], EPIC);
   ([Lit "full"; Spaces; Lit "rewrite"], EPIC)].

(** [if best is None or _tier_index(tier) > _tier_index(best): best = tier] *)
Definition better (best : option ComplexityTier) (t : ComplexityTier) : option ComplexityTier :=
  match best with
  | None => Some t
  | Some b => if Z.ltb (tier_index b) (tier_index t) then Some t else Some b
  end.

(** [_score_keywords] *)
Definition score_keywords (text : string) : option ComplexityTier :=
  foldl (fun best kt => if search kt.1 text then better best kt.2 else best) None KEYWORD_SIGNALS.

(** ** Labels, length, file count *)

(** [_LABEL_NORMALIZED] *)
Definition LABEL_TIERS : list (string * ComplexityTier) :=
  [("good first issue", TRIVIAL); ("good-first-issue", TRIVIAL); ("beginner", TRIVIAL);
   ("trivial", TRIVIAL); ("easy", SIMPLE); ("simple", SIMPLE); ("moderate", MODERATE);
   ("complex", COMPLEX); ("epic", EPIC)].

(** [label.split(":")[-1]] *)
Fixpoint after_last_colon (acc l : list ascii) : list ascii :=
  match l with
  | [] => acc
  | c :: l' => if decide (c = ":"%char) then after_last_colon [] l' else after_last_colon (acc ++ [c])%list l'
  end.

Definition label_tier (label : string) : option ComplexityTier :=
  let value := PyStr.of_list (after_last_colon [] (PyStr.to_list label)) in
  assoc (PyStr.lower (PyStr.strip value)) LABEL_TIERS.

(** [_score_labels] *)
Definition score_labels (labels : list string) : option ComplexityTier :=
  foldl (fun best label => match label_tier label with
                           | Some t => better best t
                           | None => best
                           end) None labels.

Fixpoint threshold (n : Z) (l : list (Z * ComplexityTier)) : ComplexityTier :=
  match l with
  | [] => EPIC
  | (limit, t) :: l' => if Z.leb n limit then t else threshold n l'
  end.

Definition LENGTH_THRESHOLDS : list (Z * ComplexityTier) :=
  [(100%Z, TRIVIAL); (500%Z, SIMPLE); (1500%Z, MODERATE); (4000%Z, COMPLEX)].

Definition FILE_COUNT_THRESHOLDS : list (Z * ComplexityTier) :=
  [(1%Z, TRIVIAL); (3%Z, SIMPLE); (7%Z, MODERATE); (15%Z, COMPLEX)].

(** [_score_length], [_score_file_count] *)
Definition score_length (text : string) : ComplexityTier :=
  threshold (Z.of_nat (String.length text)) LENGTH_THRESHOLDS.

Definition score_file_count (n : Z) : ComplexityTier := threshold n FILE_COUNT_THRESHOLDS.

(** ** The explicit override *)

Definition is_blank (c : ascii) : bool := bool_decide (c = " "%char) || bool_decide (c = "009"%char).

Definition explicit_marker : list ascii := PyStr.to_list "**complexity**:".

(** [_EXPLICIT_COMPLEXITY_RE] on one line: its group, lower-cased. The group is
    never empty: on a line of blanks it is one of them. *)
Definition explicit_line (l : list ascii) : option (list ascii) :=
  let l := map PyStr.lower_char (PyStr.drop_while is_blank l) in
  if decide (take (length explicit_marker) l = explicit_marker) then
    match drop (length explicit_marker) l with
    | [] => None
    | rest =>
        match PyStr.drop_while_end is_blank (PyStr.drop_while is_blank rest) with
        | [] => Some [" "%char]
        | value => Some value
        end
    end
  else None.

(** [extract_explicit_complexity]: the last matching line decides. *)
Definition extract_explicit_complexity (text : string) : option ComplexityTier :=
  match last (omap explicit_line (Markdown.split_nl (PyStr.to_list text))) with
  | None => None
  | Some value => tier_of_value (PyStr.of_list value)
  end.

(** ** The vote *)

(** [round(x / y)] for [y > 0]: to the nearest integer, half to even. *)
Definition round_div (x y : Z) : Z :=
  let q := (x / y)%Z in
  let r := (x mod y)%Z in
  if Z.ltb (2 * r) y then q
  else if Z.ltb y (2 * r) then (q + 1)%Z
  else if Z.even q then q else (q + 1)%Z.

Definition weights (votes : list (Z * Z)) : Z := foldr (fun v n => (v.2 + n)%Z) 0%Z votes.
Definition weighted (votes : list (Z * Z)) : Z := foldr (fun v n => (v.1 * v.2 + n)%Z) 0%Z votes.

(** The votes [assess_complexity] collects, with their weights. *)
Definition collect_votes (combined description : string) (labels : list string)
    (file_count : option Z) : list (Z * Z) :=
  let keyword := score_keywords combined in
  ((match keyword with Some t => [(tier_index t, 2%Z)] | None => [] end)
   ++ (match score_labels labels with Some t => [(tier_index t, 4%Z)] | None => [] end)
   ++ (if negb (bool_decide (PyStr.strip description = "")) && bool_decide (keyword = None)
       then [(tier_index (score_length description), 1%Z)] else [])
   ++ (match file_count with
       | Some n => if Z.ltb 0 n then [(tier_index (score_file_count n), 3%Z)] else []
       | None => []
       end))%list.

Definition rounded_index (votes : list (Z * Z)) : Z :=
  Z.min (Z.max (round_div (weighted votes) (weights votes)) 0) 4.

Definition tier_at (i : Z) : ComplexityTier := nth (Z.to_nat i) TIER_ORDER EPIC.

(** [assess_complexity] *)
Definition assess_complexity (title description : string) (labels : list string)
    (file_count : option Z) : ComplexityTier :=
  let combined := PyStr.strip (title ++ PyStr.of_list [Markdown.nl] ++ description) in
  if decide (combined = "") then MODERATE
  else
    let explicit := extract_explicit_complexity combined in
    match collect_votes combined description labels file_count with
    | [] => default MODERATE explicit
    | votes =>
        let i := rounded_index votes in
        match explicit with
        | Some e => if Z.ltb i (tier_index e) then e else tier_at i
        | None => tier_at i
        end
    end.

(** ** What a tier decides *)

(** [tier_timeout] *)
Definition tier_timeout (tier : option ComplexityTier) (normal complex_tier : Z) : Z :=
  match tier with
  | Some COMPLEX | Some EPIC => complex_tier
  | _ => normal
  end.

(** [complexity_multiplier], in halves: 1.0, 1.5, 2.0, capped at 3.0. *)
Definition multiplier_halves (tier : option ComplexityTier) : Z :=
  match tier with
  | None => 2
  | Some COMPLEX => Z.min 3 6
  | Some EPIC => Z.min 4 6
  | Some _ => Z.min 2 6
  end.

Local Close Scope string_scope.

(** ** Lemmas *)

Lemma tier_index_inj t1 t2 : tier_index t1 = tier_index t2 -> t1 = t2.
Proof. by destruct t1, t2. Qed.

Lemma tier_index_at t : tier_at (tier_index t) = t.
Proof. by destruct t. Qed.

Lemma tier_index_bounds t : (0 <= tier_index t <= 4)%Z.
Proof. destruct t; cbn; lia. Qed.

Lemma index_tier_at i : (0 <= i <= 4)%Z -> tier_index (tier_at i) = i.
Proof.
  intros Hi. assert (i = 0 \/ i = 1 \/ i = 2 \/ i = 3 \/ i = 4)%Z as [-> | [-> | [-> | [-> | ->]]]] by lia;
    reflexivity.
Qed.

(** Rounding stays between two integers around the quotient. *)
Lemma round_div_bounds x y lo hi :
  (0 < y)%Z -> (lo * y <= x <= hi * y)%Z -> (lo <= round_div x y <= hi)%Z.
Proof.
  intros Hy Hx. unfold round_div. pose proof (Z.div_mod x y ltac:(lia)) as E.
  pose proof (Z.mod_pos_bound x y Hy) as Hm. set (q := (x / y)%Z) in *. set (r := (x mod y)%Z) in *.
  assert (lo <= q)%Z by nia. assert (q <= hi)%Z by nia.
  assert (r <> 0 -> q + 1 <= hi)%Z by nia.
  destruct (Z.ltb_spec (2 * r) y); [lia|]. destruct (Z.ltb_spec y (2 * r)); [lia|].
  destruct (Z.even q); lia.
Qed.

(** [round_div] is the nearest integer, and the even one of two. *)
Lemma round_div_nearest x y :
  (0 < y)%Z -> (2 * Z.abs (x - round_div x y * y) <= y)%Z /\
  ((2 * Z.abs (x - round_div x y * y) = y)%Z -> Z.even (round_div x y) = true).
Proof.
  intros Hy. unfold round_div. pose proof (Z.div_mod x y ltac:(lia)) as E.
  pose proof (Z.mod_pos_bound x y Hy) as Hm. set (q := (x / y)%Z) in *. set (r := (x mod y)%Z) in *.
  destruct (Z.ltb_spec (2 * r) y); [split; lia|]. destruct (Z.ltb_spec y (2 * r)); [split; lia|].
  destruct (Z.even q) eqn:Eq; [split; [lia|done]|]. split; [lia|]. intros _.
  by rewrite Z.even_add, Eq.
Qed.

Lemma votes_bounds votes lo hi :
  (forall v, v ∈ votes -> lo <= v.1 <= hi /\ 0 < v.2)%Z ->
  (0 <= weights votes)%Z /\ (votes <> [] -> 0 < weights votes)%Z /\
  (lo * weights votes <= weighted votes <= hi * weights votes)%Z.
Proof.
  intros Hv. induction votes as [|v votes IH]; [cbn; split_and!; [lia|done|lia|lia]|].
  destruct IH as (I1 & _ & I2); [intros w Hw; apply Hv; by constructor|].
  destruct (Hv v ltac:(constructor)) as [Hb Hw].
  change (weights (v :: votes)) with (v.2 + weights votes)%Z.
  change (weighted (v :: votes)) with (v.1 * v.2 + weighted votes)%Z.
  split; [lia|]. split; [lia|]. nia.
Qed.

(** The votes of a call are tiers with positive weights. *)
Lemma collect_votes_tiers combined description labels file_count v :
  v ∈ collect_votes combined description labels file_count ->
  (0 <= v.1 <= 4 /\ 0 < v.2)%Z.
Proof.
  unfold collect_votes. rewrite !elem_of_app. intros Hv.
  destruct Hv as [Hv|[Hv|[Hv|Hv]]]; repeat case_match; try (by inversion Hv);
    apply list_elem_of_singleton in Hv as ->; cbn; (split; [apply tier_index_bounds|lia]).
Qed.

(** ** Properties *)

(** [assess_complexity] is a bounded vote with a floor. When any signal
    votes, the tier of the vote lies between the least and the greatest vote and
    is the nearest one to their weighted mean, half to even; the result is the
    higher of it and an explicit [**Complexity**:] line, which can therefore
    raise a tier and never lower it; without votes the explicit line decides,
    and MODERATE when there is none. *)
Theorem assess_complexity_correct (title description : string) (labels : list string)
    (file_count : option Z) :
  let combined := PyStr.strip (title ++ PyStr.of_list [Markdown.nl] ++ description)%string in
  let votes := collect_votes combined description labels file_count in
  let explicit := extract_explicit_complexity combined in
  let tier := assess_complexity title description labels file_count in
  combined <> ""%string ->
  (votes = [] -> tier = default MODERATE explicit) /\
  (votes <> [] -> exists vote,
     tier_index tier = Z.max (tier_index vote) (default 0%Z (tier_index <$> explicit)) /\
     (2 * Z.abs (weighted votes - tier_index vote * weights votes) <= weights votes)%Z /\
     (forall lo hi, (forall v, v ∈ votes -> lo <= v.1 <= hi)%Z -> (lo <= tier_index vote <= hi)%Z)).
Proof.
  intros combined votes explicit tier Hne. unfold tier, assess_complexity.
  fold combined. rewrite decide_False by done. fold votes explicit.
  assert (forall v, v ∈ votes -> 0 <= v.1 <= 4 /\ 0 < v.2)%Z as Hv by apply collect_votes_tiers.
  split; [by intros ->|]. intros Hvotes.
  destruct (votes_bounds votes 0 4 Hv) as (_ & Hpos & Hb). specialize (Hpos Hvotes).
  pose proof (round_div_bounds _ _ _ _ Hpos Hb) as Hr.
  assert (rounded_index votes = round_div (weighted votes) (weights votes)) as Ei
    by (unfold rounded_index; lia).
  assert (tier_index (tier_at (rounded_index votes)) = round_div (weighted votes) (weights votes)) as Et.
  { rewrite index_tier_at; [done|lia]. }
  exists (tier_at (rounded_index votes)). split; [|split].
  - destruct votes as [|v0 vs] eqn:E; [done|]. rewrite <- E in *.
    destruct explicit as [e|].
    + change (default 0%Z (tier_index <$> Some e)) with (tier_index e). pose proof (tier_index_bounds e).
      destruct (Z.ltb_spec (rounded_index votes) (tier_index e)); rewrite ?Et; lia.
    + change (default 0%Z (tier_index <$> None)) with 0%Z. rewrite Et. lia.
  - rewrite Et. by apply round_div_nearest.
  - intros lo hi Hlh. rewrite Et.
    destruct (votes_bounds votes lo hi) as (_ & _ & Hb'); [|by eapply round_div_bounds].
    intros v Hin. split; [by apply Hlh|by apply Hv].
Qed.

Lemma assess_complexity_correct_witness :
  assess_complexity "Fix a typo" "**Complexity**: complex " ["size: simple"%string] (Some 9%Z) = COMPLEX /\
  exists vote, (tier_index vote <= 3)%Z.
Proof.
  split; [vm_compute; reflexivity|].
  destruct (assess_complexity_correct "Fix a typo" "**Complexity**: complex " ["size: simple"%string] (Some 9%Z))
    as [_ H]; [by vm_compute|].
  destruct H as (vote & _ & _ & Hb); [by vm_compute|]. exists vote.
  apply (Hb 0 3)%Z. intros v Hv. vm_compute in Hv.
  apply elem_of_cons in Hv as [->|Hv]; [cbn; lia|].
  repeat (apply elem_of_cons in Hv as [->|Hv]; [cbn; lia|]). by inversion Hv.
Defined.

End Complexity.
