(* ===== verification/Context.v ===== *)
(** * The execution context

    [sova/core/context.py] and the cost provenance of [sova/llm/models.py]: what
    a run accumulates while its steps execute, and how the usage of one step
    attempt is split between the agent runtime, the routed models and the
    provider. Dollars are integers of a fixed small unit. The fields that only
    steps read (paths, findings, commits) are left out. *)

From stdpp Require Import base gmap strings list pretty.
From S2P Require Import Prelude Tracker Complexity.
Local Open Scope string_scope.

(** ** Cost provenance *)

Inductive CostSource := PRICED | FREE_LOCAL | SUBSCRIPTION | UNKNOWN.

#[export] Instance CostSource_eq_dec : EqDecision CostSource.
Proof. solve_decision. Defined.

(** [combine_cost_sources] *)
Definition combine_cost_sources (current : option CostSource) (new : CostSource) : CostSource :=
  match current with
  | None => new
  | Some c =>
      if decide (c = new) then new
      else if bool_decide (c = UNKNOWN) || bool_decide (new = UNKNOWN) then UNKNOWN
      else PRICED
  end.

(** ** Token usage *)

Record TokenUsage := {
  input_tokens : Z;
  output_tokens : Z;
  cache_read_tokens : Z;
  cache_write_tokens : Z;
  tokens_saved : option Z;
  compressed_calls : Z;
  cache_write_reported_calls : Z;
  reasoning_tokens : Z;
  reasoning_reported_calls : Z;
  turns : Z;
  turns_reported_calls : Z;
}.

(** [TokenUsage()] *)
Definition no_usage : TokenUsage :=
  {| input_tokens := 0; output_tokens := 0; cache_read_tokens := 0; cache_write_tokens := 0;
     tokens_saved := None; compressed_calls := 0; cache_write_reported_calls := 0;
     reasoning_tokens := 0; reasoning_reported_calls := 0; turns := 0; turns_reported_calls := 0 |}.

(** [_delta_saved] *)
Definition delta_saved (after before : option Z) (compressed : Z) : option Z :=
  if Z.leb compressed 0 then None else Some (default 0 after - default 0 before)%Z.

(** [TokenUsage.__sub__] *)
Definition usage_sub (u v : TokenUsage) : TokenUsage :=
  let compressed := (compressed_calls u - compressed_calls v)%Z in
  {| input_tokens := input_tokens u - input_tokens v;
     output_tokens := output_tokens u - output_tokens v;
     cache_read_tokens := cache_read_tokens u - cache_read_tokens v;
     cache_write_tokens := cache_write_tokens u - cache_write_tokens v;
     tokens_saved := delta_saved (tokens_saved u) (tokens_saved v) compressed;
     compressed_calls := compressed;
     cache_write_reported_calls := cache_write_reported_calls u - cache_write_reported_calls v;
     reasoning_tokens := reasoning_tokens u - reasoning_tokens v;
     reasoning_reported_calls := reasoning_reported_calls u - reasoning_reported_calls v;
     turns := turns u - turns v;
     turns_reported_calls := turns_reported_calls u - turns_reported_calls v |}.

Definition saved_add (a b : option Z) : option Z :=
  match a, b with
  | None, None => None
  | _, _ => Some (default 0 a + default 0 b)%Z
  end.

(** [TokenUsage.__add__] *)
Definition usage_add (u v : TokenUsage) : TokenUsage :=
  {| input_tokens := input_tokens u + input_tokens v;
     output_tokens := output_tokens u + output_tokens v;
     cache_read_tokens := cache_read_tokens u + cache_read_tokens v;
     cache_write_tokens := cache_write_tokens u + cache_write_tokens v;
     tokens_saved := saved_add (tokens_saved u) (tokens_saved v);
     compressed_calls := compressed_calls u + compressed_calls v;
     cache_write_reported_calls := cache_write_reported_calls u + cache_write_reported_calls v;
     reasoning_tokens := reasoning_tokens u + reasoning_tokens v;
     reasoning_reported_calls := reasoning_reported_calls u + reasoning_reported_calls v;
     turns := turns u + turns v;
     turns_reported_calls := turns_reported_calls u + turns_reported_calls v |}.

(** The fields of an [LLMResult] that [add_usage] reads. *)
Record LLMResult := {
  r_model : string;
  r_cost_usd : Z;
  r_cost_source : CostSource;
  r_input_tokens : Z;
  r_output_tokens : Z;
  r_cache_read_tokens : Z;
  r_cache_creation_tokens : option Z;
  r_tokens_saved : option Z;
  r_reasoning_output_tokens : option Z;
  r_num_turns : option Z;
  r_runtime_name : option string;
  r_routed_task_type_model : option string;
}.

(** [class RoutedSpend] *)
Record RoutedSpend := {
  rs_model : string;
  rs_reason : option string;
  rs_usage : TokenUsage;
  rs_cost_usd : Z;
  rs_cost_source : option CostSource;
}.

(** ** The context *)

(** The fields the engine resets before every step attempt. *)
Record StepScope := {
  sc_deadline_seconds : option Z;
  sc_deadline_is_runaway : bool;
  sc_started_at : Z;
  sc_runtime_model : option string;
  sc_runtime_model_reason : option string;
  sc_provider_model : option string;
  sc_runtime_cost_source : option CostSource;
  sc_runtime_usage : option TokenUsage;
  sc_runtime_cost_usd : Z;
  sc_cost_source : option CostSource;
  sc_model_selection_reason : option string;
  sc_routed_spend : list (string * RoutedSpend);  (** a dictionary, in insertion order *)
}.

(** The fields the engine and its steps change as the run goes on. *)
Record Ctx := {
  cx_issue_number : string;
  cx_role : string;
  cx_run_label : string;
  cx_budget_override : bool;
  cx_resume_run_id : option Z;
  cx_completed_steps : gset string;
  cx_task_run_id : option Z;
  cx_branch_name : string;
  cx_worktree_dir : option string;
  cx_pr_number : option Z;
  cx_complexity : option Complexity.ComplexityTier;
  cx_cost_usd : Z;
  cx_usage : TokenUsage;
  cx_resolved_model : option string;
  cx_model_selection_reason : option string;
  cx_fallback_model_index : nat;
  cx_step : StepScope;
}.

(** The reset of [_run_step_with_timeout]. *)
Definition fresh_scope (deadline : Z) (is_runaway : bool) (now : Z) : StepScope :=
  {| sc_deadline_seconds := Some deadline; sc_deadline_is_runaway := is_runaway; sc_started_at := now;
     sc_runtime_model := None; sc_runtime_model_reason := None; sc_provider_model := None;
     sc_runtime_cost_source := None; sc_runtime_usage := None; sc_runtime_cost_usd := 0;
     sc_cost_source := None; sc_model_selection_reason := None; sc_routed_spend := [] |}.

Definition with_scope (sc : StepScope) (c : Ctx) : Ctx :=
  {| cx_issue_number := cx_issue_number c; cx_role := cx_role c; cx_run_label := cx_run_label c;
     cx_budget_override := cx_budget_override c; cx_resume_run_id := cx_resume_run_id c;
     cx_completed_steps := cx_completed_steps c; cx_task_run_id := cx_task_run_id c;
     cx_branch_name := cx_branch_name c; cx_worktree_dir := cx_worktree_dir c;
     cx_pr_number := cx_pr_number c; cx_complexity := cx_complexity c; cx_cost_usd := cx_cost_usd c;
     cx_usage := cx_usage c; cx_resolved_model := cx_resolved_model c;
     cx_model_selection_reason := cx_model_selection_reason c;
     cx_fallback_model_index := cx_fallback_model_index c; cx_step := sc |}.

Definition with_spend (cost : Z) (usage : TokenUsage) (sc : StepScope) (c : Ctx) : Ctx :=
  {| cx_issue_number := cx_issue_number c; cx_role := cx_role c; cx_run_label := cx_run_label c;
     cx_budget_override := cx_budget_override c; cx_resume_run_id := cx_resume_run_id c;
     cx_completed_steps := cx_completed_steps c; cx_task_run_id := cx_task_run_id c;
     cx_branch_name := cx_branch_name c; cx_worktree_dir := cx_worktree_dir c;
     cx_pr_number := cx_pr_number c; cx_complexity := cx_complexity c; cx_cost_usd := cost;
     cx_usage := usage; cx_resolved_model := cx_resolved_model c;
     cx_model_selection_reason := cx_model_selection_reason c;
     cx_fallback_model_index := cx_fallback_model_index c; cx_step := sc |}.

Definition with_model (resolved reason : option string) (index : nat) (c : Ctx) : Ctx :=
  {| cx_issue_number := cx_issue_number c; cx_role := cx_role c; cx_run_label := cx_run_label c;
     cx_budget_override := cx_budget_override c; cx_resume_run_id := cx_resume_run_id c;
     cx_completed_steps := cx_completed_steps c; cx_task_run_id := cx_task_run_id c;
     cx_branch_name := cx_branch_name c; cx_worktree_dir := cx_worktree_dir c;
     cx_pr_number := cx_pr_number c; cx_complexity := cx_complexity c; cx_cost_usd := cx_cost_usd c;
     cx_usage := cx_usage c; cx_resolved_model := resolved; cx_model_selection_reason := reason;
     cx_fallback_model_index := index; cx_step := cx_step c |}.

Definition with_run_id (id : Z) (c : Ctx) : Ctx :=
  {| cx_issue_number := cx_issue_number c; cx_role := cx_role c; cx_run_label := cx_run_label c;
     cx_budget_override := cx_budget_override c; cx_resume_run_id := cx_resume_run_id c;
     cx_completed_steps := cx_completed_steps c; cx_task_run_id := Some id;
     cx_branch_name := cx_branch_name c; cx_worktree_dir := cx_worktree_dir c;
     cx_pr_number := cx_pr_number c; cx_complexity := cx_complexity c; cx_cost_usd := cx_cost_usd c;
     cx_usage := cx_usage c; cx_resolved_model := cx_resolved_model c;
     cx_model_selection_reason := cx_model_selection_reason c;
     cx_fallback_model_index := cx_fallback_model_index c; cx_step := cx_step c |}.

(** [add_usage]: the cumulative counters. *)
Definition accumulate (r : LLMResult) (u : TokenUsage) : TokenUsage :=
  {| input_tokens := input_tokens u + r_input_tokens r;
     output_tokens := output_tokens u + r_output_tokens r;
     cache_read_tokens := cache_read_tokens u + r_cache_read_tokens r;
     cache_write_tokens := cache_write_tokens u + default 0 (r_cache_creation_tokens r);
     tokens_saved := match r_tokens_saved r with
                     | Some s => Some (default 0 (tokens_saved u) + s)
                     | None => tokens_saved u
                     end;
     compressed_calls := compressed_calls u + (if r_tokens_saved r then 1 else 0);
     cache_write_reported_calls :=
       cache_write_reported_calls u + (if r_cache_creation_tokens r then 1 else 0);
     reasoning_tokens := reasoning_tokens u + default 0 (r_reasoning_output_tokens r);
     reasoning_reported_calls :=
       reasoning_reported_calls u + (if r_reasoning_output_tokens r then 1 else 0);
     turns := turns u + default 0 (r_num_turns r);
     turns_reported_calls := turns_reported_calls u + (if r_num_turns r then 1 else 0) |}%Z.

(** The usage of one result, as [_add_routed_spend] builds it. *)
Definition result_usage (r : LLMResult) : TokenUsage :=
  {| input_tokens := r_input_tokens r;
     output_tokens := r_output_tokens r;
     cache_read_tokens := r_cache_read_tokens r;
     cache_write_tokens := default 0%Z (r_cache_creation_tokens r);
     tokens_saved := r_tokens_saved r;
     compressed_calls := if r_tokens_saved r then 1 else 0;
     cache_write_reported_calls := if r_cache_creation_tokens r then 1 else 0;
     reasoning_tokens := default 0%Z (r_reasoning_output_tokens r);
     reasoning_reported_calls := if r_reasoning_output_tokens r then 1 else 0;
     turns := default 0%Z (r_num_turns r);
     turns_reported_calls := if r_num_turns r then 1 else 0 |}.

(** [a or b] on texts that may be missing or empty. *)
Definition or_text (a b : option string) : option string :=
  match a with
  | Some s => if decide (s = "") then b else a
  | None => b
  end.

(** [_add_routed_spend]: the dictionary with the bucket of [key] updated. *)
Fixpoint add_to_bucket (key : string) (reason : string) (r : LLMResult) (spend : list (string * RoutedSpend))
    : list (string * RoutedSpend) :=
  match spend with
  | [] => [(key, {| rs_model := key; rs_reason := Some reason;
                    rs_usage := usage_add no_usage (result_usage r);
                    rs_cost_usd := 0 + r_cost_usd r;
                    rs_cost_source := Some (combine_cost_sources None (r_cost_source r)) |})]
  | (k, b) :: spend' =>
      if decide (k = key) then
        (k, {| rs_model := rs_model b; rs_reason := rs_reason b;
               rs_usage := usage_add (rs_usage b) (result_usage r);
               rs_cost_usd := rs_cost_usd b + r_cost_usd r;
               rs_cost_source := Some (combine_cost_sources (rs_cost_source b) (r_cost_source r)) |})
        :: spend'
      else (k, b) :: add_to_bucket key reason r spend'
  end.

(** How [add_usage] files a result. *)
Inductive share := Runtime | Routed (key reason : string) | Provider.

Definition share_of (r : LLMResult) (routed_reason : option string) : share :=
  match r_runtime_name r with
  | Some _ => Runtime
  | None =>
      match routed_reason, r_routed_task_type_model r with
      | Some reason, Some m => Routed (if decide (r_model r = "") then m else r_model r) reason
      | _, _ => Provider
      end
  end.

(** [ExecutionContext.add_usage] *)
Definition add_usage (r : LLMResult) (routed_reason : option string) (c : Ctx) : Ctx :=
  let usage := accumulate r (cx_usage c) in
  let cost := (cx_cost_usd c + r_cost_usd r)%Z in
  let sc := cx_step c in
  match share_of r routed_reason with
  | Routed key reason =>
      with_spend cost usage
        {| sc_deadline_seconds := sc_deadline_seconds sc; sc_deadline_is_runaway := sc_deadline_is_runaway sc;
           sc_started_at := sc_started_at sc; sc_runtime_model := sc_runtime_model sc;
           sc_runtime_model_reason := sc_runtime_model_reason sc; sc_provider_model := sc_provider_model sc;
           sc_runtime_cost_source := sc_runtime_cost_source sc; sc_runtime_usage := sc_runtime_usage sc;
           sc_runtime_cost_usd := sc_runtime_cost_usd sc; sc_cost_source := sc_cost_source sc;
           sc_model_selection_reason := sc_model_selection_reason sc;
           sc_routed_spend := add_to_bucket key reason r (sc_routed_spend sc) |} c
  | Provider =>
      with_spend cost usage
        {| sc_deadline_seconds := sc_deadline_seconds sc; sc_deadline_is_runaway := sc_deadline_is_runaway sc;
           sc_started_at := sc_started_at sc; sc_runtime_model := sc_runtime_model sc;
           sc_runtime_model_reason := sc_runtime_model_reason sc;
           sc_provider_model := or_text (Some (r_model r)) (sc_provider_model sc);
           sc_runtime_cost_source := sc_runtime_cost_source sc; sc_runtime_usage := sc_runtime_usage sc;
           sc_runtime_cost_usd := sc_runtime_cost_usd sc;
           sc_cost_source := Some (combine_cost_sources (sc_cost_source sc) (r_cost_source r));
           sc_model_selection_reason := sc_model_selection_reason sc;
           sc_routed_spend := sc_routed_spend sc |} c
  | Runtime =>
      let delta := usage_sub usage (cx_usage c) in
      with_spend cost usage
        {| sc_deadline_seconds := sc_deadline_seconds sc; sc_deadline_is_runaway := sc_deadline_is_runaway sc;
           sc_started_at := sc_started_at sc; sc_runtime_model := sc_runtime_model sc;
           sc_runtime_model_reason := sc_runtime_model_reason sc; sc_provider_model := sc_provider_model sc;
           sc_runtime_cost_source := Some (combine_cost_sources (sc_runtime_cost_source sc) (r_cost_source r));
           sc_runtime_usage := Some match sc_runtime_usage sc with
                                    | None => delta
                                    | Some u => usage_add u delta
                                    end;
           sc_runtime_cost_usd := (sc_runtime_cost_usd sc + r_cost_usd r)%Z;
           sc_cost_source := sc_cost_source sc;
           sc_model_selection_reason := sc_model_selection_reason sc;
           sc_routed_spend := sc_routed_spend sc |} c
  end.

(** ** Derived properties of the context *)

(** [state_accepted] *)
Definition state_accepted (s : TaskState.t) (allowed : list TaskState.t) (force override : bool) : bool :=
  if force then true
  else if override && bool_decide (s = TaskState.HUMAN_ONLY) then true
  else bool_decide (s ∈ allowed).

(** [is_budget_exceeded] *)
Definition is_budget_exceeded (max_budget : Z) (c : Ctx) : bool := Z.ltb max_budget (cx_cost_usd c).

(** [step_time_remaining]; 0 stands for the unset start. *)
Definition step_time_remaining (now : Z) (c : Ctx) : option Z :=
  match sc_deadline_seconds (cx_step c) with
  | None => None
  | Some d => if decide (sc_started_at (cx_step c) = 0%Z) then None
              else Some (1000 * d - (now - sc_started_at (cx_step c)))%Z
  end.

(** [display_label] *)
Definition display_label (c : Ctx) : string :=
  if decide (cx_issue_number c <> "") then "#" ++ cx_issue_number c
  else if decide (cx_run_label c <> "") then cx_run_label c
  else match cx_task_run_id c with
       | Some id => if decide (id = 0%Z) then "issue-less" else "run-" ++ pretty id
       | None => "issue-less"
       end.

(** [routing_task_type] *)
Definition routing_task_type (task_type : string) (c : Ctx) : option string :=
  if (0 <? cx_fallback_model_index c)%nat then None
  else if decide (task_type = "") then None else Some task_type.

(** [get_cli_fallback_model] *)
Definition get_cli_fallback_model (chain : list string) (c : Ctx) : option string :=
  chain !! cx_fallback_model_index c.

Local Close Scope string_scope.

(** ** The algebra of usages *)

(** A usage whose saving is known exactly when some call was compressed. *)
Definition coherent (u : TokenUsage) : Prop :=
  (0 <= compressed_calls u)%Z /\ (tokens_saved u = None <-> compressed_calls u = 0%Z).

Lemma usage_ext u v :
  input_tokens u = input_tokens v -> output_tokens u = output_tokens v ->
  cache_read_tokens u = cache_read_tokens v -> cache_write_tokens u = cache_write_tokens v ->
  tokens_saved u = tokens_saved v -> compressed_calls u = compressed_calls v ->
  cache_write_reported_calls u = cache_write_reported_calls v ->
  reasoning_tokens u = reasoning_tokens v -> reasoning_reported_calls u = reasoning_reported_calls v ->
  turns u = turns v -> turns_reported_calls u = turns_reported_calls v -> u = v.
Proof. destruct u, v; cbn. by intros -> -> -> -> -> -> -> -> -> -> ->. Qed.

(** Prove an equality of usages field by field. *)
Ltac usage_fields := apply usage_ext; cbn; try lia.

Lemma coherent_no_usage : coherent no_usage.
Proof. by split. Qed.

Lemma coherent_result r : coherent (result_usage r).
Proof. unfold coherent. cbn. destruct (r_tokens_saved r); split; try lia; split; intros; congruence. Qed.

Lemma saved_add_None a b : saved_add a b = None <-> a = None /\ b = None.
Proof. destruct a, b; cbn; naive_solver. Qed.

Lemma coherent_add u v : coherent u -> coherent v -> coherent (usage_add u v).
Proof.
  intros [Hu Eu] [Hv Ev]. split; cbn; [lia|]. rewrite saved_add_None, Eu, Ev. lia.
Qed.

Lemma usage_add_assoc u v w : usage_add u (usage_add v w) = usage_add (usage_add u v) w.
Proof.
  usage_fields. destruct (tokens_saved u), (tokens_saved v), (tokens_saved w); cbn; f_equal; lia.
Qed.

Lemma usage_add_comm u v : usage_add u v = usage_add v u.
Proof. usage_fields. destruct (tokens_saved u), (tokens_saved v); cbn; f_equal; lia. Qed.

Lemma usage_add_no_usage_l u : usage_add no_usage u = u.
Proof. usage_fields. destruct (tokens_saved u); cbn; f_equal; lia. Qed.

Lemma usage_add_no_usage_r u : usage_add u no_usage = u.
Proof. rewrite usage_add_comm. apply usage_add_no_usage_l. Qed.

(** Subtracting a snapshot gives back what was added since. *)
Lemma usage_add_sub u v : coherent v -> usage_sub (usage_add u v) u = v.
Proof.
  intros [Hv Ev]. usage_fields. unfold delta_saved.
  replace (compressed_calls u + compressed_calls v - compressed_calls u)%Z with (compressed_calls v) by lia.
  destruct (Z.leb_spec (compressed_calls v) 0).
  - symmetry. apply Ev. lia.
  - destruct (tokens_saved v) as [s|] eqn:E; [|assert (compressed_calls v = 0%Z) by (by apply Ev); lia].
    destruct (tokens_saved u); cbn; f_equal; lia.
Qed.

Lemma accumulate_add r u : accumulate r u = usage_add u (result_usage r).
Proof.
  usage_fields; destruct (r_tokens_saved r), (tokens_saved u); cbn; try done; f_equal; lia.
Qed.

Definition usage_sum (us : list TokenUsage) : TokenUsage := foldr usage_add no_usage us.

Lemma coherent_sum us : Forall coherent us -> coherent (usage_sum us).
Proof. induction 1; cbn; [apply coherent_no_usage|by apply coherent_add]. Qed.

(** ** What a step attempt records

    The results a step reports during one attempt, from a fresh scope, split
    into the shares of the runtime, of each routed model and of the provider. *)

Definition reported : Type := LLMResult * option string.

Definition add_all (rs : list reported) (c : Ctx) : Ctx :=
  foldl (fun c r => add_usage r.1 r.2 c) c rs.

Definition in_runtime (r : reported) : bool :=
  match share_of r.1 r.2 with Runtime => true | _ => false end.
Definition in_provider (r : reported) : bool :=
  match share_of r.1 r.2 with Provider => true | _ => false end.
Definition in_bucket (key : string) (r : reported) : bool :=
  match share_of r.1 r.2 with Routed k _ => bool_decide (k = key) | _ => false end.

Definition usage_of (p : reported -> bool) (rs : list reported) : TokenUsage :=
  usage_sum (map (fun r => result_usage r.1) (filter (fun r => p r = true) rs)).

Definition cost_of (p : reported -> bool) (rs : list reported) : Z :=
  foldr (fun r n => (r_cost_usd r.1 + n)%Z) 0%Z (filter (fun r => p r = true) rs).

Lemma usage_sum_snoc us u : usage_sum (us ++ [u]) = usage_add (usage_sum us) u.
Proof.
  induction us as [|v us IH]; cbn.
  - by rewrite usage_add_no_usage_l, usage_add_no_usage_r.
  - fold (usage_sum (us ++ [u])) (usage_sum us). by rewrite IH, usage_add_assoc.
Qed.

Lemma usage_of_snoc p rs r :
  usage_of p (rs ++ [r]) =
  if p r then usage_add (usage_of p rs) (result_usage r.1) else usage_of p rs.
Proof.
  unfold usage_of. rewrite filter_app, map_app, filter_cons, filter_nil.
  case_decide as E; rewrite ?E; [apply usage_sum_snoc|].
  destruct (p r); [done|]. cbn. by rewrite app_nil_r.
Qed.

Lemma foldr_cost_app (l1 l2 : list reported) :
  foldr (fun r n => (r_cost_usd r.1 + n)%Z) 0%Z (l1 ++ l2) =
  (foldr (fun r n => (r_cost_usd r.1 + n)%Z) 0%Z l1 + foldr (fun r n => (r_cost_usd r.1 + n)%Z) 0%Z l2)%Z.
Proof. induction l1 as [|x l1 IH]; [done|]. cbn. rewrite IH. lia. Qed.

Lemma cost_of_snoc p rs r :
  cost_of p (rs ++ [r]) = (cost_of p rs + if p r then r_cost_usd r.1 else 0)%Z.
Proof.
  unfold cost_of. rewrite filter_app, foldr_cost_app, filter_cons, filter_nil.
  case_decide as E; [rewrite E; cbn; lia|]. destruct (p r); [done|]. cbn. lia.
Qed.

Lemma coherent_usage_of p rs : coherent (usage_of p rs).
Proof.
  apply coherent_sum, Forall_forall. intros u (r & -> & _)%list_elem_of_fmap. apply coherent_result.
Qed.


Definition spend_usage (spend : list (string * RoutedSpend)) : TokenUsage :=
  usage_sum (map (fun kb => rs_usage kb.2) spend).
Definition spend_cost (spend : list (string * RoutedSpend)) : Z :=
  foldr (fun kb n => (rs_cost_usd kb.2 + n)%Z) 0%Z spend.

Lemma add_to_bucket_usage key reason r spend :
  spend_usage (add_to_bucket key reason r spend) = usage_add (spend_usage spend) (result_usage r).
Proof.
  unfold spend_usage. induction spend as [|[k b] spend IH]; cbn.
  - by rewrite !usage_add_no_usage_l, usage_add_no_usage_r.
  - fold (usage_sum (map (fun kb : string * RoutedSpend => rs_usage kb.2) spend)).
    case_decide; cbn; fold (usage_sum (map (fun kb : string * RoutedSpend => rs_usage kb.2) spend)).
    + by rewrite <- !usage_add_assoc, (usage_add_comm (result_usage r)).
    + unfold usage_sum in IH at 1. cbn in IH. rewrite IH. apply usage_add_assoc.
Qed.

Lemma add_to_bucket_cost key reason r spend :
  spend_cost (add_to_bucket key reason r spend) = (spend_cost spend + r_cost_usd r)%Z.
Proof.
  unfold spend_cost. induction spend as [|[k b] spend IH]; cbn; [lia|].
  case_decide; cbn; [lia|]. rewrite IH. lia.
Qed.

(** Every bucket holds exactly the results of its model. *)
Definition bucket_ok (rs : list reported) (kb : string * RoutedSpend) : Prop :=
  rs_model kb.2 = kb.1 /\ rs_usage kb.2 = usage_of (in_bucket kb.1) rs /\
  rs_cost_usd kb.2 = cost_of (in_bucket kb.1) rs.

Record split_inv (c0 : Ctx) (rs : list reported) (c : Ctx) : Prop := {
  si_usage : cx_usage c = usage_add (cx_usage c0) (usage_of (fun _ => true) rs);
  si_cost : cx_cost_usd c = (cx_cost_usd c0 + cost_of (fun _ => true) rs)%Z;
  si_runtime : sc_runtime_usage (cx_step c) =
    if existsb in_runtime rs then Some (usage_of in_runtime rs) else None;
  si_runtime_cost : sc_runtime_cost_usd (cx_step c) = cost_of in_runtime rs;
  si_total : usage_of (fun _ => true) rs =
    usage_add (usage_of in_runtime rs)
      (usage_add (spend_usage (sc_routed_spend (cx_step c))) (usage_of in_provider rs));
  si_total_cost : cost_of (fun _ => true) rs =
    (cost_of in_runtime rs + spend_cost (sc_routed_spend (cx_step c)) + cost_of in_provider rs)%Z;
  si_keys : NoDup (sc_routed_spend (cx_step c)).*1;
  si_buckets : Forall (bucket_ok rs) (sc_routed_spend (cx_step c));
  si_absent : forall k, k ∉ (sc_routed_spend (cx_step c)).*1 ->
    forall r, r ∈ rs -> in_bucket k r = false;
}.

Lemma usage_of_none p rs : (forall r, r ∈ rs -> p r = false) -> usage_of p rs = no_usage /\ cost_of p rs = 0%Z.
Proof.
  intros Hp. unfold usage_of, cost_of.
  replace (filter (fun r => p r = true) rs) with (@nil reported); [done|].
  symmetry. apply elem_of_nil_inv. intros r [Hr Hin]%list_elem_of_filter. rewrite Hp in Hr; done.
Qed.

Lemma bucket_ok_snoc_other rs r kb :
  in_bucket kb.1 r = false -> bucket_ok rs kb -> bucket_ok (rs ++ [r]) kb.
Proof.
  intros Hr (H1 & H2 & H3). split; [done|]. rewrite usage_of_snoc, cost_of_snoc, Hr, H2, H3.
  split; [done|lia].
Qed.

Lemma add_to_bucket_keys key reason r spend :
  (add_to_bucket key reason r spend).*1 = if decide (key ∈ spend.*1) then spend.*1 else spend.*1 ++ [key].
Proof.
  induction spend as [|[k b] spend IH]; [done|]. cbn. destruct (decide (k = key)) as [->|Hne]; cbn.
  - by rewrite decide_True by constructor.
  - rewrite IH. destruct (decide (key ∈ spend.*1)).
    + by rewrite decide_True by (by constructor).
    + rewrite decide_False; [done|]. by intros [->|?]%elem_of_cons.
Qed.

Lemma add_to_bucket_ok key reason r reason' rs spend :
  share_of r reason' = Routed key reason ->
  NoDup spend.*1 -> Forall (bucket_ok rs) spend ->
  (key ∉ spend.*1 -> forall r, r ∈ rs -> in_bucket key r = false) ->
  Forall (bucket_ok (rs ++ [(r, reason')])) (add_to_bucket key reason r spend).
Proof.
  intros Hs Hnd Hall.
  assert (in_bucket key (r, reason') = true) as Hin.
  { unfold in_bucket. cbn. rewrite Hs. by apply bool_decide_eq_true_2. }
  induction Hall as [|[k b] spend (H1 & H2 & H3) Hall IH]; intros Habs; cbn.
  - constructor; [|constructor]. destruct (usage_of_none (in_bucket key) rs) as [E1 E2].
    { apply Habs. by inversion 1. }
    split; [done|]. cbn [fst snd rs_usage rs_cost_usd].
    rewrite usage_of_snoc, cost_of_snoc, Hin, E1, E2. by split.
  - cbn in Hnd. apply NoDup_cons in Hnd as [Hk Hnd]. destruct (decide (k = key)) as [->|Hne].
    + constructor.
      * cbn in H1, H2, H3. split; [done|]. cbn [fst snd rs_usage rs_cost_usd].
        rewrite usage_of_snoc, cost_of_snoc, Hin, H2, H3. by split.
      * apply Forall_forall. intros [k' b'] Hkb. rewrite Forall_forall in Hall. apply Hall in Hkb as Hok.
        apply bucket_ok_snoc_other; [|done]. unfold in_bucket. cbn. rewrite Hs.
        apply bool_decide_eq_false_2. intros ->. destruct Hk. by apply (list_elem_of_fmap_2 fst) in Hkb.
    + constructor.
      * apply bucket_ok_snoc_other; [|done]. unfold in_bucket. cbn. rewrite Hs.
        apply bool_decide_eq_false_2. congruence.
      * apply IH; [done|]. intros Hkey. apply Habs. by intros [->|?]%elem_of_cons.
Qed.

Lemma add_usage_usage r reason c : cx_usage (add_usage r reason c) = accumulate r (cx_usage c).
Proof. unfold add_usage. by destruct (share_of r reason). Qed.

Lemma add_usage_cost r reason c : cx_cost_usd (add_usage r reason c) = (cx_cost_usd c + r_cost_usd r)%Z.
Proof. unfold add_usage. by destruct (share_of r reason). Qed.

Lemma existsb_snoc {A} (p : A -> bool) l x : existsb p (l ++ [x]) = existsb p l || p x.
Proof. rewrite existsb_app. cbn. by rewrite orb_false_r. Qed.

Lemma add_usage_runtime r reason c :
  sc_runtime_usage (cx_step (add_usage r reason c)) =
    (if in_runtime (r, reason)
     then Some (usage_add (default no_usage (sc_runtime_usage (cx_step c))) (result_usage r))
     else sc_runtime_usage (cx_step c)) /\
  sc_runtime_cost_usd (cx_step (add_usage r reason c)) =
    (sc_runtime_cost_usd (cx_step c) + if in_runtime (r, reason) then r_cost_usd r else 0)%Z.
Proof.
  unfold add_usage, in_runtime. cbn [fst snd]. destruct (share_of r reason); cbn; split; try done; try lia.
  rewrite accumulate_add, usage_add_sub by apply coherent_result.
  destruct (sc_runtime_usage (cx_step c)); cbn; [done|]. by rewrite usage_add_no_usage_l.
Qed.

Lemma add_usage_spend r reason c :
  sc_routed_spend (cx_step (add_usage r reason c)) =
  match share_of r reason with
  | Routed key why => add_to_bucket key why r (sc_routed_spend (cx_step c))
  | _ => sc_routed_spend (cx_step c)
  end.
Proof. unfold add_usage. by destruct (share_of r reason). Qed.

Lemma split_inv_step c0 rs c r reason :
  split_inv c0 rs c -> split_inv c0 (rs ++ [(r, reason)]) (add_usage r reason c).
Proof.
  intros [H1 H2 H3 H4 H5 H6 H7 H8 H9]. destruct (add_usage_runtime r reason c) as [R1 R2].
  pose proof (add_usage_spend r reason c) as Sp.
  split.
  - rewrite add_usage_usage, accumulate_add, H1, usage_of_snoc. cbn. by rewrite usage_add_assoc.
  - rewrite add_usage_cost, H2, cost_of_snoc. cbn. lia.
  - rewrite R1, H3, existsb_snoc, usage_of_snoc. destruct (in_runtime (r, reason)).
    + rewrite orb_true_r. destruct (existsb in_runtime rs) eqn:E; [done|]. cbn.
      destruct (usage_of_none in_runtime rs) as [-> _]; [|done].
      intros x Hx. destruct (in_runtime x) eqn:Ex; [|done].
      assert (existsb in_runtime rs = true) as Hc; [|by rewrite Hc in E].
      apply existsb_exists. exists x. split; [by apply list_elem_of_In|done].
    + by rewrite orb_false_r.
  - rewrite R2, H4, cost_of_snoc. done.
  - rewrite Sp, !usage_of_snoc, H5.
    change (in_runtime (r, reason)) with (match share_of r reason with Runtime => true | _ => false end).
    change (in_provider (r, reason)) with (match share_of r reason with Provider => true | _ => false end).
    cbn [fst].
    destruct (share_of r reason); rewrite ?add_to_bucket_usage.
    + rewrite <- !usage_add_assoc. f_equal.
      rewrite (usage_add_comm (result_usage r)). by rewrite <- !usage_add_assoc.
    + rewrite <- !usage_add_assoc. do 2 f_equal. apply usage_add_comm.
    + by rewrite <- !usage_add_assoc.
  - rewrite Sp, !cost_of_snoc, H6. change (in_runtime (r, reason)) with (match share_of r reason with Runtime => true | _ => false end).
    change (in_provider (r, reason)) with (match share_of r reason with Provider => true | _ => false end).
    cbn [fst]. destruct (share_of r reason); rewrite ?add_to_bucket_cost; cbv beta iota; lia.
  - rewrite Sp. destruct (share_of r reason); [done| |done]. rewrite add_to_bucket_keys.
    case_decide; [done|]. apply NoDup_app. split; [done|]. split; [|apply NoDup_singleton].
    intros x Hx ->%list_elem_of_singleton. done.
  - rewrite Sp. destruct (share_of r reason) eqn:Es.
    + eapply Forall_impl; [exact H8|]. intros kb. apply bucket_ok_snoc_other. unfold in_bucket. cbn. by rewrite Es.
    + apply add_to_bucket_ok; [done..|apply H9].
    + eapply Forall_impl; [exact H8|]. intros kb. apply bucket_ok_snoc_other. unfold in_bucket. cbn. by rewrite Es.
  - rewrite Sp. intros k Hk x [Hx|Hx%list_elem_of_singleton]%elem_of_app.
    + apply H9; [|done]. destruct (share_of r reason); [done| |done].
      rewrite add_to_bucket_keys in Hk. case_decide; [done|]. intros ?. apply Hk, elem_of_app. by left.
    + subst x. unfold in_bucket. cbn. destruct (share_of r reason) as [|key why|]; [done| |done].
      apply bool_decide_eq_false_2. intros <-. apply Hk. rewrite add_to_bucket_keys.
      case_decide; [done|]. apply elem_of_app. right. constructor.
Qed.

Lemma split_inv_all c rs deadline is_runaway now :
  split_inv c rs (add_all rs (with_scope (fresh_scope deadline is_runaway now) c)).
Proof.
  induction rs as [|[r reason] rs IH] using rev_ind.
  - split; cbn [add_all foldl with_scope fresh_scope cx_usage cx_cost_usd cx_step sc_runtime_usage
      sc_runtime_cost_usd sc_routed_spend existsb].
    + change (usage_of (fun _ => true) []) with no_usage. by rewrite usage_add_no_usage_r.
    + change (cost_of (fun _ => true) []) with 0%Z. by rewrite Z.add_0_r.
    + done.
    + done.
    + done.
    + done.
    + apply NoDup_nil_2.
    + done.
    + intros k _ r Hr. by inversion Hr.
  - unfold add_all. rewrite foldl_app. cbn. by apply split_inv_step.
Qed.
