(* ===== verification/State.v ===== *)
(** * Task and lifecycle states

    [sova/core/state.py]. *)

From stdpp Require Import base gmap strings list relations.
From S2P Require Import Prelude.
Local Open Scope string_scope.

Module TaskStatus.

(** [class TaskStatus(StrEnum)] *)
Inductive t :=
  | RUNNING | PENDING | ASSESSING | RESEARCHED | IN_PROGRESS | DEVELOPING | SIMPLIFYING
  | REVIEWING | COMMITTING | PUSHING | PR_CREATED | CI_MONITORING | AUTOMATED_REVIEW
  | ADDRESSING_REVIEW | AWAITING_APPROVAL | DONE | PAUSED | FAILED | REJECTED.

#[global] Instance t_eq_dec : EqDecision t.
Proof. solve_decision. Defined.

Definition value (s : t) : string :=
  match s with
  | RUNNING => "running" | PENDING => "pending" | ASSESSING => "assessing"
  | RESEARCHED => "researched" | IN_PROGRESS => "in_progress" | DEVELOPING => "developing"
  | SIMPLIFYING => "simplifying" | REVIEWING => "reviewing" | COMMITTING => "committing"
  | PUSHING => "pushing" | PR_CREATED => "pr_created" | CI_MONITORING => "ci_monitoring"
  | AUTOMATED_REVIEW => "automated_review" | ADDRESSING_REVIEW => "addressing_review"
  | AWAITING_APPROVAL => "awaiting_approval" | DONE => "done" | PAUSED => "paused"
  | FAILED => "failed" | REJECTED => "rejected"
  end.

(** [TASK_RUN_TERMINAL], [STEP_DONE_STATUSES] *)
Definition TASK_RUN_TERMINAL : list string :=
  ["done"; "failed"; "rejected"; "interrupted"; "paused"; "awaiting_approval"; "stopped"].

Definition STEP_DONE_STATUSES : list string := ["done"; "passed"; "skipped"].

End TaskStatus.

Module Lifecycle.

(** [class LifecyclePhase(StrEnum)], [class PhaseStatus(StrEnum)] *)
Inductive phase := DEVELOPMENT | POST_PR | REVIEW | ADDRESS_REVIEW | INTEGRATE | POST_MERGE.
Inductive status := PENDING | ACTIVE | COMPLETED | FAILED | SKIPPED | STOPPED.

#[global] Instance phase_eq_dec : EqDecision phase.
Proof. solve_decision. Defined.

(** [PHASE_ORDER] *)
Definition PHASE_ORDER : list phase :=
  [DEVELOPMENT; POST_PR; REVIEW; ADDRESS_REVIEW; INTEGRATE; POST_MERGE].

(** [PHASE_TRANSITIONS] *)
Definition PHASE_TRANSITIONS (p : phase) : list phase :=
  match p with
  | DEVELOPMENT => [POST_PR]
  | POST_PR => [REVIEW]
  | REVIEW => [ADDRESS_REVIEW; INTEGRATE]
  | ADDRESS_REVIEW => [INTEGRATE]
  | INTEGRATE => [POST_MERGE]
  | POST_MERGE => []
  end.

(** [PHASE_STATUS_TERMINAL] *)
Definition PHASE_STATUS_TERMINAL (s : status) : bool :=
  match s with COMPLETED | FAILED | SKIPPED | STOPPED => true | _ => false end.

End Lifecycle.
