(* ===== verification/Workflow.v ===== *)
(** * The workflow engine

    [sova/core/workflow.py]: [WorkflowEngine] and the step interface of
    [sova/core/steps/base.py]. The engine threads one state through everything:
    the context and the process state its steps see (the view), the database it
    records into, and its own attributes. A Python exception that leaves a
    function keeps the state reached so far, so the engine runs in a state monad
    with exceptions.

    Times are milliseconds of the monotonic clock, timeouts seconds as in the
    configuration. What a step does is its own: a step is four functions of the
    view. Every database transaction may fail, by the oracle [db_fault], and then
    changes nothing. Output lines, log lines and notifications are left out. *)

From stdpp Require Import base gmap strings list pretty.
From Stdlib Require Import Ascii.
From S2P Require Import Prelude Errors Complexity Context State.
Local Open Scope string_scope.

(** ** Results *)

(** [class StepResult] *)
Record StepResult := {
  sr_success : bool;
  sr_summary : string;
  sr_error : option string;
  sr_cost_usd : Z;
  sr_awaiting_approval : bool;
  sr_handoff_actions : list string;
  sr_partial_work : bool;
  sr_usage : option TokenUsage;
  sr_runaway_triggered : bool;
}.

(** [StepResult(success=False, summary=..., error=...)] *)
Definition failed_result (summary error : string) : StepResult :=
  {| sr_success := false; sr_summary := summary; sr_error := Some error; sr_cost_usd := 0;
     sr_awaiting_approval := false; sr_handoff_actions := []; sr_partial_work := false;
     sr_usage := None; sr_runaway_triggered := false |}.

(** [class GateCheckResult] *)
Record GateCheckResult := { gc_passed : bool; gc_reason : option string }.

(** The values of [StepRecord.status]. *)
Inductive record_status := RPending | RDone | RFailed | RSkipped | RRunaway.

#[export] Instance record_status_eq_dec : EqDecision record_status.
Proof. solve_decision. Defined.

(** [class StepRecord] *)
Record StepRecord := {
  rec_step_name : string;
  rec_status : record_status;
  rec_result : option StepResult;
  rec_gate : option GateCheckResult;
  rec_duration_ms : Z;
  rec_retries : nat;
  rec_step_exec_id : option nat;
  rec_total_attempts : nat;
}.

Definition new_record (name : string) (st : record_status) : StepRecord :=
  {| rec_step_name := name; rec_status := st; rec_result := None; rec_gate := None;
     rec_duration_ms := 0; rec_retries := 0; rec_step_exec_id := None; rec_total_attempts := 0 |}.

Definition set_status (st : record_status) (r : StepRecord) : StepRecord :=
  {| rec_step_name := rec_step_name r; rec_status := st; rec_result := rec_result r;
     rec_gate := rec_gate r; rec_duration_ms := rec_duration_ms r; rec_retries := rec_retries r;
     rec_step_exec_id := rec_step_exec_id r; rec_total_attempts := rec_total_attempts r |}.

Definition set_result (res : StepResult) (r : StepRecord) : StepRecord :=
  {| rec_step_name := rec_step_name r; rec_status := rec_status r; rec_result := Some res;
     rec_gate := rec_gate r; rec_duration_ms := rec_duration_ms r; rec_retries := rec_retries r;
     rec_step_exec_id := rec_step_exec_id r; rec_total_attempts := rec_total_attempts r |}.

Definition set_gate (g : GateCheckResult) (r : StepRecord) : StepRecord :=
  {| rec_step_name := rec_step_name r; rec_status := rec_status r; rec_result := rec_result r;
     rec_gate := Some g; rec_duration_ms := rec_duration_ms r; rec_retries := rec_retries r;
     rec_step_exec_id := rec_step_exec_id r; rec_total_attempts := rec_total_attempts r |}.

Definition set_exec_id (id : nat) (r : StepRecord) : StepRecord :=
  {| rec_step_name := rec_step_name r; rec_status := rec_status r; rec_result := rec_result r;
     rec_gate := rec_gate r; rec_duration_ms := rec_duration_ms r; rec_retries := rec_retries r;
     rec_step_exec_id := Some id; rec_total_attempts := rec_total_attempts r |}.

Definition set_duration (ms : Z) (r : StepRecord) : StepRecord :=
  {| rec_step_name := rec_step_name r; rec_status := rec_status r; rec_result := rec_result r;
     rec_gate := rec_gate r; rec_duration_ms := ms; rec_retries := rec_retries r;
     rec_step_exec_id := rec_step_exec_id r; rec_total_attempts := rec_total_attempts r |}.

Definition set_retries (n : nat) (r : StepRecord) : StepRecord :=
  {| rec_step_name := rec_step_name r; rec_status := rec_status r; rec_result := rec_result r;
     rec_gate := rec_gate r; rec_duration_ms := rec_duration_ms r; rec_retries := n;
     rec_step_exec_id := rec_step_exec_id r; rec_total_attempts := rec_total_attempts r |}.

Definition count_attempt (r : StepRecord) : StepRecord :=
  {| rec_step_name := rec_step_name r; rec_status := rec_status r; rec_result := rec_result r;
     rec_gate := rec_gate r; rec_duration_ms := rec_duration_ms r; rec_retries := rec_retries r;
     rec_step_exec_id := rec_step_exec_id r; rec_total_attempts := S (rec_total_attempts r) |}.

(** [class WorkflowResult]; the step records are in execution order. *)
Record WorkflowResult := {
  wr_success : bool;
  wr_final_status : TaskStatus.t;
  wr_task_run_id : option Z;
  wr_steps_completed : nat;
  wr_steps_failed : nat;
  wr_steps_skipped : nat;
  wr_total_cost_usd : Z;
  wr_error : option string;
  wr_step_records : list StepRecord;
}.

Definition stop_with (st : TaskStatus.t) (error : option string) (r : WorkflowResult) : WorkflowResult :=
  {| wr_success := wr_success r; wr_final_status := st; wr_task_run_id := wr_task_run_id r;
     wr_steps_completed := wr_steps_completed r; wr_steps_failed := wr_steps_failed r;
     wr_steps_skipped := wr_steps_skipped r; wr_total_cost_usd := wr_total_cost_usd r;
     wr_error := error; wr_step_records := wr_step_records r |}.

Definition add_record (rec : StepRecord) (r : WorkflowResult) : WorkflowResult :=
  {| wr_success := wr_success r; wr_final_status := wr_final_status r; wr_task_run_id := wr_task_run_id r;
     wr_steps_completed := wr_steps_completed r; wr_steps_failed := wr_steps_failed r;
     wr_steps_skipped := wr_steps_skipped r; wr_total_cost_usd := wr_total_cost_usd r;
     wr_error := wr_error r; wr_step_records := wr_step_records r ++ [rec] |}.

Definition count_steps (completed failed skipped : nat) (cost : Z) (r : WorkflowResult) : WorkflowResult :=
  {| wr_success := wr_success r; wr_final_status := wr_final_status r; wr_task_run_id := wr_task_run_id r;
     wr_steps_completed := wr_steps_completed r + completed; wr_steps_failed := wr_steps_failed r + failed;
     wr_steps_skipped := wr_steps_skipped r + skipped; wr_total_cost_usd := wr_total_cost_usd r + cost;
     wr_error := wr_error r; wr_step_records := wr_step_records r |}.

Definition set_final (st : TaskStatus.t) (r : WorkflowResult) : WorkflowResult :=
  stop_with st (wr_error r) r.

Definition succeed (r : WorkflowResult) : WorkflowResult :=
  {| wr_success := true; wr_final_status := TaskStatus.DONE; wr_task_run_id := wr_task_run_id r;
     wr_steps_completed := wr_steps_completed r; wr_steps_failed := wr_steps_failed r;
     wr_steps_skipped := wr_steps_skipped r; wr_total_cost_usd := wr_total_cost_usd r;
     wr_error := wr_error r; wr_step_records := wr_step_records r |}.

(** ** The database rows the engine writes *)

Record TaskRun := {
  tr_issue_number : option string;
  tr_run_label : string;
  tr_role : string;
  tr_status : string;
  tr_current_step : option string;
  tr_total_cost_usd : Z;
  tr_error_message : option string;
  tr_ended_at : option Z;
  tr_branch_name : string;
  tr_worktree_path : option string;
  tr_pr_number : option Z;
  tr_resumed_from_id : option Z;
}.

Record StepExecution := {
  se_task_run_id : option Z;
  se_step_name : string;
  se_status : string;
  se_retry_count : nat;
  se_duration_ms : option Z;
  se_cost_usd : option Z;
  se_output_summary : option string;
  se_error_message : option string;
  se_gate_check_result : option string;
  se_ended_at : option Z;
}.

Record CostRecord := {
  cr_task_run_id : option Z;
  cr_phase : string;
  cr_issue : string;
  cr_model : string;
  cr_cost_usd : Z;
  cr_cost_source : option CostSource;
  cr_duration_ms : Z;
  cr_model_selection_reason : option string;
  cr_input_tokens : Z;
  cr_output_tokens : Z;
  cr_cache_tokens : Z;
  cr_cache_read_tokens : Z;
  cr_cache_write_tokens : option Z;
  cr_reasoning_tokens : option Z;
  cr_num_turns : option Z;
  cr_tokens_saved : option Z;
  cr_pre_compression_input_tokens : option Z;
}.

Record FailureRecord := {
  fr_task_run_id : option Z;
  fr_step_name : string;
  fr_failure_type : string;
  fr_message : string;
}.

(** A step execution is known by its position. *)
Record DB := {
  db_runs : gmap Z TaskRun;
  db_steps : list StepExecution;
  db_costs : list CostRecord;
  db_failures : list FailureRecord;
  db_next_run : Z;
}.

(** ** Configuration, view, world *)

Record Config := {
  cfg_agent_model : string;
  cfg_fallback_models : list string;
  cfg_engine_owned_fallback : bool;
  cfg_max_budget : Z;
  cfg_max_issue_budget : Z;
  cfg_max_run_wall_clock_seconds : nat;
  cfg_max_run_steps : nat;
  cfg_max_llm_calls : nat;
  cfg_max_step_attempts : nat;
  cfg_gate_timeout : Z;
  cfg_verify_timeout : Z;
  cfg_ci_max_wait : Z;
  cfg_develop_timeouts : Z * Z;
  cfg_agent_timeouts : Z * Z;
}.

(** What a step sees and changes: the context, the clock, the LLM call counter and
    the directories that exist. *)
Record View := {
  v_ctx : Ctx;
  v_clock : Z;
  v_calls : nat;
  v_dirs : gset string;
}.

(** [class BaseStep]; the first argument of the last three is the timeout the
    engine wraps them in. A [TimeoutError] is the engine's timeout, or one that
    the step lets through. *)
Record BaseStep := {
  st_name : string;
  st_max_retries : nat;
  st_can_skip : View -> View * outcome bool;
  st_execute : Z -> View -> View * outcome StepResult;
  st_validate_output : Z -> View -> View * outcome GateCheckResult;
  st_verify_output : Z -> View -> View * outcome GateCheckResult;
}.

Record World := {
  w_view : View;
  w_db : DB;
  w_transactions : nat;
  w_run_started_at : Z;
  w_task_run_id : option Z;
  w_handoffs : list (string * list string);
}.

Definition set_view (v : View) (w : World) : World :=
  {| w_view := v; w_db := w_db w; w_transactions := w_transactions w;
     w_run_started_at := w_run_started_at w; w_task_run_id := w_task_run_id w; w_handoffs := w_handoffs w |}.

Definition set_ctx (c : Ctx) (w : World) : World :=
  set_view {| v_ctx := c; v_clock := v_clock (w_view w); v_calls := v_calls (w_view w);
              v_dirs := v_dirs (w_view w) |} w.

Definition ctx (w : World) : Ctx := v_ctx (w_view w).
Definition clock (w : World) : Z := v_clock (w_view w).

(** ** The monad *)

Definition M (A : Type) : Type := World -> World * outcome A.

Definition ret {A} (x : A) : M A := fun w => (w, Ret x).
Definition bind {A B} (m : M A) (k : A -> M B) : M B := fun w =>
  match m w with
  | (w', Ret x) => k x w'
  | (w', Raise e) => (w', Raise e)
  end.
Definition raise {A} (e : exn) : M A := fun w => (w, Raise e).

(** [try: m except ...: h(e)], for the exceptions [p] selects. *)
Definition try_catch {A} (p : exn -> bool) (m : M A) (h : exn -> M A) : M A := fun w =>
  match m w with
  | (w', Raise e) => if p e then h e w' else (w', Raise e)
  | r => r
  end.

(** [except Exception] *)
Definition any_exception (e : exn) : bool := true.

Definition get : M World := fun w => (w, Ret w).
Definition modify (f : World -> World) : M unit := fun w => (f w, Ret tt).

(** Run a function of a step. *)
Definition on_view {A} (f : View -> View * outcome A) : M A := fun w =>
  let '(v, r) := f (w_view w) in (set_view v w, r).

Notation "'let!' x := m 'in' k" := (bind m (fun x => k))
  (at level 10, x name, m at level 100, k at level 200) : sova_scope.
Notation "'do!' m 'in' k" := (bind m (fun _ => k))
  (at level 10, m at level 100, k at level 200) : sova_scope.
Local Open Scope sova_scope.

Section engine.
Context (cfg : Config).
(** Which database transaction fails, and how. *)
Context (db_fault : nat -> option exn).
(** [sova.git.worktree.preserve_partial_work]. *)
Context (preserve_partial_work : string -> View -> View * outcome bool).
(** How [Decimal] amounts and the seconds of the guard are written in messages. *)
Context (usd cents seconds : Z -> string).

(** One transaction: it happens whole, or fails and changes nothing. *)
Definition transact {A} (f : World -> DB -> DB * A) : M A := fun w =>
  let n := w_transactions w in
  let bump db := {| w_view := w_view w; w_db := db; w_transactions := S n;
                    w_run_started_at := w_run_started_at w; w_task_run_id := w_task_run_id w;
                    w_handoffs := w_handoffs w |} in
  match db_fault n with
  | Some e => (bump (w_db w), Raise e)
  | None => let '(db, x) := f w (w_db w) in (bump db, Ret x)
  end.

Definition set_runs (runs : gmap Z TaskRun) (db : DB) : DB :=
  {| db_runs := runs; db_steps := db_steps db; db_costs := db_costs db;
     db_failures := db_failures db; db_next_run := db_next_run db |}.

Definition set_steps (steps : list StepExecution) (db : DB) : DB :=
  {| db_runs := db_runs db; db_steps := steps; db_costs := db_costs db;
     db_failures := db_failures db; db_next_run := db_next_run db |}.

Definition add_costs (costs : list CostRecord) (db : DB) : DB :=
  {| db_runs := db_runs db; db_steps := db_steps db; db_costs := db_costs db ++ costs;
     db_failures := db_failures db; db_next_run := db_next_run db |}.

(** [task_run = await session.get(TaskRun, self._task_run_id)], then [f] on the
    row when it exists. *)
Definition update_run (f : World -> TaskRun -> TaskRun) : M unit :=
  transact (fun w db =>
    match w_task_run_id w with
    | None => (db, tt)
    | Some id => (set_runs (alter (f w) id (db_runs db)) db, tt)
    end).

(** ** Persistence *)

(** [_create_task_run] *)
Definition create_task_run : M Z :=
  transact (fun w db =>
    let c := ctx w in
    let id := db_next_run db in
    let row := {| tr_issue_number := if decide (cx_issue_number c = "") then None else Some (cx_issue_number c);
                  tr_run_label := cx_run_label c; tr_role := cx_role c;
                  tr_status := TaskStatus.value TaskStatus.PENDING; tr_current_step := None;
                  tr_total_cost_usd := 0; tr_error_message := None; tr_ended_at := None;
                  tr_branch_name := cx_branch_name c; tr_worktree_path := None; tr_pr_number := None;
                  tr_resumed_from_id := cx_resume_run_id c |} in
    ({| db_runs := <[id := row]> (db_runs db); db_steps := db_steps db; db_costs := db_costs db;
        db_failures := db_failures db; db_next_run := (id + 1)%Z |}, id)).

(** [_adopt_task_run] *)
Definition adopt_task_run : M unit :=
  let! found := transact (fun w db =>
    match w_task_run_id w with
    | None => (db, false)
    | Some id =>
        match db_runs db !! id with
        | None => (db, false)
        | Some r =>
            (set_runs (<[id := {| tr_issue_number := tr_issue_number r; tr_run_label := tr_run_label r;
               tr_role := tr_role r; tr_status := TaskStatus.value TaskStatus.RUNNING; tr_current_step := None;
               tr_total_cost_usd := tr_total_cost_usd r; tr_error_message := tr_error_message r;
               tr_ended_at := tr_ended_at r; tr_branch_name := tr_branch_name r;
               tr_worktree_path := tr_worktree_path r; tr_pr_number := tr_pr_number r;
               tr_resumed_from_id := cx_resume_run_id (ctx w) |}]> (db_runs db)) db, true)
        end
    end) in
  if found then ret tt else raise (RuntimeError "TaskRun not found in DB").

(** [_set_current_step] *)
Definition set_current_step (step_name : string) : M unit :=
  update_run (fun _ r =>
    {| tr_issue_number := tr_issue_number r; tr_run_label := tr_run_label r; tr_role := tr_role r;
       tr_status := tr_status r; tr_current_step := Some step_name;
       tr_total_cost_usd := tr_total_cost_usd r; tr_error_message := tr_error_message r;
       tr_ended_at := tr_ended_at r; tr_branch_name := tr_branch_name r;
       tr_worktree_path := tr_worktree_path r; tr_pr_number := tr_pr_number r;
       tr_resumed_from_id := tr_resumed_from_id r |}).

(** The statuses that end a run. *)
Definition ends_run (st : TaskStatus.t) : bool :=
  match st with
  | TaskStatus.DONE | TaskStatus.FAILED | TaskStatus.PAUSED | TaskStatus.AWAITING_APPROVAL => true
  | _ => false
  end.

(** A text that is there and not empty. *)
Definition truthy (t : option string) : bool :=
  match t with Some s => negb (bool_decide (s = "")) | None => false end.

(** [_update_task_run_status] *)
Definition update_task_run_status (status : TaskStatus.t) (error : option string) : M unit :=
  update_run (fun w r =>
    {| tr_issue_number := tr_issue_number r; tr_run_label := tr_run_label r; tr_role := tr_role r;
       tr_status := TaskStatus.value status; tr_current_step := tr_current_step r;
       tr_total_cost_usd := cx_cost_usd (ctx w);
       tr_error_message := if truthy error then error else tr_error_message r;
       tr_ended_at := if ends_run status then Some (clock w) else tr_ended_at r;
       tr_branch_name := tr_branch_name r; tr_worktree_path := tr_worktree_path r;
       tr_pr_number := tr_pr_number r; tr_resumed_from_id := tr_resumed_from_id r |}).

(** [_sync_task_run_context] (the confidence score is left out) *)
Definition sync_task_run_context : M unit :=
  update_run (fun w r =>
    let c := ctx w in
    {| tr_issue_number := tr_issue_number r; tr_run_label := tr_run_label r; tr_role := tr_role r;
       tr_status := tr_status r; tr_current_step := tr_current_step r;
       tr_total_cost_usd := cx_cost_usd c; tr_error_message := tr_error_message r;
       tr_ended_at := tr_ended_at r; tr_branch_name := cx_branch_name c;
       tr_worktree_path := match cx_worktree_dir c with Some d => Some d | None => tr_worktree_path r end;
       tr_pr_number := match cx_pr_number c with
                       | Some n => if decide (n = 0%Z) then tr_pr_number r else Some n
                       | None => tr_pr_number r
                       end;
       tr_resumed_from_id := tr_resumed_from_id r |}).

(** [_finalize_task_run] *)
Definition finalize_task_run : M unit :=
  update_run (fun w r =>
    let c := ctx w in
    {| tr_issue_number := tr_issue_number r; tr_run_label := tr_run_label r; tr_role := tr_role r;
       tr_status := tr_status r; tr_current_step := tr_current_step r;
       tr_total_cost_usd := cx_cost_usd c; tr_error_message := tr_error_message r;
       tr_ended_at := match tr_ended_at r with Some t => Some t | None => Some (clock w) end;
       tr_branch_name := cx_branch_name c;
       tr_worktree_path := match cx_worktree_dir c with Some d => Some d | None => tr_worktree_path r end;
       tr_pr_number := cx_pr_number c;
       tr_resumed_from_id := tr_resumed_from_id r |}).

(** [_record_failure] *)
Definition record_failure (step_name failure_type message : string) : M unit :=
  transact (fun w db =>
    ({| db_runs := db_runs db; db_steps := db_steps db; db_costs := db_costs db;
        db_failures := db_failures db ++ [{| fr_task_run_id := w_task_run_id w; fr_step_name := step_name;
                                             fr_failure_type := failure_type; fr_message := message |}];
        db_next_run := db_next_run db |}, tt)).

(** [_create_step_execution]; [skipped] carries the fields of a skipped step. *)
Definition create_step_execution (step_name : string) (retry_count : nat) (skipped : bool) : M nat :=
  transact (fun w db =>
    (set_steps (db_steps db ++
       [{| se_task_run_id := w_task_run_id w; se_step_name := step_name;
           se_status := if skipped then "skipped" else "running"; se_retry_count := retry_count;
           se_duration_ms := if skipped then Some 0%Z else None; se_cost_usd := None;
           se_output_summary := None; se_error_message := None; se_gate_check_result := None;
           se_ended_at := if skipped then Some (clock w) else None |}]) db,
     length (db_steps db))).

(** [_update_step_execution_status] *)
Definition db_exception (e : exn) : bool :=
  match e with OSError _ | RuntimeError _ | SQLAlchemyError _ => true | _ => false end.

Definition set_exec_status (status : string) (s : StepExecution) : StepExecution :=
  {| se_task_run_id := se_task_run_id s; se_step_name := se_step_name s; se_status := status;
     se_retry_count := se_retry_count s; se_duration_ms := se_duration_ms s; se_cost_usd := se_cost_usd s;
     se_output_summary := se_output_summary s; se_error_message := se_error_message s;
     se_gate_check_result := se_gate_check_result s; se_ended_at := se_ended_at s |}.

Definition update_step_execution_status (id : option nat) (status : string) : M unit :=
  match id with
  | None => ret tt
  | Some i =>
      try_catch db_exception
        (transact (fun _ db => (set_steps (alter (set_exec_status status) i (db_steps db)) db, tt)))
        (fun _ => ret tt)
  end.

(** [_update_step_execution_gate] *)
Definition update_step_execution_gate (id : nat) (g : GateCheckResult) : M unit :=
  transact (fun _ db =>
    (set_steps (alter (fun s =>
       {| se_task_run_id := se_task_run_id s; se_step_name := se_step_name s; se_status := "gate_failed";
          se_retry_count := se_retry_count s; se_duration_ms := se_duration_ms s;
          se_cost_usd := se_cost_usd s; se_output_summary := se_output_summary s;
          se_error_message := se_error_message s; se_gate_check_result := gc_reason g;
          se_ended_at := se_ended_at s |}) id (db_steps db)) db, tt)).

(** ** Cost records *)

(** [_usage_has_tokens] *)
Definition usage_has_tokens (u : TokenUsage) : bool :=
  Z.ltb 0 (input_tokens u) || Z.ltb 0 (output_tokens u) || Z.ltb 0 (cache_read_tokens u)
  || Z.ltb 0 (cache_write_tokens u) || Z.ltb 0 (turns_reported_calls u).

(** [_build_cost_record] *)
Definition build_cost_record (w : World) (step_name : string) (elapsed_ms : Z) (model : string)
    (cost : Z) (source : option CostSource) (reason : option string) (u : TokenUsage) : CostRecord :=
  {| cr_task_run_id := w_task_run_id w; cr_phase := step_name;
     cr_issue := if decide (cx_issue_number (ctx w) <> "") then cx_issue_number (ctx w)
                 else cx_run_label (ctx w);
     cr_model := model; cr_cost_usd := cost; cr_cost_source := source; cr_duration_ms := elapsed_ms;
     cr_model_selection_reason := reason;
     cr_input_tokens := input_tokens u; cr_output_tokens := output_tokens u;
     cr_cache_tokens := cache_read_tokens u + cache_write_tokens u;
     cr_cache_read_tokens := cache_read_tokens u;
     cr_cache_write_tokens := if Z.ltb 0 (cache_write_reported_calls u) then Some (cache_write_tokens u) else None;
     cr_reasoning_tokens := if Z.ltb 0 (reasoning_reported_calls u) then Some (reasoning_tokens u) else None;
     cr_num_turns := if Z.ltb 0 (turns_reported_calls u) then Some (turns u) else None;
     cr_tokens_saved := tokens_saved u;
     cr_pre_compression_input_tokens := (fun s => input_tokens u + s)%Z <$> tokens_saved u |}.

(** [a or b or "unknown"] *)
Definition or_unknown (a : option string) : string := default "unknown" (or_text a None).

(** The provider's share of an attempt: the totals less the runtime's and the
    routed models' shares. *)
Definition provider_usage (sc : StepScope) (result : StepResult) : TokenUsage :=
  let total := default no_usage (sr_usage result) in
  let after_runtime := match sc_runtime_usage sc with
                       | Some u => if sr_usage result then usage_sub total u else no_usage
                       | None => total
                       end in
  foldl (fun u kb => if sr_usage result then usage_sub u (rs_usage kb.2) else u)
    after_runtime (sc_routed_spend sc).

Definition provider_cost (sc : StepScope) (result : StepResult) : Z :=
  let after_runtime := match sc_runtime_usage sc with
                       | Some _ => Z.max (sr_cost_usd result - sc_runtime_cost_usd sc) 0
                       | None => sr_cost_usd result
                       end in
  foldl (fun cost kb => Z.max (cost - rs_cost_usd kb.2) 0) after_runtime (sc_routed_spend sc).

(** The cost records [_update_step_execution] writes for one attempt. *)
Definition attempt_cost_records (w : World) (step_name : string) (elapsed_ms : Z) (result : StepResult)
    : list CostRecord :=
  let c := ctx w in
  let sc := cx_step c in
  (match sc_runtime_usage sc with
   | Some u => [build_cost_record w step_name elapsed_ms (or_unknown (sc_runtime_model sc))
                  (sc_runtime_cost_usd sc) (sc_runtime_cost_source sc) (sc_runtime_model_reason sc) u]
   | None => []
   end)
  ++ map (fun kb => build_cost_record w step_name elapsed_ms (rs_model kb.2) (rs_cost_usd kb.2)
                      (rs_cost_source kb.2) (rs_reason kb.2) (rs_usage kb.2)) (sc_routed_spend sc)
  ++ (if Z.ltb 0 (provider_cost sc result) || usage_has_tokens (provider_usage sc result)
      then [build_cost_record w step_name elapsed_ms
              (or_unknown (or_text (sc_provider_model sc) (cx_resolved_model c)))
              (provider_cost sc result) (sc_cost_source sc)
              (or_text (sc_model_selection_reason sc) (cx_model_selection_reason c))
              (provider_usage sc result)]
      else []).

(** [_update_step_execution] *)
Definition update_step_execution (id : nat) (result : StepResult) (elapsed_ms : Z) : M unit :=
  transact (fun w db =>
    match db_steps db !! id with
    | None => (db, tt)
    | Some s =>
        let s' := {| se_task_run_id := se_task_run_id s; se_step_name := se_step_name s;
                     se_status := if sr_success result then "done" else "failed";
                     se_retry_count := se_retry_count s; se_duration_ms := Some elapsed_ms;
                     se_cost_usd := Some (sr_cost_usd result); se_output_summary := Some (sr_summary result);
                     se_error_message := if sr_success result then None else sr_error result;
                     se_gate_check_result := se_gate_check_result s; se_ended_at := Some (clock w) |} in
        (add_costs (attempt_cost_records w (se_step_name s) elapsed_ms result)
           (set_steps (<[id := s']> (db_steps db)) db), tt)
    end).

(** ** Timeouts and the runaway guard *)

(** [_step_timeout] *)
Definition step_timeout (c : Ctx) (step_name : string) : Z :=
  if decide (step_name = "monitor_ci") then (cfg_ci_max_wait cfg + 120)%Z
  else
    let '(normal, complex_tier) :=
      if decide (step_name = "develop") then cfg_develop_timeouts cfg else cfg_agent_timeouts cfg in
    Complexity.tier_timeout (cx_complexity c) normal complex_tier.

(** [max_run_wall_clock_seconds * complexity_multiplier(complexity)], in
    milliseconds: the multiplier counts halves. *)
Definition scaled_wall_clock (c : Ctx) : Z :=
  (Z.of_nat (cfg_max_run_wall_clock_seconds cfg) * 500 * Complexity.multiplier_halves (cx_complexity c))%Z.

(** [_effective_step_timeout]; a start of 0 is unset. *)
Definition effective_step_timeout (w : World) (step_name : string) : Z * bool :=
  let st := step_timeout (ctx w) step_name in
  if bool_decide (cfg_max_run_wall_clock_seconds cfg = 0%nat) || bool_decide (w_run_started_at w = 0%Z)
  then (st, false)
  else
    let remaining := Z.max 0 (Z.quot (scaled_wall_clock (ctx w) - (clock w - w_run_started_at w)) 1000) in
    if Z.ltb remaining st then (remaining, true) else (st, false).

(** [_is_runaway_failure] *)
Definition is_runaway_failure (error : option string) : bool :=
  match error with Some e => PyStr.startswith e "Runaway guard:" | None => false end.

(** The message of [_check_runaway_guard], when a limit is reached. *)
Definition runaway_message (w : World) (result : WorkflowResult) : option string :=
  let elapsed := (clock w - w_run_started_at w)%Z in
  if negb (bool_decide (cfg_max_run_wall_clock_seconds cfg = 0%nat)) && Z.ltb (scaled_wall_clock (ctx w)) elapsed
  then Some ("Runaway guard: wall clock exceeded " ++ seconds (scaled_wall_clock (ctx w)) ++ "s (base "
             ++ pretty (Z.of_nat (cfg_max_run_wall_clock_seconds cfg)) ++ "s, elapsed " ++ seconds elapsed ++ "s)")
  else if negb (bool_decide (cfg_max_run_steps cfg = 0%nat))
          && (cfg_max_run_steps cfg <=? wr_steps_completed result)%nat
  then Some ("Runaway guard: step count exceeded " ++ pretty (Z.of_nat (cfg_max_run_steps cfg)) ++ " steps")
  else if negb (bool_decide (cfg_max_llm_calls cfg = 0%nat)) && (cfg_max_llm_calls cfg <=? v_calls (w_view w))%nat
  then Some ("Runaway guard: LLM call count exceeded " ++ pretty (Z.of_nat (cfg_max_llm_calls cfg)) ++ " calls")
  else None.

(** [_pause_run] *)
Definition pause_run (step_name failure_type message : string) (result : WorkflowResult) : M WorkflowResult :=
  let result := stop_with TaskStatus.PAUSED (Some message) result in
  do! record_failure step_name failure_type message in
  do! update_task_run_status TaskStatus.PAUSED (Some message) in
  do! sync_task_run_context in
  ret result.

(** [_check_runaway_guard]: [Some] when the pipeline was paused. *)
Definition check_runaway_guard (step : BaseStep) (result : WorkflowResult) : M (option WorkflowResult) :=
  let! w := get in
  match runaway_message w result with
  | None => ret None
  | Some message =>
      let! r := pause_run (st_name step) "runaway_guard" message result in ret (Some r)
  end.

(** [_pause_for_runaway] *)
Definition pause_for_runaway (step : BaseStep) (rec : StepRecord) (result : WorkflowResult) : M WorkflowResult :=
  let error := match rec_result rec with Some r => sr_error r | None => None end in
  pause_run (st_name step) "runaway_guard"
    (if truthy error then default "" error
     else "Runaway guard tripped in step '" ++ st_name step ++ "'") result.

(** ** Fallback models *)

(** [_has_fallback_models] *)
Definition has_fallback_models (c : Ctx) : bool :=
  cfg_engine_owned_fallback cfg
  && (cx_fallback_model_index c <? length (cfg_fallback_models cfg))%nat.

(** [_advance_fallback] from the given index: the index it leaves, and the model. *)
Fixpoint advance_from (current : string) (index : nat) (chain : list string) : nat * option string :=
  match chain with
  | [] => (index, None)
  | candidate :: chain =>
      if decide (candidate = current) then advance_from current (S index) chain
      else (S index, Some candidate)
  end.

Definition advance_fallback (c : Ctx) : nat * option string :=
  let current := default (cfg_agent_model cfg) (or_text (cx_resolved_model c) None) in
  let index := cx_fallback_model_index c in
  advance_from current index (drop index (cfg_fallback_models cfg)).

(** ** One attempt at a step *)

(** What an attempt reports to the retry loop. *)
Inductive attempt := ADone | AFailed | ABillingExhausted | ANonRetryable | ARunaway | AContinue.

#[export] Instance attempt_eq_dec : EqDecision attempt.
Proof. solve_decision. Defined.

(** [_prepare_step_execution] *)
Definition prepare_step_execution (step : BaseStep) (rec : StepRecord) (n : nat) : M (StepRecord * option nat) :=
  try_catch any_exception
    (let! id := create_step_execution (st_name step) n false in ret (set_exec_id id rec, Some id))
    (fun e => ret (set_result (failed_result ("DB error creating step execution for " ++ st_name step)
                                 (exn_str e)) rec, None)).

(** [_preserve_partial_work_on_timeout] *)
Definition preserve_partial_work_on_timeout (step_name : string) : M bool :=
  let! w := get in
  match cx_worktree_dir (ctx w) with
  | None => ret false
  | Some _ => on_view (preserve_partial_work (step_name ++ " (timeout)"))
  end.

(** The result of a step that timed out. *)
Definition timeout_result (step_name : string) (timeout : Z) (runaway partial : bool) : StepResult :=
  let message := if runaway
    then "Runaway guard: wall clock exceeded during step '" ++ step_name ++ "' (step aborted after "
         ++ pretty timeout ++ "s of remaining budget)"
    else "Step '" ++ step_name ++ "' exceeded hard timeout (" ++ pretty timeout ++ "s)" in
  {| sr_success := false; sr_summary := message;
     sr_error := Some (if runaway then message else "step_hard_timeout");
     sr_cost_usd := 0; sr_awaiting_approval := false; sr_handoff_actions := [];
     sr_partial_work := partial; sr_usage := None; sr_runaway_triggered := runaway |}.

(** The end of [_run_step_with_timeout]: the spend of the step is the context's
    when its result carries less. *)
Definition attribute_spend (usage_before : TokenUsage) (cost_before : Z) (c : Ctx) (r : StepResult) : StepResult :=
  let step_cost := (cx_cost_usd c - cost_before)%Z in
  {| sr_success := sr_success r; sr_summary := sr_summary r; sr_error := sr_error r;
     sr_cost_usd := if Z.ltb (sr_cost_usd r) step_cost then step_cost else sr_cost_usd r;
     sr_awaiting_approval := sr_awaiting_approval r; sr_handoff_actions := sr_handoff_actions r;
     sr_partial_work := sr_partial_work r; sr_usage := Some (usage_sub (cx_usage c) usage_before);
     sr_runaway_triggered := sr_runaway_triggered r |}.

(** [_run_step_with_timeout] *)
Definition run_step_with_timeout (step : BaseStep) : M StepResult :=
  let! w := get in
  let '(timeout, runaway_deadline) := effective_step_timeout w (st_name step) in
  let usage_before := cx_usage (ctx w) in
  let cost_before := cx_cost_usd (ctx w) in
  do! modify (fun w => set_ctx (with_scope (fresh_scope timeout runaway_deadline (clock w)) (ctx w)) w) in
  let! result :=
    try_catch any_exception (on_view (st_execute step timeout)) (fun e =>
      match e with
      | TimeoutError =>
          let! partial := preserve_partial_work_on_timeout (st_name step) in
          ret (timeout_result (st_name step) timeout runaway_deadline partial)
      | _ => ret (failed_result ("Exception in " ++ st_name step) (exn_str e))
      end) in
  let! w := get in
  ret (attribute_spend usage_before cost_before (ctx w) result).

(** [_persist_step_result] *)
Definition persist_step_result (id : nat) (result : StepResult) (elapsed_ms : Z) : M unit :=
  try_catch any_exception (update_step_execution id result elapsed_ms) (fun _ => ret tt).

(** The part of an error that is classified: before the check output of a target
    project. *)
Definition nl2 : string := PyStr.of_list [ascii_of_nat 10; ascii_of_nat 10].

Definition failure_detail (error : option string) : string :=
  (PyStr.split_once (default "" error) (nl2 ++ "Last check output")).1.

(** [_handle_step_failure_result] *)
Definition handle_step_failure_result (c : Ctx) (result : StepResult) : attempt :=
  if is_runaway_failure (sr_error result) then ARunaway
  else
    let detail := Detail (Some (failure_detail (sr_error result))) in
    if is_configuration_failure detail then ANonRetryable
    else if is_billing_failure detail && has_fallback_models c then ABillingExhausted
    else AFailed.

(** A gate check with its timeout and exceptions turned into a failed gate. *)
Definition guarded_gate (what : string) (timeout : Z) (check : Z -> View -> View * outcome GateCheckResult)
    : M GateCheckResult :=
  try_catch any_exception (on_view (check timeout)) (fun e =>
    match e with
    | TimeoutError => ret {| gc_passed := false;
                             gc_reason := Some (what ++ " timed out after " ++ pretty timeout ++ "s") |}
    | _ => ret {| gc_passed := false; gc_reason := Some (what ++ " failed with exception: " ++ exn_name e ++ ": " ++ exn_str e) |}
    end).

(** [_verify_step_output] *)
Definition verify_step_output (step : BaseStep) (id : nat) (rec : StepRecord) : M (StepRecord * attempt) :=
  let! w := get in
  let st := step_timeout (ctx w) (st_name step) in
  let timeout := if Z.ltb 0 (cfg_verify_timeout cfg) then Z.min st (cfg_verify_timeout cfg) else st in
  let! gate := guarded_gate "Verification" timeout (st_verify_output step) in
  if gc_passed gate then ret (set_gate gate rec, ADone)
  else do! update_step_execution_gate id gate in ret (set_gate gate rec, AFailed).

(** [_validate_step_gate] *)
Definition validate_step_gate (step : BaseStep) (id : nat) (rec : StepRecord) : M (StepRecord * attempt) :=
  let! w := get in
  let timeout := Z.min (step_timeout (ctx w) (st_name step)) (cfg_gate_timeout cfg) in
  let! gate := guarded_gate "Gate check" timeout (st_validate_output step) in
  let rec := set_gate gate rec in
  if gc_passed gate then verify_step_output step id rec
  else do! update_step_execution_gate id gate in ret (rec, AFailed).

(** [_execute_single_attempt] *)
Definition execute_single_attempt (step : BaseStep) (rec : StepRecord) (n : nat) : M (StepRecord * attempt) :=
  let! pair := prepare_step_execution step rec n in
  let '(rec, id) := pair in
  match id with
  | None => ret (rec, AContinue)
  | Some id =>
      let! w := get in
      let start := clock w in
      let! result := run_step_with_timeout step in
      let! w := get in
      let elapsed_ms := (clock w - start)%Z in
      let rec := set_result result (set_duration elapsed_ms rec) in
      do! persist_step_result id result elapsed_ms in
      if sr_success result then validate_step_gate step id rec
      else if sr_runaway_triggered result then ret (rec, ARunaway)
      else
        let! w := get in
        ret (rec, handle_step_failure_result (ctx w) result)
  end.

(** ** Retries and fallbacks *)

(** What [_try_step_with_retries] returns. *)
Inductive tried := TDone | TFailed | TBillingExhausted | TRunaway.

#[export] Instance tried_eq_dec : EqDecision tried.
Proof. solve_decision. Defined.

(** The loop of [_try_step_with_retries], with [remaining] attempts left of the
    ones the model gets; [n] attempts are done. *)
Fixpoint retry_loop (remaining n : nat) (last_was_billing : bool) (step : BaseStep) (rec : StepRecord)
    : M (StepRecord * tried) :=
  match remaining with
  | 0%nat =>
      let! w := get in
      ret (set_status RFailed rec,
           if last_was_billing && has_fallback_models (ctx w) then TBillingExhausted else TFailed)
  | S remaining =>
      if negb (bool_decide (cfg_max_step_attempts cfg = 0%nat))
         && (cfg_max_step_attempts cfg <=? rec_total_attempts rec)%nat
      then
        let message := "Runaway guard: step '" ++ st_name step ++ "' exceeded "
                       ++ pretty (Z.of_nat (cfg_max_step_attempts cfg)) ++ " attempts" in
        ret (set_status RRunaway (set_result (failed_result message message) rec), TRunaway)
      else
        let! pair := execute_single_attempt step (count_attempt rec) n in
  let '(rec, a) := pair in
        let rec := set_retries n rec in
        match a with
        | AContinue => retry_loop remaining (S n) last_was_billing step rec
        | ARunaway => ret (set_status RRunaway rec, TRunaway)
        | ADone => ret (set_status RDone rec, TDone)
        | ANonRetryable => ret (set_status RFailed rec, TFailed)
        | AFailed =>
            if (0 <? remaining)%nat then retry_loop remaining (S n) false step rec
            else ret (set_status RFailed rec, TFailed)
        | ABillingExhausted => ret (set_status RFailed rec, TBillingExhausted)
        end
  end.

(** [_try_step_with_retries] *)
Definition try_step_with_retries (step : BaseStep) (rec : StepRecord) : M (StepRecord * tried) :=
  retry_loop (S (st_max_retries step)) 0 false step rec.

(** [_execute_with_retries]: [None] when the fuel runs out, which one unit per
    model of the chain and one more prevents. *)
Fixpoint fallback_loop (fuel : nat) (step : BaseStep) (rec : StepRecord) : M (option StepRecord) :=
  match fuel with
  | 0%nat => ret None
  | S fuel =>
      let! pair := try_step_with_retries step rec in
  let '(rec, t) := pair in
      if decide (t <> TBillingExhausted) then ret (Some rec)
      else
        let! w := get in
        let '(index, next) := advance_fallback (ctx w) in
        match next with
        | None =>
            do! modify (fun w => set_ctx (with_model (cx_resolved_model (ctx w))
                          (cx_model_selection_reason (ctx w)) index (ctx w)) w) in
            ret (Some (set_status RFailed rec))
        | Some model =>
            do! modify (fun w => set_ctx (with_model (Some model)
                          (Some ("fallback (billing failure) -> " ++ model)) index (ctx w)) w) in
            fallback_loop fuel step rec
        end
  end.

Definition execute_with_retries (step : BaseStep) : M (option StepRecord) :=
  fallback_loop (S (length (cfg_fallback_models cfg))) step (new_record (st_name step) RPending).

(** ** The pipeline *)

(** [_STEP_STATUS_MAP] *)
Definition STEP_STATUS_MAP : list (string * TaskStatus.t) :=
  [("sync", TaskStatus.PENDING); ("assess", TaskStatus.ASSESSING);
   ("create_worktree", TaskStatus.IN_PROGRESS); ("develop", TaskStatus.DEVELOPING);
   ("simplify", TaskStatus.SIMPLIFYING); ("self_review", TaskStatus.REVIEWING);
   ("commit", TaskStatus.COMMITTING); ("validate", TaskStatus.COMMITTING);
   ("rebase", TaskStatus.ADDRESSING_REVIEW); ("push", TaskStatus.PUSHING);
   ("create_pr", TaskStatus.PR_CREATED); ("monitor_ci", TaskStatus.CI_MONITORING);
   ("address_review", TaskStatus.ADDRESSING_REVIEW);
   ("handoff_to_reviewer", TaskStatus.DONE); ("handoff_to_user", TaskStatus.DONE)].

(** [_handle_step_failure] *)
Definition failure_verdict (rec : StepRecord) : TaskStatus.t * option string * string :=
  let error := match rec_result rec with Some r => sr_error r | None => Some "Unknown error" end in
  match rec_gate rec with
  | Some g => if gc_passed g then (TaskStatus.FAILED, error, "exception")
              else (TaskStatus.PAUSED, gc_reason g, "gate_check")
  | None => (TaskStatus.FAILED, error, "exception")
  end.

Definition handle_step_failure (step : BaseStep) (rec : StepRecord) (result : WorkflowResult) : M WorkflowResult :=
  let '(status, error, failure_type) := failure_verdict rec in
  let result := stop_with status error (count_steps 0 1 0 0 result) in
  do! record_failure (st_name step) failure_type (default "Unknown error" (or_text error None)) in
  do! update_task_run_status status error in
  do! sync_task_run_context in
  ret result.

(** [_handle_step_approval] (the handoff file is a list of its actions) *)
Definition handle_step_approval (step : BaseStep) (rec : StepRecord) (r : StepResult) (result : WorkflowResult)
    : M WorkflowResult :=
  let result := set_final TaskStatus.AWAITING_APPROVAL result in
  do! update_step_execution_status (rec_step_exec_id rec) (TaskStatus.value TaskStatus.AWAITING_APPROVAL) in
  do! update_task_run_status TaskStatus.AWAITING_APPROVAL None in
  do! modify (fun w =>
    if decide (sr_handoff_actions r = []) then w
    else {| w_view := w_view w; w_db := w_db w; w_transactions := w_transactions w;
            w_run_started_at := w_run_started_at w; w_task_run_id := w_task_run_id w;
            w_handoffs := w_handoffs w ++ [(st_name step, sr_handoff_actions r)] |}) in
  ret result.

(** The three checks of [_execute_step] before the step: [Some] stops the run. *)
Definition pre_step_checks (step : BaseStep) (result : WorkflowResult) : M (option WorkflowResult) :=
  let! w := get in
  let c := ctx w in
  match cx_worktree_dir c with
  | Some d =>
      if bool_decide (d ∈ v_dirs (w_view w)) then ret None
      else
        let message := "Worktree does not exist: " ++ d in
        do! record_failure (st_name step) "worktree_deleted" message in
        do! update_task_run_status TaskStatus.FAILED (Some message) in
        ret (Some (stop_with TaskStatus.FAILED (Some message) result))
  | None => ret None
  end.

Definition budget_check (step : BaseStep) (result : WorkflowResult) : M (option WorkflowResult) :=
  let! w := get in
  if is_budget_exceeded (cfg_max_budget cfg) (ctx w) then
    let message := "Budget exceeded: $" ++ usd (cx_cost_usd (ctx w)) in
    do! record_failure (st_name step) "budget_exceeded" message in
    do! update_task_run_status TaskStatus.PAUSED (Some message) in
    do! sync_task_run_context in
    ret (Some (stop_with TaskStatus.PAUSED (Some message) result))
  else ret None.

(** [_execute_step] after its checks and the skip test. *)
Definition run_checked_step (step : BaseStep) (result : WorkflowResult) : M (option (bool * WorkflowResult)) :=
  do! set_current_step (st_name step) in
  let! rec := execute_with_retries step in
  match rec with
  | None => ret None
  | Some rec =>
      let result := add_record rec result in
      match rec_status rec with
      | RRunaway => let! r := pause_for_runaway step rec result in ret (Some (false, r))
      | RFailed => let! r := handle_step_failure step rec result in ret (Some (false, r))
      | _ =>
          let cost := match rec_result rec with Some r => sr_cost_usd r | None => 0%Z end in
          let result := count_steps 1 0 0 cost result in
          do! sync_task_run_context in
          match rec_result rec with
          | Some r =>
              if sr_awaiting_approval r then
                let! result := handle_step_approval step rec r result in ret (Some (false, result))
              else
                ret (Some (true, match assoc (st_name step) STEP_STATUS_MAP with
                                 | Some st => set_final st result
                                 | None => result
                                 end))
          | None => ret (Some (true, match assoc (st_name step) STEP_STATUS_MAP with
                                     | Some st => set_final st result
                                     | None => result
                                     end))
          end
      end
  end.

(** [_execute_step]; [None] is an exhausted fuel. *)
Definition execute_step (step : BaseStep) (result : WorkflowResult) : M (option (bool * WorkflowResult)) :=
  let! stop := pre_step_checks step result in
  match stop with Some r => ret (Some (false, r)) | None =>
  let! stop := budget_check step result in
  match stop with Some r => ret (Some (false, r)) | None =>
  let! stop := check_runaway_guard step result in
  match stop with Some r => ret (Some (false, r)) | None =>
  let! skip := on_view (st_can_skip step) in
  if skip then
    do! try_catch any_exception
          (let! _ := create_step_execution (st_name step) 0 true in ret tt) (fun _ => ret tt) in
    ret (Some (true, add_record (new_record (st_name step) RSkipped) (count_steps 0 0 1 0 result)))
  else run_checked_step step result
  end end end.

(** The loop over the steps of [run]. *)
Fixpoint run_steps (steps : list BaseStep) (result : WorkflowResult) : M (option (bool * WorkflowResult)) :=
  match steps with
  | [] => ret (Some (true, result))
  | step :: steps =>
      let! r := execute_step step result in
      match r with
      | Some (true, result) => run_steps steps result
      | _ => ret r
      end
  end.

(** [_finalize] *)
Definition finalize (result : WorkflowResult) : M WorkflowResult :=
  do! update_task_run_status TaskStatus.DONE None in
  do! finalize_task_run in
  ret (succeed result).

(** The statuses of [_check_per_issue_budget]. *)
Definition BUDGET_TERMINAL : list string := ["done"; "failed"; "rejected"; "interrupted"; "paused"; "stopped"].

(** [SUM(total_cost_usd)] over the finished runs of the issue, this one apart. *)
Definition prior_cost (issue : string) (own : option Z) (runs : gmap Z TaskRun) : Z :=
  map_fold (fun id r n =>
    if bool_decide (tr_issue_number r = Some issue) && negb (bool_decide (own = Some id))
       && bool_decide (tr_status r ∈ BUDGET_TERMINAL)
    then (tr_total_cost_usd r + n)%Z else n) 0%Z runs.

(** [_check_per_issue_budget] *)
Definition check_per_issue_budget (result : WorkflowResult) : M WorkflowResult :=
  let! w := get in
  let c := ctx w in
  if cx_budget_override c then ret result
  else if decide (cx_issue_number c = "") then ret result
  else
    let! prior := transact (fun w db =>
      (db, prior_cost (cx_issue_number c) (w_task_run_id w) (db_runs db))) in
    if Z.leb (cfg_max_issue_budget cfg) prior then
      let message := "Per-issue budget exceeded: $" ++ cents prior ++ " spent on issue #" ++ cx_issue_number c
                     ++ " (limit: $" ++ usd (cfg_max_issue_budget cfg) ++ ")" in
      do! try_catch any_exception
            (do! record_failure "budget_check" "per_issue_budget_exceeded" message in
             update_task_run_status TaskStatus.PAUSED (Some message))
            (fun _ => ret tt) in
      ret (stop_with TaskStatus.PAUSED (Some message) result)
    else ret result.

(** [run]; [None] is an exhausted fuel. *)
Definition run (steps : list BaseStep) : M (option WorkflowResult) :=
  do! modify (fun w =>
    if decide (w_run_started_at w = 0%Z)
    then {| w_view := {| v_ctx := v_ctx (w_view w); v_clock := clock w; v_calls := 0; v_dirs := v_dirs (w_view w) |};
            w_db := w_db w; w_transactions := w_transactions w; w_run_started_at := clock w;
            w_task_run_id := w_task_run_id w; w_handoffs := w_handoffs w |}
    else w) in
  let! w := get in
  do! (match cx_task_run_id (ctx w) with
       | Some id =>
           do! modify (fun w => {| w_view := w_view w; w_db := w_db w; w_transactions := w_transactions w;
                                   w_run_started_at := w_run_started_at w; w_task_run_id := Some id;
                                   w_handoffs := w_handoffs w |}) in
           adopt_task_run
       | None =>
           let! id := create_task_run in
           modify (fun w => set_ctx (with_run_id id (ctx w))
             {| w_view := w_view w; w_db := w_db w; w_transactions := w_transactions w;
                w_run_started_at := w_run_started_at w; w_task_run_id := Some id; w_handoffs := w_handoffs w |})
       end) in
  let! w := get in
  let result := {| wr_success := false; wr_final_status := TaskStatus.PENDING; wr_task_run_id := w_task_run_id w;
                   wr_steps_completed := 0; wr_steps_failed := 0; wr_steps_skipped := 0;
                   wr_total_cost_usd := 0; wr_error := None; wr_step_records := [] |} in
  let! result := check_per_issue_budget result in
  if truthy (wr_error result) then ret (Some result)
  else
    let! r := run_steps steps result in
    match r with
    | None => ret None
    | Some (false, result) => ret (Some result)
    | Some (true, result) => let! result := finalize result in ret (Some result)
    end.

End engine.

Local Close Scope string_scope.
