(* ===== verification/WorkflowSpec.v ===== *)
(** * The workflow engine: theorems

    What a run of [WorkflowEngine] guarantees whatever its steps do and whichever
    database transactions fail: it ends, it stops where it must, the verdict it
    returns is the one it records, and its cost records add up. *)

From stdpp Require Import base gmap strings list.
From S2P Require Import Prelude Errors Complexity Context State Workflow.
Local Open Scope sova_scope.
Set Default Proof Using "Type".

(** ** Reasoning about the monad *)

Section monad.
Implicit Types (w : World).

Lemma bind_Ret {A B} (m : M A) (k : A -> M B) w w' y :
  bind m k w = (w', Ret y) -> exists w1 x, m w = (w1, Ret x) /\ k x w1 = (w', Ret y).
Proof. unfold bind. destruct (m w) as [w1 [x|e]]; [|done]. intros E. by exists w1, x. Qed.

Lemma ret_Ret {A} (x y : A) w w' : ret x w = (w', Ret y) -> w' = w /\ y = x.
Proof. unfold ret. intros [= <- <-]. done. Qed.

Lemma get_Ret w w' x : get w = (w', Ret x) -> w' = w /\ x = w.
Proof. unfold get. intros [= <- <-]. done. Qed.

Lemma modify_Ret f w w' x : modify f w = (w', Ret x) -> w' = f w.
Proof. unfold modify. intros [= <- <-]. done. Qed.

Lemma try_catch_Ret {A} p (m : M A) h w w' x :
  try_catch p m h w = (w', Ret x) ->
  m w = (w', Ret x) \/ exists w1 e, m w = (w1, Raise e) /\ p e = true /\ h e w1 = (w', Ret x).
Proof.
  unfold try_catch. destruct (m w) as [w1 [y|e]]; [by left|].
  destruct (p e) eqn:E; [|done]. intros ?. right. by exists w1, e.
Qed.
End monad.

(** Split on the outcome of the gate check, of the step, of its deadline. *)
Ltac gate_cases g := match goal with
  H : context [gc_passed ?x] |- _ => rename x into g; let E := fresh "E" in destruct (gc_passed g) eqn:E end.
Ltac result_cases r := match goal with
  H : context [sr_success ?x] |- _ => rename x into r; let E := fresh "E" in destruct (sr_success r) eqn:E end.

(** Decompose the runs of [M] in the hypotheses. *)
Ltac minv := repeat match goal with
  | H : bind _ _ _ = (_, Ret _) |- _ => apply bind_Ret in H as (? & ? & ? & H)
  | H : ret _ _ = (_, Ret _) |- _ => apply ret_Ret in H as [? ?]; subst
  | H : get _ = (_, Ret _) |- _ => apply get_Ret in H as [? ?]; subst
  | H : modify _ _ = (_, Ret _) |- _ => apply modify_Ret in H; subst
  end; simplify_eq.

Section spec.
Context (cfg : Config) (db_fault : nat -> option exn).
Context (preserve_partial_work : string -> View -> View * outcome bool).
Context (usd cents seconds : Z -> string).
Implicit Types (w : World) (step : BaseStep) (rec : StepRecord) (result : WorkflowResult).

(** ** What the engine keeps *)

(** The relation of a state to a later one of the same run: no task run
    disappears, the run keeps its identity and its start, and the failure records
    are those of before followed by new ones. *)
Record later (fs : list FailureRecord) w w' : Prop := {
  la_rows : dom (db_runs (w_db w)) ⊆ dom (db_runs (w_db w'));
  la_id : w_task_run_id w' = w_task_run_id w;
  la_start : w_run_started_at w' = w_run_started_at w;
  la_failures : db_failures (w_db w') = db_failures (w_db w) ++ fs;
}.

Lemma later_refl w : later [] w w.
Proof. split; [done..|by rewrite app_nil_r]. Qed.

Lemma later_trans fs1 fs2 w1 w2 w3 : later fs1 w1 w2 -> later fs2 w2 w3 -> later (fs1 ++ fs2) w1 w3.
Proof.
  intros [A1 A2 A3 A4] [B1 B2 B3 B4]. split; [by etrans|congruence|congruence|].
  by rewrite B4, A4, app_assoc.
Qed.

Lemma later_quiet_r fs w1 w2 w3 : later fs w1 w2 -> later [] w2 w3 -> later fs w1 w3.
Proof. intros H1 H2. rewrite <- (app_nil_r fs). by eapply later_trans. Qed.

Lemma later_quiet_l fs w1 w2 w3 : later [] w1 w2 -> later fs w2 w3 -> later fs w1 w3.
Proof. intros H1 H2. by eapply (later_trans [] fs). Qed.

(** A computation that writes no failure record, whatever its outcome. *)
Definition quiet {A} (m : M A) : Prop := forall w, later [] w (m w).1.

Lemma quiet_run {A} (m : M A) w w' r : quiet m -> m w = (w', r) -> later [] w w'.
Proof. intros Hm E. specialize (Hm w). by rewrite E in Hm. Qed.

Lemma quiet_ret {A} (x : A) : quiet (ret x).
Proof. intros w. apply later_refl. Qed.

Lemma quiet_get : quiet get.
Proof. intros w. apply later_refl. Qed.

Lemma quiet_raise {A} e : quiet (@raise A e).
Proof. intros w. apply later_refl. Qed.

Lemma quiet_bind {A B} (m : M A) (k : A -> M B) : quiet m -> (forall x, quiet (k x)) -> quiet (bind m k).
Proof.
  intros Hm Hk w. unfold bind. specialize (Hm w). destruct (m w) as [w1 [x|e]]; [|done].
  apply (later_trans [] [] _ w1); [done|]. apply Hk.
Qed.

Lemma quiet_try {A} p (m : M A) h : quiet m -> (forall e, quiet (h e)) -> quiet (try_catch p m h).
Proof.
  intros Hm Hh w. unfold try_catch. specialize (Hm w). destruct (m w) as [w1 [x|e]]; [done|].
  destruct (p e); [|done]. apply (later_trans [] [] _ w1); [done|]. apply Hh.
Qed.

Lemma quiet_on_view {A} (f : View -> View * outcome A) : quiet (on_view f).
Proof. intros w. unfold on_view. destruct (f (w_view w)). cbn. split; [done..|]. cbn. by rewrite app_nil_r. Qed.

Lemma quiet_modify f :
  (forall w, w_db (f w) = w_db w /\ w_task_run_id (f w) = w_task_run_id w /\
     w_run_started_at (f w) = w_run_started_at w) -> quiet (modify f).
Proof.
  intros Hf w. destruct (Hf w) as (E1 & E2 & E3). cbn. split; [by rewrite E1|done|done|].
  by rewrite E1, app_nil_r.
Qed.

Lemma quiet_transact {A} (f : World -> DB -> DB * A) :
  (forall w db, dom (db_runs db) ⊆ dom (db_runs (f w db).1) /\ db_failures (f w db).1 = db_failures db) ->
  quiet (transact db_fault f).
Proof.
  intros Hf w. unfold transact. destruct (db_fault (w_transactions w)).
  - cbn. split; cbn; [done..|by rewrite app_nil_r].
  - destruct (Hf w (w_db w)) as [H1 H2]. destruct (f w (w_db w)) as [db x]. cbn in *.
    split; cbn; [done..|]. by rewrite H2, app_nil_r.
Qed.

Lemma quiet_update_run f : quiet (update_run db_fault f).
Proof.
  apply quiet_transact. intros w db. destruct (w_task_run_id w); [|done]. cbn. by rewrite dom_alter_L.
Qed.

Lemma quiet_create_step_execution name n skipped : quiet (create_step_execution db_fault name n skipped).
Proof. by apply quiet_transact. Qed.

Lemma quiet_update_step_execution id r ms : quiet (update_step_execution db_fault id r ms).
Proof. apply quiet_transact. intros w db. by destruct (db_steps db !! id). Qed.

Lemma quiet_update_gate id g : quiet (update_step_execution_gate db_fault id g).
Proof. by apply quiet_transact. Qed.

Create HintDb quiet discriminated.
#[local] Hint Constants Opaque : quiet.
#[local] Hint Resolve quiet_ret quiet_get quiet_raise quiet_bind quiet_try quiet_on_view
  quiet_update_run quiet_create_step_execution quiet_update_step_execution quiet_update_gate : quiet.

(** Close a [quiet] goal by its structure. *)
Ltac quiet_tac := repeat first
  [ progress auto with quiet
  | apply quiet_bind; [|intros ?]
  | apply quiet_try; [|intros ?]
  | apply quiet_modify; intros; repeat case_match; done
  | progress cbn [id]
  | match goal with |- quiet (match ?x with _ => _ end) => destruct x end
  | match goal with |- quiet (let '(_, _) := ?x in _) => destruct x end ].

Lemma quiet_run_step_with_timeout step : quiet (run_step_with_timeout cfg preserve_partial_work step).
Proof.
  unfold run_step_with_timeout, preserve_partial_work_on_timeout. quiet_tac.
Qed.

Lemma quiet_guarded_gate what t check : quiet (guarded_gate what t check).
Proof. unfold guarded_gate. quiet_tac. Qed.
#[local] Hint Resolve quiet_run_step_with_timeout quiet_guarded_gate : quiet.

Lemma quiet_execute_single_attempt step rec n :
  quiet (execute_single_attempt cfg db_fault preserve_partial_work step rec n).
Proof.
  unfold execute_single_attempt, prepare_step_execution, persist_step_result, validate_step_gate,
    verify_step_output. quiet_tac.
Qed.
#[local] Hint Resolve quiet_execute_single_attempt : quiet.

Lemma quiet_retry_loop remaining n b step rec :
  quiet (retry_loop cfg db_fault preserve_partial_work remaining n b step rec).
Proof.
  revert n b rec. induction remaining as [|remaining IH]; intros n b rec; cbn [retry_loop]; quiet_tac; apply IH.
Qed.
#[local] Hint Resolve quiet_retry_loop : quiet.

Lemma quiet_fallback_loop fuel step rec :
  quiet (fallback_loop cfg db_fault preserve_partial_work fuel step rec).
Proof.
  revert rec. induction fuel as [|fuel IH]; intros rec; cbn [fallback_loop];
    unfold try_step_with_retries; quiet_tac; apply IH.
Qed.
#[local] Hint Resolve quiet_fallback_loop : quiet.


(** ** The row of the run *)

Definition has_row w : Prop :=
  exists id r, w_task_run_id w = Some id /\ db_runs (w_db w) !! id = Some r.

(** The row says that the run ended with the given status, now, at this cost. *)
Definition row_ended w (st : TaskStatus.t) : Prop :=
  exists id r, w_task_run_id w = Some id /\ db_runs (w_db w) !! id = Some r /\
    tr_status r = TaskStatus.value st /\ tr_ended_at r = Some (clock w) /\
    tr_total_cost_usd r = cx_cost_usd (ctx w).

Lemma has_row_later fs w w' : later fs w w' -> has_row w -> has_row w'.
Proof.
  intros [H1 H2 _ _] (id & r & Hid & Hr). apply elem_of_dom_2 in Hr. apply H1, elem_of_dom in Hr as [r' Hr'].
  exists id, r'. by rewrite H2.
Qed.

(** A transaction that succeeds: its effect, and nothing else. *)
Lemma transact_Ret {A} (f : World -> DB -> DB * A) w w' x :
  transact db_fault f w = (w', Ret x) ->
  w_db w' = (f w (w_db w)).1 /\ x = (f w (w_db w)).2 /\
  w_view w' = w_view w /\ w_task_run_id w' = w_task_run_id w /\
  w_run_started_at w' = w_run_started_at w /\ w_handoffs w' = w_handoffs w.
Proof.
  unfold transact. destruct (db_fault _); [done|].
  destruct (f w (w_db w)) as [db y]. by intros [= <- <-].
Qed.

Lemma update_run_Ret f w w' u :
  update_run db_fault f w = (w', Ret u) ->
  db_runs (w_db w') = match w_task_run_id w with
                      | Some id => alter (f w) id (db_runs (w_db w))
                      | None => db_runs (w_db w)
                      end /\
  db_failures (w_db w') = db_failures (w_db w) /\
  w_view w' = w_view w /\ w_task_run_id w' = w_task_run_id w /\ w_run_started_at w' = w_run_started_at w.
Proof.
  intros (E & _ & ? & ? & ? & _)%transact_Ret. rewrite E. by destruct (w_task_run_id w).
Qed.

Lemma record_failure_Ret name type msg w w' u :
  record_failure db_fault name type msg w = (w', Ret u) ->
  db_runs (w_db w') = db_runs (w_db w) /\
  db_failures (w_db w') = db_failures (w_db w) ++
    [{| fr_task_run_id := w_task_run_id w; fr_step_name := name; fr_failure_type := type; fr_message := msg |}] /\
  w_view w' = w_view w /\ w_task_run_id w' = w_task_run_id w /\ w_run_started_at w' = w_run_started_at w.
Proof. intros (E & _ & ? & ? & ? & _)%transact_Ret. by rewrite E. Qed.

(** Recording the end of a run. *)
Lemma update_status_Ret st err w w' u :
  has_row w -> ends_run st = true ->
  update_task_run_status db_fault st err w = (w', Ret u) ->
  row_ended w' st /\ w_view w' = w_view w /\ later [] w w'.
Proof.
  intros (id & r & Hid & Hr) Hst Hrun. unfold update_task_run_status in Hrun.
  pose proof (quiet_run _ _ _ _ (quiet_update_run _) Hrun) as Hq.
  apply update_run_Ret in Hrun as (E1 & _ & E3 & E4 & _).
  split; [|split; [done|exact Hq]]. rewrite Hid in E1.
  eexists id, _. split; [by rewrite E4|]. rewrite E1, lookup_alter_eq, Hr. split; [done|].
  cbn. rewrite Hst. unfold clock, ctx. by rewrite E3.
Qed.

(** Synchronising the context afterwards keeps the end recorded. *)
Lemma sync_Ret st w w' u :
  row_ended w st -> sync_task_run_context db_fault w = (w', Ret u) ->
  row_ended w' st /\ w_view w' = w_view w /\ later [] w w'.
Proof.
  intros (id & r & Hid & Hr & H1 & H2 & H3) Hrun. unfold sync_task_run_context in Hrun.
  pose proof (quiet_run _ _ _ _ (quiet_update_run _) Hrun) as Hq.
  apply update_run_Ret in Hrun as (E1 & _ & E3 & E4 & _).
  split; [|split; [done|exact Hq]]. rewrite Hid in E1.
  eexists id, _. split; [by rewrite E4|]. rewrite E1, lookup_alter_eq, Hr. split; [done|].
  cbn. unfold clock, ctx. rewrite E3. by split_and!.
Qed.

Lemma record_failure_later name type msg w w' u :
  record_failure db_fault name type msg w = (w', Ret u) ->
  w_view w' = w_view w /\
  later [{| fr_task_run_id := w_task_run_id w; fr_step_name := name; fr_failure_type := type;
            fr_message := msg |}] w w'.
Proof.
  intros (E1 & E2 & E3 & E4 & E5)%record_failure_Ret. split; [done|]. split; [by rewrite E1|done..].
Qed.

(** ** Stopping *)

(** Which failure type goes with which final status. *)
Definition verdict_ok (type : string) (st : TaskStatus.t) : Prop :=
  (st = TaskStatus.PAUSED /\ type ∈ ["budget_exceeded"; "runaway_guard"; "gate_check"]%string) \/
  (st = TaskStatus.FAILED /\ type ∈ ["worktree_deleted"; "exception"]%string).

(** The run was stopped at [step]: its row is final; it waits for approval, or
    exactly one failure record of this run and step was written, whose type goes
    with the status and whose message is the error of the result. *)
Definition stopped w w' (name : string) result : Prop :=
  row_ended w' (wr_final_status result) /\
  ((wr_final_status result = TaskStatus.AWAITING_APPROVAL /\ later [] w w') \/
   exists type msg, verdict_ok type (wr_final_status result) /\
     later [{| fr_task_run_id := w_task_run_id w; fr_step_name := name; fr_failure_type := type;
               fr_message := msg |}] w w' /\
     msg = default "Unknown error"%string (or_text (wr_error result) None)).

Lemma or_text_nonempty s : s <> ""%string -> or_text (Some s) None = Some s.
Proof. intros Hs. cbn. by rewrite decide_False. Qed.

(** What a handler that ends the run does. *)
Lemma end_run_Ret name type msg st err w w1 w2 u1 u2 :
  has_row w -> ends_run st = true ->
  record_failure db_fault name type msg w = (w1, Ret u1) ->
  update_task_run_status db_fault st err w1 = (w2, Ret u2) ->
  row_ended w2 st /\ w_view w2 = w_view w /\
  later [{| fr_task_run_id := w_task_run_id w; fr_step_name := name; fr_failure_type := type;
            fr_message := msg |}] w w2.
Proof.
  intros Hrow Hst [V1 L1]%record_failure_later Hup.
  destruct (update_status_Ret _ _ _ _ _ (has_row_later _ _ _ L1 Hrow) Hst Hup) as (R & V2 & L2).
  split; [done|]. split; [congruence|]. by eapply later_quiet_r.
Qed.

Lemma pause_run_Ret name type msg result w w' r :
  has_row w -> msg <> ""%string ->
  pause_run db_fault name type msg result w = (w', Ret r) ->
  r = stop_with TaskStatus.PAUSED (Some msg) result /\ row_ended w' TaskStatus.PAUSED /\
  w_view w' = w_view w /\
  later [{| fr_task_run_id := w_task_run_id w; fr_step_name := name; fr_failure_type := type;
            fr_message := msg |}] w w'.
Proof.
  intros Hrow Hmsg Hrun. unfold pause_run in Hrun. minv.
  edestruct end_run_Ret as (R & V & L); [exact Hrow| |eassumption|eassumption|]; [done|].
  edestruct sync_Ret as (R' & V' & L'); [exact R|eassumption|].
  split; [done|]. split; [done|]. split; [congruence|]. by eapply later_quiet_r.
Qed.

(** ** What a record says about its step *)

(** A step that counts as completed: its last attempt succeeded and both its gate
    checks passed. *)
Definition completed_ok rec : Prop :=
  exists r g, rec_result rec = Some r /\ sr_success r = true /\
    rec_gate rec = Some g /\ gc_passed g = true.

Lemma verify_Ret step id rec w w' rec' a :
  verify_step_output cfg db_fault step id rec w = (w', Ret (rec', a)) ->
  rec_result rec' = rec_result rec /\ rec_step_name rec' = rec_step_name rec /\
  rec_total_attempts rec' = rec_total_attempts rec /\
  ((a = ADone /\ exists g, rec_gate rec' = Some g /\ gc_passed g = true) \/ a = AFailed).
Proof.
  unfold verify_step_output. intros H. minv. gate_cases g; minv; split_and!; try done.
  - left. split; [done|]. by exists g.
  - by right.
Qed.

Lemma validate_Ret step id rec w w' rec' a :
  validate_step_gate cfg db_fault step id rec w = (w', Ret (rec', a)) ->
  rec_result rec' = rec_result rec /\ rec_step_name rec' = rec_step_name rec /\
  rec_total_attempts rec' = rec_total_attempts rec /\
  ((a = ADone /\ exists g, rec_gate rec' = Some g /\ gc_passed g = true) \/ a = AFailed).
Proof.
  unfold validate_step_gate. intros H. minv. gate_cases g.
  - apply verify_Ret in H. exact H.
  - minv. split_and!; try done. by right.
Qed.

Lemma attempt_Ret step rec n w w' rec' a :
  execute_single_attempt cfg db_fault preserve_partial_work step rec n w = (w', Ret (rec', a)) ->
  rec_step_name rec' = rec_step_name rec /\ rec_total_attempts rec' = rec_total_attempts rec /\
  (a = ADone -> completed_ok rec') /\
  (a = ABillingExhausted -> has_fallback_models cfg (ctx w') = true).
Proof.
  unfold execute_single_attempt. intros H. apply bind_Ret in H as (w1 & [rec0 oid] & Hp & H).
  assert (rec_step_name rec0 = rec_step_name rec /\ rec_total_attempts rec0 = rec_total_attempts rec) as [N T].
  { unfold prepare_step_execution in Hp.
    apply try_catch_Ret in Hp as [Hp|(? & ? & _ & _ & Hp)]; minv; done. }
  destruct oid as [id|]; minv; [|done].
  result_cases r.
  - apply validate_Ret in H as (R1 & R2 & R3 & R4). cbn in R1, R2, R3.
    split; [congruence|]. split; [congruence|].
    destruct R4 as [[-> (g & Hg & Hgp)] | ->]; split; try done. intros _. by exists r, g.
  - destruct (sr_runaway_triggered r); minv; [done|]. split; [done|]. split; [done|].
    unfold handle_step_failure_result. split; repeat case_match; try done. by bool_simp.
Qed.

(** The status of the record after the loop, with what the loop returns. *)
Definition loop_outcome w' rec' (t : tried) : Prop :=
  match t with
  | TDone => rec_status rec' = RDone /\ completed_ok rec'
  | TRunaway => rec_status rec' = RRunaway
  | TFailed => rec_status rec' = RFailed
  | TBillingExhausted => rec_status rec' = RFailed /\ has_fallback_models cfg (ctx w') = true
  end.

Lemma retry_loop_Ret remaining n step rec w w' rec' t :
  retry_loop cfg db_fault preserve_partial_work remaining n false step rec w = (w', Ret (rec', t)) ->
  rec_step_name rec' = rec_step_name rec /\ loop_outcome w' rec' t /\
  rec_total_attempts rec <= rec_total_attempts rec' <= rec_total_attempts rec + remaining /\
  (0 < cfg_max_step_attempts cfg -> rec_total_attempts rec <= cfg_max_step_attempts cfg ->
   rec_total_attempts rec' <= cfg_max_step_attempts cfg).
Proof.
  revert n rec w. induction remaining as [|remaining IH]; intros n rec w H; cbn [retry_loop] in H.
  { minv. split; [done|]. split; [done|]. cbn. lia. }
  destruct (negb _ && _) eqn:Emax.
  { minv. split; [done|]. split; [done|]. cbn. lia. }
  apply bind_Ret in H as (w1 & [rec1 a] & Ha & H). apply attempt_Ret in Ha as (N & T & Hd & Hb). cbn in N, T.
  assert (0 < cfg_max_step_attempts cfg -> rec_total_attempts rec <= cfg_max_step_attempts cfg ->
    rec_total_attempts rec1 <= cfg_max_step_attempts cfg) as Hcap.
  { intros Hpos _. apply andb_false_iff in Emax as [E|E].
    - apply negb_false_iff, bool_decide_eq_true_1 in E. lia.
    - apply Nat.leb_gt in E. lia. }
  destruct a; minv; try (split; [done|]; split; [|cbn; lia]); try done.
  - split; [done|by apply Hd].
  - destruct (0 <? remaining); minv.
    + apply IH in H as (-> & H1 & H2 & H3). cbn in *. split; [done|]. split; [done|]. lia.
    + split; [done|]. split; [done|]. cbn. lia.
  - split; [done|by apply Hb].
  - apply IH in H as (-> & H1 & H2 & H3). cbn in *. split; [done|]. split; [done|]. lia.
Qed.

(** The record [_execute_with_retries] returns. *)
Definition settled rec : Prop :=
  match rec_status rec with
  | RDone => completed_ok rec
  | RRunaway | RFailed => True
  | _ => False
  end.

Lemma fallback_loop_Ret fuel step rec w w' rec' :
  fallback_loop cfg db_fault preserve_partial_work fuel step rec w = (w', Ret (Some rec')) ->
  rec_step_name rec' = rec_step_name rec /\ settled rec' /\
  (0 < cfg_max_step_attempts cfg -> rec_total_attempts rec <= cfg_max_step_attempts cfg ->
   rec_total_attempts rec' <= cfg_max_step_attempts cfg) /\
  rec_total_attempts rec' <= rec_total_attempts rec + fuel * S (st_max_retries step).
Proof.
  revert rec w. induction fuel as [|fuel IH]; intros rec w H; cbn [fallback_loop] in H; [minv|].
  apply bind_Ret in H as (w1 & [rec1 t] & Ht0 & H). apply retry_loop_Ret in Ht0 as (N & O & T & C).
  case_decide as Ht.
  - minv. split; [done|]. split; [|split; [done|lia]].
    unfold settled. destruct t; cbn in O; [by destruct O as [-> ?]|by rewrite O|done|by rewrite O].
  - minv. destruct (advance_fallback cfg (ctx _)) as [index [model|]]; minv.
    + apply IH in H as (-> & Hs & HC & HT). split; [done|]. split; [done|]. split; [|lia]. intros. apply HC; auto.
    + split; [done|]. split; [done|]. split; [done|]. cbn. lia.
Qed.

(** ** One step of the pipeline *)

Lemma stopped_later w w1 w' name result :
  later [] w w1 -> stopped w1 w' name result -> stopped w w' name result.
Proof.
  intros L [R S]. split; [done|]. destruct S as [[? L']|(type & msg & V & L' & E)].
  - left. split; [done|]. by eapply later_quiet_l.
  - right. exists type, msg. split; [done|]. split; [|done]. rewrite <- (la_id _ _ _ L).
    by eapply later_quiet_l.
Qed.

Lemma stopped_failure w w' name type msg st result :
  row_ended w' st -> verdict_ok type st ->
  later [{| fr_task_run_id := w_task_run_id w; fr_step_name := name; fr_failure_type := type;
            fr_message := msg |}] w w' ->
  msg <> ""%string -> stopped w w' name (stop_with st (Some msg) result).
Proof.
  intros R V L Hm. split; [done|]. right. exists type, msg. split; [done|]. split; [done|].
  cbn [wr_error stop_with]. by rewrite or_text_nonempty.
Qed.

Lemma runaway_message_nonempty w result m : runaway_message cfg seconds w result = Some m -> m <> ""%string.
Proof. unfold runaway_message. intros E. repeat case_match; by simplify_eq. Qed.

Lemma runaway_text_nonempty (error : option string) (name : string) :
  (if truthy error then default "" error else "Runaway guard tripped in step '" ++ name ++ "'")%string
  <> ""%string.
Proof.
  destruct (truthy error) eqn:E; [|done]. destruct error as [e|]; [|done]. cbn in *.
  by apply negb_true_iff, bool_decide_eq_false_1 in E.
Qed.

Lemma handle_failure_Ret step rec result w w' r :
  has_row w -> handle_step_failure db_fault step rec result w = (w', Ret r) ->
  stopped w w' (st_name step) r /\ wr_success r = wr_success result /\
  wr_step_records r = wr_step_records result /\ wr_steps_failed r = S (wr_steps_failed result).
Proof.
  intros Hrow Hrun. unfold handle_step_failure in Hrun.
  destruct (failure_verdict rec) as [[st error] type] eqn:E.
  assert (verdict_ok type st /\ ends_run st = true) as [V He].
  { unfold failure_verdict in E. unfold verdict_ok. repeat case_match; simplify_eq; split; try done;
      solve [left; split; [done|repeat constructor]|right; split; [done|repeat constructor]]. }
  minv. edestruct end_run_Ret as (R & Vw & L); [exact Hrow|exact He|eassumption|eassumption|].
  edestruct sync_Ret as (R' & Vw' & L'); [exact R|eassumption|].
  split; [|cbn; split_and!; [done|done|lia]]. split; [done|]. right.
  exists type, (default "Unknown error"%string (or_text error None)).
  split; [done|]. split; [|done]. by eapply later_quiet_r.
Qed.

Lemma handle_approval_Ret step rec r result w w' result' :
  has_row w -> handle_step_approval db_fault step rec r result w = (w', Ret result') ->
  stopped w w' (st_name step) result' /\ wr_success result' = wr_success result /\
  wr_step_records result' = wr_step_records result.
Proof.
  intros Hrow Hrun. unfold handle_step_approval in Hrun.
  apply bind_Ret in Hrun as (w1 & [] & H1 & Hrun). apply bind_Ret in Hrun as (w2 & [] & H2 & Hrun). minv.
  assert (later [] w w1) as L1.
  { eapply quiet_run; [|exact H1]. unfold update_step_execution_status.
    destruct (rec_step_exec_id rec); [|apply quiet_ret].
    apply quiet_try; [by apply quiet_transact|intros; apply quiet_ret]. }
  edestruct update_status_Ret as (R & V & L2); [eapply has_row_later; [exact L1|done]| |exact H2|]; [done|].
  split; [|done]. split.
  - destruct R as (id & row & Hid & Hrow' & Hst). exists id, row. by case_decide.
  - left. split; [done|]. eapply later_quiet_l; [exact L1|]. destruct L2. by case_decide.
Qed.

(** The checks before the step: the run goes on with nothing changed, or stops
    without any code of the step having run. *)
Lemma checks_Ret (m : M (option WorkflowResult)) step result w w' stop :
  m = pre_step_checks db_fault step result \/ m = budget_check cfg db_fault usd step result \/
  m = check_runaway_guard cfg db_fault seconds step result ->
  has_row w -> m w = (w', Ret stop) ->
  match stop with
  | None => w' = w
  | Some r => stopped w w' (st_name step) r /\ w_view w' = w_view w /\
      wr_success r = wr_success result /\ wr_step_records r = wr_step_records result
  end.
Proof.
  intros Hm Hrow Hrun. destruct Hm as [-> | [-> | ->]].
  - unfold pre_step_checks in Hrun. minv. destruct (cx_worktree_dir (ctx w)) as [d|]; [|by minv].
    case_bool_decide; [by minv|]. minv.
    edestruct end_run_Ret as (R & V & L); [exact Hrow| |eassumption|eassumption|]; [done|].
    split; [|done]. eapply stopped_failure; [done| |exact L|done]. right. split; [done|repeat constructor].
  - unfold budget_check in Hrun. minv. destruct (is_budget_exceeded _ _); [|by minv]. minv.
    edestruct end_run_Ret as (R & V & L); [exact Hrow| |eassumption|eassumption|]; [done|].
    edestruct sync_Ret as (R' & V' & L'); [exact R|eassumption|].
    split; [|split; [congruence|done]]. eapply stopped_failure; [done| |by eapply later_quiet_r|done].
    left. split; [done|repeat constructor].
  - unfold check_runaway_guard in Hrun. minv. destruct (runaway_message _ _ _ _) as [m|] eqn:E; [|by minv].
    minv. edestruct pause_run_Ret as (-> & R & V & L); [exact Hrow| |eassumption|];
      [by eapply runaway_message_nonempty|].
    split; [|done]. eapply stopped_failure; [done| |exact L|by eapply runaway_message_nonempty].
    left. split; [done|repeat constructor].
Qed.

(** A step that the run goes past. *)
Definition passed rec (name : string) : Prop :=
  rec_step_name rec = name /\ (rec_status rec = RSkipped \/ (rec_status rec = RDone /\ completed_ok rec)).

Record stepped w w' (name : string) (go_on : bool) result result' : Prop := {
  sp_row : has_row w';
  sp_success : wr_success result' = wr_success result;
  sp_error : go_on = true -> wr_error result' = wr_error result;
  sp_later : exists fs, later fs w w' /\ (go_on = true -> fs = []);
  sp_records : exists recs, wr_step_records result' = wr_step_records result ++ recs /\ length recs <= 1 /\
    Forall (fun rec => rec_step_name rec = name) recs /\
    (go_on = true -> exists rec, recs = [rec] /\ passed rec name);
  sp_stopped : go_on = false -> stopped w w' name result';
}.

Lemma stopped_stepped w w' name result result' recs :
  has_row w -> stopped w w' name result' -> wr_success result' = wr_success result ->
  wr_step_records result' = wr_step_records result ++ recs -> length recs <= 1 ->
  Forall (fun rec => rec_step_name rec = name) recs ->
  stepped w w' name false result result'.
Proof.
  intros Hrow Hs Hsu Hr Hl Hn.
  assert (exists fs, later fs w w') as [fs L].
  { destruct Hs as [_ [[_ L]|(? & ? & _ & L & _)]]; by eexists. }
  split; try done.
  - by eapply has_row_later.
  - by exists fs.
  - by exists recs.
Qed.

Lemma run_checked_step_Ret step result w w' b result' :
  has_row w -> run_checked_step cfg db_fault preserve_partial_work step result w = (w', Ret (Some (b, result'))) ->
  stepped w w' (st_name step) b result result'.
Proof.
  intros Hrow Hrun. unfold run_checked_step in Hrun.
  apply bind_Ret in Hrun as (w1 & [] & H1 & Hrun). apply bind_Ret in Hrun as (w2 & orec & H2 & Hrun).
  assert (later [] w w2) as L.
  { eapply later_quiet_r; [eapply (quiet_run _ _ _ _ (quiet_update_run _) H1)|].
    eapply quiet_run; [|exact H2]. apply quiet_fallback_loop. }
  destruct orec as [rec|]; [|minv].
  apply fallback_loop_Ret in H2 as (N & S & _). cbn in N.
  pose proof (has_row_later _ _ _ L Hrow) as Hrow2.
  assert (Forall (fun rec => rec_step_name rec = st_name step) [rec]) as Hnames by (by constructor).
  unfold settled in S. destruct (rec_status rec) eqn:Est; try done.
  - apply bind_Ret in Hrun as (w3 & [] & H3 & Hrun).
    assert (later [] w w3) as L3.
    { eapply later_quiet_r; [exact L|]. eapply (quiet_run _ _ _ _ (quiet_update_run _) H3). }
    destruct S as (r & g & Hr & Hsu & Hg & Hp). rewrite Hr in Hrun.
    destruct (sr_awaiting_approval r) eqn:Ea.
    + minv. edestruct handle_approval_Ret as (S1 & S2 & S3); [by eapply has_row_later|eassumption|].
      apply (stopped_stepped _ _ _ _ _ [rec]); [done|by eapply stopped_later|done|done|cbn; lia|done].
    + minv. split; try done.
      * by eapply has_row_later.
      * by case_match.
      * by case_match.
      * by exists [].
      * exists [rec]. split; [by case_match|]. split; [cbn; lia|]. split; [done|]. intros _.
        exists rec. split; [done|]. split; [done|]. right. split; [done|]. by exists r, g.
  - minv. edestruct handle_failure_Ret as (S1 & S2 & S3 & _); [exact Hrow2|eassumption|].
    apply (stopped_stepped _ _ _ _ _ [rec]); [done|by eapply stopped_later|done|done|cbn; lia|done].
  - apply bind_Ret in Hrun as (w3 & r & H3 & Hrun). minv. unfold pause_for_runaway in H3.
    pose proof (runaway_text_nonempty
      match rec_result rec with Some r => sr_error r | None => None end (st_name step)) as Hne.
    destruct (pause_run_Ret _ _ _ _ _ _ _ Hrow2 Hne H3) as (-> & R & V & L').
    apply (stopped_stepped _ _ _ _ _ [rec]); [done| |done|done|cbn; lia|done].
    eapply stopped_later; [exact L|]. eapply stopped_failure; [done| |exact L'|exact Hne].
    left. split; [done|repeat constructor].
Qed.

Lemma execute_step_Ret step result w w' b result' :
  has_row w ->
  execute_step cfg db_fault preserve_partial_work usd seconds step result w = (w', Ret (Some (b, result'))) ->
  stepped w w' (st_name step) b result result'.
Proof.
  intros Hrow Hrun. unfold execute_step in Hrun.
  apply bind_Ret in Hrun as (w1 & s1 & H1 & Hrun).
  apply (checks_Ret _ step result) in H1; [|by auto|done].
  destruct s1 as [r|]; [destruct H1 as (S & _ & E1 & E2); minv; apply (stopped_stepped _ _ _ _ _ []);
    rewrite ?app_nil_r; try done; cbn; lia|subst w1].
  apply bind_Ret in Hrun as (w1 & s1 & H1 & Hrun).
  apply (checks_Ret _ step result) in H1; [|by auto|done].
  destruct s1 as [r|]; [destruct H1 as (S & _ & E1 & E2); minv; apply (stopped_stepped _ _ _ _ _ []);
    rewrite ?app_nil_r; try done; cbn; lia|subst w1].
  apply bind_Ret in Hrun as (w1 & s1 & H1 & Hrun).
  apply (checks_Ret _ step result) in H1; [|by auto|done].
  destruct s1 as [r|]; [destruct H1 as (S & _ & E1 & E2); minv; apply (stopped_stepped _ _ _ _ _ []);
    rewrite ?app_nil_r; try done; cbn; lia|subst w1].
  apply bind_Ret in Hrun as (w1 & skip & H1 & Hrun).
  pose proof (quiet_run _ _ _ _ (quiet_on_view _) H1) as L1.
  pose proof (has_row_later _ _ _ L1 Hrow) as Hrow1.
  destruct skip.
  - apply bind_Ret in Hrun as (w2 & [] & H2 & Hrun). minv.
    assert (later [] w w2) as L.
    { eapply later_quiet_r; [exact L1|]. eapply quiet_run; [|exact H2]. quiet_tac. }
    split; try done.
    + by eapply has_row_later.
    + by exists [].
    + eexists. split; [done|]. split; [cbn; lia|]. split; [by constructor|].
      intros _. eexists. split; [done|]. split; [done|by left].
  - apply run_checked_step_Ret in Hrun as [A1 A2 A3 A4 A5 A6]; [|done]. split; try done.
    + destruct A4 as (fs & L & Hfs). exists fs. split; [by eapply later_quiet_l|done].
    + intros Hb. eapply stopped_later; [exact L1|by apply A6].
Qed.

(** ** The pipeline *)

Lemma run_steps_Ret steps result w w' b result' :
  has_row w ->
  run_steps cfg db_fault preserve_partial_work usd seconds steps result w = (w', Ret (Some (b, result'))) ->
  has_row w' /\ wr_success result' = wr_success result /\
  exists done recs, wr_step_records result' = wr_step_records result ++ done ++ recs /\
    Forall2 passed done (take (length done) (map st_name steps)) /\
    if b then recs = [] /\ length done = length steps /\ wr_error result' = wr_error result /\ later [] w w'
    else exists step, steps !! length done = Some step /\ stopped w w' (st_name step) result' /\
      length recs <= 1 /\ Forall (fun rec => rec_step_name rec = st_name step) recs.
Proof.
  revert result w. induction steps as [|step steps IH]; intros result w Hrow Hrun; cbn [run_steps] in Hrun.
  { minv. split; [done|]. split; [done|]. exists [], []. split; [by rewrite app_nil_r|]. split; [constructor|].
    split_and!; try done. apply later_refl. }
  apply bind_Ret in Hrun as (w1 & [[b1 result1]|] & H1 & Hrun); [|minv].
  apply execute_step_Ret in H1 as [A1 A2 A3 A4 A5 A6]; [|done].
  destruct A4 as (fs & L & Hfs), A5 as (recs & Hrecs & Hlen & Hnames & Hgo).
  destruct b1.
  - rewrite (Hfs eq_refl) in L. destruct (Hgo eq_refl) as (rec & -> & Hp).
    destruct (IH _ _ A1 Hrun) as (B1 & B2 & done & recs' & B3 & B4 & B5).
    split; [done|]. split; [congruence|]. exists (rec :: done), recs'.
    split; [by rewrite B3, Hrecs, <- app_assoc|]. split; [by constructor|].
    destruct b.
    + destruct B5 as (-> & E & Er & L2). split_and!; [done|cbn; lia|by rewrite Er, A3|by eapply later_quiet_l].
    + destruct B5 as (st & E & S & ?). exists st. split; [done|]. split; [|done]. by eapply stopped_later.
  - minv. split; [done|]. split; [done|]. exists [], recs. split; [done|]. split; [constructor|].
    exists step. split; [done|]. split; [by apply A6|done].
Qed.

(** ** Termination *)

(** The position in the fallback chain only the engine moves. *)
Definition index w : nat := cx_fallback_model_index (ctx w).

Definition leaves_index {A} (f : View -> View * A) : Prop :=
  forall v, cx_fallback_model_index (v_ctx (f v).1) = cx_fallback_model_index (v_ctx v).

Record leaves_fallback step : Prop := {
  lf_skip : leaves_index (st_can_skip step);
  lf_execute : forall t, leaves_index (st_execute step t);
  lf_validate : forall t, leaves_index (st_validate_output step t);
  lf_verify : forall t, leaves_index (st_verify_output step t);
}.

Definition keeps_index {A} (m : M A) : Prop := forall w, index (m w).1 = index w.

Lemma keeps_ret {A} (x : A) : keeps_index (ret x).
Proof. done. Qed.
Lemma keeps_get : keeps_index get.
Proof. done. Qed.
Lemma keeps_bind {A B} (m : M A) (k : A -> M B) :
  keeps_index m -> (forall x, keeps_index (k x)) -> keeps_index (bind m k).
Proof.
  intros Hm Hk w. unfold bind. specialize (Hm w). destruct (m w) as [w1 [x|e]]; [|done]. by rewrite Hk.
Qed.
Lemma keeps_try {A} p (m : M A) h :
  keeps_index m -> (forall e, keeps_index (h e)) -> keeps_index (try_catch p m h).
Proof.
  intros Hm Hh w. unfold try_catch. specialize (Hm w). destruct (m w) as [w1 [x|e]]; [done|].
  destruct (p e); [|done]. by rewrite Hh.
Qed.
Lemma keeps_on_view {A} (f : View -> View * outcome A) : leaves_index f -> keeps_index (on_view f).
Proof. intros Hf w. unfold on_view. specialize (Hf (w_view w)). by destruct (f (w_view w)). Qed.
Lemma keeps_transact {A} (f : World -> DB -> DB * A) : keeps_index (transact db_fault f).
Proof.
  intros w. unfold transact. destruct (db_fault _); [done|]. by destruct (f w (w_db w)).
Qed.
Lemma keeps_scope t b : keeps_index (modify (fun w => set_ctx (with_scope (fresh_scope t b (clock w)) (ctx w)) w)).
Proof. done. Qed.

Context (Hpreserve : forall name, leaves_index (preserve_partial_work name)).

Create HintDb keeps discriminated.
#[local] Hint Constants Opaque : keeps.

Ltac keeps_tac := repeat first
  [ solve [auto with keeps]
  | apply keeps_ret | apply keeps_get | apply keeps_transact | apply keeps_scope
  | apply keeps_bind; [|intros ?]
  | apply keeps_try; [|intros ?]
  | apply keeps_on_view; auto; fail
  | match goal with |- keeps_index (match ?x with _ => _ end) => destruct x end
  | match goal with |- keeps_index (let '(_, _) := ?x in _) => destruct x end ].

Lemma keeps_single_attempt step rec n :
  leaves_fallback step -> keeps_index (execute_single_attempt cfg db_fault preserve_partial_work step rec n).
Proof using Type Hpreserve.
  intros [_ H1 H2 H3].
  unfold execute_single_attempt, prepare_step_execution, persist_step_result, validate_step_gate,
    verify_step_output, guarded_gate, run_step_with_timeout, preserve_partial_work_on_timeout,
    create_step_execution, update_step_execution, update_step_execution_gate. keeps_tac.
Qed.

#[local] Hint Resolve keeps_single_attempt : keeps.

Lemma keeps_retry_loop remaining n b step rec :
  leaves_fallback step -> keeps_index (retry_loop cfg db_fault preserve_partial_work remaining n b step rec).
Proof using Type Hpreserve.
  intros Hs. revert n b rec. induction remaining as [|remaining IH]; intros n b rec; cbn [retry_loop]; keeps_tac.
Qed.

Lemma advance_from_index current i chain :
  match advance_from current i chain with
  | (j, Some _) => i < j <= i + length chain
  | (j, None) => j = i + length chain
  end.
Proof.
  revert i. induction chain as [|m chain IH]; intros i; cbn; [lia|]. case_decide; [|lia].
  specialize (IH (S i)). destruct (advance_from current (S i) chain) as [j [x|]]; lia.
Qed.

Lemma fallback_loop_total fuel step rec w :
  leaves_fallback step -> length (cfg_fallback_models cfg) - index w < fuel ->
  (fallback_loop cfg db_fault preserve_partial_work fuel step rec w).2 <> Ret None.
Proof using Type Hpreserve.
  intros Hs. revert rec w. induction fuel as [|fuel IH]; intros rec w Hf; [lia|]. cbn [fallback_loop].
  unfold bind at 1. unfold try_step_with_retries.
  pose proof (keeps_retry_loop (S (st_max_retries step)) 0 false step rec Hs w) as Hi.
  destruct (retry_loop _ _ _ _ _ _ _ _ w) as [w1 [[rec1 t]|e]] eqn:E; [|done]. cbn in Hi.
  case_decide as Ht; [done|]. unfold bind at 1. cbn [get].
  apply retry_loop_Ret in E as (_ & O & _).
  assert (index w1 < length (cfg_fallback_models cfg)) as Hlt.
  { subst t. destruct O as [_ O]. unfold has_fallback_models in O.
    apply andb_true_iff in O as [_ O]. by apply Nat.ltb_lt. }
  unfold advance_fallback.
  pose proof (advance_from_index (default (cfg_agent_model cfg) (or_text (cx_resolved_model (ctx w1)) None))
    (index w1) (drop (index w1) (cfg_fallback_models cfg))) as Ha. rewrite length_drop in Ha.
  unfold index in Ha at 1 4.
  destruct (advance_from _ _ _) as [j [model|]]; [|done].
  unfold bind. cbn [modify]. apply IH. unfold index at 1. cbn. lia.
Qed.

Lemma execute_step_total step result w :
  leaves_fallback step ->
  (execute_step cfg db_fault preserve_partial_work usd seconds step result w).2 <> Ret None.
Proof using Type Hpreserve.
  intros Hs. unfold execute_step.
  assert (forall (m : M (option WorkflowResult)) k w,
    (forall w1, (k w1).2 <> Ret None) ->
    (bind m (fun stop => match stop with
       | Some r => ret (Some (false, r))
       | None => (k : M (option (bool * WorkflowResult)))
       end) w).2 <> Ret None) as Hcheck.
  { intros m k w0 Hk. unfold bind. destruct (m w0) as [w1 [[r|]|e]]; [done|apply Hk|done]. }
  apply Hcheck. intros w1. apply Hcheck. intros w2. apply Hcheck. intros w3.
  unfold bind at 1. destruct (on_view _ w3) as [w4 [skip|e]]; [|done]. destruct skip.
  { unfold bind at 1. destruct (try_catch _ _ _ w4) as [w5 [[]|e]]; done. }
  unfold run_checked_step. unfold bind at 1. destruct (set_current_step _ _ w4) as [w5 [[]|e]]; [|done].
  unfold bind at 1. unfold execute_with_retries.
  pose proof (fallback_loop_total (S (length (cfg_fallback_models cfg))) step
    (new_record (st_name step) RPending) w5 Hs ltac:(lia)) as Ht.
  destruct (fallback_loop _ _ _ _ _ _ w5) as [w6 [[rec|]|e]]; [|done|done]. clear Ht Hcheck.
  destruct (rec_status rec); unfold bind; repeat case_match; by simplify_eq.
Qed.

Lemma run_steps_total steps result w :
  Forall leaves_fallback steps ->
  (run_steps cfg db_fault preserve_partial_work usd seconds steps result w).2 <> Ret None.
Proof using Type Hpreserve.
  intros Hs. revert result w. induction Hs as [|step steps Hstep Hs IH]; intros result w; [done|].
  cbn [run_steps]. pose proof (execute_step_total step result w Hstep) as Ht. unfold bind.
  destruct (execute_step _ _ _ _ _ step result w) as [w1 [[[b r]|]|e]]; [|done|done].
  destruct b; [apply IH|done].
Qed.
End spec.

(** ** Properties *)

Section properties.
Context (cfg : Config) (db_fault : nat -> option exn).
Context (preserve_partial_work : string -> View -> View * outcome bool).
Context (usd cents seconds : Z -> string).

(** The state in which the steps of a run start. *)
Lemma run_setup steps w w' r :
  run cfg db_fault preserve_partial_work usd cents seconds steps w = (w', Ret (Some r)) ->
  exists w1 w2 result0 result,
    has_row w1 /\ db_failures (w_db w1) = db_failures (w_db w) /\
    result0 = {| wr_success := false; wr_final_status := TaskStatus.PENDING; wr_task_run_id := w_task_run_id w1;
                 wr_steps_completed := 0; wr_steps_failed := 0; wr_steps_skipped := 0;
                 wr_total_cost_usd := 0; wr_error := None; wr_step_records := [] |} /\
    check_per_issue_budget cfg db_fault usd cents result0 w1 = (w2, Ret result) /\
    if truthy (wr_error result) then w2 = w' /\ r = result
    else exists b w3 result3,
      run_steps cfg db_fault preserve_partial_work usd seconds steps result w2 = (w3, Ret (Some (b, result3))) /\
      if b then finalize db_fault result3 w3 = (w', Ret r) else w3 = w' /\ r = result3.
Proof.
  intros Hrun. unfold run in Hrun. apply bind_Ret in Hrun as (wa & [] & Ha & Hrun).
  apply modify_Ret in Ha. apply bind_Ret in Hrun as (wb & wx & Hb & Hrun). apply get_Ret in Hb as [-> ->].
  assert (w_db wa = w_db w) as Edb by (subst wa; by case_decide). clear Ha.
  apply bind_Ret in Hrun as (w1 & [] & H1 & Hrun). apply bind_Ret in Hrun as (wb & wx & Hb & Hrun).
  apply get_Ret in Hb as [-> ->]. apply bind_Ret in Hrun as (w2 & result & H2 & Hrun).
  exists w1, w2. eexists _, result. split; [|split; [|split; [reflexivity|split; [exact H2|]]]].
  - clear H2 Hrun. destruct (cx_task_run_id (ctx wa)) as [id|].
    + apply bind_Ret in H1 as (wc & [] & Hm & H1). apply modify_Ret in Hm.
      apply bind_Ret in H1 as (wd & found & Hf & H1).
      apply transact_Ret in Hf as (E & F & _ & Id & _). subst wc. cbn in E, F, Id.
      destruct (db_runs (w_db wa) !! id) as [row|] eqn:Er; cbn in E, F; subst found; minv.
      eexists id, _. split; [done|]. rewrite E. cbn. by rewrite lookup_insert_eq.
    + apply bind_Ret in H1 as (wc & id & Hc & H1). apply modify_Ret in H1. subst w1.
      apply transact_Ret in Hc as (E & -> & _ & Id & _). cbn in E.
      eexists _, _. split; [reflexivity|]. cbn. rewrite E. cbn. by rewrite lookup_insert_eq.
  - clear H2 Hrun. rewrite <- Edb. destruct (cx_task_run_id (ctx wa)) as [id|].
    + apply bind_Ret in H1 as (wc & [] & Hm & H1). apply modify_Ret in Hm.
      apply bind_Ret in H1 as (wd & found & Hf & H1).
      apply transact_Ret in Hf as (E & F & _ & Id & _). subst wc. cbn in E, F, Id.
      destruct (db_runs (w_db wa) !! id) as [row|] eqn:Er; cbn in E, F; subst found; minv.
      by rewrite E.
    + apply bind_Ret in H1 as (wc & id & Hc & H1). apply modify_Ret in H1. subst w1.
      apply transact_Ret in Hc as (E & -> & _ & Id & _). cbn in E. cbn. by rewrite E.
  - destruct (truthy (wr_error result)); [by minv|].
    apply bind_Ret in Hrun as (w3 & [[b result3]|] & H3 & Hrun); [|by minv].
    exists b, w3, result3. split; [done|]. destruct b; [|by minv].
    apply bind_Ret in Hrun as (w4 & r4 & H4 & Hrun). by minv.
Qed.

(** The per-issue budget check: nothing, or a paused result. *)
Lemma issue_budget_Ret result w w' r :
  has_row w -> wr_error result = None ->
  check_per_issue_budget cfg db_fault usd cents result w = (w', Ret r) ->
  w_view w' = w_view w /\ has_row w' /\
  ((r = result /\ later [] w w') \/
   (exists msg, r = stop_with TaskStatus.PAUSED (Some msg) result /\ msg <> ""%string /\
    cx_budget_override (ctx w) = false /\ cx_issue_number (ctx w) <> ""%string /\
    (cfg_max_issue_budget cfg <= prior_cost (cx_issue_number (ctx w)) (w_task_run_id w) (db_runs (w_db w)))%Z /\
    ((exists n e, db_fault n = Some e) \/
     (row_ended w' TaskStatus.PAUSED /\ later [{| fr_task_run_id := w_task_run_id w;
        fr_step_name := "budget_check"; fr_failure_type := "per_issue_budget_exceeded";
        fr_message := msg |}] w w')))).
Proof.
  intros Hrow Herr Hrun. unfold check_per_issue_budget in Hrun.
  apply bind_Ret in Hrun as (wa & wx & Ha & Hrun). minv.
  destruct (cx_budget_override _) eqn:Eo; [minv; split_and!; try done; left; split; [done|apply later_refl]|].
  case_decide as Hi; [minv; split_and!; try done; left; split; [done|apply later_refl]|].
  apply bind_Ret in Hrun as (w1 & prior & Hp & Hrun).
  assert (later [] w w1) as L1 by (eapply quiet_run; [|exact Hp]; by apply quiet_transact).
  apply transact_Ret in Hp as (_ & Hp & V1 & _). cbn in Hp. subst prior.
  destruct (Z.leb_spec (cfg_max_issue_budget cfg)
    (prior_cost (cx_issue_number (ctx w)) (w_task_run_id w) (db_runs (w_db w)))) as [Hle|Hgt]; cycle 1.
  { minv. split; [done|]. split; [by eapply has_row_later|]. by left. }
  apply bind_Ret in Hrun as (w2 & [] & H2 & Hrun). minv.
  pose proof (has_row_later _ _ _ L1 Hrow) as Hrow1.
  set (msg := (_ ++ _)%string) in *. assert (msg <> ""%string) as Hmsg by done.
  apply try_catch_Ret in H2 as [H2|(w3 & e & H2 & _ & H3)].
  - apply bind_Ret in H2 as (w3 & [] & H3 & H2).
    edestruct end_run_Ret as (R & V & L); [exact Hrow1| |exact H3|exact H2|]; [done|].
    split; [congruence|]. split; [by eapply has_row_later|]. right. exists msg. split_and!; try done.
    right. split; [done|]. rewrite <- (la_id _ _ _ L1). by eapply later_quiet_l.
  - minv. assert (w_view w3 = w_view w1 /\ has_row w3 /\ exists n e, db_fault n = Some e) as (V & R & F).
    { assert (forall f, db_fault (w_transactions f) = None \/ exists n e, db_fault n = Some e) as Hdec.
      { intros f. destruct (db_fault (w_transactions f)) eqn:E; [right; eauto|by left]. }
      unfold bind in H2. destruct (record_failure _ _ _ _ w1) as [w4 [[]|e4]] eqn:E4.
      - apply record_failure_later in E4 as [V4 L4].
        unfold update_task_run_status, update_run, transact in H2.
        destruct (db_fault (w_transactions w4)) eqn:Ef; [|by destruct (w_task_run_id w4)].
        injection H2 as <- _. cbn. split; [congruence|]. split; [|eauto].
        by eapply has_row_later in L4.
      - injection H2 as <- <-. unfold record_failure, transact in E4.
        destruct (db_fault (w_transactions w1)) eqn:Ef; [|done]. injection E4 as <- _. cbn.
        split; [done|]. split; [done|eauto]. }
    split; [congruence|]. split; [done|]. right. exists msg. split_and!; try done. by left.
Qed.

(** C2: the verdict of a run. When [run] returns, either every step was passed in
    order (skipped, or completed with a successful result and both gate checks
    passed), the result is a success and the row of the run is recorded DONE, with
    no failure record; or the run stopped at the first step it could not pass:
    the steps before it were passed, no later step was tried, the result is no
    success, the row is recorded with exactly the status of the result, and there
    is exactly one new failure record, of the type that goes with that status
    (none when the run waits for approval); or the issue had used up its budget,
    no step was tried and the result is PAUSED (recorded, unless a database
    transaction failed). The recorded end and cost are those of the run. *)
Theorem run_verdict (steps : list BaseStep) (w w' : World) (r : WorkflowResult) :
  run cfg db_fault preserve_partial_work usd cents seconds steps w = (w', Ret (Some r)) ->
  (wr_success r = true /\ wr_final_status r = TaskStatus.DONE /\ wr_error r = None /\
   Forall2 passed (wr_step_records r) (map st_name steps) /\
   row_ended w' TaskStatus.DONE /\ db_failures (w_db w') = db_failures (w_db w)) \/
  (wr_success r = false /\ exists k step pre recs,
     steps !! k = Some step /\ wr_step_records r = pre ++ recs /\
     Forall2 passed pre (take k (map st_name steps)) /\
     length recs <= 1 /\ Forall (fun rec => rec_step_name rec = st_name step) recs /\
     row_ended w' (wr_final_status r) /\
     ((wr_final_status r = TaskStatus.AWAITING_APPROVAL /\ db_failures (w_db w') = db_failures (w_db w)) \/
      exists type msg, verdict_ok type (wr_final_status r) /\
        msg = default "Unknown error"%string (or_text (wr_error r) None) /\
        db_failures (w_db w') = db_failures (w_db w) ++
          [{| fr_task_run_id := w_task_run_id w'; fr_step_name := st_name step; fr_failure_type := type;
              fr_message := msg |}])) \/
  (wr_success r = false /\ wr_final_status r = TaskStatus.PAUSED /\ wr_step_records r = [] /\
   truthy (wr_error r) = true /\
   ((exists n e, db_fault n = Some e) \/ row_ended w' TaskStatus.PAUSED)).
Proof.
  intros Hrun. apply run_setup in Hrun as (w1 & w2 & result0 & result & Hrow & Hf & -> & Hb & Hrun).
  apply issue_budget_Ret in Hb as (V & Hrow2 & [[-> L]|(msg & -> & Hmsg & _ & _ & _ & Hend)]); [| |done|done].
  - cbn [wr_error truthy] in Hrun. destruct Hrun as (b & w3 & result3 & H3 & Hfin).
    apply run_steps_Ret in H3 as (R3 & S3 & pre & recs & E & Hpass & Hcase); [|done]. cbn in S3, E.
    destruct b.
    + left. destruct Hcase as (-> & Hlen & Herr & L3). unfold finalize in Hfin.
      apply bind_Ret in Hfin as (w4 & [] & H4 & Hfin). apply bind_Ret in Hfin as (w5 & [] & H5 & Hfin). minv.
      edestruct update_status_Ret as (R4 & V4 & L4); [exact R3| |exact H4|]; [done|].
      assert (row_ended w5 TaskStatus.DONE /\ later [] w4 w5) as [R5 L5].
      { destruct R4 as (id & row & Hid & Hr & E1 & E2 & E3).
        split; [|eapply (quiet_run _ _ _ _ (quiet_update_run _ _) H5)].
        apply update_run_Ret in H5 as (G1 & _ & G3 & G4 & _). rewrite Hid in G1.
        eexists id, _. split; [by rewrite G4|]. rewrite G1, lookup_alter_eq, Hr. split; [done|].
        cbn. rewrite E2. unfold clock, ctx. by rewrite G3. }
      cbn. rewrite app_nil_r in E. split_and!; try done.
      * rewrite E. rewrite Hlen in Hpass. rewrite <- (length_map st_name steps) in Hpass.
        by rewrite firstn_all in Hpass.
      * rewrite (la_failures _ _ _ L5), (la_failures _ _ _ L4), (la_failures _ _ _ L3), (la_failures _ _ _ L), Hf.
        by rewrite !app_nil_r.
    + right; left. destruct Hfin as [-> ->]. destruct Hcase as (step & Hk & Hs & Hlen & Hn).
      split; [done|]. exists (length pre), step, pre, recs. split_and!; try done; [by destruct Hs|].
      destruct Hs as [_ [[? L3]|(type & msg & Hv & L3 & Hm)]].
      * left. split; [done|]. by rewrite (la_failures _ _ _ L3), (la_failures _ _ _ L), Hf, !app_nil_r.
      * right. exists type, msg. split; [done|]. split; [done|].
        rewrite (la_failures _ _ _ L3), (la_failures _ _ _ L), Hf, app_nil_r. by rewrite (la_id _ _ _ L3).
  - right; right. cbn [wr_error stop_with truthy] in Hrun. rewrite bool_decide_eq_false_2 in Hrun by done.
    destruct Hrun as [-> ->]. cbn. rewrite bool_decide_eq_false_2 by done. split_and!; try done.
    destruct Hend as [?|[? _]]; [by left|by right].
Qed.

(** C8: [run] terminates: when no step moves the position in the fallback chain,
    the retry and fallback loops always end, for any steps, retry counts, fallback
    chain, timeouts and database failures: the fuel of the model (one more than
    the length of the chain) is never exhausted. *)
Theorem run_terminates (steps : list BaseStep) (w : World) :
  Forall leaves_fallback steps ->
  (forall name, leaves_index (preserve_partial_work name)) ->
  (run cfg db_fault preserve_partial_work usd cents seconds steps w).2 <> Ret None.
Proof.
  intros Hs Hp. unfold run. unfold bind at 1. cbn [modify]. set (wa := if decide _ then _ else _). clearbody wa.
  unfold bind at 1. cbn [get]. unfold bind at 1. destruct (match cx_task_run_id _ with _ => _ end wa) as [w1 [[]|e]]; [|done].
  unfold bind at 1. cbn [get]. unfold bind at 1.
  destruct (check_per_issue_budget _ _ _ _ _ w1) as [w2 [result|e]]; [|done].
  destruct (truthy _); [done|]. unfold bind at 1.
  pose proof (run_steps_total cfg db_fault preserve_partial_work usd seconds Hp steps result w2 Hs) as Ht.
  destruct (run_steps _ _ _ _ _ steps result w2) as [w3 [[[[] r]|]|e]]; [|done|done|done].
  unfold bind. by destruct (finalize _ r w3) as [w4 [r'|e]].
Qed.



(** A computation that runs no step code. *)
Definition still {A} (m : M A) : Prop := forall w, w_view (m w).1 = w_view w.

Lemma still_bind {A B} (m : M A) (k : A -> M B) : still m -> (forall x, still (k x)) -> still (bind m k).
Proof.
  intros Hm Hk w. unfold bind. specialize (Hm w). destruct (m w) as [w1 [x|e]]; [|done]. cbn in Hm.
  by rewrite Hk.
Qed.

Lemma still_transact {A} (f : World -> DB -> DB * A) : still (transact db_fault f).
Proof. intros w. unfold transact. destruct (db_fault _); [done|]. by destruct (f w (w_db w)). Qed.

Ltac still_tac := repeat first
  [ apply still_transact
  | apply still_bind; [|intros ?]
  | match goal with |- still (match ?x with _ => _ end) => destruct x end
  | done ].

Lemma still_checks step result :
  still (pre_step_checks db_fault step result) /\ still (budget_check cfg db_fault usd step result) /\
  still (check_runaway_guard cfg db_fault seconds step result).
Proof.
  unfold pre_step_checks, budget_check, check_runaway_guard, pause_run, record_failure,
    update_task_run_status, sync_task_run_context, update_run. split_and!; still_tac.
Qed.

(** The limits of the checks before a step. *)
Definition worktree_gone (w : World) : Prop :=
  exists d, cx_worktree_dir (ctx w) = Some d /\ d ∉ v_dirs (w_view w).

Lemma checks_None step result w w' :
  (pre_step_checks db_fault step result w = (w', Ret None) -> w' = w /\ ~ worktree_gone w) /\
  (budget_check cfg db_fault usd step result w = (w', Ret None) ->
     w' = w /\ is_budget_exceeded (cfg_max_budget cfg) (ctx w) = false) /\
  (check_runaway_guard cfg db_fault seconds step result w = (w', Ret None) ->
     w' = w /\ runaway_message cfg seconds w result = None).
Proof.
  unfold pre_step_checks, budget_check, check_runaway_guard, worktree_gone. split_and!; intros H; minv.
  - destruct (cx_worktree_dir (ctx w)) as [d|]; [|by minv; split; [done|intros (? & ? & _)]].
    case_bool_decide; minv. split; [done|]. by intros (? & [= <-] & ?).
  - destruct (is_budget_exceeded _ _); by minv.
  - destruct (runaway_message _ _ _ _); by minv.
Qed.

(** A check that ends the step leaves the view; otherwise it changes nothing. *)
Lemma check_then (m : M (option WorkflowResult)) (k : M (option (bool * WorkflowResult))) w :
  still m ->
  (forall w', m w = (w', Ret None) -> w' = w /\ (w_view (k w).1 = w_view w /\ forall r, (k w).2 <> Ret (Some (true, r)))) ->
  let out := bind m (fun stop => match stop with Some r => ret (Some (false, r)) | None => k end) w in
  w_view out.1 = w_view w /\ forall r, out.2 <> Ret (Some (true, r)).
Proof.
  intros Hm Hk out. unfold out, bind. specialize (Hm w). destruct (m w) as [w1 [[r|]|e]]; cbn in *; [done| |done].
  by destruct (Hk w1 eq_refl) as [-> ?].
Qed.

(** C10: no step code runs once a limit is reached. When the worktree of the run is
    gone, the cost of the run exceeds its budget, or the wall clock, step count or
    call count guard trips, [_execute_step] leaves the context, the clock and the
    call counter as they are, whatever the step would do and whatever the
    database does, and never lets the pipeline go on. *)
Theorem limits_stop_the_run (step : BaseStep) (result : WorkflowResult) (w : World) :
  worktree_gone w \/ is_budget_exceeded (cfg_max_budget cfg) (ctx w) = true \/
  runaway_message cfg seconds w result <> None ->
  let out := execute_step cfg db_fault preserve_partial_work usd seconds step result w in
  w_view out.1 = w_view w /\ forall r, out.2 <> Ret (Some (true, r)).
Proof.
  intros Hlimit. destruct (still_checks step result) as (S1 & S2 & S3).
  apply check_then; [done|]. intros w' (-> & N1)%checks_None. split; [done|].
  apply check_then; [done|]. intros w' (-> & N2)%checks_None. split; [done|].
  apply check_then; [done|]. intros w' (-> & N3)%checks_None. split; [done|].
  destruct Hlimit as [?|[?|?]]; [done|congruence|done].
Qed.

(** the deadline of an attempt. The timeout a step attempt gets is never more
    than the step's own, and with the wall clock guard on it is never more than
    what is left of the guard's time, scaled by complexity (and 0 when nothing is
    left); the attempt is attributed to the guard exactly when what is left is the
    smaller of the two. *)
Theorem attempt_deadline (w : World) (name : string) :
  let '(timeout, runaway) := effective_step_timeout cfg w name in
  let left := (scaled_wall_clock cfg (ctx w) - (clock w - w_run_started_at w))%Z in
  (timeout <= step_timeout cfg (ctx w) name)%Z /\
  (cfg_max_run_wall_clock_seconds cfg <> 0 -> w_run_started_at w <> 0%Z ->
     (1000 * timeout <= Z.max 0 left \/ step_timeout cfg (ctx w) name < 0)%Z /\
     (runaway = true <-> (Z.max 0 (left ÷ 1000) < step_timeout cfg (ctx w) name)%Z)) /\
  (cfg_max_run_wall_clock_seconds cfg = 0 -> runaway = false /\ timeout = step_timeout cfg (ctx w) name).
Proof.
  unfold effective_step_timeout.
  set (st := step_timeout cfg (ctx w) name). set (left := (_ - _)%Z).
  case_bool_decide as H0; cbn [orb]; [split_and!; [done|done|done]|].
  case_bool_decide as H1; [split_and!; [done|done|done]|].
  assert (0 <= left -> 1000 * (left ÷ 1000) <= left)%Z as Hq1 by (intros; rewrite Z.quot_div_nonneg by lia; pose proof (Z.mul_div_le left 1000); lia).
  assert (left < 0 -> left ÷ 1000 <= 0)%Z as Hq2.
  { intros. replace left with (- - left)%Z by lia. rewrite Z.quot_opp_l by lia.
    pose proof (Z.quot_pos (- left) 1000). lia. }
  destruct (Z.ltb_spec (Z.max 0 (left ÷ 1000)) st); cbv zeta beta iota.
  - split; [lia|]. split; [|done]. intros _ _. split; [lia|]. done.
  - split; [lia|]. split; [|done]. intros _ _. split; [lia|]. split; [done|lia].
Qed.

(** retries and fallbacks follow the classification. A failure whose error is
    neither the runaway guard's nor a configuration fault is retried on the same
    model, unless it is a billing failure and a fallback model is left; a
    configuration fault ends the attempts of the step at once, without another
    attempt and without a switch of model; only the text before the check output
    of the target project is classified. *)
Theorem failure_policy (step : BaseStep) (rec rec1 : StepRecord) (c : Ctx) (r : StepResult) (w w1 : World) (fuel : nat) :
  let detail := Detail (Some (failure_detail (sr_error r))) in
  (handle_step_failure_result cfg c r = ARunaway <-> is_runaway_failure (sr_error r) = true) /\
  (handle_step_failure_result cfg c r = ANonRetryable <->
     is_runaway_failure (sr_error r) = false /\ is_configuration_failure detail = true) /\
  (handle_step_failure_result cfg c r = ABillingExhausted <->
     is_runaway_failure (sr_error r) = false /\ is_billing_failure detail = true /\
     has_fallback_models cfg c = true) /\
  (rec_total_attempts rec < cfg_max_step_attempts cfg \/ cfg_max_step_attempts cfg = 0 ->
   execute_single_attempt cfg db_fault preserve_partial_work step (count_attempt rec) 0 w
     = (w1, Ret (rec1, ANonRetryable)) ->
   fallback_loop cfg db_fault preserve_partial_work (S fuel) step rec w
     = (w1, Ret (Some (set_status RFailed (set_retries 0 rec1))))).
Proof.
  intros detail. unfold handle_step_failure_result. fold detail.
  assert (is_configuration_failure detail = true -> is_billing_failure detail = false) as Hexcl.
  { unfold is_configuration_failure, is_billing_failure. intros E%bool_decide_eq_true_1. rewrite E. done. }
  split; [|split; [|split]].
  - destruct (is_runaway_failure _); [done|]. destruct (is_configuration_failure _); [done|].
    by destruct (_ && _).
  - destruct (is_runaway_failure _); [split; [done|by intros [? _]]|].
    destruct (is_configuration_failure _); [done|]. split; [by destruct (_ && _)|by intros [_ ?]].
  - destruct (is_runaway_failure _); [split; [done|by intros [? _]]|].
    destruct (is_configuration_failure _) eqn:E.
    + rewrite Hexcl by done. split; [done|by intros (_ & ? & _)].
    + destruct (is_billing_failure _), (has_fallback_models cfg c); cbn; split; try done; by intros (_ & ? & ?).
  - intros Hmax Hrun. cbn [fallback_loop]. unfold try_step_with_retries. cbn [retry_loop].
    assert (negb (bool_decide (cfg_max_step_attempts cfg = 0)) && (cfg_max_step_attempts cfg <=? rec_total_attempts rec)
      = false) as ->.
    { destruct (decide (cfg_max_step_attempts cfg = 0)) as [E|E].
      - by rewrite bool_decide_eq_true_2.
      - rewrite bool_decide_eq_false_2 by done. cbn. apply Nat.leb_gt. lia. }
    unfold bind at 1. unfold bind at 1. rewrite Hrun. cbn. done.
Qed.

End properties.

(** ** Cost accounting *)

Section accounting.

Definition record_sum (f : CostRecord -> Z) (l : list CostRecord) : Z := foldr (fun r n => (f r + n)%Z) 0%Z l.

Lemma record_sum_app f l1 l2 : record_sum f (l1 ++ l2) = (record_sum f l1 + record_sum f l2)%Z.
Proof. induction l1 as [|r l1 IH]; cbn; [done|]. fold (record_sum f (l1 ++ l2)) (record_sum f l1). lia. Qed.

Lemma foldl_sub_spend spend p :
  Forall (fun kb : string * RoutedSpend => coherent (rs_usage kb.2)) spend -> coherent p ->
  foldl (fun u kb => usage_sub u (rs_usage kb.2)) (usage_add (spend_usage spend) p) spend = p.
Proof.
  intros Hall Hp. induction Hall as [|kb spend Hkb Hall IH]; [apply usage_add_no_usage_l|].
  cbn [foldl]. change (spend_usage (kb :: spend)) with (usage_add (rs_usage kb.2) (spend_usage spend)).
  rewrite <- usage_add_assoc, usage_add_sub; [exact IH|].
  apply coherent_add; [|done]. apply coherent_sum, Forall_forall.
  intros u (x & -> & Hx)%list_elem_of_fmap. rewrite Forall_forall in Hall. by apply Hall.
Qed.

Lemma foldl_cost_spend spend c :
  Forall (fun kb : string * RoutedSpend => 0 <= rs_cost_usd kb.2)%Z spend ->
  (spend_cost spend <= c)%Z ->
  foldl (fun cost kb => Z.max (cost - rs_cost_usd kb.2) 0)%Z c spend = (c - spend_cost spend)%Z.
Proof.
  intros Hall. revert c. induction Hall as [|kb spend Hkb Hall IH]; intros c Hc; cbn [foldl].
  - change (spend_cost []) with 0%Z. lia.
  - change (spend_cost (kb :: spend)) with (rs_cost_usd kb.2 + spend_cost spend)%Z in *.
    assert (0 <= spend_cost spend)%Z.
    { clear -Hall. induction Hall as [|x l Hx Hl IHl]; [done|].
      change (spend_cost (x :: l)) with (rs_cost_usd x.2 + spend_cost l)%Z. lia. }
    rewrite IH; lia.
Qed.

(** A reported result without negative figures. *)
Definition sane (r : reported) : Prop :=
  (0 <= r_cost_usd r.1 /\ 0 <= r_input_tokens r.1 /\ 0 <= r_output_tokens r.1 /\ 0 <= r_cache_read_tokens r.1)%Z.

Lemma cost_of_nonneg p rs : Forall sane rs -> (0 <= cost_of p rs)%Z.
Proof.
  intros Hs. unfold cost_of. induction Hs as [|r rs Hr Hs IH]; [done|]. rewrite filter_cons.
  case_decide; [|done]. cbn. destruct Hr as [Hr _]. lia.
Qed.

Lemma usage_of_nonneg p rs : Forall sane rs ->
  (0 <= input_tokens (usage_of p rs) /\ 0 <= output_tokens (usage_of p rs) /\
   0 <= cache_read_tokens (usage_of p rs))%Z.
Proof.
  intros Hs. unfold usage_of. induction Hs as [|r rs Hr Hs IH]; [done|]. rewrite filter_cons.
  case_decide; [|done]. destruct Hr as (_ & ? & ? & ?). cbn [map].
  match goal with |- context [usage_sum (?u :: ?l)] => change (usage_sum (u :: l)) with (usage_add u (usage_sum l)) end.
  cbn [usage_add result_usage input_tokens output_tokens cache_read_tokens]. lia.
Qed.

Section attempt.
Context (c0 : Ctx) (deadline : Z) (is_runaway : bool) (now : Z) (rs : list reported) (r : StepResult).
Let c := add_all rs (with_scope (fresh_scope deadline is_runaway now) c0).
Let r' := attribute_spend (cx_usage c0) (cx_cost_usd c0) c r.

Lemma attempt_split : split_inv c0 rs c.
Proof. apply split_inv_all. Qed.

Lemma attempt_runtime_none : sc_runtime_usage (cx_step c) = None ->
  usage_of in_runtime rs = no_usage /\ cost_of in_runtime rs = 0%Z.
Proof.
  intros E. rewrite (si_runtime _ _ _ attempt_split) in E. destruct (existsb in_runtime rs) eqn:Ex; [done|].
  apply usage_of_none. intros x Hx. destruct (in_runtime x) eqn:Ei; [|done].
  assert (existsb in_runtime rs = true) as Hc; [|congruence].
  apply existsb_exists. exists x. split; [by apply list_elem_of_In|done].
Qed.

Lemma attempt_buckets_coherent :
  Forall (fun kb : string * RoutedSpend => coherent (rs_usage kb.2)) (sc_routed_spend (cx_step c)).
Proof.
  eapply Forall_impl; [apply (si_buckets _ _ _ attempt_split)|]. intros kb (_ & -> & _). apply coherent_usage_of.
Qed.

(** The provider's share is what the untagged results used. *)
Lemma attempt_provider_usage : provider_usage (cx_step c) r' = usage_of in_provider rs.
Proof.
  unfold provider_usage, r', attribute_spend. cbn [sr_usage default from_option]. cbv beta iota zeta delta [id].
  rewrite (si_usage _ _ _ attempt_split), usage_add_sub by apply coherent_usage_of.
  rewrite (si_total _ _ _ attempt_split).
  destruct (sc_runtime_usage (cx_step c)) as [u|] eqn:Eu.
  - assert (u = usage_of in_runtime rs) as ->.
    { rewrite (si_runtime _ _ _ attempt_split) in Eu. destruct (existsb _ _); congruence. }
    rewrite usage_add_sub.
    + apply foldl_sub_spend; [apply attempt_buckets_coherent|apply coherent_usage_of].
    + apply coherent_add; [|apply coherent_usage_of]. apply coherent_sum, Forall_forall.
      intros v (x & -> & Hx)%list_elem_of_fmap. pose proof attempt_buckets_coherent as Hb.
      rewrite Forall_forall in Hb. by apply Hb.
  - destruct (attempt_runtime_none Eu) as [-> _]. rewrite usage_add_no_usage_l.
    apply foldl_sub_spend; [apply attempt_buckets_coherent|apply coherent_usage_of].
Qed.

Lemma attempt_cost : sr_cost_usd r' = Z.max (sr_cost_usd r) (cost_of (fun _ => true) rs).
Proof.
  unfold r', attribute_spend. cbn [sr_cost_usd]. rewrite (si_cost _ _ _ attempt_split).
  replace (cx_cost_usd c0 + cost_of (fun _ => true) rs - cx_cost_usd c0)%Z with (cost_of (fun _ => true) rs) by lia.
  destruct (Z.ltb_spec (sr_cost_usd r) (cost_of (fun _ => true) rs)); lia.
Qed.

Lemma attempt_provider_cost : Forall sane rs ->
  provider_cost (cx_step c) r' =
    (sr_cost_usd r' - cost_of in_runtime rs - spend_cost (sc_routed_spend (cx_step c)))%Z /\
  (cost_of in_provider rs <= provider_cost (cx_step c) r')%Z.
Proof.
  intros Hs. pose proof attempt_cost as Hc. pose proof (si_total_cost _ _ _ attempt_split) as Ht.
  pose proof (cost_of_nonneg in_provider rs Hs) as Hp. pose proof (cost_of_nonneg in_runtime rs Hs) as Hr.
  assert (Forall (fun kb : string * RoutedSpend => 0 <= rs_cost_usd kb.2)%Z (sc_routed_spend (cx_step c))) as Hk.
  { eapply Forall_impl; [apply (si_buckets _ _ _ attempt_split)|]. intros kb (_ & _ & ->). by apply cost_of_nonneg. }
  assert (0 <= spend_cost (sc_routed_spend (cx_step c)))%Z.
  { clear -Hk. induction Hk as [|x l Hx Hl IHl]; [done|].
    change (spend_cost (x :: l)) with (rs_cost_usd x.2 + spend_cost l)%Z. lia. }
  unfold provider_cost. destruct (sc_runtime_usage (cx_step c)) as [u|] eqn:Eu.
  - rewrite (si_runtime_cost _ _ _ attempt_split). rewrite foldl_cost_spend by (done || lia). lia.
  - destruct (attempt_runtime_none Eu) as [_ E0]. rewrite foldl_cost_spend by (done || lia). lia.
Qed.

Lemma record_sum_spend f g w name ms :
  (forall kb, f (build_cost_record w name ms (rs_model kb.2) (rs_cost_usd kb.2) (rs_cost_source kb.2)
                   (rs_reason kb.2) (rs_usage kb.2)) = g kb) ->
  forall spend : list (string * RoutedSpend),
  record_sum f (map (fun kb => build_cost_record w name ms (rs_model kb.2) (rs_cost_usd kb.2)
    (rs_cost_source kb.2) (rs_reason kb.2) (rs_usage kb.2)) spend) = foldr (fun kb n => (g kb + n)%Z) 0%Z spend.
Proof.
  intros Hf spend. induction spend as [|kb spend IH]; [done|]. cbn [map]. unfold record_sum in *. cbn [foldr].
  by rewrite IH, Hf.
Qed.

(** A figure of a cost record that its usage determines, and that is zero when no
    record is written for the provider. *)
Lemma attempt_tokens w name ms (f : CostRecord -> Z) (g : TokenUsage -> Z) :
  ctx w = c ->
  (forall w name ms m cost src why u, f (build_cost_record w name ms m cost src why u) = g u) ->
  g no_usage = 0%Z -> (forall u v, g (usage_add u v) = g u + g v)%Z ->
  (usage_has_tokens (usage_of in_provider rs) = false -> g (usage_of in_provider rs) = 0%Z) ->
  record_sum f (attempt_cost_records w name ms r') = g (usage_of (fun _ => true) rs).
Proof.
  intros Hw Hf H0 Hadd Hz. unfold attempt_cost_records. rewrite Hw, !record_sum_app, attempt_provider_usage.
  rewrite (record_sum_spend f (fun kb => g (rs_usage kb.2))) by (intros; apply Hf).
  assert (forall l : list (string * RoutedSpend),
    foldr (fun kb n => (g (rs_usage kb.2) + n)%Z) 0%Z l = g (spend_usage l)) as Hsp.
  { intros l. induction l as [|kb l IH]; [done|].
    change (spend_usage (kb :: l)) with (usage_add (rs_usage kb.2) (spend_usage l)).
    rewrite Hadd. cbn [foldr]. by rewrite IH. }
  rewrite Hsp, (si_total _ _ _ attempt_split), !Hadd.
  assert (record_sum f match sc_runtime_usage (cx_step c) with
    | Some u => [build_cost_record w name ms (or_unknown (sc_runtime_model (cx_step c)))
        (sc_runtime_cost_usd (cx_step c)) (sc_runtime_cost_source (cx_step c)) (sc_runtime_model_reason (cx_step c)) u]
    | None => []
    end = g (usage_of in_runtime rs)) as ->.
  { destruct (sc_runtime_usage (cx_step c)) as [u|] eqn:Eu.
    - rewrite (si_runtime _ _ _ attempt_split) in Eu. destruct (existsb _ _); simplify_eq.
      cbn [record_sum foldr]. rewrite Hf. lia.
    - destruct (attempt_runtime_none Eu) as [-> _]. by rewrite H0. }
  destruct (_ || usage_has_tokens _) eqn:E.
  - cbn [record_sum foldr]. rewrite Hf. lia.
  - apply orb_false_iff in E as [_ E]. rewrite Hz by done. cbn [record_sum foldr]. lia.
Qed.

Lemma attempt_costs w name ms :
  ctx w = c -> Forall sane rs ->
  record_sum cr_cost_usd (attempt_cost_records w name ms r') = sr_cost_usd r'.
Proof.
  intros Hw Hs. destruct (attempt_provider_cost Hs) as [Hpc Hle].
  pose proof (cost_of_nonneg in_provider rs Hs) as Hp.
  unfold attempt_cost_records. rewrite Hw, !record_sum_app.
  rewrite (record_sum_spend cr_cost_usd (fun kb => rs_cost_usd kb.2)) by done.
  fold (spend_cost (sc_routed_spend (cx_step c))).
  assert (record_sum cr_cost_usd match sc_runtime_usage (cx_step c) with
    | Some u => [build_cost_record w name ms (or_unknown (sc_runtime_model (cx_step c)))
        (sc_runtime_cost_usd (cx_step c)) (sc_runtime_cost_source (cx_step c)) (sc_runtime_model_reason (cx_step c)) u]
    | None => []
    end = cost_of in_runtime rs) as ->.
  { destruct (sc_runtime_usage (cx_step c)) as [u|] eqn:Eu.
    - cbn. rewrite (si_runtime_cost _ _ _ attempt_split). lia.
    - by destruct (attempt_runtime_none Eu) as [_ ->]. }
  destruct (_ || usage_has_tokens _) eqn:E.
  - cbn [record_sum foldr build_cost_record cr_cost_usd]. lia.
  - apply orb_false_iff in E as [E%Z.ltb_ge _]. cbn [record_sum foldr]. lia.
Qed.
End attempt.

(** C9: the cost records of a step attempt add up. For the results a step reports
    during one attempt, in any order and mix of runtime dispatches, routed calls
    and provider calls, the dollars of the records the engine writes are exactly
    the cost of the attempt, which is at least what was reported; their input,
    output and cache-read tokens are exactly the reported ones; and the tokens of
    the provider's record are those of the provider calls alone. *)
Theorem attempt_costs_add_up (c0 : Ctx) (deadline : Z) (is_runaway : bool) (now : Z) (rs : list reported)
    (r : StepResult) (w : World) (name : string) (ms : Z) :
  Forall sane rs ->
  let c := add_all rs (with_scope (fresh_scope deadline is_runaway now) c0) in
  let r' := attribute_spend (cx_usage c0) (cx_cost_usd c0) c r in
  let records := attempt_cost_records w name ms r' in
  ctx w = c ->
  record_sum cr_cost_usd records = Z.max (sr_cost_usd r) (cost_of (fun _ => true) rs) /\
  record_sum cr_input_tokens records = input_tokens (usage_of (fun _ => true) rs) /\
  record_sum cr_output_tokens records = output_tokens (usage_of (fun _ => true) rs) /\
  record_sum cr_cache_read_tokens records = cache_read_tokens (usage_of (fun _ => true) rs) /\
  provider_usage (cx_step c) r' = usage_of in_provider rs /\
  Forall (bucket_ok rs) (sc_routed_spend (cx_step c)).
Proof.
  intros Hs c r' records Hw. destruct (usage_of_nonneg in_provider rs Hs) as (N1 & N2 & N3).
  assert (usage_has_tokens (usage_of in_provider rs) = false ->
    input_tokens (usage_of in_provider rs) = 0%Z /\ output_tokens (usage_of in_provider rs) = 0%Z /\
    cache_read_tokens (usage_of in_provider rs) = 0%Z) as Hz.
  { unfold usage_has_tokens. intros E. repeat apply orb_false_iff in E as [E ?].
    repeat match goal with H : Z.ltb _ _ = false |- _ => apply Z.ltb_ge in H end. lia. }
  split; [|split; [|split; [|split; [|split]]]].
  - unfold records. rewrite <- (attempt_cost c0 deadline is_runaway now rs r). by apply attempt_costs.
  - apply attempt_tokens; try done. intros. by apply Hz.
  - apply attempt_tokens; try done. intros. by apply Hz.
  - apply attempt_tokens; try done. intros. by apply Hz.
  - apply attempt_provider_usage.
  - apply (si_buckets _ _ _ (split_inv_all c0 rs deadline is_runaway now)).
Qed.
End accounting.

(** ** Concrete runs *)

Section examples.
Local Open Scope string_scope.

Definition a_config : Config :=
  {| cfg_agent_model := "opus"; cfg_fallback_models := ["opus"; "sonnet"]; cfg_engine_owned_fallback := true;
     cfg_max_budget := 100; cfg_max_issue_budget := 500; cfg_max_run_wall_clock_seconds := 3600;
     cfg_max_run_steps := 0; cfg_max_llm_calls := 50; cfg_max_step_attempts := 5;
     cfg_gate_timeout := 60; cfg_verify_timeout := 0; cfg_ci_max_wait := 600;
     cfg_develop_timeouts := (1800%Z, 3600%Z); cfg_agent_timeouts := (600%Z, 1200%Z) |}.

Definition a_ctx : Ctx :=
  {| cx_issue_number := "7"; cx_role := "developer"; cx_run_label := ""; cx_budget_override := false;
     cx_resume_run_id := None; cx_completed_steps := ∅; cx_task_run_id := None; cx_branch_name := "";
     cx_worktree_dir := None; cx_pr_number := None; cx_complexity := None; cx_cost_usd := 0;
     cx_usage := no_usage; cx_resolved_model := None; cx_model_selection_reason := None;
     cx_fallback_model_index := 0; cx_step := fresh_scope 0 false 0 |}.

Definition a_world : World :=
  {| w_view := {| v_ctx := a_ctx; v_clock := 1000; v_calls := 0; v_dirs := ∅ |};
     w_db := {| db_runs := ∅; db_steps := []; db_costs := []; db_failures := []; db_next_run := 1 |};
     w_transactions := 0; w_run_started_at := 0; w_task_run_id := None; w_handoffs := [] |}.

Definition ok_result : StepResult :=
  {| sr_success := true; sr_summary := "ok"; sr_error := None; sr_cost_usd := 0; sr_awaiting_approval := false;
     sr_handoff_actions := []; sr_partial_work := false; sr_usage := None; sr_runaway_triggered := false |}.

(** Spend [cost], take a second, count a call. *)
Definition spend (cost : Z) (v : View) : View :=
  {| v_ctx := with_spend (cx_cost_usd (v_ctx v) + cost) (cx_usage (v_ctx v)) (cx_step (v_ctx v)) (v_ctx v);
     v_clock := v_clock v + 1000; v_calls := S (v_calls v); v_dirs := v_dirs v |}.

Definition pass_gate (v : View) : View * outcome GateCheckResult :=
  (v, Ret {| gc_passed := true; gc_reason := None |}).

(** A step whose attempt number [n] has the outcome [out n], costs [cost n], and
    passes its gate when [gate n] says so. *)
Definition scripted (name : string) (retries : nat) (cost : nat -> Z) (out : nat -> outcome StepResult)
    (gate : nat -> GateCheckResult) : BaseStep :=
  {| st_name := name; st_max_retries := retries; st_can_skip := fun v => (v, Ret false);
     st_execute := fun _ v => (spend (cost (v_calls v)) v, out (v_calls v));
     st_validate_output := fun _ v => (v, Ret (gate (v_calls v)));
     st_verify_output := fun _ v => pass_gate v |}.

Definition passes (_ : nat) : GateCheckResult := {| gc_passed := true; gc_reason := None |}.

Definition no_fault (_ : nat) : option exn := None.
Definition no_work (_ : string) (v : View) : View * outcome bool := (v, Ret false).
Definition show (_ : Z) : string := "n".

Definition a_run (steps : list BaseStep) : World * outcome (option WorkflowResult) :=
  run a_config no_fault no_work show show show steps a_world.

Definition sync_step : BaseStep := scripted "sync" 0 (fun _ => 1%Z) (fun _ => Ret ok_result) passes.

(** Fails once, for 5, then succeeds, for 3. *)
Definition retried_step : BaseStep :=
  scripted "develop" 2 (fun n => if decide (n = 1) then 5%Z else 3%Z)
    (fun n => if decide (n = 1) then Raise (RuntimeError "flaky") else Ret ok_result) passes.

(** The first attempt fails its gate check, the second one crashes. *)
Definition crashing_step : BaseStep :=
  scripted "develop" 1 (fun _ => 1%Z)
    (fun n => if decide (n = 0) then Ret ok_result else Raise (RuntimeError "boom"))
    (fun _ => {| gc_passed := false; gc_reason := Some "No changes produced" |}).

(** Billing failures on the first model, then success on the next one. *)
Definition billed_step : BaseStep :=
  scripted "develop" 3 (fun _ => 1%Z)
    (fun n => if decide (n = 1) then Raise (RuntimeError "HTTP 429: rate_limit") else Ret ok_result) passes.

Example billed_run :
  match a_run [sync_step; billed_step] with
  | (w, Ret (Some r)) =>
      wr_success r = true /\ map rec_total_attempts (wr_step_records r) = [1; 2] /\
      cx_resolved_model (ctx w) = Some "sonnet"
  | _ => False
  end.
Proof. vm_compute. done. Qed.

Lemma scripted_leaves name retries cost out gate : leaves_fallback (scripted name retries cost out gate).
Proof. by split. Qed.

Lemma run_terminates_witness : (a_run [sync_step; retried_step]).2 <> Ret None.
Proof.
  apply run_terminates.
  - repeat constructor; apply scripted_leaves.
  - by intros.
Defined.

Lemma run_verdict_witness : exists w r, a_run [sync_step; retried_step] = (w, Ret (Some r)) /\
  wr_success r = true /\ Forall2 passed (wr_step_records r) ["sync"; "develop"].
Proof.
  eexists _, _. split; [vm_compute; reflexivity|]. split; [reflexivity|].
  edestruct (run_verdict a_config no_fault no_work show show show [sync_step; retried_step] a_world)
    as [H|[H|H]]; [vm_compute; reflexivity|apply H|destruct H as [H _]; discriminate|destruct H as [H _]; discriminate].
Defined.


Definition broke_world : World := set_view (spend 101 (w_view a_world)) a_world.

Definition no_steps_yet : WorkflowResult :=
  {| wr_success := false; wr_final_status := TaskStatus.PENDING; wr_task_run_id := None;
     wr_steps_completed := 0; wr_steps_failed := 0; wr_steps_skipped := 0; wr_total_cost_usd := 0;
     wr_error := None; wr_step_records := [] |}.

Lemma limits_stop_the_run_witness :
  w_view (execute_step a_config no_fault no_work show show sync_step no_steps_yet broke_world).1 = w_view broke_world.
Proof. apply limits_stop_the_run. right; left. vm_compute. reflexivity. Defined.

(** A report of each kind. *)
Definition a_report (model : string) (cost : Z) (runtime routed : option string) : LLMResult :=
  {| r_model := model; r_cost_usd := cost; r_cost_source := PRICED; r_input_tokens := 10; r_output_tokens := 20;
     r_cache_read_tokens := 5; r_cache_creation_tokens := None; r_tokens_saved := Some 2%Z;
     r_reasoning_output_tokens := None; r_num_turns := Some 1%Z; r_runtime_name := runtime;
     r_routed_task_type_model := routed |}.

Definition some_reports : list reported :=
  [(a_report "opus" 4 None None, None); (a_report "gpt" 0 (Some "codex") None, None);
   (a_report "haiku" 1 None (Some "haiku"), Some "cheap route")].

Lemma attempt_costs_add_up_witness :
  let c := add_all some_reports (with_scope (fresh_scope 60 false 0) a_ctx) in
  let w := set_ctx c a_world in
  let r := attribute_spend (cx_usage a_ctx) (cx_cost_usd a_ctx) c ok_result in
  record_sum cr_cost_usd (attempt_cost_records w "develop" 1000 r) = 5%Z /\
  length (attempt_cost_records w "develop" 1000 r) = 3.
Proof.
  cbv zeta. split; [|vm_compute; reflexivity].
  etrans; [apply (attempt_costs_add_up a_ctx 60 false 0 some_reports ok_result); [|reflexivity]|vm_compute; reflexivity].
  repeat constructor; cbn; lia.
Defined.

Lemma failure_policy_witness :
  handle_step_failure_result a_config a_ctx (failed_result "" "HTTP 429: rate_limit") = ABillingExhausted.
Proof.
  apply (failure_policy a_config no_fault no_work sync_step (new_record "" RPending) (new_record "" RPending)
    a_ctx (failed_result "" "HTTP 429: rate_limit") a_world a_world 0).
  vm_compute. done.
Defined.

(** a failed gate check outlives its attempt. The record of a step keeps the
    gate of an earlier attempt, and [_handle_step_failure] reads it whatever the
    last attempt did: here the first attempt fails its gate check and the last one
    crashes with an unhandled exception, yet the run ends PAUSED with the reason
    of the first attempt's gate, as a [gate_check] failure; the exception is in no
    failure record and not in the error of the run. *)
Theorem stale_gate_masks_exception :
  exists w r rec,
    a_run [crashing_step] = (w, Ret (Some r)) /\ wr_step_records r = [rec] /\
    rec_total_attempts rec = 2 /\ (sr_error <$> rec_result rec) = Some (Some "boom") /\
    wr_final_status r = TaskStatus.PAUSED /\ wr_error r = Some "No changes produced" /\
    map fr_failure_type (db_failures (w_db w)) = ["gate_check"] /\
    map fr_message (db_failures (w_db w)) = ["No changes produced"].
Proof.
  eexists _, _, _. split; [vm_compute; reflexivity|]. split; [reflexivity|].
  vm_compute. split_and!; reflexivity.
Qed.

(** the total of the result is not the cost of the run. [total_cost_usd] adds
    the last attempt of each completed step only: here a step costs 1, the first
    attempt of the next one fails and costs 5 and its retry costs 3; the row of the
    run records 9, and the result (and the completion message) says 4. *)
Theorem total_cost_omits_failed_attempts :
  exists w r row,
    a_run [sync_step; retried_step] = (w, Ret (Some r)) /\ wr_success r = true /\
    db_runs (w_db w) !! 1%Z = Some row /\
    tr_total_cost_usd row = 9%Z /\ cx_cost_usd (ctx w) = 9%Z /\ wr_total_cost_usd r = 4%Z.
Proof.
  eexists _, _, _. split; [vm_compute; reflexivity|]. split; [reflexivity|].
  split; [vm_compute; reflexivity|]. vm_compute. split_and!; reflexivity.
Qed.

End examples.
