(* ===== verification/DepGraph.v ===== *)
(** * The dependency graph

    [sova/supervisor/dependency_graph.py]: parsing dependencies out of issue
    bodies, the [DependencyGraph] class, and [build_dependency_graph] with its
    per-repository cache. Issue numbers are integers; the iteration order of the
    sets of the class is the parameter [SetOrder Z]. *)

From stdpp Require Import base gmap strings list fin_maps sorting relations.
From Stdlib Require Import Ascii.
From S2P Require Import Prelude Priority Kahn Tracker Suitability Markdown.

(** ** Parsing issue bodies *)

(** [_DEP_PATTERN.findall(section)], each reference as an integer. *)
Fixpoint find_refs (l : list ascii) : list Z :=
  match l with
  | [] => []
  | c :: l' =>
      if decide (c = "#"%char) then
        match PyStr.take_while PyStr.is_digit l' with
        | [] => find_refs l'
        | ds => default 0%Z (PyStr.digits_val 0 false ds) :: find_refs l'
        end
      else find_refs l'
  end.

(** [^## (dependencies)\s*$], ignoring case, on one line: the heading text as it
    is written there. *)
Definition dependencies_heading (l : list ascii) : option (list ascii) :=
  let heading := take 12 (drop 3 l) in
  if bool_decide (take 3 l = PyStr.to_list "## ")
     && bool_decide (map PyStr.lower_char heading = PyStr.to_list "dependencies")
     && forallb PyStr.is_space (drop 15 l)
  then Some heading else None.

(** [parse_dependencies] (the warning about repeated sections is a log line). *)
Definition parse_dependencies (body : string) (exclude_self : option Z) : gset Z :=
  if decide (body = EmptyString) then ∅
  else
    match head (omap dependencies_heading (Markdown.split_nl (PyStr.to_list body))) with
    | None => ∅
    | Some heading =>
        let section := Markdown.extract_section body (PyStr.of_list heading) in
        let deps := find_refs (PyStr.to_list section) in
        list_to_set (filter (fun d => Some d <> exclude_self) deps)
    end.

(** ** The graph *)

(** The attributes of a [DependencyGraph]. *)
Record DependencyGraph := {
  g_tasks : gmap Z Task;
  g_requested : option (gset Z);
  g_deps : gmap Z (gset Z);
  g_rdeps : gmap Z (gset Z);
}.

(** [self._deps.get(n, set())], [self._rdeps.get(n, set())] *)
Definition deps_of (g : DependencyGraph) (n : Z) : gset Z := default ∅ (g_deps g !! n).
Definition rdeps_of (g : DependencyGraph) (n : Z) : gset Z := default ∅ (g_rdeps g !! n).

Definition known (g : DependencyGraph) : gset Z := dom (g_tasks g).

(** [{int(t.id): t for t in tasks}]: each task with its number. *)
Fixpoint with_ids (tasks : list Task) : outcome (list (Z * Task)) :=
  match tasks with
  | [] => Ret []
  | t :: ts =>
      match PyStr.int_of (task_id t) with
      | None => Raise (ValueError (task_id t))
      | Some i => obind (with_ids ts) (fun l => Ret ((i, t) :: l))
      end
  end.

Section graph.
Context `{!SetOrder Z}.

(** [for dep in deps: self._rdeps[dep].add(tid)] *)
Definition add_rdeps (tid : Z) (deps : gset Z) (rdeps : gmap Z (gset Z)) : gmap Z (gset Z) :=
  foldl (fun rdeps dep => <[dep := {[tid]} ∪ default ∅ (rdeps !! dep)]> rdeps) rdeps (set_iter deps).

(** One iteration of the constructor's loop. *)
Definition add_task (g : DependencyGraph) (it : Z * Task) : DependencyGraph :=
  let '(tid, task) := it in
  let deps := parse_dependencies (task_body task) (Some tid) in
  {| g_tasks := g_tasks g; g_requested := g_requested g;
     g_deps := <[tid := deps]> (g_deps g);
     g_rdeps := add_rdeps tid deps (g_rdeps g) |}.

(** [DependencyGraph.__init__] *)
Definition make_graph (tasks : list Task) (requested : option (gset Z)) : outcome DependencyGraph :=
  obind (with_ids tasks) (fun l =>
    let g := {| g_tasks := foldl (fun m it => <[it.1 := it.2]> m) ∅ l;
                g_requested := requested; g_deps := ∅; g_rdeps := ∅ |} in
    Ret (foldl add_task g l)).

(** [nodes], [requested_issues], [edges] *)
Definition nodes (g : DependencyGraph) : list Z := sorted_set (known g).

Definition requested_issues (g : DependencyGraph) : list Z :=
  match g_requested g with
  | None => nodes g
  | Some req => sorted_set (req ∩ known g)
  end.

Definition edges (g : DependencyGraph) : list (Z * Z) :=
  tid ← sorted_set (dom (g_deps g)); pair tid <$> sorted_set (deps_of g tid).

(** [get_task], [has_task], [get_dependencies], [get_dependents] *)
#[export] Instance depgraph_view : GraphView DependencyGraph := {
  has_task g i := bool_decide (i ∈ known g);
  get_task g i := g_tasks g !! i;
  get_dependencies g i := deps_of g i;
  get_dependents g i := rdeps_of g i;
  graph_nodes g := known g;
}.

(** [_build_in_degree] *)
Definition in_degree_of (g : DependencyGraph) (node_ids : gset Z) (tid : Z) : Z :=
  foldl (fun n dep => if bool_decide (dep ∈ node_ids) then (n + 1)%Z else n) 0%Z
    (set_iter (deps_of g tid)).

Definition build_in_degree (g : DependencyGraph) (node_ids : gset Z) : gmap Z Z :=
  list_to_map ((fun tid => (tid, in_degree_of g node_ids tid)) <$> set_iter node_ids).

(** The initial queue of [_topo_sort]. *)
Definition zero_nodes (in_degree : gmap Z Z) : list Z :=
  sort_by (fun n => [n]) ((filter (fun kd : Z * Z => kd.2 = 0%Z) (map_to_list in_degree)).*1).

(** [_topo_sort]; the fuel is the number of nodes plus one ([topo_sort_spec]). *)
Definition topo_sort (g : DependencyGraph) (node_ids : gset Z) (in_degree : gmap Z Z) : list Z :=
  default [] (Kahn.loop (fun d => bool_decide (d ∈ node_ids)) (fun nid => set_iter (rdeps_of g nid))
    (S (size node_ids)) in_degree (zero_nodes in_degree) []).

(** [class ValidationResult] *)
Record ValidationResult := {
  vr_valid : bool;
  vr_cycle_members : list Z;
  vr_missing_refs : list Z;
}.

(** [validate] *)
Definition validate (g : DependencyGraph) : ValidationResult :=
  let all_ids := known g in
  let missing := map_fold (fun _ deps acc => acc ∪ (deps ∖ all_ids)) (∅ : gset Z) (g_deps g) in
  let in_degree := build_in_degree g all_ids in
  let cycle_members := sorted_set (all_ids ∖ list_to_set (topo_sort g all_ids in_degree)) in
  {| vr_valid := (length cycle_members =? 0)%nat && bool_decide (size missing = 0);
     vr_cycle_members := cycle_members;
     vr_missing_refs := sorted_set missing |}.

(** [_EXCLUDED_FROM_READY] *)
Definition excluded_from_ready (s : TaskState.t) : bool :=
  match s with
  | TaskState.DONE | TaskState.IN_PROGRESS | TaskState.IN_REVIEW | TaskState.HUMAN_ONLY => true
  | _ => false
  end.

(** The classification [get_ready_tasks] uses for a node: the precomputed one,
    or a fresh one. *)
Definition node_suitability (g : DependencyGraph) (suitabilities : gmap Z Suitability)
    (tid : Z) (task : Task) : Suitability :=
  match suitabilities !! tid with
  | Some s => s
  | None => assess_suitability task (Some g) None true
  end.

(** [get_ready_tasks]: the test of its loop, and the list. *)
Definition is_ready_node (g : DependencyGraph) (suitabilities : gmap Z Suitability) (tid : Z) : bool :=
  match g_tasks g !! tid with
  | None => false
  | Some task =>
      if excluded_from_ready (task_state task) then false
      else agent_eligible (mode (node_suitability g suitabilities tid task))
  end.

Definition get_ready_tasks (g : DependencyGraph) (suitabilities : gmap Z Suitability) : list Z :=
  filter (fun tid => is_ready_node g suitabilities tid = true) (nodes g).

(** [to_dict]: the classification of every node, passed on to
    [get_ready_tasks], and the [eligible] flag of the node. *)
Definition node_suitabilities (g : DependencyGraph) : gmap Z Suitability :=
  (fun task => assess_suitability task (Some g) None true) <$> g_tasks g.

Definition node_eligible (g : DependencyGraph) (tid : Z) : bool :=
  match g_tasks g !! tid with
  | None => false
  | Some task =>
      agent_eligible (mode (assess_suitability task (Some g) None true))
      && negb (excluded_from_ready (task_state task))
  end.

(** [_collect_transitive_deps]; the fuel covers one push per dependency. *)
Fixpoint collect_loop (fuel : nat) (g : DependencyGraph) (visited : gset Z) (to_visit : list Z)
    : option (gset Z) :=
  match fuel with
  | 0 => None
  | S fuel =>
      match to_visit with
      | [] => Some visited
      | nid :: to_visit =>
          if bool_decide (nid ∈ visited) then collect_loop fuel g visited to_visit
          else collect_loop fuel g ({[nid]} ∪ visited)
                 (to_visit ++ filter (fun dep => dep ∈ known g) (set_iter (deps_of g nid)))
      end
  end.

Definition collect_fuel (g : DependencyGraph) (issue : Z) : nat :=
  2 + sum_list_with (fun n => size (deps_of g n)) (elements ({[issue]} ∪ known g)).

Definition collect_transitive_deps (g : DependencyGraph) (issue : Z) : gset Z :=
  default ∅ (collect_loop (collect_fuel g issue) g ∅ [issue]).

(** [get_chain] *)
Definition get_chain (g : DependencyGraph) (issue : Z) : list Z :=
  let visited := collect_transitive_deps g issue in
  topo_sort g visited (build_in_degree g visited).

(** [class ParallelGroup] *)
Record ParallelGroup := { pg_tier : nat; pg_task_ids : list Z }.

(** The two inner loops of [get_parallel_groups]. *)
Definition lower_degrees (g : DependencyGraph) (remaining : gset Z) (tier_nodes : list Z)
    (in_degree : gmap Z Z) : gmap Z Z :=
  foldl (fun in_degree nid =>
    foldl (fun in_degree dependent =>
      if bool_decide (dependent ∈ remaining) then alter Z.pred dependent in_degree else in_degree)
      in_degree (set_iter (rdeps_of g nid))) in_degree tier_nodes.

Fixpoint tiers (fuel : nat) (g : DependencyGraph) (in_degree : gmap Z Z) (remaining : gset Z) (tier : nat)
    : list ParallelGroup :=
  match fuel with
  | 0 => []
  | S fuel =>
      if decide (remaining = ∅) then []
      else
        let tier_nodes := sorted_set (filter (fun tid => in_degree !! tid = Some 0%Z) remaining) in
        match tier_nodes with
        | [] => []
        | _ =>
            let remaining := remaining ∖ list_to_set tier_nodes in
            {| pg_tier := tier; pg_task_ids := tier_nodes |}
            :: tiers fuel g (lower_degrees g remaining tier_nodes in_degree) remaining (S tier)
        end
  end.

(** [get_parallel_groups]; every tier removes a node, so the fuel is enough. *)
Definition get_parallel_groups (g : DependencyGraph) : list ParallelGroup :=
  tiers (S (size (known g))) g (build_in_degree g (known g)) (known g) 0.

(** ** Building the graph from the tracker *)

(** [_with_every_open_issue], given what the two listings returned. *)
Definition with_every_open_issue (window open_tasks : list Task) : outcome (list Task) :=
  if bool_decide (open_tasks = []) && existsb (fun t => negb (bool_decide (task_state t = TaskState.DONE))) window
  then Raise (AdapterError "the open issue listing came back empty although the issue window holds open issues")
  else
    obind (with_ids window) (fun w =>
    obind (with_ids open_tasks) (fun o =>
      Ret (window ++ (filter (fun it : Z * Task => it.1 ∉ w.*1) o).*2))).

(** The numbers of the tasks that have dependencies. *)
Definition ids_with_deps (l : list (Z * Task)) : gset Z :=
  list_to_set (filter (fun it : Z * Task => parse_dependencies (task_body it.2) (Some it.1) <> ∅) l).*1.

(** The milestones that still have an open issue. *)
Definition active_milestones (l : list (Z * Task)) : gset string :=
  list_to_set (map (fun it => task_milestone it.2)
    (filter (fun it : Z * Task =>
       task_milestone it.2 <> EmptyString /\ task_state it.2 <> TaskState.DONE) l)).

(** Open issues, closed ones of an active milestone, closed ones with dependencies. *)
Definition kept (l : list (Z * Task)) : list (Z * Task) :=
  let active := active_milestones l in
  let with_deps := ids_with_deps l in
  filter (fun it : Z * Task =>
    task_state it.2 <> TaskState.DONE \/
    (task_milestone it.2 <> EmptyString /\ task_milestone it.2 ∈ active) \/
    it.1 ∈ with_deps) l.

(** [task_map] of the kept tasks, and every dependency they name. *)
Definition task_map_of (l : list (Z * Task)) : gmap Z Task :=
  foldl (fun m it => <[it.1 := it.2]> m) ∅ l.

Definition all_dep_ids (l : list (Z * Task)) : gset Z :=
  ⋃ ((fun it => parse_dependencies (task_body it.2) (Some it.1)) <$> l).

(** The dependencies outside the map are fetched one by one; a fetch that fails
    is [None] and the dependency stays missing. *)
Definition fetch_missing (get_task : Z -> option Task) (missing : gset Z) (m : gmap Z Task)
    : outcome (gmap Z Task) :=
  obind (with_ids (omap get_task (set_iter missing))) (fun l =>
    Ret (foldl (fun m it => <[it.1 := it.2]> m) m l)).

(** What [build_dependency_graph] computes from the answers of the adapter. *)
Definition assemble (window open_tasks : list Task) (get_task : Z -> option Task) (milestone : string)
    : outcome DependencyGraph :=
  obind (with_every_open_issue window open_tasks) (fun tasks =>
  obind (with_ids tasks) (fun l =>
    let l := kept l in
    let requested : option (gset Z) :=
      if decide (milestone = EmptyString) then None else Some (list_to_set l.*1) in
    let m := task_map_of l in
    obind (fetch_missing get_task (all_dep_ids l ∖ dom m) m) (fun m =>
      make_graph (map_to_list m).*2 requested))).

End graph.

(** ** The cache

    [_graph_cache] and [_graph_cache_generation] are module globals that builds
    and invalidations interleave on: a build gives up control at each request to
    the tracker. A build is two atomic handlers, the code before its first await
    and the code after its last one. Times are integers of a monotonic clock. *)
Section cache.
Context {G : Type}.

Record Cache := {
  c_cache : gmap string (Z * G);
  c_generation : gmap string Z;
}.

(** [_GRAPH_CACHE_TTL]: 180 seconds, in milliseconds. *)
Definition GRAPH_CACHE_TTL : Z := 180000.

(** What the first half of a build leaves in its local variables. *)
Inductive started :=
  | Cached (g : G)
  | Fetching (cacheable : bool) (generation : Z).

(** [build_dependency_graph] up to its first await. *)
Definition build_start (now : Z) (repo_key milestone : string) (c : Cache) : Cache * started :=
  let cacheable := bool_decide (milestone = EmptyString) && negb (bool_decide (repo_key = EmptyString)) in
  if cacheable then
    let generation := default 0%Z (c_generation c !! repo_key) in
    let c := {| c_cache := c_cache c;
                c_generation := <[repo_key := generation]> (c_generation c) |} in
    match c_cache c !! repo_key with
    | Some (at_, g) =>
        if Z.ltb (now - at_) GRAPH_CACHE_TTL then (c, Cached g)
        else (c, Fetching true generation)
    | None => (c, Fetching true generation)
    end
  else (c, Fetching false 0).

(** [build_dependency_graph] after its last await. *)
Definition build_finish (now : Z) (repo_key : string) (cacheable : bool) (generation : Z) (g : G)
    (c : Cache) : Cache :=
  if cacheable && bool_decide (default 0%Z (c_generation c !! repo_key) = generation)
  then {| c_cache := <[repo_key := (now, g)]> (c_cache c); c_generation := c_generation c |}
  else c.

(** One key of the loop of [invalidate_graph_cache]. *)
Definition invalidate_key (c : Cache) (key : string) : Cache :=
  {| c_cache := delete key (c_cache c);
     c_generation := <[key := (default 0 (c_generation c !! key) + 1)%Z]> (c_generation c) |}.

(** [invalidate_graph_cache] *)
Definition invalidate_graph_cache (repo : string) (c : Cache) : Cache :=
  let keys := if decide (repo = EmptyString)
              then elements (dom (c_cache c) ∪ dom (c_generation c)) else [repo] in
  foldl invalidate_key c keys.

(** The event loop: any number of builds in flight, each with its own locals. *)
Record flight := { f_repo : string; f_cacheable : bool; f_generation : Z }.

Record loop_state := {
  l_cache : Cache;
  l_flights : gmap nat flight;
}.

Inductive event :=
  | EStart (b : nat) (now : Z) (repo milestone : string)
  | EFinish (b : nat) (now : Z) (g : G)
  | EFail (b : nat)
  | EInvalidate (repo : string).

(** One atomic step of the event loop; [None] is an event that cannot happen: a
    build identity in use, or the end of a build that is not in flight. *)
Definition loop_step (s : loop_state) (e : event) : option loop_state :=
  match e with
  | EStart b now repo milestone =>
      match l_flights s !! b with
      | Some _ => None
      | None =>
          let '(c, r) := build_start now repo milestone (l_cache s) in
          match r with
          | Cached _ => Some {| l_cache := c; l_flights := l_flights s |}
          | Fetching cacheable generation =>
              Some {| l_cache := c;
                      l_flights := <[b := {| f_repo := repo; f_cacheable := cacheable;
                                             f_generation := generation |}]> (l_flights s) |}
          end
      end
  | EFinish b now g =>
      match l_flights s !! b with
      | None => None
      | Some f =>
          Some {| l_cache := build_finish now (f_repo f) (f_cacheable f) (f_generation f) g (l_cache s);
                  l_flights := delete b (l_flights s) |}
      end
  | EFail b =>
      match l_flights s !! b with
      | None => None
      | Some _ => Some {| l_cache := l_cache s; l_flights := delete b (l_flights s) |}
      end
  | EInvalidate repo =>
      Some {| l_cache := invalidate_graph_cache repo (l_cache s); l_flights := l_flights s |}
  end.

Definition loop_init : loop_state :=
  {| l_cache := {| c_cache := ∅; c_generation := ∅ |}; l_flights := ∅ |}.

Definition loop_run (trace : list event) : option loop_state :=
  foldl (fun s e => s ≫= fun s => loop_step s e) (Some loop_init) trace.
End cache.
Arguments Cache : clear implicits.
Arguments event : clear implicits.
Arguments loop_state : clear implicits.
