(* ===== verification/DepGraphSpec.v ===== *)
(** * The dependency graph: theorems

    Topological sorting, cycle detection, tiers, chains and readiness of
    [DepGraph], for every iteration order of the sets involved; the invariant of
    the graph cache under interleaved builds and invalidations. *)

From stdpp Require Import base gmap strings list fin_maps sorting relations.
From S2P Require Import Prelude Priority Kahn Tracker Suitability Markdown DepGraph.

Section graph.
Context `{!SetOrder Z}.
Implicit Types (g : DependencyGraph) (N : gset Z) (n d : Z).

(** ** Well-formed graphs *)

(** The two adjacency maps are converse to each other, and a node is exactly a
    key of [_deps]. *)
Record wf g : Prop := {
  wf_converse : forall a b, a ∈ rdeps_of g b <-> b ∈ deps_of g a;
  wf_dom : dom (g_deps g) = known g;
  wf_parsed : forall tid t, g_tasks g !! tid = Some t ->
    deps_of g tid = parse_dependencies (task_body t) (Some tid);
}.

(** [d] depends on [n], both in [N]. *)
Definition depends g N n d : Prop := n ∈ N /\ d ∈ N /\ n ∈ deps_of g d.

Lemma add_rdeps_lookup tid (deps : gset Z) (rdeps : gmap Z (gset Z)) a b :
  a ∈ default ∅ (add_rdeps tid deps rdeps !! b) <->
  a ∈ default ∅ (rdeps !! b) \/ (a = tid /\ b ∈ deps).
Proof.
  unfold add_rdeps. rewrite <- (elem_of_set_iter deps b).
  revert rdeps. induction (set_iter deps) as [|x l IH]; intros rdeps; cbn [foldl].
  - split; [by left|]. intros [|[_ Hb]]; [done|by inversion Hb].
  - rewrite IH, elem_of_cons. destruct (decide (b = x)) as [->|Hne].
    + rewrite lookup_insert_eq. cbn. set_solver.
    + rewrite lookup_insert_ne by done. set_solver.
Qed.

Lemma add_tasks_spec l g :
  NoDup l.*1 -> (forall i, i ∈ l.*1 -> i ∉ dom (g_deps g)) ->
  (forall a b, a ∈ rdeps_of g b <-> b ∈ deps_of g a) ->
  let g' := foldl add_task g l in
  g_tasks g' = g_tasks g /\ g_requested g' = g_requested g /\
  (forall a b, a ∈ rdeps_of g' b <-> b ∈ deps_of g' a) /\
  dom (g_deps g') = dom (g_deps g) ∪ list_to_set l.*1 /\
  (forall i t, (i, t) ∈ l -> deps_of g' i = parse_dependencies (task_body t) (Some i)) /\
  (forall i, i ∉ l.*1 -> deps_of g' i = deps_of g i).
Proof.
  revert g. induction l as [|[i t] l IH]; intros g Hnd Hdom Hconv g'.
  { cbn in *. split_and!; [done..|set_solver|by inversion 1|done]. }
  cbn in Hnd. apply NoDup_cons in Hnd as [Hi Hnd].
  set (g1 := add_task g (i, t)).
  assert (i ∉ dom (g_deps g)) as Hid by (apply Hdom; cbn; constructor).
  assert (forall j, deps_of g1 j = if decide (j = i)
    then parse_dependencies (task_body t) (Some i) else deps_of g j) as Hdeps1.
  { intros j. unfold deps_of, g1. cbn [add_task g_deps].
    case_decide as E; [subst; by rewrite lookup_insert_eq|by rewrite lookup_insert_ne]. }
  destruct (IH g1) as (IH1 & IH2 & IH3 & IH4 & IH5 & IH6).
  - done.
  - intros j Hj. unfold g1. cbn [add_task g_deps]. rewrite dom_insert_L.
    assert (j <> i) by (intros ->; done). specialize (Hdom j). cbn in Hdom.
    rewrite elem_of_cons in Hdom. set_solver.
  - intros a b. rewrite Hdeps1. unfold rdeps_of, g1. cbn [add_task g_rdeps].
    rewrite add_rdeps_lookup. fold (rdeps_of g b). rewrite Hconv.
    case_decide as E; [|tauto]. subst a.
    assert (deps_of g i = ∅) as ->.
    { unfold deps_of. by rewrite not_elem_of_dom in Hid; rewrite Hid. }
    set_solver.
  - change g' with (foldl add_task g1 l). split_and!; [done|done|done|..].
    + rewrite IH4. unfold g1. cbn [add_task g_deps]. rewrite dom_insert_L. cbn. set_solver.
    + intros j t' [[= -> ->]|Hin]%elem_of_cons; [|by apply IH5].
      rewrite IH6, Hdeps1 by done. by rewrite decide_True.
    + intros j Hj. cbn in Hj. apply not_elem_of_cons in Hj as [Hji Hj].
      by rewrite IH6, Hdeps1, decide_False.
Qed.

Lemma with_ids_Ret tasks l :
  with_ids tasks = Ret l ->
  l.*2 = tasks /\ l.*1 = omap (fun t => PyStr.int_of (task_id t)) tasks /\
  forall i t, (i, t) ∈ l -> PyStr.int_of (task_id t) = Some i.
Proof.
  revert l. induction tasks as [|t ts IH]; intros l; cbn.
  - intros [= <-]. split; [done|]. split; [done|]. by inversion 1.
  - destruct (PyStr.int_of (task_id t)) as [i|] eqn:E; [|done].
    destruct (with_ids ts) as [l'|] eqn:El; [|done]. intros [= <-].
    destruct (IH l' eq_refl) as (<- & IH1 & IH2). cbn. rewrite IH1.
    split; [done|]. split; [done|]. intros j t' [[= -> ->]|Hin]%elem_of_cons; [done|by apply IH2].
Qed.

Lemma insert_tasks_lookup l (m : gmap Z Task) i t :
  NoDup l.*1 ->
  foldl (fun m it => <[it.1 := it.2]> m) m l !! i = Some t <->
  (i, t) ∈ l \/ (i ∉ l.*1 /\ m !! i = Some t).
Proof.
  revert m. induction l as [|[j u] l IH]; intros m Hnd; cbn.
  - split; [right; split; [by inversion 1|done]|]. intros [Hin|[_ ?]]; [by inversion Hin|done].
  - cbn in Hnd. apply NoDup_cons in Hnd as [Hj Hnd]. rewrite IH by done. cbn.
    rewrite !elem_of_cons. destruct (decide (i = j)) as [->|Hne].
    + rewrite lookup_insert_eq. split.
      * intros [Hin|[_ [= ->]]]; [|by left; left]. destruct Hj. by eapply list_elem_of_fmap_2' with (x := (j, t)).
      * intros [[[= ->]|Hin]|[Hn _]]; [by right|by left|]. destruct Hn. by left.
    + rewrite lookup_insert_ne by done. naive_solver.
Qed.

(** The constructor fails exactly on an id that is not a number; otherwise, for
    distinct ids, its nodes are the tasks and its maps are well formed. *)
Lemma make_graph_wf tasks requested g :
  make_graph tasks requested = Ret g ->
  NoDup (omap (fun t => PyStr.int_of (task_id t)) tasks) ->
  wf g /\ g_requested g = requested /\
  (forall i t, g_tasks g !! i = Some t <-> t ∈ tasks /\ PyStr.int_of (task_id t) = Some i).
Proof.
  unfold make_graph. destruct (with_ids tasks) as [l|] eqn:El; [|done]. cbn [obind].
  intros [= <-] Hnd. destruct (with_ids_Ret _ _ El) as (H2 & H1 & Hid). rewrite <- H1 in Hnd.
  set (g0 := {| g_tasks := _; g_requested := _; g_deps := _; g_rdeps := _ |}).
  destruct (add_tasks_spec l g0) as (E1 & E2 & E3 & E4 & E5 & E6).
  - done.
  - intros i _. cbn. set_solver.
  - intros a b. unfold rdeps_of, deps_of. cbn. rewrite !lookup_empty. set_solver.
  -
    assert (forall i t, g_tasks (foldl add_task g0 l) !! i = Some t <-> (i, t) ∈ l) as Hlook.
    { intros i t. rewrite E1. cbn. rewrite insert_tasks_lookup by done. rewrite lookup_empty. naive_solver. }
    split; [split|].
    + done.
    + rewrite E4. apply set_eq. intros i. unfold known. rewrite elem_of_dom.
      rewrite elem_of_union, elem_of_list_to_set, list_elem_of_fmap. split.
      * intros [Hin|([j t] & -> & Hin)]; [clear -Hin; set_solver|]. exists t. by apply Hlook.
      * intros [t Ht%Hlook]. right. by exists (i, t).
    + intros i t Ht%Hlook. by apply E5.
    + split; [done|]. intros i t. rewrite Hlook. split.
      * intros Hin. split; [|by apply Hid]. rewrite <- H2. by apply (list_elem_of_fmap_2 snd) in Hin.
      * intros [Ht Hi]. rewrite <- H2 in Ht. apply list_elem_of_fmap in Ht as ([j u] & -> & Hin).
        cbn in Hi. rewrite (Hid _ _ Hin) in Hi. by injection Hi as ->.
Qed.

(** ** Topological sorting *)

Lemma build_in_degree_lookup g N d :
  build_in_degree g N !! d = if decide (d ∈ N) then Some (in_degree_of g N d) else None.
Proof.
  unfold build_in_degree. case_decide as Hd.
  - apply elem_of_list_to_map_1.
    + rewrite <- list_fmap_compose. rewrite (list_fmap_ext _ id) by done.
      rewrite list_fmap_id. apply NoDup_set_iter.
    + apply list_elem_of_fmap. exists d. split; [done|]. by apply elem_of_set_iter.
  - apply not_elem_of_list_to_map_1. rewrite <- list_fmap_compose.
    intros (x & -> & Hx)%list_elem_of_fmap. cbn in Hd. by apply elem_of_set_iter in Hx.
Qed.

Lemma count_fold (P : Z -> Prop) `{forall x, Decision (P x)} l k :
  foldl (fun n x => if bool_decide (P x) then (n + 1)%Z else n) k l = (k + Z.of_nat (length (filter P l)))%Z.
Proof.
  revert k. induction l as [|x l IH]; intros k; cbn [foldl]; [cbn; lia|].
  rewrite IH, filter_cons. case_bool_decide; case_decide; try done; cbn [length]; lia.
Qed.

Lemma in_degree_of_size g N d : in_degree_of g N d = Z.of_nat (size (deps_of g d ∩ N)).
Proof.
  unfold in_degree_of. rewrite (count_fold (fun x => x ∈ N)), Z.add_0_l. f_equal.
  rewrite <- (size_list_to_set (C := gset Z) (filter (fun x => x ∈ N) (set_iter (deps_of g d)))).
  - f_equal. apply set_eq. intros x.
    rewrite elem_of_list_to_set, list_elem_of_filter, elem_of_set_iter. set_solver.
  - apply NoDup_filter, NoDup_set_iter.
Qed.

Notation keep N := (fun d : Z => bool_decide (d ∈ N)).
Notation adj g := (fun nid : Z => set_iter (rdeps_of g nid)).

Lemma elem_of_succs g N n d :
  wf g -> d ∈ Kahn.succs (keep N) (adj g) n <-> d ∈ N /\ n ∈ deps_of g d.
Proof.
  intros Hwf. unfold Kahn.succs.
  rewrite list_elem_of_filter, bool_decide_eq_true, elem_of_set_iter, (wf_converse g Hwf). done.
Qed.

Lemma edge_depends g N n d : wf g -> Kahn.edge (keep N) (adj g) N n d <-> depends g N n d.
Proof. intros Hwf. unfold Kahn.edge, depends. rewrite elem_of_succs by done. tauto. Qed.

Lemma occ_NoDup (l : list Z) d : NoDup l -> Kahn.occ d l = if decide (d ∈ l) then 1 else 0.
Proof.
  induction 1 as [|e l He Hl IH]; [done|]. rewrite Kahn.occ_cons, IH.
  destruct (decide (d = e)) as [->|Hne].
  - rewrite decide_False by done. by rewrite decide_True by constructor.
  - destruct (decide (d ∈ l)); [rewrite decide_True|rewrite decide_False]; try done; set_solver.
Qed.

Lemma sum_indicator (P : Z -> Prop) `{forall x, Decision (P x)} l :
  sum_list_with (fun n => if decide (P n) then 1 else 0) l = length (filter P l).
Proof. induction l as [|x l IH]; [done|]. cbn [sum_list_with]. rewrite filter_cons, IH. by case_decide. Qed.

Lemma pending_in_degree g N d :
  wf g -> d ∈ N ->
  in_degree_of g N d = Z.of_nat (Kahn.pending (keep N) (adj g) N [] d).
Proof.
  intros Hwf Hd. rewrite in_degree_of_size. f_equal. unfold Kahn.pending.
  rewrite (Kahn.sum_list_ext _ (fun n => if decide (n ∈ deps_of g d) then 1 else 0)).
  - rewrite (sum_indicator (fun n => n ∈ deps_of g d)).
    rewrite <- (size_list_to_set (C := gset Z) (filter (fun x => x ∈ deps_of g d) (elements N)))
      by apply NoDup_filter, NoDup_elements.
    f_equal. apply set_eq. intros x.
    rewrite elem_of_list_to_set, list_elem_of_filter, elem_of_elements. set_solver.
  - intros n Hn. rewrite decide_False by (by inversion 1).
    rewrite occ_NoDup by apply NoDup_filter, NoDup_set_iter.
    pose proof (elem_of_succs g N n d Hwf) as E.
    destruct (decide (n ∈ deps_of g d)); [rewrite decide_True|rewrite decide_False]; tauto.
Qed.

Lemma elem_of_zero_nodes (m : gmap Z Z) n : n ∈ zero_nodes m <-> m !! n = Some 0%Z.
Proof.
  unfold zero_nodes. rewrite sort_by_perm, list_elem_of_fmap. split.
  - intros ([k v] & -> & [Hv Hin]%list_elem_of_filter). cbn in *. subst.
    by apply elem_of_map_to_list in Hin.
  - intros Hn. exists (n, 0%Z). split; [done|]. apply list_elem_of_filter.
    split; [done|]. by apply elem_of_map_to_list.
Qed.

Lemma NoDup_zero_nodes (m : gmap Z Z) : NoDup (zero_nodes m).
Proof.
  unfold zero_nodes. rewrite sort_by_perm.
  eapply sublist_NoDup; [apply (NoDup_fst_map_to_list m)|]. apply fmap_sublist, sublist_filter.
Qed.

(** [_topo_sort] on the in-degrees of [_build_in_degree] returns a topological
    order of [N]. *)
Lemma topo_sort_spec g N :
  wf g -> Kahn.topological (keep N) (adj g) N (topo_sort g N (build_in_degree g N)).
Proof.
  intros Hwf.
  destruct (Kahn.loop_total (keep N) (adj g) N) with
    (fuel := S (size N)) (in_degree := build_in_degree g N)
    (queue := zero_nodes (build_in_degree g N)) (result := @nil Z) as (r & E & Hr).
  - intros n d _ Hd%elem_of_succs; [|done]. by destruct Hd.
  - apply Kahn.inv_init.
    + intros d Hd. rewrite build_in_degree_lookup, decide_True by done.
      by rewrite pending_in_degree.
    + apply NoDup_zero_nodes.
    + intros d. rewrite elem_of_zero_nodes, build_in_degree_lookup. case_decide; [tauto|split; [done|tauto]].
  - cbn. lia.
  - unfold topo_sort. by rewrite E.
Qed.

(** ** Validation *)

(** The transitive dependency relation on the nodes of [N]: [before n d] when [n]
    must be done before [d]. *)
Definition before g N : relation Z := tc (depends g N).

Lemma tc_edge g N n d :
  wf g -> tc (Kahn.edge (keep N) (adj g) N) n d <-> before g N n d.
Proof.
  intros Hwf. split; induction 1 as [x y E|x y z E _ IH].
  - by apply tc_once, edge_depends.
  - eapply tc_l; [by apply edge_depends|done].
  - by apply tc_once, edge_depends.
  - eapply tc_l; [by apply edge_depends|done].
Qed.

Lemma rtc_edge g N n d :
  wf g -> rtc (Kahn.edge (keep N) (adj g) N) n d <-> rtc (depends g N) n d.
Proof.
  intros Hwf. split; induction 1 as [x|x y z E _ IH]; try done.
  - eapply rtc_l; [by apply edge_depends|done].
  - eapply rtc_l; [by apply edge_depends|done].
Qed.

Lemma topo_sort_left_out g N d :
  wf g -> d ∈ N ->
  d ∉ topo_sort g N (build_in_degree g N) <->
  exists c, before g N c c /\ rtc (depends g N) c d.
Proof.
  intros Hwf Hd. rewrite (Kahn.topo_left_out _ _ _ _ (topo_sort_spec g N Hwf) d Hd).
  split; intros (c & Hc & Hcd); exists c; (split; [by apply tc_edge|by apply rtc_edge]).
Qed.

Lemma elem_of_missing g (x : Z) (m : gmap Z (gset Z)) :
  x ∈ map_fold (fun _ deps acc => acc ∪ (deps ∖ known g)) (∅ : gset Z) m <->
  x ∉ known g /\ exists n deps, m !! n = Some deps /\ x ∈ deps.
Proof.
  induction m as [|n deps m Hn Hfst IH] using map_first_key_ind.
  - rewrite map_fold_empty. setoid_rewrite lookup_empty. set_solver.
  - rewrite map_fold_insert_first_key by done. rewrite elem_of_union, IH. clear IH.
    rewrite elem_of_difference. split.
    + intros [[Hx (n' & deps' & Hn' & Hd)]|[Hd Hx]]; (split; [done|]).
      * exists n', deps'. rewrite lookup_insert_ne; [done|]. intros ->. congruence.
      * exists n, deps. by rewrite lookup_insert_eq.
    + intros [Hx (n' & deps' & Hn' & Hd)]. apply lookup_insert_Some in Hn' as [[-> ->]|[Hne Hn']].
      * by right.
      * left. split; [done|]. by exists n', deps'.
Qed.

Lemma deps_of_lookup g n x : x ∈ deps_of g n <-> exists deps, g_deps g !! n = Some deps /\ x ∈ deps.
Proof.
  unfold deps_of. destruct (g_deps g !! n) as [deps|]; cbn; [|set_solver].
  split; [by exists deps|by intros (? & [= <-] & ?)].
Qed.

Lemma elem_of_missing_refs g x :
  x ∈ vr_missing_refs (validate g) <-> x ∉ known g /\ exists n, x ∈ deps_of g n.
Proof.
  unfold validate. cbn [vr_missing_refs]. rewrite elem_of_sorted_set, elem_of_missing.
  setoid_rewrite deps_of_lookup. naive_solver.
Qed.

Lemma elem_of_cycle_members g d :
  wf g -> d ∈ vr_cycle_members (validate g) <->
  d ∈ known g /\ exists c, before g (known g) c c /\ rtc (depends g (known g)) c d.
Proof.
  intros Hwf. unfold validate. cbn [vr_cycle_members].
  rewrite elem_of_sorted_set, elem_of_difference, elem_of_list_to_set. split.
  - intros [Hd Hn]. split; [done|]. by apply topo_sort_left_out.
  - intros [Hd Hc]. split; [done|]. by apply topo_sort_left_out.
Qed.

Lemma before_in g N x y : before g N x y -> x ∈ N /\ y ∈ N.
Proof. induction 1 as [x y (? & ? & _)|x y z (? & _) _ [_ ?]]; done. Qed.

Lemma validate_valid_iff g :
  wf g -> vr_valid (validate g) = true <->
  (forall n d, d ∈ deps_of g n -> d ∈ known g) /\ (forall c, ~ before g (known g) c c).
Proof.
  intros Hwf.
  assert (vr_valid (validate g) = true <->
    vr_cycle_members (validate g) = [] /\ vr_missing_refs (validate g) = []) as ->.
  { unfold validate. cbn [vr_valid vr_cycle_members vr_missing_refs].
    set (X := map_fold _ _ _). rewrite andb_true_iff, Nat.eqb_eq, length_zero_iff_nil.
    rewrite bool_decide_eq_true, sorted_set_nil, sorted_set_nil, size_empty_iff.
    split; intros [-> ?]; split; try done; by apply leibniz_equiv_iff. }
  split.
  - intros [Hc Hm]. split.
    + intros n d Hd. destruct (decide (d ∈ known g)) as [|Hk]; [done|].
      assert (d ∈ vr_missing_refs (validate g)) as Hin by (apply elem_of_missing_refs; eauto).
      rewrite Hm in Hin. by inversion Hin.
    + intros c Hcc. assert (c ∈ vr_cycle_members (validate g)) as Hin.
      { apply elem_of_cycle_members; [done|]. split; [by eapply before_in|]. by exists c. }
      rewrite Hc in Hin. by inversion Hin.
  - intros [Hk Hac]. split; apply elem_of_nil_inv; intros x Hx.
    + apply elem_of_cycle_members in Hx as (_ & c & Hc & _); [|done]. by eapply Hac.
    + apply elem_of_missing_refs in Hx as (Hx & n & Hn). by apply Hx, (Hk n).
Qed.

(** ** Parallel groups *)

Lemma lower_degrees_lookup g (remaining : gset Z) (l : list Z) (m : gmap Z Z) d v :
  wf g -> d ∈ remaining -> m !! d = Some v ->
  lower_degrees g remaining l m !! d =
  Some (v - Z.of_nat (length (filter (fun n => n ∈ deps_of g d) l)))%Z.
Proof.
  intros Hwf Hd. revert m v. unfold lower_degrees.
  induction l as [|n l IH]; intros m v Hm; cbn [foldl].
  { rewrite Hm. f_equal. cbn. lia. }
  set (inner := foldl _ m _).
  assert (inner !! d = Some (if decide (n ∈ deps_of g d) then v - 1 else v)%Z) as E.
  { assert (forall ds (m : gmap Z Z) v, NoDup ds -> m !! d = Some v ->
      foldl (fun in_degree dependent =>
        if bool_decide (dependent ∈ remaining) then alter Z.pred dependent in_degree else in_degree)
        m ds !! d = Some (if decide (d ∈ ds) then v - 1 else v)%Z) as Hinner.
    { clear -Hd. induction ds as [|x ds IH]; intros m v Hnd Hm; cbn [foldl]; [done|].
      apply NoDup_cons in Hnd as [Hx Hnd]. destruct (decide (d = x)) as [<-|Hne].
      - rewrite bool_decide_eq_true_2 by done.
        rewrite (IH _ (Z.pred v)); [|done|by rewrite lookup_alter_eq, Hm].
        rewrite decide_False by done. by rewrite decide_True by constructor.
      - rewrite (IH _ v); [|done|case_bool_decide; [by rewrite lookup_alter_ne|done]].
        f_equal. destruct (decide (d ∈ ds)); [rewrite decide_True|rewrite decide_False];
          first [done|rewrite elem_of_cons; tauto]. }
    unfold inner. rewrite (Hinner _ _ v) by (done || apply NoDup_set_iter). f_equal.
    pose proof (wf_converse g Hwf d n) as Hc. rewrite <- (elem_of_set_iter (rdeps_of g n)) in Hc.
    repeat case_decide; first [done|tauto]. }
  rewrite (IH _ _ E), filter_cons. f_equal. case_decide; cbn [length]; lia.
Qed.

(** [d] is in the group at position [i]. *)
Definition in_group (gs : list ParallelGroup) (i : nat) (d : Z) : Prop :=
  exists grp, gs !! i = Some grp /\ d ∈ pg_task_ids grp.

(** The groups are numbered from [t], non-empty, sorted and disjoint; a node of
    [remaining] is in the group after the last of its dependencies there, and
    only a node with an unplaced dependency is left out. *)
Record groups_of g (remaining : gset Z) (t : nat) (gs : list ParallelGroup) : Prop := {
  go_tier : forall i grp, gs !! i = Some grp ->
    pg_tier grp = t + i /\ pg_task_ids grp <> [] /\
    pg_task_ids grp = sorted_set (list_to_set (pg_task_ids grp));
  go_in : forall i d, in_group gs i d -> d ∈ remaining;
  go_once : forall i j d, in_group gs i d -> in_group gs j d -> i = j;
  go_after : forall i d n, in_group gs i d -> n ∈ deps_of g d -> n ∈ remaining ->
    exists j, j < i /\ in_group gs j n;
  go_tight : forall i d, in_group gs (S i) d -> exists n, n ∈ deps_of g d /\ in_group gs i n;
  go_complete : forall d, d ∈ remaining ->
    (forall n, n ∈ deps_of g d -> n ∈ remaining -> exists i, in_group gs i n) ->
    exists i, in_group gs i d;
}.

Lemma in_group_cons grp gs i d :
  in_group (grp :: gs) i d <->
  match i with 0 => d ∈ pg_task_ids grp | S i => in_group gs i d end.
Proof. unfold in_group. destruct i; cbn; naive_solver. Qed.

Lemma groups_of_cons g remaining (tier : gset Z) t gs :
  (forall d, d ∈ tier <-> d ∈ remaining /\ forall n, n ∈ deps_of g d -> n ∉ remaining) ->
  tier <> ∅ ->
  groups_of g (remaining ∖ tier) (S t) gs ->
  groups_of g remaining t ({| pg_tier := t; pg_task_ids := sorted_set tier |} :: gs).
Proof.
  intros Ht Hne [G1 G2 G3 G4 G5 G6].
  assert (forall d, d ∈ sorted_set tier <-> d ∈ tier) as Hin by (intros; apply elem_of_sorted_set).
  split.
  - intros [|i] grp; cbn.
    + intros [= <-]. cbn. split; [lia|]. split; [by rewrite sorted_set_nil|].
      f_equal. apply set_eq. intros x. by rewrite elem_of_list_to_set, elem_of_sorted_set.
    + intros Hi. destruct (G1 _ _ Hi) as [-> ?]. split; [lia|done].
  - intros [|i] d; rewrite in_group_cons; cbn; [rewrite Hin, Ht; tauto|].
    intros Hd%G2. set_solver.
  - intros [|i] [|j] d; rewrite !in_group_cons; cbn; [done|..].
    + intros Hd Hj%G2. rewrite Hin in Hd. set_solver.
    + intros Hj%G2 Hd. rewrite Hin in Hd. set_solver.
    + intros Hi Hj. f_equal. by eapply G3.
  - intros [|i] d n; rewrite in_group_cons; cbn.
    + rewrite Hin, Ht. intros [_ Hd] Hn Hr. by destruct (Hd n).
    + intros Hd Hn Hr. destruct (decide (n ∈ tier)) as [Hnt|Hnt].
      * exists 0. split; [lia|]. rewrite in_group_cons. cbn. by apply Hin.
      * destruct (G4 i d n) as (j & Hj & Hg); [done|done|set_solver|].
        exists (S j). split; [lia|]. by rewrite in_group_cons.
  - intros [|i] d; rewrite in_group_cons.
    + intros Hd. pose proof (G2 _ _ Hd) as Hr.
      destruct (decide (deps_of g d ∩ remaining = ∅)) as [Hz|Hz].
      { assert (d ∈ tier) by (apply Ht; set_solver). set_solver. }
      apply set_choose_L in Hz as [n Hn]. exists n. split; [set_solver|].
      rewrite in_group_cons. cbn. apply Hin. destruct (decide (n ∈ tier)) as [|Hnt]; [done|].
      destruct (G4 0 d n) as (j & Hj & _); [done|set_solver|set_solver|lia].
    + intros Hd%G5. setoid_rewrite in_group_cons. done.
  - intros d Hd Hall. destruct (decide (d ∈ tier)) as [Hdt|Hdt].
    { exists 0. rewrite in_group_cons. cbn. by apply Hin. }
    destruct (G6 d) as [i Hi]; [set_solver| |by exists (S i); rewrite in_group_cons].
    intros n Hn Hr. destruct (Hall n Hn) as [[|i] Hi]; [set_solver| |].
    + rewrite in_group_cons in Hi. cbn in Hi. rewrite Hin in Hi. set_solver.
    + rewrite in_group_cons in Hi. by exists i.
Qed.

Lemma tiers_spec g fuel (in_degree : gmap Z Z) (remaining : gset Z) t :
  wf g ->
  (forall d, d ∈ remaining -> in_degree !! d = Some (Z.of_nat (size (deps_of g d ∩ remaining)))) ->
  size remaining < fuel ->
  groups_of g remaining t (tiers fuel g in_degree remaining t).
Proof.
  intros Hwf. revert in_degree remaining t.
  induction fuel as [|fuel IH]; intros in_degree remaining t Hdeg Hsize; [lia|]. cbn [tiers].
  assert (forall R, (forall d, d ∈ R -> exists n, n ∈ deps_of g d /\ n ∈ R) -> groups_of g R t []) as Hnil.
  { intros R HR. split; unfold in_group; try naive_solver.
    intros d Hd Hall. destruct (HR d Hd) as (n & Hn & HnR). destruct (Hall n Hn HnR) as (i & ? & [=] & _). }
  case_decide as He; [apply Hnil; set_solver|].
  set (tier := filter (fun tid => in_degree !! tid = Some 0%Z) remaining).
  assert (forall d, d ∈ tier <-> d ∈ remaining /\ forall n, n ∈ deps_of g d -> n ∉ remaining) as Ht.
  { intros d. unfold tier. rewrite elem_of_filter. split.
    - intros [H0 Hd]. split; [done|]. rewrite Hdeg in H0 by done. injection H0 as H0.
      assert (size (deps_of g d ∩ remaining) = 0) as Hz%size_empty_inv by lia. set_solver.
    - intros [Hd Hn]. split; [|done]. rewrite Hdeg by done.
      replace (deps_of g d ∩ remaining) with (∅ : gset Z) by set_solver. done. }
  destruct (sorted_set tier) as [|x l] eqn:Es.
  { apply Hnil. intros d Hd. apply sorted_set_nil in Es.
    destruct (decide (deps_of g d ∩ remaining = ∅)) as [Hz|Hz].
    - assert (d ∈ tier) by (apply Ht; set_solver). set_solver.
    - apply set_choose_L in Hz as [n Hn]. exists n. set_solver. }
  rewrite <- Es. assert (list_to_set (sorted_set tier) = tier) as El.
  { apply set_eq. intros y. by rewrite elem_of_list_to_set, elem_of_sorted_set. }
  rewrite El. assert (tier <> ∅) as Hne by (intros E; apply sorted_set_nil in E; congruence).
  apply groups_of_cons; [done..|]. apply IH.
  - intros d Hd. rewrite (lower_degrees_lookup _ _ _ _ _ _ Hwf Hd (Hdeg d ltac:(set_solver))).
    f_equal. rewrite <- (size_list_to_set (C := gset Z) (filter (fun n => n ∈ deps_of g d) (sorted_set tier)))
      by apply NoDup_filter, NoDup_sorted_set.
    set (S1 := list_to_set _ : gset Z).
    assert (deps_of g d ∩ remaining = S1 ∪ (deps_of g d ∩ (remaining ∖ tier))) as ->.
    { apply set_eq. intros y. unfold S1.
      rewrite elem_of_union, elem_of_list_to_set, list_elem_of_filter, elem_of_sorted_set.
      destruct (decide (y ∈ tier)) as [Hy|]; [apply Ht in Hy as Hy'|]; set_solver. }
    rewrite size_union; [lia|]. intros y. unfold S1.
    rewrite elem_of_list_to_set, list_elem_of_filter, elem_of_sorted_set. set_solver.
  - apply set_choose_L in Hne as [y Hy].
    assert (remaining ∖ tier ⊂ remaining) as Hlt%subset_size; [|lia].
    split; [set_solver|]. intros Hs. specialize (Hs y). apply Ht in Hy as Hy'. set_solver.
Qed.

Lemma parallel_groups_of g : wf g -> groups_of g (known g) 0 (get_parallel_groups g).
Proof.
  intros Hwf. apply tiers_spec; [done| |lia]. intros d Hd.
  by rewrite build_in_degree_lookup, decide_True, in_degree_of_size.
Qed.

(** The nodes in a group are the nodes of the topological order. *)
Lemma in_group_topo g d :
  wf g -> d ∈ known g ->
  (exists i, in_group (get_parallel_groups g) i d) <-> d ∉ vr_cycle_members (validate g).
Proof.
  intros Hwf Hd. pose proof (parallel_groups_of g Hwf) as [_ G2 _ G4 _ G6].
  pose proof (topo_sort_spec g (known g) Hwf) as Hr.
  assert (d ∉ vr_cycle_members (validate g) <-> d ∈ topo_sort g (known g) (build_in_degree g (known g))) as ->.
  { unfold validate. cbn [vr_cycle_members].
    rewrite elem_of_sorted_set, elem_of_difference, elem_of_list_to_set.
    destruct (decide (d ∈ topo_sort g (known g) (build_in_degree g (known g)))); tauto. }
  rewrite (Kahn.topo_acc _ _ _ _ Hr) by done. split.
  - intros [i Hi]. revert d Hd Hi. induction (lt_wf i) as [i _ IH]. intros d Hd Hi.
    constructor. intros n (Hn & _ & Hnd)%edge_depends; [|done].
    destruct (G4 i d n Hi) as (j & Hj & Hg); [set_solver..|]. by eapply IH.
  - induction 1 as [d _ IH]. apply G6; [done|].
    intros n Hn Hk. apply IH; [by apply edge_depends|done].
Qed.

(** ** Dependency chains *)

(** [b] is a known dependency of [a]. *)
Definition needs g (a b : Z) : Prop := b ∈ deps_of g a /\ b ∈ known g.

Record collecting g (issue : Z) (visited : gset Z) (to_visit : list Z) : Prop := {
  co_start : issue ∈ visited \/ issue ∈ to_visit;
  co_visited : forall n, n ∈ visited -> rtc (needs g) issue n;
  co_queue : forall n, n ∈ to_visit -> rtc (needs g) issue n;
  co_closed : forall n d, n ∈ visited -> needs g n d -> d ∈ visited \/ d ∈ to_visit;
}.

Definition unvisited_cost g (U visited : gset Z) : nat :=
  sum_list_with (fun n => if decide (n ∈ visited) then 0 else size (deps_of g n)) (elements U).

Lemma unvisited_cost_visit g U visited n :
  n ∈ U -> n ∉ visited ->
  unvisited_cost g U visited = size (deps_of g n) + unvisited_cost g U ({[n]} ∪ visited).
Proof.
  intros HnU Hnv. unfold unvisited_cost.
  apply elem_of_elements in HnU. pose proof (NoDup_elements U) as Hnd.
  apply list_elem_of_split in HnU as (l1 & l2 & E). rewrite E in Hnd |- *.
  apply NoDup_app in Hnd as (_ & Hd1 & Hnd%NoDup_cons). destruct Hnd as [Hn2 _].
  assert (n ∉ l1) as Hn1 by (intros Hin; apply (Hd1 n Hin); constructor).
  assert (forall l, n ∉ l ->
    sum_list_with (fun m => if decide (m ∈ visited) then 0 else size (deps_of g m)) l =
    sum_list_with (fun m => if decide (m ∈ {[n]} ∪ visited) then 0 else size (deps_of g m)) l) as Heq.
  { intros l Hl. apply Kahn.sum_list_ext. intros m Hm. assert (m <> n) by (intros ->; done).
    destruct (decide (m ∈ visited)); [rewrite decide_True|rewrite decide_False]; set_solver. }
  rewrite !sum_list_with_app. cbn. rewrite decide_False by done. rewrite decide_True by set_solver.
  rewrite (Heq l1 Hn1), (Heq l2 Hn2). lia.
Qed.

Lemma collect_loop_spec g issue fuel visited to_visit :
  collecting g issue visited to_visit ->
  length to_visit + unvisited_cost g ({[issue]} ∪ known g) visited < fuel ->
  exists V, collect_loop fuel g visited to_visit = Some V /\
    forall n, n ∈ V <-> rtc (needs g) issue n.
Proof.
  revert visited to_visit. induction fuel as [|fuel IH]; intros visited to_visit Hc Hf; [lia|].
  destruct Hc as [C1 C2 C3 C4].
  destruct to_visit as [|n to_visit]; cbn [collect_loop].
  { exists visited. split; [done|]. intros n. split; [apply C2|].
    assert (issue ∈ visited) as Hi by (destruct C1 as [|Hi]; [done|by inversion Hi]).
    clear -C4 Hi. intros Hn. revert Hi. induction Hn as [x|x y z Hxy _ IHn]; [done|]. intros Hx.
    apply IHn. destruct (C4 x y Hx Hxy) as [|Hy]; [done|by inversion Hy]. }
  assert (rtc (needs g) issue n) as Hn by (apply C3; constructor).
  case_bool_decide as Hv; apply IH.
  - split; try done.
    + destruct C1 as [|[->|]%elem_of_cons]; auto.
    + intros m Hm. apply C3. by constructor.
    + intros m d Hm Hd. destruct (C4 m d Hm Hd) as [|[->|]%elem_of_cons]; auto.
  - cbn in Hf. lia.
  - assert (forall d, d ∈ filter (fun dep => dep ∈ known g) (set_iter (deps_of g n)) <-> needs g n d) as Hnew.
    { intros d. rewrite list_elem_of_filter, elem_of_set_iter. unfold needs. tauto. }
    split.
    + destruct C1 as [|[->|]%elem_of_cons]; set_solver.
    + intros m [->%elem_of_singleton|Hm]%elem_of_union; [done|by apply C2].
    + intros m [Hm|Hm%Hnew]%elem_of_app; [apply C3; by constructor|]. by eapply rtc_r.
    + intros m d [->%elem_of_singleton|Hm]%elem_of_union Hd.
      * right. apply elem_of_app. right. by apply Hnew.
      * destruct (C4 m d Hm Hd) as [|[->|]%elem_of_cons]; set_solver.
  - assert (n ∈ {[issue]} ∪ known g) as HnU.
    { apply rtc_inv_r in Hn as [->|(y & _ & _ & Hk)]; set_solver. }
    rewrite (unvisited_cost_visit g _ visited n) in Hf by done. rewrite length_app. cbn in Hf.
    assert (length (filter (fun dep => dep ∈ known g) (set_iter (deps_of g n))) <= size (deps_of g n)).
    { rewrite length_filter, set_iter_elements. by unfold size, set_size. }
    lia.
Qed.

Lemma elem_of_collect g issue n :
  n ∈ collect_transitive_deps g issue <-> rtc (needs g) issue n.
Proof.
  destruct (collect_loop_spec g issue (collect_fuel g issue) ∅ [issue]) as (V & E & HV).
  - split; [right; constructor|set_solver| |set_solver].
    by intros m ->%list_elem_of_singleton.
  - unfold collect_fuel, unvisited_cost.
    rewrite (Kahn.sum_list_ext _ (fun n => size (deps_of g n))); [cbn; lia|].
    intros m _. by rewrite decide_False by set_solver.
  - unfold collect_transitive_deps. rewrite E. apply HV.
Qed.

End graph.

(** ** The cache under interleaving *)

Section cache.
Context {G : Type}.
Implicit Types (c : @Cache G) (s : loop_state G) (trace : list (event G)).

Lemma invalidate_keys_lookup keys c k :
  NoDup keys ->
  c_cache (foldl invalidate_key c keys) !! k = (if decide (k ∈ keys) then None else c_cache c !! k) /\
  c_generation (foldl invalidate_key c keys) !! k =
    (if decide (k ∈ keys) then Some (default 0 (c_generation c !! k) + 1)%Z else c_generation c !! k).
Proof.
  revert c. induction keys as [|x keys IH]; intros c Hnd; cbn [foldl]; [done|].
  apply NoDup_cons in Hnd as [Hx Hnd]. destruct (IH (invalidate_key c x) Hnd) as [-> ->].
  cbn [invalidate_key c_cache c_generation].
  destruct (decide (k = x)) as [->|Hne].
  - rewrite !(decide_False (P := x ∈ keys)) by done.
    rewrite !(decide_True (P := x ∈ x :: keys)) by constructor.
    by rewrite lookup_delete_eq, lookup_insert_eq.
  - rewrite lookup_delete_ne, lookup_insert_ne by done.
    assert (k ∈ x :: keys <-> k ∈ keys) as E by (rewrite elem_of_cons; tauto).
    destruct (decide (k ∈ keys)), (decide (k ∈ x :: keys)); first [done|tauto].
Qed.

(** Whether invalidating [r] concerns the repository [repo]. *)
Definition concerns (r repo : string) : Prop := r = repo \/ r = EmptyString.

#[export] Instance concerns_dec r repo : Decision (concerns r repo).
Proof. unfold concerns. apply _. Defined.

Lemma invalidate_lookup r c repo :
  is_Some (c_generation c !! repo) ->
  c_cache (invalidate_graph_cache r c) !! repo =
    (if decide (concerns r repo) then None else c_cache c !! repo) /\
  c_generation (invalidate_graph_cache r c) !! repo =
    (if decide (concerns r repo) then Some (default 0 (c_generation c !! repo) + 1)%Z
     else c_generation c !! repo).
Proof.
  intros Hk. unfold invalidate_graph_cache. case_decide as Hr.
  - subst r. destruct (invalidate_keys_lookup
      (elements (dom (c_cache c) ∪ dom (c_generation c))) c repo (NoDup_elements _)) as [-> ->].
    assert (repo ∈ elements (dom (c_cache c) ∪ dom (c_generation c))) as Hin.
    { rewrite elem_of_elements, elem_of_union, !elem_of_dom. by right. }
    rewrite !(decide_True (P := repo ∈ _)) by done.
    by rewrite !(decide_True (P := concerns _ _)) by (by right).
  - destruct (invalidate_keys_lookup [r] c repo (NoDup_singleton _)) as [-> ->].
    destruct (decide (repo = r)) as [->|Hne].
    + rewrite !(decide_True (P := r ∈ [r])) by constructor.
      by rewrite !(decide_True (P := concerns _ _)) by (by left).
    + rewrite !(decide_False (P := repo ∈ [r])) by (intros ?%list_elem_of_singleton; done).
      by rewrite !(decide_False (P := concerns _ _)) by (intros [?|?]; [congruence|done]).
Qed.

(** ** What a trace says about the builds in flight and the stored graphs *)

(** [t] starts the build [b] of [repo] and neither ends it nor invalidates [repo]. *)
Definition quiet (repo : string) (b : nat) (t : list (event G)) : Prop :=
  forall e, e ∈ t ->
    match e with
    | EInvalidate r => ~ concerns r repo
    | EFinish b' _ _ | EFail b' => b' <> b
    | EStart _ _ _ _ => True
    end.

Definition undisturbed (repo : string) (t : list (event G)) : Prop :=
  forall r, EInvalidate r ∈ t -> ~ concerns r repo.

(** The graph [g] comes from a build of [repo] that [trace] starts and finishes,
    at time [at_], with no invalidation of [repo] since the start. *)
Definition built_since (trace : list (event G)) (repo : string) (at_ : Z) (g : G) : Prop :=
  exists t1 b now t2 t3,
    trace = t1 ++ EStart b now repo EmptyString :: t2 ++ EFinish b at_ g :: t3 /\
    repo <> EmptyString /\ quiet repo b t2 /\ undisturbed repo t3.

(** The build [f] was started by [trace]; when its generation is still the
    current one, nothing invalidated its repository meanwhile. *)
Definition started_by (trace : list (event G)) c (b : nat) (f : flight) : Prop :=
  f_cacheable f = true ->
  f_repo f <> EmptyString /\
  exists gen, c_generation c !! f_repo f = Some gen /\ (f_generation f <= gen)%Z /\
    (f_generation f = gen ->
     exists t1 now t2, trace = t1 ++ EStart b now (f_repo f) EmptyString :: t2 /\ quiet (f_repo f) b t2).

Record trace_inv trace s : Prop := {
  ti_flights : forall b f, l_flights s !! b = Some f -> started_by trace (l_cache s) b f;
  ti_cache : forall repo at_ g, c_cache (l_cache s) !! repo = Some (at_, g) ->
    is_Some (c_generation (l_cache s) !! repo) /\ built_since trace repo at_ g;
}.

Lemma quiet_snoc repo b t e :
  quiet repo b t ->
  match e with
  | EInvalidate r => ~ concerns r repo
  | EFinish b' _ _ | EFail b' => b' <> b
  | EStart _ _ _ _ => True
  end -> quiet repo b (t ++ [e]).
Proof. intros Ht He x [Hx|Hx%list_elem_of_singleton]%elem_of_app; [by apply Ht|by subst]. Qed.

Lemma started_by_snoc trace c c' b f e :
  started_by trace c b f ->
  match e with
  | EInvalidate r => ~ concerns r (f_repo f)
  | EFinish b' _ _ | EFail b' => b' <> b
  | EStart _ _ _ _ => True
  end ->
  (forall gen, c_generation c !! f_repo f = Some gen -> c_generation c' !! f_repo f = Some gen) ->
  started_by (trace ++ [e]) c' b f.
Proof.
  intros Hs He Hgen Hc. destruct (Hs Hc) as (Hr & gen & Hg & Hle & Ht).
  split; [done|]. exists gen. split; [by apply Hgen|]. split; [done|].
  intros E. destruct (Ht E) as (t1 & now & t2 & -> & Hq).
  exists t1, now, (t2 ++ [e]). split; [by rewrite <- app_assoc|by apply quiet_snoc].
Qed.

Lemma built_since_snoc trace repo at_ g e :
  built_since trace repo at_ g ->
  (forall r, e = EInvalidate r -> ~ concerns r repo) ->
  built_since (trace ++ [e]) repo at_ g.
Proof.
  intros (t1 & b & now & t2 & t3 & -> & Hr & Hq & Hu) He.
  exists t1, b, now, t2, (t3 ++ [e]). split; [by rewrite <- !app_assoc; cbn; rewrite <- app_assoc|].
  split; [done|]. split; [done|]. intros r [Hin|Hin%list_elem_of_singleton]%elem_of_app; [by apply Hu|by apply He].
Qed.

Lemma build_start_generation now repo milestone c k gen :
  c_generation c !! k = Some gen -> c_generation (build_start now repo milestone c).1 !! k = Some gen.
Proof.
  intros Hk. unfold build_start.
  assert (<[repo := default 0%Z (c_generation c !! repo)]> (c_generation c) !! k = Some gen) as E.
  { destruct (decide (k = repo)) as [->|]; [by rewrite lookup_insert_eq, Hk|by rewrite lookup_insert_ne]. }
  by repeat case_match.
Qed.

Lemma build_start_cache now repo milestone c :
  c_cache (build_start now repo milestone c).1 = c_cache c.
Proof. unfold build_start. by repeat case_match. Qed.

Lemma build_start_cached now repo milestone c c' g :
  build_start now repo milestone c = (c', Cached g) ->
  milestone = EmptyString /\ repo <> EmptyString /\
  exists at_, c_cache c !! repo = Some (at_, g) /\ (now - at_ < GRAPH_CACHE_TTL)%Z.
Proof.
  unfold build_start. repeat case_match; intros [= <- <-]; bool_simp. cbn in *.
  split; [done|]. split; [done|]. eexists. split; [done|]. by apply Z.ltb_lt.
Qed.

Lemma build_start_fetching now repo milestone c c' gen :
  build_start now repo milestone c = (c', Fetching true gen) ->
  milestone = EmptyString /\ repo <> EmptyString /\ c_generation c' !! repo = Some gen.
Proof.
  unfold build_start. repeat case_match; intros [= <- <-]; bool_simp; cbn;
    by rewrite lookup_insert_eq.
Qed.
Lemma build_finish_generation now repo cacheable gen g c :
  c_generation (build_finish now repo cacheable gen g c) = c_generation c.
Proof. unfold build_finish. by case_match. Qed.

Lemma started_by_invalidate trace c b f r :
  started_by trace c b f ->
  started_by (trace ++ [EInvalidate r]) (invalidate_graph_cache r c) b f.
Proof.
  intros Hs. destruct (decide (concerns r (f_repo f))) as [Hr|Hr].
  - intros Hc. destruct (Hs Hc) as (Hne & gen & Hg & Hle & _). split; [done|].
    destruct (invalidate_lookup r c (f_repo f)) as [_ Eg]; [by eexists|].
    rewrite decide_True, Hg in Eg by done. exists (gen + 1)%Z. split; [done|].
    split; [lia|]. intros E. lia.
  - eapply started_by_snoc; [done|done|]. intros gen Hg.
    destruct (invalidate_lookup r c (f_repo f)) as [_ ->]; [by eexists|]. by rewrite decide_False.
Qed.

Lemma loop_step_start trace s s' b now repo milestone :
  trace_inv trace s -> loop_step s (EStart b now repo milestone) = Some s' ->
  trace_inv (trace ++ [EStart b now repo milestone]) s'.
Proof.
  intros [Hf Hc] Hstep. cbn in Hstep. destruct (l_flights s !! b) eqn:Eb; [done|].
  pose proof (build_start_generation now repo milestone (l_cache s)) as Hgen.
  pose proof (build_start_cache now repo milestone (l_cache s)) as Hcache.
  destruct (build_start now repo milestone (l_cache s)) as [c' r] eqn:E. cbn in Hgen, Hcache.
  assert (forall b' f, l_flights s !! b' = Some f ->
    started_by (trace ++ [EStart b now repo milestone]) c' b' f) as Hold.
  { intros b' f Hb. eapply started_by_snoc; [by apply Hf|done|apply Hgen]. }
  assert (forall repo' at_ g, c_cache c' !! repo' = Some (at_, g) ->
    is_Some (c_generation c' !! repo') /\
    built_since (trace ++ [EStart b now repo milestone]) repo' at_ g) as Hc'.
  { intros repo' at_ g Hg. rewrite Hcache in Hg. destruct (Hc _ _ _ Hg) as [[gen Hgn] Hb].
    split; [by eexists; apply Hgen|]. by apply built_since_snoc. }
  destruct r as [g|cacheable gen]; injection Hstep as <-; (split; [|exact Hc']); cbn [l_flights l_cache].
  - exact Hold.
  - intros b' f [[<- <-]|[Hne Hb]]%lookup_insert_Some; [|by apply Hold].
    unfold started_by. cbn. intros ->.
    destruct (build_start_fetching _ _ _ _ _ _ E) as (-> & Hne & Hg).
    split; [done|]. exists gen. split; [done|]. split; [done|]. intros _.
    exists trace, now, []. split; [done|]. by inversion 1.
Qed.

Lemma loop_step_finish trace s s' b now g :
  trace_inv trace s -> loop_step s (EFinish b now g) = Some s' ->
  trace_inv (trace ++ [EFinish b now g]) s'.
Proof.
  intros [Hf Hc] Hstep. cbn in Hstep. destruct (l_flights s !! b) as [f|] eqn:Eb; [|done].
  injection Hstep as <-. split; cbn [l_flights l_cache].
  - intros b' f' [Hne Hb]%lookup_delete_Some. eapply started_by_snoc; [by apply Hf|done|].
    intros gen. by rewrite build_finish_generation.
  - intros repo at_ g' Hg. rewrite build_finish_generation.
    unfold build_finish in Hg. case_match eqn:E; cbn in Hg.
    + bool_simp. apply lookup_insert_Some in Hg as [[<- [= <- <-]]|[Hne Hg]].
      * destruct (Hf _ _ Eb) as (Hr & gen & Egen & _ & Ht); [done|].
        split; [by eexists|]. rewrite Egen in *. cbn in *. subst gen.
        destruct (Ht eq_refl) as (t1 & now0 & t2 & -> & Hq).
        exists t1, b, now0, t2, []. split; [by rewrite <- app_assoc|].
        split; [done|]. split; [done|]. by inversion 1.
      * destruct (Hc _ _ _ Hg). split; [done|]. by apply built_since_snoc.
    + destruct (Hc _ _ _ Hg). split; [done|]. by apply built_since_snoc.
Qed.

Lemma loop_step_inv trace s s' e :
  trace_inv trace s -> loop_step s e = Some s' -> trace_inv (trace ++ [e]) s'.
Proof.
  intros Hinv Hstep. destruct e as [b now repo milestone|b now g|b|r].
  - by eapply loop_step_start.
  - by eapply loop_step_finish.
  - destruct Hinv as [Hf Hc]. cbn in Hstep. destruct (l_flights s !! b); [|done].
    injection Hstep as <-. split; cbn [l_flights l_cache].
    + intros b' f' [Hne Hb]%lookup_delete_Some. eapply started_by_snoc; [by apply Hf|done|done].
    + intros repo at_ g Hg. destruct (Hc _ _ _ Hg). split; [done|]. by apply built_since_snoc.
  - destruct Hinv as [Hf Hc]. injection Hstep as <-. split; cbn [l_flights l_cache].
    + intros b f Hb. apply started_by_invalidate. by apply Hf.
    + intros repo at_ g Hg.
      destruct (decide (is_Some (c_generation (l_cache s) !! repo))) as [Hgen|Hn].
      * destruct (invalidate_lookup r (l_cache s) repo Hgen) as [Ec Eg]. rewrite Ec in Hg.
        case_decide as Hr; [done|]. destruct (Hc _ _ _ Hg) as [? Hb]. rewrite Eg. split; [done|].
        apply built_since_snoc; [done|]. by intros ? [= <-].
      * destruct Hn. clear -Hc Hg. eapply (Hc repo at_ g).
        assert (forall keys c, c_cache (foldl invalidate_key c keys) !! repo = Some (at_, g) ->
          c_cache c !! repo = Some (at_, g)) as Hsub; [|by eapply Hsub].
        clear. induction keys as [|k keys IH]; intros c Hg; [done|].
        apply IH in Hg. cbn in Hg. by apply lookup_delete_Some in Hg as [_ ?].
Qed.

Lemma loop_run_inv trace s : loop_run trace = Some s -> trace_inv trace s.
Proof.
  unfold loop_run. revert s. induction trace as [|e trace IH] using rev_ind; intros s.
  - cbn. intros [= <-]. split; cbn; intros *; by rewrite lookup_empty.
  - rewrite foldl_app. cbn. destruct (foldl _ _ trace) as [s1|] eqn:E; [|done]. cbn.
    intros Hs. eapply loop_step_inv; [by apply IH|done].
Qed.

End cache.

(** ** The interface the suitability classifier reads *)

#[export] Instance depgraph_view_laws `{!SetOrder Z} : GraphViewLaws DependencyGraph.
Proof.
  refine {| view_ok := wf |}.
  - intros g i. cbn. unfold known. by rewrite bool_decide_eq_true, elem_of_dom.
  - intros g i. cbn. unfold known. by rewrite elem_of_dom.
  - intros g i Hwf n Hn. cbn in *. apply (wf_converse g Hwf) in Hn.
    rewrite <- (wf_dom g Hwf), elem_of_dom. apply deps_of_lookup in Hn as (deps & E & _). by eexists.
Defined.

(** ** Properties *)

Section properties.
Context `{!SetOrder Z}.

(** The issue numbers of the tracker's answer, when they are numbers. *)
Definition issue_ids (tasks : list Task) : list Z := omap (fun t => PyStr.int_of (task_id t)) tasks.

Lemma with_ids_Ret_iff tasks :
  (exists l, with_ids tasks = Ret l) <-> Forall (fun t => is_Some (PyStr.int_of (task_id t))) tasks.
Proof.
  induction tasks as [|t ts IH]; cbn; [split; [constructor|by eexists]|].
  rewrite Forall_cons, <- IH. destruct (PyStr.int_of (task_id t)) as [i|]; cbn.
  - destruct (with_ids ts) as [l|]; cbn.
    + split; [|by eexists]. intros _. split; by eexists.
    + split; [by intros [? ?]|by intros [_ [? ?]]].
  - split; [by intros [? ?]|by intros [[? ?] _]].
Qed.

Lemma make_graph_Ret_iff tasks requested :
  (exists g, make_graph tasks requested = Ret g) <->
  Forall (fun t => is_Some (PyStr.int_of (task_id t))) tasks.
Proof.
  rewrite <- with_ids_Ret_iff. unfold make_graph. destruct (with_ids tasks); cbn.
  - split; by eexists.
  - split; intros [? ?]; done.
Qed.

(** the constructor of [DependencyGraph] fails exactly on an id that is not a
    number; for distinct issue numbers the nodes are the tasks, the dependencies
    of a node are the ones parsed from its body without itself, and [_rdeps] is
    the exact converse of [_deps], keyed by known and unknown issues alike. *)
Theorem constructor_correct (tasks : list Task) (requested : option (gset Z)) :
  NoDup (issue_ids tasks) ->
  ((exists g, make_graph tasks requested = Ret g) <->
     Forall (fun t => is_Some (PyStr.int_of (task_id t))) tasks) /\
  forall g, make_graph tasks requested = Ret g ->
    (forall i t, g_tasks g !! i = Some t <-> t ∈ tasks /\ PyStr.int_of (task_id t) = Some i) /\
    (forall i t, g_tasks g !! i = Some t ->
       deps_of g i = parse_dependencies (task_body t) (Some i)) /\
    (forall a b, a ∈ rdeps_of g b <-> b ∈ deps_of g a) /\
    (forall a b, (a, b) ∈ edges g <-> b ∈ deps_of g a).
Proof.
  intros Hnd. split; [apply make_graph_Ret_iff|]. intros g Hg.
  destruct (make_graph_wf _ _ _ Hg Hnd) as (Hwf & _ & Ht). split; [done|].
  split; [apply Hwf|]. split; [apply Hwf|]. intros a b.
  unfold edges. rewrite list_elem_of_bind. setoid_rewrite list_elem_of_fmap.
  setoid_rewrite elem_of_sorted_set. split.
  - intros (a' & (b' & [= <- <-] & Hb) & _). done.
  - intros Hb. exists a. split; [by exists b|].
    apply deps_of_lookup in Hb as (deps & E & _). by apply elem_of_dom_2 in E.
Qed.

(** [validate] is exact: [missing_refs] lists the dependencies that are not
    nodes, [cycle_members] the nodes that a dependency cycle must come before
    (the nodes of a cycle and everything downstream of one), both sorted and
    without repetition; and the graph is valid exactly when every dependency is
    a node and no node transitively depends on itself. *)
Theorem validate_correct (tasks : list Task) (requested : option (gset Z)) (g : DependencyGraph) :
  make_graph tasks requested = Ret g -> NoDup (issue_ids tasks) ->
  (forall x, x ∈ vr_missing_refs (validate g) <-> x ∉ known g /\ exists n, x ∈ deps_of g n) /\
  (forall d, d ∈ vr_cycle_members (validate g) <->
     d ∈ known g /\ exists c, before g (known g) c c /\ rtc (depends g (known g)) c d) /\
  NoDup (vr_missing_refs (validate g)) /\ NoDup (vr_cycle_members (validate g)) /\
  (vr_valid (validate g) = true <->
     (forall n d, d ∈ deps_of g n -> d ∈ known g) /\ (forall c, ~ before g (known g) c c)).
Proof.
  intros Hg Hnd. destruct (make_graph_wf _ _ _ Hg Hnd) as (Hwf & _).
  split; [apply elem_of_missing_refs|]. split; [by intros; apply elem_of_cycle_members|].
  split; [apply NoDup_sorted_set|]. split; [apply NoDup_sorted_set|]. by apply validate_valid_iff.
Qed.

(** [get_parallel_groups] places every node that no cycle comes before in
    exactly one group, and no other node; group [k] is numbered [k], is not
    empty and is sorted; the dependencies of a node of group [k] are all in
    earlier groups, and for [k > 0] one of them is in group [k-1], so the number
    of a group is the length of the longest chain of dependencies below it. *)
Theorem parallel_groups_correct (tasks : list Task) (requested : option (gset Z)) (g : DependencyGraph) :
  make_graph tasks requested = Ret g -> NoDup (issue_ids tasks) ->
  let gs := get_parallel_groups g in
  (forall d, (exists i, in_group gs i d) <-> d ∈ known g /\ d ∉ vr_cycle_members (validate g)) /\
  (forall i j d, in_group gs i d -> in_group gs j d -> i = j) /\
  (forall i grp, gs !! i = Some grp ->
     pg_tier grp = i /\ pg_task_ids grp <> [] /\
     pg_task_ids grp = sorted_set (list_to_set (pg_task_ids grp))) /\
  (forall i d n, in_group gs i d -> n ∈ deps_of g d -> n ∈ known g -> exists j, j < i /\ in_group gs j n) /\
  (forall i d, in_group gs (S i) d -> exists n, n ∈ deps_of g d /\ in_group gs i n).
Proof.
  intros Hg Hnd gs. destruct (make_graph_wf _ _ _ Hg Hnd) as (Hwf & _).
  pose proof (parallel_groups_of g Hwf) as [G1 G2 G3 G4 G5 _].
  split; [|done]. intros d. split.
  - intros [i Hi]. pose proof (G2 _ _ Hi) as Hd. split; [done|].
    apply in_group_topo; [done..|]. by exists i.
  - intros [Hd Hc]. by apply in_group_topo.
Qed.

Lemma needs_depends g issue x y :
  rtc (needs g) issue x -> needs g x y -> depends g (collect_transitive_deps g issue) y x.
Proof.
  intros Hx Hxy. split; [apply elem_of_collect; by eapply rtc_r|].
  split; [by apply elem_of_collect|]. by destruct Hxy.
Qed.

(** [get_chain] lists transitive dependencies of the issue (and the issue),
    each once and after all of its known dependencies. When no cycle is among
    them, the chain is all of them and ends with the issue; otherwise the issue
    itself is not in the chain. *)
Theorem get_chain_correct (tasks : list Task) (requested : option (gset Z)) (g : DependencyGraph) (issue : Z) :
  make_graph tasks requested = Ret g -> NoDup (issue_ids tasks) ->
  let chain := get_chain g issue in
  let V := collect_transitive_deps g issue in
  (forall n, n ∈ V <-> rtc (needs g) issue n) /\
  NoDup chain /\ (forall n, n ∈ chain -> n ∈ V) /\
  (forall l1 d l2, chain = l1 ++ d :: l2 -> forall n, needs g d n -> n ∈ l1) /\
  ((forall c, ~ before g V c c) -> exists l, chain = l ++ [issue] /\ chain ≡ₚ elements V) /\
  ((exists c, before g V c c) -> issue ∉ chain).
Proof.
  intros Hg Hnd chain V. destruct (make_graph_wf _ _ _ Hg Hnd) as (Hwf & _).
  pose proof (topo_sort_spec g V Hwf) as Hr. change (topo_sort g V (build_in_degree g V)) with chain in Hr.
  assert (issue ∈ V) as HiV by (by apply elem_of_collect).
  assert (forall n, n ∈ V -> rtc (depends g V) n issue) as Hto.
  { intros n Hn%elem_of_collect. revert n Hn.
    apply (rtc_ind_r (R := needs g) (fun n => rtc (depends g V) n issue)); [done|].
    intros x y Hx Hxy IH. eapply rtc_l; [|done]. by apply needs_depends. }
  split; [apply elem_of_collect|]. split; [apply Hr|]. split; [apply Hr|]. split; [|split].
  - intros l1 d l2 E n Hn. eapply (Kahn.topo_order _ _ _ _ Hr); [done|]. apply edge_depends; [done|].
    apply needs_depends; [|done]. apply elem_of_collect. eapply (Kahn.topo_nodes _ _ _ _ Hr).
    rewrite E. set_solver.
  - intros Hac.
    assert (forall d, d ∈ V -> d ∈ chain) as Hall.
    { apply (Kahn.topo_all_iff_acyclic _ _ _ _ Hr). intros c Hc%tc_edge; [|done]. by eapply Hac. }
    pose proof (Hall issue HiV) as (l1 & l2 & E)%list_elem_of_split.
    assert (l2 = []) as ->.
    { destruct l2 as [|x l2]; [done|].
      assert (x ∈ V) as Hx by (apply Hr; rewrite E; set_solver).
      pose proof (Kahn.topo_nodup _ _ _ _ Hr) as Hn. rewrite E in Hn.
      apply NoDup_app in Hn as (_ & Hn1 & Hn2).
      apply Hto in Hx. apply rtc_tc in Hx as [->|Hx].
      - apply NoDup_cons in Hn2 as [Hn2 _]. destruct Hn2. constructor.
      - destruct (Hn1 x); [|set_solver]. eapply (Kahn.topo_before _ _ _ _ Hr); [|done]. by apply tc_edge. }
    exists l1. split; [done|]. apply NoDup_Permutation; [apply Hr|apply NoDup_elements|].
    intros x. rewrite elem_of_elements. split; [apply Hr|apply Hall].
  - intros [c Hc]. unfold chain, get_chain. fold V. apply topo_sort_left_out; [done..|].
    exists c. split; [done|]. apply Hto. by eapply before_in.
Qed.

(** the two readiness flags of the dashboard agree: [get_ready_tasks] lists,
    in order and whether or not it is given the precomputed classifications,
    exactly the nodes whose [eligible] flag [to_dict] sets; such a node is not
    done, running, in review or human-only, and every dependency of it is a
    known issue that is done or an epic. *)
Theorem ready_tasks_correct (tasks : list Task) (requested : option (gset Z)) (g : DependencyGraph) :
  make_graph tasks requested = Ret g -> NoDup (issue_ids tasks) ->
  get_ready_tasks g ∅ = get_ready_tasks g (node_suitabilities g) /\
  get_ready_tasks g ∅ = filter (fun tid => node_eligible g tid = true) (nodes g) /\
  (forall tid, tid ∈ get_ready_tasks g ∅ <->
     exists t, g_tasks g !! tid = Some t /\ excluded_from_ready (task_state t) = false /\
       schedulable t g None) /\
  (forall tid d, tid ∈ get_ready_tasks g ∅ -> d ∈ deps_of g tid -> dep_satisfied g d).
Proof.
  intros Hg Hnd. destruct (make_graph_wf _ _ _ Hg Hnd) as (Hwf & _ & Ht).
  assert (forall tid, is_ready_node g ∅ tid = is_ready_node g (node_suitabilities g) tid) as E1.
  { intros tid. unfold is_ready_node, node_suitability, node_suitabilities.
    rewrite lookup_empty, lookup_fmap. by destruct (g_tasks g !! tid). }
  assert (forall tid, is_ready_node g ∅ tid = node_eligible g tid) as E2.
  { intros tid. unfold is_ready_node, node_eligible, node_suitability. rewrite lookup_empty.
    destruct (g_tasks g !! tid) as [t|]; [|done].
    by destruct (excluded_from_ready (task_state t)); rewrite ?andb_true_r, ?andb_false_r. }
  assert (forall tid, tid ∈ get_ready_tasks g ∅ <->
     exists t, g_tasks g !! tid = Some t /\ excluded_from_ready (task_state t) = false /\
       schedulable t g None) as E3.
  { intros tid. unfold get_ready_tasks, nodes. rewrite list_elem_of_filter, elem_of_sorted_set, E2.
    unfold known, node_eligible. rewrite elem_of_dom. destruct (g_tasks g !! tid) as [t|].
    - rewrite andb_true_iff, negb_true_iff, assess_eligible_schedulable. split.
      + intros [[? ?] _]. by exists t.
      + intros (t' & [= <-] & ? & ?). split; [done|by eexists].
    - split; [by intros [? _]|by intros (? & ? & _)]. }
  split; [|split; [|split; [done|]]].
  - apply list_filter_iff. intros tid. by rewrite E1.
  - apply list_filter_iff. intros tid. by rewrite E2.
  - intros tid d (t & Hlook & _ & Hs)%E3 Hd. destruct Hs as (_ & _ & _ & _ & _ & i & Hi & _ & Hall).
    apply Ht in Hlook as [_ Hid]. rewrite Hid in Hi. injection Hi as <-. by apply Hall.
Qed.

(** ** Assembling the graph *)

Lemma with_ids_issue_ids tasks l : with_ids tasks = Ret l -> l.*1 = issue_ids tasks.
Proof. intros E. by apply with_ids_Ret in E as (_ & -> & _). Qed.

Lemma elem_of_with_ids tasks l i t :
  with_ids tasks = Ret l -> (i, t) ∈ l <-> t ∈ tasks /\ PyStr.int_of (task_id t) = Some i.
Proof.
  intros E. destruct (with_ids_Ret _ _ E) as (E2 & _ & Hid). split.
  - intros Hin. split; [|by apply Hid]. rewrite <- E2. by apply (list_elem_of_fmap_2 snd) in Hin.
  - intros [Ht Hi]. rewrite <- E2 in Ht. apply list_elem_of_fmap in Ht as ([j u] & -> & Hin).
    cbn in Hi. rewrite (Hid _ _ Hin) in Hi. by injection Hi as ->.
Qed.

(** The issues the build works on: those of the window, and the open ones the
    window misses. *)
Definition listed (window open_tasks : list Task) (i : Z) (t : Task) : Prop :=
  PyStr.int_of (task_id t) = Some i /\
  (t ∈ window \/ (t ∈ open_tasks /\ i ∉ issue_ids window)).

Lemma with_every_open_issue_spec window open_tasks tasks :
  with_every_open_issue window open_tasks = Ret tasks ->
  NoDup (issue_ids window) -> NoDup (issue_ids open_tasks) ->
  NoDup (issue_ids tasks) /\
  forall i t, t ∈ tasks /\ PyStr.int_of (task_id t) = Some i <-> listed window open_tasks i t.
Proof.
  unfold with_every_open_issue. destruct (_ && _); [done|].
  destruct (with_ids window) as [w|] eqn:Ew; [|done].
  destruct (with_ids open_tasks) as [o|] eqn:Eo; [|done]. cbn [obind]. intros [= <-] Hw Ho.
  rewrite (with_ids_issue_ids _ _ Ew).
  set (extra := filter (fun it : Z * Task => it.1 ∉ issue_ids window) o).
  assert (forall i t, (i, t) ∈ extra <-> i ∉ issue_ids window /\ t ∈ open_tasks /\ PyStr.int_of (task_id t) = Some i)
    as Hextra by (intros i t; unfold extra; rewrite list_elem_of_filter, (elem_of_with_ids _ _ _ _ Eo); done).
  assert (issue_ids extra.*2 = extra.*1) as Eids.
  { assert (Forall (fun it : Z * Task => PyStr.int_of (task_id it.2) = Some it.1) extra) as Hall.
    { apply Forall_forall. intros [i t] Hin. by apply Hextra in Hin as (_ & _ & ?). }
    clear -Hall. induction Hall as [|[i t] l Hi _ IH]; [done|]. cbn in *. rewrite Hi.
    unfold issue_ids in IH. by rewrite IH. }
  split.
  - unfold issue_ids. rewrite omap_app. fold (issue_ids window) (issue_ids extra.*2). rewrite Eids.
    apply NoDup_app. split; [done|]. split.
    + intros i Hi ([j t] & -> & Hin%Hextra)%list_elem_of_fmap. by destruct Hin.
    + eapply sublist_NoDup; [|apply fmap_sublist, sublist_filter].
      by rewrite (with_ids_issue_ids _ _ Eo).
  - intros i t. unfold listed. rewrite elem_of_app, list_elem_of_fmap. split.
    + intros [[Ht|([j u] & -> & Hin%Hextra)] Hi]; split; try done; [by left|right].
      cbn in *. destruct Hin as (Hj & Hu & Hid). rewrite Hid in Hi. by injection Hi as <-.
    + intros [Hi [Ht|[Ht Hn]]]; split; try done; [by left|]. right. exists (i, t). split; [done|].
      by apply Hextra.
Qed.

Lemma map_task_ids (m : gmap Z Task) :
  (forall i t, m !! i = Some t -> PyStr.int_of (task_id t) = Some i) ->
  issue_ids (map_to_list m).*2 = (map_to_list m).*1.
Proof.
  intros Hm.
  assert (Forall (fun it : Z * Task => PyStr.int_of (task_id it.2) = Some it.1) (map_to_list m)) as Hall.
  { apply Forall_forall. intros [i t] Hin%elem_of_map_to_list. by apply Hm. }
  induction Hall as [|[i t] l Hi _ IH]; [done|]. cbn in *. rewrite Hi.
  unfold issue_ids in IH. by rewrite IH.
Qed.

Lemma fetch_missing_spec (fetch : Z -> option Task) (missing : gset Z) (m m' : gmap Z Task) :
  (forall n t, fetch n = Some t -> PyStr.int_of (task_id t) = Some n) ->
  (forall i, i ∈ missing -> m !! i = None) ->
  fetch_missing fetch missing m = Ret m' ->
  forall i t, m' !! i = Some t <-> m !! i = Some t \/ (i ∈ missing /\ fetch i = Some t).
Proof.
  intros Hfetch Hdisj. unfold fetch_missing.
  destruct (with_ids (omap fetch (set_iter missing))) as [l|] eqn:El; [|done]. cbn. intros [= <-] i t.
  assert (forall i t, (i, t) ∈ l <-> i ∈ missing /\ fetch i = Some t) as Hl.
  { intros j u. rewrite (elem_of_with_ids _ _ _ _ El), list_elem_of_omap.
    setoid_rewrite elem_of_set_iter. split.
    - intros [(n & Hn & Hu) Hj]. pose proof (Hfetch _ _ Hu) as E. rewrite E in Hj.
      by injection Hj as <-.
    - intros [Hj Hu]. split; [by exists j|by apply Hfetch]. }
  rewrite insert_tasks_lookup.
  - rewrite Hl. split; [intros [?|[_ ?]]; tauto|]. intros [Hm|?]; [|by left]. right. split; [|done].
    intros ([j u] & -> & [Hj _]%Hl)%list_elem_of_fmap. cbn in Hm. rewrite Hdisj in Hm; done.
  - rewrite (with_ids_issue_ids _ _ El). unfold issue_ids.
    assert (forall L, NoDup L -> NoDup (omap (fun t => PyStr.int_of (task_id t)) (omap fetch L))) as Hnd;
      [|apply Hnd, NoDup_set_iter].
    clear -Hfetch. induction 1 as [|x L Hx HL IH]; [constructor|]. cbn.
    destruct (fetch x) as [u|] eqn:Eu; [|done]. cbn. rewrite (Hfetch _ _ Eu).
    constructor; [|done]. intros (v & (y & Hy & Ev)%list_elem_of_omap & Ei)%list_elem_of_omap.
    rewrite (Hfetch _ _ Ev) in Ei. by injection Ei as ->.
Qed.

(** the graph [build_dependency_graph] assembles holds every open issue of
    both listings, exactly as listed; every other node is a closed issue the
    filter keeps or the fetched answer for a dependency of a kept issue; a
    dependency of a kept issue is missing only when fetching it failed; and
    only a milestone build has a requested set, which is the kept issues
    without the fetched ones. *)
Theorem assemble_correct (window open_tasks : list Task) (fetch : Z -> option Task)
    (milestone : string) (g : DependencyGraph) :
  NoDup (issue_ids window) -> NoDup (issue_ids open_tasks) ->
  (forall n t, fetch n = Some t -> PyStr.int_of (task_id t) = Some n) ->
  assemble window open_tasks fetch milestone = Ret g ->
  exists l : list (Z * Task),
    (forall i t, (i, t) ∈ kept l -> listed window open_tasks i t) /\
    (forall i t, listed window open_tasks i t -> task_state t <> TaskState.DONE -> (i, t) ∈ kept l) /\
    (forall i t, (i, t) ∈ kept l -> g_tasks g !! i = Some t) /\
    (forall i t, g_tasks g !! i = Some t ->
       (i, t) ∈ kept l \/ (fetch i = Some t /\ exists j u, (j, u) ∈ kept l /\ i ∈ deps_of g j)) /\
    (forall i t d, (i, t) ∈ kept l -> d ∈ deps_of g i -> d ∈ known g \/ fetch d = None) /\
    g_requested g = (if decide (milestone = EmptyString) then None else Some (list_to_set (kept l).*1)).
Proof.
  intros Hw Ho Hfetch. unfold assemble.
  destruct (with_every_open_issue window open_tasks) as [tasks|] eqn:Et; [|done]. cbn [obind].
  destruct (with_every_open_issue_spec _ _ _ Et Hw Ho) as [Hnd Hlisted].
  destruct (with_ids tasks) as [l|] eqn:El; [|done]. cbn [obind].
  set (m := task_map_of (kept l)).
  destruct (fetch_missing fetch (all_dep_ids (kept l) ∖ dom m) m) as [m'|] eqn:Em; [|done].
  cbn [obind]. intros Hg. exists l.
  assert (forall i t, (i, t) ∈ kept l -> listed window open_tasks i t) as H1.
  { intros i t [_ Hin]%list_elem_of_filter. by apply Hlisted, (elem_of_with_ids _ _ _ _ El). }
  assert (NoDup (kept l).*1) as Hndk.
  { eapply sublist_NoDup; [|apply fmap_sublist, sublist_filter]. by rewrite (with_ids_issue_ids _ _ El). }
  assert (forall i t, m !! i = Some t <-> (i, t) ∈ kept l) as Hm.
  { intros i t. unfold m, task_map_of. rewrite insert_tasks_lookup by done. rewrite lookup_empty. naive_solver. }
  assert (forall i, i ∈ all_dep_ids (kept l) ∖ dom m -> m !! i = None) as Hmiss.
  { by intros i [_ ?%not_elem_of_dom]%elem_of_difference. }
  pose proof (fetch_missing_spec _ _ _ _ Hfetch Hmiss Em) as Hm'.
  assert (forall i t, m' !! i = Some t -> PyStr.int_of (task_id t) = Some i) as Hids.
  { intros i t [Hi%Hm|[_ Hi]]%Hm'; [by apply H1 in Hi as [? _]|by apply Hfetch]. }
  destruct (make_graph_wf _ _ _ Hg) as (Hwf & Hreq & Htasks).
  { change (NoDup (issue_ids (map_to_list m').*2)). rewrite map_task_ids by done. apply NoDup_fst_map_to_list. }
  assert (forall i t, g_tasks g !! i = Some t <-> m' !! i = Some t) as Hgm.
  { intros i t. rewrite Htasks, list_elem_of_fmap. split.
    - intros [([j u] & -> & Hin%elem_of_map_to_list) Hi]. cbn in *. rewrite (Hids _ _ Hin) in Hi. by injection Hi as <-.
    - intros Hi. split; [|by apply Hids]. exists (i, t). split; [done|by apply elem_of_map_to_list]. }
  assert (forall i, i ∈ all_dep_ids (kept l) <-> exists j u, (j, u) ∈ kept l /\ i ∈ deps_of g j) as Hdeps.
  { intros i. unfold all_dep_ids. rewrite elem_of_union_list. setoid_rewrite list_elem_of_fmap. split.
    - intros (X & ([j u] & -> & Hin) & Hi). exists j, u. split; [done|].
      rewrite (wf_parsed g Hwf j u); [done|]. apply Hgm, Hm'. left. by apply Hm.
    - intros (j & u & Hin & Hi). exists (deps_of g j). split; [|done]. exists (j, u). split; [|done].
      apply (wf_parsed g Hwf j u), Hgm, Hm'. left. by apply Hm. }
  split; [done|]. split; [|split; [|split; [|split; [|done]]]].
  - intros i t Hl Hs. apply list_elem_of_filter. split; [by left|].
    by apply (elem_of_with_ids _ _ _ _ El), Hlisted.
  - intros i t Hin. apply Hgm, Hm'. left. by apply Hm.
  - intros i t [Hi%Hm|[Hi Hf]]%Hgm%Hm'; [by left|]. right. split; [done|].
    apply Hdeps. set_solver.
  - intros i t d Hin Hd. destruct (fetch d) as [u|] eqn:Ef; [|by right]. left.
    unfold known. rewrite elem_of_dom. destruct (m !! d) as [v|] eqn:Ev.
    + exists v. apply Hgm, Hm'. by left.
    + exists u. apply Hgm, Hm'. right. split; [|done]. rewrite elem_of_difference, not_elem_of_dom.
      split; [|done]. apply Hdeps. by exists i, t.
Qed.

End properties.

(** C5: the graph cache never serves a stale graph. However builds, failed
    builds and invalidations interleave on the event loop, a graph that
    [build_dependency_graph] serves from the cache was fetched by a build of the
    same repository that started and finished earlier, finished less than 180
    seconds ago, and nothing invalidated that repository (nor all of them)
    between the start of that build and now; a build of one milestone is never
    served from the cache. *)
Theorem cached_graph_fresh {G} (trace : list (event G)) (s : loop_state G)
    (now : Z) (repo milestone : string) (c' : Cache G) (g : G) :
  loop_run trace = Some s ->
  build_start now repo milestone (l_cache s) = (c', Cached g) ->
  milestone = EmptyString /\
  exists at_, (now - at_ < GRAPH_CACHE_TTL)%Z /\ built_since trace repo at_ g.
Proof.
  intros Hrun Hs. destruct (build_start_cached _ _ _ _ _ _ Hs) as (-> & _ & at_ & Hc & Hage).
  split; [done|]. exists at_. split; [done|]. by eapply (ti_cache _ _ (loop_run_inv _ _ Hrun)).
Qed.

(** ** Concrete runs *)

Definition a_task (id body : string) (state : TaskState.t) : Task :=
  {| task_id := id; task_title := id; task_body := body; task_state := state;
     task_labels := ["agent:ready"%string]; task_assignees := []; task_milestone := ""; task_priority := Priority.MEDIUM |}.

(** 2 depends on 1, 3 on 1 and 2, 4 on itself and 3. *)
Definition some_tasks : list Task :=
  [a_task "1" "" TaskState.DONE; a_task "2" "## Dependencies
- #1" TaskState.TRIAGED;
   a_task "3" "## Dependencies
- #1, #2
## Other
- #9" TaskState.TRIAGED;
   a_task "4" "## Dependencies
- #4 and #3" TaskState.TRIAGED].

(** 1 and 2 depend on each other, 3 on 1. *)
Definition cyclic_tasks : list Task :=
  [a_task "1" "## Dependencies
#2" TaskState.TRIAGED; a_task "2" "## Dependencies
#1" TaskState.TRIAGED; a_task "3" "## Dependencies
#1" TaskState.TRIAGED].

#[local] Instance Z_order : SetOrder Z := elements_order.

Definition graph_of (tasks : list Task) : DependencyGraph :=
  match make_graph tasks None with
  | Ret g => g
  | Raise _ => {| g_tasks := ∅; g_requested := None; g_deps := ∅; g_rdeps := ∅ |}
  end.

Example some_groups :
  map pg_task_ids (get_parallel_groups (graph_of some_tasks)) = [[1%Z]; [2%Z]; [3%Z]; [4%Z]] /\
  get_chain (graph_of some_tasks) 3 = [1%Z; 2%Z; 3%Z] /\
  get_ready_tasks (graph_of some_tasks) ∅ = [2%Z] /\
  vr_cycle_members (validate (graph_of cyclic_tasks)) = [1%Z; 2%Z; 3%Z].
Proof. split_and!; vm_compute; reflexivity. Qed.

Lemma some_graph : make_graph some_tasks None = Ret (graph_of some_tasks) /\ NoDup (issue_ids some_tasks).
Proof. split; [vm_compute; reflexivity|apply (bool_decide_unpack _); vm_compute; exact I]. Qed.

Lemma cyclic_graph : make_graph cyclic_tasks None = Ret (graph_of cyclic_tasks) /\ NoDup (issue_ids cyclic_tasks).
Proof. split; [vm_compute; reflexivity|apply (bool_decide_unpack _); vm_compute; exact I]. Qed.

Lemma some_graph_ok : wf (graph_of some_tasks).
Proof. destruct some_graph as [Hg Hnd]. by destruct (make_graph_wf _ _ _ Hg Hnd). Qed.

Lemma constructor_correct_witness :
  g_tasks (graph_of some_tasks) !! 2%Z = Some (a_task "2" "## Dependencies
- #1" TaskState.TRIAGED) /\
  ((2%Z, 1%Z) ∈ edges (graph_of some_tasks) <-> 1%Z ∈ deps_of (graph_of some_tasks) 2).
Proof.
  destruct some_graph as [Hg Hnd].
  split; [vm_compute; reflexivity|]. by apply (constructor_correct some_tasks None Hnd).
Defined.

Lemma validate_correct_witness :
  ~ (3%Z ∈ known (graph_of cyclic_tasks) /\ 3%Z ∉ vr_cycle_members (validate (graph_of cyclic_tasks))) /\
  exists c, before (graph_of cyclic_tasks) (known (graph_of cyclic_tasks)) c c.
Proof.
  destruct cyclic_graph as [Hg Hnd].
  assert (3%Z ∈ vr_cycle_members (validate (graph_of cyclic_tasks))) as H3.
  { apply (bool_decide_unpack _). vm_compute. exact I. }
  split; [tauto|].
  apply (validate_correct cyclic_tasks None _ Hg Hnd) in H3 as (_ & c & Hc & _). by exists c.
Defined.

Lemma parallel_groups_correct_witness :
  exists j, j < 2 /\ in_group (get_parallel_groups (graph_of some_tasks)) j 2%Z.
Proof.
  destruct some_graph as [Hg Hnd].
  apply (parallel_groups_correct some_tasks None _ Hg Hnd) with (d := 3%Z).
  - eexists. split; [vm_compute; reflexivity|]. apply (bool_decide_unpack _). vm_compute. exact I.
  - apply (bool_decide_unpack _). vm_compute. exact I.
  - apply (bool_decide_unpack _). vm_compute. exact I.
Defined.

Lemma get_chain_correct_witness :
  get_chain (graph_of some_tasks) 3 = [1%Z; 2%Z; 3%Z] /\ NoDup (get_chain (graph_of some_tasks) 3).
Proof.
  destruct some_graph as [Hg Hnd].
  split; [vm_compute; reflexivity|]. by apply (get_chain_correct some_tasks None _ 3 Hg Hnd).
Defined.

Lemma ready_tasks_correct_witness :
  2%Z ∈ get_ready_tasks (graph_of some_tasks) ∅ /\ dep_satisfied (graph_of some_tasks) 1%Z.
Proof.
  destruct some_graph as [Hg Hnd].
  assert (2%Z ∈ get_ready_tasks (graph_of some_tasks) ∅) as H2.
  { apply (bool_decide_unpack _). vm_compute. exact I. }
  split; [done|]. eapply (ready_tasks_correct some_tasks None _ Hg Hnd); [exact H2|].
  apply (bool_decide_unpack _). vm_compute. exact I.
Defined.

(** The tracker answers every fetch of an issue it holds. *)
Definition fetch_from (tasks : list Task) (n : Z) : option Task :=
  list_find (fun t => PyStr.int_of (task_id t) = Some n) tasks ≫= fun r => Some r.2.

Lemma fetch_from_id tasks n t : fetch_from tasks n = Some t -> PyStr.int_of (task_id t) = Some n.
Proof.
  unfold fetch_from. destruct (list_find _ tasks) as [[i u]|] eqn:E; [|done]. intros [= <-].
  by apply list_find_Some in E as (_ & ? & _).
Qed.

Definition assembled : DependencyGraph :=
  match assemble (drop 2 some_tasks) (drop 1 some_tasks) (fetch_from some_tasks) "m1" with
  | Ret g => g
  | Raise _ => graph_of []
  end.

Lemma assemble_correct_witness :
  g_requested assembled = Some {[2; 3; 4]}%Z /\ nodes assembled = [1; 2; 3; 4]%Z /\
  exists l, forall i t, (i, t) ∈ kept l -> g_tasks assembled !! i = Some t.
Proof.
  split; [vm_compute; reflexivity|]. split; [vm_compute; reflexivity|].
  destruct (assemble_correct (drop 2 some_tasks) (drop 1 some_tasks) (fetch_from some_tasks) "m1" assembled)
    as (l & _ & _ & Hl & _).
  - apply (bool_decide_unpack _). vm_compute. exact I.
  - apply (bool_decide_unpack _). vm_compute. exact I.
  - apply fetch_from_id.
  - vm_compute. reflexivity.
  - by exists l.
Defined.

(** A build of "r", invalidated while it runs, then another one. *)
Definition a_trace : list (event nat) :=
  [EStart 0 0 "r" ""; EInvalidate ""; EStart 1 5 "r" ""; EFinish 0 10 7; EFinish 1 20 8].

Lemma cached_graph_fresh_witness :
  exists s c', loop_run a_trace = Some s /\
    build_start 100 "r" "" (l_cache s) = (c', Cached 8) /\
    exists at_, (100 - at_ < GRAPH_CACHE_TTL)%Z /\ built_since a_trace "r" at_ 8.
Proof.
  eexists _, _. split; [vm_compute; reflexivity|]. split; [vm_compute; reflexivity|].
  eapply (cached_graph_fresh a_trace _ 100 "r" ""); vm_compute; reflexivity.
Defined.

(** The classifier and the ranking on this graph. *)
Lemma unblock_count_exact_witness :
  unblock_count 1%Z (graph_of some_tasks) = 3 /\
  exists counted : gset Z, unblock_count 1%Z (graph_of some_tasks) = size counted.
Proof.
  split; [vm_compute; reflexivity|].
  destruct (unblock_count_exact 1%Z (graph_of some_tasks)) as (counted & _ & E & _);
    [exact some_graph_ok|].
  by exists counted.
Defined.

Lemma rank_next_tasks_correct_witness :
  let r := rank_next_tasks some_tasks (graph_of some_tasks) ∅ ∅ None in
  map (fun e => task_id (rt_task e)) r = ["2"%string] /\ NoDup (map rt_task r).
Proof.
  split; [vm_compute; reflexivity|].
  apply (rank_next_tasks_correct (graph_of some_tasks) ∅ ∅ some_tasks some_tasks 1); [|done].
  apply some_graph.
Defined.
