(* ===== verification/Review.v ===== *)
(** * Reviews: the markers SOVA leaves in them and the bodies it writes

    [Module Markers] is sova/utils/review_markers.py: the two regular
    expressions, as executable matchers on ASCII text, and the marker and summary
    formatters. [Module Format] is sova/roles/_review_format.py: severities,
    verdicts and the body of a review. The theorems are the round trips between
    the writers and the readers. *)

From stdpp Require Import base strings list pretty.
From Stdlib Require Import Ascii.
From S2P Require Import Prelude.

Local Open Scope string_scope.

Module Markers.

(** ** Matching

    Each expression matches at a position in at most one way: the classes of
    adjacent parts are disjoint, so greedy matching loses nothing. *)

Definition spaces (l : list ascii) : list ascii := PyStr.drop_while PyStr.is_space l.

(** A literal, given in lower case; [re.IGNORECASE] on ASCII text. *)
Fixpoint eat (p l : list ascii) : option (list ascii) :=
  match p, l with
  | [], _ => Some l
  | a :: p, c :: l => if Ascii.eqb a (PyStr.lower_char c) then eat p l else None
  | _ :: _, [] => None
  end.

Definition lit (p : string) (l : list ascii) : option (list ascii) := eat (PyStr.to_list p) l.

(** [[0-9a-f]], ignoring case *)
Definition is_hex (c : ascii) : bool :=
  let n := nat_of_ascii (PyStr.lower_char c) in
  ((48 <=? n)%nat && (n <=? 57)%nat) || ((97 <=? n)%nat && (n <=? 102)%nat).

(** [[0-9a-f]{7,40}] up to a character that is not a digit of it. *)
Definition sha_at (l : list ascii) : option (list ascii * list ascii) :=
  let hex := PyStr.take_while is_hex l in
  if (7 <=? length hex)%nat && (length hex <=? 40)%nat then Some (hex, drop (length hex) l) else None.

(** [\s*-->] *)
Definition closes (l : list ascii) : bool := if lit "-->" (spaces l) then true else false.

Definition starts_with_space (l : list ascii) : bool :=
  match l with c :: _ => PyStr.is_space c | [] => false end.

(** [SHA_RE.fullmatch] *)
Definition is_sha (s : string) : bool :=
  let l := PyStr.to_list s in forallb is_hex l && (7 <=? length l)%nat && (length l <=? 40)%nat.

(** [\s*:\s*sha=([0-9a-f]{7,40})] followed by the end of the marker. *)
Definition addressed_anchor (l : list ascii) : bool :=
  match lit ":" (spaces l) with
  | None => false
  | Some l =>
      match lit "sha=" (spaces l) with
      | None => false
      | Some l => match sha_at l with Some (_, l) => closes l | None => false end
      end
  end.

(** [SOVA_ADDRESSED_MARKER_RE] at one position. *)
Definition addressed_at (l : list ascii) : option unit :=
  match lit "<!--" l with
  | None => None
  | Some l =>
      match lit "sova-addressed" (spaces l) with
      | None => None
      | Some l => if addressed_anchor l || closes l then Some tt else None
      end
  end.

(** [(?:\s+sha=([0-9a-f]{7,40}))?\s*-->]: the group, when the rest matches. *)
Definition verdict_anchor (l : list ascii) : option (option (list ascii)) :=
  let anchored :=
    if starts_with_space l then
      match lit "sha=" (spaces l) with
      | None => None
      | Some l => match sha_at l with
                  | Some (sha, l) => if closes l then Some sha else None
                  | None => None
                  end
      end
    else None in
  match anchored with
  | Some sha => Some (Some sha)
  | None => if closes l then Some None else None
  end.

(** [(approve|revise|block)], lower-cased *)
Definition verdict_word (l : list ascii) : option (string * list ascii) :=
  match lit "approve" l with
  | Some l => Some ("approve", l)
  | None =>
      match lit "revise" l with
      | Some l => Some ("revise", l)
      | None => match lit "block" l with Some l => Some ("block", l) | None => None end
      end
  end.

(** [SOVA_VERDICT_MARKER_RE] at one position: its groups. *)
Definition verdict_at (l : list ascii) : option (string * option (list ascii)) :=
  match lit "<!--" l with
  | None => None
  | Some l =>
      match lit "sova-review:" (spaces l) with
      | None => None
      | Some l =>
          match verdict_word (spaces l) with
          | None => None
          | Some (verdict, l) => (fun sha => (verdict, sha)) <$> verdict_anchor l
          end
      end
  end.

(** [re.search]: the first position with a match. *)
Fixpoint search {A} (at_position : list ascii -> option A) (l : list ascii) : option A :=
  match at_position l with
  | Some a => Some a
  | None => match l with [] => None | _ :: l => search at_position l end
  end.

(** [SOVA_ADDRESSED_MARKER_RE.search(body)], as a truth value *)
Definition has_addressed_marker (body : string) : bool :=
  if search addressed_at (PyStr.to_list body) then true else false.

(** [parse_verdict_marker] *)
Definition parse_verdict_marker (body : string) : option (string * option string) :=
  match search verdict_at (PyStr.to_list body) with
  | None => None
  | Some (verdict, sha) => Some (verdict, (fun l => PyStr.lower (PyStr.of_list l)) <$> sha)
  end.

(** ** Writing *)

Definition INLINE_COMMENT_STUB : string := "see inline comment above.".
Definition FINDING_TEXT_MAX : nat := 140.

(** [addressed_marker] *)
Definition addressed_marker (sha : option string) : string :=
  match sha with
  | Some sha => if is_sha sha then "<!-- sova-addressed: sha=" ++ PyStr.lower sha ++ " -->"
                else "<!-- sova-addressed -->"
  | None => "<!-- sova-addressed -->"
  end.

Definition rstrip (s : string) : string :=
  PyStr.of_list (PyStr.drop_while_end PyStr.is_space (PyStr.to_list s)).

(** [s.replace("|", "\\|")] *)
Definition escape_pipes (s : string) : string :=
  PyStr.of_list (flat_map (fun c => if Ascii.eqb c "|"%char then ["\"%char; c] else [c]) (PyStr.to_list s)).

(** [_cell] *)
Definition cell (text : string) : string :=
  let flat := PyStr.flatten text in
  escape_pipes (if (FINDING_TEXT_MAX <? String.length flat)%nat
                then rstrip (PyStr.slice_to (FINDING_TEXT_MAX - 3) flat) ++ "..." else flat).

(** A finding of a review (a dict: each key may be absent or empty). *)
Record Finding := {
  f_file : option string;
  f_line : option Z;
  f_severity : option Z;
  f_category : option string;
  f_description : option string;
  f_suggestion : option string;
}.

(** [_finding_cell] *)
Definition finding_cell (f : Finding) : string :=
  let location := PyStr.strip (default "" (f_file f)) in
  let location :=
    match f_line f with
    | Some line => if bool_decide (location = "") || bool_decide (line = 0%Z) then location
                   else location ++ ":" ++ pretty line
    | None => location
    end in
  let description := cell (default "" (f_description f)) in
  let prefix := match f_severity f with Some s => "[" ++ pretty s ++ "/10] " | None => "" end in
  if bool_decide (location = "") then prefix ++ description
  else prefix ++ "`" ++ cell location ++ "`: " ++ description.

Definition nl : string := String "010" "".

(** [enumerate(findings, start=i)], a row each *)
Fixpoint rows (i : Z) (action : string) (findings : list Finding) : list string :=
  match findings with
  | [] => []
  | f :: findings =>
      ("| " ++ pretty i ++ " | " ++ finding_cell f ++ " | " ++ action ++ " |") :: rows (i + 1) action findings
  end.

(** [format_address_summary]; an empty sha is no sha. *)
Definition format_address_summary (findings : list Finding) (head_sha : option string) (round_no : Z) : string :=
  let head_sha := match head_sha with Some "" => None | _ => head_sha end in
  let action := match head_sha with
                | Some sha => "Addressed in " ++ PyStr.slice_to 7 sha ++ "."
                | None => "Addressed."
                end in
  let lines := [addressed_marker head_sha; ""; "## Address Review: Round " ++ pretty round_no; ""] in
  PyStr.join nl
    (lines ++
     match findings with
     | [] => ["No review findings were pending; the push carried deferred documentation only."]
     | _ => ["| # | Finding | Action |"; "|---|---------|--------|"] ++ rows 1 action findings
     end)%list.

End Markers.

Module Format.
Import Markers.

Definition SEVERITY_CRITICAL : Z := 7.
Definition SEVERITY_HIGH : Z := 5.
Definition SEVERITY_MEDIUM : Z := 3.

(** [clamp_severity] *)
Definition clamp_severity (severity : Z) : Z := Z.max 1 (Z.min 10 severity).

(** [severity_label] *)
Definition severity_label (severity : Z) : string :=
  let clamped := clamp_severity severity in
  if Z.leb SEVERITY_CRITICAL clamped then "CRITICAL"
  else if Z.leb SEVERITY_HIGH clamped then "HIGH"
  else if Z.leb SEVERITY_MEDIUM clamped then "MEDIUM"
  else "LOW".

Inductive verdict := APPROVE | REVISE | BLOCK.

#[export] Instance verdict_eq_dec : EqDecision verdict.
Proof. solve_decision. Defined.

Definition verdict_text (v : verdict) : string :=
  match v with APPROVE => "APPROVE" | REVISE => "REVISE" | BLOCK => "BLOCK" end.

(** [max(...)] of a list that is not empty. *)
Definition max_of (x : Z) (l : list Z) : Z := foldl Z.max x l.

(** [verdict_from_severities] *)
Definition verdict_from_severities (severities : list Z) (revise_at block_at : Z) : verdict :=
  match map clamp_severity severities with
  | [] => APPROVE
  | s :: l =>
      let max_sev := max_of s l in
      if Z.leb block_at max_sev then BLOCK
      else if Z.leb revise_at max_sev then REVISE
      else APPROVE
  end.

Definition severity_of (f : Finding) : Z := default 5%Z (f_severity f).

(** [verdict_from_findings] *)
Definition verdict_from_findings (findings : list Finding) (revise_at block_at : Z) : verdict :=
  verdict_from_severities (map severity_of findings) revise_at block_at.

(** [_verdict_action] *)
Definition verdict_action (v : verdict) : string :=
  match v with APPROVE => "Approved" | BLOCK => "Block" | REVISE => "Request changes" end.

Definition SEVERITY_LABEL_ORDER : list string := ["CRITICAL"; "HIGH"; "MEDIUM"; "LOW"].

Definition blocking_severities (findings : list Finding) (revise_at : Z) : list Z :=
  List.filter (fun s => Z.leb revise_at s) (map (fun f => clamp_severity (severity_of f)) findings).

(** [_verdict_rationale] *)
Definition verdict_rationale (v : verdict) (findings : list Finding) (revise_at : Z) : string :=
  if decide (v = APPROVE) then "no issues found"
  else
    match blocking_severities findings revise_at with
    | [] => "no issues found"
    | blocking =>
        let count label :=
          length (List.filter (fun s => bool_decide (severity_label s = label)) blocking) in
        let part label := if decide (count label = 0%nat) then None
                          else Some (pretty (Z.of_nat (count label)) ++ " " ++ PyStr.lower label) in
        PyStr.join ", " (omap part SEVERITY_LABEL_ORDER) ++ " finding(s) require changes"
    end.

(** [a or b] on texts *)
Definition or_else (a : option string) (b : string) : string :=
  match a with Some "" | None => b | Some s => s end.

(** [_format_finding_line]; [inline] lists the places that got their own inline
    comment. *)
Definition format_finding_line (inline : list (string * option Z)) (f : Finding) : string :=
  let sev := clamp_severity (severity_of f) in
  let file_path := or_else (f_file f) "unknown" in
  let loc := match f_line f with
             | Some line => "`" ++ file_path ++ ":" ++ pretty line ++ "`"
             | None => "`" ++ file_path ++ "`"
             end in
  let head := "- **[" ++ severity_label sev ++ " " ++ pretty sev ++ "/10]** ["
              ++ default "other" (f_category f) ++ "] " ++ loc ++ ": " in
  if bool_decide ((file_path, f_line f) ∈ inline) then head ++ INLINE_COMMENT_STUB
  else
    let desc := PyStr.flatten (or_else (f_description f) "Issue detected") in
    let suggestion := PyStr.flatten (default "" (f_suggestion f)) in
    head ++ desc ++ (if bool_decide (suggestion = "") then "" else " Fix: " ++ suggestion).

(** The findings of one group, most severe first; [sorted(..., reverse=True)] is
    stable. *)
Definition by_severity (findings : list Finding) : list Finding :=
  sort_by (fun f => [(- clamp_severity (severity_of f))%Z]) findings.

Definition count_label (n : nat) : string := if decide (n = 1%nat) then "finding" else "findings".

Definition is_blocking (revise_at : Z) (f : Finding) : bool := Z.leb revise_at (clamp_severity (severity_of f)).

(** The lines of [format_review_body] after its first. *)
Definition body_lines (findings : list Finding) (summary : string) (positives : list string)
    (revise_at block_at : Z) (inline : list (string * option Z)) : list string :=
  let v := verdict_from_findings findings revise_at block_at in
  let effective_summary := if bool_decide (PyStr.strip summary = "") then "Review of changes." else PyStr.strip summary in
  let blocking := List.filter (is_blocking revise_at) findings in
  let advisory := List.filter (fun f => negb (is_blocking revise_at f)) findings in
  (["" ; ("## Review: " ++ verdict_text v)%string; ""; effective_summary; ""; "### Findings"; ""]
   ++ match blocking with
      | [] => [match findings with
               | [] => "No issues found after thorough review."
               | _ => "No blocking issues found after thorough review."
               end]
      | _ => [("**" ++ pretty (Z.of_nat (length blocking)) ++ " " ++ count_label (length blocking) ++ "**")%string; ""]
             ++ map (format_finding_line inline) (by_severity blocking)
      end
   ++ match advisory with
      | [] => []
      | _ => [""; "### Advisory (not blocking)"; "";
              ("**" ++ pretty (Z.of_nat (length advisory)) ++ " " ++ count_label (length advisory)
               ++ "** (recorded for a later fix round, does not block approval)")%string; ""]
             ++ map (format_finding_line []) (by_severity advisory)
      end
   ++ match positives with
      | [] => []
      | _ => [""; "### What's Done Well"] ++ map (fun p => ("- " ++ p)%string) positives
      end
   ++ [""; "### Verdict"; ("**" ++ verdict_action v ++ "**: " ++ verdict_rationale v findings revise_at ++ ".")%string])%list.

(** The marker line of [format_review_body]; an empty sha is no sha. *)
Definition review_marker (v : verdict) (sha : option string) : string :=
  let sha_suffix := match sha with Some "" | None => "" | Some sha => " sha=" ++ sha end in
  "<!-- sova-review: " ++ PyStr.lower (verdict_text v) ++ sha_suffix ++ " -->".

(** [format_review_body] *)
Definition format_review_body (findings : list Finding) (summary : string) (positives : list string)
    (sha : option string) (revise_at block_at : Z) (inline : list (string * option Z)) : string :=
  PyStr.join nl
    (review_marker (verdict_from_findings findings revise_at block_at) sha
     :: body_lines findings summary positives revise_at block_at inline).

(** [normalize_sha] of a text *)
Definition normalize_sha (value : option string) : option string :=
  match value with
  | Some v => if is_sha v then Some (PyStr.lower v) else None
  | None => None
  end.

End Format.

Local Close Scope string_scope.

(** ** Lemmas *)

Lemma to_list_app s t : PyStr.to_list (s ++ t)%string = PyStr.to_list s ++ PyStr.to_list t.
Proof. induction s as [|c s IH]; [done|]. exact (f_equal (cons c) IH). Qed.

Lemma of_list_app k l : PyStr.of_list (k ++ l) = (PyStr.of_list k ++ PyStr.of_list l)%string.
Proof. induction k as [|c k IH]; [done|]. exact (f_equal (String c) IH). Qed.

Lemma join_cons sep x l : exists rest, PyStr.join sep (x :: l) = (x ++ rest)%string.
Proof.
  destruct l as [|y l]; [|by eexists]. exists ""%string. change (PyStr.join sep [x]) with x.
  induction x as [|c x IH]; [done|]. exact (f_equal (String c) IH).
Qed.

Lemma eat_app p q l : map PyStr.lower_char q = p -> Markers.eat p (q ++ l) = Some l.
Proof.
  revert p. induction q as [|c q IH]; intros p <-; [done|]. cbn.
  rewrite Ascii.eqb_refl. by apply IH.
Qed.

Lemma sha_at_app sha x l :
  Markers.is_sha sha = true -> Markers.is_hex x = false ->
  Markers.sha_at (PyStr.to_list sha ++ x :: l) = Some (PyStr.to_list sha, x :: l).
Proof.
  unfold Markers.is_sha, Markers.sha_at. intros H Hx.
  apply andb_true_iff in H as [[H1 H2]%andb_true_iff H3].
  rewrite PyStr.take_while_app, H2, H3 by done. cbn. by rewrite drop_app_length.
Qed.

Lemma is_hex_lower c : Markers.is_hex (PyStr.lower_char c) = Markers.is_hex c.
Proof. unfold Markers.is_hex. by rewrite PyStr.lower_char_idemp. Qed.

Lemma is_sha_lower sha : Markers.is_sha (PyStr.lower sha) = Markers.is_sha sha.
Proof.
  unfold Markers.is_sha, PyStr.lower. rewrite PyStr.to_of_list, length_map. f_equal. f_equal.
  induction (PyStr.to_list sha) as [|c l IH]; [done|]. cbn. by rewrite is_hex_lower, IH.
Qed.

(** ** The round trip of a review *)

Section roundtrip.
Import Markers Format.

Lemma verdict_at_word v l :
  verdict_at (PyStr.to_list "<!-- sova-review: " ++ PyStr.to_list (PyStr.lower (verdict_text v)) ++ l)
    = (fun sha => (PyStr.lower (verdict_text v), sha)) <$> verdict_anchor l.
Proof. by destruct v. Qed.

Lemma verdict_anchor_sha l :
  verdict_anchor (PyStr.to_list " sha=" ++ l)
    = match (match sha_at l with Some (sha, l) => if closes l then Some sha else None | None => None end) with
      | Some sha => Some (Some sha)
      | None => None
      end.
Proof. done. Qed.

Lemma anchor_sha sha l :
  is_sha sha = true ->
  verdict_anchor (PyStr.to_list " sha=" ++ PyStr.to_list sha ++ PyStr.to_list " -->" ++ l)
    = Some (Some (PyStr.to_list sha)).
Proof.
  intros H. rewrite verdict_anchor_sha.
  change (PyStr.to_list " -->" ++ l) with (" "%char :: PyStr.to_list "-->" ++ l).
  by rewrite sha_at_app.
Qed.

Lemma verdict_at_marker v (sha : option string) rest :
  match sha with Some s => is_sha s = true | None => True end ->
  verdict_at (PyStr.to_list (review_marker v sha) ++ rest)
    = Some (PyStr.lower (verdict_text v), PyStr.to_list <$> sha).
Proof.
  intros Hsha. unfold review_marker. destruct sha as [[|c sha]|]; [done| |by destruct v].
  rewrite !to_list_app, <- !app_assoc, verdict_at_word. by rewrite anchor_sha.
Qed.

Lemma search_here {A} (f : list ascii -> option A) l a : f l = Some a -> search f l = Some a.
Proof. intros H. destruct l; cbn; by rewrite H. Qed.

Lemma parse_marker_first v sha rest :
  match sha with Some s => is_sha s = true | None => True end ->
  parse_verdict_marker (review_marker v sha ++ rest)%string
    = Some (PyStr.lower (verdict_text v), PyStr.lower <$> sha).
Proof.
  intros H. unfold parse_verdict_marker. rewrite to_list_app.
  erewrite search_here; [|by apply verdict_at_marker].
  f_equal. f_equal. destruct sha as [sha|]; [|done]. cbn. by rewrite PyStr.of_to_list.
Qed.

Lemma addressed_marker_first sha rest :
  has_addressed_marker (addressed_marker sha ++ rest)%string = true.
Proof.
  unfold has_addressed_marker. erewrite search_here; [done|]. unfold addressed_marker.
  destruct sha as [sha|]; [|done]. destruct (is_sha sha) eqn:E; [|done].
  rewrite !to_list_app, <- !app_assoc.
  assert (forall l, addressed_at (PyStr.to_list "<!-- sova-addressed: sha=" ++ l)
    = if match sha_at l with Some (_, l) => closes l | None => false end || closes (":"%char :: " "%char :: l)
      then Some tt else None) as -> by done.
  assert (forall l, PyStr.to_list " -->" ++ l = " "%char :: PyStr.to_list "-->" ++ l) as -> by done.
  rewrite sha_at_app; [done| |done]. by rewrite is_sha_lower.
Qed.

(** a review can always be read back. Whatever the findings, the summary, the
    positives, the thresholds and the inline comments, and whatever text they
    quote, the verdict and the anchor that [parse_verdict_marker] reads from a
    formatted review are those it was formatted with. *)
Theorem review_body_roundtrip (findings : list Finding) (summary : string) (positives : list string)
    (value : option string) (revise_at block_at : Z) (inline : list (string * option Z)) :
  parse_verdict_marker
    (format_review_body findings summary positives (normalize_sha value) revise_at block_at inline)
  = Some (PyStr.lower (verdict_text (verdict_from_findings findings revise_at block_at)), normalize_sha value).
Proof.
  unfold format_review_body. edestruct join_cons as [rest ->].
  assert (match normalize_sha value with Some s => is_sha s = true | None => True end) as H.
  { unfold normalize_sha. destruct value as [v|]; [|done]. destruct (is_sha v) eqn:E; [|done].
    by rewrite is_sha_lower. }
  rewrite parse_marker_first by done. f_equal. f_equal.
  unfold normalize_sha. destruct value as [v|]; [|done]. destruct (is_sha v); [|done].
  cbn. by rewrite PyStr.lower_idemp.
Qed.

(** an address cycle is always counted: the summary that an address cycle
    posts carries the addressed marker, whatever its findings and its anchor, and
    even when the commit lookup gave something that is no commit. *)
Theorem address_summary_counts (findings : list Finding) (head_sha : option string) (round_no : Z) :
  has_addressed_marker (format_address_summary findings head_sha round_no) = true.
Proof.
  unfold format_address_summary. cbn [app]. edestruct join_cons as [rest ->].
  apply addressed_marker_first.
Qed.

Lemma max_of_le x l b : (max_of x l < b)%Z <-> Forall (fun y => (y < b)%Z) (x :: l).
Proof.
  unfold max_of. revert x. induction l as [|y l IH]; intros x; cbn [foldl].
  - rewrite Forall_singleton. done.
  - rewrite IH, !Forall_cons, Z.max_lub_lt_iff. tauto.
Qed.

Lemma verdict_from_below findings b (s : Z) l :
  map clamp_severity (map severity_of findings) = s :: l ->
  (max_of s l < b)%Z <-> Forall (fun f => (clamp_severity (severity_of f) < b)%Z) findings.
Proof. intros H. rewrite max_of_le, <- H, List.map_map, Forall_map. done. Qed.

Lemma blocking_severities_nil findings revise_at :
  blocking_severities findings revise_at = [] <->
  Forall (fun f => (clamp_severity (severity_of f) < revise_at)%Z) findings.
Proof.
  unfold blocking_severities. induction findings as [|f fs IH]; [done|].
  cbn [map List.filter]. rewrite Forall_cons, <- IH.
  destruct (Z.leb_spec revise_at (clamp_severity (severity_of f))); split; try done; [lia|].
  by intros [_ ?].
Qed.

(** the verdict follows the severities. With thresholds in order, a review
    approves exactly when no finding is listed as blocking, blocks exactly when
    some finding reaches the blocking threshold, and gives the reason "no issues
    found" exactly when it approves; with the default thresholds it blocks exactly
    when a finding is labelled CRITICAL. *)
Theorem verdict_correct (findings : list Finding) (revise_at block_at : Z) :
  (revise_at <= block_at)%Z ->
  let v := verdict_from_findings findings revise_at block_at in
  (v = APPROVE <-> List.filter (is_blocking revise_at) findings = []) /\
  (v = BLOCK <-> Exists (fun f => (block_at <= clamp_severity (severity_of f))%Z) findings) /\
  (verdict_rationale v findings revise_at = "no issues found"%string <-> v = APPROVE) /\
  (block_at = SEVERITY_CRITICAL ->
   v = BLOCK <-> Exists (fun f => severity_label (severity_of f) = "CRITICAL"%string) findings).
Proof.
  intros Hle v.
  assert ((v = APPROVE <-> Forall (fun f => (clamp_severity (severity_of f) < revise_at)%Z) findings) /\
          (v = BLOCK <-> ~ Forall (fun f => (clamp_severity (severity_of f) < block_at)%Z) findings)) as [HA HB].
  { subst v. unfold verdict_from_findings, verdict_from_severities.
    destruct (map clamp_severity _) as [|s l] eqn:E.
    - destruct findings; [|done]. split; split; try done; by intros [].
    - rewrite <- (verdict_from_below _ revise_at _ _ E), <- (verdict_from_below _ block_at _ _ E).
      destruct (Z.leb_spec block_at (max_of s l)), (Z.leb_spec revise_at (max_of s l));
        split; split; try done; try lia; by intros []. }
  assert (v = BLOCK <-> Exists (fun f => (block_at <= clamp_severity (severity_of f))%Z) findings) as HB'.
  { rewrite HB. split; intros H.
    - apply not_Forall_Exists in H; [|intros f; apply _]. eapply Exists_impl; [exact H|]. cbn. lia.
    - apply Exists_not_Forall. eapply Exists_impl; [exact H|]. cbn. lia. }
  split_and!; [|done| |].
  - rewrite HA. clear. induction findings as [|f fs IH]; [done|].
    rewrite Forall_cons, IH. cbn [List.filter]. unfold is_blocking at 2.
    destruct (Z.leb_spec revise_at (clamp_severity (severity_of f))); split; try done; [lia|].
    by intros [_ ?].
  - unfold verdict_rationale. destruct (decide (v = APPROVE)) as [->|Hv]; [done|].
    split; [|done]. pose proof (blocking_severities_nil findings revise_at) as Hb.
    rewrite HA, <- Hb. destruct (blocking_severities findings revise_at) as [|s l]; [done|].
    intros H. apply (f_equal (fun t => length (PyStr.to_list t))) in H.
    rewrite to_list_app, length_app in H. cbn in H. lia.
  - intros ->. rewrite HB'. split; intros H; eapply Exists_impl; [exact H| |exact H|]; intros f; cbn;
      unfold severity_label, SEVERITY_CRITICAL, SEVERITY_HIGH, SEVERITY_MEDIUM;
      repeat case_match; try done; lia.
Qed.


(** ** Reviews that quote no marker *)

(** No character that could open a marker. *)
Definition plain (s : string) : Prop := Forall (fun c => c <> "<"%char) (PyStr.to_list s).

Lemma plain_app s t : plain (s ++ t)%string <-> plain s /\ plain t.
Proof. unfold plain. by rewrite to_list_app, Forall_app. Qed.

Lemma plain_join sep l : plain sep -> Forall plain l -> plain (PyStr.join sep l).
Proof.
  intros Hs Hl. induction Hl as [|x l Hx Hl IH]; [by constructor|].
  destruct l as [|y l]; [done|]. by apply plain_app; split; [|apply plain_app].
Qed.

Lemma plain_sub (l : list ascii) s : (forall c, c ∈ l -> c ∈ PyStr.to_list s) -> plain s -> plain (PyStr.of_list l).
Proof. unfold plain. rewrite PyStr.to_of_list, !Forall_forall. auto. Qed.

Lemma elem_of_drop_while {A} (f : A -> bool) l x : x ∈ PyStr.drop_while f l -> x ∈ l.
Proof. induction l as [|a l IH]; [done|]. cbn. destruct (f a); [|done]. right. auto. Qed.

Lemma elem_of_rev_iff {A} (l : list A) x : x ∈ rev l <-> x ∈ l.
Proof. by rewrite !list_elem_of_In, <- in_rev. Qed.

Lemma plain_strip s : plain s -> plain (PyStr.strip s).
Proof.
  apply plain_sub. intros c. unfold PyStr.strip_list, PyStr.drop_while_end.
  rewrite elem_of_rev_iff. intros H%elem_of_drop_while. rewrite elem_of_rev_iff in H. by eapply elem_of_drop_while.
Qed.

Lemma elem_of_words w l k c : w ∈ PyStr.words k l -> c ∈ w -> c ∈ k \/ c ∈ l.
Proof.
  revert k. induction l as [|a l IH]; intros k; cbn [PyStr.words].
  - destruct k as [|b k]; [by intros ?%not_elem_of_nil|].
    intros ->%list_elem_of_singleton. rewrite elem_of_rev_iff. auto.
  - destruct (PyStr.is_space a); [destruct k as [|b k]; [|intros [->|H]%elem_of_cons]|].
    + intros H1 H2. edestruct IH as [H|H]; [done..| |]; [by apply not_elem_of_nil in H|right; by right].
    + rewrite elem_of_rev_iff. auto.
    + intros H2. edestruct IH as [H'|H']; [done..| |]; [by apply not_elem_of_nil in H'|right; by right].
    + intros H1 H2. edestruct IH as [[->|H]%elem_of_cons|H]; [done..|right; left|by left|right; by right].
Qed.

Lemma plain_flatten s : plain s -> plain (PyStr.flatten s).
Proof.
  intros H. apply plain_join; [by repeat constructor|]. unfold PyStr.split. rewrite Forall_map, Forall_forall.
  intros w Hw. eapply plain_sub; [|exact H]. intros c Hc.
  by destruct (elem_of_words _ _ _ _ Hw Hc) as [?%not_elem_of_nil|?].
Qed.

Lemma plain_pretty_N_go x s : plain s -> plain (pretty_N_go x s).
Proof.
  revert s. induction (N.lt_wf_0 x) as [x _ IH]; intros s Hs.
  destruct (decide (0 < x)%N); [|replace x with 0%N by lia; by rewrite pretty_N_go_0].
  rewrite pretty_N_go_step by done. apply IH; [by apply N.div_lt|].
  constructor; [|done]. unfold pretty_N_char. by repeat case_match.
Qed.

Lemma plain_pretty (z : Z) : plain (pretty z).
Proof.
  assert (forall p, plain (pretty_N (N.pos p))) as Hp.
  { intros p. unfold pretty_N. destruct (decide _); [by repeat constructor|]. by apply plain_pretty_N_go; constructor. }
  destruct z; [by repeat constructor|apply Hp|].
  apply (plain_app "-"). split; [by repeat constructor|apply Hp].
Qed.

Ltac plain_tac :=
  repeat (apply plain_app; split);
  first [done | apply plain_pretty | apply plain_flatten; done | by repeat constructor | idtac].

Definition plain_finding (f : Finding) : Prop :=
  forall s, Some s ∈ [f_file f; f_category f; f_description f; f_suggestion f] -> plain s.

Lemma plain_default (o : option string) d : (forall s, o = Some s -> plain s) -> plain d -> plain (default d o).
Proof. destruct o; cbn; auto. Qed.

Lemma plain_or_else (o : option string) d : (forall s, o = Some s -> plain s) -> plain d -> plain (or_else o d).
Proof. destruct o as [[|c s]|]; cbn; auto. Qed.

Lemma plain_severity_label n : plain (severity_label n).
Proof. unfold severity_label. repeat case_match; by repeat constructor. Qed.

Lemma plain_format_finding_line inline f : plain_finding f -> plain (format_finding_line inline f).
Proof.
  intros Hf. assert (forall o s, o ∈ [f_file f; f_category f; f_description f; f_suggestion f] -> o = Some s -> plain s) as H.
  { intros o s Ho ->. by apply Hf. }
  assert (plain (or_else (f_file f) "unknown")) by (apply plain_or_else; [intros ?; apply H; rewrite !elem_of_cons; auto|by repeat constructor]).
  assert (plain (default "other"%string (f_category f))) by (apply plain_default; [intros ?; apply H; rewrite !elem_of_cons; auto|by repeat constructor]).
  assert (plain (or_else (f_description f) "Issue detected")) by (apply plain_or_else; [intros ?; apply H; rewrite !elem_of_cons; auto|by repeat constructor]).
  assert (plain (default ""%string (f_suggestion f))) by (apply plain_default; [intros ?; apply H; rewrite !elem_of_cons; auto|by repeat constructor]).
  pose proof (plain_severity_label (clamp_severity (severity_of f))).
  unfold format_finding_line. cbv zeta.
  case_bool_decide; [|case_bool_decide]; destruct (f_line f); plain_tac.
Qed.

Lemma plain_by_severity fs : Forall plain_finding fs -> Forall plain_finding (by_severity fs).
Proof. intros H. unfold by_severity. by rewrite (sort_by_perm _ fs). Qed.

Lemma plain_filter (p : Finding -> bool) fs : Forall plain_finding fs -> Forall plain_finding (List.filter p fs).
Proof. rewrite !Forall_forall. intros H x. rewrite list_elem_of_In, List.filter_In, <- list_elem_of_In. naive_solver. Qed.

Lemma plain_lines inline fs : Forall plain_finding fs -> Forall plain (map (format_finding_line inline) (by_severity fs)).
Proof.
  intros H. rewrite Forall_map. eapply Forall_impl; [by apply plain_by_severity|].
  intros f. apply plain_format_finding_line.
Qed.

Lemma plain_verdict_rationale v fs n : plain (verdict_rationale v fs n).
Proof.
  unfold verdict_rationale. destruct (decide _); [by repeat constructor|].
  destruct (blocking_severities fs n) as [|b bs]; [by repeat constructor|].
  apply plain_app. split; [|by repeat constructor]. apply plain_join; [by repeat constructor|].
  apply Forall_forall. intros s (l & Hl & Hs)%list_elem_of_omap. case_decide; simplify_eq.
  apply plain_app. split; [apply plain_pretty|].
  repeat (apply elem_of_cons in Hl as [->|Hl]; [by repeat constructor|]). by apply not_elem_of_nil in Hl.
Qed.

Lemma plain_body_lines fs summary positives revise_at block_at inline :
  Forall plain_finding fs -> plain summary -> Forall plain positives ->
  Forall plain (body_lines fs summary positives revise_at block_at inline).
Proof.
  intros Hf Hs Hp. pose proof (plain_strip _ Hs). unfold body_lines.
  pose proof (plain_lines inline _ (plain_filter (is_blocking revise_at) _ Hf)) as Hb.
  pose proof (plain_lines [] _ (plain_filter (fun f => negb (is_blocking revise_at f)) _ Hf)) as Ha.
  set (v := verdict_from_findings _ _ _). pose proof (plain_verdict_rationale v fs revise_at).
  cbv zeta. revert Hb Ha.
  generalize (List.filter (is_blocking revise_at) fs) as blocking.
  generalize (List.filter (fun f => negb (is_blocking revise_at f)) fs) as advisory.
  intros advisory blocking Hb Ha.
  assert (forall n, plain (count_label n)) by (intros n; unfold count_label; by case_decide; repeat constructor).
  repeat (apply Forall_app; split); repeat (apply Forall_cons; split); try by repeat constructor.
  - by destruct v; repeat constructor.
  - case_bool_decide; [by repeat constructor|done].
  - destruct blocking as [|f bs]; [by destruct fs; repeat constructor|].
    apply Forall_app. split; [|done]. repeat (apply Forall_cons; split); try by repeat constructor. plain_tac.
  - destruct advisory as [|f bs]; [constructor|].
    apply Forall_app. split; [|done]. repeat (apply Forall_cons; split); try by repeat constructor. plain_tac.
  - destruct positives as [|q ps]; [constructor|].
    apply Forall_app. split; [by repeat constructor|]. rewrite Forall_map.
    eapply Forall_impl; [exact Hp|]. intros t Ht. apply (plain_app "- "). by split; [repeat constructor|].
  - plain_tac. by destruct v; repeat constructor.
Qed.

Lemma addressed_at_other c l : c <> "<"%char -> addressed_at (c :: l) = None.
Proof.
  intros Hc. unfold addressed_at, lit. cbn [PyStr.to_list String.list_ascii_of_string eat].
  destruct (Ascii.eqb "<"%char (PyStr.lower_char c)) eqn:E; [|done].
  apply Ascii.eqb_eq in E. exfalso. destruct c as [[] [] [] [] [] [] [] []]; vm_compute in E; try discriminate E; by apply Hc.
Qed.

Lemma search_plain l : Forall (fun c => c <> "<"%char) l -> search addressed_at l = None.
Proof. induction 1 as [|c l Hc Hl IH]; [done|]. cbn [search]. by rewrite addressed_at_other. Qed.

Lemma join_cons_rest sep x l :
  PyStr.join sep (x :: l) = (x ++ match l with [] => "" | _ => sep ++ PyStr.join sep l end)%string.
Proof. destruct l; [|done]. cbn. induction x as [|c x IH]; [done|]. exact (f_equal (String c) IH). Qed.

Lemma plain_sha sha : is_sha sha = true -> plain sha.
Proof.
  unfold is_sha, plain. intros [[H _]%andb_true_iff _]%andb_true_iff.
  induction (PyStr.to_list sha) as [|c l IH]; [constructor|]. cbn in H. apply andb_true_iff in H as [Hc H].
  constructor; [by intros ->|auto].
Qed.

(** a review that quotes nothing is no address cycle. When no text of the
    findings, the summary or the positives holds a ["<"], the body of a review is
    never taken for the summary of an address cycle. *)
Theorem plain_review_is_no_cycle (findings : list Finding) (summary : string) (positives : list string)
    (value : option string) (revise_at block_at : Z) (inline : list (string * option Z)) :
  Forall plain_finding findings -> plain summary -> Forall plain positives ->
  has_addressed_marker
    (format_review_body findings summary positives (normalize_sha value) revise_at block_at inline) = false.
Proof.
  intros Hf Hs Hp. pose proof (plain_body_lines findings summary positives revise_at block_at inline Hf Hs Hp) as Hl.
  unfold format_review_body. rewrite join_cons_rest. revert Hl.
  generalize (body_lines findings summary positives revise_at block_at inline) as ls.
  generalize (verdict_from_findings findings revise_at block_at) as v. intros v ls Hl.
  set (rest := match ls with [] => _ | _ => _ end).
  assert (plain rest) as Hrest.
  { subst rest. destruct ls; [constructor|]. apply plain_app; split; [by repeat constructor|].
    apply plain_join; [by repeat constructor|done]. }
  unfold has_addressed_marker. rewrite to_list_app.
  assert (exists l, PyStr.to_list (review_marker v (normalize_sha value)) = PyStr.to_list "<!-- sova-review:" ++ l /\
    Forall (fun c => c <> "<"%char) l) as (l & -> & Hmarker).
  { unfold review_marker. eexists. rewrite to_list_app. split; [done|]. apply (plain_app " ").
    split; [by repeat constructor|]. apply plain_app. split; [by destruct v; repeat constructor|].
    apply plain_app. split; [|by repeat constructor].
    unfold normalize_sha. destruct value as [s|]; [|constructor]. destruct (is_sha s) eqn:E; [|constructor].
    destruct (PyStr.lower s) as [|c t] eqn:El; [constructor|]. rewrite <- El.
    apply (plain_app " sha="). split; [by repeat constructor|]. apply plain_sha. by rewrite is_sha_lower. }
  assert (Forall (fun c => c <> "<"%char) (l ++ PyStr.to_list rest)) as Hall by by apply Forall_app.
  rewrite <- app_assoc. revert Hall. generalize (l ++ PyStr.to_list rest) as t. intros t Ht.
  change (search addressed_at (PyStr.to_list "<!-- sova-review:" ++ t))
    with (search addressed_at (PyStr.to_list "!-- sova-review:" ++ t)).
  rewrite search_plain; [done|]. apply Forall_app. split; [by repeat constructor|done].
Qed.

Definition a_finding : Finding :=
  {| f_file := Some "a.py"%string; f_line := Some 3%Z; f_severity := Some 8%Z; f_category := None;
     f_description := Some "off by one"%string; f_suggestion := None |}.

Lemma verdict_correct_witness :
  verdict_from_findings [a_finding] 3 7 = BLOCK /\
  Exists (fun f => severity_label (severity_of f) = "CRITICAL"%string) [a_finding].
Proof.
  split; [reflexivity|]. apply (verdict_correct [a_finding] 3 7); [lia|reflexivity|reflexivity].
Defined.

Lemma plain_review_is_no_cycle_witness :
  has_addressed_marker (format_review_body [a_finding] "Fine." [] (normalize_sha None) 3 7 []) = false.
Proof.
  apply plain_review_is_no_cycle; [|by repeat constructor|constructor].
  constructor; [|constructor]. intros s Hs.
  repeat (apply elem_of_cons in Hs as [Hs|Hs]; [simplify_eq/=; try done; by repeat constructor|]).
  by apply not_elem_of_nil in Hs.
Defined.

End roundtrip.
