(* ===== verification/Verdict.v ===== *)
(** * Verdicts: what a review history says about a pull request

    sova/dashboard/services/work_verdict.py: [parse_review_history], the cache of
    verdicts and [resolve_sova_verdict], split where it awaits GitHub so that
    other requests may run in between; and the circuit breaker of
    sova/dashboard/services/agent_handoff.py. Times are milliseconds. *)

From stdpp Require Import base gmap strings list sorting pretty.
From S2P Require Import Prelude Review.

Local Open Scope string_scope.

(** One review of the history that [get_pr_review_data] returns. *)
Record Review := {
  rv_state : string;
  rv_body : option string;
  rv_submitted_at : option string;
  rv_author : option string;
}.

(** The verdict dict; [vd_unavailable] is its [UNRESOLVED_KEY]. *)
Record Verdict := {
  vd_has_sova_review : bool;
  vd_verdict : option string;
  vd_reviewed_at : option string;
  vd_review_head_sha : option string;
  vd_address_cycles : nat;
  vd_unavailable : bool;
}.

Definition NO_REVIEW : Verdict :=
  {| vd_has_sova_review := false; vd_verdict := None; vd_reviewed_at := None; vd_review_head_sha := None;
     vd_address_cycles := 0; vd_unavailable := false |}.

(** [_unresolved] *)
Definition unresolved : Verdict :=
  {| vd_has_sova_review := false; vd_verdict := None; vd_reviewed_at := None; vd_review_head_sha := None;
     vd_address_cycles := 0; vd_unavailable := true |}.

(** ** [parse_review_history] *)

Definition body (r : Review) : string := default "" (rv_body r).
Definition submitted_at (r : Review) : string := default "" (rv_submitted_at r).

(** The reviews the parser looks at: not dismissed, and by the trusted account
    when there is one. *)
Definition counted (trusted_login : string) (r : Review) : bool :=
  negb (bool_decide (rv_state r = "DISMISSED"))
  && (bool_decide (trusted_login = "")
      || bool_decide (PyStr.lower (default "" (rv_author r)) = PyStr.lower trusted_login)).

Definition codes (s : string) : list Z := map (fun c => Z.of_nat (Ascii.nat_of_ascii c)) (PyStr.to_list s).

(** Sorting by this key sorts the texts in descending order. *)
Definition descending (s : string) : list Z := (map Z.opp (codes s) ++ [1%Z])%list.

(** [sorted(..., key=submitted_at, reverse=True)], which keeps the order of equal
    elements *)
Definition newest_first (rs : list Review) : list Review := sort_by (fun r => descending (submitted_at r)) rs.

Definition addressed (r : Review) : bool := Markers.has_addressed_marker (body r).
Definition verdict_marker (r : Review) : option (string * option string) := Markers.parse_verdict_marker (body r).

(** The scan for the newest verdict. *)
Fixpoint scan (addressed_after_verdict : bool) (cycles : nat) (ordered : list Review) : Verdict :=
  match ordered with
  | [] => {| vd_has_sova_review := false; vd_verdict := None; vd_reviewed_at := None; vd_review_head_sha := None;
             vd_address_cycles := cycles; vd_unavailable := false |}
  | r :: ordered =>
      if addressed r then scan true cycles ordered
      else match verdict_marker r with
           | None => scan addressed_after_verdict cycles ordered
           | Some (verdict, sha) =>
               {| vd_has_sova_review := true;
                  vd_verdict := Some (if addressed_after_verdict then "addressed" else verdict);
                  vd_reviewed_at := match rv_submitted_at r with Some "" => None | t => t end;
                  vd_review_head_sha := if addressed_after_verdict then None else sha;
                  vd_address_cycles := cycles;
                  vd_unavailable := false |}
           end
  end.

Definition parse_review_history (reviews : list Review) (trusted_login : string) : Verdict :=
  let ordered := newest_first (List.filter (counted trusted_login) reviews) in
  scan false (length (List.filter addressed ordered)) ordered.

(** ** The cache *)

Definition VERDICT_CACHE_POSITIVE_TTL : Z := 300000.
Definition VERDICT_CACHE_NEGATIVE_TTL : Z := 30000.
Definition CACHE_LIMIT : nat := 1000.

Notation Key := (string * Z)%type.
Notation Cache := (gmap Key (Z * Verdict)).

(** [_cache_key]: no project is the empty text. *)
Definition cache_key (project_dir : option string) (pr_number : Z) : Key := (default "" project_dir, pr_number).

(** [_cache_get] *)
Definition cache_get (cache : Cache) (now : Z) (key : Key) : option Verdict :=
  match cache !! key with
  | None => None
  | Some (ts, cached) =>
      let ttl := if vd_has_sova_review cached then VERDICT_CACHE_POSITIVE_TTL else VERDICT_CACHE_NEGATIVE_TTL in
      if Z.leb ttl (now - ts) then None else Some cached
  end.

(** [_cache_put] *)
Definition cache_put (cache : Cache) (now : Z) (key : Key) (verdict : Verdict) : Cache :=
  let cache := if (CACHE_LIMIT <? size cache)%nat then ∅ else cache in
  <[key := (now, verdict)]> cache.

(** [invalidate_verdict] *)
Definition invalidate_verdict (cache : Cache) (project_dir : option string) (pr_number : option Z) : Cache :=
  match pr_number with
  | None => cache
  | Some n => delete (cache_key project_dir n) cache
  end.

(** [clear_verdict_cache] *)
Definition clear_verdict_cache (_ : Cache) : Cache := ∅.

(** ** [resolve_sova_verdict] *)

(** The adapter's repository and account, and the active account of gh; an empty
    text is none. *)
Record Source := { src_repo : string; src_github_user : string; src_active_user : string }.

Definition trusted_login (s : Source) : string :=
  if bool_decide (src_github_user s = "") then src_active_user s else src_github_user s.

(** What the first part of the call ends with: a verdict, or a fetch for a key
    that trusts an account. *)
Inductive begun := Answered (v : Verdict) | Fetching (key : Key) (trusted : string).

(** [resolve_sova_verdict] up to the fetch. *)
Definition resolve_begin (use_cache : bool) (pr_number : option Z) (project_dir : option string)
    (source : option Source) (now : Z) (cache : Cache) : begun :=
  match pr_number with
  | None => Answered NO_REVIEW
  | Some n =>
      let key := cache_key project_dir n in
      match (if use_cache then cache_get cache now key else None) with
      | Some cached => Answered cached
      | None =>
          match source with
          | None => Answered unresolved
          | Some s =>
              if bool_decide (src_repo s = "") then Answered unresolved
              else if bool_decide (trusted_login s = "") then Answered unresolved
              else Fetching key (trusted_login s)
          end
      end
  end.

(** What [_fetch_review_history] gives: an exception, no answer, or the history and
    whether it is truncated. *)
Definition answer : Type := outcome (option (list Review * bool)).

(** [resolve_sova_verdict] from the answer on. *)
Definition resolve_finish (use_cache : bool) (key : Key) (trusted : string) (ans : answer) (now : Z) (cache : Cache)
    : Cache * Verdict :=
  match ans with
  | Raise _ | Ret None | Ret (Some (_, true)) => (cache, unresolved)
  | Ret (Some (reviews, false)) =>
      let verdict := parse_review_history reviews trusted in
      (if use_cache then cache_put cache now key verdict else cache, verdict)
  end.

(** The whole call, when nothing runs while it waits. *)
Definition resolve_sova_verdict (use_cache : bool) (pr_number : option Z) (project_dir : option string)
    (source : option Source) (ans : answer) (now : Z) (cache : Cache) : Cache * Verdict :=
  match resolve_begin use_cache pr_number project_dir source now cache with
  | Answered v => (cache, v)
  | Fetching key trusted => resolve_finish use_cache key trusted ans now cache
  end.

(** The wanted numbers of [_prewarm_verdict_cache]. *)
Definition prewarm_wanted (pr_numbers : list Z) (project_dir : option string) (now : Z) (cache : Cache) : list Z :=
  sorted_set (list_to_set (List.filter
    (fun n => if cache_get cache now (cache_key project_dir n) then false else true) pr_numbers)).

(** The loop of [_prewarm_verdict_cache] over GitHub's answer. *)
Definition prewarm_put (trusted : string) (project_dir : option string) (now : Z) (cache : Cache)
    (item : Z * option (list Review * bool)) : Cache :=
  match item with
  | (_, None) | (_, Some (_, true)) => cache
  | (n, Some (reviews, false)) =>
      cache_put cache now (cache_key project_dir n) (parse_review_history reviews trusted)
  end.

(** [_prewarm_verdict_cache]; [fetch] is [get_pr_review_data]. *)
Definition prewarm_verdict_cache (pr_numbers : list Z) (project_dir : option string) (source : option Source)
    (fetch : list Z -> outcome (list (Z * option (list Review * bool)))) (now now' : Z) (cache : Cache) : Cache :=
  match source with
  | None => cache
  | Some s =>
      if bool_decide (src_repo s = "") then cache
      else
        let wanted := prewarm_wanted pr_numbers project_dir now cache in
        if decide (wanted = []) then cache
        else if bool_decide (trusted_login s = "") then cache
        else match fetch wanted with
             | Raise _ => cache
             | Ret data => foldl (prewarm_put (trusted_login s) project_dir now') cache data
             end
  end.

(** ** The circuit breaker of an agent's exit *)

(** [_check_address_review_circuit_breaker]: the reason, when it blocks. *)
Definition circuit_breaker (role : string) (pr_number : option Z) (issue : string) (max_cycles : Z)
    (project_dir : option string) (source : option Source) (ans : answer) (now : Z) (cache : Cache)
    : Cache * option string :=
  match pr_number with
  | None => (cache, None)
  | Some n =>
      if negb (bool_decide (role = "developer")) then (cache, None)
      else if Z.leb max_cycles 0 then (cache, None)
      else
        let cache := invalidate_verdict cache project_dir (Some n) in
        let '(cache, verdict) := resolve_sova_verdict true (Some n) project_dir source ans now cache in
        let count := Z.of_nat (vd_address_cycles verdict) in
        (cache,
         if vd_unavailable verdict then
           Some ("Address-review budget unverifiable: GitHub did not return the review history for PR #"
                 ++ pretty n ++ " on issue #" ++ issue ++ ", so the completed-cycle count is unknown (max allowed: "
                 ++ pretty max_cycles
                 ++ "). Routed to Integrate for a manual decision rather than risking an uncapped review loop.")
         else if Z.leb max_cycles count then
           Some ("Address-review budget exhausted: " ++ pretty count ++ " cycles completed for PR #" ++ pretty n
                 ++ " on issue #" ++ issue ++ " (max allowed: " ++ pretty max_cycles
                 ++ "). Routed to Integrate for a manual decision.")
         else None)
  end.

Local Close Scope string_scope.

(** ** The order of the scan *)

(** [s] is not after [t], as Python compares the texts. *)
Definition text_le (s t : string) : Prop := lex_leb (codes s) (codes t) = true.

Lemma lex_leb_descending k1 k2 :
  Forall (Z.le 0) k1 -> Forall (Z.le 0) k2 ->
  lex_leb (map Z.opp k1 ++ [1%Z]) (map Z.opp k2 ++ [1%Z]) = lex_leb k2 k1.
Proof.
  intros H1. revert k2. induction H1 as [|x k1 Hx H1 IH]; intros k2 [|y k2' Hy H2]; cbn [map app lex_leb].
  - by rewrite Z.ltb_irrefl.
  - destruct (Z.ltb_spec 1 (- y)), (Z.ltb_spec (- y) 1); try done; lia.
  - destruct (Z.ltb_spec 1 (- x)), (Z.ltb_spec (- x) 1); try done; lia.
  - rewrite IH by done.
    destruct (Z.ltb_spec (- x) (- y)), (Z.ltb_spec (- y) (- x)), (Z.ltb_spec x y), (Z.ltb_spec y x); try done; lia.
Qed.

Lemma codes_nonneg s : Forall (Z.le 0) (codes s).
Proof. unfold codes. rewrite Forall_map. apply Forall_forall. intros c _. cbn. lia. Qed.

Lemma codes_inj s t : codes s = codes t -> s = t.
Proof.
  unfold codes. intros H. rewrite <- (PyStr.of_to_list s), <- (PyStr.of_to_list t). f_equal.
  apply (list_fmap_eq_inj (fun c => Z.of_nat (Ascii.nat_of_ascii c))) in H; [done|].
  intros c d E. rewrite <- (Ascii.ascii_nat_embedding c), <- (Ascii.ascii_nat_embedding d). f_equal. lia.
Qed.

Lemma descending_inj s t : descending s = descending t -> s = t.
Proof.
  unfold descending. intros [H _]%app_inj_2; [|done]. apply codes_inj.
  apply (list_fmap_eq_inj Z.opp) in H; [done|]. intros x y. lia.
Qed.

Lemma newest_first_sorted rs :
  StronglySorted (fun r r' => text_le (submitted_at r') (submitted_at r)) (newest_first rs).
Proof.
  pose proof (sort_by_sorted (fun r => descending (submitted_at r)) rs) as H. unfold newest_first.
  revert H. generalize (sort_by (fun r => descending (submitted_at r)) rs). intros k H.
  induction H as [|r l Hl IH Hr]; constructor; [done|].
  eapply Forall_impl; [exact Hr|]. intros r' Hle. unfold key_le, descending in Hle.
  by rewrite lex_leb_descending in Hle by apply codes_nonneg.
Qed.

Lemma newest_first_perm rs : newest_first rs ≡ₚ rs.
Proof. apply sort_by_perm. Qed.

Lemma text_le_refl s : text_le s s.
Proof. apply lex_leb_refl. Qed.

(** ** What the scan finds *)

Definition not_newer (r r' : Review) : Prop := text_le (submitted_at r) (submitted_at r').

Lemma scan_cycles b n l : vd_address_cycles (scan b n l) = n.
Proof. revert b. induction l as [|r l IH]; intros b; cbn; [done|]. repeat case_match; auto. Qed.

Lemma scan_available b n l : vd_unavailable (scan b n l) = false.
Proof. revert b. induction l as [|r l IH]; intros b; cbn; [done|]. repeat case_match; auto. Qed.

Lemma scan_none b n l :
  vd_has_sova_review (scan b n l) = false <-> forall r, r ∈ l -> addressed r = true \/ verdict_marker r = None.
Proof.
  revert b. induction l as [|r l IH]; intros b; cbn.
  { split; [|done]. by intros _ r ?%not_elem_of_nil. }
  setoid_rewrite elem_of_cons. destruct (addressed r) eqn:Ea; [|destruct (verdict_marker r) as [[v sha]|] eqn:Ev].
  - rewrite IH. naive_solver.
  - cbn. split; [done|]. intros H. destruct (H r (or_introl eq_refl)); congruence.
  - rewrite IH. naive_solver.
Qed.

(** A review the scan may report. *)
Definition reports (r : Review) (v : string) (sha : option string) : Prop :=
  addressed r = false /\ verdict_marker r = Some (v, sha).

Lemma scan_some b n l :
  StronglySorted (fun r r' => not_newer r' r) l ->
  vd_has_sova_review (scan b n l) = true ->
  exists r v sha, r ∈ l /\ reports r v sha /\
    (forall r' v' sha', r' ∈ l -> reports r' v' sha' -> not_newer r' r) /\
    ((b = false /\ vd_verdict (scan b n l) = Some v /\ vd_review_head_sha (scan b n l) = sha /\
      forall r', r' ∈ l -> addressed r' = true -> not_newer r' r) \/
     (vd_verdict (scan b n l) = Some "addressed"%string /\ vd_review_head_sha (scan b n l) = None /\
      (b = true \/ exists r', r' ∈ l /\ addressed r' = true /\ not_newer r r'))).
Proof.
  intros Hs. revert b. induction Hs as [|r l Hl IH Hr]; intros b Hhas; [done|].
  rewrite Forall_forall in Hr. cbn in *. destruct (addressed r) eqn:Ea.
  - destruct (IH true Hhas) as (r0 & v & sha & Hin & Hrep & Hnew & H). exists r0, v, sha.
    split_and!; [by right|done| |].
    + intros r' v' sha' [->|?]%elem_of_cons [??]; [congruence|]. by eapply Hnew.
    + destruct H as [(? & _)|(E1 & E2 & _)]; [done|]. right. split_and!; [done..|].
      right. exists r. split_and!; [by left|done|auto].
  - destruct (verdict_marker r) as [[v sha]|] eqn:Ev.
    + exists r, v, sha. split_and!; [by left|done| |].
      { intros r' v' sha' [->|?]%elem_of_cons _; [apply text_le_refl|auto]. }
      destruct b; cbn; [right; auto|]. left. split_and!; [done..|].
      intros r' [->|?]%elem_of_cons; [congruence|auto].
    + destruct (IH b Hhas) as (r0 & v & sha & Hin & Hrep & Hnew & H). exists r0, v, sha.
      split_and!; [by right|done| |].
      { intros r' v' sha' [->|?]%elem_of_cons [??]; [congruence|]. by eapply Hnew. }
      destruct H as [(? & ? & ? & H)|(? & ? & H)]; [left|right].
      * split_and!; [done..|]. intros r' [->|?]%elem_of_cons; [congruence|auto].
      * split_and!; [done..|]. destruct H as [?|(r' & ? & ? & ?)]; [by left|right].
        exists r'. split_and!; [by right|done..].
Qed.

(** The verdict of a history, from the reviews that count. *)
Lemma history_verdict (reviews : list Review) (trusted : string) :
  let seen := List.filter (counted trusted) reviews in
  let v := parse_review_history reviews trusted in
  vd_address_cycles v = length (List.filter addressed seen) /\ vd_unavailable v = false /\
  (vd_has_sova_review v = false <-> forall r, r ∈ seen -> addressed r = true \/ verdict_marker r = None) /\
  (vd_has_sova_review v = true -> exists r verdict sha, r ∈ seen /\ reports r verdict sha /\
     (forall r' v' sha', r' ∈ seen -> reports r' v' sha' -> not_newer r' r) /\
     ((vd_verdict v = Some verdict /\ vd_review_head_sha v = sha /\
       forall r', r' ∈ seen -> addressed r' = true -> not_newer r' r) \/
      (vd_verdict v = Some "addressed"%string /\ vd_review_head_sha v = None /\
       exists r', r' ∈ seen /\ addressed r' = true /\ not_newer r r'))).
Proof.
  intros seen v. subst v. unfold parse_review_history. fold seen. cbv zeta.
  pose proof (newest_first_perm seen) as Hp.
  assert (forall r, r ∈ newest_first seen <-> r ∈ seen) as Hin by (intros r; by rewrite Hp).
  rewrite scan_cycles, scan_available. split; [|split; [done|split]].
  - clear Hin. induction Hp; cbn; repeat case_match; cbn; congruence.
  - rewrite scan_none. split; intros H r Hr; apply H; by apply Hin.
  - intros H. destruct (scan_some _ _ _ (newest_first_sorted seen) H) as (r & verdict & sha & H1 & H2 & H3 & H4).
    exists r, verdict, sha. rewrite <- Hin. split_and!; [done..| |].
    + intros r' v' sha' Hr'. apply H3. by apply Hin.
    + destruct H4 as [(_ & ? & ? & H4)|(? & ? & [?|(r' & ? & ?)])]; [left|done|right].
      * split_and!; [done..|]. intros r' Hr'. apply H4. by apply Hin.
      * split_and!; [done..|]. exists r'. by rewrite <- Hin.
Qed.

(** C12: the verdict of a history is the newest one that counts. Among the reviews
    that are neither dismissed nor by another account, the cycles are those with an
    addressed marker; there is no verdict exactly when none of the others has a
    verdict marker; and otherwise the verdict and anchor are those of a review
    than which no other verdict is newer, reported as "addressed" and without its
    anchor when an addressed marker is not older than it, and as it stands when
    none is newer. *)
Theorem verdict_is_newest (reviews : list Review) (trusted : string) :
  let seen := List.filter (counted trusted) reviews in
  let v := parse_review_history reviews trusted in
  vd_address_cycles v = length (List.filter addressed seen) /\ vd_unavailable v = false /\
  (vd_has_sova_review v = false <-> forall r, r ∈ seen -> addressed r = true \/ verdict_marker r = None) /\
  (vd_has_sova_review v = true -> exists r verdict sha, r ∈ seen /\ reports r verdict sha /\
     (forall r' v' sha', r' ∈ seen -> reports r' v' sha' -> not_newer r' r) /\
     ((vd_verdict v = Some verdict /\ vd_review_head_sha v = sha /\
       forall r', r' ∈ seen -> addressed r' = true -> not_newer r' r) \/
      (vd_verdict v = Some "addressed"%string /\ vd_review_head_sha v = None /\
       exists r', r' ∈ seen /\ addressed r' = true /\ not_newer r r'))).
Proof. exact (history_verdict reviews trusted). Qed.

(** only one account can speak for SOVA. The verdict depends only on the
    reviews that count: dismissed reviews and reviews by other accounts can be
    added, changed or removed anywhere; and when the reviews that count were
    submitted at different times, their order in GitHub's answer does not matter
    either. *)
Theorem history_trusts_one_account (reviews reviews' : list Review) (trusted : string) :
  let seen := List.filter (counted trusted) reviews in
  let seen' := List.filter (counted trusted) reviews' in
  seen = seen' \/
  (seen ≡ₚ seen' /\ forall r r', r ∈ seen -> r' ∈ seen -> submitted_at r = submitted_at r' -> r = r') ->
  parse_review_history reviews trusted = parse_review_history reviews' trusted.
Proof.
  intros seen seen'. unfold parse_review_history. fold seen seen'. intros [->|[Hp Hd]]; [done|].
  assert (newest_first seen = newest_first seen') as ->; [|done].
  apply sort_by_unique; [|done]. intros r r' H1 H2 E%descending_inj. auto.
Qed.

(** ** The cache and the circuit breaker *)

(** A case in which the breaker gives a reason and the right-hand side fails. *)
Ltac breaker_blocks :=
  cbn; split; [done|intros [?|[?|[?|(?&?&?&?&?&?&?)]]]; simplify_eq; first [done|lia]].

(** the circuit breaker counts afresh. It lets another address cycle start
    exactly when it does not apply, or GitHub gave the complete history to a known
    account and fewer than the maximum of the reviews of that account that count
    mark an address cycle; what the cache holds does not matter. *)
Theorem circuit_breaker_correct (role issue : string) (pr_number : option Z) (max_cycles : Z)
    (project_dir : option string) (source : option Source) (ans : answer) (now : Z) (cache : Cache) :
  (circuit_breaker role pr_number issue max_cycles project_dir source ans now cache).2 = None <->
  role <> "developer"%string \/ pr_number = None \/ (max_cycles <= 0)%Z \/
  exists s reviews, source = Some s /\ src_repo s <> ""%string /\ trusted_login s <> ""%string /\
    ans = Ret (Some (reviews, false)) /\
    (Z.of_nat (length (List.filter addressed (List.filter (counted (trusted_login s)) reviews))) < max_cycles)%Z.
Proof.
  unfold circuit_breaker. destruct pr_number as [n|]; [|tauto].
  case_bool_decide as Hrole; cbn [negb]; [|naive_solver].
  destruct (Z.leb_spec max_cycles 0); [naive_solver|].
  assert (cache_get (invalidate_verdict cache project_dir (Some n)) now (cache_key project_dir n) = None) as Hget.
  { unfold cache_get, invalidate_verdict. by rewrite lookup_delete_eq. }
  unfold resolve_sova_verdict, resolve_begin. rewrite Hget.
  destruct source as [s|]; [|breaker_blocks]. case_bool_decide; [breaker_blocks|]. case_bool_decide; [breaker_blocks|].
  destruct ans as [[[reviews []]|]|e]; cbn [resolve_finish]; [breaker_blocks| |breaker_blocks..].
  destruct (history_verdict reviews (trusted_login s)) as (Hc & Hu & _). cbv zeta in Hc, Hu.
  rewrite Hu, Hc. set (count := Z.of_nat _). destruct (Z.leb_spec max_cycles count); [breaker_blocks|].
  split; [|done]. intros _. right; right; right. exists s, reviews. auto.
Qed.

(** What requests do to the cache, in any order. A lookup that started on some
    earlier cache ends on the present one. *)
Inductive cache_step : Cache -> Cache -> Prop :=
  | step_resolve use_cache pr_number project_dir source now0 cache0 key trusted ans now cache :
      resolve_begin use_cache pr_number project_dir source now0 cache0 = Fetching key trusted ->
      cache_step cache (resolve_finish use_cache key trusted ans now cache).1
  | step_prewarm pr_numbers project_dir source fetch now now' cache :
      cache_step cache (prewarm_verdict_cache pr_numbers project_dir source fetch now now' cache)
  | step_breaker role pr_number issue max_cycles project_dir source ans now cache :
      cache_step cache (circuit_breaker role pr_number issue max_cycles project_dir source ans now cache).1
  | step_invalidate project_dir pr_number cache : cache_step cache (invalidate_verdict cache project_dir pr_number)
  | step_clear cache : cache_step cache (clear_verdict_cache cache).

(** Entries are verdicts of complete histories read for a known account, and there
    are at most [CACHE_LIMIT + 1] of them. *)
Definition cache_ok (cache : Cache) : Prop :=
  size cache <= S CACHE_LIMIT /\
  forall key ts v, cache !! key = Some (ts, v) ->
    exists reviews trusted, trusted <> ""%string /\ v = parse_review_history reviews trusted.

Lemma cache_put_ok cache now key reviews trusted :
  cache_ok cache -> trusted <> ""%string -> cache_ok (cache_put cache now key (parse_review_history reviews trusted)).
Proof.
  intros [Hs He] Ht. unfold cache_put. destruct (CACHE_LIMIT <? size cache) eqn:E.
  - split; [by rewrite insert_empty, map_size_singleton; unfold CACHE_LIMIT; lia|].
    intros k ts v. rewrite lookup_insert_Some, lookup_empty. naive_solver.
  - apply Nat.ltb_ge in E. split; [rewrite map_size_insert; case_match; cbn; lia|].
    intros k ts v. rewrite lookup_insert_Some. naive_solver.
Qed.

Lemma resolve_begin_trusted use_cache pr_number project_dir source now cache key trusted :
  resolve_begin use_cache pr_number project_dir source now cache = Fetching key trusted -> trusted <> ""%string.
Proof. unfold resolve_begin. intros H. repeat case_match; simplify_eq; by case_bool_decide. Qed.

Lemma resolve_finish_ok use_cache key trusted ans now cache :
  cache_ok cache -> trusted <> ""%string -> cache_ok (resolve_finish use_cache key trusted ans now cache).1.
Proof.
  intros H Ht. unfold resolve_finish. repeat case_match; cbn; try done. by apply cache_put_ok.
Qed.

Lemma invalidate_ok cache project_dir pr_number : cache_ok cache -> cache_ok (invalidate_verdict cache project_dir pr_number).
Proof.
  intros [Hs He]. destruct pr_number as [n|]; [|done]. cbn. split.
  - etrans; [|exact Hs]. apply map_subseteq_size, delete_subseteq.
  - intros k ts v [_ ?]%lookup_delete_Some. eauto.
Qed.

Lemma empty_ok : cache_ok ∅.
Proof. split; [rewrite map_size_empty; lia|intros ???; by rewrite lookup_empty]. Qed.

Lemma prewarm_ok pr_numbers project_dir source fetch now now' cache :
  cache_ok cache -> cache_ok (prewarm_verdict_cache pr_numbers project_dir source fetch now now' cache).
Proof.
  intros H. unfold prewarm_verdict_cache. destruct source as [s|]; [|done].
  case_bool_decide; [done|]. case_decide; [done|]. case_bool_decide as Ht; [done|].
  destruct (fetch _) as [data|e]; [|done].
  clear - Ht H. revert cache H. induction data as [|[n [[reviews []]|]] data IH]; intros cache H; cbn; auto.
  apply IH. by apply cache_put_ok.
Qed.

Lemma breaker_ok role pr_number issue max_cycles project_dir source ans now cache :
  cache_ok cache -> cache_ok (circuit_breaker role pr_number issue max_cycles project_dir source ans now cache).1.
Proof.
  intros H. unfold circuit_breaker, resolve_sova_verdict. destruct pr_number as [n|]; [|done].
  destruct (negb _); [done|]. destruct (Z.leb _ _); [done|].
  pose proof (invalidate_ok _ project_dir (Some n) H) as Hi.
  destruct (resolve_begin _ _ _ _ _ _) as [v|key trusted] eqn:E; [done|].
  pose proof (resolve_finish_ok true key trusted ans now _ Hi (resolve_begin_trusted _ _ _ _ _ _ _ _ E)) as Hf.
  by destruct (resolve_finish _ _ _ _ _ _).
Qed.

(** nothing doubtful is ever cached. In every cache that requests can reach,
    with lookups, prewarms, circuit breakers and invalidations interleaved in any
    way, each entry is the verdict of a complete history read for a known account
    (so it is never an unresolved one), and there are at most [CACHE_LIMIT + 1]
    entries; an entry is served for less than its time to live. *)
Theorem cache_invariant (cache : Cache) :
  rtc cache_step ∅ cache ->
  size cache <= S CACHE_LIMIT /\
  (forall key ts v, cache !! key = Some (ts, v) ->
     vd_unavailable v = false /\
     exists reviews trusted, trusted <> ""%string /\ v = parse_review_history reviews trusted) /\
  (forall now key v, cache_get cache now key = Some v ->
     exists ts, cache !! key = Some (ts, v) /\
       (now - ts < if vd_has_sova_review v then VERDICT_CACHE_POSITIVE_TTL else VERDICT_CACHE_NEGATIVE_TTL)%Z).
Proof.
  intros Hr. assert (cache_ok cache) as [Hs He].
  { pose proof empty_ok as H0. revert H0. induction Hr as [|c1 c2 c3 Hstep _ IH]; [done|]. intros H. apply IH. clear IH. destruct Hstep.
    - apply resolve_finish_ok; [done|]. by eapply resolve_begin_trusted.
    - by apply prewarm_ok.
    - by apply breaker_ok.
    - by apply invalidate_ok.
    - apply empty_ok. }
  split; [done|split].
  - intros key ts v Hk. destruct (He key ts v Hk) as (rs & t & Ht & ->). split; [|by exists rs, t].
    apply scan_available.
  - intros now key v. unfold cache_get. destruct (cache !! key) as [[ts v']|]; [|done].
    destruct (Z.leb_spec (if vd_has_sova_review v' then VERDICT_CACHE_POSITIVE_TTL else VERDICT_CACHE_NEGATIVE_TTL) (now - ts)); [done|].
    intros [= ->]. by exists ts.
Qed.

Lemma resolve_cached pr_number project_dir source ans now cache ts v :
  cache !! cache_key project_dir pr_number = Some (ts, v) ->
  (now - ts < if vd_has_sova_review v then VERDICT_CACHE_POSITIVE_TTL else VERDICT_CACHE_NEGATIVE_TTL)%Z ->
  resolve_sova_verdict true (Some pr_number) project_dir source ans now cache = (cache, v).
Proof.
  intros E H. unfold resolve_sova_verdict, resolve_begin, cache_get. rewrite E.
  by destruct (Z.leb_spec (if vd_has_sova_review v then VERDICT_CACHE_POSITIVE_TTL else VERDICT_CACHE_NEGATIVE_TTL) (now - ts)); [lia|].
Qed.

(** ** Two runs *)

Local Open Scope string_scope.

Definition sova : Source := {| src_repo := "owner/repo"; src_github_user := "sova"; src_active_user := "" |}.

Definition comment (author at_time text : string) : Review :=
  {| rv_state := "COMMENTED"; rv_body := Some text; rv_submitted_at := Some at_time; rv_author := Some author |}.

Definition a_review : Review :=
  comment "sova" "2026-01-01T10:00:00Z" (Format.format_review_body [a_finding] "Found one." [] None 3 7 []).

Definition an_address_summary : Review :=
  comment "sova" "2026-01-01T11:00:00Z" (Markers.format_address_summary [a_finding] None 1).

(** A finding about this very mechanism. *)
Definition quoting_finding : Markers.Finding :=
  {| Markers.f_file := Some "review_markers.py"; Markers.f_line := None; Markers.f_severity := Some 9%Z;
     Markers.f_category := None;
     Markers.f_description := Some "writes <!-- sova-addressed --> twice"; Markers.f_suggestion := None |}.

(** a review that quotes the addressed marker is lost. A BLOCK review whose
    finding quotes the marker is read as the summary of an address cycle: the
    history of that one review has no SOVA review, and counts an address cycle
    that never ran. *)
Theorem quoted_marker_hides_review :
  let text := Format.format_review_body [quoting_finding] "Found one." [] None 3 7 [] in
  let v := parse_review_history [comment "sova" "2026-01-01T10:00:00Z" text] "sova" in
  Format.verdict_from_findings [quoting_finding] 3 7 = Format.BLOCK /\
  Markers.parse_verdict_marker text = Some ("block", None) /\
  vd_has_sova_review v = false /\ vd_address_cycles v = 1.
Proof. vm_compute. split_and!; reflexivity. Qed.

(** an invalidation does not reach a lookup in flight. A dashboard poll asks
    GitHub for a pull request's history and gets it before an address cycle
    posts its summary; the cycle's agent exits, its circuit breaker drops the
    entry, counts one cycle and caches the new verdict; then the poll finishes and
    puts the old verdict back. For most of five minutes every lookup answers that
    changes are requested and no cycle has run, though the history says
    otherwise. *)
Theorem late_lookup_undoes_invalidation :
  exists key trusted stale breaker_cache reason,
    resolve_begin true (Some 7%Z) None (Some sova) 0 ∅ = Fetching key trusted /\
    circuit_breaker "developer" (Some 7%Z) "5" 2 None (Some sova)
      (Ret (Some ([a_review; an_address_summary], false))) 1000 ∅ = (breaker_cache, reason) /\
    vd_verdict <$> cache_get breaker_cache 1000 key = Some (Some "addressed") /\
    stale = (resolve_finish true key trusted (Ret (Some ([a_review], false))) 1200 breaker_cache).1 /\
    forall now ans, (1200 <= now < 301200)%Z ->
      let v := (resolve_sova_verdict true (Some 7%Z) None (Some sova) ans now stale).2 in
      vd_verdict v = Some "block" /\ vd_address_cycles v = 0.
Proof.
  eexists _, _, _, _, _. split; [reflexivity|]. split; [reflexivity|]. split; [vm_compute; reflexivity|].
  split; [reflexivity|]. intros now ans Hnow.
  erewrite (resolve_cached 7 None); [|vm_compute; reflexivity|cbn; unfold VERDICT_CACHE_POSITIVE_TTL; lia].
  by split.
Qed.

Local Close Scope string_scope.

(** ** Witnesses *)

Lemma history_trusts_one_account_witness :
  parse_review_history [a_review; an_address_summary; comment "mallory" "2026-01-01T12:00:00Z" (Format.review_marker Format.APPROVE None)] "sova"
  = parse_review_history [an_address_summary; a_review] "sova".
Proof.
  apply history_trusts_one_account. right. split; [vm_compute; apply Permutation_swap|].
  intros r r' Hr Hr' E.
  assert (r = a_review \/ r = an_address_summary) as [-> | ->].
  { clear -Hr. vm_compute in Hr. apply elem_of_cons in Hr as [->|Hr]; [by left|].
    apply list_elem_of_singleton in Hr as ->. by right. }
  all: assert (r' = a_review \/ r' = an_address_summary) as [-> | ->]
    by (clear -Hr'; vm_compute in Hr'; apply elem_of_cons in Hr' as [->|Hr']; [by left|];
        apply list_elem_of_singleton in Hr' as ->; by right).
  all: first [done|discriminate E].
Defined.

Lemma cache_invariant_witness :
  let cache := (circuit_breaker "developer" (Some 7%Z) "5" 2 None (Some sova)
                  (Ret (Some ([a_review], false))) 1000 ∅).1 in
  size cache <= S CACHE_LIMIT /\ is_Some (cache_get cache 1000 (cache_key None 7)).
Proof.
  split; [|vm_compute; by eexists]. apply cache_invariant.
  apply rtc_once. apply (step_breaker "developer" (Some 7%Z) "5" 2 None (Some sova)).
Defined.
