(* ===== verification/WorkState.v ===== *)
(** * Work items: what to do next with an issue or a pull request

    sova/dashboard/services/work_state.py: the states, their labels and actions,
    the resolver [resolve_next_action] that the dashboard and the supervisor
    share, the facts it is given, and the explanation of its decision. *)

From stdpp Require Import base strings list pretty.
From S2P Require Import Prelude Errors Verdict.

Local Open Scope string_scope.

Module WorkItemState.

(** [class WorkItemState] *)
Inductive t :=
  | BACKLOG | NEEDS_SPEC | TRIAGED | RESEARCHED | IN_PROGRESS | AGENT_RUNNING
  | PR_DRAFT | PR_CONFLICTED | PR_CI_RUNNING | PR_CI_FAILED | PR_AWAITING_REVIEW | PR_SOVA_CHANGES
  | PR_EXTERNAL_CHANGES | PR_REVIEW_ADDRESSED | PR_READY_TO_MERGE | PR_SOVA_PENDING | PR_REVIEW_EXHAUSTED
  | SPEC_REVIEW | MERGED | DONE | HUMAN_ONLY.

#[export] Instance t_eq_dec : EqDecision t.
Proof. solve_decision. Defined.

Definition members : list t :=
  [BACKLOG; NEEDS_SPEC; TRIAGED; RESEARCHED; IN_PROGRESS; AGENT_RUNNING; PR_DRAFT; PR_CONFLICTED; PR_CI_RUNNING;
   PR_CI_FAILED; PR_AWAITING_REVIEW; PR_SOVA_CHANGES; PR_EXTERNAL_CHANGES; PR_REVIEW_ADDRESSED;
   PR_READY_TO_MERGE; PR_SOVA_PENDING; PR_REVIEW_EXHAUSTED; SPEC_REVIEW; MERGED; DONE; HUMAN_ONLY].

Definition value (s : t) : string :=
  match s with
  | BACKLOG => "backlog" | NEEDS_SPEC => "needs_spec" | TRIAGED => "triaged" | RESEARCHED => "researched"
  | IN_PROGRESS => "in_progress" | AGENT_RUNNING => "agent_running" | PR_DRAFT => "pr_draft"
  | PR_CONFLICTED => "pr_conflicted" | PR_CI_RUNNING => "pr_ci_running" | PR_CI_FAILED => "pr_ci_failed"
  | PR_AWAITING_REVIEW => "pr_awaiting_review" | PR_SOVA_CHANGES => "pr_sova_changes"
  | PR_EXTERNAL_CHANGES => "pr_external_changes" | PR_REVIEW_ADDRESSED => "pr_review_addressed"
  | PR_READY_TO_MERGE => "pr_ready_to_merge" | PR_SOVA_PENDING => "pr_sova_pending"
  | PR_REVIEW_EXHAUSTED => "pr_review_exhausted" | SPEC_REVIEW => "spec_review" | MERGED => "merged"
  | DONE => "done" | HUMAN_ONLY => "human_only"
  end.

(** [WorkItemState(state)]; [None] stands for [ValueError]. *)
Definition of_value (v : string) : option t := List.find (fun s => bool_decide (value s = v)) members.

(** [_STATE_LABELS] *)
Definition label (s : t) : string :=
  match s with
  | BACKLOG => "Backlog" | NEEDS_SPEC => "Needs Spec" | TRIAGED => "Triaged" | RESEARCHED => "Researched"
  | IN_PROGRESS => "In Progress" | AGENT_RUNNING => "Agent Running" | PR_DRAFT => "Draft PR"
  | PR_CONFLICTED => "Conflicts" | PR_CI_RUNNING => "CI Running" | PR_CI_FAILED => "CI Failed"
  | PR_AWAITING_REVIEW => "Awaiting Review" | PR_SOVA_CHANGES => "SOVA Changes Requested"
  | PR_EXTERNAL_CHANGES => "Changes Requested" | PR_REVIEW_ADDRESSED => "Review Addressed"
  | PR_READY_TO_MERGE => "Ready to Merge" | PR_SOVA_PENDING => "Sova Review Pending"
  | PR_REVIEW_EXHAUSTED => "Review Budget Exhausted" | SPEC_REVIEW => "Spec Review" | MERGED => "Merged"
  | DONE => "Done" | HUMAN_ONLY => "Human Only"
  end.

(** [_STATE_COLORS] *)
Definition color (s : t) : string :=
  match s with
  | BACKLOG | PR_DRAFT => "gray"
  | NEEDS_SPEC | TRIAGED | AGENT_RUNNING | PR_CI_RUNNING => "yellow"
  | RESEARCHED => "purple"
  | IN_PROGRESS | PR_AWAITING_REVIEW => "blue"
  | PR_CONFLICTED | PR_CI_FAILED => "red"
  | PR_SOVA_CHANGES | PR_EXTERNAL_CHANGES | PR_SOVA_PENDING | PR_REVIEW_EXHAUSTED | SPEC_REVIEW => "peach"
  | PR_REVIEW_ADDRESSED => "lavender"
  | PR_READY_TO_MERGE | MERGED | DONE => "green-strong"
  | HUMAN_ONLY => "gray-dim"
  end.

End WorkItemState.

Import WorkItemState.

(** [_PR_STATE_WORK_ITEM] *)
Definition PR_STATE_WORK_ITEM : list (string * WorkItemState.t) :=
  [("draft", PR_DRAFT); ("conflicted", PR_CONFLICTED); ("ci_running", PR_CI_RUNNING); ("ci_failed", PR_CI_FAILED);
   ("changes_requested", PR_EXTERNAL_CHANGES); ("approved_ci_green", PR_READY_TO_MERGE);
   ("review_addressed", PR_REVIEW_ADDRESSED); ("awaiting_review", PR_AWAITING_REVIEW)].

(** [_PR_STATE_META] *)
Definition PR_STATE_META : list (string * (string * string)) :=
  (map (fun kv => (kv.1, (label kv.2, color kv.2))) PR_STATE_WORK_ITEM ++ [("approved", ("Approved", "green"))])%list.

(** [_TASK_STATE_META] *)
Definition TASK_STATE_META : list (string * (string * string)) :=
  [("in_review", ("In Review", "green")); ("on_qa", ("On QA", "peach"))].

(** [_state_meta], without its log of unknown states. *)
Definition state_meta (state : string) : option (string * string) :=
  match of_value state with
  | Some item => Some (label item, color item)
  | None => match assoc state PR_STATE_META with
            | Some meta => Some meta
            | None => assoc state TASK_STATE_META
            end
  end.

(** [state_color] *)
Definition state_color (state : string) : string :=
  match state_meta state with Some meta => meta.2 | None => "gray" end.

(** [_LABEL_STATE_MAP] *)
Definition LABEL_STATE_MAP : list (string * WorkItemState.t) :=
  [("backlog", BACKLOG); ("triaged", TRIAGED); ("researched", RESEARCHED); ("in_progress", IN_PROGRESS);
   ("in_review", PR_AWAITING_REVIEW); ("needs_spec", NEEDS_SPEC); ("human_only", HUMAN_ONLY); ("done", DONE)].

(** ** Actions *)

(** One action button (its label, style and arguments are presentation). *)
Record Action := {
  a_id : string;
  a_handler : string;
  a_role_or_command : string;
  a_issue : option string;
  a_pr : option Z;
}.

(** [_get_actions]; an empty issue or a pull request 0 is none. *)
Definition get_actions (state : WorkItemState.t) (issue_number : option string) (pr_number : option Z)
    : option Action * list Action :=
  let issue := match issue_number with Some "" => None | i => i end in
  let pr := match pr_number with Some 0%Z => None | p => p end in
  let act handler id target :=
    {| a_id := id; a_handler := handler; a_role_or_command := target; a_issue := issue; a_pr := pr |} in
  let agent := act "start_agent" in
  let cmd := act "run_command" in
  let review := cmd "review_pr" "review-pr" in
  let address := cmd "address_pr" "address-pr" in
  let integrate := cmd "integrate" "integrate-pr" in
  let rebase := match issue with
                | None => None
                | Some i => Some {| a_id := "rebase"; a_handler := "trigger_rebase"; a_role_or_command := "";
                                    a_issue := Some i; a_pr := None |}
                end in
  match state with
  | BACKLOG => (Some (agent "triage" "triage"), [])
  | NEEDS_SPEC => (None, [])
  | TRIAGED => (Some (agent "research" "researcher"), [])
  | RESEARCHED => (Some (agent "develop" "developer"), [])
  | IN_PROGRESS => (Some (agent "resume" "developer"), [])
  | PR_DRAFT => (Some review, [address])
  | PR_CONFLICTED => (rebase, [review; address])
  | PR_CI_RUNNING => (Some review, [address])
  | PR_CI_FAILED => (Some address, [review])
  | PR_AWAITING_REVIEW => (Some review, [address; integrate])
  | PR_SOVA_PENDING => (Some review, [address; integrate])
  | PR_SOVA_CHANGES => (Some (agent "address_review" "developer"), [review; integrate])
  | PR_EXTERNAL_CHANGES => (Some address, [review; integrate])
  | PR_REVIEW_ADDRESSED => (Some review, [address; integrate])
  | PR_READY_TO_MERGE => (Some integrate, [review; address])
  | PR_REVIEW_EXHAUSTED => (Some integrate, [review; address])
  | MERGED => (Some (cmd "after_merge" "after-merge"), [])
  | AGENT_RUNNING | SPEC_REVIEW | DONE | HUMAN_ONLY => (None, [])
  end.

(** ** Facts and resolutions *)

(** [class PRFacts] *)
Record PRFacts := {
  running_agent : bool;
  pr_state : string;
  is_draft : bool;
  mergeable : string;
  merge_state : string;
  ci_status : string;
  head_sha : string;
  sova_verdict : option string;
  sova_verdict_sha : option string;
  sova_verdict_addressed : bool;
  external_changes_requested : bool;
  thread_signal : string;
  external_reviews_enabled : bool;
  address_cycles : Z;
  max_address_cycles : Z;
  review_history_unresolved : bool;
}.

(** [class Resolution] *)
Record Resolution := {
  state : WorkItemState.t;
  action_id : option string;
  reason_chain : list string;
  merge_blockers : list string;
}.

(** [s in (..)] on texts *)
Definition one_of (s : string) (l : list string) : bool := bool_decide (s ∈ l).

(** [bool(sha)] *)
Definition has_text (sha : option string) : bool := match sha with Some "" | None => false | _ => true end.

(** [_verdict_is_stale] *)
Definition verdict_is_stale (f : PRFacts) : bool :=
  match sova_verdict f with
  | None => false
  | Some _ => has_text (sova_verdict_sha f) && negb (bool_decide (head_sha f = ""))
              && negb (bool_decide (sova_verdict_sha f = Some (head_sha f)))
  end.

(** [_has_standing_sova_changes] *)
Definition has_standing_sova_changes (f : PRFacts) : bool :=
  match sova_verdict f with
  | Some v => one_of v ["revise"; "block"] && negb (sova_verdict_addressed f) && negb (verdict_is_stale f)
  | None => false
  end.

Definition MERGE_STATES_MERGEABLE : list string := ["CLEAN"; "BEHIND"; "HAS_HOOKS"; "UNSTABLE"].
Definition MERGE_STATES_BLOCKED_BY_GITHUB : list string := ["BLOCKED"].
Definition MERGE_STATES_UNMERGEABLE : list string := (MERGE_STATES_BLOCKED_BY_GITHUB ++ ["DIRTY"; "DRAFT"])%list.

(** [_github_will_merge] *)
Definition github_will_merge (f : PRFacts) : bool :=
  if one_of (merge_state f) MERGE_STATES_MERGEABLE then true
  else if one_of (merge_state f) MERGE_STATES_UNMERGEABLE then false
  else bool_decide (mergeable f = "MERGEABLE").

(** [s or d] *)
Definition or_word (s d : string) : string := if bool_decide (s = "") then d else s.

(** [_unmet_merge_conditions] *)
Definition unmet_merge_conditions (f : PRFacts) : list string :=
  ((if bool_decide (sova_verdict f = Some "approve") then []
    else [("verdict is " ++ or_word (default "" (sova_verdict f)) "none" ++ ", not approve")%string])
   ++ (if external_changes_requested f then ["an external reviewer has requested changes"] else [])
   ++ (if bool_decide (thread_signal f = "clear") then [] else [("threads are " ++ thread_signal f)%string])
   ++ (if one_of (ci_status f) ["passed"; "none"] then []
       else [("CI status is " ++ or_word (ci_status f) "unknown")%string])
   ++ (if github_will_merge f then []
       else if one_of (merge_state f) MERGE_STATES_UNMERGEABLE
            then [("GitHub merge state is " ++ merge_state f)%string]
            else [("GitHub merge state is " ++ or_word (mergeable f) "unknown")%string]))%list.

(** [resolve_next_action] *)
Definition resolve_next_action (f : PRFacts) : Resolution :=
  let merge_blockers := unmet_merge_conditions f in
  let resolved chain st act :=
    {| state := st; action_id := act; reason_chain := chain; merge_blockers := merge_blockers |} in
  let chain := ["agent_running"] in
  if running_agent f then resolved chain AGENT_RUNNING None else
  let chain := (chain ++ ["merged"])%list in
  if bool_decide (pr_state f = "MERGED") then resolved chain MERGED None else
  let chain := (chain ++ ["conflicting"])%list in
  if bool_decide (mergeable f = "CONFLICTING") || bool_decide (merge_state f = "DIRTY")
  then resolved chain PR_CONFLICTED (Some "rebase") else
  let chain := (chain ++ ["draft"])%list in
  if is_draft f then resolved chain PR_DRAFT None else
  let chain := (chain ++ ["ci_failed"])%list in
  if bool_decide (ci_status f = "failed") then resolved chain PR_CI_FAILED (Some "address_pr") else
  let chain := (chain ++ ["ci_running"])%list in
  if one_of (ci_status f) ["pending"; "running"] then resolved chain PR_CI_RUNNING None else
  let chain := (chain ++ ["review_budget_exhausted"])%list in
  if Z.ltb 0 (max_address_cycles f)
     && (review_history_unresolved f || Z.leb (max_address_cycles f) (address_cycles f))
  then resolved chain PR_REVIEW_EXHAUSTED (Some "integrate") else
  let verdict_stale := verdict_is_stale f in
  let chain := (chain ++ ["sova_standing_changes"])%list in
  if has_standing_sova_changes f then resolved chain PR_SOVA_CHANGES (Some "address_review") else
  let chain := (chain ++ ["sova_verdict_stale"; "external_changes_or_unresolved_threads"])%list in
  if external_changes_requested f || one_of (thread_signal f) ["pending"; "unknown"]
  then resolved chain PR_EXTERNAL_CHANGES (Some "address_pr") else
  let chain := (chain ++ ["sova_verdict_addressed"])%list in
  if sova_verdict_addressed f then resolved chain PR_REVIEW_ADDRESSED (Some "review_pr") else
  let chain := (chain ++ ["no_sova_review"])%list in
  if bool_decide (sova_verdict f = None) || verdict_stale
  then resolved chain (if external_reviews_enabled f then PR_SOVA_PENDING else PR_AWAITING_REVIEW) (Some "review_pr") else
  let chain := (chain ++ ["merge_blocked_by_github"])%list in
  if one_of (merge_state f) MERGE_STATES_BLOCKED_BY_GITHUB then resolved chain PR_AWAITING_REVIEW None else
  let chain := (chain ++ ["ready_to_merge"])%list in
  if bool_decide (merge_blockers = []) then resolved chain PR_READY_TO_MERGE (Some "integrate") else
  let chain := (chain ++ ["awaiting_review"])%list in
  resolved chain PR_AWAITING_REVIEW (Some "review_pr").

(** ** Explaining a resolution *)

(** [_short_sha] *)
Definition short_sha (sha : option string) : string :=
  match sha with Some "" | None => "unknown" | Some s => PyStr.slice_to 7 s end.

Definition fact_conflicting (f : PRFacts) : string :=
  if bool_decide (mergeable f = "CONFLICTING") then "PR has merge conflicts"
  else if bool_decide (merge_state f = "DIRTY") then "GitHub reports the PR as DIRTY (needs a manual merge)"
  else if bool_decide (mergeable f = "UNKNOWN") then "mergeable status is unknown"
  else "PR mergeable status is " ++ mergeable f.

Definition fact_ci_failed (f : PRFacts) : string :=
  if bool_decide (ci_status f = "") then "CI status is unknown"
  else if bool_decide (ci_status f = "failed") then "CI failed"
  else "CI status is " ++ ci_status f.

Definition fact_ci_running (f : PRFacts) : string :=
  if bool_decide (ci_status f = "") then "CI status is unknown"
  else if one_of (ci_status f) ["pending"; "running"] then "CI is " ++ ci_status f
  else "CI is not pending or running (status: " ++ ci_status f ++ ")".

Definition fact_review_budget_exhausted (f : PRFacts) : string :=
  let cycles := "(" ++ pretty (address_cycles f) ++ "/" ++ pretty (max_address_cycles f) ++ " cycles)" in
  if Z.leb (max_address_cycles f) 0 then "address-review budget is unlimited"
  else if review_history_unresolved f
  then "address-review history is unresolved (GitHub unreachable); failing closed"
  else if Z.leb (max_address_cycles f) (address_cycles f) then "address-review budget exhausted " ++ cycles
  else "address-review budget not exhausted " ++ cycles.

Definition fact_sova_standing_changes (f : PRFacts) : string :=
  if has_standing_sova_changes f
  then "SOVA has a standing '" ++ default "" (sova_verdict f) ++ "' verdict on the current head"
  else "no standing SOVA revise/block verdict on the current head".

Definition fact_sova_verdict_stale (f : PRFacts) : string :=
  match sova_verdict f with
  | None => "no SOVA verdict to compare against head"
  | Some _ =>
      if negb (has_text (sova_verdict_sha f)) || bool_decide (head_sha f = "") then "verdict anchor is unknown"
      else if bool_decide (sova_verdict_sha f = Some (head_sha f))
      then "verdict is anchored to the current head (" ++ short_sha (Some (head_sha f)) ++ ")"
      else "SOVA reviewed " ++ short_sha (sova_verdict_sha f) ++ ", head is now " ++ short_sha (Some (head_sha f))
           ++ " (stale)"
  end.

Definition fact_no_sova_review (f : PRFacts) : string :=
  match sova_verdict f with
  | None => "no SOVA review exists yet"
  | Some v => if verdict_is_stale f then "the standing SOVA verdict is stale and treated as no current review"
              else "a current SOVA verdict exists (" ++ v ++ ")"
  end.

Definition fact_external_changes_or_unresolved_threads (f : PRFacts) : string :=
  if external_changes_requested f then "an external reviewer has requested changes"
  else if bool_decide (thread_signal f = "unknown") then "review thread status is unknown"
  else if bool_decide (thread_signal f = "pending") then "review threads are still unresolved"
  else "no external changes requested and review threads are clear".

Definition fact_ready_to_merge (f : PRFacts) : string :=
  match unmet_merge_conditions f with
  | [] => "approved, threads clear, CI not blocking, and mergeable: ready to merge"
  | unmet => "not ready to merge (" ++ PyStr.join "; " unmet ++ ")"
  end.

(** [_RULE_RENDERERS] *)
Definition RULE_RENDERERS : list (string * (PRFacts -> string)) :=
  [("agent_running", fun f => if running_agent f then "an agent is currently running"
                              else "no agent is currently running");
   ("merged", fun f => "PR state is " ++ pr_state f);
   ("conflicting", fact_conflicting);
   ("draft", fun f => if is_draft f then "PR is a draft" else "PR is not a draft");
   ("ci_failed", fact_ci_failed);
   ("ci_running", fact_ci_running);
   ("review_budget_exhausted", fact_review_budget_exhausted);
   ("sova_standing_changes", fact_sova_standing_changes);
   ("sova_verdict_stale", fact_sova_verdict_stale);
   ("sova_verdict_addressed", fun f => if sova_verdict_addressed f then "an address cycle has superseded the review"
                                       else "no address cycle has run since the review");
   ("no_sova_review", fact_no_sova_review);
   ("external_changes_or_unresolved_threads", fact_external_changes_or_unresolved_threads);
   ("merge_blocked_by_github", fun f => if one_of (merge_state f) MERGE_STATES_BLOCKED_BY_GITHUB
                                        then "GitHub blocks merging (mergeStateStatus: " ++ merge_state f ++ ")"
                                        else "GitHub does not block merging");
   ("ready_to_merge", fact_ready_to_merge);
   ("awaiting_review", fun _ => "no earlier rule matched; defaulting to awaiting review")].

(** [describe_reason_chain] *)
Definition describe_reason_chain (chain : list string) (f : PRFacts) : list string :=
  map (fun rule => match assoc rule RULE_RENDERERS with Some render => render f | None => rule end) chain.

(** ** The facts of a pull request *)

(** The keys of [pr_data] that are read; [None] is an absent key, and for the
    thread counts [Some None] a count that is not known. *)
Record PRData := {
  pd_state : option string;
  pd_is_draft : option bool;
  pd_mergeable : option string;
  pd_merge_state : option string;
  pd_ci_status : option string;
  pd_head_sha : option string;
  pd_computed_state : option string;
  pd_thread_total : option (option Z);
  pd_thread_resolved : option (option Z);
}.

(** [{}] *)
Definition no_data : PRData :=
  {| pd_state := None; pd_is_draft := None; pd_mergeable := None; pd_merge_state := None; pd_ci_status := None;
     pd_head_sha := None; pd_computed_state := None; pd_thread_total := None; pd_thread_resolved := None |}.

(** [get_unresolved_thread_count] *)
Definition get_unresolved_thread_count (d : PRData) : option Z :=
  match pd_thread_total d, pd_thread_resolved d with
  | None, _ | _, None => Some 0%Z
  | Some (Some total), Some (Some resolved) => Some (Z.max 0 (total - resolved))
  | _, _ => None
  end.

(** [_thread_signal] *)
Definition thread_signal_of (d : PRData) : string :=
  match get_unresolved_thread_count d with
  | None => "unknown"
  | Some n => if Z.ltb 0 n then "pending" else "clear"
  end.

(** [_build_pr_facts] *)
Definition build_pr_facts (d : PRData) (sova_verdict : option Verdict) (external_reviews_enabled : bool)
    (max_address_cycles : Z) : PRFacts :=
  let verdict := default NO_REVIEW sova_verdict in
  let has_review := vd_has_sova_review verdict in
  let raw_verdict := if has_review then vd_verdict verdict else None in
  let addressed := bool_decide (raw_verdict = Some "addressed") in
  {| running_agent := false;
     pr_state := default "OPEN" (pd_state d);
     is_draft := default false (pd_is_draft d);
     mergeable := or_word (default "" (pd_mergeable d)) "UNKNOWN";
     merge_state := default "" (pd_merge_state d);
     ci_status := default "" (pd_ci_status d);
     head_sha := default "" (pd_head_sha d);
     WorkState.sova_verdict := if addressed then None else raw_verdict;
     sova_verdict_sha := if has_review then vd_review_head_sha verdict else None;
     sova_verdict_addressed := addressed;
     external_changes_requested := bool_decide (pd_computed_state d = Some "changes_requested");
     thread_signal := thread_signal_of d;
     WorkState.external_reviews_enabled := external_reviews_enabled;
     address_cycles := Z.of_nat (vd_address_cycles verdict);
     WorkState.max_address_cycles := max_address_cycles;
     review_history_unresolved := vd_unavailable verdict |}.

(** [replace(facts, running_agent=True)] *)
Definition with_running_agent (f : PRFacts) : PRFacts :=
  {| running_agent := true; pr_state := pr_state f; is_draft := is_draft f; mergeable := mergeable f;
     merge_state := merge_state f; ci_status := ci_status f; head_sha := head_sha f;
     sova_verdict := sova_verdict f; sova_verdict_sha := sova_verdict_sha f;
     sova_verdict_addressed := sova_verdict_addressed f;
     external_changes_requested := external_changes_requested f; thread_signal := thread_signal f;
     external_reviews_enabled := external_reviews_enabled f; address_cycles := address_cycles f;
     max_address_cycles := max_address_cycles f; review_history_unresolved := review_history_unresolved f |}.

Definition plain_resolution (s : WorkItemState.t) : Resolution :=
  {| state := s; action_id := None; reason_chain := []; merge_blockers := [] |}.

(** [compute_work_item_resolution] *)
Definition compute_work_item_resolution (task_state : option string) (pr_data : option PRData) (agent_runs : bool)
    (verdict : option Verdict) (external_reviews_enabled : bool) (max_address_cycles : Z)
    : Resolution * option PRFacts :=
  if agent_runs || bool_decide (is_Some pr_data) then
    let facts := build_pr_facts (default no_data pr_data) verdict external_reviews_enabled max_address_cycles in
    let facts := if agent_runs then with_running_agent facts else facts in
    (resolve_next_action facts, Some facts)
  else
    (plain_resolution match task_state with
                      | Some s => default BACKLOG (assoc s LABEL_STATE_MAP)
                      | None => BACKLOG
                      end, None).

(** [compute_work_item_state] *)
Definition compute_work_item_state (task_state : option string) (pr_data : option PRData) (agent_runs : bool)
    (verdict : option Verdict) (external_reviews_enabled : bool) (max_address_cycles : Z) : WorkItemState.t :=
  state (compute_work_item_resolution task_state pr_data agent_runs verdict external_reviews_enabled
           max_address_cycles).1.

(** [_STATE_SORT_ORDER] *)
Definition state_sort_order (s : WorkItemState.t) : Z :=
  match s with
  | AGENT_RUNNING => 0 | SPEC_REVIEW => 1
  | PR_READY_TO_MERGE | PR_REVIEW_EXHAUSTED => 2
  | PR_CONFLICTED | PR_CI_FAILED | PR_SOVA_CHANGES | PR_EXTERNAL_CHANGES | PR_SOVA_PENDING => 3
  | _ => 10
  end.

(** [_sort_items] on items with a state and a priority *)
Definition sort_items {A} (item_state : A -> WorkItemState.t) (priority : A -> Z) (items : list A) : list A :=
  sort_by (fun i => [state_sort_order (item_state i); priority i]) items.

Local Close Scope string_scope.

(** ** The ladder

    The rules of the resolver as a table, each with its own guard: a rule that
    matches gives the state and the action. *)

Definition rule : Type := string * (PRFacts -> option (WorkItemState.t * option string)).

Definition when (b : bool) (s : WorkItemState.t) (a : option string) : option (WorkItemState.t * option string) :=
  if b then Some (s, a) else None.

Definition budget_exhausted (f : PRFacts) : bool :=
  Z.ltb 0 (max_address_cycles f)
  && (review_history_unresolved f || Z.leb (max_address_cycles f) (address_cycles f)).

Definition LADDER : list rule :=
  [("agent_running", fun f => when (running_agent f) AGENT_RUNNING None);
   ("merged", fun f => when (bool_decide (pr_state f = "MERGED")) MERGED None);
   ("conflicting", fun f => when (bool_decide (mergeable f = "CONFLICTING") || bool_decide (merge_state f = "DIRTY"))
                              PR_CONFLICTED (Some "rebase"));
   ("draft", fun f => when (is_draft f) PR_DRAFT None);
   ("ci_failed", fun f => when (bool_decide (ci_status f = "failed")) PR_CI_FAILED (Some "address_pr"));
   ("ci_running", fun f => when (one_of (ci_status f) ["pending"; "running"]) PR_CI_RUNNING None);
   ("review_budget_exhausted", fun f => when (budget_exhausted f) PR_REVIEW_EXHAUSTED (Some "integrate"));
   ("sova_standing_changes", fun f => when (has_standing_sova_changes f) PR_SOVA_CHANGES (Some "address_review"));
   ("sova_verdict_stale", fun _ => None);
   ("external_changes_or_unresolved_threads",
    fun f => when (external_changes_requested f || one_of (thread_signal f) ["pending"; "unknown"])
               PR_EXTERNAL_CHANGES (Some "address_pr"));
   ("sova_verdict_addressed", fun f => when (sova_verdict_addressed f) PR_REVIEW_ADDRESSED (Some "review_pr"));
   ("no_sova_review",
    fun f => when (bool_decide (sova_verdict f = None) || verdict_is_stale f)
               (if external_reviews_enabled f then PR_SOVA_PENDING else PR_AWAITING_REVIEW) (Some "review_pr"));
   ("merge_blocked_by_github", fun f => when (one_of (merge_state f) MERGE_STATES_BLOCKED_BY_GITHUB)
                                          PR_AWAITING_REVIEW None);
   ("ready_to_merge", fun f => when (bool_decide (unmet_merge_conditions f = [])) PR_READY_TO_MERGE (Some "integrate"));
   ("awaiting_review", fun _ => Some (PR_AWAITING_REVIEW, Some "review_pr"))]%string.

(** The first rule of [rules] that matches, with the names tried before it. *)
Fixpoint first_match (tried : list string) (rules : list rule) (f : PRFacts)
    : option (list string * (WorkItemState.t * option string)) :=
  match rules with
  | [] => None
  | (name, guard) :: rules =>
      match guard f with
      | Some out => Some (tried ++ [name], out)
      | None => first_match (tried ++ [name]) rules f
      end
  end.

Lemma resolve_eq f :
  first_match [] LADDER f = Some (reason_chain (resolve_next_action f),
                                  (state (resolve_next_action f), action_id (resolve_next_action f))).
Proof.
  unfold LADDER, resolve_next_action, budget_exhausted. cbn [first_match app].
  repeat match goal with |- context [when ?b _ _] => destruct b; [reflexivity|cbn [when first_match app]] end.
  reflexivity.
Qed.

Lemma first_match_Some tried rules f chain out :
  first_match tried rules f = Some (chain, out) ->
  exists pre name guard post, rules = pre ++ (name, guard) :: post /\
    Forall (fun r : rule => r.2 f = None) pre /\ guard f = Some out /\ chain = tried ++ map fst pre ++ [name].
Proof.
  revert tried. induction rules as [|[name guard] rules IH]; intros tried; [done|]. cbn [first_match].
  destruct (guard f) as [o|] eqn:E.
  - intros [= <- <-]. by exists [], name, guard, rules.
  - intros (pre & n & g & post & -> & Hpre & Hg & ->)%IH.
    exists ((name, guard) :: pre), n, g, post. split_and!; [done|by constructor|done|].
    by rewrite <- !app_assoc.
Qed.

(** the resolver implements its ladder. For any facts, the state and the
    action are those of the first rule of the table whose guard holds, the reason
    chain is exactly the names of the rules up to it, and every name of the chain
    has a renderer, so the explanation has one sentence per rule and never falls
    back to a bare name. *)
Theorem resolve_first_match (f : PRFacts) :
  let r := resolve_next_action f in
  (exists pre name guard post, LADDER = pre ++ (name, guard) :: post /\
     Forall (fun r : rule => r.2 f = None) pre /\ guard f = Some (state r, action_id r) /\
     reason_chain r = map fst pre ++ [name]) /\
  merge_blockers r = unmet_merge_conditions f /\
  Forall (fun name => is_Some (assoc name RULE_RENDERERS)) (reason_chain r).
Proof.
  intros r. pose proof (resolve_eq f) as H. fold r in H.
  apply first_match_Some in H as (pre & name & guard & post & Hl & Hpre & Hg & Hchain).
  split; [by exists pre, name, guard, post|]. split.
  { subst r. unfold resolve_next_action. clear. cbv zeta. repeat (case_match; [done|]). done. }
  rewrite Hchain. cbn [app]. assert (Forall (fun name => is_Some (assoc name RULE_RENDERERS)) (map fst LADDER)) as Hall.
  { repeat constructor; by eexists. }
  rewrite Hl, map_app in Hall. apply Forall_app in Hall as [H1 H2]. apply Forall_app. split; [done|].
  constructor; [|constructor]. by apply Forall_cons in H2 as [? _].
Qed.

(** ** What the ladder promises *)

(** Follow the ladder in a goal about the resolution. *)
Ltac walk :=
  unfold resolve_next_action; cbv beta zeta;
  repeat match goal with
  | |- context [action_id (if ?b then _ else _)] => destruct b eqn:?
  end; cbn [action_id state].

(** The pull request is open, mergeable as far as conflicts go, no draft, nobody
    works on it, and its CI is neither red nor under way. *)
Definition past_ci (f : PRFacts) : Prop :=
  running_agent f = false /\ pr_state f <> "MERGED"%string /\ mergeable f <> "CONFLICTING"%string /\
  merge_state f <> "DIRTY"%string /\ is_draft f = false /\
  ~ ci_status f ∈ ["failed"; "pending"; "running"]%string.

(** The current head is approved and nothing stands in the way of a merge. *)
Definition ready (f : PRFacts) : Prop :=
  sova_verdict f = Some "approve"%string /\ verdict_is_stale f = false /\ sova_verdict_addressed f = false /\
  external_changes_requested f = false /\ thread_signal f = "clear"%string /\
  ci_status f ∈ ["passed"; "none"]%string /\ github_will_merge f = true.

Lemma unmet_nil f :
  unmet_merge_conditions f = [] <->
  sova_verdict f = Some "approve"%string /\ external_changes_requested f = false /\ thread_signal f = "clear"%string /\
  ci_status f ∈ ["passed"; "none"]%string /\ github_will_merge f = true.
Proof.
  unfold unmet_merge_conditions, one_of. split.
  - intros H. repeat (apply app_eq_nil in H as [? H]).
    repeat case_bool_decide; destruct (external_changes_requested f), (github_will_merge f); try done.
    all: by destruct (decide (merge_state f ∈ MERGE_STATES_UNMERGEABLE)); discriminate.
  - intros (-> & -> & -> & H & ->). by rewrite (bool_decide_eq_true_2 _ H).
Qed.

Lemma past_ci_iff f :
  past_ci f <-> running_agent f = false /\ bool_decide (pr_state f = "MERGED"%string) = false /\
    bool_decide (mergeable f = "CONFLICTING"%string) || bool_decide (merge_state f = "DIRTY"%string) = false /\
    is_draft f = false /\ bool_decide (ci_status f = "failed"%string) = false /\
    one_of (ci_status f) ["pending"; "running"]%string = false.
Proof.
  unfold past_ci, one_of. rewrite orb_false_iff, !bool_decide_eq_false. rewrite !elem_of_cons, !elem_of_nil. tauto.
Qed.

Lemma ready_blocked f : ready f -> one_of (merge_state f) MERGE_STATES_BLOCKED_BY_GITHUB = false.
Proof.
  intros (_ & _ & _ & _ & _ & _ & H). unfold one_of, github_will_merge, one_of in *.
  destruct (decide (merge_state f ∈ MERGE_STATES_BLOCKED_BY_GITHUB)) as [Hb|Hb]; [|by rewrite bool_decide_eq_false_2].
  apply list_elem_of_singleton in Hb. by rewrite Hb in H.
Qed.

Lemma ready_no_standing f : ready f -> has_standing_sova_changes f = false.
Proof. unfold has_standing_sova_changes. by intros (-> & _). Qed.

(** When the resolver integrates. *)
Lemma integrates_iff (f : PRFacts) :
  action_id (resolve_next_action f) = Some "integrate"%string <->
  past_ci f /\ (budget_exhausted f = true \/ ready f).
Proof.
  rewrite past_ci_iff. pose proof (ready_blocked f) as Hrb. pose proof (ready_no_standing f) as Hrs.
  split.
  - unfold budget_exhausted. walk; intros H; try discriminate H; split_and!; auto.
    right. match goal with H : bool_decide (_ = []) = true |- _ => apply bool_decide_eq_true_1, unmet_nil in H as (?&?&?&?&?) end.
    match goal with H : _ || verdict_is_stale f = false |- _ => apply orb_false_iff in H as [_ ?] end.
    by split_and!.
  - intros (Hp & Hr). destruct Hp as (H1 & H2 & H3 & H4 & H5 & H6). unfold budget_exhausted in Hr.
    unfold resolve_next_action. cbv beta zeta. rewrite H1, H2, H3, H4, H5, H6.
    destruct Hr as [-> | Hr]; [done|]. rewrite Hrb, Hrs by done. destruct (_ && _); [done|].
    destruct Hr as (Hv & -> & -> & He & Ht & Hc & Hg).
    rewrite (bool_decide_eq_true_2 _ (proj2 (unmet_nil f) (conj Hv (conj He (conj Ht (conj Hc Hg)))))).
    by rewrite He, Ht, Hv.
Qed.


(** the address budget is a hard cap. Once as many address cycles are counted
    as the maximum, or the history could not be read at all, no verdict, change
    request or thread starts another cycle: the only fix the resolver still
    proposes is for a red CI, and it proposes no further review. *)
Theorem budget_stops_cycles (f : PRFacts) :
  (0 < max_address_cycles f)%Z ->
  review_history_unresolved f = true \/ (max_address_cycles f <= address_cycles f)%Z ->
  let r := resolve_next_action f in
  action_id r <> Some "address_review"%string /\ action_id r <> Some "review_pr"%string /\
  (action_id r = Some "address_pr"%string -> state r = PR_CI_FAILED /\ ci_status f = "failed"%string).
Proof.
  intros Hm H. cbv zeta.
  assert (Z.ltb 0 (max_address_cycles f)
    && (review_history_unresolved f || Z.leb (max_address_cycles f) (address_cycles f)) = true) as Hb.
  { apply andb_true_iff. split; [by apply Z.ltb_lt|]. apply orb_true_iff. destruct H; [by left|right; by apply Z.leb_le]. }
  walk; rewrite ?Hb in *; try done.
  split_and!; [done..|]. intros _. split; [done|]. by eapply bool_decide_eq_true_1.
Qed.

(** the dashboard's button is the resolver's action. Whenever the resolver
    gives an action, the primary button of the state it gives carries that very
    action (rebasing needs an issue to rebase). *)
Theorem primary_action_agrees (f : PRFacts) (issue : option string) (pr : option Z) (a : string) :
  action_id (resolve_next_action f) = Some a ->
  (a = "rebase"%string -> exists c i, issue = Some (String c i)) ->
  a_id <$> (get_actions (state (resolve_next_action f)) issue pr).1 = Some a.
Proof.
  intros Ha Hi. revert Ha. walk; intros [= <-]; try done.
  - by destruct Hi as (c & i & ->).
  - by destruct (external_reviews_enabled f).
Qed.


(** ** Two pull requests *)

Definition checked_pr (mergeable : string) : PRData :=
  {| pd_state := Some "OPEN"%string; pd_is_draft := Some false; pd_mergeable := Some mergeable;
     pd_merge_state := Some "UNKNOWN"%string; pd_ci_status := Some "passed"%string;
     pd_head_sha := Some "0123456789"%string; pd_computed_state := Some "approved_ci_green"%string;
     pd_thread_total := Some (Some 0%Z); pd_thread_resolved := Some (Some 0%Z) |}.

Definition an_approval : Review :=
  comment "sova" "2026-01-01T10:00:00Z"
    (Review.Format.format_review_body [] "Fine."%string [] (Some "0123456789"%string) 3 7 []).

(** an approved pull request can be sent back to review. While GitHub is still
    computing whether it can be merged (both of its fields UNKNOWN, as just after a
    push), a pull request whose current head SOVA has approved, with no open thread
    and a green CI, resolves to another review: the action that the supervisor may
    spawn a reviewer for on every poll; with MERGEABLE instead it is ready. *)
Theorem approved_pr_reviewed_again :
  let resolve m := (compute_work_item_resolution None (Some (checked_pr m)) false
                      (Some (parse_review_history [an_approval] "sova")) true 3).1 in
  state (resolve "UNKNOWN"%string) = PR_AWAITING_REVIEW /\
  action_id (resolve "UNKNOWN"%string) = Some "review_pr"%string /\
  merge_blockers (resolve "UNKNOWN"%string) = ["GitHub merge state is UNKNOWN"%string] /\
  state (resolve "MERGEABLE"%string) = PR_READY_TO_MERGE.
Proof. vm_compute. split_and!; reflexivity. Qed.


Definition exhausted_facts : PRFacts :=
  build_pr_facts (checked_pr "MERGEABLE") (Some (parse_review_history [a_review; an_address_summary] "sova")) true 1.

Lemma budget_stops_cycles_witness :
  action_id (resolve_next_action exhausted_facts) <> Some "review_pr"%string.
Proof. apply (budget_stops_cycles exhausted_facts); [by vm_compute|right; by vm_compute]. Defined.

Lemma primary_action_agrees_witness :
  a_id <$> (get_actions (state (resolve_next_action exhausted_facts)) (Some "5"%string) (Some 7%Z)).1 = Some "integrate"%string.
Proof. apply primary_action_agrees; [vm_compute; reflexivity|done]. Defined.
