(* ===== verification/Gates.v ===== *)
(** * Gates: what can keep the supervisor from starting an agent

    sova/supervisor/gates/ and the pure part of sova/supervisor/file_overlap.py.
    A gate that reads the database, the tracker or the system takes the answer as
    an argument, an [outcome] whose [Raise] is the exception the read failed
    with. *)

From stdpp Require Import base gmap strings list pretty.
From Stdlib Require Import Ascii Sorted.
From S2P Require Import Prelude Priority Tracker Suitability Errors State Verdict WorkState.

Local Open Scope string_scope.
Local Open Scope sova_scope.

(** [class BlockReason] *)
Record BlockReason := { gate : string; detail : string }.

#[export] Instance BlockReason_eq_dec : EqDecision BlockReason.
Proof. solve_decision. Defined.

(** The [except Exception: ...; return None] around a gate. *)
Definition fail_open {A} (m : outcome (option A)) : option A := match m with Ret r => r | Raise _ => None end.

(** The columns of a [TaskRun] row that gates read. *)
Record RunRow := {
  row_id : Z;
  row_issue : string;
  row_role : string;
  row_status : string;
  row_pid : option Z;
}.

Section gates.
Context (is_process_alive : Z -> bool).

(** ** Runs *)

(** [_ALREADY_RUNNING_TERMINAL] *)
Definition ALREADY_RUNNING_TERMINAL : list string :=
  List.filter (fun s => negb (bool_decide (s = "awaiting_approval"))) TaskStatus.TASK_RUN_TERMINAL.

(** The loop of [check_already_running]. *)
Fixpoint first_running (issue : Z) (runs : list RunRow) : option BlockReason :=
  match runs with
  | [] => None
  | r :: runs =>
      let block text := Some {| gate := "already_running"; detail := text |} in
      if bool_decide (row_status r = "awaiting_approval")
      then block ("Spec awaiting human approval for #" ++ pretty issue ++ " (run " ++ pretty (row_id r) ++ ")")
      else match row_pid r with
           | None => block ("Agent being started for #" ++ pretty issue ++ " (run " ++ pretty (row_id r)
                            ++ ", PID not yet assigned)")
           | Some pid =>
               if is_process_alive pid
               then block ("Agent already running for #" ++ pretty issue ++ " (run " ++ pretty (row_id r) ++ ", PID "
                           ++ pretty pid ++ ")")
               else first_running issue runs
           end
  end.

(** [check_already_running] *)
Definition check_already_running (issue : Z) (rows : outcome (list RunRow)) : option BlockReason :=
  fail_open
    (let? rows := rows in
     Ret (first_running issue
            (List.filter (fun r => bool_decide (row_issue r = pretty issue)
                                   && negb (one_of (row_status r) ALREADY_RUNNING_TERMINAL)) rows))).

(** [get_alive_count]: [None] when the rows cannot be read. *)
Definition get_alive_count (rows : outcome (list RunRow)) : option nat :=
  fail_open
    (let? rows := rows in
     Ret (Some (length (List.filter
       (fun r => negb (one_of (row_status r) TaskStatus.TASK_RUN_TERMINAL)
                 && match row_pid r with None => true | Some pid => is_process_alive pid end) rows)))).

Definition slots_block (count : nat) (max_concurrent : Z) (prefix : string) : BlockReason :=
  {| gate := "slots";
     detail := prefix ++ " (" ++ pretty (Z.of_nat count) ++ "/" ++ pretty max_concurrent ++ ")" |}.

(** [check_slot_gate] *)
Definition check_slot_gate (rows : outcome (list RunRow)) (max_concurrent : Z) : option BlockReason :=
  if Z.leb max_concurrent 0 then None
  else match get_alive_count rows with
       | Some count => if Z.leb max_concurrent (Z.of_nat count)
                       then Some (slots_block count max_concurrent "All agent slots occupied") else None
       | None => None
       end.

(** The two queries of [check_repeated_failures_gate]. *)
Definition last_success (issue : Z) (role : string) (rows : list RunRow) : Z :=
  foldr (fun r m => if bool_decide (row_issue r = pretty issue) && bool_decide (row_role r = role)
                       && bool_decide (row_status r = "done")
                    then Z.max (row_id r) m else m) 0%Z rows.

Definition failures_since (issue : Z) (role : string) (rows : list RunRow) : nat :=
  length (List.filter (fun r => bool_decide (row_issue r = pretty issue) && bool_decide (row_role r = role)
                                && bool_decide (row_status r = "failed")
                                && Z.ltb (last_success issue role rows) (row_id r)) rows).

(** [str.capitalize] on ASCII text *)
Definition capitalize (s : string) : string :=
  match s with
  | "" => ""
  | String c s =>
      let n := Ascii.nat_of_ascii c in
      String (if (97 <=? n)%nat && (n <=? 122)%nat then Ascii.ascii_of_nat (n - 32) else c) (PyStr.lower s)
  end.

(** [check_repeated_failures_gate] *)
Definition check_repeated_failures_gate (issue : Z) (max_failures : nat) (role : string) (rows : outcome (list RunRow))
    : option BlockReason :=
  if bool_decide (max_failures = 0%nat) then None
  else fail_open
    (let? rows := rows in
     let count := failures_since issue role rows in
     Ret (if (max_failures <=? count)%nat then
            Some {| gate := if bool_decide (role = "researcher") then "repeated_failure"
                            else role ++ "_repeated_failure";
                    detail := capitalize role ++ " has failed " ++ pretty (Z.of_nat count) ++ " times for #"
                              ++ pretty issue ++ "; human review required (threshold: "
                              ++ pretty (Z.of_nat max_failures) ++ ")" |}
          else None)).

(** ** Labels, owners and dependencies *)

(** [_PRE_DEVELOPMENT_CANDIDATES] *)
Definition PRE_DEVELOPMENT_CANDIDATES : list string := ["spawn_triage"; "spawn_researcher"; "spawn_developer"].

(** [_BLOCKS]: the text, around the issue. *)
Definition BLOCKS (m : SuitabilityMode) (from_local : bool) (issue : string) : option string :=
  match m, from_local with
  | EPIC, false => Some ("Issue #" ++ issue ++ " is labeled type: epic (tracking container, not agent work)")
  | HUMAN, false => Some ("Issue #" ++ issue ++ " is labeled agent:human-only")
  | HUMAN, true => Some ("Issue #" ++ issue ++ " has a local human-only suitability assessment (clear with `sova assess clear "
                         ++ issue ++ "`)")
  | BLOCKED, false => Some ("Issue #" ++ issue ++ " is labeled agent:on-hold (held by a lead or an unanswered question)")
  | INTERACTIVE, false => Some ("Issue #" ++ issue ++ " is labeled agent:interactive-recommended (manual start only)")
  | INTERACTIVE, true => Some ("Issue #" ++ issue ++ " has a local interactive-recommended suitability assessment (manual start only; clear with `sova assess clear "
                               ++ issue ++ "`)")
  | _, _ => None
  end.

(** [_BLOCKING_MODES] *)
Definition blocking_mode (m : SuitabilityMode) : bool :=
  match m with EPIC | HUMAN | BLOCKED | INTERACTIVE => true | _ => false end.

Definition is_local_reason (r : reason) : bool :=
  match r with reason_text source _ => bool_decide (source = "local_assessment") | reason_dependency _ => false end.

(** The task of [check_human_involvement_gate]: only its labels matter. *)
Definition labelled (issue : string) (labels : list string) : Task :=
  {| task_id := issue; task_title := ""; task_body := ""; task_state := TaskState.BACKLOG; task_labels := labels;
     task_assignees := []; task_milestone := ""; task_priority := Priority.Priority.UNDEFINED |}.

(** [check_human_involvement_gate]; [record] is the answer of the assessment store. *)
Definition check_human_involvement_gate {G} `{GraphView G} (issue : Z) (labels : list string) (candidate : string)
    (record : outcome (option string)) : option BlockReason :=
  let local_assessment :=
    if one_of candidate PRE_DEVELOPMENT_CANDIDATES && Labels.local_assessment_applies labels
    then fail_open record else None in
  let s := assess_suitability (labelled (pretty issue) labels) (None : option G) local_assessment false in
  let from_local := existsb is_local_reason (reasons s) in
  match BLOCKS (mode s) from_local (pretty issue) with
  | Some text => Some {| gate := "human_involvement"; detail := text |}
  | None => if blocking_mode (mode s)
            then Some {| gate := "human_involvement";
                         detail := "Issue #" ++ pretty issue ++ " classified with no mapped block message" |}
            else None
  end.

(** [check_dependency_gate] *)
Definition check_dependency_gate {G} `{GraphView G} (issue : Z) (graph : G) : option BlockReason :=
  match unsatisfied_dependencies issue (Some graph) with
  | None | Some [] => None
  | Some (dep :: _) =>
      match get_task graph dep with
      | None => Some {| gate := "dependency";
                        detail := "Dependency #" ++ pretty dep ++ " not found (missing reference)" |}
      | Some t => Some {| gate := "dependency";
                          detail := "Blocked by #" ++ pretty dep ++ " (state: " ++ TaskState.value (task_state t) ++ ")" |}
      end
  end.

(** [class PRInfo]: the fields the supervisor reads. *)
Record PRInfo := { pr_info_number : Z; pr_author_login : string }.

(** [_check_issue_ownership] *)
Definition check_issue_ownership (issue : Z) (github_user : string) (assignees : list string) : option BlockReason :=
  if bool_decide (assignees = []) || one_of github_user assignees then None
  else Some {| gate := "ownership";
               detail := "Issue #" ++ pretty issue ++ " is assigned to " ++ PyStr.join ", " assignees ++ " (not "
                         ++ github_user ++ ")" |}.

(** [_check_pr_ownership]: the result, or [None] to fall through to the issue. *)
Definition check_pr_ownership (github_user repo : string) (pr : outcome (option PRInfo))
    : outcome (option (option BlockReason) * option Z) :=
  if bool_decide (repo = "") then Ret (None, None)
  else
    let? pr := pr in
    Ret match pr with
        | None => (None, None)
        | Some pr =>
            if bool_decide (pr_author_login pr = "") then (None, Some (pr_info_number pr))
            else if bool_decide (pr_author_login pr = github_user) then (Some None, Some (pr_info_number pr))
            else (Some (Some {| gate := "ownership";
                                detail := "PR #" ++ pretty (pr_info_number pr) ++ " is owned by " ++ pr_author_login pr
                                          ++ " (not " ++ github_user ++ ")" |}),
                  Some (pr_info_number pr))
        end.

(** [check_ownership_gate]; [pr] is the known pull request or the lookup's answer. *)
Definition check_ownership_gate (issue : Z) (is_integrate respect_ownership : bool) (github_user repo : string)
    (assignees : outcome (list string)) (pr : outcome (option PRInfo)) : option BlockReason * option Z :=
  if negb respect_ownership || bool_decide (github_user = "") then (None, None)
  else
    match (let? r := if is_integrate then check_pr_ownership github_user repo pr else Ret (None, None) in
           match r with
           | (Some block, discovered) => Ret (block, discovered)
           | (None, discovered) =>
               let? assignees := assignees in
               Ret (check_issue_ownership issue github_user assignees, discovered)
           end) with
    | Ret r => r
    | Raise _ => (None, None)
    end.

(** ** Capacity and health *)

(** [check_budget_gate]; [error] is the answer of [_check_issue_budget]. *)
Definition check_budget_gate (error : outcome (option string)) : option BlockReason :=
  fail_open (let? e := error in Ret ((fun text => {| gate := "budget"; detail := text |}) <$> e)).

Definition UNLIMITED_SENTINEL : Z := 999999.

(** [CIBudget]: minutes included and left. *)
Record CIBudget := { ci_total : Z; ci_remaining : Z }.

(** [check_ci_budget_gate] *)
Definition check_ci_budget_gate (is_developer : bool) (github_repo : string) (ci_block_minutes : Z)
    (budget : outcome CIBudget) : option BlockReason :=
  if negb is_developer then None
  else fail_open
    (if bool_decide (github_repo = "") then Ret None
     else if Z.leb ci_block_minutes 0 then Ret None
     else
       let? b := budget in
       Ret (if Z.leb UNLIMITED_SENTINEL (ci_remaining b) then None
            else if bool_decide (ci_total b = 0%Z) && bool_decide (ci_remaining b = 0%Z) then None
            else if Z.ltb (ci_remaining b) ci_block_minutes
            then Some {| gate := "ci_budget";
                         detail := "CI minutes low: " ++ pretty (ci_remaining b) ++ " remaining (threshold: "
                                   ++ pretty ci_block_minutes ++ ")" |}
            else None)).

(** [check_connectivity_gate]; [status] says for how long the network is down, as
    text, when it is. *)
Definition check_connectivity_gate (enabled block_spawns : bool) (status : outcome (option string)) : option BlockReason :=
  fail_open
    (if negb enabled || negb block_spawns then Ret None
     else let? down := status in
          Ret ((fun s => {| gate := "connectivity"; detail := "Network unreachable (down for " ++ s ++ "s)" |}) <$> down)).

(** [check_github_rate_limit_gate]; [status] is the cooldown left, as text, when
    calls should be skipped. *)
Definition check_github_rate_limit_gate (status : outcome (option string)) : option BlockReason :=
  fail_open
    (let? cooldown := status in
     Ret ((fun s => {| gate := "rate_limit";
                       detail := "GitHub API rate limited (cooldown: " ++ s ++ "s remaining)" |}) <$> cooldown)).

(** [QuotaStatus]: whether a pull request can be created, and the wait as text. *)
Record QuotaStatus := { can_create_pr : bool; next_available : option string }.

(** [check_quota_gate] *)
Definition check_quota_gate (is_developer enabled : bool) (status : outcome QuotaStatus) : option BlockReason :=
  if negb is_developer then None
  else fail_open
    (if negb enabled then Ret None
     else
       let? s := status in
       Ret (if can_create_pr s then None
            else Some {| gate := "quota";
                         detail := "CodeRabbit quota exhausted"
                                   ++ match next_available s with Some m => " (available in " ++ m ++ "m)" | None => "" end |})).

(** [check_memory_pressure_gate] in bytes; [memory] is what psutil says is
    available, when it is installed. *)
Definition check_memory_pressure_gate (enabled : bool) (block_threshold : Z) (gigabytes : Z -> string)
    (memory : option (outcome Z)) : option BlockReason :=
  match memory with
  | None => None
  | Some available =>
      fail_open
        (if negb enabled then Ret None
         else
           let? a := available in
           Ret (if Z.ltb a block_threshold
                then Some {| gate := "memory";
                             detail := "System memory pressure: " ++ gigabytes a ++ " GB available < "
                                       ++ gigabytes block_threshold ++ " GB threshold" |}
                else None))
  end.

(** [check_stale_commands_gate]; [reason] is the answer of [find_stale_command]. *)
Definition check_stale_commands_gate (reason : outcome (option string)) : option BlockReason :=
  match reason with
  | Raise _ | Ret None => None
  | Ret (Some text) => Some {| gate := "stale_commands"; detail := text |}
  end.

(** ** Reviews *)

(** One of [latest_reviews]: its state, the login of its author, and whether the
    author is marked as a bot. *)
Record LatestReview := { lr_state : string; lr_login : string; lr_is_bot : bool }.

(** The enriched pull request of pr_service. *)
Record EnrichedPR := { ep_data : PRData; ep_review_decision : string; ep_latest_reviews : list LatestReview }.

Definition DEFAULT_CODERABBIT_AUTHORS : list string := ["coderabbitai"; "coderabbitai[bot]"; "coderabbit[bot]"].

(** [_has_human_approval] *)
Definition has_human_approval (pr : option EnrichedPR) : bool :=
  match pr with
  | None => false
  | Some pr =>
      bool_decide (ep_review_decision pr = "APPROVED")
      && existsb (fun r =>
           let login := PyStr.lower (lr_login r) in
           bool_decide (lr_state r = "APPROVED") && negb (lr_is_bot r)
           && negb (PyStr.endswith login "[bot]" || one_of login DEFAULT_CODERABBIT_AUTHORS)) (ep_latest_reviews pr)
  end.

(** [_unresolved_thread_count] *)
Definition unresolved_thread_count (pr : option EnrichedPR) : option Z :=
  match pr with None => Some 0%Z | Some pr => get_unresolved_thread_count (ep_data pr) end.

(** [f"{pr_number}"] *)
Definition show_pr (pr_number : option Z) : string := match pr_number with Some n => pretty n | None => "None" end.

(** [check_review_completed_gate]; [marker] is the answer of
    [resolve_verdict_for_pr]. *)
Definition check_review_completed_gate (issue : Z) (labels : list string) (pr_number : option Z)
    (marker : outcome Verdict) (pr : option EnrichedPR) : option BlockReason :=
  let block text := Some {| gate := "review_completed"; detail := text |} in
  match unresolved_thread_count pr with
  | None => block ("PR #" ++ show_pr pr_number ++ " thread resolution state is unknown: cannot verify before integration")
  | Some n =>
      if Z.ltb 0 n
      then block ("PR #" ++ show_pr pr_number ++ " has " ++ pretty n
                  ++ " unresolved review thread(s): requires thread resolution before integration")
      else if one_of "sova:approved" labels then None
      else if match marker with Ret v => vd_has_sova_review v | Raise _ => false end then None
      else if has_human_approval pr then None
      else block ("No review found for issue #" ++ pretty issue
                  ++ ": requires SOVA review, human approval, or completed reviewer run")
  end.

End gates.

(** ** File overlap *)

Module FileOverlap.

(** [_AREA_LABEL_DIRS] *)
Definition AREA_LABEL_DIRS : list (string * list string) :=
  [("agent", ["sova/core/"; "sova/roles/"]); ("dashboard", ["sova/dashboard/"]);
   ("commands", ["sova/commands/data/commands/"; ".claude/commands/"]); ("personas", ["sova/commands/data/personas/"]);
   ("invariants", ["invariants/"]); ("knowledge", ["sova/knowledge/"; "knowledge/"]); ("docs", ["docs/"]);
   ("cli", ["sova/cli/"]); ("scheduler", ["sova/scheduler/"]); ("ipc", ["sova/ipc/"]);
   ("adapters", ["sova/adapters/"]); ("roles", ["sova/roles/"]); ("core", ["sova/core/"]);
   ("config", ["sova/config/"]); ("supervisor", ["sova/supervisor/"]); ("mcp", ["sova/mcp/"]);
   ("monitoring", ["sova/monitoring/"]); ("db", ["sova/db/"]); ("awareness", ["sova/awareness/"])].

(** [_CROSS_CUTTING_FILES] *)
Definition CROSS_CUTTING_FILES : list string :=
  ["sova/config/models.py"; "sova/config/loader.py"; "sova/dashboard/settings_meta.py"].

Definition PATH_ROOTS : list string :=
  ["sova"; "tests"; "commands"; "docs"; "invariants"; "guidelines"; "skills"; "personas"; "templates"; "deploy";
   ".claude"; ".github"].

Definition is_path_char (c : Ascii.ascii) : bool := negb (PyStr.is_space c) && negb (Ascii.eqb c "`"%char).

(** [p] dropped from the front of [l]. *)
Fixpoint drop_prefix (p l : list Ascii.ascii) : option (list Ascii.ascii) :=
  match p, l with
  | [], _ => Some l
  | a :: p, c :: l => if Ascii.eqb a c then drop_prefix p l else None
  | _ :: _, [] => None
  end.

(** The group of [path_pattern] right after a backtick, and what follows the
    closing backtick. No root followed by a slash is a prefix of another one. *)
Definition path_at (l : list Ascii.ascii) : option (string * list Ascii.ascii) :=
  if existsb (fun root => if drop_prefix (PyStr.to_list (root ++ "/")) l then true else false) PATH_ROOTS then
    let path := PyStr.take_while is_path_char l in
    match drop (length path) l with
    | c :: rest =>
        let root_only := existsb (fun root => bool_decide (path = PyStr.to_list (root ++ "/"))) PATH_ROOTS in
        if Ascii.eqb c "`"%char && negb root_only then Some (PyStr.of_list path, rest) else None
    | [] => None
    end
  else None.

(** [path_pattern.finditer(body)]: the groups, left to right; a search goes on after
    the match, or one character on. The fuel is the length of the text. *)
Fixpoint find_paths (fuel : nat) (l : list Ascii.ascii) : list string :=
  match fuel, l with
  | S fuel, c :: l =>
      if Ascii.eqb c "`"%char then
        match path_at l with
        | Some (path, rest) => path :: find_paths fuel rest
        | None => find_paths fuel l
        end
      else find_paths fuel l
  | _, _ => []
  end.

(** [_extract_files_from_body] *)
Definition extract_files_from_body (body : string) : gset string :=
  list_to_set (find_paths (String.length body) (PyStr.to_list body)).

(** [predict_candidate_files] *)
Definition predict_candidate_files (labels : list string) (body : string) : gset string :=
  let body_files := extract_files_from_body body in
  if decide (body_files <> ∅) then body_files ∪ list_to_set CROSS_CUTTING_FILES
  else
    let areas := omap (fun la => if PyStr.startswith la "area:" then Some (PyStr.removeprefix la "area:") else None) labels in
    list_to_set (concat (map (fun area => default [] (Errors.assoc area AREA_LABEL_DIRS)) areas)).

(** [class BranchFileSet] and [class OverlapResult] *)
Record BranchFileSet := { bf_issue_number : string; bf_branch_name : string; bf_files : gset string }.

Record OverlapResult := {
  ov_conflicting_issue : string;
  ov_conflicting_branch : string;
  ov_overlapping_files : gset string;
}.

(** [_find_matching_files] with the candidates of [check_file_overlap] *)
Definition matches (candidates : gset string) (file : string) : bool :=
  existsb (fun c => if PyStr.endswith c "/" then PyStr.startswith file c else bool_decide (file = c)) (elements candidates).

Definition matching_files (candidates files : gset string) : gset string :=
  filter (fun f => matches candidates f = true) files.

(** [check_file_overlap]; the threshold is the fraction [num/den], compared
    exactly where Python divides. *)
Definition check_file_overlap (candidates : gset string) (active : list BranchFileSet) (num den : nat)
    : list OverlapResult :=
  if bool_decide (candidates = ∅) then []
  else omap (fun fs =>
    let matching := matching_files candidates (bf_files fs) in
    if bool_decide (matching = ∅) then None
    else if (0 <? num)%nat && (den * size matching <? num * size (candidates ∪ bf_files fs))%nat then None
    else Some {| ov_conflicting_issue := bf_issue_number fs; ov_conflicting_branch := bf_branch_name fs;
                 ov_overlapping_files := matching |}) active.

(** [sorted(files)] *)
Definition sorted_files (files : gset string) : list string := sort_by Verdict.codes (elements files).

Definition overlap_text (o : OverlapResult) : string :=
  let files := sorted_files (ov_overlapping_files o) in
  let more := (length files - 3)%nat in
  "overlaps with "
  ++ (if bool_decide (ov_conflicting_issue o = "") then ov_conflicting_branch o else "#" ++ ov_conflicting_issue o)
  ++ " on " ++ PyStr.join ", " (take 3 files)
  ++ (if decide (more = 0%nat) then "" else " (+" ++ pretty (Z.of_nat more) ++ " more)").

(** [check_file_overlap_gate] *)
Definition check_file_overlap_gate (issue : Z) (active : list BranchFileSet) (labels : list string) (body : string)
    (num den : nat) : option BlockReason :=
  let candidates := predict_candidate_files labels body in
  if bool_decide (candidates = ∅) then None
  else
    let others := List.filter (fun fs => negb (bool_decide (bf_issue_number fs = pretty issue))) active in
    match check_file_overlap candidates others num den with
    | [] => None
    | overlaps => Some {| gate := "file_overlap"; detail := PyStr.join "; " (map overlap_text overlaps) |}
    end.

End FileOverlap.

Local Close Scope string_scope.

(** ** Theorems *)

Section human_gate.
Context {G : Type} `{GraphView G}.

(** What keeps an issue for people: a label, or a record of the local store on an
    issue that is still before development and carries no label of its own. *)
Definition kept_for_people (labels : list string) (candidate : string) (record : outcome (option string)) : Prop :=
  Labels.is_epic labels = true \/ Labels.is_human_only labels = true \/ Labels.is_on_hold labels = true \/
  Labels.is_interactive_recommended labels = true \/
  (candidate ∈ PRE_DEVELOPMENT_CANDIDATES /\ Labels.local_assessment_applies labels = true /\
   (record = Ret (Some LOCAL_HUMAN_ONLY) \/ record = Ret (Some LOCAL_INTERACTIVE))).

(** the gate for people blocks an issue exactly when it is kept for people, and
    every block has its own text: the fallback for a mode without one is dead code. *)
Theorem human_gate_exact (issue : Z) (labels : list string) (candidate : string) (record : outcome (option string)) :
  let result := check_human_involvement_gate (G := G) issue labels candidate record in
  (is_Some result <-> kept_for_people labels candidate record) /\
  (forall b, result = Some b -> exists m from_local, BLOCKS m from_local (pretty issue) = Some (detail b)).
Proof.
  cbv zeta. unfold check_human_involvement_gate, kept_for_people.
  set (local := if one_of candidate _ && _ then _ else None).
  assert (forall r, local = Some r <-> candidate ∈ PRE_DEVELOPMENT_CANDIDATES /\
    Labels.local_assessment_applies labels = true /\ record = Ret (Some r)) as Hlocal.
  { intros r. unfold local, one_of, fail_open. case_bool_decide; cbn [andb]; [|naive_solver].
    destruct (Labels.local_assessment_applies labels), record; naive_solver. }
  clearbody local. unfold assess_suitability, assess_after_dependencies, labelled. cbn [task_labels].
  destruct (Labels.local_assessment_applies labels) eqn:Ea.
  - unfold Labels.local_assessment_applies in Ea. rewrite !andb_true_iff, !negb_true_iff in Ea.
    destruct Ea as (((((-> & _) & ->) & ->) & ->) & ->). cbn [negb andb].
    case_bool_decide as L1; cbn.
    + split; [naive_solver|]. intros b [= <-]. by exists HUMAN, true.
    + case_bool_decide as L2; cbn; [split; [naive_solver|]; intros b [= <-]; by exists INTERACTIVE, true|].
      case_bool_decide; cbn; (split; [split; [by intros []|naive_solver]|done]).
  - assert (local = None) as -> by (destruct local as [r|]; [naive_solver|done]).
    destruct (Labels.is_epic labels); cbn; [split; [naive_solver|]; intros b [= <-]; by exists EPIC, false|].
    destruct (Labels.is_human_only labels); cbn; [split; [naive_solver|]; intros b [= <-]; by exists HUMAN, false|].
    rewrite andb_false_r.
    destruct (Labels.is_on_hold labels); cbn; [split; [naive_solver|]; intros b [= <-]; by exists BLOCKED, false|].
    destruct (Labels.is_interactive_recommended labels); cbn;
      [split; [naive_solver|]; intros b [= <-]; by exists INTERACTIVE, false|].
    rewrite andb_false_r. destruct (Labels.is_ready labels); cbn; (split; [split; [by intros []|naive_solver]|done]).
Qed.

End human_gate.

(** ** Repeated failures *)

Section failures.
Context (issue : Z) (role : string).

(** The length of the run of failures at the end of a history, oldest run first:
    a success ends it, and runs of another kind do not count. *)
Definition streak (history : list RunRow) : nat :=
  foldl (fun n r =>
    if bool_decide (row_issue r = pretty issue) && bool_decide (row_role r = role) then
      if bool_decide (row_status r = "done"%string) then 0
      else if bool_decide (row_status r = "failed"%string) then S n else n
    else n) 0 history.

(** The run is a success of the role on the issue. *)
Definition succeeds (r : RunRow) : bool :=
  bool_decide (row_issue r = pretty issue) && bool_decide (row_role r = role) && bool_decide (row_status r = "done"%string).

Lemma last_success_cons r rows :
  last_success issue role (r :: rows) =
  if succeeds r then Z.max (row_id r) (last_success issue role rows) else last_success issue role rows.
Proof. done. Qed.

Lemma last_success_nonneg rows : (0 <= last_success issue role rows)%Z.
Proof. induction rows; [done|]. rewrite last_success_cons. case_match; lia. Qed.

Lemma last_success_snoc rows r :
  last_success issue role (rows ++ [r]) =
  if succeeds r then Z.max (last_success issue role rows) (row_id r) else last_success issue role rows.
Proof.
  induction rows as [|r' rows IH]; cbn [app]; rewrite !last_success_cons.
  { unfold last_success. cbn. case_match; lia. }
  rewrite IH. do 2 case_match; lia.
Qed.

Lemma last_success_bound rows m :
  (0 <= m)%Z -> Forall (fun r => (row_id r <= m)%Z) rows -> (last_success issue role rows <= m)%Z.
Proof.
  intros Hm. induction 1 as [|r rows Hr Hrows IH]; [done|]. rewrite last_success_cons. case_match; lia.
Qed.

Lemma last_success_perm rows rows' : rows ≡ₚ rows' -> last_success issue role rows = last_success issue role rows'.
Proof.
  induction 1 as [|r l l' Hl IH|r r' l|l1 l2 l3 _ IH1 _ IH2]; rewrite ?last_success_cons; [done|by rewrite IH| |congruence].
  do 2 case_match; lia.
Qed.

Lemma failures_since_perm rows rows' :
  rows ≡ₚ rows' -> failures_since issue role rows = failures_since issue role rows'.
Proof.
  intros Hp. unfold failures_since. rewrite (last_success_perm _ _ Hp).
  generalize (last_success issue role rows') as last. intros last.
  induction Hp as [|r l l' Hl IH|r r' l|l1 l2 l3 _ IH1 _ IH2]; cbn [List.filter]; [done| |by repeat case_match|congruence].
  case_match; cbn; congruence.
Qed.

(** The ids of runs are positive and grow. *)
Definition in_id_order (rows : list RunRow) : Prop :=
  StronglySorted (fun r1 r2 => (row_id r1 < row_id r2)%Z) rows /\ Forall (fun r => (0 < row_id r)%Z) rows.

Lemma in_id_order_snoc rows r :
  in_id_order (rows ++ [r]) -> in_id_order rows /\ (0 < row_id r)%Z /\ Forall (fun r' => (row_id r' < row_id r)%Z) rows.
Proof.
  intros [Hs [Hf [Hr _]%Forall_cons]%Forall_app]. unfold in_id_order.
  assert (StronglySorted (fun r1 r2 => (row_id r1 < row_id r2)%Z) rows /\
    Forall (fun r' => (row_id r' < row_id r)%Z) rows) as []; [|done].
  clear Hf Hr. induction rows as [|r' rows IH]; [split; constructor|]. cbn in Hs. inversion_clear Hs as [|? ? Hs' Hall].
  apply Forall_app in Hall as [H1 [H2 _]%Forall_cons]. destruct (IH Hs') as [? ?]. split; by constructor.
Qed.

Lemma filter_none_below (p : RunRow -> bool) bound rows :
  Forall (fun r => (row_id r <= bound)%Z) rows -> List.filter (fun r => p r && Z.ltb bound (row_id r)) rows = [].
Proof.
  induction 1 as [|r rows Hr Hrows IH]; [done|]. cbn [List.filter].
  destruct (Z.ltb_spec bound (row_id r)); [lia|]. by rewrite andb_false_r.
Qed.

Lemma failures_since_streak history : in_id_order history -> failures_since issue role history = streak history.
Proof.
  induction history as [|r history IH] using rev_ind; [done|]. intros (Ho & Hpos & Hlt)%in_id_order_snoc.
  specialize (IH Ho). unfold streak in *. rewrite foldl_app. cbn [foldl]. rewrite <- IH. clear IH.
  assert (last_success issue role history < row_id r)%Z as Hlast.
  { enough (last_success issue role history <= row_id r - 1)%Z by lia. apply last_success_bound; [lia|].
    eapply Forall_impl; [exact Hlt|]. cbn. lia. }
  set (last := last_success issue role history) in *.
  pose proof (last_success_nonneg history). unfold failures_since.
  rewrite last_success_snoc, List.filter_app, length_app. fold last. unfold succeeds. cbn [List.filter].
  destruct (bool_decide (row_issue r = _) && bool_decide (row_role r = role)) eqn:Er; cbn [andb]; [|cbn; lia].
  destruct (decide (row_status r = "done"%string)) as [->|Hd].
  - rewrite (bool_decide_eq_true_2 ("done" = "done")%string), (bool_decide_eq_false_2 ("done" = "failed")%string) by done.
    cbn [andb length]. rewrite Nat.add_0_r. apply length_zero_iff_nil, filter_none_below.
    eapply Forall_impl; [exact Hlt|]. cbn. lia.
  - rewrite (bool_decide_eq_false_2 (row_status r = "done")%string) by done.
    clear Er. case_bool_decide; cbn [andb length]; [|lia]. destruct (Z.ltb_spec last (row_id r)); cbn [length]; lia.
Qed.

(** C37: the gate for repeated failures counts a streak. For the runs of a database,
    in whatever order they come, it blocks exactly when a limit is set and the
    failures of the role on the issue since its last success have reached it; a
    database that cannot be read does not block. *)
Theorem failure_gate_counts_streak (limit : nat) (rows : outcome (list RunRow)) :
  let result := check_repeated_failures_gate issue limit role rows in
  (forall e, rows = Raise e -> result = None) /\
  (forall runs history, rows = Ret runs -> runs ≡ₚ history -> in_id_order history ->
     (is_Some result <-> limit <> 0 /\ limit <= streak history)).
Proof.
  cbv zeta. unfold check_repeated_failures_gate. split.
  - intros e ->. by case_bool_decide.
  - intros runs history -> Hp Ho. cbn [obind fail_open].
    rewrite (failures_since_perm _ _ Hp), (failures_since_streak _ Ho).
    case_bool_decide; [split; [by intros []|tauto]|].
    destruct (Nat.leb_spec limit (streak history)); [split; [by split|by eexists]|split; [by intros []|lia]].
Qed.

End failures.

(** ** File overlap *)

Section overlap.
Import FileOverlap.
Implicit Types (candidates files : gset string).

(** A predicted path covers a changed file: the same file, or a directory of it. *)
Definition covers (c file : string) : Prop :=
  file = c \/ (PyStr.endswith c "/" = true /\ PyStr.startswith file c = true).

Lemma startswith_refl s : PyStr.startswith s s = true.
Proof.
  induction s as [|c s IH]; [done|]. unfold PyStr.startswith in *. cbn. by destruct (Ascii.ascii_dec c c).
Qed.

Lemma matches_covers candidates file :
  FileOverlap.matches candidates file = true <-> exists c, c ∈ candidates /\ covers c file.
Proof.
  unfold FileOverlap.matches, covers. rewrite existsb_exists. split.
  - intros (c & Hc & Hm). exists c. rewrite <- elem_of_elements, list_elem_of_In. split; [done|].
    destruct (PyStr.endswith c "/"); [by right|left]. by apply bool_decide_eq_true in Hm.
  - intros (c & Hc & Hm). exists c. rewrite <- list_elem_of_In, elem_of_elements. split; [done|].
    destruct Hm as [->|[-> Hm]]; [|done]. destruct (PyStr.endswith c "/"); [apply startswith_refl|by apply bool_decide_eq_true].
Qed.

Lemma elem_of_matching candidates files file :
  file ∈ FileOverlap.matching_files candidates files <-> file ∈ files /\ exists c, c ∈ candidates /\ covers c file.
Proof. unfold FileOverlap.matching_files. rewrite elem_of_filter, matches_covers. tauto. Qed.

(** A branch reaches the threshold: one of its files is covered, and enough are. *)
Definition reaches candidates (num den : nat) (fs : FileOverlap.BranchFileSet) : Prop :=
  (exists file c, file ∈ FileOverlap.bf_files fs /\ c ∈ candidates /\ covers c file) /\
  num * size (candidates ∪ FileOverlap.bf_files fs) <=
    den * size (FileOverlap.matching_files candidates (FileOverlap.bf_files fs)).

Lemma elem_of_check_overlap candidates active num den o :
  o ∈ FileOverlap.check_file_overlap candidates active num den <->
  exists fs, fs ∈ active /\ reaches candidates num den fs /\
    o = {| FileOverlap.ov_conflicting_issue := FileOverlap.bf_issue_number fs;
           FileOverlap.ov_conflicting_branch := FileOverlap.bf_branch_name fs;
           FileOverlap.ov_overlapping_files := FileOverlap.matching_files candidates (FileOverlap.bf_files fs) |}.
Proof.
  unfold FileOverlap.check_file_overlap, reaches. case_bool_decide as Hc.
  - split; [by intros ?%not_elem_of_nil|]. intros (fs & _ & ((file & c & _ & Hin & _) & _) & _).
    rewrite Hc in Hin. by apply not_elem_of_empty in Hin.
  - rewrite list_elem_of_omap. apply exist_proper. intros fs. apply and_iff_compat_l.
    set (files := FileOverlap.bf_files fs). set (matching := FileOverlap.matching_files candidates files).
    assert (matching <> ∅ <-> exists file c, file ∈ files /\ c ∈ candidates /\ covers c file) as Hm.
    { split.
      - intros Hne. destruct (set_choose_L _ Hne) as [file (Hf & c & ? & ?)%elem_of_matching]. by exists file, c.
      - intros (file & c & ? & ? & ?) He. assert (file ∈ matching) as Hin by (apply elem_of_matching; eauto).
        rewrite He in Hin. by apply not_elem_of_empty in Hin. }
    case_bool_decide as He; [split; [done|]; intros [[? _] _]; by apply Hm in He|].
    destruct (Nat.ltb_spec 0 num), (Nat.ltb_spec (den * size matching) (num * size (candidates ∪ files))); cbn [andb];
      split; try done; try (intros [= <-]; split; [split; [by apply Hm|lia]|done]); try (intros [[_ ?] ->]; done || lia).
Qed.

(** the overlap gate. It blocks an issue exactly when some branch of another issue
    changes a file that a predicted path covers (the file itself, or a directory of
    it), in a share of all files that reaches the threshold; the branch of the issue
    itself never blocks it, and neither does a branch without a common file. Each
    report names its branch and exactly the files covered. *)
Theorem overlap_exact (issue : Z) (active : list FileOverlap.BranchFileSet) (labels : list string) (body : string)
    (num den : nat) :
  let candidates := FileOverlap.predict_candidate_files labels body in
  (is_Some (FileOverlap.check_file_overlap_gate issue active labels body num den) <->
   exists fs, fs ∈ active /\ FileOverlap.bf_issue_number fs <> pretty issue /\ reaches candidates num den fs) /\
  (forall o, o ∈ FileOverlap.check_file_overlap candidates active num den ->
     exists fs, fs ∈ active /\ FileOverlap.ov_conflicting_branch o = FileOverlap.bf_branch_name fs /\
       forall file, file ∈ FileOverlap.ov_overlapping_files o <->
         file ∈ FileOverlap.bf_files fs /\ exists c, c ∈ candidates /\ covers c file).
Proof.
  intros candidates. split.
  - unfold FileOverlap.check_file_overlap_gate. fold candidates.
    set (others := List.filter _ active).
    assert ((exists o, o ∈ FileOverlap.check_file_overlap candidates others num den) <->
      exists fs, fs ∈ active /\ FileOverlap.bf_issue_number fs <> pretty issue /\ reaches candidates num den fs) as <-.
    { setoid_rewrite elem_of_check_overlap. unfold others. split.
      - intros (o & fs & Hfs & Hr & _). exists fs.
        rewrite list_elem_of_In, List.filter_In, negb_true_iff, bool_decide_eq_false, <- list_elem_of_In in Hfs. tauto.
      - intros (fs & Hfs & Hi & Hr). eexists. exists fs.
        by rewrite list_elem_of_In, List.filter_In, negb_true_iff, bool_decide_eq_false, <- list_elem_of_In. }
    case_bool_decide as Hc.
    { unfold FileOverlap.check_file_overlap. rewrite bool_decide_eq_true_2 by done. split; [by intros []|].
      by intros (o & ?%not_elem_of_nil). }
    destruct (FileOverlap.check_file_overlap _ others num den) as [|o os]; split.
    + by intros [].
    + by intros (o & ?%not_elem_of_nil).
    + intros _. exists o. apply list_elem_of_here.
    + by eexists.
  - intros o (fs & Hfs & _ & ->)%elem_of_check_overlap. exists fs. split_and!; try done. cbn. intros file.
    apply elem_of_matching.
Qed.

End overlap.
