(* ===== verification/Progression.v ===== *)
(** * Progression: what the supervisor does with each queued issue

    sova/supervisor/progression.py. The engine reads its gates, the tracker and
    GitHub while it evaluates an issue: [Env] holds the answers it gets for one
    issue. A gate that [evaluate_all] computes beforehand is given as [Some]
    result ([None] is [_NOT_COMPUTED]). *)

From stdpp Require Import base gmap strings list pretty.
From S2P Require Import Prelude Priority Tracker Suitability Errors DepGraph Verdict WorkState Gates.

Local Open Scope string_scope.

(** [class ProgressionAction] *)
Inductive ProgressionAction :=
  | SPAWN_TRIAGE | SPAWN_RESEARCHER | SPAWN_DEVELOPER | SPAWN_INTEGRATE | SPAWN_ADDRESS_REVIEW | SPAWN_REVIEWER
  | SPAWN_ADDRESS_PR | WAIT | ACTION_BLOCKED | SPAWN_REBASE | CHECKPOINT_NEEDED | RESET_STALE_STATE
  | REPAIR_TO_IN_REVIEW.

#[export] Instance ProgressionAction_eq_dec : EqDecision ProgressionAction.
Proof. solve_decision. Defined.

Definition action_value (a : ProgressionAction) : string :=
  match a with
  | SPAWN_TRIAGE => "spawn_triage" | SPAWN_RESEARCHER => "spawn_researcher" | SPAWN_DEVELOPER => "spawn_developer"
  | SPAWN_INTEGRATE => "spawn_integrate" | SPAWN_ADDRESS_REVIEW => "spawn_address_review"
  | SPAWN_REVIEWER => "spawn_reviewer" | SPAWN_ADDRESS_PR => "spawn_address_pr" | WAIT => "wait"
  | ACTION_BLOCKED => "blocked" | SPAWN_REBASE => "spawn_rebase" | CHECKPOINT_NEEDED => "checkpoint_needed"
  | RESET_STALE_STATE => "reset_stale_state" | REPAIR_TO_IN_REVIEW => "repair_to_in_review"
  end.

(** [class ProgressionDecision] *)
Record ProgressionDecision := {
  d_issue_number : Z;
  d_action : ProgressionAction;
  d_role : option string;
  d_reason : string;
  d_blocked_by : list BlockReason;
  d_pr_number : option Z;
}.

(** A decision with the fields the code leaves at their defaults. *)
Definition decide_to (issue : Z) (action : ProgressionAction) (reason : string) : ProgressionDecision :=
  {| d_issue_number := issue; d_action := action; d_role := None; d_reason := reason; d_blocked_by := [];
     d_pr_number := None |}.

(** [_ACTION_TO_ROLE] *)
Definition action_to_role (a : ProgressionAction) : option string :=
  match a with
  | SPAWN_TRIAGE => Some "triage" | SPAWN_RESEARCHER => Some "researcher" | SPAWN_DEVELOPER => Some "developer"
  | SPAWN_INTEGRATE => Some "command:integrate-pr" | SPAWN_ADDRESS_REVIEW => Some "developer"
  | SPAWN_REVIEWER => Some "reviewer" | SPAWN_ADDRESS_PR => Some "command:address-pr"
  | _ => None
  end.

(** [_ACTION_TO_COMMAND] *)
Definition action_to_command (a : ProgressionAction) : option string :=
  match a with
  | SPAWN_INTEGRATE => Some "integrate-pr" | SPAWN_ADDRESS_PR => Some "address-pr" | _ => None
  end.

(** The supervisor's flags and limits. *)
Record Config := {
  auto_triage : bool;
  auto_research : bool;
  auto_develop : bool;
  auto_address_review : bool;
  auto_review : bool;
  auto_integrate : bool;
  auto_rebase : bool;
  respect_dependencies : bool;
  respect_ownership : bool;
  file_overlap_gate : bool;
  overlap_num : nat;
  overlap_den : nat;
  max_spawns_per_cycle : nat;
  max_researcher_failures : nat;
  max_developer_failures : nat;
  ci_block_minutes : Z;
  task_queue : list Z;
  max_parallel_agents : Z;
  coderabbit_enabled : bool;
  github_repo : string;
  external_reviews : bool;
  max_address_review_cycles : Z;
  network_guard_enabled : bool;
  network_block_spawns : bool;
  memory_guard_enabled : bool;
  memory_block_threshold : Z;
  (** the adapter *)
  github_user : string;
  adapter_repo : string;
}.

(** [_ACTION_ID_TO_PROGRESSION] *)
Definition action_of_id (cfg : Config) (action_id : string) : option (ProgressionAction * bool) :=
  assoc action_id
    [("integrate", (SPAWN_INTEGRATE, auto_integrate cfg));
     ("address_review", (SPAWN_ADDRESS_REVIEW, auto_address_review cfg));
     ("address_pr", (SPAWN_ADDRESS_PR, auto_address_review cfg));
     ("review_pr", (SPAWN_REVIEWER, auto_review cfg));
     ("rebase", (SPAWN_REBASE, auto_rebase cfg))].

(** [NON_ACTIONABLE_ACTIONS] *)
Definition actionable (a : ProgressionAction) : bool :=
  match a with WAIT | ACTION_BLOCKED | CHECKPOINT_NEEDED => false | _ => true end.

(** [_PR_SCOPED_ACTIONS] *)
Definition pr_scoped (a : ProgressionAction) : bool :=
  match a with SPAWN_INTEGRATE | SPAWN_ADDRESS_REVIEW | SPAWN_ADDRESS_PR | SPAWN_REVIEWER => true | _ => false end.

(** [_ASSIGN_ACTIONS] *)
Definition assigns (a : ProgressionAction) : bool :=
  match a with SPAWN_TRIAGE | SPAWN_RESEARCHER | SPAWN_DEVELOPER => true | _ => false end.

(** What the engine is told while it evaluates one issue. *)
Record Env := {
  e_rows : outcome (list RunRow);
  e_assessment : outcome (option string);
  e_issue_budget : outcome (option string);
  (** find_pr_for_issue_checked, and find_pr_for_issue *)
  e_pr_checked : outcome (option PRInfo);
  e_pr : outcome (option PRInfo);
  e_verdict : Z -> outcome Verdict;
  e_marker : outcome Verdict;
  e_open_prs : outcome (list (Z * EnrichedPR));
  e_assignees : outcome (list string);
  e_stale_command : outcome (option string);
  e_rate_limit : outcome (option string);
  e_quota : outcome QuotaStatus;
  e_ci_budget : outcome CIBudget;
  e_memory : option (outcome Z);
}.

(** The gates [evaluate_all] computes before its loop; [None] is not computed. *)
Record Precomputed := {
  p_memory : option (option BlockReason);
  p_rate_limit : option (option BlockReason);
  p_quota : option (option BlockReason);
  p_slots : option (option BlockReason);
  p_ci_budget : option (option BlockReason);
  p_file_sets : option (list FileOverlap.BranchFileSet);
}.

Section engine.
Context {G : Type} `{GraphView G}.
Context (is_process_alive : Z -> bool) (gigabytes : Z -> string).
Context (cfg : Config).

(** [_determine_transition] *)
Definition determine_transition (state : TaskState.t) : option ProgressionAction :=
  let gated (flag : bool) (action : ProgressionAction) := Some (if flag then action else CHECKPOINT_NEEDED) in
  match state with
  | TaskState.TRIAGED => gated (auto_research cfg) SPAWN_RESEARCHER
  | TaskState.RESEARCHED => gated (auto_develop cfg) SPAWN_DEVELOPER
  | TaskState.IN_REVIEW =>
      gated (auto_integrate cfg || auto_address_review cfg || auto_review cfg) SPAWN_INTEGRATE
  | TaskState.BACKLOG => gated (auto_triage cfg) SPAWN_TRIAGE
  | TaskState.IN_PROGRESS => Some RESET_STALE_STATE
  | _ => None
  end.

(** [_fetch_enriched_pr] *)
Definition fetch_enriched_pr (env : Env) (pr_number : Z) : option EnrichedPR :=
  match e_open_prs env with
  | Raise _ => None
  | Ret prs => snd <$> List.find (fun pr => bool_decide (fst pr = pr_number)) prs
  end.

(** [_find_pr_for_issue] *)
Definition find_pr_for_issue (env : Env) : option PRInfo :=
  if bool_decide (adapter_repo cfg = "") then None else fail_open (e_pr env).

(** [_refine_in_review_action] *)
Definition refine_in_review_action (env : Env) : ProgressionAction * option PRInfo :=
  match find_pr_for_issue env with
  | None => (WAIT, None)
  | Some pr =>
      match e_verdict env (pr_info_number pr) with
      | Raise _ => (CHECKPOINT_NEEDED, Some pr)
      | Ret verdict =>
          match fetch_enriched_pr env (pr_info_number pr) with
          | None => (CHECKPOINT_NEEDED, Some pr)
          | Some enriched =>
              let facts := build_pr_facts (ep_data enriched) (Some verdict) (external_reviews cfg)
                             (max_address_review_cycles cfg) in
              match action_of_id cfg (default "" (action_id (resolve_next_action facts))) with
              | None => (CHECKPOINT_NEEDED, Some pr)
              | Some (action, auto_flag) => (if auto_flag then action else CHECKPOINT_NEEDED, Some pr)
              end
          end
      end
  end.

Definition rate_limit_gate (env : Env) (pre : Precomputed) : option BlockReason :=
  match p_rate_limit pre with
  | Some computed => computed
  | None => check_github_rate_limit_gate (e_rate_limit env)
  end.

Definition option_list {A} (o : option A) : list A := match o with Some x => [x] | None => [] end.

(** [_resolve_global_gates] *)
Definition resolve_global_gates (env : Env) (pre : Precomputed) (rate_limit : option BlockReason)
    (candidate : ProgressionAction) : list BlockReason :=
  let is_developer := bool_decide (candidate = SPAWN_DEVELOPER) in
  let quota := match p_quota pre with
               | None => check_quota_gate is_developer (coderabbit_enabled cfg) (e_quota env)
               | Some computed => if is_developer then computed else None
               end in
  let ci_budget := match p_ci_budget pre with
                   | None => check_ci_budget_gate is_developer (github_repo cfg) (ci_block_minutes cfg) (e_ci_budget env)
                   | Some computed => if is_developer then computed else None
                   end in
  let slots := match p_slots pre with
               | None => check_slot_gate is_process_alive (e_rows env) (max_parallel_agents cfg)
               | Some computed => computed
               end in
  let memory := match p_memory pre with
                | None => check_memory_pressure_gate (memory_guard_enabled cfg) (memory_block_threshold cfg) gigabytes
                            (e_memory env)
                | Some computed => computed
                end in
  (option_list rate_limit ++ option_list quota ++ option_list ci_budget ++ option_list slots ++ option_list memory)%list.

(** [_collect_gate_blockers] *)
Definition collect_gate_blockers (env : Env) (pre : Precomputed) (graph : G) (issue : Z)
    (candidate : ProgressionAction) (labels : list string) (body : string) (refined : option PRInfo)
    : list BlockReason * option Z :=
  match rate_limit_gate env pre with
  | Some block => ([block], None)
  | None =>
      let dep := if respect_dependencies cfg then check_dependency_gate issue graph else None in
      let human := check_human_involvement_gate (G := G) issue labels (action_value candidate) (e_assessment env) in
      let running := check_already_running is_process_alive issue (e_rows env) in
      let budget := check_budget_gate (e_issue_budget env) in
      let is_integrate := bool_decide (candidate = SPAWN_INTEGRATE) in
      let '(ownership, discovered_pr) :=
        check_ownership_gate issue is_integrate (respect_ownership cfg) (github_user cfg) (adapter_repo cfg)
          (e_assignees env) (match refined with Some pr => Ret (Some pr) | None => e_pr env end) in
      let failures role limit := check_repeated_failures_gate issue limit role (e_rows env) in
      let researcher := if decide (candidate = SPAWN_RESEARCHER)
                        then failures "researcher" (max_researcher_failures cfg) else None in
      let developer := if decide (candidate = SPAWN_DEVELOPER)
                       then failures "developer" (max_developer_failures cfg) else None in
      let stale := match action_to_command candidate with
                   | Some _ => check_stale_commands_gate (e_stale_command env)
                   | None => None
                   end in
      let gate_pr := match refined with Some pr => Some (pr_info_number pr) | None => discovered_pr end in
      let review :=
        if is_integrate then
          check_review_completed_gate issue labels gate_pr (e_marker env)
            (match gate_pr with Some n => fetch_enriched_pr env n | None => None end)
        else None in
      let overlap :=
        match p_file_sets pre with
        | Some sets => if file_overlap_gate cfg
                       then FileOverlap.check_file_overlap_gate issue sets labels body (overlap_num cfg) (overlap_den cfg)
                       else None
        | None => None
        end in
      ((option_list dep ++ option_list human ++ option_list running ++ option_list budget ++ option_list ownership
        ++ option_list researcher ++ option_list developer ++ option_list stale ++ option_list review
        ++ option_list overlap ++ resolve_global_gates env pre None candidate)%list,
       discovered_pr)
  end.

(** The part of [_evaluate_single] for an issue that is in progress. *)
Definition evaluate_in_progress (env : Env) (pre : Precomputed) (issue : Z) : ProgressionDecision :=
  match check_already_running is_process_alive issue (e_rows env) with
  | Some alive => decide_to issue WAIT ("Agent still active for IN_PROGRESS #" ++ pretty issue ++ ": " ++ detail alive)
  | None =>
      match rate_limit_gate env pre with
      | Some block =>
          {| d_issue_number := issue; d_action := ACTION_BLOCKED; d_role := None;
             d_reason := "Rate limited: " ++ detail block; d_blocked_by := [block]; d_pr_number := None |}
      | None =>
          let reset := decide_to issue RESET_STALE_STATE ("Stale IN_PROGRESS: no agent running for #" ++ pretty issue) in
          if bool_decide (adapter_repo cfg = "") then reset
          else match e_pr_checked env with
               | Raise _ => decide_to issue WAIT ("Could not confirm PR status for IN_PROGRESS #" ++ pretty issue)
               | Ret (Some pr) =>
                   {| d_issue_number := issue; d_action := REPAIR_TO_IN_REVIEW; d_role := None;
                      d_reason := "IN_PROGRESS #" ++ pretty issue ++ " has open PR #" ++ pretty (pr_info_number pr)
                                  ++ ": repairing to IN_REVIEW";
                      d_blocked_by := []; d_pr_number := Some (pr_info_number pr) |}
               | Ret None => reset
               end
      end
  end.

Definition automation_disabled (issue : Z) (state : TaskState.t) : ProgressionDecision :=
  decide_to issue CHECKPOINT_NEEDED
    ("Automation disabled for state '" ++ TaskState.value state ++ "': requires human approval").

(** [_evaluate_single] from the refinement of its candidate on. *)
Definition evaluate_candidate (env : Env) (pre : Precomputed) (graph : G) (issue : Z) (state : TaskState.t)
    (labels : list string) (body : string) (candidate : ProgressionAction) : ProgressionDecision :=
  let in_review := bool_decide (state = TaskState.IN_REVIEW) && bool_decide (candidate = SPAWN_INTEGRATE) in
  let '(candidate, refined) := if in_review then refine_in_review_action env else (candidate, None) in
  if in_review && bool_decide (candidate = WAIT) then decide_to issue WAIT "No PR found for IN_REVIEW issue"
  else if in_review && bool_decide (candidate = CHECKPOINT_NEEDED) then automation_disabled issue state
  else
    let '(blockers, discovered_pr) := collect_gate_blockers env pre graph issue candidate labels body refined in
    match blockers with
    | [] =>
        {| d_issue_number := issue; d_action := candidate; d_role := action_to_role candidate;
           d_reason := "Ready to " ++ action_value candidate; d_blocked_by := [];
           d_pr_number := match refined with Some pr => Some (pr_info_number pr) | None => discovered_pr end |}
    | _ =>
        {| d_issue_number := issue; d_action := ACTION_BLOCKED; d_role := action_to_role candidate;
           d_reason := "Blocked: " ++ PyStr.join "; " (map detail blockers); d_blocked_by := blockers;
           d_pr_number := None |}
    end.

(** [_evaluate_single] *)
Definition evaluate_single (env : Env) (pre : Precomputed) (graph : G) (issue : Z) (state : TaskState.t)
    (labels : list string) (body : string) : ProgressionDecision :=
  match determine_transition state with
  | None => decide_to issue WAIT ("No transition available from state '" ++ TaskState.value state ++ "'")
  | Some CHECKPOINT_NEEDED => automation_disabled issue state
  | Some RESET_STALE_STATE => evaluate_in_progress env pre issue
  | Some candidate => evaluate_candidate env pre graph issue state labels body candidate
  end.

(** ** A cycle *)

(** [_effective_gate] *)
Definition effective_gate (global_blocker : option BlockReason) (exhausted : bool) (gate detail_prefix : string)
    : option BlockReason :=
  match global_blocker with
  | Some _ => global_blocker
  | None => if exhausted
            then Some {| Gates.gate := gate; detail := detail_prefix ++ " (" ++ gate ++ " capacity exhausted)" |}
            else None
  end.

(** Whether a decision takes one of the free agent slots. *)
Definition takes_slot (a : ProgressionAction) : bool :=
  actionable a && negb (bool_decide (a = SPAWN_REBASE) || bool_decide (a = RESET_STALE_STATE)
                        || bool_decide (a = REPAIR_TO_IN_REVIEW)).

(** [_update_remaining_capacity] *)
Definition update_remaining_capacity (d : ProgressionDecision) (remaining_slots : Z) (remaining_quota : bool) : Z * bool :=
  if takes_slot (d_action d)
  then (remaining_slots - 1, if decide (d_action d = SPAWN_DEVELOPER) then false else remaining_quota)%Z
  else (remaining_slots, remaining_quota).

(** [_resolve_task_ids] *)
Definition resolve_task_ids (graph : G) : list Z :=
  List.filter (fun qid => bool_decide (qid ∈ graph_nodes graph)) (task_queue cfg).

(** What a cycle is told: the answers for each issue, the rate limit as it is found
    before each issue, and the reads before the loop. *)
Record CycleEnv := {
  c_env : Z -> Env;
  c_rate_limit : nat -> outcome (option string);
  c_network : outcome (option string);
  c_rows : outcome (list RunRow);
  c_quota : outcome QuotaStatus;
  c_ci_budget : outcome CIBudget;
  c_memory : option (outcome Z);
  c_file_sets : outcome (list FileOverlap.BranchFileSet);
}.

(** The loop of [evaluate_all] over the tasks found; [n] counts the rate limit checks
    done. *)
Fixpoint evaluate_loop (env : CycleEnv) (pre : Precomputed) (graph : G) (global_slots global_quota : option BlockReason)
    (n : nat) (remaining_slots : Z) (remaining_quota : bool) (ids : list Z) : list ProgressionDecision :=
  match ids with
  | [] => []
  | id :: ids =>
      match get_task graph id with
      | None => evaluate_loop env pre graph global_slots global_quota n remaining_slots remaining_quota ids
      | Some task =>
          match check_github_rate_limit_gate (c_rate_limit env n) with
          | Some _ => []
          | None =>
              let slots := effective_gate global_slots (Z.leb remaining_slots 0) "slots" "All agent slots would be occupied" in
              let quota := effective_gate global_quota (negb remaining_quota) "quota" "CodeRabbit quota would be exhausted" in
              let pre' := {| p_memory := p_memory pre; p_rate_limit := p_rate_limit pre; p_quota := Some quota;
                            p_slots := Some slots; p_ci_budget := p_ci_budget pre; p_file_sets := p_file_sets pre |} in
              let d := evaluate_single (c_env env id) pre' graph id (Tracker.task_state task) (task_labels task)
                         (task_body task) in
              let '(remaining_slots, remaining_quota) := update_remaining_capacity d remaining_slots remaining_quota in
              d :: evaluate_loop env pre graph global_slots global_quota (S n) remaining_slots remaining_quota ids
          end
      end
  end.

(** The answers [evaluate_all] collects before its loop. *)
Definition precomputed (env : CycleEnv) : Precomputed :=
  {| p_memory := Some (check_memory_pressure_gate (memory_guard_enabled cfg) (memory_block_threshold cfg) gigabytes
                         (c_memory env));
     p_rate_limit := Some None; p_quota := None; p_slots := None;
     p_ci_budget := Some (check_ci_budget_gate true (github_repo cfg) (ci_block_minutes cfg) (c_ci_budget env));
     p_file_sets := if file_overlap_gate cfg
                    then match c_file_sets env with Ret sets => Some sets | Raise _ => None end else None |}.

Definition alive_count (env : CycleEnv) : nat := default 0 (get_alive_count is_process_alive (c_rows env)).

(** [evaluate_all] without a plan; [graph] is the answer of [build_dependency_graph]. *)
Definition evaluate_all (env : CycleEnv) (graph : outcome G) : list ProgressionDecision :=
  match check_connectivity_gate (network_guard_enabled cfg) (network_block_spawns cfg) (c_network env) with
  | Some _ => []
  | None =>
      match check_github_rate_limit_gate (c_rate_limit env 0) with
      | Some _ => []
      | None =>
          match graph with
          | Raise _ => []
          | Ret g =>
              let global_quota := check_quota_gate true (coderabbit_enabled cfg) (c_quota env) in
              let alive := alive_count env in
              let global_slots :=
                if Z.leb (max_parallel_agents cfg) (Z.of_nat alive)
                then Some (slots_block alive (max_parallel_agents cfg) "All agent slots occupied") else None in
              evaluate_loop env (precomputed env) g global_slots global_quota 1
                (max_parallel_agents cfg - Z.of_nat alive)
                (match global_quota with Some _ => false | None => true end)
                (resolve_task_ids g)
          end
      end
  end.

(** ** The planner's plan *)

(** [apply_plan]; a plan is the list of its (action, issue) pairs. *)
Definition approves (plan : list (string * Z)) (d : ProgressionDecision) : bool :=
  bool_decide ((action_value (d_action d), d_issue_number d) ∈ plan).

Definition names_an_offer (plan : list (string * Z)) (decisions : list ProgressionDecision) : bool :=
  existsb (fun d => actionable (d_action d) && bool_decide (d_issue_number d ∈ map snd plan)) decisions.

Definition hold (d : ProgressionDecision) : ProgressionDecision :=
  {| d_issue_number := d_issue_number d; d_action := WAIT; d_role := None;
     d_reason := "not in LLM plan (deterministic: " ++ action_value (d_action d) ++ ")";
     d_blocked_by := d_blocked_by d; d_pr_number := d_pr_number d |}.

Definition apply_plan (decisions : list ProgressionDecision) (plan : list (string * Z)) : list ProgressionDecision :=
  if negb (bool_decide (plan = [])) && existsb (fun d => actionable (d_action d)) decisions
     && negb (names_an_offer plan decisions)
  then decisions
  else map (fun d => if negb (actionable (d_action d)) then d else if approves plan d then d else hold d) decisions.

(** The decisions [execute_decisions] carries out. *)
Definition to_execute (decisions : list ProgressionDecision) : list ProgressionDecision :=
  take (max_spawns_per_cycle cfg) (List.filter (fun d => actionable (d_action d)) decisions).

(** ** Carrying out a decision *)

(** What a decision makes the supervisor do, in order. *)
Inductive effect :=
  | Rollback (run_id : Z)
  | Transition (issue : Z) (state : TaskState.t)
  | Rebase (issue : Z)
  | Assign (issue : Z) (role : string)
  | StartAgent (issue : Z) (role : string) (pr : option Z)
  | StartCommand (issue : Z) (command : string) (pr : Z).

(** What the supervisor is told while it carries out a decision. *)
Record ExecEnv := {
  x_rows : outcome (list RunRow);
  x_state : outcome TaskState.t;
  x_pr : outcome (option PRInfo);
  (** the project has a slug in the registry *)
  x_registered : bool;
}.

(** [_execute_stale_reset] *)
Definition execute_stale_reset (x : ExecEnv) (issue : Z) : list effect :=
  match x_rows x with
  | Raise _ => []
  | Ret rows =>
      let terminal := List.filter (fun r => bool_decide (row_issue r = pretty issue)
                                            && one_of (row_status r) State.TaskStatus.TASK_RUN_TERMINAL) rows in
      match sort_by (fun r => [(- row_id r)%Z]) terminal with
      | last_run :: _ => [Rollback (row_id last_run)]
      | [] => match check_already_running is_process_alive issue (x_rows x) with
              | Some _ => []
              | None => [Transition issue TaskState.TRIAGED]
              end
      end
  end.

(** [_execute_repair_to_in_review] *)
Definition execute_repair_to_in_review (x : ExecEnv) (issue : Z) : list effect :=
  match x_state x with
  | Raise _ => []
  | Ret state =>
      if decide (state <> TaskState.IN_PROGRESS) then []
      else match check_already_running is_process_alive issue (x_rows x) with
           | Some _ => []
           | None => [Transition issue TaskState.IN_REVIEW]
           end
  end.

(** [execute_decision] *)
Definition execute_decision (x : ExecEnv) (d : ProgressionDecision) : list effect :=
  let issue := d_issue_number d in
  match d_action d with
  | WAIT | ACTION_BLOCKED | CHECKPOINT_NEEDED => []
  | RESET_STALE_STATE => execute_stale_reset x issue
  | REPAIR_TO_IN_REVIEW => execute_repair_to_in_review x issue
  | SPAWN_REBASE => [Rebase issue]
  | action =>
      match (match d_role d with Some "" | None => action_to_role action | r => r end) with
      | None => []
      | Some role =>
          if negb (x_registered x) then []
          else
            let pr := if pr_scoped action
                      then match d_pr_number d with
                           | Some (Zpos _ | Zneg _) => d_pr_number d
                           | _ => if bool_decide (adapter_repo cfg = "") then None
                                  else pr_info_number <$> fail_open (x_pr x)
                           end
                      else None in
            match pr with
            | None => if pr_scoped action then []
                      else (if respect_ownership cfg && assigns action then [Assign issue role] else [])
                           ++ [StartAgent issue role None]
            | Some n =>
                match action_to_command action with
                | Some command => [StartCommand issue command n]
                | None => [StartAgent issue role (Some n)]
                end
            end
      end
  end%list.

(** [execute_decisions] *)
Definition execute_decisions (x : Z -> ExecEnv) (decisions : list ProgressionDecision) : list effect :=
  concat (map (fun d => execute_decision (x (d_issue_number d)) d) (to_execute decisions)).

(** ** Epics *)

(** [_all_children_done] *)
Definition all_children_done (graph : G) (children : list Z) : bool :=
  forallb (fun child => match get_task graph child with
                        | Some t => bool_decide (Tracker.task_state t = TaskState.DONE)
                        | None => false
                        end) children.

(** The epics [auto_close_epics] closes. *)
Definition closes_epic (graph : G) (node : Z) : bool :=
  match get_task graph node with
  | None => false
  | Some t =>
      Labels.is_epic (task_labels t) && negb (bool_decide (Tracker.task_state t = TaskState.DONE))
      && negb (bool_decide (get_dependents graph node = ∅))
      && all_children_done graph (elements (get_dependents graph node))
  end.

Definition auto_close_epics (graph : G) : list Z :=
  List.filter (closes_epic graph) (elements (graph_nodes graph)).

Local Close Scope string_scope.

(** ** Capacity *)

Definition slots_taken (ds : list ProgressionDecision) : nat :=
  length (List.filter (fun d => takes_slot (d_action d)) ds).

Definition developers (ds : list ProgressionDecision) : nat :=
  length (List.filter (fun d => bool_decide (d_action d = SPAWN_DEVELOPER)) ds).


(** A decision that starts something new for an issue. *)
Definition starts (a : ProgressionAction) : bool :=
  actionable a && negb (bool_decide (a = RESET_STALE_STATE) || bool_decide (a = REPAIR_TO_IN_REVIEW)).

Lemma takes_slot_starts a : takes_slot a = true -> starts a = true.
Proof. by destruct a. Qed.

Lemma evaluate_in_progress_starts env pre issue : starts (d_action (evaluate_in_progress env pre issue)) = false.
Proof. unfold evaluate_in_progress. by repeat case_match. Qed.

(** Where the candidate of a started action comes from. *)
Definition candidate_of (env : Env) (state : TaskState.t) (candidate : ProgressionAction) (refined : option PRInfo) : Prop :=
  (state <> TaskState.IN_REVIEW /\ determine_transition state = Some candidate /\ refined = None) \/
  (state = TaskState.IN_REVIEW /\ determine_transition state = Some SPAWN_INTEGRATE /\
   refine_in_review_action env = (candidate, refined)).

Lemma evaluate_single_starts env pre graph issue state labels body :
  let d := evaluate_single env pre graph issue state labels body in
  starts (d_action d) = true ->
  exists refined discovered,
    candidate_of env state (d_action d) refined /\
    collect_gate_blockers env pre graph issue (d_action d) labels body refined = ([], discovered) /\
    d_role d = action_to_role (d_action d) /\
    d_pr_number d = match refined with Some pr => Some (pr_info_number pr) | None => discovered end.
Proof.
  cbv zeta. unfold evaluate_single. destruct (determine_transition state) as [c|] eqn:Ec; [|done].
  intros Hd. assert (starts (d_action (evaluate_candidate env pre graph issue state labels body c)) = true ->
    exists refined discovered, let d := evaluate_candidate env pre graph issue state labels body c in
      candidate_of env state (d_action d) refined /\
      collect_gate_blockers env pre graph issue (d_action d) labels body refined = ([], discovered) /\
      d_role d = action_to_role (d_action d) /\
      d_pr_number d = match refined with Some pr => Some (pr_info_number pr) | None => discovered end) as Hcand.
  { unfold evaluate_candidate, candidate_of. rewrite Ec.
    assert (state = TaskState.IN_REVIEW -> c = SPAWN_INTEGRATE \/ c = CHECKPOINT_NEEDED) as Hc.
    { intros ->. cbn in Ec. case_match; simplify_eq; auto. }
    case_bool_decide as Hs; case_bool_decide as Hi; cbn [andb].
    - destruct (refine_in_review_action env) as [c' refined].
      case_bool_decide; [done|]. case_bool_decide; [done|].
      destruct (collect_gate_blockers _ _ _ _ c' _ _ refined) as [[|b bs] dp] eqn:Eg; [|done].
      intros _. exists refined, dp. cbn. split_and!; try done. right. by subst.
    - destruct (Hc Hs) as [?|?]; [done|]. subst. cbn in Ec. by case_match.
    - destruct (collect_gate_blockers _ _ _ _ c _ _ None) as [[|b bs] dp] eqn:Eg; [|done].
      intros _. exists None, dp. cbn. split_and!; try done. by left.
    - destruct (collect_gate_blockers _ _ _ _ c _ _ None) as [[|b bs] dp] eqn:Eg; [|done].
      intros _. exists None, dp. cbn. split_and!; try done. by left. }
  destruct c; try (by apply Hcand); [done|].
  by rewrite evaluate_in_progress_starts in Hd.
Qed.


(** The flag that lets the supervisor take an action. *)
Definition flag_of (a : ProgressionAction) : bool :=
  match a with
  | SPAWN_TRIAGE => auto_triage cfg
  | SPAWN_RESEARCHER => auto_research cfg
  | SPAWN_DEVELOPER => auto_develop cfg
  | SPAWN_INTEGRATE => auto_integrate cfg
  | SPAWN_ADDRESS_REVIEW | SPAWN_ADDRESS_PR => auto_address_review cfg
  | SPAWN_REVIEWER => auto_review cfg
  | SPAWN_REBASE => auto_rebase cfg
  | _ => false
  end.

Lemma action_of_id_flag id a flag : action_of_id cfg id = Some (a, flag) -> flag = flag_of a /\ starts a = true.
Proof.
  unfold action_of_id. cbn. repeat case_decide; intros [= <- <-]; done.
Qed.

Lemma refine_started env a refined :
  refine_in_review_action env = (a, refined) -> starts a = true ->
  flag_of a = true /\ exists pr verdict enriched,
    refined = Some pr /\ find_pr_for_issue env = Some pr /\ e_verdict env (pr_info_number pr) = Ret verdict /\
    fetch_enriched_pr env (pr_info_number pr) = Some enriched /\
    exists id, action_id (resolve_next_action (build_pr_facts (ep_data enriched) (Some verdict) (external_reviews cfg)
                            (max_address_review_cycles cfg))) = Some id /\
      action_of_id cfg id = Some (a, flag_of a).
Proof.
  unfold refine_in_review_action. intros Hr Ha. destruct (find_pr_for_issue env) as [pr|]; [|by simplify_eq].
  destruct (e_verdict env (pr_info_number pr)) as [verdict|e] eqn:Ev; [|by simplify_eq].
  destruct (fetch_enriched_pr env (pr_info_number pr)) as [enriched|] eqn:Ee; [|by simplify_eq].
  set (facts := build_pr_facts _ _ _ _) in *.
  destruct (action_of_id cfg _) as [[action flag]|] eqn:E; [|by simplify_eq].
  destruct (action_of_id_flag _ _ _ E) as [-> Hs].
  destruct (flag_of action) eqn:Ef; [|by simplify_eq]. injection Hr as <- <-. split; [done|].
  exists pr, verdict, enriched. split_and!; try done.
  destruct (action_id (resolve_next_action facts)) as [id|] eqn:Eid; [|discriminate E].
  exists id. rewrite Ef. split; [exact Eid|exact E].
Qed.

Lemma option_list_nil {A} (o : option A) : option_list o = [] -> o = None.
Proof. by destruct o. Qed.

Lemma transition_flag state a :
  determine_transition state = Some a -> state <> TaskState.IN_REVIEW -> starts a = true -> flag_of a = true.
Proof.
  destruct state; cbn; intros [= <-] Hs Ha; try done; revert Ha;
    [destruct (auto_triage cfg) eqn:E|destruct (auto_research cfg) eqn:E|destruct (auto_develop cfg) eqn:E]; done.
Qed.

(** Every gate that applies to an action let it pass. *)
Record all_clear (env : Env) (pre : Precomputed) (graph : G) (issue : Z) (a : ProgressionAction)
    (labels : list string) (body : string) (refined : option PRInfo) (discovered : option Z) : Prop := {
  clear_rate_limit : rate_limit_gate env pre = None;
  clear_dependencies : respect_dependencies cfg = true -> check_dependency_gate issue graph = None;
  clear_human : check_human_involvement_gate (G := G) issue labels (action_value a) (e_assessment env) = None;
  clear_running : check_already_running is_process_alive issue (e_rows env) = None;
  clear_budget : check_budget_gate (e_issue_budget env) = None;
  clear_ownership :
    check_ownership_gate issue (bool_decide (a = SPAWN_INTEGRATE)) (respect_ownership cfg) (github_user cfg)
      (adapter_repo cfg) (e_assignees env) (match refined with Some pr => Ret (Some pr) | None => e_pr env end)
    = (None, discovered);
  clear_researcher : a = SPAWN_RESEARCHER ->
    check_repeated_failures_gate issue (max_researcher_failures cfg) "researcher" (e_rows env) = None;
  clear_developer : a = SPAWN_DEVELOPER ->
    check_repeated_failures_gate issue (max_developer_failures cfg) "developer" (e_rows env) = None;
  clear_review : a = SPAWN_INTEGRATE ->
    let gate_pr := match refined with Some pr => Some (pr_info_number pr) | None => discovered end in
    check_review_completed_gate issue labels gate_pr (e_marker env)
      (match gate_pr with Some n => fetch_enriched_pr env n | None => None end) = None;
  clear_stale : is_Some (action_to_command a) -> check_stale_commands_gate (e_stale_command env) = None;
  clear_global : resolve_global_gates env pre None a = [];
}.

Lemma collect_clear env pre graph issue a labels body refined discovered :
  collect_gate_blockers env pre graph issue a labels body refined = ([], discovered) ->
  all_clear env pre graph issue a labels body refined discovered.
Proof.
  unfold collect_gate_blockers. destruct (rate_limit_gate env pre) as [b|] eqn:Er; [done|].
  destruct (check_ownership_gate _ _ _ _ _ _ _) as [ownership dp] eqn:Eo. intros [= Hl <-].
  apply app_eq_nil in Hl as [H1%option_list_nil Hl]. apply app_eq_nil in Hl as [H2%option_list_nil Hl].
  apply app_eq_nil in Hl as [H3%option_list_nil Hl]. apply app_eq_nil in Hl as [H4%option_list_nil Hl].
  apply app_eq_nil in Hl as [H5%option_list_nil Hl]. apply app_eq_nil in Hl as [H6%option_list_nil Hl].
  apply app_eq_nil in Hl as [H7%option_list_nil Hl]. apply app_eq_nil in Hl as [H8%option_list_nil Hl].
  apply app_eq_nil in Hl as [H9%option_list_nil Hl]. apply app_eq_nil in Hl as [H10%option_list_nil Hl].
  split; try done.
  - intros Hd. by rewrite Hd in H1.
  - by rewrite Eo, H5.
  - intros ->. by rewrite decide_True in H6 by done.
  - intros ->. by rewrite decide_True in H7 by done.
  - intros ->. by rewrite bool_decide_eq_true_2 in H9 by done.
  - intros [c Hc]. by rewrite Hc in H8.
Qed.



(** ** A cycle keeps within its capacity *)

Lemma evaluate_single_issue env pre graph issue state labels body :
  d_issue_number (evaluate_single env pre graph issue state labels body) = issue.
Proof.
  unfold evaluate_single, evaluate_candidate, evaluate_in_progress, automation_disabled.
  repeat first [done | case_match].
Qed.

Lemma single_takes_slot env pre graph issue state labels body slots :
  p_slots pre = Some slots ->
  takes_slot (d_action (evaluate_single env pre graph issue state labels body)) = true -> slots = None.
Proof.
  intros Hp Hd%takes_slot_starts. apply evaluate_single_starts in Hd as (refined & discovered & _ & Hc & _).
  apply collect_clear, clear_global in Hc. unfold resolve_global_gates in Hc. rewrite Hp in Hc.
  repeat apply app_eq_nil in Hc as [? Hc]. by apply option_list_nil.
Qed.

Lemma single_develops env pre graph issue state labels body quota :
  p_quota pre = Some quota ->
  d_action (evaluate_single env pre graph issue state labels body) = SPAWN_DEVELOPER -> quota = None.
Proof.
  intros Hp Hd. assert (starts (d_action (evaluate_single env pre graph issue state labels body)) = true) as Hs by by rewrite Hd.
  apply evaluate_single_starts in Hs as (refined & discovered & _ & Hc & _).
  apply collect_clear, clear_global in Hc. unfold resolve_global_gates in Hc. rewrite Hp, Hd in Hc.
  apply app_eq_nil in Hc as [_ Hc]. apply app_eq_nil in Hc as [Hc _]. by apply option_list_nil in Hc.
Qed.

Lemma loop_capacity env pre graph global_slots global_quota n slots quota ids :
  let ds := evaluate_loop env pre graph global_slots global_quota n slots quota ids in
  (Z.of_nat (slots_taken ds) <= match global_slots with Some _ => 0 | None => Z.max 0 slots end)%Z /\
  developers ds <= match global_quota with Some _ => 0 | None => if quota then 1 else 0 end /\
  map d_issue_number ds `sublist_of` ids.
Proof.
  revert n slots quota. induction ids as [|id ids IH]; intros n slots quota; cbn [evaluate_loop].
  { split; [destruct global_slots; cbn; lia|]. split; [cbn; lia|done]. }
  destruct (get_task graph id) as [t|]; [|destruct (IH n slots quota) as (? & ? & ?); split_and!; [done..|by constructor]].
  destruct (check_github_rate_limit_gate _).
  { split; [destruct global_slots; cbn; lia|]. split; [cbn; lia|]. apply sublist_nil_l. }
  match goal with |- context [evaluate_single ?e ?p ?g ?i ?s ?l ?b] =>
    pose proof (single_takes_slot e p g i s l b _ eq_refl) as Hslot;
    pose proof (single_develops e p g i s l b _ eq_refl) as Hdev;
    pose proof (evaluate_single_issue e p g i s l b) as Hissue;
    set (d := evaluate_single e p g i s l b) in * end.
  unfold update_remaining_capacity.
  destruct (takes_slot (d_action d)) eqn:Et.
  - specialize (Hslot eq_refl). unfold effective_gate in Hslot.
    destruct global_slots as [b|]; [done|]. destruct (Z.leb_spec slots 0); [done|].
    set (q' := if decide _ then false else quota).
    destruct (IH (S n) (slots - 1)%Z q') as (I1 & I2 & I3). cbv zeta in I1, I2, I3.
    unfold slots_taken, developers in *. cbn [List.filter map]. rewrite Et, Hissue. cbn [length].
    cbn beta iota in I1 |- *. split; [lia|]. split; [|by constructor]. subst q'.
    case_bool_decide as Ed; destruct (decide (d_action d = SPAWN_DEVELOPER)); try done; cbn [length].
    specialize (Hdev Ed). unfold effective_gate in Hdev. destruct global_quota; [done|].
    destruct quota; [|done]. cbn beta iota in I2 |- *; lia.
  - destruct (IH (S n) slots quota) as (I1 & I2 & I3). cbv zeta in I1, I2, I3.
    unfold slots_taken, developers in *. cbn [List.filter map]. rewrite Et, Hissue.
    split; [done|]. split; [|by constructor]. case_bool_decide as Ed; [by rewrite Ed in Et|done].
Qed.

(** C6: a cycle never overcommits. However the queue, the gates and the answers of
    GitHub, the database and the system come out, one evaluation cycle decides to
    start at most as many agents as there are free slots (none when the slots are
    full), at most one developer, and none when the review quota is used up; and it
    decides each queued issue at most as often as it is queued, in queue order. *)
Theorem capacity_never_overcommitted (env : CycleEnv) (graph : outcome G) :
  let ds := evaluate_all env graph in
  (Z.of_nat (slots_taken ds) <= Z.max 0 (max_parallel_agents cfg - Z.of_nat (alive_count env)))%Z /\
  developers ds <= 1 /\
  (is_Some (check_quota_gate true (coderabbit_enabled cfg) (c_quota env)) -> developers ds = 0) /\
  map d_issue_number ds `sublist_of` task_queue cfg.
Proof.
  assert (forall ds, ds = [] -> (Z.of_nat (slots_taken ds) <= Z.max 0 (max_parallel_agents cfg - Z.of_nat (alive_count env)))%Z /\
    developers ds <= 1 /\ (is_Some (check_quota_gate true (coderabbit_enabled cfg) (c_quota env)) -> developers ds = 0) /\
    map d_issue_number ds `sublist_of` task_queue cfg) as Hnil.
  { intros ds ->. split_and!; cbn; try lia. apply sublist_nil_l. }
  unfold evaluate_all. cbv zeta. destruct (check_connectivity_gate _ _ _); [by apply Hnil|].
  destruct (check_github_rate_limit_gate _); [by apply Hnil|]. destruct graph as [g|e]; [|by apply Hnil]. clear Hnil.
  match goal with |- context [evaluate_loop ?e ?p ?g ?gs ?gq ?n ?s ?q ?ids] =>
    destruct (loop_capacity e p g gs gq n s q ids) as (H1 & H2 & H3) end.
  cbv zeta in H1, H2, H3. split_and!.
  - destruct (Z.leb_spec (max_parallel_agents cfg) (Z.of_nat (alive_count env))); lia.
  - destruct (check_quota_gate _ _ _); lia.
  - intros [b Hb]. rewrite Hb in *. lia.
  - etrans; [exact H3|]. unfold resolve_task_ids. clear. induction (task_queue cfg) as [|i q IH]; [done|].
    cbn. case_bool_decide; by constructor.
Qed.


(** ** Plans *)

Lemma hold_not_actionable d : actionable (d_action (hold d)) = false.
Proof. done. Qed.

(** a plan only subtracts. Applied to any decisions, a plan keeps each of them in
    place or turns it into a WAIT for the same issue; it never makes anything
    actionable; an empty plan holds everything; and after it an actionable decision
    is one the plan approves by action and issue, unless the plan names no issue
    that was on offer, in which case it changes nothing. What is then carried out
    is a prefix of the actionable decisions, no longer than the cap. *)
Theorem plan_only_subtracts (ds : list ProgressionDecision) (plan : list (string * Z)) :
  let ds' := apply_plan ds plan in
  Forall2 (fun d d' => d' = d \/ (actionable (d_action d) = true /\ d' = hold d)) ds ds' /\
  (plan = [] -> Forall (fun d => actionable (d_action d) = false) ds') /\
  (Forall (fun d => actionable (d_action d) = true -> approves plan d = true) ds' \/
   (names_an_offer plan ds = false /\ ds' = ds)) /\
  length (to_execute ds') <= max_spawns_per_cycle cfg /\
  to_execute ds' `prefix_of` List.filter (fun d => actionable (d_action d)) ds'.
Proof.
  cbv zeta. assert (forall ds', length (to_execute ds') <= max_spawns_per_cycle cfg /\
    to_execute ds' `prefix_of` List.filter (fun d => actionable (d_action d)) ds') as Hcap.
  { intros ds'. unfold to_execute. split; [rewrite length_take; lia|apply prefix_take]. }
  unfold apply_plan. destruct (_ && _ && negb (names_an_offer plan ds)) eqn:E.
  - apply andb_true_iff in E as [[E1 E2]%andb_true_iff E3%negb_true_iff].
    split; [|split; [|split; [right; done|apply Hcap]]].
    + apply Forall2_same_length_lookup_2; [done|]. intros i d d' Hd Hd'. left. congruence.
    + intros ->. by rewrite bool_decide_eq_true_2 in E1.
  - clear E. split; [|split; [|split; [left|apply Hcap]]].
    + induction ds as [|d ds IH]; cbn [map]; constructor; [|done].
      destruct (actionable (d_action d)); cbn; [|auto]. destruct (approves plan d); auto.
    + intros ->. rewrite Forall_map. apply Forall_forall. intros d _.
      destruct (actionable (d_action d)) eqn:Ea; cbn; [|done].
      unfold approves. by rewrite bool_decide_eq_false_2 by (by intros ?%not_elem_of_nil).
    + rewrite Forall_map. apply Forall_forall. intros d _.
      destruct (actionable (d_action d)) eqn:Ea; cbn [negb]; [|by rewrite Ea].
      destruct (approves plan d) eqn:Ep; [done|by rewrite hold_not_actionable].
Qed.

(** ** Issues in progress *)

(** The row shows no agent: it is over, or its process is gone. *)
Definition agent_gone (r : RunRow) : Prop :=
  row_status r <> "awaiting_approval"%string /\
  (~ row_status r ∈ State.TaskStatus.TASK_RUN_TERMINAL ->
   exists pid, row_pid r = Some pid /\ is_process_alive pid = false).

(** The rows show no agent for the issue. *)
Definition no_agent_seen (issue : Z) (rows : list RunRow) : Prop :=
  Forall (fun r => row_issue r = pretty issue -> agent_gone r) rows.

Lemma already_running_terminal status :
  one_of status ALREADY_RUNNING_TERMINAL = true <->
  status ∈ State.TaskStatus.TASK_RUN_TERMINAL /\ status <> "awaiting_approval"%string.
Proof.
  unfold one_of, ALREADY_RUNNING_TERMINAL. rewrite bool_decide_eq_true, !list_elem_of_In, List.filter_In.
  by rewrite negb_true_iff, bool_decide_eq_false.
Qed.

Lemma already_running_None issue rows :
  check_already_running is_process_alive issue (Ret rows) = None <-> no_agent_seen issue rows.
Proof.
  unfold check_already_running, no_agent_seen. cbn [obind fail_open].
  induction rows as [|r rows IH]; cbn [List.filter first_running]; [by split; constructor|].
  rewrite Forall_cons, <- IH. clear IH. unfold agent_gone.
  pose proof (already_running_terminal (row_status r)) as Ht.
  case_bool_decide as Hi; cbn [andb]; [|by split; [split|intros [_ ?]]].
  destruct (one_of (row_status r) ALREADY_RUNNING_TERMINAL) eqn:E; cbn [negb first_running].
  { destruct Ht as [[Ht1 Ht2] _]; [done|]. split; [|by intros [_ ?]]. intros ?. split; [|done]. by intros _. }
  case_bool_decide as Ha; [split; [done|]; intros [Hall _]; by destruct (Hall Hi)|].
  assert (~ row_status r ∈ State.TaskStatus.TASK_RUN_TERMINAL) as Hn.
  { intros Hin. assert (false = true); [by apply Ht|done]. }
  destruct (row_pid r) as [pid|] eqn:Ep.
  - destruct (is_process_alive pid) eqn:El.
    + split; [done|]. intros [Hall _]. destruct (Hall Hi) as [_ (pid' & ? & ?)]; [done|congruence].
    + split; [|by intros [_ ?]]. intros ?. split; [|done]. intros _. split; [done|]. by exists pid.
  - split; [done|]. intros [Hall _]. destruct (Hall Hi) as [_ (pid' & ? & ?)]; [done|congruence].
Qed.

Lemma in_progress_reset env pre issue :
  let d := evaluate_in_progress env pre issue in
  d_issue_number d = issue /\
  (d_action d = RESET_STALE_STATE ->
     (forall rows, e_rows env = Ret rows -> no_agent_seen issue rows) /\
     (adapter_repo cfg = ""%string \/ e_pr_checked env = Ret None)) /\
  (d_action d = REPAIR_TO_IN_REVIEW ->
     (forall rows, e_rows env = Ret rows -> no_agent_seen issue rows) /\
     exists pr, e_pr_checked env = Ret (Some pr) /\ d_pr_number d = Some (pr_info_number pr)).
Proof.
  unfold evaluate_in_progress. destruct (check_already_running _ _ _) eqn:Er; [done|].
  assert (forall rows, e_rows env = Ret rows -> no_agent_seen issue rows) as Hrows.
  { intros rows E. rewrite E in Er. by apply already_running_None. }
  destruct (rate_limit_gate env pre); [done|].
  case_bool_decide as Hrepo; [by split_and!; auto|].
  destruct (e_pr_checked env) as [[pr|]|e]; [|by split_and!; auto|done].
  split; [done|]. split; [done|]. intros _. split; [done|]. by exists pr.
Qed.

Lemma evaluate_single_repairs env pre graph issue state labels body a :
  d_action (evaluate_single env pre graph issue state labels body) = a ->
  a = RESET_STALE_STATE \/ a = REPAIR_TO_IN_REVIEW ->
  state = TaskState.IN_PROGRESS /\
  evaluate_single env pre graph issue state labels body = evaluate_in_progress env pre issue.
Proof.
  intros Hd Ha. unfold evaluate_single in *.
  destruct (decide (state = TaskState.IN_PROGRESS)) as [->|Hs]; [done|exfalso].
  assert (forall c, c <> RESET_STALE_STATE -> c <> REPAIR_TO_IN_REVIEW ->
    d_action (evaluate_candidate env pre graph issue state labels body c) = a -> False) as Hcand.
  { clear Hd. intros c H1 H2. unfold evaluate_candidate. destruct (_ && _).
    - destruct (refine_in_review_action env) as [c' refined] eqn:Er.
      assert (c' <> RESET_STALE_STATE /\ c' <> REPAIR_TO_IN_REVIEW) as [].
      { destruct (starts c') eqn:Es; [by destruct c'|]. clear -Er Es. unfold refine_in_review_action in Er.
        repeat case_match; simplify_eq; try done.
        match goal with E : action_of_id _ _ = Some _ |- _ => apply action_of_id_flag in E as [_ E] end. congruence. }
      repeat case_match; cbn; intros <-; naive_solver.
    - repeat case_match; cbn; intros <-; naive_solver. }
  destruct (determine_transition state) as [c|] eqn:Ec; [|cbn in Hd; naive_solver].
  assert (c <> RESET_STALE_STATE /\ c <> REPAIR_TO_IN_REVIEW) as [H1 H2].
  { destruct state; cbn in Ec; try done; repeat case_match; simplify_eq; done. }
  specialize (Hcand c H1 H2). destruct c; try (by apply Hcand); try done. cbn in Hd. naive_solver.
Qed.

Lemma stale_reset_effects x issue st :
  Transition issue st ∈ execute_stale_reset x issue ->
  st = TaskState.TRIAGED /\ exists rows, x_rows x = Ret rows /\ no_agent_seen issue rows /\
    Forall (fun r => row_issue r = pretty issue -> ~ row_status r ∈ State.TaskStatus.TASK_RUN_TERMINAL) rows.
Proof.
  unfold execute_stale_reset. destruct (x_rows x) as [rows|] eqn:Ex; [|by intros ?%not_elem_of_nil].
  destruct (sort_by _ _) as [|r rs] eqn:Es; [|by intros [?|?%not_elem_of_nil]%elem_of_cons].
  destruct (check_already_running _ _ _) eqn:Er; [by intros ?%not_elem_of_nil|].
  intros [[= ->]|?%not_elem_of_nil]%elem_of_cons; [|done]. split; [done|]. exists rows. split; [done|].
  split; [by apply already_running_None|]. apply Forall_forall. intros r Hr Hi Ht.
  assert (r ∈ sort_by (fun r => [(- row_id r)%Z]) (List.filter (fun r => bool_decide (row_issue r = pretty issue)
             && one_of (row_status r) State.TaskStatus.TASK_RUN_TERMINAL) rows)) as Hin.
  { rewrite sort_by_perm, list_elem_of_In, List.filter_In, <- list_elem_of_In. split; [done|].
    apply andb_true_iff. unfold one_of. by rewrite !bool_decide_eq_true. }
  rewrite Es in Hin. by apply not_elem_of_nil in Hin.
Qed.

Lemma repair_effects x issue st :
  Transition issue st ∈ execute_repair_to_in_review x issue ->
  st = TaskState.IN_REVIEW /\ x_state x = Ret TaskState.IN_PROGRESS /\
  forall rows, x_rows x = Ret rows -> no_agent_seen issue rows.
Proof.
  unfold execute_repair_to_in_review. destruct (x_state x) as [state|]; [|by intros ?%not_elem_of_nil].
  case_decide as Hs; [by intros ?%not_elem_of_nil|]. subst state.
  destruct (check_already_running _ _ _) eqn:Er; [by intros ?%not_elem_of_nil|].
  intros [[= ->]|?%not_elem_of_nil]%elem_of_cons; [|done]. split_and!; [done..|].
  intros rows Hx. rewrite Hx in Er. by apply already_running_None.
Qed.

Lemma transitions_only_repair x d issue st :
  Transition issue st ∈ execute_decision x d ->
  (d_action d = RESET_STALE_STATE /\ Transition issue st ∈ execute_stale_reset x (d_issue_number d)) \/
  (d_action d = REPAIR_TO_IN_REVIEW /\ Transition issue st ∈ execute_repair_to_in_review x (d_issue_number d)).
Proof.
  unfold execute_decision. rewrite !list_elem_of_In.
  destruct (d_action d); auto; cbn; repeat (case_match; cbn); intros; destruct_or?; try done.
  all: repeat match goal with Hin : _ \/ _ |- _ => destruct Hin end; try done.
Qed.

(** work in progress is not thrown away. The supervisor resets an issue only when
    it is in progress, the rows it could read show no agent for it, and it either has
    no repository or got the certain answer that no pull request is open; with an
    open pull request it is carried forward to review instead, and an answer that did
    not come makes it wait. The state of the issue changes only in carrying out such
    a decision: a reset reads the rows again, gets them, finds no agent, and no
    earlier run to go back to; a repair finds the issue still in progress. *)
Theorem reset_only_when_abandoned (env : Env) (pre : Precomputed) (graph : G) (issue : Z) (state : TaskState.t)
    (labels : list string) (body : string) (x : ExecEnv) (st : TaskState.t) :
  let d := evaluate_single env pre graph issue state labels body in
  let unattended := forall rows, e_rows env = Ret rows -> no_agent_seen issue rows in
  (d_action d = RESET_STALE_STATE ->
     state = TaskState.IN_PROGRESS /\ unattended /\ (adapter_repo cfg = ""%string \/ e_pr_checked env = Ret None)) /\
  (d_action d = REPAIR_TO_IN_REVIEW ->
     state = TaskState.IN_PROGRESS /\ unattended /\
     exists pr, e_pr_checked env = Ret (Some pr) /\ d_pr_number d = Some (pr_info_number pr)) /\
  (Transition issue st ∈ execute_decision x d ->
     (d_action d = RESET_STALE_STATE /\ st = TaskState.TRIAGED /\
        exists rows, x_rows x = Ret rows /\ no_agent_seen issue rows /\
          Forall (fun r => row_issue r = pretty issue -> ~ row_status r ∈ State.TaskStatus.TASK_RUN_TERMINAL) rows) \/
     (d_action d = REPAIR_TO_IN_REVIEW /\ st = TaskState.IN_REVIEW /\ x_state x = Ret TaskState.IN_PROGRESS /\
        forall rows, x_rows x = Ret rows -> no_agent_seen issue rows)).
Proof.
  intros d unattended. destruct (in_progress_reset env pre issue) as (_ & Hreset & Hrepair).
  split; [|split].
  - intros Hd. destruct (evaluate_single_repairs _ _ _ _ _ _ _ _ Hd (or_introl eq_refl)) as [Hs E].
    unfold d in Hd. rewrite E in Hd. by destruct (Hreset Hd).
  - intros Hd. destruct (evaluate_single_repairs _ _ _ _ _ _ _ _ Hd (or_intror eq_refl)) as [Hs E].
    unfold d in *. rewrite E in *. by destruct (Hrepair Hd).
  - assert (d_issue_number d = issue) as Hi by apply evaluate_single_issue. clearbody d. clear -Hi.
    intros [[Ha Ht]|[Ha Ht]]%transitions_only_repair; rewrite Hi in Ht; [left|right; split; [done|]].
    + by apply stale_reset_effects in Ht as [-> ?].
    + by apply repair_effects in Ht.
Qed.

End engine.

(** ** Witnesses *)

Module Examples.

Local Open Scope string_scope.
Local Open Scope Z_scope.

Definition task (state : TaskState.t) : Task :=
  {| task_id := "7"; task_title := ""; task_body := ""; Tracker.task_state := state; task_labels := [];
     task_assignees := []; task_milestone := ""; task_priority := Priority.Priority.UNDEFINED |}.

Definition graph : DependencyGraph := {| g_tasks := {[7 := task TaskState.RESEARCHED]}; g_requested := None; g_deps := ∅; g_rdeps := ∅ |}.

Definition config : Config :=
  {| auto_triage := true; auto_research := true; auto_develop := true; auto_address_review := true;
     auto_review := true; auto_integrate := true; auto_rebase := true; respect_dependencies := true;
     respect_ownership := false; file_overlap_gate := false; overlap_num := 0; overlap_den := 1;
     max_spawns_per_cycle := 2; max_researcher_failures := 3; max_developer_failures := 3; ci_block_minutes := 0;
     task_queue := [7%Z]; max_parallel_agents := 1; coderabbit_enabled := false; github_repo := "";
     external_reviews := false; max_address_review_cycles := 3; network_guard_enabled := false;
     network_block_spawns := false; memory_guard_enabled := false; memory_block_threshold := 0;
     github_user := ""; adapter_repo := "" |}.

(** A failed developer run, and answers that open every gate. *)
Definition failed_run : RunRow :=
  {| row_id := 1; row_issue := "7"; row_role := "developer"; row_status := "failed"; row_pid := None |}.

Definition silent {A} : outcome A := Raise (RuntimeError "unavailable").

Definition env : Env :=
  {| e_rows := Ret [failed_run]; e_assessment := Ret None; e_issue_budget := Ret None; e_pr_checked := Ret None;
     e_pr := Ret None; e_verdict := fun _ => silent; e_marker := silent; e_open_prs := Ret []; e_assignees := Ret [];
     e_stale_command := Ret None; e_rate_limit := Ret None; e_quota := silent; e_ci_budget := silent; e_memory := None |}.

Definition pre : Precomputed :=
  {| p_memory := None; p_rate_limit := None; p_quota := None; p_slots := None; p_ci_budget := None; p_file_sets := None |}.

Definition cycle : CycleEnv :=
  {| c_env := fun _ => env; c_rate_limit := fun _ => Ret None; c_network := Ret None; c_rows := Ret [failed_run];
     c_quota := silent; c_ci_budget := silent; c_memory := None; c_file_sets := silent |}.

Definition nobody (_ : Z) : bool := false.

Definition decision : ProgressionDecision :=
  evaluate_single nobody pretty config env pre graph 7 TaskState.RESEARCHED [] "".

Example starts_developer : d_action decision = SPAWN_DEVELOPER /\ starts (d_action decision) = true.
Proof. split; vm_compute; reflexivity. Qed.


Lemma capacity_never_overcommitted_witness :
  map d_action (evaluate_all nobody pretty config cycle (Ret graph)) = [SPAWN_DEVELOPER] /\
  (Z.of_nat (slots_taken (evaluate_all nobody pretty config cycle (Ret graph))) <= 1).
Proof.
  split; [vm_compute; reflexivity|].
  destruct (capacity_never_overcommitted nobody pretty config cycle (Ret graph)) as [Hslots _].
  etrans; [exact Hslots|vm_compute; discriminate].
Defined.

End Examples.
