(* ===== verification/Queue.v ===== *)
(** * Queue: what the supervisor keeps in its task queue

    sova/supervisor/queue_maintenance.py. The pass reads the network state, the
    rate limit, the tracker, the dependency graph and the assessment store, and
    writes the queue to the project's settings; [Answers] holds what it is told.
    [task_map] and [task_objects] are filled together, so one map of the tasks
    by issue number stands for both. The code iterates that dictionary once, over
    distinct keys that it then sorts by a key that ends in the issue number, so
    the order of the iteration does not matter. *)

From stdpp Require Import base gmap strings list sorting.
From S2P Require Import Prelude Priority Tracker Suitability DepGraph Gates.

Local Open Scope sova_scope.

(** [_DONE_STATES], [_READY_STATES], [_AGENT_IN_FLIGHT_STATES] *)
Definition done_state (s : TaskState.t) : bool :=
  match s with TaskState.DONE | TaskState.HUMAN_ONLY => true | _ => false end.

Definition ready_state (s : TaskState.t) : bool :=
  match s with TaskState.RESEARCHED => true | _ => false end.

Definition in_flight (s : TaskState.t) : bool :=
  match s with TaskState.IN_PROGRESS | TaskState.IN_REVIEW | TaskState.ON_QA => true | _ => false end.

(** [class QueueMaintenanceResult] *)
Record QueueMaintenanceResult := {
  qm_previous : list Z;
  qm_current : list Z;
  qm_removed : list Z;
  qm_added : list Z;
  qm_changed : bool;
}.

(** The settings the pass reads: the supervisor's, and the network guard's
    [(enabled, block_spawns)] when there is one. *)
Record QueueConfig := {
  task_queue : list Z;
  max_queue_size : Z;
  respect_dependencies : bool;
  network_guard : option (bool * bool);
}.

(** [task_map] and [task_objects]: a later task replaces an earlier one of the same
    number, a task without a number is skipped. *)
Definition index_tasks (tasks : list Task) : gmap Z Task :=
  foldl (fun m t => match PyStr.int_of (task_id t) with Some i => <[i := t]> m | None => m end) ∅ tasks.

(** [_prune_done] *)
Definition prune_done (tasks : gmap Z Task) (queue : list Z) : list Z :=
  List.filter (fun i => match tasks !! i with Some t => negb (done_state (Tracker.task_state t)) | None => false end) queue.

(** [_remaining_capacity] *)
Definition remaining_capacity (max_queue_size : Z) (current_queue_len : nat) : option nat :=
  if Z.ltb 0 max_queue_size then Some (Z.to_nat (Z.max 0 (max_queue_size - Z.of_nat current_queue_len))) else None.

(** [_ready_candidate_ids] *)
Definition ready_candidate_ids (queue : list Z) (tasks : gmap Z Task) : list Z :=
  List.filter (fun i => match tasks !! i with
                        | Some t => ready_state (Tracker.task_state t) && negb (bool_decide (i ∈ queue))
                        | None => false
                        end) (map_to_list tasks).*1.

(** The local record of an issue, where it applies. *)
Definition applicable_assessment (local_assessments : gmap Z string) (i : Z) (t : Task) : option string :=
  if Labels.local_assessment_applies (task_labels t) then local_assessments !! i else None.

Section queue.
Context {G : Type} `{GraphView G}.

(** [_prune_unsuitable] *)
Definition stays_suitable (tasks : gmap Z Task) (local_assessments : gmap Z string) (i : Z) : bool :=
  match tasks !! i with
  | None => true
  | Some t =>
      in_flight (Tracker.task_state t)
      || agent_eligible (mode (assess_suitability t (None : option G) (applicable_assessment local_assessments i t) false))
  end.

Definition prune_unsuitable (tasks : gmap Z Task) (local_assessments : gmap Z string) (queue : list Z) : list Z :=
  List.filter (stays_suitable tasks local_assessments) queue.

(** The loop of [_discover_ready] keeps the issue. *)
Definition discovers (current_queue : list Z) (tasks : gmap Z Task) (graph : option G)
    (local_assessments : gmap Z string) (i : Z) : bool :=
  match tasks !! i with
  | None => false
  | Some t =>
      ready_state (Tracker.task_state t) && negb (bool_decide (i ∈ current_queue))
      && agent_eligible (mode (assess_suitability t graph (applicable_assessment local_assessments i t)
                                 (match graph with Some g => has_task g i | None => false end)))
  end.

(** [_sort_key] *)
Definition ready_key (tasks : gmap Z Task) (i : Z) : list Z :=
  [Z.of_nat (Priority.rank (match tasks !! i with Some t => task_priority t | None => Priority.UNDEFINED end)); i].

(** [_discover_ready] *)
Definition discover_ready (current_queue : list Z) (tasks : gmap Z Task) (max_queue_size : Z) (graph : option G)
    (local_assessments : gmap Z string) : list Z :=
  let ranked := sort_by (ready_key tasks)
                  (List.filter (discovers current_queue tasks graph local_assessments) (map_to_list tasks).*1) in
  match remaining_capacity max_queue_size (length current_queue) with
  | Some 0 => []
  | Some capacity => take capacity ranked
  | None => ranked
  end.

(** What [maintain_queue] is told. *)
Record Answers := {
  a_network : outcome (option string);
  a_rate_limit : outcome (option string);
  a_tasks : outcome (list Task);
  a_graph : outcome G;
  (** the store of assessments, when a session factory is given *)
  a_assessments : option (list Z -> outcome (gmap Z string));
  a_save : outcome unit;
}.

(** [_resolve_local_assessments] *)
Definition resolve_local_assessments (a : Answers) (ids : list Z) : gmap Z string :=
  match a_assessments a with
  | Some store => if bool_decide (ids = []) then ∅ else match store ids with Ret m => m | Raise _ => ∅ end
  | None => ∅
  end.

Definition unchanged (previous : list Z) : QueueMaintenanceResult * option (list Z) :=
  ({| qm_previous := previous; qm_current := previous; qm_removed := []; qm_added := []; qm_changed := false |}, None).

(** The issues of the queue whose suitability is checked again. *)
Definition recheck_ids (tasks : gmap Z Task) (pruned : list Z) : list Z :=
  List.filter (fun i => match tasks !! i with Some t => negb (in_flight (Tracker.task_state t)) | None => true end) pruned.

(** The dependency graph of a pass, built only when it may be needed. *)
Definition pass_graph (config : QueueConfig) (a : Answers) (tasks : gmap Z Task) : option G :=
  let pruned := prune_done tasks (task_queue config) in
  let remaining := remaining_capacity (max_queue_size config) (length pruned) in
  if respect_dependencies config && negb (bool_decide (remaining = Some 0))
     && negb (bool_decide (ready_candidate_ids pruned tasks = []))
  then match a_graph a with Ret g => Some g | Raise _ => None end
  else None.

(** The issues whose local record a pass looks up. *)
Definition assessment_ids (config : QueueConfig) (tasks : gmap Z Task) : list Z :=
  let pruned := prune_done tasks (task_queue config) in
  let remaining := remaining_capacity (max_queue_size config) (length pruned) in
  let discovery_ids := if negb (bool_decide (remaining = Some 0)) || negb (bool_decide (recheck_ids tasks pruned = []))
                       then ready_candidate_ids pruned tasks else [] in
  sorted_set (list_to_set (List.filter
    (fun i => match tasks !! i with Some t => Labels.local_assessment_applies (task_labels t) | None => false end)
    (discovery_ids ++ recheck_ids tasks pruned))).

(** [maintain_queue] once the tasks are listed: the result, and the queue saved. *)
Definition maintain_listed (config : QueueConfig) (a : Answers) (tasks : gmap Z Task)
    : QueueMaintenanceResult * option (list Z) :=
  let previous := task_queue config in
  let pruned := prune_done tasks previous in
  let removed_done := List.filter (fun i => negb (bool_decide (i ∈ pruned))) previous in
  let graph := pass_graph config a tasks in
  let local_assessments := resolve_local_assessments a (assessment_ids config tasks) in
  let suitable_queue := prune_unsuitable tasks local_assessments pruned in
  let pruned_unsuitable := List.filter (fun i => negb (bool_decide (i ∈ suitable_queue))) pruned in
  let added := discover_ready suitable_queue tasks (max_queue_size config) graph local_assessments in
  let current := suitable_queue ++ added in
  let changed := negb (bool_decide (current = previous)) in
  let result current changed :=
    {| qm_previous := previous; qm_current := current; qm_removed := removed_done ++ pruned_unsuitable;
       qm_added := added; qm_changed := changed |} in
  if changed then
    match a_save a with
    | Ret _ => (result current true, Some current)
    | Raise _ => (result previous false, None)
    end
  else (result current false, None).

(** [maintain_queue] *)
Definition maintain_queue (config : QueueConfig) (a : Answers) : QueueMaintenanceResult * option (list Z) :=
  let previous := task_queue config in
  let connectivity_block := match network_guard config with
                            | Some (enabled, block_spawns) => check_connectivity_gate enabled block_spawns (a_network a)
                            | None => None
                            end in
  match connectivity_block with
  | Some _ => unchanged previous
  | None =>
      match check_github_rate_limit_gate (a_rate_limit a) with
      | Some _ => unchanged previous
      | None =>
          match a_tasks a with
          | Raise _ => unchanged previous
          | Ret tasks =>
              if bool_decide (tasks = []) && negb (bool_decide (previous = [])) then unchanged previous
              else maintain_listed config a (index_tasks tasks)
          end
      end
  end.

(** ** The planner's changes *)

(** [apply_planner_queue_changes] before it persists: the queue, and whether it changed. *)
Definition planner_reorder (removals reorder current : list Z) : option (list Z) :=
  let normalized := dedup [] (List.filter (fun i => negb (bool_decide (i ∈ removals))) reorder) in
  if bool_decide (list_to_set (C := gset Z) normalized = list_to_set current) then Some normalized
  else if bool_decide (list_to_set (C := gset Z) normalized ⊆ list_to_set current)
  then Some (List.filter (fun i => bool_decide (i ∈ current)) normalized
             ++ List.filter (fun i => negb (bool_decide (i ∈ normalized))) current)
  else None.

Definition planner_changes (removals reorder queue : list Z) : list Z * bool :=
  let current := List.filter (fun i => negb (bool_decide (i ∈ removals))) queue in
  let changed := negb (bool_decide (length current = length queue)) in
  if bool_decide (reorder = []) then (current, changed)
  else match planner_reorder removals reorder current with
       | Some current => (current, true)
       | None => (current, changed)
       end.

(** [apply_planner_queue_changes]: the queue returned, and the queue saved. *)
Definition apply_planner_queue_changes (queue removals reorder : list Z) (save : outcome unit) : list Z * option (list Z) :=
  let '(current, changed) := planner_changes removals reorder queue in
  if changed then match save with Ret _ => (current, Some current) | Raise _ => (queue, None) end
  else (current, None).

(** ** What a pass keeps and adds *)

Lemma list_filter_sublist {A} (p : A -> bool) (l : list A) : List.filter p l `sublist_of` l.
Proof. induction l as [|x l IH]; [done|]. cbn. destruct (p x); by constructor. Qed.

(** An issue that is checked on its labels and record alone. *)
Definition eligible_alone (local_assessments : gmap Z string) (i : Z) (t : Task) : Prop :=
  agent_eligible (mode (assess_suitability t (None : option G) (applicable_assessment local_assessments i t) false)) = true.

(** What keeps an issue in the queue. *)
Definition stays (tasks : gmap Z Task) (local_assessments : gmap Z string) (i : Z) : Prop :=
  exists t, tasks !! i = Some t /\ done_state (Tracker.task_state t) = false /\
    (in_flight (Tracker.task_state t) = true \/ eligible_alone local_assessments i t).

(** What makes an issue ready to be queued. *)
Definition ready (tasks : gmap Z Task) (graph : option G) (local_assessments : gmap Z string) (i : Z) : Prop :=
  exists t, tasks !! i = Some t /\ Tracker.task_state t = TaskState.RESEARCHED /\
    agent_eligible (mode (assess_suitability t graph (applicable_assessment local_assessments i t)
                            (match graph with Some g => has_task g i | None => false end))) = true.

Lemma eligible_without_dependencies t graph local cd :
  agent_eligible (mode (assess_suitability t graph local cd)) = true ->
  agent_eligible (mode (assess_suitability t (None : option G) local false)) = true.
Proof.
  rewrite !assess_mode_first, !first_mode_unfold. unfold mode_applies.
  destruct (Labels.is_epic (task_labels t)), (Labels.is_human_only (task_labels t)), (Labels.is_on_hold (task_labels t)),
    (Labels.is_interactive_recommended (task_labels t)), (Labels.is_ready (task_labels t)); cbn; repeat case_bool_decide; cbn;
    repeat case_match; done.
Qed.

Lemma ready_state_eq s : ready_state s = true <-> s = TaskState.RESEARCHED.
Proof. by destruct s. Qed.

Lemma elem_of_kept tasks local queue i :
  i ∈ prune_unsuitable tasks local (prune_done tasks queue) <-> i ∈ queue /\ stays tasks local i.
Proof.
  unfold prune_unsuitable, prune_done, stays_suitable, stays, eligible_alone.
  rewrite !list_elem_of_In, !List.filter_In. destruct (tasks !! i) as [t|]; [|naive_solver].
  rewrite negb_true_iff, orb_true_iff. naive_solver.
Qed.

Lemma discovers_ready current tasks graph local i :
  discovers current tasks graph local i = true <-> i ∉ current /\ ready tasks graph local i.
Proof.
  unfold discovers, ready. destruct (tasks !! i) as [t|]; [|naive_solver].
  rewrite !andb_true_iff, negb_true_iff, bool_decide_eq_false, ready_state_eq. naive_solver.
Qed.

Lemma ready_stays tasks graph local i : ready tasks graph local i -> stays tasks local i.
Proof.
  intros (t & Ht & Hs & He). exists t. rewrite Hs. split_and!; [done..|right].
  by eapply eligible_without_dependencies.
Qed.

Lemma ready_key_inj tasks i j : ready_key tasks i = ready_key tasks j -> i = j.
Proof. by intros [= _ ->]. Qed.

(** The issues found ready, in their order. *)
Definition ranked (current : list Z) (tasks : gmap Z Task) (graph : option G) (local : gmap Z string) : list Z :=
  sort_by (ready_key tasks) (List.filter (discovers current tasks graph local) (map_to_list tasks).*1).

Lemma elem_of_ranked current tasks graph local i :
  i ∈ ranked current tasks graph local <-> i ∉ current /\ ready tasks graph local i.
Proof.
  unfold ranked. rewrite sort_by_perm, list_elem_of_In, List.filter_In, <- list_elem_of_In, discovers_ready.
  split; [tauto|]. intros [Hi (t & Ht & Hr)]. split; [|split; [done|by exists t]].
  apply list_elem_of_fmap. exists (i, t). split; [done|]. by apply elem_of_map_to_list.
Qed.

Lemma NoDup_ranked current tasks graph local : NoDup (ranked current tasks graph local).
Proof. unfold ranked. rewrite sort_by_perm. apply NoDup_ListNoDup, List.NoDup_filter, NoDup_ListNoDup, NoDup_fst_map_to_list. Qed.

Lemma discover_ready_prefix current tasks max graph local :
  exists left_out, ranked current tasks graph local = discover_ready current tasks max graph local ++ left_out /\
    ((0 < max)%Z -> length (current ++ discover_ready current tasks max graph local) <= Nat.max (length current) (Z.to_nat max)) /\
    (left_out <> [] -> (0 < max)%Z /\ Z.to_nat max <= length (current ++ discover_ready current tasks max graph local)).
Proof.
  unfold discover_ready, remaining_capacity. fold (ranked current tasks graph local).
  set (l := ranked current tasks graph local). rewrite length_app. destruct (Z.ltb_spec 0 max).
  - destruct (Z.to_nat (Z.max 0 (max - Z.of_nat (length current)))) as [|n] eqn:E.
    + exists l. split; [done|]. cbn. split; [lia|]. intros _. split; [done|lia].
    + exists (drop (S n) l). rewrite take_drop. split; [done|]. rewrite length_take. split; [lia|].
      intros Hd. split; [done|]. assert (S n < length l) by (apply Nat.nle_gt; intros ?; by rewrite drop_ge in Hd). lia.
  - exists []. rewrite app_nil_r. split; [done|]. split; [lia|done].
Qed.

(** C14: a pass keeps and adds exactly what it should. Over any queue without
    duplicates and any answers, the issues kept are, in their order, those of the
    queue that the tracker still lists, that are not done, and that an agent is
    working on or may still work on; the issues added are ready, were not in the
    queue before, come by priority and number, respect the limit of the queue, and
    leave out a ready issue only when the queue is full and the ones added come
    first. The new queue has no duplicates; it is saved exactly when it differs from
    the old one, and when saving fails the old one stays. *)
Theorem maintain_queue_correct (config : QueueConfig) (a : Answers) (tasks : gmap Z Task)
    (Hnodup : NoDup (task_queue config)) :
  let graph := pass_graph config a tasks in
  let local := resolve_local_assessments a (assessment_ids config tasks) in
  exists kept added, let current := kept ++ added in
    (forall i, i ∈ kept <-> i ∈ task_queue config /\ stays tasks local i) /\ kept `sublist_of` task_queue config /\
    (forall i, i ∈ added -> i ∉ task_queue config /\ ready tasks graph local i) /\
    StronglySorted (key_le (ready_key tasks)) added /\
    ((0 < max_queue_size config)%Z -> length current <= Nat.max (length kept) (Z.to_nat (max_queue_size config))) /\
    (forall i, ready tasks graph local i -> i ∉ current ->
       (0 < max_queue_size config)%Z /\ Z.to_nat (max_queue_size config) <= length current /\
       forall j, j ∈ added -> key_le (ready_key tasks) j i) /\
    NoDup current /\
    (let '(r, saved) := maintain_listed config a tasks in
     (current = task_queue config /\ qm_current r = current /\ saved = None) \/
     (current <> task_queue config /\ a_save a = Ret tt /\ qm_current r = current /\ saved = Some current) \/
     (current <> task_queue config /\ (exists e, a_save a = Raise e) /\ qm_current r = task_queue config /\ saved = None)).
Proof.
  intros graph local. set (pruned := prune_done tasks (task_queue config)).
  set (kept := prune_unsuitable tasks local pruned).
  set (added := discover_ready kept tasks (max_queue_size config) graph local).
  destruct (discover_ready_prefix kept tasks (max_queue_size config) graph local) as (left_out & Hsplit & Hcap & Hfull).
  fold added in Hsplit, Hcap, Hfull.
  assert (forall i, i ∈ added -> i ∉ kept /\ ready tasks graph local i) as Hadded.
  { intros i Hi. apply (elem_of_ranked kept tasks graph local). rewrite Hsplit. set_solver. }
  assert (NoDup (added ++ left_out)) as Hnd by (rewrite <- Hsplit; apply NoDup_ranked).
  assert (StronglySorted (key_le (ready_key tasks)) (added ++ left_out)) as Hsorted.
  { rewrite <- Hsplit. apply sort_by_sorted. }
  assert (kept `sublist_of` task_queue config) as Hsub.
  { etrans; apply list_filter_sublist. }
  exists kept, added. cbv zeta. split_and!.
  - intros i. apply elem_of_kept.
  - exact Hsub.
  - intros i Hi. destruct (Hadded i Hi) as [Hk Hr]. split; [|done]. intros Hq. apply Hk, elem_of_kept. split; [done|].
    by apply ready_stays in Hr.
  - by apply StronglySorted_app_1_l in Hsorted.
  - exact Hcap.
  - intros i Hr Hi. assert (i ∈ left_out) as Hl.
    { assert (i ∈ added ++ left_out) as Hin by (rewrite <- Hsplit; apply elem_of_ranked; set_solver). set_solver. }
    destruct Hfull as [? ?]; [by intros ->; apply not_elem_of_nil in Hl|]. split_and!; try done.
    intros j Hj. eapply StronglySorted_app_1_elem_of; eauto.
  - apply NoDup_app. split_and!; [exact (sublist_NoDup _ _ Hnodup Hsub)|by intros i Hi [? _]%Hadded|by apply NoDup_app in Hnd as [? _]].
  - unfold maintain_listed. fold pruned graph local. fold kept. fold added.
    case_bool_decide as Hc; cbn [negb qm_current].
    { by left. }
    destruct (a_save a) as [[]|e]; cbn [qm_current]; right; [by left|right]. split_and!; [done|by exists e|done..].
Qed.

(** ** The records looked up are enough *)

(** A store that answers a query with the records it has. *)
Definition honest_store (records : gmap Z string) (ids : list Z) : outcome (gmap Z string) :=
  Ret (filter (fun kv => kv.1 ∈ ids) records).

Lemma elem_of_assessment_ids config tasks i t :
  tasks !! i = Some t -> Labels.local_assessment_applies (task_labels t) = true ->
  i ∈ recheck_ids tasks (prune_done tasks (task_queue config)) \/
  (i ∈ ready_candidate_ids (prune_done tasks (task_queue config)) tasks /\
   (remaining_capacity (max_queue_size config) (length (prune_done tasks (task_queue config))) <> Some 0 \/
    recheck_ids tasks (prune_done tasks (task_queue config)) <> [])) ->
  i ∈ assessment_ids config tasks.
Proof.
  intros Ht Ha Hi. unfold assessment_ids. rewrite elem_of_sorted_set, elem_of_list_to_set, list_elem_of_In, List.filter_In, Ht.
  split; [|done]. rewrite <- list_elem_of_In, elem_of_app. destruct Hi as [?|[Hi Hc]]; [by right|left].
  destruct Hc; [rewrite bool_decide_eq_false_2 by done|rewrite (bool_decide_eq_false_2 (recheck_ids _ _ = [])), orb_true_r by done];
    done.
Qed.

Lemma looked_up config a tasks records i t :
  a_assessments a = Some (honest_store records) -> i ∈ assessment_ids config tasks ->
  applicable_assessment (resolve_local_assessments a (assessment_ids config tasks)) i t = applicable_assessment records i t.
Proof.
  intros Ha Hi. unfold applicable_assessment, resolve_local_assessments. rewrite Ha. case_match; [|done].
  rewrite bool_decide_eq_false_2 by (intros E; rewrite E in Hi; by apply not_elem_of_nil in Hi).
  unfold honest_store. destruct (records !! i) as [r|] eqn:E.
  - by apply map_lookup_filter_Some.
  - apply map_lookup_filter_None. by left.
Qed.

Lemma stays_suitable_ext tasks l1 l2 i :
  (forall t, tasks !! i = Some t -> in_flight (Tracker.task_state t) = false ->
     applicable_assessment l1 i t = applicable_assessment l2 i t) ->
  stays_suitable tasks l1 i = stays_suitable tasks l2 i.
Proof.
  intros Hl. unfold stays_suitable. destruct (tasks !! i) as [t|] eqn:Et; [|done].
  destruct (in_flight (Tracker.task_state t)) eqn:Ef; [done|]. by rewrite (Hl t).
Qed.

Lemma list_filter_ext_in {A} (p q : A -> bool) (l : list A) :
  (forall x, x ∈ l -> p x = q x) -> List.filter p l = List.filter q l.
Proof.
  induction l as [|x l IH]; intros Hpq; [done|]. cbn. rewrite (Hpq x) by constructor.
  rewrite IH by (intros y Hy; apply Hpq; by constructor). done.
Qed.

(** the records looked up are enough. A pass asks the store only for some
    issues; with a store that answers each query with the records it has, the pass
    keeps and adds exactly the issues it would with all records at hand. *)
Theorem queue_lookups_suffice (config : QueueConfig) (a : Answers) (tasks : gmap Z Task) (records : gmap Z string)
    (Hstore : a_assessments a = Some (honest_store records)) :
  let local := resolve_local_assessments a (assessment_ids config tasks) in
  let pruned := prune_done tasks (task_queue config) in
  let graph := pass_graph config a tasks in
  prune_unsuitable tasks local pruned = prune_unsuitable tasks records pruned /\
  discover_ready (prune_unsuitable tasks local pruned) tasks (max_queue_size config) graph local =
  discover_ready (prune_unsuitable tasks records pruned) tasks (max_queue_size config) graph records.
Proof.
  intros local pruned graph.
  assert (prune_unsuitable tasks local pruned = prune_unsuitable tasks records pruned) as Hkept.
  { apply list_filter_ext_in. intros i Hi. apply stays_suitable_ext. intros t Ht Hf.
    destruct (Labels.local_assessment_applies (task_labels t)) eqn:Ea;
      [|by unfold applicable_assessment; rewrite Ea].
    apply looked_up; [done|]. apply (elem_of_assessment_ids _ _ i t); [done..|left].
    unfold recheck_ids. by rewrite list_elem_of_In, List.filter_In, <- list_elem_of_In, Ht, Hf. }
  split; [done|]. rewrite Hkept. set (kept := prune_unsuitable tasks records pruned).
  assert (remaining_capacity (max_queue_size config) (length kept) = Some 0 \/
    List.filter (discovers kept tasks graph local) (map_to_list tasks).*1 =
    List.filter (discovers kept tasks graph records) (map_to_list tasks).*1) as [Hz|He];
    [|unfold discover_ready; by rewrite Hz|unfold discover_ready; by rewrite He].
  destruct (decide (remaining_capacity (max_queue_size config) (length pruned) <> Some 0 \/ recheck_ids tasks pruned <> []))
    as [Hc|Hc].
  - right. apply list_filter_ext_in. intros i _. unfold discovers. destruct (tasks !! i) as [t|] eqn:Et; [|done].
    destruct (ready_state (Tracker.task_state t)) eqn:Er; [|done]. cbn [andb].
    assert (applicable_assessment local i t = applicable_assessment records i t) as ->; [|done].
    destruct (Labels.local_assessment_applies (task_labels t)) eqn:Ea;
      [|by unfold applicable_assessment; rewrite Ea].
    apply looked_up; [done|]. apply (elem_of_assessment_ids _ _ i t); [done..|].
    destruct (decide (i ∈ pruned)) as [Hp|Hp]; [left|right; split; [|done]].
    + unfold recheck_ids. rewrite list_elem_of_In, List.filter_In, <- list_elem_of_In, Et. split; [done|].
      by destruct (Tracker.task_state t).
    + unfold ready_candidate_ids. rewrite list_elem_of_In, List.filter_In, <- list_elem_of_In, Et, Er. fold pruned.
      rewrite bool_decide_eq_false_2 by done. split; [|done]. apply list_elem_of_fmap. exists (i, t).
      split; [done|]. by apply elem_of_map_to_list.
  - left. apply Decidable.not_or in Hc as [Hz Hr]. apply dec_stable in Hz. apply dec_stable in Hr.
    rewrite <- Hz. do 2 f_equal. unfold kept, prune_unsuitable, recheck_ids in *. clear -Hr.
    induction pruned as [|i l IH]; [done|]. cbn in Hr |- *. unfold stays_suitable at 1.
    destruct (tasks !! i) as [t|]; [|done]. destruct (in_flight (Tracker.task_state t)); [|done]. cbn. by rewrite IH.
Qed.

End queue.

(** ** The planner's changes *)


(** What the planner leaves of a queue. *)
Definition without (removals queue : list Z) : list Z :=
  List.filter (fun i => negb (bool_decide (i ∈ removals))) queue.

Lemma elem_of_without removals queue i : i ∈ without removals queue <-> i ∈ queue /\ i ∉ removals.
Proof. unfold without. by rewrite list_elem_of_In, List.filter_In, negb_true_iff, bool_decide_eq_false, <- list_elem_of_In. Qed.

Lemma NoDup_list_filter {A} (p : A -> bool) (l : list A) : NoDup l -> NoDup (List.filter p l).
Proof. intros Hl. exact (sublist_NoDup _ _ Hl (list_filter_sublist p l)). Qed.

(** The order the planner asked for, as far as it applies. *)
Definition wanted (removals reorder : list Z) : list Z := dedup [] (without removals reorder).

Lemma planner_reorder_Some removals reorder current :
  NoDup current -> (forall i, i ∈ wanted removals reorder -> i ∈ current) ->
  exists rest, planner_reorder removals reorder current = Some (wanted removals reorder ++ rest) /\
    rest = List.filter (fun i => negb (bool_decide (i ∈ wanted removals reorder))) current.
Proof.
  intros Hnd Hin. exists (List.filter (fun i => negb (bool_decide (i ∈ wanted removals reorder))) current).
  split; [|done]. unfold planner_reorder. fold (without removals reorder). fold (wanted removals reorder).
  assert (List.filter (fun i => bool_decide (i ∈ current)) (wanted removals reorder) = wanted removals reorder) as ->.
  { rewrite <- (list_filter_ext_in (fun _ => true)); [clear; by induction (wanted removals reorder) as [|? ? IH]; cbn; rewrite ?IH|].
    intros i Hi. symmetry. by apply bool_decide_eq_true, Hin. }
  case_bool_decide as He.
  - f_equal. assert (List.filter (fun i => negb (bool_decide (i ∈ wanted removals reorder))) current = []) as ->; [|by rewrite app_nil_r].
    rewrite (list_filter_ext_in _ (fun _ => false)); [clear; by induction current|]. intros i Hi.
    apply negb_false_iff, bool_decide_eq_true. apply (elem_of_list_to_set (C := gset Z)). rewrite He. by apply elem_of_list_to_set.
  - rewrite bool_decide_eq_true_2; [done|]. intros i. rewrite !elem_of_list_to_set. apply Hin.
Qed.

Lemma planner_reorder_None removals reorder current i :
  i ∈ wanted removals reorder -> i ∉ current -> planner_reorder removals reorder current = None.
Proof.
  intros Hi Hc. unfold planner_reorder. fold (without removals reorder). fold (wanted removals reorder).
  rewrite bool_decide_eq_false_2, bool_decide_eq_false_2; [done| |].
  - intros Hs. apply Hc, (elem_of_list_to_set (C := gset Z)), Hs. by apply elem_of_list_to_set.
  - intros He. apply Hc, (elem_of_list_to_set (C := gset Z)). rewrite <- He. by apply elem_of_list_to_set.
Qed.

(** the planner only prunes and reorders. Whatever it asks for, the queue it
    leaves is, once its removals are taken out, a permutation of the queue it was
    given: nothing is added or lost, and nothing is queued twice. Its order puts the
    issues it names first, in the order it names them, and the rest after them as
    before; an order that names an issue which is not in the queue is dropped as a
    whole. When saving fails the queue stays as it was, and what is saved is what is
    returned. *)
Theorem planner_never_adds (queue removals reorder : list Z) (save : outcome unit) (Hnodup : NoDup queue) :
  let '(current, saved) := apply_planner_queue_changes queue removals reorder save in
  (current ≡ₚ without removals queue \/ ((exists e, save = Raise e) /\ current = queue)) /\
  (save = Ret tt -> current =
     if decide (Forall (fun i => i ∈ queue) (wanted removals reorder))
     then wanted removals reorder ++ List.filter (fun i => negb (bool_decide (i ∈ wanted removals reorder))) (without removals queue)
     else without removals queue) /\
  (saved = None \/ saved = Some current).
Proof.
  set (kept := without removals queue). assert (NoDup kept) as Hk by exact (NoDup_list_filter _ _ Hnodup).
  set (expected := if decide (Forall (fun i => i ∈ queue) (wanted removals reorder)) then _ else kept).
  assert (expected ≡ₚ kept) as Hperm.
  { unfold expected. case_decide as Hw; [|done]. rewrite Forall_forall in Hw. apply NoDup_Permutation; [|done|].
    - apply NoDup_app. split_and!; [apply NoDup_dedup| |by apply NoDup_list_filter].
      intros i Hi. rewrite list_elem_of_In, List.filter_In, negb_true_iff, bool_decide_eq_false. tauto.
    - intros i. rewrite elem_of_app, (list_elem_of_In (List.filter _ _) i), List.filter_In, negb_true_iff, bool_decide_eq_false,
        <- list_elem_of_In. split; [|destruct (decide (i ∈ wanted removals reorder)); tauto].
      intros [Hi|[? _]]; [|done]. apply elem_of_without. split; [by apply Hw|].
      by apply elem_of_dedup in Hi as [[_ ?]%elem_of_without _]. }
  assert (planner_changes removals reorder queue = (expected, true) \/
    planner_changes removals reorder queue = (expected, negb (bool_decide (length kept = length queue)))) as Hp.
  { unfold planner_changes. fold (without removals queue). fold kept. case_bool_decide as Hr.
    - right. f_equal. unfold expected. subst reorder. cbn. case_decide; [|done].
      generalize kept. clear. intros l. induction l as [|i l IH]; [done|]. cbn. by rewrite <- IH.
    - destruct (decide (Forall (fun i => i ∈ queue) (wanted removals reorder))) as [Hw|Hw]; unfold expected.
      + left. destruct (planner_reorder_Some removals reorder kept) as (rest & -> & ->); [done| |done].
        rewrite Forall_forall in Hw. intros i Hi. apply elem_of_without. split; [by apply Hw|].
        by apply elem_of_dedup in Hi as [[_ ?]%elem_of_without _].
      + right. apply not_Forall_Exists, Exists_exists in Hw as (i & Hi & Hq); [|apply _].
        rewrite (planner_reorder_None _ _ _ i); [done|done|]. by intros [? _]%elem_of_without. }
  unfold apply_planner_queue_changes. destruct Hp as [-> | ->]; [|case_bool_decide as Hl; cbn [negb]];
    try (destruct save as [[]|e]; split_and!; eauto; done).
Qed.

(** ** Concrete passes *)

Module Examples.

Definition issue (id body : string) (state : TaskState.t) (labels : list string) : Task :=
  {| task_id := id; task_title := ""; task_body := body; Tracker.task_state := state; task_labels := labels;
     task_assignees := []; task_milestone := ""; task_priority := Priority.UNDEFINED |}.

(** An epic in the queue; a researched issue that depends on an open one; a
    researched issue without dependencies. *)
Definition tasks : list Task :=
  [issue "1" "" TaskState.TRIAGED ["type: epic"%string];
   issue "2" "## Dependencies
- #3" TaskState.RESEARCHED [];
   issue "3" "" TaskState.TRIAGED [];
   issue "4" "" TaskState.RESEARCHED []].

#[local] Instance set_order : SetOrder Z := elements_order.

Definition config (limit : Z) : QueueConfig :=
  {| task_queue := [1%Z]; max_queue_size := limit; respect_dependencies := true; network_guard := None |}.

Definition answers : Answers (G := DependencyGraph) :=
  {| a_network := Ret None; a_rate_limit := Ret None; a_tasks := Ret tasks; a_graph := make_graph tasks None;
     a_assessments := Some (honest_store ∅); a_save := Ret tt |}.

(** A full queue loses its epic, and the freed slot goes to an issue that waits for
    an open dependency, although dependencies are respected; with a free slot from
    the start the same issue is left out. *)
Theorem freed_slot_ignores_dependencies :
  qm_current (maintain_queue (config 1) answers).1 = [2%Z] /\
  qm_current (maintain_queue (config 2) answers).1 = [4%Z] /\
  unsatisfied_dependencies 2 (match a_graph answers with Ret g => Some g | Raise _ => None end) = Some [3%Z].
Proof. split_and!; vm_compute; reflexivity. Qed.

Lemma maintain_queue_correct_witness : exists kept added : list Z,
  NoDup (task_queue (config 2)) /\ (forall i, i ∈ added -> i ∉ [1%Z]) /\
  qm_current (maintain_listed (config 2) answers (index_tasks tasks)).1 = [4%Z].
Proof.
  assert (NoDup (task_queue (config 2))) as Hnd by (repeat constructor; apply not_elem_of_nil).
  destruct (maintain_queue_correct (config 2) answers (index_tasks tasks) Hnd) as (kept & added & _ & _ & Hadded & _).
  exists kept, added. split; [exact Hnd|]. split; [|vm_compute; reflexivity].
  intros i Hi. exact (proj1 (Hadded i Hi)).
Defined.

Lemma queue_lookups_suffice_witness :
  prune_unsuitable (G := DependencyGraph) (index_tasks tasks)
    (resolve_local_assessments answers (assessment_ids (config 2) (index_tasks tasks))) [1%Z] = [].
Proof.
  destruct (queue_lookups_suffice (config 2) answers (index_tasks tasks) ∅ eq_refl) as [Hkept _].
  transitivity (prune_unsuitable (G := DependencyGraph) (index_tasks tasks) ∅ [1%Z]); [exact Hkept|vm_compute; reflexivity].
Defined.

Lemma planner_never_adds_witness : NoDup [1; 2; 3]%Z /\
  exists saved, apply_planner_queue_changes [1; 2; 3]%Z [2%Z] [3; 1; 3]%Z (Ret tt) = ([3; 1]%Z, saved) /\
    [3; 1]%Z ≡ₚ without [2%Z] [1; 2; 3]%Z.
Proof.
  assert (NoDup [1; 2; 3]%Z) as Hnd by (apply (bool_decide_unpack _); vm_compute; exact I).
  split; [exact Hnd|]. exists (Some [3; 1]%Z). split; [vm_compute; reflexivity|].
  pose proof (planner_never_adds [1; 2; 3]%Z [2%Z] [3; 1; 3]%Z (Ret tt) Hnd) as Hp.
  assert (apply_planner_queue_changes [1; 2; 3]%Z [2%Z] [3; 1; 3]%Z (Ret tt) = ([3; 1]%Z, Some [3; 1]%Z)) as E
    by (vm_compute; reflexivity).
  rewrite E in Hp. destruct Hp as [[Hp|[[e He] _]] _]; [exact Hp|discriminate He].
Defined.

End Examples.
