(* ===== verification/Throttle.v ===== *)
(** * Throttle: the queue that holds pull requests back

    sova/supervisor/pr_throttle.py (the queue, its background pass and its
    recovery) and the quota of sova/supervisor/coderabbit_quota.py. The database
    is a value that each statement or transaction maps to the next one; times are
    whole seconds. The processes that share a database (the steps that enqueue and
    cancel, the throttle loops) interleave between statements: [perform] is one
    action of one of them. *)

From stdpp Require Import base gmap strings list sorting pretty.
From S2P Require Import Prelude State.

Local Open Scope string_scope.
Local Open Scope sova_scope.

(** [class PRQueueStatus] *)
Inductive PRQueueStatus := PENDING | CREATING | CREATED | FAILED | CANCELLED.

#[export] Instance PRQueueStatus_eq_dec : EqDecision PRQueueStatus.
Proof. solve_decision. Defined.

(** [class PRCreationQueue]: the columns that steer the queue. *)
Record Entry := {
  e_id : Z;
  e_task_run_id : Z;
  e_status : PRQueueStatus;
  e_enqueued_at : Z;
  e_project_slug : string;
  e_error_message : option string;
  e_pr_number : option Z;
}.

Definition with_status (status : PRQueueStatus) (error : option string) (pr : option Z) (e : Entry) : Entry :=
  {| e_id := e_id e; e_task_run_id := e_task_run_id e; e_status := status; e_enqueued_at := e_enqueued_at e;
     e_project_slug := e_project_slug e;
     e_error_message := match error with Some m => Some m | None => e_error_message e end;
     e_pr_number := match pr with Some n => Some n | None => e_pr_number e end |}.

(** [class CodeRabbitEvent] *)
Record CodeRabbitEvent := {
  ev_event_type : string;
  ev_review_id : string;
  ev_recorded_at : Z;
  ev_project_slug : string;
}.

(** The tables: the queue by id, the statuses of the task runs, the events. *)
Record DB := {
  queue : gmap Z Entry;
  next_id : Z;
  runs : gmap Z string;
  events : list CodeRabbitEvent;
}.

Definition with_queue (q : gmap Z Entry) (db : DB) : DB :=
  {| queue := q; next_id := next_id db; runs := runs db; events := events db |}.

(** [UPDATE ... WHERE]: the rows for which [p] holds are set by [f]. *)
Definition update_where (p : Entry -> bool) (f : Entry -> Entry) (db : DB) : DB :=
  with_queue ((fun e => if p e then f e else e) <$> queue db) db.

Definition count_where (p : Entry -> bool) (db : DB) : nat :=
  length (List.filter p (map_to_list (queue db)).*2).

Definition is_status (status : PRQueueStatus) (e : Entry) : bool := bool_decide (e_status e = status).

(** ** Steps of a task run *)

(** [enqueue] *)
Definition enqueue (task_run_id now : Z) (project_slug : string) (db : DB) : Z * DB :=
  let id := next_id db in
  (id, {| queue := <[id := {| e_id := id; e_task_run_id := task_run_id; e_status := PENDING; e_enqueued_at := now;
                              e_project_slug := project_slug; e_error_message := None; e_pr_number := None |}]> (queue db);
          next_id := id + 1; runs := runs db; events := events db |}).

(** [dequeue]: whether an entry was cancelled. *)
Definition dequeue (task_run_id : Z) (reason : option string) (db : DB) : bool * DB :=
  let p e := bool_decide (e_task_run_id e = task_run_id) && is_status PENDING e in
  (negb (bool_decide (count_where p db = 0%nat)), update_where p (with_status CANCELLED reason None) db).

(** ** Quota *)

(** The settings of [CodeRabbitQuotaConfig] once its defaults are derived. *)
Record QuotaConfig := { q_enabled : bool; q_reviews_per_hour : nat; q_window_minutes : Z }.

(** [class QuotaStatus]; the wait in seconds, which the code divides by 60. *)
Record Quota := { reviews_in_window : nat; can_create_pr : bool; next_available : option Z }.

(** [_get_review_events_in_window] *)
Definition review_events_in_window (window_start : Z) (project_slug : string) (db : DB) : list CodeRabbitEvent :=
  List.filter (fun ev => bool_decide (ev_event_type ev = "review") && Z.ltb window_start (ev_recorded_at ev)
                         && bool_decide (ev_project_slug ev = project_slug)) (events db).

(** [min(e.recorded_at for e in events)] *)
Definition oldest (evs : list CodeRabbitEvent) : option Z :=
  match evs with
  | [] => None
  | ev :: evs => Some (foldl (fun t ev => Z.min t (ev_recorded_at ev)) (ev_recorded_at ev) evs)
  end.

(** [get_quota_status] *)
Definition get_quota_status (config : QuotaConfig) (now : Z) (project_slug : string) (db : DB) : Quota :=
  if negb (q_enabled config) then {| reviews_in_window := 0; can_create_pr := true; next_available := None |}
  else
    let evs := review_events_in_window (now - 60 * q_window_minutes config) project_slug db in
    let count := length evs in
    if bool_decide (q_reviews_per_hour config = 0%nat)
    then {| reviews_in_window := count; can_create_pr := true; next_available := None |}
    else
      let can_create := (count <? q_reviews_per_hour config)%nat in
      {| reviews_in_window := count; can_create_pr := can_create;
         next_available := if can_create then None
                           else (fun t => Z.max 0 (t + 60 * q_window_minutes config - now)) <$> oldest evs |}.

(** ** The background pass *)

Definition MAX_QUEUE_AGE_HOURS : Z := 2.
Definition RUN_ENDED_REASON : string := "Cancelled: the run ended before the PR was created".

(** The run is in [_ended_run_ids]. *)
Definition run_ended (db : DB) (run : Z) : bool :=
  match runs db !! run with Some status => bool_decide (status ∈ TaskStatus.TASK_RUN_TERMINAL) | None => false end.

(** The two sweeps of [process_queue]. *)
Definition cancel_stale (now : Z) (project_slug : string) (db : DB) : DB :=
  update_where (fun e => is_status PENDING e && Z.ltb (e_enqueued_at e) (now - 3600 * MAX_QUEUE_AGE_HOURS)
                         && bool_decide (e_project_slug e = project_slug))
    (with_status CANCELLED (Some "Cancelled: exceeded max queue age") None) db.

Definition cancel_ended (project_slug : string) (db : DB) : DB :=
  update_where (fun e => is_status PENDING e && bool_decide (e_project_slug e = project_slug)
                         && run_ended db (e_task_run_id e))
    (with_status CANCELLED (Some RUN_ENDED_REASON) None) db.

Definition sweep (now : Z) (project_slug : string) (db : DB) : DB := cancel_ended project_slug (cancel_stale now project_slug db).

(** The oldest pending entry; of two of the same instant the one enqueued first. *)
Definition pending_of (project_slug : string) (db : DB) : list Entry :=
  List.filter (fun e => is_status PENDING e && bool_decide (e_project_slug e = project_slug)) (map_to_list (queue db)).*2.

Definition select_pending (project_slug : string) (db : DB) : option Entry :=
  head (sort_by (fun e => [e_enqueued_at e; e_id e]) (pending_of project_slug db)).

(** The conditional UPDATE to [CREATING]: [None] when no row matched. *)
Definition flip (id : Z) (db : DB) : option DB :=
  match queue db !! id with
  | Some e => if is_status PENDING e && negb (run_ended db (e_task_run_id e))
              then Some (with_queue (<[id := with_status CREATING None None e]> (queue db)) db)
              else None
  | None => None
  end.

(** The writes after [create_pr] failed, and after it succeeded. *)
Definition finish_failed (id : Z) (error : string) (db : DB) : DB :=
  with_queue (alter (with_status FAILED (Some error) None) id (queue db)) db.

Definition finish_created (id now pr : Z) (project_slug : string) (db : DB) : DB :=
  {| queue := alter (with_status CREATED None (Some pr)) id (queue db); next_id := next_id db; runs := runs db;
     events := (events db ++ [{| ev_event_type := "pr_created"; ev_review_id := "pr-" ++ pretty pr ++ "-created";
                                 ev_recorded_at := now; ev_project_slug := project_slug |}])%list |}.

(** What [create_pr] answered, written down; an exception that is neither a
    RuntimeError nor an OSError leaves the entry as it is. *)
Definition finish (id now : Z) (project_slug : string) (answer : outcome Z) (db : DB) : outcome nat * DB :=
  match answer with
  | Ret pr => (Ret 1%nat, finish_created id now pr project_slug db)
  | Raise (RuntimeError m) => (Ret 0%nat, finish_failed id m db)
  | Raise (OSError m) => (Ret 0%nat, finish_failed id m db)
  | Raise e => (Raise e, db)
  end.

(** [process_queue] when nothing comes between its statements. *)
Definition process_queue (config : QuotaConfig) (now : Z) (project_slug : string) (answer : outcome Z) (db : DB)
    : outcome nat * DB :=
  let db := sweep now project_slug db in
  if negb (can_create_pr (get_quota_status config now project_slug db)) then (Ret 0%nat, db)
  else match select_pending project_slug db with
       | None => (Ret 0%nat, db)
       | Some entry => match flip (e_id entry) db with
                       | None => (Ret 0%nat, db)
                       | Some db => finish (e_id entry) now project_slug answer db
                       end
       end.

(** [recover_creating_entries]: the number of entries reset to pending. *)
Definition recover_creating_entries (db : DB) : nat * DB :=
  let db := update_where (fun e => is_status CREATING e && run_ended db (e_task_run_id e))
              (with_status CANCELLED (Some RUN_ENDED_REASON) None) db in
  (count_where (is_status CREATING) db, update_where (is_status CREATING) (with_status PENDING None None) db).

(** ** Processes that interleave *)

(** Where a throttle loop is in its pass. *)
Inductive pc := Idle | Selected (id : Z) | Creating (id : Z).

#[export] Instance pc_eq_dec : EqDecision pc.
Proof. solve_decision. Defined.

(** The database, the loops by process, and the entries [create_pr] was called for,
    the latest first. *)
Record Sys := { db : DB; procs : gmap nat pc; calls : list Z }.

Definition pc_of (s : Sys) (p : nat) : pc := default Idle (procs s !! p).

Definition is_creating (c : pc) : bool := match c with Creating _ => true | _ => false end.

(** An action of the system. [Begin], [Flip] and [Finish] are the parts of a pass;
    [Crash] ends a process wherever it is. *)
Inductive action :=
  | Enqueue (task_run_id now : Z) (project_slug : string)
  | Dequeue (task_run_id : Z) (reason : option string)
  | SetRun (task_run_id : Z) (status : string)
  | Sync (event : CodeRabbitEvent)
  | Begin (p : nat) (config : QuotaConfig) (now : Z) (project_slug : string)
  | Flip (p : nat)
  | Finish (p : nat) (now : Z) (project_slug : string) (answer : outcome Z)
  | Crash (p : nat)
  | Recover.

Definition set_db (d : DB) (s : Sys) : Sys := {| db := d; procs := procs s; calls := calls s |}.
Definition set_pc (p : nat) (c : pc) (d : DB) (s : Sys) : Sys := {| db := d; procs := <[p := c]> (procs s); calls := calls s |}.

(** The action, [None] where it cannot happen: a loop is one pass at a time, and the
    recovery at the start of a loop is skipped while another loop is in a pass. *)
Definition perform (a : action) (s : Sys) : option Sys :=
  match a with
  | Enqueue run now slug => Some (set_db (enqueue run now slug (db s)).2 s)
  | Dequeue run reason => Some (set_db (dequeue run reason (db s)).2 s)
  | SetRun run status =>
      Some (set_db {| queue := queue (db s); next_id := next_id (db s); runs := <[run := status]> (runs (db s));
                      events := events (db s) |} s)
  | Sync event =>
      Some (set_db {| queue := queue (db s); next_id := next_id (db s); runs := runs (db s);
                      events := (events (db s) ++ [event])%list |} s)
  | Begin p config now slug =>
      if decide (pc_of s p = Idle) then
        let d := sweep now slug (db s) in
        if negb (can_create_pr (get_quota_status config now slug d)) then Some (set_db d s)
        else match select_pending slug d with
             | None => Some (set_db d s)
             | Some entry => Some (set_pc p (Selected (e_id entry)) d s)
             end
      else None
  | Flip p =>
      match pc_of s p with
      | Selected id =>
          match flip id (db s) with
          | Some d => Some {| db := d; procs := <[p := Creating id]> (procs s); calls := id :: calls s |}
          | None => Some (set_pc p Idle (db s) s)
          end
      | _ => None
      end
  | Finish p now slug answer =>
      match pc_of s p with
      | Creating id => Some (set_pc p Idle (finish id now slug answer (db s)).2 s)
      | _ => None
      end
  | Crash p => Some (set_pc p Idle (db s) s)
  | Recover =>
      if existsb is_creating (map_to_list (procs s)).*2 then None
      else Some (set_db (recover_creating_entries (db s)).2 s)
  end.

Fixpoint exec (actions : list action) (s : Sys) : option Sys :=
  match actions with
  | [] => Some s
  | a :: actions => match perform a s with Some s => exec actions s | None => None end
  end.

(** A new database. *)
Definition start : Sys :=
  {| db := {| queue := ∅; next_id := 1; runs := ∅; events := [] |}; procs := ∅; calls := [] |}.

Local Close Scope string_scope.

(** ** Invariants *)

Definition status_of (d : DB) (id : Z) : option PRQueueStatus := e_status <$> queue d !! id.

Definition final (s : PRQueueStatus) : bool := match s with CREATED | FAILED | CANCELLED => true | _ => false end.

(** A loop that creates a pull request holds its entry, alone. *)
Record consistent (s : Sys) : Prop := {
  held : forall p id, pc_of s p = Creating id -> status_of (db s) id = Some CREATING;
  alone : forall p q id, pc_of s p = Creating id -> pc_of s q = Creating id -> p = q;
  fresh : forall id, is_Some (queue (db s) !! id) -> (id < next_id (db s))%Z;
  keyed : forall id e, queue (db s) !! id = Some e -> e_id e = id;
}.

Lemma status_update_where p f d id :
  status_of (update_where p f d) id =
  (fun e => if p e then e_status (f e) else e_status e) <$> queue d !! id.
Proof.
  unfold status_of, update_where, with_queue. cbn. rewrite lookup_fmap. destruct (queue d !! id) as [e|]; [|done].
  cbn. by destruct (p e).
Qed.

(** An UPDATE that only touches pending rows leaves every other status. *)
Lemma status_update_pending p f d id s :
  (forall e, p e = true -> e_status e = PENDING) -> s <> PENDING ->
  status_of d id = Some s -> status_of (update_where p f d) id = Some s.
Proof.
  intros Hp Hs. rewrite status_update_where. unfold status_of. destruct (queue d !! id) as [e|]; [|done]. cbn.
  intros [= <-]. destruct (p e) eqn:E; [|done]. by apply Hp in E.
Qed.

Lemma sweep_keeps now slug d id s :
  s <> PENDING -> status_of d id = Some s -> status_of (sweep now slug d) id = Some s.
Proof.
  intros Hs Hd. unfold sweep, cancel_ended, cancel_stale.
  apply status_update_pending; [|done|apply status_update_pending; [|done..]];
    unfold is_status; intros e; rewrite ?andb_true_iff, ?bool_decide_eq_true; tauto.
Qed.

Lemma update_where_domain p f d id : is_Some (queue (update_where p f d) !! id) <-> is_Some (queue d !! id).
Proof. unfold update_where. cbn. rewrite lookup_fmap. by rewrite fmap_is_Some. Qed.

Lemma lookup_update_where p f d id e :
  queue (update_where p f d) !! id = Some e <->
  exists e', queue d !! id = Some e' /\ e = if p e' then f e' else e'.
Proof. unfold update_where. cbn. rewrite lookup_fmap_Some. naive_solver. Qed.

(** ** The state machine of an entry *)

(** How an action may change the status of the entry [id]. *)
Definition moves (a : action) (s : Sys) (id : Z) (x y : option PRQueueStatus) : Prop :=
  match a with
  | Enqueue _ _ _ => x = None /\ y = Some PENDING
  | Dequeue _ _ | Begin _ _ _ _ => x = Some PENDING /\ y = Some CANCELLED
  | Flip p => pc_of s p = Selected id /\ x = Some PENDING /\ y = Some CREATING
  | Finish p _ _ answer =>
      pc_of s p = Creating id /\ x = Some CREATING /\
      y = Some (match answer with Ret _ => CREATED | Raise _ => FAILED end)
  | Recover => (forall p, is_creating (pc_of s p) = false) /\ x = Some CREATING /\ (y = Some PENDING \/ y = Some CANCELLED)
  | SetRun _ _ | Sync _ | Crash _ => False
  end.

Lemma update_pending_moves p f d id :
  (forall e, p e = true -> e_status e = PENDING) -> (forall e, e_status (f e) = CANCELLED) ->
  status_of (update_where p f d) id = status_of d id \/
  (status_of d id = Some PENDING /\ status_of (update_where p f d) id = Some CANCELLED).
Proof.
  intros Hp Hf. rewrite status_update_where. unfold status_of. destruct (queue d !! id) as [e|]; [|by left]. cbn.
  destruct (p e) eqn:E; [right|by left]. by rewrite (Hp e E), Hf.
Qed.

Lemma sweep_moves now slug d id :
  status_of (sweep now slug d) id = status_of d id \/
  (status_of d id = Some PENDING /\ status_of (sweep now slug d) id = Some CANCELLED).
Proof.
  unfold sweep, cancel_ended.
  destruct (update_pending_moves (fun e => is_status PENDING e && bool_decide (e_project_slug e = slug)
      && run_ended (cancel_stale now slug d) (e_task_run_id e)) (with_status CANCELLED (Some RUN_ENDED_REASON) None)
      (cancel_stale now slug d) id) as [-> | [H1 ->]];
    [intros e; unfold is_status; rewrite !andb_true_iff, bool_decide_eq_true; tauto|done| |];
  destruct (update_pending_moves (fun e => is_status PENDING e && Z.ltb (e_enqueued_at e) (now - 3600 * MAX_QUEUE_AGE_HOURS)
      && bool_decide (e_project_slug e = slug)) (with_status CANCELLED (Some "Cancelled: exceeded max queue age"%string) None) d id)
      as [E | [E1 E2]]; try (intros e; unfold is_status; rewrite !andb_true_iff, bool_decide_eq_true; tauto); try done;
    unfold cancel_stale in *; [by left|by right|right; by rewrite <- E|congruence].
Qed.

Lemma flip_Some id d d' :
  flip id d = Some d' ->
  status_of d id = Some PENDING /\
  (forall e, queue d !! id = Some e -> run_ended d (e_task_run_id e) = false) /\
  (forall j, status_of d' j = if decide (j = id) then Some CREATING else status_of d j) /\
  (forall j, is_Some (queue d' !! j) <-> is_Some (queue d !! j)) /\ next_id d' = next_id d /\
  (forall j e', queue d' !! j = Some e' -> exists e, queue d !! j = Some e /\ e_id e' = e_id e).
Proof.
  unfold flip. destruct (queue d !! id) as [e|] eqn:E; [|done].
  destruct (is_status PENDING e && negb (run_ended d (e_task_run_id e))) eqn:Ep; [|done]. intros [= <-].
  apply andb_true_iff in Ep as [Hs%bool_decide_eq_true Hr%negb_true_iff]. unfold status_of. rewrite E. cbn.
  split_and!; [by rewrite Hs|by intros ? [= <-]| | |done|].
  - intros j. case_decide as Hj; [subst j; by rewrite lookup_insert_eq|by rewrite lookup_insert_ne].
  - intros j. destruct (decide (j = id)) as [->|Hj]; [rewrite lookup_insert_eq, E; by split; eexists|by rewrite lookup_insert_ne].
  - intros j e'. destruct (decide (j = id)) as [->|Hj]; [rewrite lookup_insert_eq; intros [= <-]; by exists e|].
    rewrite lookup_insert_ne by done. intros ?. by exists e'.
Qed.

(** What an UPDATE by key does to the other columns of the table. *)
Lemma finish_status id now slug answer d j :
  status_of (finish id now slug answer d).2 j =
  if decide (j = id) then
    match answer with
    | Ret _ => (fun _ => CREATED) <$> queue d !! id
    | Raise (RuntimeError _) | Raise (OSError _) => (fun _ => FAILED) <$> queue d !! id
    | Raise _ => status_of d id
    end
  else status_of d j.
Proof.
  unfold status_of, finish. case_decide as Hj; [subst j|];
    destruct answer as [pr|[]]; cbn; rewrite ?lookup_alter_eq, ?lookup_alter_ne by done; try done; by destruct (queue d !! id).
Qed.

(** An operation that adds no row and keeps the ids. *)
Definition same_rows (d d' : DB) : Prop :=
  next_id d' = next_id d /\
  forall j e', queue d' !! j = Some e' -> exists e, queue d !! j = Some e /\ e_id e' = e_id e.

Lemma same_rows_refl d : same_rows d d.
Proof. split; [done|]. intros j e' He. by exists e'. Qed.

Lemma same_rows_trans d1 d2 d3 : same_rows d1 d2 -> same_rows d2 d3 -> same_rows d1 d3.
Proof.
  intros [E1 H1] [E2 H2]. split; [congruence|]. intros j e3 (e2 & H & ?)%H2. apply H1 in H as (e1 & ? & ?).
  exists e1. split; [done|congruence].
Qed.

Lemma same_rows_update p f d : (forall e, e_id (f e) = e_id e) -> same_rows d (update_where p f d).
Proof.
  intros Hf. split; [done|]. intros j e' (e & He & ->)%lookup_update_where. exists e. split; [done|].
  destruct (p e); [apply Hf|done].
Qed.

Lemma same_rows_sweep now slug d : same_rows d (sweep now slug d).
Proof. eapply same_rows_trans; by apply same_rows_update. Qed.

Lemma same_rows_recover d : same_rows d (recover_creating_entries d).2.
Proof. eapply same_rows_trans; by apply same_rows_update. Qed.

Lemma same_rows_flip id d d' : flip id d = Some d' -> same_rows d d'.
Proof. intros (_ & _ & _ & _ & En & He)%flip_Some. by split. Qed.

Lemma same_rows_finish id now slug answer d : same_rows d (finish id now slug answer d).2.
Proof.
  assert (forall f, (forall e, e_id (f e) = e_id e) -> forall j e', alter f id (queue d) !! j = Some e' ->
    exists e, queue d !! j = Some e /\ e_id e' = e_id e) as Halter.
  { intros f Hf j e'. destruct (decide (j = id)) as [->|Hj].
    - rewrite lookup_alter_eq, fmap_Some. intros (e & He & ->). exists e. by rewrite Hf.
    - rewrite lookup_alter_ne by done. intros He. by exists e'. }
  unfold finish. destruct answer as [pr|[]]; split; try done; cbn; try by apply Halter.
  all: intros j e' He; by exists e'.
Qed.

(** The actions that leave the loops and the calls as they are. *)
Lemma begin_cases p config now slug s s' :
  perform (Begin p config now slug) s = Some s' ->
  pc_of s p = Idle /\ db s' = sweep now slug (db s) /\ calls s' = calls s /\
  forall q, pc_of s' q = pc_of s q \/ (q = p /\ is_creating (pc_of s' q) = false).
Proof.
  cbn. case_decide as Hi; [|done]. intros E. split; [done|].
  destruct (negb _); [injection E as <-; split_and!; try done; by left|].
  destruct (select_pending _ _) as [e|]; injection E as <-; split_and!; try done; [|by left].
  intros q. unfold pc_of. cbn. destruct (decide (q = p)) as [->|Hq]; [right; by rewrite lookup_insert_eq|left].
  by rewrite lookup_insert_ne.
Qed.

Lemma pc_of_insert p c d cs s q :
  pc_of {| db := d; procs := <[p := c]> (procs s); calls := cs |} q = if decide (q = p) then c else pc_of s q.
Proof. unfold pc_of. cbn. case_decide as Hq; [subst q; by rewrite lookup_insert_eq|by rewrite lookup_insert_ne]. Qed.

Lemma recover_guard s : existsb is_creating (map_to_list (procs s)).*2 = false -> forall p, is_creating (pc_of s p) = false.
Proof.
  intros Hn p. unfold pc_of. destruct (procs s !! p) as [c|] eqn:E; [|done]. cbn.
  destruct (is_creating c) eqn:Ec; [|done]. rewrite <- Hn. symmetry. apply existsb_exists. exists c. split; [|done].
  apply list_elem_of_In, list_elem_of_fmap. exists (p, c). split; [done|]. by apply elem_of_map_to_list.
Qed.

Lemma recover_moves d id :
  status_of (recover_creating_entries d).2 id = status_of d id \/
  (status_of d id = Some CREATING /\
   (status_of (recover_creating_entries d).2 id = Some PENDING \/ status_of (recover_creating_entries d).2 id = Some CANCELLED)).
Proof.
  unfold recover_creating_entries. cbn [snd]. rewrite status_update_where. unfold status_of.
  unfold update_where, with_queue. cbn [queue]. rewrite lookup_fmap.
  destruct (queue d !! id) as [e|]; [|by left]. cbn. unfold is_status.
  destruct (bool_decide (e_status e = CREATING)) eqn:Es; cbn [andb]; [|left; by rewrite Es].
  apply bool_decide_eq_true in Es. rewrite Es. right. split; [done|].
  destruct (run_ended d (e_task_run_id e)); [by right|]. rewrite bool_decide_eq_true_2 by done. by left.
Qed.

Lemma perform_moves a s s' id :
  consistent s -> perform a s = Some s' ->
  status_of (db s') id = status_of (db s) id \/ moves a s id (status_of (db s) id) (status_of (db s') id).
Proof.
  intros Hc. destruct a as [run now slug|run reason|run status|ev|p config now slug|p|p now slug answer|p| ]; cbn [perform].
  - intros [= <-]. cbn. unfold status_of. cbn. destruct (decide (id = next_id (db s))) as [->|Hj].
    + right. rewrite lookup_insert_eq. split; [|done]. destruct (queue (db s) !! next_id (db s)) eqn:E; [|done].
      pose proof (fresh s Hc (next_id (db s)) (mk_is_Some _ _ E)). lia.
    + left. by rewrite lookup_insert_ne.
  - intros [= <-]. cbn [db set_db dequeue snd moves]. apply update_pending_moves; [|done].
    intros e. unfold is_status. rewrite andb_true_iff, !bool_decide_eq_true. tauto.
  - intros [= <-]. by left.
  - intros [= <-]. by left.
  - intros (_ & -> & _)%begin_cases. cbn [moves]. apply sweep_moves.
  - destruct (pc_of s p) as [|j|j] eqn:Ep; try done. destruct (flip j (db s)) as [d|] eqn:Ef; intros [= <-]; [|by left].
    apply flip_Some in Ef as (Hs & _ & Hd & _). cbn [db moves]. rewrite Hd.
    case_decide as Hj; [subst j; right; by split_and!|by left].
  - destruct (pc_of s p) as [|j|j] eqn:Ep; try done. intros [= <-]. cbn [db set_pc moves]. rewrite finish_status.
    case_decide as Hj; [subst j|by left]. pose proof (held s Hc p id Ep) as Hh. unfold status_of in Hh |- *.
    destruct (queue (db s) !! id) as [e|]; [|done]. cbn in *.
    destruct answer as [pr|[]]; try (by left); right; split_and!; done.
  - intros [= <-]. by left.
  - destruct (existsb _ _) eqn:Ex; [done|]. intros [= <-]. cbn [db set_db moves].
    destruct (recover_moves (db s) id) as [?|[? ?]]; [by left|right]. split_and!; [by apply recover_guard|done|done].
Qed.

Lemma perform_procs a s s' :
  perform a s = Some s' ->
  forall q id, pc_of s' q = Creating id ->
    (pc_of s q = Creating id /\ (forall now slug answer, a <> Finish q now slug answer)) \/
    (a = Flip q /\ pc_of s q = Selected id /\ is_Some (flip id (db s))).
Proof.
  intros Ha q id. destruct a as [run now slug|run reason|run status|ev|p config now slug|p|p now slug answer|p| ].
  5: { apply begin_cases in Ha as (_ & _ & _ & Hq). destruct (Hq q) as [-> | [_ Hn]]; [by left|].
       intros E. by rewrite E in Hn. }
  all: cbn in Ha; try (injection Ha as <-; by left).
  - destruct (pc_of s p) as [|j|j] eqn:Ep; try done. destruct (flip j (db s)) as [d|] eqn:Ef; injection Ha as <-.
    + rewrite pc_of_insert. case_decide as Hq; [subst q; intros [= ->]; right; split_and!; eauto|by left].
    + unfold set_pc. rewrite pc_of_insert. case_decide; [done|by left].
  - destruct (pc_of s p) as [|j|j] eqn:Ep; try done. injection Ha as <-. unfold set_pc. rewrite pc_of_insert.
    case_decide as Hq; [done|]. left. split; [done|]. by intros ? ? ? [= -> _ _ _].
  - injection Ha as <-. unfold set_pc. rewrite pc_of_insert. case_decide; [done|by left].
  - destruct (existsb _ _); [done|]. injection Ha as <-. by left.
Qed.

Lemma perform_rows a s s' :
  perform a s = Some s' ->
  same_rows (db s) (db s') \/ exists run now slug, a = Enqueue run now slug /\ db s' = (enqueue run now slug (db s)).2.
Proof.
  destruct a as [run now slug|run reason|run status|ev|p config now slug|p|p now slug answer|p| ].
  5: { intros (_ & -> & _)%begin_cases. left. apply same_rows_sweep. }
  all: cbn [perform].
  - intros [= <-]. right. by exists run, now, slug.
  - intros [= <-]. left. by apply same_rows_update.
  - intros [= <-]. left. split; [done|]. intros j e He. by exists e.
  - intros [= <-]. left. split; [done|]. intros j e He. by exists e.
  - destruct (pc_of s p); try done. destruct (flip _ _) eqn:Ef; intros [= <-]; left; [by eapply same_rows_flip|apply same_rows_refl].
  - destruct (pc_of s p); try done. intros [= <-]. left. apply same_rows_finish.
  - intros [= <-]. left. apply same_rows_refl.
  - destruct (existsb _ _); [done|]. intros [= <-]. left. apply same_rows_recover.
Qed.

Lemma perform_consistent a s s' : consistent s -> perform a s = Some s' -> consistent s'.
Proof.
  intros Hc Ha. pose proof (perform_moves a s s') as Hm. pose proof (perform_procs a s s' Ha) as Hp.
  pose proof (perform_rows a s s' Ha) as Hr. split.
  - intros q id Hq. specialize (Hm id Hc Ha). destruct (Hp q id Hq) as [[Hq' Hnf]|(-> & Hsel & d & Hf)].
    + pose proof (held s Hc q id Hq') as Hh. destruct Hm as [->|Hm]; [done|]. rewrite Hh in Hm.
      destruct a as [| | | | |p|p now slug answer| | ]; cbn in Hm; try (by destruct Hm).
      * by destruct Hm as (_ & ? & _).
      * destruct Hm as (Hpq & _). pose proof (alone s Hc p q id Hpq Hq'). subst p. by destruct (Hnf now slug answer).
      * destruct Hm as [Hn _]. specialize (Hn q). by rewrite Hq' in Hn.
    + cbn in Ha. rewrite Hsel, Hf in Ha. injection Ha as <-. cbn. apply flip_Some in Hf as (_ & _ & Hd & _).
      by rewrite Hd, decide_True.
  - intros p q id Hp1 Hq1.
    destruct (Hp p id Hp1) as [[Hp2 _]|(-> & Hsel & d & Hf)], (Hp q id Hq1) as [[Hq2 _]|(Ea & Hsel' & d' & Hf')].
    + by apply (alone s Hc _ _ id).
    + subst a. apply flip_Some in Hf' as (Hs & _). rewrite (held s Hc p id Hp2) in Hs. done.
    + apply flip_Some in Hf as (Hs & _). rewrite (held s Hc q id Hq2) in Hs. done.
    + by injection Ea.
  - intros id [e' He']. destruct Hr as [[En Hs]|(run & now & slug & -> & E)].
    + rewrite En. destruct (Hs id e' He') as (e & He & _). apply (fresh s Hc). by exists e.
    + rewrite E in *. cbn in *. destruct (decide (id = next_id (db s))) as [->|Hj]; [lia|].
      rewrite lookup_insert_ne in He' by done. pose proof (fresh s Hc id (mk_is_Some _ _ He')). lia.
  - intros id e' He'. destruct Hr as [[En Hs]|(run & now & slug & -> & E)].
    + destruct (Hs id e' He') as (e & He & ->). by apply (keyed s Hc).
    + rewrite E in He'. cbn in He'. destruct (decide (id = next_id (db s))) as [->|Hj].
      * rewrite lookup_insert_eq in He'. by injection He' as <-.
      * rewrite lookup_insert_ne in He' by done. by apply (keyed s Hc).
Qed.

Lemma start_consistent : consistent start.
Proof.
  split; cbn; [by intros p id; unfold pc_of; cbn; rewrite lookup_empty|by intros p q id; unfold pc_of; cbn; rewrite lookup_empty| |].
  - intros id [e He]. by rewrite lookup_empty in He.
  - intros id e He. by rewrite lookup_empty in He.
Qed.

Lemma exec_consistent actions s s' : consistent s -> exec actions s = Some s' -> consistent s'.
Proof.
  revert s. induction actions as [|a l IH]; intros s Hc; cbn; [by intros [= <-]|].
  destruct (perform a s) as [s1|] eqn:E; [|done]. apply IH. by eapply perform_consistent.
Qed.

(** A recovery is among the actions. *)
Definition recovers (actions : list action) : Prop := Recover ∈ actions.

(** An entry a pull request was created for is no longer pending. *)
Lemma perform_calls a s s' :
  a <> Recover -> consistent s -> perform a s = Some s' ->
  (forall id, id ∈ calls s -> status_of (db s) id <> Some PENDING /\ status_of (db s) id <> None) -> NoDup (calls s) ->
  (forall id, id ∈ calls s' -> status_of (db s') id <> Some PENDING /\ status_of (db s') id <> None) /\ NoDup (calls s').
Proof.
  intros Hrec Hc Ha Hcalls Hnd.
  assert (calls s' = calls s \/ exists p id, a = Flip p /\ calls s' = id :: calls s /\ status_of (db s) id = Some PENDING /\
    status_of (db s') id = Some CREATING) as Hcase.
  { destruct a as [| | | |p config now slug|p|p now slug answer|p| ];
      try (by apply begin_cases in Ha as (_ & _ & ? & _); left); cbn in Ha; try (injection Ha as <-; by left).
    - destruct (pc_of s p) as [|id|id]; try done. destruct (flip id (db s)) as [d|] eqn:Ef; injection Ha as <-; [right|by left].
      apply flip_Some in Ef as (Hs & _ & Hd & _). exists p, id. cbn. by rewrite Hd, decide_True.
    - destruct (pc_of s p); try done. injection Ha as <-. by left.
    - done. }
  assert (forall id, status_of (db s) id <> Some PENDING -> status_of (db s) id <> None ->
    status_of (db s') id <> Some PENDING /\ status_of (db s') id <> None) as Hkeep.
  { intros id H1 H2. destruct (perform_moves a s s' id Hc Ha) as [-> | Hm]; [done|].
    destruct a; cbn in Hm; try done; destruct_and?; try (split; congruence).
    match goal with E : _ = Some (match ?x with _ => _ end) |- _ => rewrite E; by destruct x end. }
  destruct Hcase as [-> | (p & id & _ & -> & Hs & Hs')].
  - split; [|done]. intros id Hi. apply Hkeep; by apply Hcalls.
  - split.
    + intros j [->|Hj]%elem_of_cons; [by rewrite Hs'|]. apply Hkeep; by apply Hcalls.
    + constructor; [|done]. intros Hi. by destruct (Hcalls id Hi) as [? _].
Qed.

(** ** A pass makes progress *)

Definition pending_in (slug : string) (d : DB) (id : Z) : Prop :=
  exists e, queue d !! id = Some e /\ e_status e = PENDING /\ e_project_slug e = slug.

Definition ids_match (d : DB) : Prop := forall id e, queue d !! id = Some e -> e_id e = id.

Lemma same_rows_ids d d' : same_rows d d' -> ids_match d -> ids_match d'.
Proof. intros [_ Hs] Hm id e' He. destruct (Hs id e' He) as (e & He0 & ->). by apply Hm. Qed.

Lemma elem_of_pending slug d e :
  e ∈ pending_of slug d <-> exists id, queue d !! id = Some e /\ e_status e = PENDING /\ e_project_slug e = slug.
Proof.
  unfold pending_of, is_status. rewrite list_elem_of_In, List.filter_In, <- list_elem_of_In, andb_true_iff, !bool_decide_eq_true.
  rewrite list_elem_of_fmap. split.
  - intros [([id e'] & -> & Hin%elem_of_map_to_list) ?]. by exists id.
  - intros (id & Hin & ?). split; [|done]. exists (id, e). split; [done|]. by apply elem_of_map_to_list.
Qed.

Lemma select_pending_spec slug d :
  ids_match d ->
  match select_pending slug d with
  | Some e => queue d !! e_id e = Some e /\ pending_in slug d (e_id e) /\
      forall id e', queue d !! id = Some e' -> pending_in slug d id -> (e_enqueued_at e <= e_enqueued_at e')%Z
  | None => forall id, ~ pending_in slug d id
  end.
Proof.
  intros Hm. unfold select_pending. set (key := fun e => [e_enqueued_at e; e_id e]).
  pose proof (sort_by_sorted key (pending_of slug d)) as Hs. pose proof (sort_by_perm key (pending_of slug d)) as Hp.
  destruct (sort_by key (pending_of slug d)) as [|e l]; cbn [head].
  - intros id (e & He & Hst). apply Permutation_nil_l in Hp.
    assert (e ∈ pending_of slug d) as Hin by (apply elem_of_pending; by exists id). rewrite <- Hp in Hin. by apply not_elem_of_nil in Hin.
  - assert (e ∈ pending_of slug d) as (id & He & Hst)%elem_of_pending by (rewrite <- Hp; constructor).
    rewrite (Hm id e He). split_and!; [done|by exists e|]. intros j e' He' (e'' & He'' & Hst'').
    assert (e' = e'') as <- by congruence.
    assert (e' ∈ e :: l) as [->|Hin]%elem_of_cons by (rewrite Hp; apply elem_of_pending; by exists j); [done|].
    apply StronglySorted_inv in Hs as [_ Hs]. rewrite Forall_forall in Hs. specialize (Hs e' Hin).
    unfold key_le, key in Hs. cbn in Hs. destruct (Z.ltb_spec (e_enqueued_at e) (e_enqueued_at e')); [lia|].
    destruct (Z.ltb_spec (e_enqueued_at e') (e_enqueued_at e)); [done|lia].
Qed.

Lemma runs_sweep now slug d : runs (sweep now slug d) = runs d.
Proof. done. Qed.

Lemma sweep_pending now slug d id :
  pending_in slug (sweep now slug d) id ->
  pending_in slug d id /\ forall e, queue (sweep now slug d) !! id = Some e -> run_ended (sweep now slug d) (e_task_run_id e) = false.
Proof.
  intros (e & He & Hst & Hslug).
  assert (exists e0, queue d !! id = Some e0 /\ e_status e0 = PENDING /\ e = e0) as (e0 & He0 & Hs0 & E).
  { unfold sweep, cancel_ended, cancel_stale in He. apply lookup_update_where in He as (e1 & He1 & E1).
    apply lookup_update_where in He1 as (e2 & He2 & E2). exists e2. split; [done|].
    destruct (is_status PENDING e2 && _ && _) eqn:P2; [subst e1; unfold is_status in E1; cbn in E1; by subst e|]. subst e1.
    destruct (is_status PENDING e2 && _ && run_ended _ _); [by subst e|]. by subst e. }
  subst e0. split; [by exists e|]. intros e' He'. assert (e' = e) as -> by congruence.
  unfold sweep, cancel_ended in He. apply lookup_update_where in He as (e1 & He1 & E1).
  destruct (is_status PENDING e1 && _ && run_ended _ _) eqn:P1; [by subst e|]. subst e1.
  unfold is_status in P1. rewrite Hst, Hslug, !bool_decide_eq_true_2 in P1 by done. exact P1.
Qed.

(** [create_pr] answers with a number or with an exception the pass handles. *)
Definition handled (answer : outcome Z) : Prop :=
  match answer with Ret _ | Raise (RuntimeError _) | Raise (OSError _) => True | _ => False end.

Definition finished (d : DB) (id : Z) : Prop := exists st, status_of d id = Some st /\ final st = true.

Lemma pending_status slug d id : pending_in slug d id -> status_of d id = Some PENDING.
Proof. intros (e & He & Hs & _). unfold status_of. by rewrite He, <- Hs. Qed.

Lemma flip_pending d e :
  queue d !! e_id e = Some e -> e_status e = PENDING -> run_ended d (e_task_run_id e) = false ->
  flip (e_id e) d = Some (with_queue (<[e_id e := with_status CREATING None None e]> (queue d)) d).
Proof. intros He Hs Hr. unfold flip, is_status. by rewrite He, Hs, Hr, bool_decide_eq_true_2. Qed.

Lemma finish_other id now slug answer d j : j <> id -> queue (finish id now slug answer d).2 !! j = queue d !! j.
Proof. intros Hj. unfold finish. destruct answer as [pr|[]]; cbn; rewrite ?lookup_alter_ne by done; done. Qed.

Lemma process_queue_eq config now slug answer d :
  ids_match d -> can_create_pr (get_quota_status config now slug (sweep now slug d)) = true ->
  (forall id, ~ pending_in slug (sweep now slug d) id) /\ (process_queue config now slug answer d).2 = sweep now slug d \/
  exists e d1, queue (sweep now slug d) !! e_id e = Some e /\ pending_in slug (sweep now slug d) (e_id e) /\
    flip (e_id e) (sweep now slug d) = Some d1 /\
    process_queue config now slug answer d = finish (e_id e) now slug answer d1.
Proof.
  intros Hm Hq. unfold process_queue. rewrite Hq. cbn [negb].
  pose proof (select_pending_spec slug (sweep now slug d) (same_rows_ids _ _ (same_rows_sweep now slug d) Hm)) as Hs.
  destruct (select_pending slug (sweep now slug d)) as [e|]; [right|by left].
  destruct Hs as (He & Hp & _). exists e. pose proof (sweep_pending now slug d _ Hp) as [_ Hr].
  pose proof Hp as (e' & He' & Hst & _). assert (e' = e) as -> by congruence.
  rewrite (flip_pending _ e He Hst (Hr e He)). eexists. by split_and!.
Qed.

Lemma pass_progress config now slug answer d :
  ids_match d -> can_create_pr (get_quota_status config now slug (sweep now slug d)) = true ->
  let d' := (process_queue config now slug answer d).2 in
  ids_match d' /\ (forall id, pending_in slug d' id -> pending_in slug d id) /\
  ((forall id, ~ pending_in slug d' id) \/ exists id, pending_in slug d id /\ ~ pending_in slug d' id) /\
  (handled answer -> forall id, pending_in slug d id -> pending_in slug d' id \/ finished d' id) /\
  (forall id, finished d id -> finished d' id).
Proof.
  intros Hm Hq. cbv zeta.
  assert (forall id, pending_in slug d id -> pending_in slug (sweep now slug d) id \/ finished (sweep now slug d) id) as Hsweep.
  { intros id Hp. destruct (sweep_moves now slug d id) as [E|[_ E]]; [left|right; by exists CANCELLED].
    destruct Hp as (e & He & Hs & Hslug). unfold status_of in E. rewrite He in E.
    apply fmap_Some in E as (e' & He' & E). unfold sweep, cancel_ended, cancel_stale in He'.
    exists e'. split; [done|]. split; [congruence|].
    apply lookup_update_where in He' as (e1 & He1 & ->). apply lookup_update_where in He1 as (e2 & He2 & ->).
    assert (e2 = e) as -> by congruence. by repeat case_match. }
  assert (forall id, finished d id -> finished (sweep now slug d) id) as Hfin.
  { intros id (st & Hst & Hf). exists st. split; [|done]. apply sweep_keeps; [by intros ->|done]. }
  destruct (process_queue_eq config now slug answer d Hm Hq) as [[Hnone ->]|(e & d1 & He & Hp & Hflip & ->)].
  - split_and!; [by eapply same_rows_ids; [apply same_rows_sweep|]| |by left| |done].
    + intros id [? _]%sweep_pending. done.
    + intros _. exact Hsweep.
  - pose proof (flip_Some _ _ _ Hflip) as (_ & _ & Hd1 & _).
    assert (forall id, id <> e_id e -> queue d1 !! id = queue (sweep now slug d) !! id) as Hother.
    { intros id Hid. unfold flip in Hflip. rewrite He in Hflip. destruct (_ && _); [|done]. injection Hflip as <-. cbn.
      by rewrite lookup_insert_ne. }
    set (d' := (finish (e_id e) now slug answer d1).2).
    assert (status_of d' (e_id e) <> Some PENDING) as Hdone.
    { unfold d'. rewrite finish_status, decide_True by done. specialize (Hd1 (e_id e)). rewrite decide_True in Hd1 by done.
      rewrite Hd1. unfold status_of in Hd1. destruct (queue d1 !! e_id e); [|done]. by destruct answer as [?|[]]. }
    assert (forall id, pending_in slug d' id -> id <> e_id e /\ pending_in slug (sweep now slug d) id) as Hback.
    { intros id Hid. assert (id <> e_id e) as Hne by (intros ->; by apply pending_status in Hid).
      split; [done|]. destruct Hid as (e' & He' & ?). unfold d' in He'. rewrite finish_other, Hother in He' by done. by exists e'. }
    split_and!.
    + eapply same_rows_ids; [apply same_rows_finish|]. eapply same_rows_ids; [by eapply same_rows_flip|].
      by eapply same_rows_ids; [apply same_rows_sweep|].
    + intros id [_ [? _]%sweep_pending]%Hback. done.
    + right. exists (e_id e). split; [by apply sweep_pending in Hp as [? _]|]. by intros [? _]%Hback.
    + intros Hh id Hid. destruct (decide (id = e_id e)) as [->|Hne].
      * right. unfold finished, d'. rewrite finish_status, decide_True by done.
        specialize (Hd1 (e_id e)). rewrite decide_True in Hd1 by done. unfold status_of in Hd1.
        destruct (queue d1 !! e_id e); [|done]. destruct answer as [?|[]]; try done; cbn; by eexists.
      * destruct (Hsweep id Hid) as [(e' & He' & ?)|(st & Hst & ?)]; [left|right].
        -- exists e'. unfold d'. by rewrite finish_other, Hother.
        -- exists st. unfold d', status_of in *. by rewrite finish_other, Hother.
    + intros id (st & Hst & Hf)%Hfin. destruct (decide (id = e_id e)) as [->|Hne].
      * apply pending_status in Hp. rewrite Hp in Hst. by injection Hst as <-.
      * exists st. unfold d', status_of in *. by rewrite finish_other, Hother.
Qed.

(** Consecutive passes of one loop, each at its time and with its answer. *)
Fixpoint passes (config : QuotaConfig) (slug : string) (l : list (Z * outcome Z)) (d : DB) : DB :=
  match l with
  | [] => d
  | (now, answer) :: l => passes config slug l (process_queue config now slug answer d).2
  end.

Definition pending_ids (slug : string) (d : DB) : gset Z :=
  dom (filter (fun kv => e_status kv.2 = PENDING /\ e_project_slug kv.2 = slug) (queue d)).

Lemma elem_of_pending_ids slug d id : id ∈ pending_ids slug d <-> pending_in slug d id.
Proof.
  unfold pending_ids, pending_in. rewrite elem_of_dom. split.
  - intros [e [He ?]%map_lookup_filter_Some]. by exists e.
  - intros (e & He & ?). exists e. by apply map_lookup_filter_Some.
Qed.

Lemma quota_same_reviews config now slug d d' :
  List.filter (fun ev => bool_decide (ev_event_type ev = "review"%string)) (events d) =
  List.filter (fun ev => bool_decide (ev_event_type ev = "review"%string)) (events d') ->
  get_quota_status config now slug d = get_quota_status config now slug d'.
Proof.
  intros E. assert (forall start, review_events_in_window start slug d = review_events_in_window start slug d') as Hw.
  { intros start. unfold review_events_in_window.
    assert (forall l, List.filter (fun ev => bool_decide (ev_event_type ev = "review"%string) && Z.ltb start (ev_recorded_at ev)
        && bool_decide (ev_project_slug ev = slug)) l =
      List.filter (fun ev => Z.ltb start (ev_recorded_at ev) && bool_decide (ev_project_slug ev = slug))
        (List.filter (fun ev => bool_decide (ev_event_type ev = "review"%string)) l)) as Hf; [|by rewrite !Hf, E].
    induction l as [|ev l IH]; [done|]. cbn [List.filter]. rewrite IH.
    destruct (bool_decide (ev_event_type ev = _)); [|done]. cbn [List.filter andb]. done. }
  unfold get_quota_status. by rewrite Hw.
Qed.

(** A pull request created by a pass does not count against the quota that held it
    back: only the reviews fetched from GitHub do. *)
Theorem creation_spends_no_quota config now slug answer d config' now' slug' :
  get_quota_status config' now' slug' (process_queue config now slug answer d).2 = get_quota_status config' now' slug' d.
Proof.
  symmetry. apply quota_same_reviews. unfold process_queue. destruct (negb _); [done|].
  destruct (select_pending _ _) as [e|]; [|done]. destruct (flip _ _) as [d1|] eqn:Ef; [|done].
  assert (events d1 = events d) as E.
  { unfold flip in Ef. destruct (queue _ !! _) as [e1|]; [|done]. destruct (_ && _); [|done]. by injection Ef as <-. }
  unfold finish. destruct answer as [pr|[]]; cbn; rewrite ?E; try done.
  rewrite List.filter_app. cbn. by rewrite app_nil_r.
Qed.

Lemma passes_drain config slug l d :
  ids_match d -> size (pending_ids slug d) <= length l ->
  Forall (fun na => can_create_pr (get_quota_status config na.1 slug d) = true /\ handled na.2) l ->
  (forall id, ~ pending_in slug (passes config slug l d) id) /\
  (forall id, pending_in slug d id \/ finished d id -> finished (passes config slug l d) id).
Proof.
  revert d. induction l as [|[now answer] l IH]; intros d Hm Hsize Hall; cbn [passes].
  { assert (pending_ids slug d = ∅) as He by (apply leibniz_equiv, size_empty_inv; cbn in Hsize; lia).
    assert (forall id, ~ pending_in slug d id) as Hn.
    { intros id Hid%elem_of_pending_ids. rewrite He in Hid. by apply not_elem_of_empty in Hid. }
    split; [done|]. intros id [Hid|?]; [by apply Hn in Hid|done]. }
  apply Forall_cons in Hall as [[Hq Hh] Hall]. cbn [fst snd] in Hq, Hh.
  destruct (pass_progress config now slug answer d Hm Hq) as (Hm' & Hback & Hdec & Hfate & Hfin).
  set (d' := (process_queue config now slug answer d).2) in *.
  assert (size (pending_ids slug d') <= length l) as Hsize'.
  { destruct Hdec as [Hnone|(id & Hid & Hno)].
    - assert (pending_ids slug d' = ∅) as -> by (apply set_eq; intros id; rewrite elem_of_pending_ids; set_solver).
      rewrite size_empty. lia.
    - assert (pending_ids slug d' ⊂ pending_ids slug d) as Hsub%subset_size.
      { split; [intros j; rewrite !elem_of_pending_ids; apply Hback|]. intros Hs.
        apply Hno, elem_of_pending_ids, Hs, elem_of_pending_ids, Hid. }
      cbn in Hsize. lia. }
  destruct (IH d' Hm' Hsize') as [H1 H2].
  { eapply Forall_impl; [exact Hall|]. intros [n a] [Hqn ?]. split; [|done]. cbn [fst] in *.
    unfold d'. by rewrite creation_spends_no_quota. }
  split; [done|]. intros id [Hid|Hid]; apply H2; [by apply Hfate|right; by apply Hfin].
Qed.

(** ** Theorems *)


Lemma exec_calls actions s s' :
  ~ recovers actions -> consistent s -> exec actions s = Some s' ->
  (forall id, id ∈ calls s -> status_of (db s) id <> Some PENDING /\ status_of (db s) id <> None) -> NoDup (calls s) ->
  NoDup (calls s').
Proof.
  unfold recovers. revert s. induction actions as [|a l IH]; intros s Hr Hc; cbn; [by intros [= <-]|].
  destruct (perform a s) as [s1|] eqn:E; [|done]. intros Hex Hcalls Hnd. apply not_elem_of_cons in Hr as [Ha Hr].
  destruct (perform_calls a s s1 (not_eq_sym Ha) Hc E Hcalls Hnd) as [Hcalls1 Hnd1].
  by apply (IH s1 Hr); [eapply perform_consistent|..].
Qed.

(** C13: an entry gets at most one pull request. As long as no recovery puts an entry
    back, [create_pr] is called at most once for each entry, however many loops share
    the queue; and it is called only for an entry that is pending, of a run that has
    not ended, at that very moment. *)
Theorem created_at_most_once (actions : list action) (s : Sys)
    (Hs : exec actions start = Some s) (Hr : ~ recovers actions) :
  NoDup (calls s) /\
  forall a s', perform a s = Some s' ->
    calls s' = calls s \/
    exists p e, a = Flip p /\ queue (db s) !! e_id e = Some e /\ e_status e = PENDING /\
      run_ended (db s) (e_task_run_id e) = false /\ calls s' = e_id e :: calls s.
Proof.
  pose proof (exec_consistent _ _ _ start_consistent Hs) as Hc. split.
  - eapply (exec_calls actions start); [done|apply start_consistent|done| |constructor].
    intros id Hid. by apply not_elem_of_nil in Hid.
  - intros a s' Ha. destruct a as [| | | |p config now slug|p|p now slug answer|p| ];
      try (by apply begin_cases in Ha as (_ & _ & ? & _); left); cbn in Ha; try (injection Ha as <-; by left).
    + destruct (pc_of s p) as [|id|id] eqn:Ep; try done. destruct (flip id (db s)) as [d|] eqn:Ef; injection Ha as <-; [right|by left].
      apply flip_Some in Ef as (Hst & Hrun & _). unfold status_of in Hst. apply fmap_Some in Hst as (e & He & Hst).
      pose proof (keyed s Hc id e He) as <-. exists p, e. split_and!; [done..|by apply Hrun|done].
    + destruct (pc_of s p); try done. injection Ha as <-. by left.
    + destruct (existsb _ _); [done|]. injection Ha as <-. by left.
Qed.

(** C30: the queue drains. From any state the processes can reach, a loop whose passes
    the quota allows and whose answers it handles empties the project's queue in at
    most as many passes as there are pending entries, and every entry that was
    pending ends created, failed or cancelled. The quota is asked about the database
    as it was at first: the passes do not use it up. *)
Theorem queue_drains (actions : list action) (s : Sys) (config : QuotaConfig) (slug : string) (l : list (Z * outcome Z))
    (Hs : exec actions start = Some s) (Hlong : size (pending_ids slug (db s)) <= length l)
    (Hall : Forall (fun na => can_create_pr (get_quota_status config na.1 slug (db s)) = true /\ handled na.2) l) :
  (forall id, ~ pending_in slug (passes config slug l (db s)) id) /\
  (forall id, pending_in slug (db s) id -> finished (passes config slug l (db s)) id).
Proof.
  pose proof (exec_consistent _ _ _ start_consistent Hs) as Hc.
  destruct (passes_drain config slug l (db s) (keyed s Hc) Hlong Hall) as [Hnone Hfate].
  split; [exact Hnone|]. intros id Hid. apply Hfate. by left.
Qed.

Module Examples.

Local Open Scope string_scope.

Definition unlimited : QuotaConfig := {| q_enabled := true; q_reviews_per_hour := 0; q_window_minutes := 60 |}.

(** Two loops, two runs; the second run ends before its entry is reached. *)
Definition history : list action :=
  [Enqueue 10 100 "p"; Enqueue 11 101 "p"; SetRun 10 "running"; Begin 0 unlimited 110 "p"; Begin 1 unlimited 111 "p";
   Flip 0; Flip 1; SetRun 11 "failed"].

Definition reached : Sys := default start (exec history start).

Example reached_calls : calls reached = [1%Z] /\ pc_of reached 0 = Creating 1 /\ pc_of reached 1 = Idle.
Proof. split_and!; vm_compute; reflexivity. Qed.

Lemma exec_history : exec history start = Some reached.
Proof. vm_compute. reflexivity. Qed.


Lemma created_at_most_once_witness : NoDup (calls reached) /\ calls reached = [1%Z].
Proof.
  assert (~ recovers history) as Hr.
  { unfold recovers, history. intros Hin. repeat (apply elem_of_cons in Hin as [Hin|Hin]; [discriminate Hin|]).
    by apply not_elem_of_nil in Hin. }
  split; [exact (proj1 (created_at_most_once history reached exec_history Hr))|vm_compute; reflexivity].
Defined.

Lemma queue_drains_witness :
  pending_ids "p" (db reached) = {[2%Z]} /\ finished (passes unlimited "p" [(130%Z, Raise (OSError "offline"))] (db reached)) 2.
Proof.
  split; [vm_compute; reflexivity|].
  apply (queue_drains history reached unlimited "p" [(130%Z, Raise (OSError "offline"))] exec_history).
  - vm_compute. lia.
  - repeat constructor.
  - eexists. split_and!; vm_compute; reflexivity.
Defined.

Definition review (at_ : Z) (id : string) : CodeRabbitEvent :=
  {| ev_event_type := "review"; ev_review_id := id; ev_recorded_at := at_; ev_project_slug := "p" |}.

Definition two_reviews : DB := {| queue := ∅; next_id := 1; runs := ∅; events := [review 0 "a"; review 1800 "b"] |}.

Definition one_per_hour : QuotaConfig := {| q_enabled := true; q_reviews_per_hour := 1; q_window_minutes := 60 |}.

(** With more reviews in the window than the quota, the wait that is reported ends
    when the oldest review leaves the window, and the quota still refuses. *)
Example wait_too_short :
  next_available (get_quota_status one_per_hour 2000 "p" two_reviews) = Some 1600%Z /\
  can_create_pr (get_quota_status one_per_hour (2000 + 1600) "p" two_reviews) = false.
Proof. split; vm_compute; reflexivity. Qed.

End Examples.
