(* ===== verification/Dag.v ===== *)
(** * Dag: workflow graphs of commands

    sova/core/dag.py. A graph is validated, sorted and run node by node. The order in
    which Python iterates the set of node ids is a parameter ([SetOrder]); the
    commands are answered by [start_command]. Edges are assumed to have their source
    and target keys, costs are in millionths of a dollar. *)

From stdpp Require Import base gmap strings list fin_maps sets relations list_numbers sorting pretty.
From S2P Require Import Prelude Kahn Verdict.

Local Open Scope string_scope.

(** ** The definition of a workflow *)

Record Edge := { e_source : string; e_target : string; e_condition : option string }.

(** [n_command] is empty when the node has none. *)
Record Node := { n_id : string; n_command : string; n_label : option string }.

Record Graph := { g_nodes : list Node; g_edges : list Edge }.

Definition node_ids (g : Graph) : gset string := list_to_set (map n_id (g_nodes g)).

(** The edges whose ends are nodes. *)
Definition valid_edge (g : Graph) (e : Edge) : bool :=
  bool_decide (e_source e ∈ node_ids g) && bool_decide (e_target e ∈ node_ids g).

Definition valid_edges (g : Graph) : list Edge := List.filter (valid_edge g) (g_edges g).

(** [adjacency[nid]] *)
Definition adjacency (g : Graph) (nid : string) : list string :=
  map e_target (List.filter (fun e => bool_decide (e_source e = nid)) (valid_edges g)).

Definition in_degrees (g : Graph) : gmap string Z :=
  foldl (fun m e => alter Z.succ (e_target e) m) (gset_to_gmap 0%Z (node_ids g)) (valid_edges g).

Definition sorted_ids (X : gset string) : list string := sort_by Verdict.codes (elements X).

Section dag.
Context `{!SetOrder string}.

(** [_topological_sort]; the fuel is the number of nodes plus one. *)
Definition topological_sort (g : Graph) : outcome (list string) :=
  let ids := node_ids g in
  let in_degree := in_degrees g in
  let queue := List.filter (fun nid => bool_decide (in_degree !! nid = Some 0%Z)) (set_iter ids) in
  let result := default [] (Kahn.loop (fun _ => true) (adjacency g) (S (size ids)) in_degree queue []) in
  if negb (length result =? size ids)%nat
  then Raise (ValueError ("DAG contains a cycle involving nodes: "
                          ++ PyStr.join ", " (sorted_ids (ids ∖ list_to_set result))))
  else Ret result.

(** ** Validation *)

(** [adj_undirected[nid]] *)
Definition neighbors (g : Graph) (nid : string) : gset string :=
  list_to_set (omap (fun e => if bool_decide (e_source e = nid) then Some (e_target e)
                              else if bool_decide (e_target e = nid) then Some (e_source e) else None) (valid_edges g)).

(** The inner search of the component of a node. *)
Fixpoint bfs (fuel : nat) (g : Graph) (queue : list string) (component : gset string) : option (gset string) :=
  match fuel with
  | 0 => None
  | S fuel =>
      match queue with
      | [] => Some component
      | nid :: queue =>
          if bool_decide (nid ∈ component) then bfs fuel g queue component
          else
            let component := {[nid]} ∪ component in
            bfs fuel g (queue ++ List.filter (fun n => negb (bool_decide (n ∈ component))) (set_iter (neighbors g nid)))
              component
      end
  end.

(** Enough for a search from one node ([bfs_total]). *)
Definition bfs_fuel (g : Graph) : nat := 2 + size (node_ids g) * size (node_ids g).

(** The components in the order they are found. *)
Fixpoint components (g : Graph) (starts : list string) (visited : gset string) : list (gset string) :=
  match starts with
  | [] => []
  | start :: starts =>
      if bool_decide (start ∈ visited) then components g starts visited
      else
        let component := default ∅ (bfs (bfs_fuel g) g [start] ∅) in
        component :: components g starts (visited ∪ component)
  end.

(** [max(components, key=len)]: the first of the largest. *)
Definition largest (cs : list (gset string)) : gset string :=
  foldl (fun m c => if (size m <? size c)%nat then c else m) ∅ cs.

(** [validate_dag]: the errors, and the sorted ids. *)
Definition validate_dag (g : Graph) : list string * list string :=
  if bool_decide (g_nodes g = []) then (["DAG has no nodes"], [])
  else
    let ids := node_ids g in
    let edge_errors := concat (map (fun e =>
      ((if bool_decide (e_source e ∈ ids) then [] else [("Edge references unknown source node: " ++ e_source e)%string])
       ++ (if bool_decide (e_target e ∈ ids) then [] else [("Edge references unknown target node: " ++ e_target e)%string]))%list)
      (g_edges g)) in
    let command_errors := omap (fun n => if bool_decide (n_command n = "")
                                         then Some ("Node " ++ n_id n ++ " has no command") else None) (g_nodes g) in
    let '(cycle_errors, sorted) := match topological_sort g with Ret l => ([], l) | Raise e => ([exn_str e], []) end in
    let reach_errors :=
      if (1 <? length (g_nodes g))%nat then
        let cs := components g (set_iter ids) ∅ in
        if (1 <? length cs)%nat
        then ["Unreachable nodes: " ++ PyStr.join ", " (sorted_ids (ids ∖ largest cs))] else []
      else [] in
    ((edge_errors ++ command_errors ++ cycle_errors ++ reach_errors)%list, sorted).

(** ** Execution *)

(** What [start_command] returns: a dictionary, or something else, with its text. *)
Record CommandDict := {
  c_error : option string;
  c_status : option string;
  c_message : option string;
  c_cost : option Z;
}.

Inductive CommandResult := ResultDict (d : CommandDict) (text : string) | ResultOther (text : string).

(** [class NodeResult] *)
Record NodeResult := {
  r_node_id : string;
  r_command : string;
  r_success : bool;
  r_summary : string;
  r_error : option string;
  r_cost : Z;
}.

(** [_node_result_from_command] *)
Definition node_result_from_command (node_id command : string) (result : CommandResult) : NodeResult :=
  match result with
  | ResultOther text =>
      {| r_node_id := node_id; r_command := command; r_success := true; r_summary := text; r_error := None; r_cost := 0%Z |}
  | ResultDict d text =>
      {| r_node_id := node_id; r_command := command;
         r_success := bool_decide (c_error d = None) && negb (bool_decide (c_status d = Some "error"));
         r_summary := default text (c_message d); r_error := c_error d; r_cost := default 0%Z (c_cost d) |}
  end.

Context (start_command : Node -> outcome CommandResult).

(** [_execute_node] *)
Definition execute_node (n : Node) : NodeResult :=
  match start_command n with
  | Ret result => node_result_from_command (n_id n) (n_command n) result
  | Raise e => {| r_node_id := n_id n; r_command := n_command n; r_success := false; r_summary := "";
                  r_error := Some (exn_str e); r_cost := 0%Z |}
  end.

(** [_evaluate_condition] *)
Definition evaluate_condition (condition : string) (context_keys : gmap string string) : bool :=
  let parse sep := let '(key, expected) := PyStr.split_once condition sep in
                   (PyStr.strip key, PyStr.strip (default "" expected)) in
  if PyStr.contains condition "!=" then
    let '(key, expected) := parse "!=" in negb (bool_decide (default "" (context_keys !! key) = expected))
  else if PyStr.contains condition "==" then
    let '(key, expected) := parse "==" in bool_decide (default "" (context_keys !! key) = expected)
  else false.

(** [self._incoming.get(node_id, [])] *)
Definition incoming (g : Graph) (node_id : string) : list Edge :=
  List.filter (fun e => bool_decide (e_target e = node_id)) (g_edges g).

(** The loop of [_should_execute]: [None] is its [return False]. *)
Fixpoint check_incoming (es : list Edge) (context_keys : gmap string string) (skipped : gset string)
    (has_completed_source : bool) : option bool :=
  match es with
  | [] => Some has_completed_source
  | e :: es =>
      if bool_decide (e_source e ∈ skipped) then check_incoming es context_keys skipped has_completed_source
      else
        let source_done := bool_decide (is_Some (context_keys !! (e_source e ++ ".done"))) in
        match e_condition e with
        | None => if negb source_done then None else check_incoming es context_keys skipped true
        | Some condition =>
            if negb source_done then None
            else if negb (evaluate_condition condition context_keys) then None
            else check_incoming es context_keys skipped true
        end
  end.

(** [_should_execute] *)
Definition should_execute (g : Graph) (node_id : string) (context_keys : gmap string string) (skipped : gset string) : bool :=
  match incoming g node_id with
  | [] => true
  | es => default false (check_incoming es context_keys skipped false)
  end.

(** [class DAGResult] *)
Record DAGResult := {
  dr_success : bool;
  dr_summary : string;
  dr_error : option string;
  dr_node_results : list NodeResult;
  dr_total_cost : Z;
}.

(** [{n["id"]: n for n in nodes}]: the last node of an id. *)
Definition node_map (g : Graph) : gmap string Node := foldl (fun m n => <[n_id n := n]> m) ∅ (g_nodes g).

(** The loop of [execute]. *)
Fixpoint run_nodes (g : Graph) (ids : list string) (results : list NodeResult) (total_cost : Z)
    (context_keys : gmap string string) (skipped : gset string) : DAGResult :=
  match ids with
  | [] => {| dr_success := true; dr_summary := "DAG completed: " ++ pretty (Z.of_nat (length results)) ++ " nodes executed";
             dr_error := None; dr_node_results := results; dr_total_cost := total_cost |}
  | node_id :: ids =>
      let node := default {| n_id := node_id; n_command := ""; n_label := None |} (node_map g !! node_id) in
      if negb (should_execute g node_id context_keys skipped)
      then run_nodes g ids results total_cost context_keys ({[node_id]} ∪ skipped)
      else
        let result := execute_node node in
        let results := (results ++ [result])%list in
        let total_cost := (total_cost + r_cost result)%Z in
        if negb (r_success result)
        then {| dr_success := false; dr_summary := "DAG failed at node " ++ node_id ++ " (" ++ n_command node ++ ")";
                dr_error := r_error result; dr_node_results := results; dr_total_cost := total_cost |}
        else run_nodes g ids results total_cost (<[node_id ++ ".done" := "true"]> context_keys) skipped
  end.

(** [execute] *)
Definition execute (g : Graph) : DAGResult :=
  let '(errors, sorted) := validate_dag g in
  match errors with
  | [] => run_nodes g sorted [] 0%Z ∅ ∅
  | _ => {| dr_success := false; dr_summary := "DAG validation failed"; dr_error := Some (PyStr.join "; " errors);
            dr_node_results := []; dr_total_cost := 0%Z |}
  end.

End dag.

Local Close Scope string_scope.

(** ** The order of the nodes *)

(** Work flows from [n] to [d]. *)
Definition flows (g : Graph) (n d : string) : Prop :=
  exists e, e ∈ valid_edges g /\ e_source e = n /\ e_target e = d.

Lemma elem_of_valid_edges g e :
  e ∈ valid_edges g <-> e ∈ g_edges g /\ e_source e ∈ node_ids g /\ e_target e ∈ node_ids g.
Proof.
  unfold valid_edges, valid_edge. rewrite list_elem_of_In, List.filter_In, <- list_elem_of_In, andb_true_iff, !bool_decide_eq_true.
  tauto.
Qed.

Lemma elem_of_adjacency g n d : d ∈ adjacency g n <-> flows g n d.
Proof.
  unfold adjacency, flows. rewrite list_elem_of_fmap. split.
  - intros (e & -> & He). rewrite list_elem_of_In, List.filter_In, <- list_elem_of_In, bool_decide_eq_true in He.
    destruct He. by exists e.
  - intros (e & He & Hs & <-). exists e. split; [done|].
    by rewrite list_elem_of_In, List.filter_In, <- list_elem_of_In, bool_decide_eq_true.
Qed.

Lemma flows_nodes g n d : flows g n d -> n ∈ node_ids g /\ d ∈ node_ids g.
Proof. intros (e & (_ & ? & ?)%elem_of_valid_edges & <- & <-). done. Qed.

Lemma sum_list_with_plus {A} (f h : A -> nat) l :
  sum_list_with (fun x => f x + h x) l = sum_list_with f l + sum_list_with h l.
Proof. induction l as [|x l IH]; [done|]. cbn. lia. Qed.

Lemma sum_list_with_indicator (s : string) (k : nat) l :
  NoDup l -> s ∈ l -> sum_list_with (fun n => if decide (s = n) then k else 0) l = k.
Proof.
  intros Hnd (l1 & l2 & ->)%list_elem_of_split. apply NoDup_app in Hnd as (_ & Hd & Hnd).
  apply NoDup_cons in Hnd as [Hs _]. rewrite sum_list_with_app. cbn. rewrite decide_True by done.
  assert (forall l', s ∉ l' -> sum_list_with (fun n => if decide (s = n) then k else 0) l' = 0) as Hz.
  { intros l' Hl. apply Kahn.sum_list_zero. intros n Hn. rewrite decide_False; [done|]. by intros ->. }
  rewrite !Hz; [lia|done|]. intros Hin. apply (Hd s Hin). constructor.
Qed.

Definition count_into (d : string) (es : list Edge) : nat := length (List.filter (fun e => bool_decide (e_target e = d)) es).

Lemma occ_sum (N : gset string) es d :
  (forall e, e ∈ es -> e_source e ∈ N) ->
  sum_list_with (fun n => Kahn.occ d (map e_target (List.filter (fun e => bool_decide (e_source e = n)) es))) (elements N) =
  count_into d es.
Proof.
  induction es as [|e es IH]; intros Hes; [apply Kahn.sum_list_zero; done|].
  rewrite (Kahn.sum_list_ext _ (fun n => (if decide (e_source e = n) then (if decide (d = e_target e) then 1 else 0) else 0)
    + Kahn.occ d (map e_target (List.filter (fun e => bool_decide (e_source e = n)) es)))).
  - rewrite sum_list_with_plus, IH by (intros e' He'; apply Hes; by constructor).
    rewrite sum_list_with_indicator; [|apply NoDup_elements|apply elem_of_elements, Hes; constructor].
    unfold count_into. cbn [List.filter]. case_decide as Hd; case_bool_decide as Ht; cbn [length]; try lia; by subst.
  - intros n _. cbn [List.filter]. case_bool_decide; case_decide; try done. cbn [map]. apply Kahn.occ_cons.
Qed.

Lemma in_degrees_lookup g d :
  d ∈ node_ids g -> in_degrees g !! d = Some (Z.of_nat (count_into d (valid_edges g))).
Proof.
  intros Hd. unfold in_degrees.
  assert (forall es (m : gmap string Z) z, m !! d = Some z ->
    foldl (fun m e => alter Z.succ (e_target e) m) m es !! d = Some (z + Z.of_nat (count_into d es))%Z) as Hf.
  { induction es as [|e es IH]; intros m z Hm; cbn [foldl]; [by rewrite Z.add_0_r|].
    unfold count_into. cbn [List.filter]. case_bool_decide as Ht.
    - rewrite (IH _ (Z.succ z)); [f_equal; cbn [length]; unfold count_into; lia|]. subst d. by rewrite lookup_alter_eq, Hm.
    - apply IH. by rewrite lookup_alter_ne. }
  rewrite (Hf _ _ 0%Z); [done|]. by rewrite lookup_gset_to_gmap_Some.
Qed.

Section theorems.
Context `{!SetOrder string}.

Lemma kahn_edge g n d : Kahn.edge (fun _ => true) (adjacency g) (node_ids g) n d <-> flows g n d.
Proof.
  unfold Kahn.edge, Kahn.succs. rewrite list_elem_of_filter, elem_of_adjacency.
  split; [tauto|]. intros Hf. by destruct (flows_nodes _ _ _ Hf).
Qed.

Lemma filter_true (l : list string) : filter (fun _ => true = true) l = l.
Proof. induction l as [|x l IH]; [done|]. by rewrite filter_cons_True, IH. Qed.

(** The list the loop of Kahn's algorithm returns. *)
Definition kahn_list (g : Graph) : list string :=
  default [] (Kahn.loop (fun _ => true) (adjacency g) (S (size (node_ids g))) (in_degrees g)
    (List.filter (fun nid => bool_decide (in_degrees g !! nid = Some 0%Z)) (set_iter (node_ids g))) []).

Lemma kahn_list_spec g : Kahn.topological (fun _ => true) (adjacency g) (node_ids g) (kahn_list g).
Proof.
  unfold kahn_list. set (queue := List.filter _ _).
  destruct (Kahn.loop_total (fun _ => true) (adjacency g) (node_ids g)) with
    (fuel := S (size (node_ids g))) (in_degree := in_degrees g) (queue := queue) (result := @nil string) as (r & E & Hr).
  - intros n d _ Hd. unfold Kahn.succs in Hd. apply list_elem_of_filter in Hd as [_ Hd%elem_of_adjacency].
    by apply flows_nodes in Hd as [_ Hd].
  - apply Kahn.inv_init.
    + intros d Hd. rewrite in_degrees_lookup by done. do 2 f_equal.
      rewrite <- (occ_sum (node_ids g)) by (intros e He%elem_of_valid_edges; tauto).
      unfold Kahn.pending. apply Kahn.sum_list_ext. intros n _. rewrite decide_False by apply not_elem_of_nil.
      unfold Kahn.succs, adjacency. f_equal. by rewrite filter_true.
    + apply NoDup_ListNoDup, List.NoDup_filter, NoDup_ListNoDup, NoDup_set_iter.
    + intros d. unfold queue. rewrite list_elem_of_In, List.filter_In, <- list_elem_of_In, bool_decide_eq_true.
      by rewrite elem_of_set_iter.
  - cbn. lia.
  - by rewrite E.
Qed.

Lemma kahn_list_perm g : length (kahn_list g) = size (node_ids g) <-> kahn_list g ≡ₚ elements (node_ids g).
Proof.
  pose proof (kahn_list_spec g) as [Hnd Hns _ _]. split.
  - intros Hl. apply submseteq_length_Permutation; [|change (size (node_ids g) <= length (kahn_list g)); lia].
    apply NoDup_submseteq; [done|]. intros n Hn. by apply elem_of_elements, Hns.
  - intros ->. done.
Qed.

(** The nodes can be put in an order that every edge follows. *)
Definition acyclic (g : Graph) : Prop := forall c, ~ tc (flows g) c c.

Lemma tc_kahn_edge g n d : tc (Kahn.edge (fun _ => true) (adjacency g) (node_ids g)) n d <-> tc (flows g) n d.
Proof.
  split; induction 1 as [x y E|x y z E _ IH].
  - by apply tc_once, kahn_edge.
  - eapply tc_l; [by apply kahn_edge|done].
  - by apply tc_once, kahn_edge.
  - eapply tc_l; [by apply kahn_edge|done].
Qed.

Lemma kahn_list_acyclic g : kahn_list g ≡ₚ elements (node_ids g) <-> acyclic g.
Proof.
  pose proof (kahn_list_spec g) as Hr. unfold acyclic. setoid_rewrite <- tc_kahn_edge.
  rewrite <- (Kahn.topo_all_iff_acyclic _ _ _ _ Hr). split.
  - intros Hp d Hd. rewrite Hp. by apply elem_of_elements.
  - intros Hall. apply NoDup_Permutation; [apply (Kahn.topo_nodup _ _ _ _ Hr)|apply NoDup_elements|].
    intros d. rewrite elem_of_elements. split; [apply (Kahn.topo_nodes _ _ _ _ Hr)|apply Hall].
Qed.

(** A list of the nodes, each once, that every edge follows. *)
Definition is_order (g : Graph) (l : list string) : Prop :=
  l ≡ₚ elements (node_ids g) /\ forall l1 d l2, l = l1 ++ d :: l2 -> forall n, flows g n d -> n ∈ l1.

(** the topological sort. Whatever order Python iterates the node ids in, the sort
    returns every node once, each after all the nodes with an edge into it, exactly
    when the graph has no cycle; otherwise it raises a ValueError, and never runs out
    of steps. *)
Theorem topological_sort_correct (g : Graph) :
  match topological_sort g with
  | Ret l => acyclic g /\ is_order g l
  | Raise e => ~ acyclic g /\ exists m, e = ValueError m
  end.
Proof.
  unfold topological_sort. fold (kahn_list g). pose proof (kahn_list_acyclic g) as Ha.
  rewrite <- kahn_list_perm in Ha.
  destruct (Nat.eqb_spec (length (kahn_list g)) (size (node_ids g))) as [Hl|Hl]; cbn [negb];
    [|split; [by rewrite <- Ha|by eexists]].
  split; [by apply Ha|]. split; [by apply kahn_list_perm|]. intros l1 d l2 E n Hn.
  eapply (Kahn.topo_order _ _ _ _ (kahn_list_spec g)); [exact E|]. by apply kahn_edge.
Qed.

(** ** Components *)

(** Two nodes with an edge between them, in either direction. *)
Definition linked (g : Graph) (n d : string) : Prop := flows g n d \/ flows g d n.

Lemma elem_of_neighbors g n d : d ∈ neighbors g n <-> linked g n d.
Proof.
  unfold neighbors, linked, flows. rewrite elem_of_list_to_set, list_elem_of_omap. split.
  - intros (e & He & E). repeat case_bool_decide; simplify_eq; [left|right]; by exists e.
  - intros [(e & He & <- & <-)|(e & He & <- & <-)]; exists e; (split; [done|]).
    + by rewrite bool_decide_eq_true_2.
    + rewrite (bool_decide_eq_true_2 (e_target e = e_target e)) by done. case_bool_decide; congruence.
Qed.

Lemma size_neighbors g n : size (neighbors g n) <= size (node_ids g).
Proof.
  apply subseteq_size. intros d [Hf|Hf]%elem_of_neighbors; apply flows_nodes in Hf; tauto.
Qed.

Lemma linked_nodes g n d : linked g n d -> n ∈ node_ids g /\ d ∈ node_ids g.
Proof. intros [H|H]; apply flows_nodes in H; tauto. Qed.

Record search_inv (g : Graph) (start : string) (queue : list string) (component : gset string) : Prop := {
  si_nodes : forall n, n ∈ component \/ n ∈ queue -> n ∈ node_ids g;
  si_linked : forall n, n ∈ component \/ n ∈ queue -> rtc (linked g) start n;
  si_closed : forall n d, n ∈ component -> linked g n d -> d ∈ component \/ d ∈ queue;
  si_start : start ∈ component \/ start ∈ queue;
}.

Lemma search_step g start nid queue component :
  search_inv g start (nid :: queue) component ->
  let component' := {[nid]} ∪ component in
  search_inv g start (queue ++ List.filter (fun n => negb (bool_decide (n ∈ component'))) (set_iter (neighbors g nid))) component'.
Proof.
  intros [Hn Hl Hc Hs] component'.
  assert (forall d, d ∈ List.filter (fun n => negb (bool_decide (n ∈ component'))) (set_iter (neighbors g nid)) <->
    linked g nid d /\ d ∉ component') as Hf.
  { intros d. rewrite list_elem_of_In, List.filter_In, <- list_elem_of_In, negb_true_iff, bool_decide_eq_false,
      elem_of_set_iter, elem_of_neighbors. tauto. }
  assert (rtc (linked g) start nid /\ nid ∈ node_ids g) as [Hlnid Hnid] by (split; [apply Hl|apply Hn]; right; constructor).
  split.
  - intros n. rewrite elem_of_app, Hf. unfold component'. intros [Hin|[Hin|[Hin _]]].
    + apply elem_of_union in Hin as [->%elem_of_singleton|?]; [done|]. apply Hn. by left.
    + apply Hn. right. by constructor.
    + by apply linked_nodes in Hin as [_ Hin].
  - intros n. rewrite elem_of_app, Hf. unfold component'. intros [Hin|[Hin|[Hin _]]].
    + apply elem_of_union in Hin as [->%elem_of_singleton|?]; [done|]. apply Hl. by left.
    + apply Hl. right. by constructor.
    + by eapply rtc_r.
  - intros n d Hin Hnd. rewrite elem_of_app, Hf. destruct (decide (d ∈ component')) as [|Hd]; [by left|right].
    unfold component' in Hin. apply elem_of_union in Hin as [->%elem_of_singleton|Hin]; [by right|left].
    destruct (Hc n d Hin Hnd) as [?|[->|?]%elem_of_cons]; [|exfalso; apply Hd..|done]; unfold component'; set_solver.
  - rewrite elem_of_app. unfold component'. destruct Hs as [?|[->|?]%elem_of_cons]; set_solver.
Qed.

Lemma bfs_total g start fuel queue component :
  search_inv g start queue component ->
  length queue + size (node_ids g ∖ component) * size (node_ids g) < fuel ->
  exists c, bfs fuel g queue component = Some c /\ forall n, n ∈ c <-> rtc (linked g) start n.
Proof.
  revert queue component. induction fuel as [|fuel IH]; intros queue component Hinv Hf; [lia|].
  destruct queue as [|nid queue]; cbn [bfs].
  - exists component. split; [done|]. destruct Hinv as [Hn Hl Hc Hs]. intros n. split; [intros ?; apply Hl; by left|].
    assert (start ∈ component) as Hstart by (destruct Hs as [?|?%not_elem_of_nil]; done).
    intros Hr. clear -Hc Hstart Hr. induction Hr as [x|x y z Hxy _ IHr]; [done|].
    apply IHr. by destruct (Hc x y Hstart Hxy) as [?|?%not_elem_of_nil].
  - case_bool_decide as Hin.
    + apply IH; [|cbn in Hf; lia]. destruct Hinv as [Hn Hl Hc Hs]. split.
      * intros n [?|?]; apply Hn; [by left|right; by constructor].
      * intros n [?|?]; apply Hl; [by left|right; by constructor].
      * intros n d Hnc Hnd. destruct (Hc n d Hnc Hnd) as [?|[->|?]%elem_of_cons]; auto.
      * destruct Hs as [?|[->|?]%elem_of_cons]; auto.
    + apply IH; [by apply search_step|]. rewrite length_app.
      assert (nid ∈ node_ids g) as Hnid by (apply (si_nodes _ _ _ _ Hinv); right; constructor).
      assert (size (node_ids g ∖ component) = S (size (node_ids g ∖ ({[nid]} ∪ component)))) as Hsz.
      { assert (node_ids g ∖ component = {[nid]} ∪ node_ids g ∖ ({[nid]} ∪ component)) as ->.
        { apply set_eq. intros x. destruct (decide (x = nid)); set_solver. }
        rewrite size_union by set_solver. by rewrite size_singleton. }
      assert (length (List.filter (fun n => negb (bool_decide (n ∈ {[nid]} ∪ component))) (set_iter (neighbors g nid)))
        <= size (node_ids g)) as Hlen.
      { etrans; [apply List.filter_length_le|]. rewrite set_iter_elements. apply size_neighbors. }
      cbn in Hf. rewrite Hsz in Hf. cbn in Hf. lia.
Qed.

Definition component_of (g : Graph) (start : string) : gset string := default ∅ (bfs (bfs_fuel g) g [start] ∅).

Lemma elem_of_component g start n : start ∈ node_ids g -> n ∈ component_of g start <-> rtc (linked g) start n.
Proof.
  intros Hs. unfold component_of. destruct (bfs_total g start (bfs_fuel g) [start] ∅) as (c & -> & Hc).
  - split; [set_solver| |set_solver|set_solver]. intros x [?|?]; [set_solver|]. assert (x = start) as -> by set_solver. done.
  - unfold bfs_fuel. cbn. rewrite difference_empty_L. lia.
  - apply Hc.
Qed.

(** Every two nodes are joined by a path of edges, whatever their directions. *)
Definition connected (g : Graph) : Prop :=
  forall n d, n ∈ node_ids g -> d ∈ node_ids g -> rtc (linked g) n d.

Lemma linked_sym g n d : linked g n d -> linked g d n.
Proof. unfold linked. tauto. Qed.

Lemma rtc_linked_sym g n d : rtc (linked g) n d -> rtc (linked g) d n.
Proof. induction 1 as [x|x y z Hxy _ IH]; [done|]. eapply rtc_r; [exact IH|]. by apply linked_sym. Qed.

Lemma components_nil g starts visited : components g starts visited = [] <-> forall s, s ∈ starts -> s ∈ visited.
Proof.
  revert visited. induction starts as [|s starts IH]; intros visited; cbn [components].
  { split; [by intros _ s ?%not_elem_of_nil|done]. }
  setoid_rewrite elem_of_cons. case_bool_decide as Hs; [rewrite IH; naive_solver|]. split; [done|]. intros Hall.
  destruct Hs. apply Hall. by left.
Qed.

Lemma components_connected g :
  g_nodes g <> [] -> (1 <? length (components g (set_iter (node_ids g)) ∅))%nat = false <-> connected g.
Proof.
  intros Hne. destruct (set_iter (node_ids g)) as [|s starts] eqn:Es.
  { exfalso. destruct (g_nodes g) as [|n ns] eqn:En; [done|].
    assert (n_id n ∈ set_iter (node_ids g)) as Hn; [|rewrite Es in Hn; by apply not_elem_of_nil in Hn].
    apply elem_of_set_iter, elem_of_list_to_set. rewrite En. constructor. }
  assert (forall n, n ∈ s :: starts <-> n ∈ node_ids g) as Hin by (intros n; by rewrite <- Es, elem_of_set_iter).
  assert (s ∈ node_ids g) as Hs by (apply Hin; constructor).
  cbn [components]. rewrite bool_decide_eq_false_2 by set_solver. fold (component_of g s). cbn [length].
  assert ((1 <? S (length (components g starts (∅ ∪ component_of g s))))%nat = false <->
    components g starts (∅ ∪ component_of g s) = []) as ->.
  { rewrite Nat.ltb_ge. destruct (components g starts _); cbn; split; try done; lia. }
  rewrite components_nil, union_empty_l_L. unfold connected. split.
  - intros Hall. assert (forall n, n ∈ node_ids g -> rtc (linked g) s n) as Hr.
    { intros n [->|Hn]%Hin%elem_of_cons; [done|]. by apply elem_of_component, Hall. }
    intros n d Hn Hd. etrans; [apply rtc_linked_sym|]; by apply Hr.
  - intros Hc n Hn. apply elem_of_component; [done|]. apply Hc; [done|]. apply Hin. by constructor.
Qed.

(** What [validate_dag] asks of a workflow. *)
Record well_formed (g : Graph) : Prop := {
  wf_nodes : g_nodes g <> [];
  wf_edges : forall e, e ∈ g_edges g -> e_source e ∈ node_ids g /\ e_target e ∈ node_ids g;
  wf_commands : forall n, n ∈ g_nodes g -> n_command n <> ""%string;
  wf_acyclic : acyclic g;
  wf_connected : connected g;
}.

Lemma concat_map_nil {A B} (f : A -> list B) l : concat (map f l) = [] <-> forall x, x ∈ l -> f x = [].
Proof.
  induction l as [|x l IH]; cbn; [split; [by intros _ x ?%not_elem_of_nil|done]|].
  setoid_rewrite elem_of_cons. split.
  - intros [Hx Hl]%app_eq_nil y [->|Hy]; [done|]. by apply IH.
  - intros Hall. rewrite (Hall x) by by left. apply IH. intros y Hy. apply Hall. by right.
Qed.

Lemma forall_in_iff {A} (P Q : A -> Prop) (l : list A) :
  (forall x, P x <-> Q x) -> (forall x, x ∈ l -> P x) <-> (forall x, x ∈ l -> Q x).
Proof. naive_solver. Qed.

Lemma omap_nil {A B} (f : A -> option B) l : omap f l = [] <-> forall x, x ∈ l -> f x = None.
Proof.
  induction l as [|x l IH]; cbn; [split; [by intros _ x ?%not_elem_of_nil|done]|].
  setoid_rewrite elem_of_cons. destruct (f x) eqn:E; [split; [done|]; intros Hall; by rewrite Hall in E by by left|].
  rewrite IH. naive_solver.
Qed.

Lemma single_connected g : length (g_nodes g) <= 1 -> connected g.
Proof.
  unfold connected, node_ids. destruct (g_nodes g) as [|n [|m l]]; cbn; [set_solver| |lia].
  intros _ a b Ha Hb. assert (a = n_id n) as -> by set_solver. assert (b = n_id n) as -> by set_solver. done.
Qed.

(** What validation answers. *)
Lemma validated (g : Graph) :
  let '(errors, sorted) := validate_dag g in
  (errors = [] <-> well_formed g) /\ (errors = [] -> is_order g sorted).
Proof.
  unfold validate_dag. case_bool_decide as Hn; [split; [split; [done|]; by intros [? _ _ _ _]|done]|].
  pose proof (topological_sort_correct g) as Ht.
  set (edge_errors := concat _). set (command_errors := omap _ _).
  assert (edge_errors = [] <-> forall e, e ∈ g_edges g -> e_source e ∈ node_ids g /\ e_target e ∈ node_ids g) as He.
  { unfold edge_errors. rewrite concat_map_nil. apply forall_in_iff. intros e.
    do 2 case_bool_decide; cbn; split; try done; tauto. }
  assert (command_errors = [] <-> forall n, n ∈ g_nodes g -> n_command n <> ""%string) as Hc.
  { unfold command_errors. rewrite omap_nil. apply forall_in_iff. intros n.
    case_bool_decide; split; try done; tauto. }
  set (reach_errors := if (1 <? length (g_nodes g))%nat then _ else []).
  assert (reach_errors = [] <-> connected g) as Hr.
  { unfold reach_errors. destruct (Nat.ltb_spec 1 (length (g_nodes g))) as [_|Hl].
    - rewrite <- components_connected by done. by destruct (1 <? _)%nat.
    - split; [intros _; by apply single_connected|done]. }
  clearbody edge_errors command_errors reach_errors.
  destruct (topological_sort g) as [l|e] eqn:Et.
  - destruct Ht as [Ha Ho]. split; [|done]. split.
    + by intros (? & (? & ?%Hr)%app_eq_nil)%app_eq_nil; split; [|apply He|apply Hc|..].
    + intros [_ ->%He ->%Hc _ ->%Hr]. done.
  - destruct Ht as [Ha (m & ->)]. cbn [app].
    assert (edge_errors ++ command_errors ++ [exn_str (ValueError m)] ++ reach_errors <> []) as Hne.
    { by intros (_ & (_ & ?)%app_eq_nil)%app_eq_nil. }
    split; [split; [done|by intros []]|done].
Qed.

(** validation accepts exactly the workflows that can run: with a node, edges only
    between nodes, a command on every node, no cycle, and all nodes connected. For
    them, and only after all these checks, it hands out an order in which every
    node comes after the nodes with an edge into it. *)
Theorem validate_dag_correct (g : Graph) :
  let '(errors, sorted) := validate_dag g in
  (errors = [] <-> well_formed g) /\ (errors = [] -> is_order g sorted).
Proof. exact (validated g). Qed.

(** ** Execution *)

Lemma append_inj_l (s1 s2 t : string) : (s1 ++ t)%string = (s2 ++ t)%string -> s1 = s2.
Proof.
  intros E. assert (forall a b, String.list_ascii_of_string (a ++ b) =
    String.list_ascii_of_string a ++ String.list_ascii_of_string b) as Happ.
  { induction a as [|c a IH]; intros b; [done|]. exact (f_equal (cons c) (IH b)). }
  apply (f_equal String.list_ascii_of_string) in E. rewrite !Happ in E. apply app_inv_tail in E.
  rewrite <- (String.string_of_list_ascii_of_string s1), <- (String.string_of_list_ascii_of_string s2). by rewrite E.
Qed.

(** The context keys once the nodes of [done] have run. *)
Definition keys (done : gset string) : gmap string string :=
  gset_to_gmap "true"%string (set_map (fun id => (id ++ ".done")%string) done).

Lemma keys_done done id : is_Some (keys done !! (id ++ ".done")%string) <-> id ∈ done.
Proof.
  unfold keys. split.
  - intros [x [Hx _]%lookup_gset_to_gmap_Some]. apply elem_of_map in Hx as (id' & E & Hid). by apply append_inj_l in E as ->.
  - intros Hid. exists "true"%string. apply lookup_gset_to_gmap_Some. split; [|done]. apply elem_of_map. by exists id.
Qed.

Lemma keys_insert done id : <[(id ++ ".done")%string := "true"%string]> (keys done) = keys ({[id]} ∪ done).
Proof. unfold keys. rewrite <- gset_to_gmap_union_singleton. f_equal. set_solver. Qed.

(** What lets a node run once the nodes of [done] have run and the others before it
    were skipped: it has no incoming edge, or some node before it ran and each edge
    from one that ran has its condition met. *)
Definition may_run (g : Graph) (done : gset string) (n : string) : Prop :=
  incoming g n = [] \/
  ((exists e, e ∈ incoming g n /\ e_source e ∈ done) /\
   forall e c, e ∈ incoming g n -> e_source e ∈ done -> e_condition e = Some c -> evaluate_condition c (keys done) = true).

Lemma check_incoming_spec es done skipped completed :
  (forall e, e ∈ es -> (e_source e ∈ done /\ e_source e ∉ skipped) \/ (e_source e ∈ skipped /\ e_source e ∉ done)) ->
  default false (check_incoming es (keys done) skipped completed) = true <->
  (completed = true \/ exists e, e ∈ es /\ e_source e ∈ done) /\
  (forall e c, e ∈ es -> e_source e ∈ done -> e_condition e = Some c -> evaluate_condition c (keys done) = true).
Proof.
  revert completed. induction es as [|e es IH]; intros completed Hes; cbn [check_incoming].
  { split; [intros ?; split; [by left|by intros e c ?%not_elem_of_nil]|]. by intros [[?|(e & ?%not_elem_of_nil & _)] _]. }
  specialize (IH) as IH'. assert (forall e', e' ∈ es -> (e_source e' ∈ done /\ e_source e' ∉ skipped) \/
    (e_source e' ∈ skipped /\ e_source e' ∉ done)) as Hes' by (intros e' ?; apply Hes; by constructor).
  setoid_rewrite elem_of_cons. destruct (Hes e ltac:(constructor)) as [[Hd Hs]|[Hs Hd]].
  - rewrite bool_decide_eq_false_2 by done. rewrite bool_decide_eq_true_2 by by apply keys_done. cbn [negb].
    destruct (e_condition e) as [c|] eqn:Ec.
    + destruct (evaluate_condition c (keys done)) eqn:Ev; cbn [negb].
      * rewrite IH by done. split; [|naive_solver]. intros [_ Hall]. split; [right; exists e; auto|].
        intros e' c' [->|Hin] ? ?; [congruence|by eapply Hall].
      * split; [done|]. intros [_ Hall]. rewrite (Hall e c) in Ev; auto.
    + rewrite IH by done. split; [|naive_solver]. intros [_ Hall]. split; [right; exists e; auto|].
      intros e' c' [->|Hin] ? ?; [congruence|by eapply Hall].
  - rewrite bool_decide_eq_true_2, IH by done. naive_solver.
Qed.

Lemma should_execute_spec g n done skipped :
  (forall e, e ∈ incoming g n -> (e_source e ∈ done /\ e_source e ∉ skipped) \/ (e_source e ∈ skipped /\ e_source e ∉ done)) ->
  should_execute g n (keys done) skipped = true <-> may_run g done n.
Proof.
  intros Hes. unfold should_execute, may_run. destruct (incoming g n) as [|e es]; [by split; [left|]|].
  rewrite check_incoming_spec by done. split.
  - intros [[?|?] ?]; [done|by right].
  - intros [?|[? ?]]; [done|]. split; [by right|done].
Qed.

Context (start_command : Node -> outcome CommandResult).

Definition sum_costs (results : list NodeResult) : Z := foldr (fun r c => (r_cost r + c)%Z) 0%Z results.

Lemma sum_costs_app l1 l2 : sum_costs (l1 ++ l2) = (sum_costs l1 + sum_costs l2)%Z.
Proof. unfold sum_costs. induction l1 as [|r l1 IH]; [done|]. cbn. rewrite IH. lia. Qed.

Definition ids_of (results : list NodeResult) : gset string := list_to_set (map r_node_id results).

(** The node of an id, and its result. *)
Definition node_of (g : Graph) (id : string) : Node := default {| n_id := id; n_command := ""; n_label := None |} (node_map g !! id).

Lemma node_of_id g id : n_id (node_of g id) = id.
Proof.
  unfold node_of. destruct (node_map g !! id) as [n|] eqn:E; [|done]. cbn. unfold node_map in E.
  assert (forall ns (m : gmap string Node), (forall id n, m !! id = Some n -> n_id n = id) ->
    forall id n, foldl (fun m n => <[n_id n := n]> m) m ns !! id = Some n -> n_id n = id) as Hf.
  { induction ns as [|x ns IH]; intros m Hm; [exact Hm|]. cbn. apply IH. intros i k. rewrite lookup_insert_Some.
    intros [[? ?]|[? ?]]; [congruence|by apply Hm]. }
  eapply (Hf _ ∅); [|exact E]. intros i k. by rewrite lookup_empty.
Qed.

Lemma execute_node_id n : r_node_id (execute_node start_command n) = n_id n.
Proof. unfold execute_node. destruct (start_command n) as [[]|]; done. Qed.

(** What a run over [ids] does from a state in which the nodes of [done] have run. *)
Record run_spec (g : Graph) (ids : list string) (done : gset string) (more : list NodeResult) (r : DAGResult)
    (results : list NodeResult) : Prop := {
  rs_results : dr_node_results r = results ++ more;
  rs_ids : map r_node_id more `sublist_of` ids;
  rs_nodes : Forall (fun res => res = execute_node start_command (node_of g (r_node_id res))) more;
  rs_cost : dr_total_cost r = (sum_costs results + sum_costs more)%Z;
  rs_success : dr_success r = true <-> Forall (fun res => r_success res = true) more;
  rs_last : forall l1 res l2, more = l1 ++ res :: l2 -> r_success res = false -> l2 = [];
  rs_runs : forall before n after, ids = before ++ n :: after ->
    (forall res, res ∈ more -> r_node_id res ∈ before -> r_success res = true) ->
    n ∈ ids_of more <-> may_run g (done ∪ (ids_of more ∩ list_to_set before)) n;
}.

(** Skipping a node, stopping at a failure, and going on after a success. *)
Lemma run_spec_skip g n ids done more r results :
  NoDup (n :: ids) -> ~ may_run g done n -> run_spec g ids done more r results -> run_spec g (n :: ids) done more r results.
Proof.
  intros [Hn Hnd]%NoDup_cons Hno [H1 H2 H3 H4 H5 H6 H7].
  assert (n ∉ ids_of more) as Hm.
  { unfold ids_of. rewrite elem_of_list_to_set. intros Hin. by apply (elem_of_sublist _ _ _ Hin) in H2. }
  split; try done; [by constructor|]. intros [|x before] m after E Hok; injection E as <- E.
  - cbn. rewrite intersection_empty_r_L, union_empty_r_L. tauto.
  - rewrite (H7 before m after E) by (intros res Hr Hb; apply Hok; [done|by constructor]).
    assert (ids_of more ∩ list_to_set (n :: before) = ids_of more ∩ list_to_set before) as ->; [set_solver|done].
Qed.

Lemma run_spec_fail g n ids done results :
  NoDup (n :: ids) -> may_run g done n -> let res := execute_node start_command (node_of g n) in r_success res = false ->
  forall r, dr_node_results r = results ++ [res] -> dr_success r = false -> dr_total_cost r = (sum_costs results + r_cost res)%Z ->
  run_spec g (n :: ids) done [res] r results.
Proof.
  intros Hnd Hmay res Hf r Hr Hs Hcost. assert (r_node_id res = n) as Hid by (unfold res; by rewrite execute_node_id, node_of_id).
  split; try done.
  - cbn. rewrite Hid. constructor. apply sublist_nil_l.
  - constructor; [by rewrite Hid|constructor].
  - rewrite Hcost. cbn. lia.
  - rewrite Hs. split; [done|]. intros Hall%Forall_cons. destruct Hall. congruence.
  - intros [|x l1] y l2 E; [by injection E as _ <-|]. injection E as _ E. by destruct l1.
  - intros [|x before] m after E Hok; injection E as <- E.
    + cbn. unfold ids_of. cbn. rewrite Hid, intersection_empty_r_L, !union_empty_r_L.
      split; [intros _; exact Hmay|intros _; set_solver].
    + exfalso. assert (r_success res = true) as Ht; [|congruence]. apply Hok; rewrite ?Hid; constructor.
Qed.

Lemma run_spec_success g n ids done more r results :
  NoDup (n :: ids) -> may_run g done n -> let res := execute_node start_command (node_of g n) in r_success res = true ->
  run_spec g ids ({[n]} ∪ done) more r (results ++ [res]) -> run_spec g (n :: ids) done (res :: more) r results.
Proof.
  intros [Hn Hnd]%NoDup_cons Hmay res Hs [H1 H2 H3 H4 H5 H6 H7].
  assert (r_node_id res = n) as Hid by (unfold res; by rewrite execute_node_id, node_of_id).
  assert (n ∉ ids_of more) as Hm.
  { unfold ids_of. rewrite elem_of_list_to_set. intros Hin. by apply (elem_of_sublist _ _ _ Hin) in H2. }
  split.
  - by rewrite H1, <- app_assoc.
  - cbn. rewrite Hid. by constructor.
  - constructor; [by rewrite Hid|done].
  - rewrite H4, sum_costs_app. change (sum_costs (res :: more)) with (r_cost res + sum_costs more)%Z.
    change (sum_costs [res]) with (r_cost res + 0)%Z. lia.
  - rewrite H5, Forall_cons. tauto.
  - intros [|x l1] y l2 E; injection E as <- E; [congruence|by apply (H6 l1 y l2)].
  - intros [|x before] m after E Hok; injection E as <- E.
    + cbn. unfold ids_of. cbn. rewrite Hid, intersection_empty_r_L, !union_empty_r_L.
      split; [intros _; exact Hmay|intros _; set_solver].
    + assert (m <> n) as Hmn by (intros ->; apply Hn; rewrite E; set_solver).
      assert (ids_of (res :: more) = {[n]} ∪ ids_of more) as -> by (unfold ids_of; cbn; by rewrite Hid).
      assert (m ∈ {[n]} ∪ ids_of more <-> m ∈ ids_of more) as -> by set_solver.
      rewrite (H7 before m after E) by (intros res' Hr Hb; apply Hok; [by constructor|by constructor]).
      assert (n ∉ (list_to_set before : gset string)) as Hnb by (rewrite E in Hn; set_solver).
      assert ({[n]} ∪ done ∪ ids_of more ∩ list_to_set before = done ∪ ({[n]} ∪ ids_of more) ∩ list_to_set (n :: before)) as ->;
        [set_solver|done].
Qed.

Lemma run_nodes_spec g l ids before results total done skipped :
  is_order g l -> (forall e, e ∈ g_edges g -> e_source e ∈ node_ids g /\ e_target e ∈ node_ids g) ->
  l = before ++ ids -> total = sum_costs results ->
  (forall n, n ∈ before <-> n ∈ done \/ n ∈ skipped) -> done ## skipped ->
  exists more, run_spec g ids done more (run_nodes start_command g ids results total (keys done) skipped) results.
Proof.
  intros [Hperm Hord] Hedges. revert before results total done skipped.
  induction ids as [|n ids IH]; intros before results total done skipped Hl Htot Hbefore Hdisj; cbn [run_nodes].
  { exists []. split; cbn; try done; [by rewrite app_nil_r|rewrite Htot; lia|by intros [] ? ? ?|by intros [] ? ? ?]. }
  assert (NoDup (n :: ids)) as Hnd.
  { assert (NoDup l) as Hndl by (rewrite Hperm; apply NoDup_elements). rewrite Hl in Hndl. by apply NoDup_app in Hndl as (_ & _ & ?). }
  assert (n ∉ before) as Hnb.
  { assert (NoDup l) as Hndl by (rewrite Hperm; apply NoDup_elements). rewrite Hl in Hndl.
    apply NoDup_app in Hndl as (_ & Hd & _). intros Hin. by apply (Hd n Hin), list_elem_of_here. }
  assert (should_execute g n (keys done) skipped = true <-> may_run g done n) as Hshould.
  { apply should_execute_spec. intros e He. unfold incoming in He.
    rewrite list_elem_of_In, List.filter_In, <- list_elem_of_In, bool_decide_eq_true in He. destruct He as [He Het].
    assert (e_source e ∈ before) as Hin.
    { eapply Hord; [exact Hl|]. exists e. split; [|done]. apply elem_of_valid_edges. split; [done|]. by apply Hedges. }
    apply Hbefore in Hin. set_solver. }
  fold (node_of g n). destruct (should_execute g n (keys done) skipped) eqn:Es; cbn [negb].
  - assert (may_run g done n) as Hmay by by apply Hshould.
    destruct (r_success (execute_node start_command (node_of g n))) eqn:Er; cbn [negb].
    + rewrite keys_insert. destruct (IH (before ++ [n]) (results ++ [execute_node start_command (node_of g n)])
        (total + r_cost (execute_node start_command (node_of g n)))%Z ({[n]} ∪ done) skipped) as [more Hmore].
      * by rewrite <- app_assoc.
      * rewrite sum_costs_app, Htot. cbn. lia.
      * intros m. rewrite elem_of_app, Hbefore, list_elem_of_singleton. set_solver.
      * assert (n ∉ skipped) by (intros ?; apply Hnb, Hbefore; by right). set_solver.
      * exists (execute_node start_command (node_of g n) :: more). by apply run_spec_success.
    + exists [execute_node start_command (node_of g n)]. apply run_spec_fail; try done. cbn. by rewrite Htot.
  - destruct (IH (before ++ [n]) results total done ({[n]} ∪ skipped)) as [more Hmore]; [by rewrite <- app_assoc|done| | |].
    + intros m. rewrite elem_of_app, Hbefore, list_elem_of_singleton. set_solver.
    + assert (n ∉ done) by (intros ?; apply Hnb, Hbefore; by left). set_solver.
    + exists more. apply run_spec_skip; [done| |done]. intros Hmay%Hshould. congruence.
Qed.

(** C16: execution. A workflow that is not well formed runs nothing. A well-formed one
    runs its nodes along one order of them, each at most once and none after a
    failure; the outcome is a success exactly when every node that ran succeeded,
    and the cost is the sum of theirs. Up to a failure a node runs exactly when it
    has no incoming edge, or when some node with an edge into it ran and every edge
    from a node that ran has its condition met: the check for a source that is
    neither done nor skipped never decides. *)
Theorem execution_correct (g : Graph) :
  let r := execute start_command g in
  (~ well_formed g -> dr_success r = false /\ dr_node_results r = [] /\ dr_total_cost r = 0%Z) /\
  (well_formed g -> exists order, is_order g order /\
     let results := dr_node_results r in
     map r_node_id results `sublist_of` order /\
     Forall (fun res => res = execute_node start_command (node_of g (r_node_id res))) results /\
     dr_total_cost r = sum_costs results /\
     (dr_success r = true <-> Forall (fun res => r_success res = true) results) /\
     (forall l1 res l2, results = l1 ++ res :: l2 -> r_success res = false -> l2 = []) /\
     (forall before n after, order = before ++ n :: after ->
        (forall res, res ∈ results -> r_node_id res ∈ before -> r_success res = true) ->
        n ∈ ids_of results <-> may_run g (ids_of results ∩ list_to_set before) n)).
Proof.
  cbv zeta. unfold execute. pose proof (validated g) as Hv. destruct (validate_dag g) as [errors sorted].
  destruct Hv as [Hv Ho]. destruct errors as [|e errors].
  - split; [intros Hn; by destruct Hn; apply Hv|]. intros Hwf. exists sorted. split; [by apply Ho|].
    destruct (run_nodes_spec g sorted sorted [] [] 0%Z ∅ ∅ (Ho eq_refl) (wf_edges g Hwf)) as (more & [H1 H2 H3 H4 H5 H6 H7]);
      [done|done|set_solver|set_solver|].
    change (keys ∅) with (∅ : gmap string string) in *. rewrite H1. cbn [app]. split_and!; try done.
    intros before n after E Hok. rewrite (H7 before n after E Hok). by rewrite union_empty_l_L.
  - split; [done|]. intros Hwf%Hv. done.
Qed.

End theorems.
