(* ===== verification/Health.v ===== *)
(** * Health: is the network up, and is an account rate limited

    The trackers of sova/supervisor/network_health.py and
    sova/supervisor/github_quota.py, fed by every gh call and by the probe, and the
    two gates of the supervisor that read them. Times are whole seconds of the
    monotonic clock; the events a tracker emits are kept with it, the newest first. *)

From stdpp Require Import base gmap strings list sorting pretty.
From S2P Require Import Prelude Gates.

Local Open Scope string_scope.
Local Open Scope sova_scope.

(** The attributes of a ShellResult that are looked at. *)
Record ShellResult := { is_rate_limited : bool; is_network_unreachable : bool; success : bool }.

(** ** Connectivity *)

Module Connectivity.

(** [class ConnectivityTracker] *)
Record t := {
  failure_threshold : Z;
  consecutive_failures : Z;
  is_down : bool;
  down_since : option Z;
  healthy_since : option Z;
  last_source : string;
  feed : list (bool * string);
}.

Definition FAILURE_THRESHOLD : Z := 2.

(** [ConnectivityTracker()] *)
Definition create (failure_threshold now : Z) : t :=
  {| failure_threshold := failure_threshold; consecutive_failures := 0; is_down := false; down_since := None;
     healthy_since := Some now; last_source := ""; feed := [] |}.

(** [record_failure] *)
Definition record_failure (source : string) (decisive : bool) (now : Z) (s : t) : t :=
  let failures := (consecutive_failures s + 1)%Z in
  if is_down s || (negb decisive && Z.ltb failures (failure_threshold s))
  then {| failure_threshold := failure_threshold s; consecutive_failures := failures; is_down := is_down s;
          down_since := down_since s; healthy_since := healthy_since s; last_source := source; feed := feed s |}
  else {| failure_threshold := failure_threshold s; consecutive_failures := failures; is_down := true;
          down_since := Some now; healthy_since := None; last_source := source; feed := (true, source) :: feed s |}.

(** [record_success] *)
Definition record_success (source : string) (now : Z) (s : t) : t :=
  if negb (is_down s)
  then {| failure_threshold := failure_threshold s; consecutive_failures := 0; is_down := false;
          down_since := down_since s;
          healthy_since := match healthy_since s with None => Some now | since => since end;
          last_source := source; feed := feed s |}
  else {| failure_threshold := failure_threshold s; consecutive_failures := 0; is_down := false; down_since := None;
          healthy_since := Some now; last_source := source; feed := (false, source) :: feed s |}.

(** [healthy_for_seconds] *)
Definition healthy_for_seconds (now : Z) (s : t) : Z :=
  if is_down s then 0%Z else match healthy_since s with None => 0%Z | Some since => (now - since)%Z end.

(** [class ConnectivityStatus], [get_status] *)
Record Status := {
  st_is_down : bool;
  st_down_for_seconds : Z;
  st_healthy_for_seconds : Z;
  st_consecutive_failures : Z;
  st_last_source : string;
}.

Definition get_status (now : Z) (s : t) : Status :=
  {| st_is_down := is_down s;
     st_down_for_seconds := match down_since s with Some since => (now - since)%Z | None => 0%Z end;
     st_healthy_for_seconds := healthy_for_seconds now s;
     st_consecutive_failures := consecutive_failures s;
     st_last_source := last_source s |}.

(** [track_connectivity] *)
Definition track_connectivity (result : ShellResult) (source : string) (now : Z) (s : t) : t :=
  if is_network_unreachable result then record_failure source false now s
  else if success result then record_success source now s
  else s.

Definition PROBE_HOSTS : list string := ["api.github.com"; "api.anthropic.com"].

(** [probe_connectivity]; [resolves] says which hosts answer, and [now] is when the
    outcome is recorded. *)
Definition probe_connectivity (resolves : string -> bool) (now : Z) (s : t) : bool * t :=
  match List.find resolves PROBE_HOSTS with
  | Some host => (true, record_success ("probe:" ++ host) now s)
  | None => (false, record_failure "probe" true now s)
  end.

End Connectivity.

(** ** Rate limits *)

Module Quota.

Definition DEFAULT_COOLDOWN_SECONDS : Z := 300.

(** [class GitHubQuotaTracker]; the feed holds the times of the hit events
    ([true]) and of the recovery events. *)
Record t := {
  cooldown_seconds : Z;
  last_hit_at : option Z;
  hits_in_window : Z;
  was_limited : bool;
  last_emit_at : option Z;
  feed : list (bool * Z);
}.

Definition create (cooldown_seconds : Z) : t :=
  {| cooldown_seconds := cooldown_seconds; last_hit_at := None; hits_in_window := 0; was_limited := false;
     last_emit_at := None; feed := [] |}.

(** [should_skip] *)
Definition should_skip (now : Z) (s : t) : bool :=
  match last_hit_at s with None => false | Some hit => Z.ltb (now - hit) (cooldown_seconds s) end.

(** [record_rate_limit_hit] *)
Definition record_rate_limit_hit (now : Z) (s : t) : t :=
  let emits := match last_emit_at s with None => true | Some last => Z.ltb 60 (now - last) end in
  {| cooldown_seconds := cooldown_seconds s; last_hit_at := Some now; hits_in_window := hits_in_window s + 1;
     was_limited := true;
     last_emit_at := if emits then Some now else last_emit_at s;
     feed := if emits then (true, now) :: feed s else feed s |}.

(** [record_success] *)
Definition record_success (now : Z) (s : t) : t :=
  if was_limited s && negb (should_skip now s)
  then {| cooldown_seconds := cooldown_seconds s; last_hit_at := last_hit_at s; hits_in_window := 0;
          was_limited := false; last_emit_at := last_emit_at s; feed := (false, now) :: feed s |}
  else s.

(** [class GitHubQuotaStatus], [get_status] *)
Record Status := {
  is_limited : bool;
  st_last_hit_at : option Z;
  st_hits_in_window : Z;
  cooldown_remaining_seconds : Z;
}.

Definition get_status (now : Z) (s : t) : Status :=
  {| is_limited := should_skip now s; st_last_hit_at := last_hit_at s; st_hits_in_window := hits_in_window s;
     cooldown_remaining_seconds :=
       match last_hit_at s with Some hit => Z.max 0 (cooldown_seconds s - (now - hit)) | None => 0%Z end |}.

End Quota.

(** ** The process *)

(** The trackers of a process: one for the network, one per GitHub identity. *)
Record Health := { network : Connectivity.t; trackers : gmap string Quota.t }.

(** [identity or _DEFAULT_KEY] *)
Definition key_of (identity : string) : string := if bool_decide (identity = "") then "__default__" else identity.

(** [get_github_quota_tracker] *)
Definition tracker (identity : string) (h : Health) : Quota.t :=
  default (Quota.create Quota.DEFAULT_COOLDOWN_SECONDS) (trackers h !! key_of identity).

(** [track_rate_limit]: what every gh call reports. *)
Definition track_rate_limit (result : ShellResult) (identity : string) (now : Z) (h : Health) : Health :=
  let quota := tracker identity h in
  let quota := if is_rate_limited result then Quota.record_rate_limit_hit now quota
               else if success result then Quota.record_success now quota
               else quota in
  {| trackers := <[key_of identity := quota]> (trackers h);
     network := Connectivity.track_connectivity result "github" now (network h) |}.

(** The gates of the supervisor: the status each is given comes from the trackers. *)
Definition connectivity_gate (enabled block_spawns : bool) (now : Z) (h : Health) : option BlockReason :=
  let status := Connectivity.get_status now (network h) in
  check_connectivity_gate enabled block_spawns
    (Ret (if Connectivity.st_is_down status then Some (pretty (Connectivity.st_down_for_seconds status)) else None)).

Definition rate_limit_gate (github_user : string) (now : Z) (h : Health) : option BlockReason :=
  let quota := tracker github_user h in
  check_github_rate_limit_gate
    (Ret (if Quota.should_skip now quota
          then Some (pretty (Quota.cooldown_remaining_seconds (Quota.get_status now quota))) else None)).

(** What happens to the trackers, at a time. *)
Inductive event := GhCall (identity : string) (result : ShellResult) | Probe (resolves : string -> bool).

Definition observe (h : Health) (e : Z * event) : Health :=
  match e.2 with
  | GhCall identity result => track_rate_limit result identity e.1 h
  | Probe resolves => {| network := (Connectivity.probe_connectivity resolves e.1 (network h)).2; trackers := trackers h |}
  end.

(** A process that starts at [t0] and lives through a history, the oldest first. *)
Definition boot (t0 : Z) : Health :=
  {| network := Connectivity.create Connectivity.FAILURE_THRESHOLD t0; trackers := ∅ |}.

Definition live (t0 : Z) (history : list (Z * event)) : Health := foldl observe (boot t0) history.

Local Close Scope string_scope.

(** ** The network, from its history *)

Lemma foldl_snoc_eq {A B} (f : A -> B -> A) a l x : foldl f a (l ++ [x]) = f (foldl f a l) x.
Proof. by rewrite foldl_app. Qed.

Lemma live_snoc t0 h e : live t0 (h ++ [e]) = observe (live t0 h) e.
Proof. apply foldl_snoc_eq. Qed.

(** What an event says of the network; a call that failed on its own says nothing. *)
Definition reached (e : Z * event) : bool :=
  match e.2 with
  | GhCall _ r => negb (is_network_unreachable r) && success r
  | Probe resolves => existsb resolves Connectivity.PROBE_HOSTS
  end.

Definition unreached (e : Z * event) : bool :=
  match e.2 with
  | GhCall _ r => is_network_unreachable r
  | Probe resolves => negb (existsb resolves Connectivity.PROBE_HOSTS)
  end.

Definition decisive (e : Z * event) : bool := match e.2 with GhCall _ _ => false | Probe _ => unreached e end.

(** The events since the network was last reached, the newest first. *)
Definition since_reached (history : list (Z * event)) : list (Z * event) :=
  PyStr.take_while (fun e => negb (reached e)) (rev history).

(** The network counts as down: since it was last reached a probe failed, or two calls. *)
Definition offline (history : list (Z * event)) : bool :=
  existsb decisive (since_reached history) || (2 <=? length (List.filter unreached (since_reached history)))%nat.

(** A statement about histories has held since the event at a time, and not before it. *)
Definition since (p : list (Z * event) -> bool) (history : list (Z * event)) (at_ : Z) : Prop :=
  exists before e after, history = before ++ e :: after /\ e.1 = at_ /\ p before = false /\
    forall l, l `prefix_of` after -> p (before ++ e :: l) = true.

Lemma prefix_of_snoc {A} (l k : list A) x : l `prefix_of` k ++ [x] -> l = k ++ [x] \/ l `prefix_of` k.
Proof.
  intros [m Hm]. destruct m as [|y m _] using rev_ind; [left; by rewrite app_nil_r in Hm|right].
  rewrite app_assoc in Hm. apply app_inj_tail in Hm as [-> _]. by eexists.
Qed.

Lemma omap_ext_in {A B} (f g : A -> option B) (l : list A) : (forall x, x ∈ l -> f x = g x) -> omap f l = omap g l.
Proof.
  induction l as [|x l IH]; intros Hfg; [done|]. cbn. rewrite <- Hfg by left.
  rewrite IH; [done|]. intros y Hy. apply Hfg. by right.
Qed.

Lemma since_snoc p h e at_ :
  since p (h ++ [e]) at_ <-> p (h ++ [e]) = true /\ ((p h = false /\ at_ = e.1) \/ (p h = true /\ since p h at_)).
Proof.
  split.
  - intros (before & e' & after & Heq & <- & Hb & Hall).
    destruct after as [|e2 after' _] using rev_ind.
    + apply app_inj_tail in Heq as [<- <-]. split; [by apply (Hall [])|]. left. done.
    + rewrite app_comm_cons, app_assoc in Heq. apply app_inj_tail in Heq as [-> <-]. split.
      * rewrite <- app_assoc. cbn. by apply Hall.
      * right. split; [apply (Hall after'); by eexists|]. exists before, e', after'. split_and!; [done..|].
        intros l Hl. apply Hall. etrans; [exact Hl|by eexists].
  - intros [Hp [[Hh ->]|[Hh (before & e' & after & -> & <- & Hb & Hall)]]].
    + exists h, e, []. split_and!; [done..|]. by intros l ->%prefix_nil_inv.
    + exists before, e', (after ++ [e]). split_and!; [by rewrite <- app_assoc|done|done|].
      intros l [->|Hl]%prefix_of_snoc; [by rewrite <- app_assoc in Hp|by apply Hall].
Qed.

Lemma since_true p h at_ : since p h at_ -> p h = true.
Proof. intros (before & e & after & -> & _ & _ & Hall). by apply Hall. Qed.

Lemma since_reached_snoc h e : since_reached (h ++ [e]) = if reached e then [] else e :: since_reached h.
Proof. unfold since_reached. rewrite rev_app_distr. cbn. by destruct (reached e). Qed.

(** The changes of the network's state along a history, the newest first. *)
Definition changes (history : list (Z * event)) : list bool :=
  rev (omap (fun i => let before := offline (take i history) in let after := offline (take (S i) history) in
                      if Bool.eqb before after then None else Some after) (seq 0 (length history))).

Lemma changes_snoc h e :
  changes (h ++ [e]) = (if Bool.eqb (offline h) (offline (h ++ [e])) then [] else [offline (h ++ [e])]) ++ changes h.
Proof.
  unfold changes. rewrite length_app. cbn [length]. rewrite Nat.add_1_r, seq_S, omap_app, rev_app_distr. cbn [omap].
  f_equal.
  - change (rev (omap (fun i => if Bool.eqb (offline (take i (h ++ [e]))) (offline (take (S i) (h ++ [e]))) then None
                                else Some (offline (take (S i) (h ++ [e])))) [length h])
            = if Bool.eqb (offline h) (offline (h ++ [e])) then [] else [offline (h ++ [e])]).
    cbn. rewrite take_app_length, (take_ge (h ++ [e])) by (rewrite length_app; cbn; lia). by destruct (Bool.eqb _ _).
  - f_equal. apply omap_ext_in. intros i [_ Hi]%elem_of_seq. by rewrite !take_app_le by lia.
Qed.

Lemma offline_snoc h e :
  offline (h ++ [e]) = if reached e then false
    else offline h || decisive e || (unreached e && (1 <=? length (List.filter unreached (since_reached h)))%nat).
Proof.
  unfold offline. rewrite since_reached_snoc. destruct (reached e); [done|]. cbn.
  destruct (decisive e), (existsb _ _), (unreached e); cbn; try done; by destruct (length _) as [|[|?]].
Qed.

(** What an event does to the network's tracker. *)
Definition feel (n : Connectivity.t) (e : Z * event) : Connectivity.t :=
  match e.2 with
  | GhCall _ result => Connectivity.track_connectivity result "github" e.1 n
  | Probe resolves => (Connectivity.probe_connectivity resolves e.1 n).2
  end.

Lemma network_snoc t0 h e : network (live t0 (h ++ [e])) = feel (network (live t0 h)) e.
Proof. rewrite live_snoc. by destruct e as [now []]. Qed.

Lemma find_existsb {A} (f : A -> bool) l : existsb f l = bool_decide (is_Some (List.find f l)).
Proof. induction l as [|x l IH]; [done|]. cbn. by destruct (f x). Qed.

(** The three ways an event is felt. *)
Lemma feel_cases n e :
  (reached e = true /\ unreached e = false /\ exists source, feel n e = Connectivity.record_success source e.1 n) \/
  (reached e = false /\ unreached e = true /\ exists source, feel n e = Connectivity.record_failure source (decisive e) e.1 n) \/
  (reached e = false /\ unreached e = false /\ decisive e = false /\ feel n e = n).
Proof.
  destruct e as [now [who [lim unr suc]|resolves]]; unfold decisive, reached, unreached, feel; cbn [fst snd].
  - unfold Connectivity.track_connectivity. cbn. destruct unr, suc; cbn; eauto 6.
  - unfold Connectivity.probe_connectivity. rewrite !find_existsb.
    destruct (List.find _ _); [left|right; left]; (split_and!; [done|done|by eexists]).
Qed.

(** The tracker after a history: what its fields say of it. *)
Record network_state (t0 : Z) (h : list (Z * event)) (n : Connectivity.t) : Prop := {
  ns_threshold : Connectivity.failure_threshold n = Connectivity.FAILURE_THRESHOLD;
  ns_failures : Connectivity.consecutive_failures n = Z.of_nat (length (List.filter unreached (since_reached h)));
  ns_down : Connectivity.is_down n = offline h;
  ns_down_since : forall at_, Connectivity.down_since n = Some at_ <-> since offline h at_;
  ns_healthy_since : forall at_, Connectivity.healthy_since n = Some at_ <->
    since (fun l => negb (offline l)) h at_ \/ (at_ = t0 /\ forall l, l `prefix_of` h -> offline l = false);
  ns_known : offline h = false -> is_Some (Connectivity.healthy_since n);
  ns_feed : map fst (Connectivity.feed n) = changes h;
}.

Lemma never_offline_snoc (t0 : Z) h e (at_ : Z) :
  (at_ = t0 /\ forall l, l `prefix_of` h ++ [e] -> offline l = false) <->
  offline (h ++ [e]) = false /\ (at_ = t0 /\ forall l, l `prefix_of` h -> offline l = false).
Proof.
  split.
  - intros [-> Hall]. split_and!; [by apply Hall|done|]. intros l Hl. apply Hall. etrans; [done|by eexists].
  - intros (Hnow & -> & Hall). split; [done|]. intros l [->|Hl]%prefix_of_snoc; [done|by apply Hall].
Qed.

(** The network's state as it was: nothing of the history but its state matters. *)
Lemma since_step h e at_ (p : list (Z * event) -> bool) :
  p (h ++ [e]) = p h -> since p (h ++ [e]) at_ <-> since p h at_.
Proof.
  intros Hp. rewrite since_snoc, Hp. split; [by intros [? [[??]|[_ ?]]]; congruence|].
  intros Hs. pose proof (since_true _ _ _ Hs). eauto.
Qed.

Lemma network_state_keep t0 h e n n' :
  network_state t0 h n -> offline (h ++ [e]) = offline h ->
  Connectivity.failure_threshold n' = Connectivity.failure_threshold n ->
  Connectivity.consecutive_failures n' = Z.of_nat (length (List.filter unreached (since_reached (h ++ [e])))) ->
  Connectivity.is_down n' = Connectivity.is_down n -> Connectivity.down_since n' = Connectivity.down_since n ->
  Connectivity.healthy_since n' = Connectivity.healthy_since n -> Connectivity.feed n' = Connectivity.feed n ->
  network_state t0 (h ++ [e]) n'.
Proof.
  intros [Ht Hf Hd Hds Hhs Hk Hfd] Ho E1 E2 E3 E4 E5 E6. split; [congruence|done|congruence|..].
  - intros at_. by rewrite E4, Hds, since_step.
  - intros at_. rewrite E5, Hhs, since_step by (by rewrite Ho). rewrite never_offline_snoc.
    split; [|by intros [?|[??]]; eauto]. intros [?|[-> Hall]]; [by left|right]. split; [|done]. rewrite Ho. by apply Hall.
  - rewrite Ho, E5. exact Hk.
  - rewrite E6, Hfd, changes_snoc, Ho. by destruct (offline h).
Qed.

Lemma network_state_flip t0 h e n n' :
  network_state t0 h n -> offline (h ++ [e]) = negb (offline h) ->
  Connectivity.failure_threshold n' = Connectivity.failure_threshold n ->
  Connectivity.consecutive_failures n' = Z.of_nat (length (List.filter unreached (since_reached (h ++ [e])))) ->
  Connectivity.is_down n' = negb (offline h) ->
  Connectivity.down_since n' = (if offline h then None else Some e.1) ->
  Connectivity.healthy_since n' = (if offline h then Some e.1 else None) ->
  map fst (Connectivity.feed n') = negb (offline h) :: map fst (Connectivity.feed n) ->
  network_state t0 (h ++ [e]) n'.
Proof.
  intros [Ht Hf Hd Hds Hhs Hk Hfd] Ho E1 E2 E3 E4 E5 E6. split; [congruence|done|congruence|..].
  - intros at_. rewrite E4, since_snoc, Ho. destruct (offline h); cbn; naive_solver.
  - intros at_. rewrite E5, since_snoc, never_offline_snoc, Ho. destruct (offline h) eqn:Eo; cbn; [|naive_solver].
    split; [naive_solver|]. intros [[_ [[_ ->]|[? _]]]|(_ & _ & Hall)]; [done..|]. by rewrite Hall in Eo.
  - rewrite Ho, E5. destruct (offline h); [by eexists|done].
  - rewrite E6, Hfd, changes_snoc, Ho. by destruct (offline h).
Qed.

Lemma network_state_live t0 h : network_state t0 h (network (live t0 h)).
Proof.
  induction h as [|e h IH] using rev_ind.
  { split; [done|done|done| | |by eexists|done].
    - intros at_. split; [done|]. by intros (? & ? & ? & ?%app_cons_not_nil & _).
    - intros at_. split; [|by intros [(? & ? & ? & ?%app_cons_not_nil & _)|[-> _]]].
      intros [= <-]. right. split; [done|]. by intros l ->%prefix_nil_inv. }
  rewrite network_snoc. set (n := network (live t0 h)) in *.
  pose proof (ns_down _ _ _ IH) as Hd. pose proof (ns_failures _ _ _ IH) as Hf. pose proof (ns_threshold _ _ _ IH) as Ht.
  pose proof (offline_snoc h e) as Ho. pose proof (since_reached_snoc h e) as Hs.
  destruct (feel_cases n e) as [(Hr & Hu & src & ->)|[(Hr & Hu & src & ->)|(Hr & Hu & Hdec & ->)]];
    rewrite Hr in Ho, Hs; rewrite ?Hu in Ho; cbn [andb] in Ho.
  - unfold Connectivity.record_success. rewrite Hd. destruct (offline h) eqn:Eo; cbn [negb].
    + eapply network_state_flip; rewrite ?Eo, ?Ho, ?Hs; try done.
    + destruct (ns_known _ _ _ IH Eo) as [since_ Hsince].
      eapply network_state_keep; [exact IH|..]; rewrite ?Eo, ?Ho, ?Hs, ?Hsince, ?Hd; done.
  - unfold Connectivity.record_failure. rewrite Hd, Hf, Ht. set (k := length _) in *.
    assert (Z.of_nat k + 1 = Z.of_nat (length (List.filter unreached (since_reached (h ++ [e])))))%Z as Hk.
    { rewrite Hs. cbn. rewrite Hu. cbn. lia. }
    destruct (offline h || (negb (decisive e) && _)) eqn:Ec.
    + eapply network_state_keep; [exact IH|..]; cbn; try done. rewrite Ho.
      destruct (offline h); [done|]. cbn in Ec. apply andb_true_iff in Ec as [->%negb_true_iff Ec%Z.ltb_lt].
      unfold Connectivity.FAILURE_THRESHOLD in Ec. destruct k; [done|lia].
    + apply orb_false_iff in Ec as [Eo Ec]. eapply network_state_flip; [exact IH|..]; cbn; rewrite ?Eo; try done.
      rewrite Ho, Eo. cbn. apply andb_false_iff in Ec as [->%negb_false_iff|Ec]; [done|]. apply Z.ltb_ge in Ec.
      unfold Connectivity.FAILURE_THRESHOLD in Ec. destruct k as [|k']; [lia|]. cbn. by rewrite orb_true_r.
  - eapply network_state_keep; [exact IH|..]; try done; rewrite ?Ho, ?Hs, ?Hdec, ?orb_false_r; [done|].
    cbn. by rewrite Hu.
Qed.

(** ** The rate limits, from the calls of an identity *)

(** The gh calls that report to the tracker of an identity. *)
Definition calls (identity : string) (h : list (Z * event)) : list (Z * ShellResult) :=
  omap (fun e => match e.2 with
                 | GhCall who r => if bool_decide (key_of who = key_of identity) then Some (e.1, r) else None
                 | Probe _ => None
                 end) h.

Definition track (q : Quota.t) (c : Z * ShellResult) : Quota.t :=
  if is_rate_limited c.2 then Quota.record_rate_limit_hit c.1 q
  else if success c.2 then Quota.record_success c.1 q else q.

(** An identity's tracker depends on its own calls only. *)
Lemma tracker_live identity t0 h :
  tracker identity (live t0 h) = foldl track (Quota.create Quota.DEFAULT_COOLDOWN_SECONDS) (calls identity h).
Proof.
  induction h as [|[now e] h IH] using rev_ind; [done|]. rewrite live_snoc. unfold calls. rewrite omap_app, foldl_app.
  fold (calls identity h). rewrite <- IH. destruct e as [who r|resolves]; [|done].
  change (omap _ [(now, GhCall who r)]) with
    (match (if bool_decide (key_of who = key_of identity) then Some (now, r) else None) with Some c => [c] | None => [] end).
  unfold observe, track_rate_limit, tracker. cbn [fst snd trackers]. case_bool_decide as Hk.
  - by rewrite Hk, lookup_insert_eq.
  - by rewrite lookup_insert_ne.
Qed.

Lemma elem_of_calls identity h c :
  c ∈ calls identity h <-> exists who, (c.1, GhCall who c.2) ∈ h /\ key_of who = key_of identity.
Proof.
  unfold calls. rewrite list_elem_of_omap. split.
  - intros ([now [who r|]] & Hin & Hc); [|done]. cbn in Hc. case_bool_decide; [|done]. injection Hc as <-. by exists who.
  - intros (who & Hin & Hk). exists (c.1, GhCall who c.2). split; [done|]. cbn. rewrite bool_decide_true by done. by destruct c.
Qed.

(** The last hit of a list of calls. *)
Definition last_limited (cs : list (Z * ShellResult)) : option Z :=
  fst <$> last (List.filter (fun c => is_rate_limited c.2) cs).

(** Whether the newest event of the feed says that the account is limited. *)
Definition announced (q : Quota.t) : bool := match Quota.feed q with [] => false | (b, _) :: _ => b end.

(** A tracker after the calls it heard of, at times up to [now]. *)
Record quota_state (cs : list (Z * ShellResult)) (now : Z) (q : Quota.t) : Prop := {
  qs_cooldown : Quota.cooldown_seconds q = Quota.DEFAULT_COOLDOWN_SECONDS;
  qs_hit : Quota.last_hit_at q = last_limited cs;
  qs_past : forall t, Quota.last_hit_at q = Some t -> (t <= now)%Z;
  qs_announced : announced q = Quota.was_limited q;
  qs_emit : forall t, Quota.last_emit_at q = Some t -> exists hit, Quota.last_hit_at q = Some hit /\ (t <= hit)%Z;
  qs_clear : Quota.was_limited q = false -> Quota.should_skip now q = false;
}.

Lemma last_limited_snoc cs c :
  last_limited (cs ++ [c]) = if is_rate_limited c.2 then Some c.1 else last_limited cs.
Proof.
  unfold last_limited. rewrite List.filter_app. cbn. destruct (is_rate_limited c.2); [by rewrite last_snoc|].
  by rewrite app_nil_r.
Qed.

Lemma quota_state_later cs now now' q : (now <= now')%Z -> quota_state cs now q -> quota_state cs now' q.
Proof.
  intros Hle [Hc Hh Hp Ha He Hcl]. split; try done.
  - intros t Ht. specialize (Hp t Ht). lia.
  - intros Hw. specialize (Hcl Hw). unfold Quota.should_skip in *. destruct (Quota.last_hit_at q); [|done].
    apply Z.ltb_ge in Hcl. apply Z.ltb_ge. lia.
Qed.

Lemma quota_state_track cs now q c :
  (now <= c.1)%Z -> quota_state cs now q -> quota_state (cs ++ [c]) c.1 (track q c).
Proof.
  intros Hle Hq%(quota_state_later _ _ c.1); [|done]. pose proof Hq as [Hc Hh Hp Ha He Hcl]. destruct c as [t r]. cbn [fst] in *.
  unfold track. cbn [fst snd]. destruct (is_rate_limited r) eqn:Er.
  - unfold Quota.record_rate_limit_hit. split; cbn; try done.
    + rewrite last_limited_snoc. cbn. by rewrite Er.
    + by intros ? [= <-].
    + unfold announced. cbn. destruct (Quota.last_emit_at q) as [e|] eqn:Ee; [|done]. destruct (60 <? t - e)%Z eqn:E60; [done|].
      fold (announced q). rewrite Ha. destruct (Quota.was_limited q) eqn:Ew; [done|]. specialize (Hcl eq_refl).
      destruct (He e eq_refl) as (hit & Hhit & Hle2). unfold Quota.should_skip in Hcl. rewrite Hhit, Hc in Hcl.
      apply Z.ltb_ge in Hcl, E60. unfold Quota.DEFAULT_COOLDOWN_SECONDS in Hcl. lia.
    + intros e Hemit. exists t. split; [done|]. destruct (Quota.last_emit_at q) as [e0|] eqn:Ee.
      * destruct (60 <? t - e0)%Z; injection Hemit as <-; [done|]. destruct (He e0 eq_refl) as (hit & Hhit & ?).
        specialize (Hp _ Hhit). lia.
      * by injection Hemit as <-.
  - assert (last_limited (cs ++ [(t, r)]) = last_limited cs) as Hl by (rewrite last_limited_snoc; cbn; by rewrite Er).
    destruct (success r); [|by split; rewrite ?Hl]. unfold Quota.record_success.
    destruct (Quota.was_limited q && _) eqn:E; [|by split; rewrite ?Hl].
    apply andb_true_iff in E as [_ E%negb_true_iff]. by split; cbn; rewrite ?Hl.
Qed.

Lemma quota_state_fold cs now :
  StronglySorted Z.le (map fst cs) -> Forall (fun c => (c.1 <= now)%Z) cs ->
  quota_state cs now (foldl track (Quota.create Quota.DEFAULT_COOLDOWN_SECONDS) cs).
Proof.
  revert now. induction cs as [|c cs IH] using rev_ind; intros now Hs Hall; [by split; cbn|]. rewrite foldl_snoc_eq.
  apply Forall_app in Hall as [_ Hc%Forall_inv]. rewrite map_app in Hs. cbn in Hs.
  cbn in Hc. apply (quota_state_later _ c.1); [lia|]. apply (quota_state_track cs c.1); [lia|]. apply IH.
  - by apply StronglySorted_app_1_l in Hs.
  - apply Forall_forall. intros x Hx. eapply StronglySorted_app_1_elem_of; [exact Hs| |by left].
    by apply list_elem_of_fmap_2.
Qed.

Lemma calls_before identity h now :
  Forall (fun e => (e.1 <= now)%Z) h -> Forall (fun c => (c.1 <= now)%Z) (calls identity h).
Proof.
  intros Hall. apply Forall_forall. intros c (who & Hin & _)%elem_of_calls. rewrite Forall_forall in Hall.
  exact (Hall _ Hin).
Qed.

Lemma calls_sorted identity h : StronglySorted Z.le (map fst h) -> StronglySorted Z.le (map fst (calls identity h)).
Proof.
  induction h as [|[t e] h IH]; intros Hs; [constructor|]. apply StronglySorted_inv in Hs as [Hs Hall]. specialize (IH Hs).
  unfold calls. cbn. fold (calls identity h). destruct e as [who r|]; [|done]. case_bool_decide; [|done]. cbn.
  constructor; [done|]. rewrite Forall_forall in Hall |- *. intros x Hx. apply list_elem_of_fmap in Hx as ([t' r'] & -> & Hx).
  apply elem_of_calls in Hx as (who' & Hin & _). apply Hall, list_elem_of_fmap. by exists (t', GhCall who' r').
Qed.

Lemma quota_state_live identity t0 h now :
  StronglySorted Z.le (map fst h) -> Forall (fun e => (e.1 <= now)%Z) h ->
  quota_state (calls identity h) now (tracker identity (live t0 h)).
Proof. intros Hs Hall. rewrite tracker_live. apply quota_state_fold; [by apply calls_sorted|by apply calls_before]. Qed.

(** In a list of calls in order, the last hit is the latest. *)
Lemma last_limited_recent cs now k :
  StronglySorted Z.le (map fst cs) ->
  (exists t, last_limited cs = Some t /\ (now - t < k)%Z) <->
  (exists c, c ∈ cs /\ is_rate_limited c.2 = true /\ (now - c.1 < k)%Z).
Proof.
  induction cs as [|c cs IH] using rev_ind; intros Hs.
  { split; [by intros (? & ? & _)|]. by intros (? & ?%not_elem_of_nil & _). }
  rewrite map_app in Hs. rewrite last_limited_snoc. destruct (is_rate_limited c.2) eqn:Ec.
  - split.
    + intros (t & [= <-] & Hlt). exists c. split; [|done]. apply elem_of_app. right. by left.
    + intros (c' & Hin & _ & Hlt). exists c.1. split; [done|]. apply elem_of_app in Hin as [Hin|Hin%list_elem_of_singleton]; [|by subst].
      assert (c'.1 <= c.1)%Z; [|lia]. eapply StronglySorted_app_1_elem_of; [exact Hs| |by left]. by apply list_elem_of_fmap_2.
  - rewrite IH by (by apply StronglySorted_app_1_l in Hs). setoid_rewrite elem_of_app. split; [naive_solver|].
    intros (c' & [Hin|Hin%list_elem_of_singleton] & Hl & ?); [by eauto|congruence].
Qed.

(** ** Theorems *)

(** the network's tracker. Whatever gh calls and probes a process sees, its
    connectivity gate, when it is on, holds spawns back exactly while the network
    counts as down: since it was last reached a probe failed on every host, or two
    calls could not reach it. The status says since when that is so, or since when it
    is not, and one event is announced for each change, in order. A call that was
    refused, or failed for reasons of its own, never changes the state. *)
Theorem connectivity_exact (t0 now : Z) (h : list (Z * event)) (enabled block_spawns : bool) :
  let n := network (live t0 h) in
  (is_Some (connectivity_gate enabled block_spawns now (live t0 h)) <->
     enabled = true /\ block_spawns = true /\ offline h = true) /\
  (forall at_, Connectivity.down_since n = Some at_ <-> since offline h at_) /\
  (forall at_, Connectivity.healthy_since n = Some at_ <->
     since (fun l => negb (offline l)) h at_ \/ (at_ = t0 /\ forall l, l `prefix_of` h -> offline l = false)) /\
  map fst (Connectivity.feed n) = changes h.
Proof.
  pose proof (network_state_live t0 h) as Hn. split_and!; [|apply Hn..].
  unfold connectivity_gate, Connectivity.get_status. cbn. rewrite (ns_down _ _ _ Hn). unfold check_connectivity_gate.
  destruct enabled, block_spawns, (offline h); cbn; split; try done; try (by intros [? ?]); naive_solver.
Qed.

(** the rate limit of a GitHub identity. With a clock that does not go back, the
    gate holds spawns for an identity back exactly while a call of that very identity
    was refused less than five minutes ago; what other identities do never matters.
    The cooldown that is reported lies between 0 and 300 seconds and is positive
    exactly then. The newest event of the feed always tells the truth: while the gate
    is closed a limit is announced, and the first call that succeeds once it is open
    announces the recovery and starts the count of hits anew. *)
Theorem rate_limit_exact (identity : string) (t0 now : Z) (h : list (Z * event))
    (Hclock : StronglySorted Z.le (map fst h)) (Hnow : Forall (fun e => (e.1 <= now)%Z) h) :
  let q := tracker identity (live t0 h) in
  let remaining := Quota.cooldown_remaining_seconds (Quota.get_status now q) in
  let closed := exists t who r, (t, GhCall who r) ∈ h /\ key_of who = key_of identity /\
                  is_rate_limited r = true /\ (now - t < 300)%Z in
  (is_Some (rate_limit_gate identity now (live t0 h)) <-> closed) /\
  (0 <= remaining <= 300)%Z /\ ((0 < remaining)%Z <-> closed) /\
  (closed -> announced q = true) /\
  (announced q = true -> ~ closed -> forall r, is_rate_limited r = false -> success r = true ->
     let q' := tracker identity (observe (live t0 h) (now, GhCall identity r)) in
     Quota.feed q' = (false, now) :: Quota.feed q /\ Quota.hits_in_window q' = 0%Z).
Proof.
  pose proof (quota_state_live identity t0 h now Hclock Hnow) as [Hc Hhit Hpast Ha _ Hclear].
  set (q := tracker identity (live t0 h)) in *. set (closed := exists t who r, _).
  assert (Quota.should_skip now q = true <-> closed) as Hskip.
  { unfold Quota.should_skip, closed. rewrite Hc, Hhit.
    etrans; [|etrans; [apply (last_limited_recent (calls identity h) now 300), calls_sorted, Hclock|]].
    - destruct (last_limited _); [rewrite Z.ltb_lt|]; naive_solver.
    - setoid_rewrite elem_of_calls. split.
      + intros ([t r] & (who & ? & ?) & ? & ?). by exists t, who, r.
      + intros (t & who & r & ? & ? & ? & ?). exists (t, r). by split_and!; [exists who|..]. }
  assert (closed -> announced q = true) as Han.
  { rewrite Ha, <- Hskip. destruct (Quota.was_limited q); [done|]. by rewrite Hclear. }
  split_and!.
  - rewrite <- Hskip. unfold rate_limit_gate. fold q. destruct (Quota.should_skip now q); cbn; [|by split; [intros []|]].
    by split; [|eexists].
  - unfold Quota.get_status. cbn. destruct (Quota.last_hit_at q); lia.
  - unfold Quota.get_status. cbn. rewrite Hc. destruct (Quota.last_hit_at q) as [t|] eqn:E; [|lia].
    specialize (Hpast _ eq_refl). unfold Quota.DEFAULT_COOLDOWN_SECONDS. lia.
  - rewrite <- Hskip. unfold Quota.get_status, Quota.should_skip. cbn. destruct (Quota.last_hit_at q); [|by split; [lia|]].
    rewrite Z.ltb_lt. lia.
  - exact Han.
  - rewrite <- Hskip, Ha. intros Hw Hopen r Hl Hs. cbn. unfold observe, track_rate_limit, tracker. cbn.
    rewrite lookup_insert_eq. cbn. fold (tracker identity (live t0 h)). fold q. rewrite Hl, Hs. unfold Quota.record_success.
    rewrite Hw. by destruct (Quota.should_skip now q).
Qed.

Module Examples.

Local Open Scope string_scope.

Definition ok : ShellResult := {| is_rate_limited := false; is_network_unreachable := false; success := true |}.
Definition limited : ShellResult := {| is_rate_limited := true; is_network_unreachable := false; success := false |}.
Definition lost : ShellResult := {| is_rate_limited := false; is_network_unreachable := true; success := false |}.

(** One account is limited, then the connection goes: the other account is not
    limited, and one lost call is not yet an outage. *)
Definition day : list (Z * event) :=
  [(10%Z, GhCall "ann" ok); (20%Z, GhCall "ann" limited); (30%Z, GhCall "bob" lost); (40%Z, GhCall "" lost);
   (50%Z, Probe (fun host => bool_decide (host = "api.anthropic.com"))); (60%Z, GhCall "bob" ok)].

Example outage_seen :
  map (fun k => offline (take k day)) [2; 3; 4; 5] = [false; false; true; false] /\
  Connectivity.feed (network (live 0 day)) = [(false, "probe:api.anthropic.com"); (true, "github")] /\
  rate_limit_gate "ann" 100 (live 0 day) = Some {| gate := "rate_limit";
    detail := "GitHub API rate limited (cooldown: 220s remaining)" |} /\
  rate_limit_gate "bob" 100 (live 0 day) = None.
Proof. split_and!; vm_compute; reflexivity. Qed.

Lemma rate_limit_exact_witness : is_Some (rate_limit_gate "ann" 100 (live 0 day)).
Proof.
  apply (rate_limit_exact "ann" 0 100 day).
  - repeat constructor; vm_compute; discriminate.
  - repeat constructor; vm_compute; discriminate.
  - exists 20%Z, "ann", limited. split_and!; [by right; left|reflexivity|reflexivity|lia].
Defined.

End Examples.
