(* ===== verification/Routing.v ===== *)
(** * Routing: which model a task gets

    sova/llm/routing.py. The routing table of the configuration is a map from keys
    (task types and complexity tiers share it) to models; text is ASCII. *)

From stdpp Require Import base gmap strings list.
From S2P Require Import Prelude Complexity.
Import Complexity.Complexity.

Local Open Scope string_scope.

Definition DEFAULT_ROUTING (tier : ComplexityTier) : string :=
  match tier with
  | TRIVIAL => "haiku" | SIMPLE => "sonnet" | MODERATE => "sonnet" | COMPLEX => "opus" | EPIC => "opus"
  end.

Definition MODEL_FAMILIES : list string := ["opus"; "sonnet"; "haiku"; "fable"].

Definition TASK_TYPE_KEYS : list string :=
  ["triage"; "extraction"; "pr_body"; "commit_message"; "develop"; "develop_fix"; "simplify"; "review"; "review_panel";
   "self_review"; "validate"; "monitor_ci"; "confidence_score"; "rebase"; "address_review"; "rearrange_commits";
   "research"; "spec"; "harden"; "generate_tasks"; "planner"].

(** [get_model_family] *)
Definition get_model_family (model_id : string) : option string :=
  let lower := PyStr.lower model_id in
  List.find (fun family => PyStr.contains lower family) MODEL_FAMILIES.

(** [_is_pinned_version] *)
Definition is_pinned_version (model_id : string) : bool := negb (bool_decide (model_id ∈ MODEL_FAMILIES)).

(** [_pin_to_configured_model]; no model and the empty text are alike. *)
Definition pin_to_configured_model (alias : string) (agent_model : option string) : string :=
  match agent_model with
  | None => alias
  | Some agent_model =>
      if bool_decide (agent_model = "") || negb (is_pinned_version agent_model) then alias
      else if bool_decide (is_Some (get_model_family alias))
              && bool_decide (get_model_family alias = get_model_family agent_model)
      then agent_model else alias
  end.

(** [_apply_pin] *)
Definition apply_pin (model : string) (agent_model : option string) (reason : string) : string * string :=
  let pinned := pin_to_configured_model model agent_model in
  if negb (bool_decide (pinned = model)) then (pinned, reason ++ ",pinned->" ++ pinned) else (model, reason).

(** [route_task_type]; the configuration is its routing table. *)
Definition route_task_type (task_type : option string) (llm_config : option (gmap string string))
    (agent_model : option string) : option (string * string) :=
  match task_type, llm_config with
  | Some task_type, Some routing =>
      if bool_decide (task_type = "") then None
      else (fun override => apply_pin override agent_model ("task_type:" ++ task_type ++ "->" ++ override)) <$> routing !! task_type
  | _, _ => None
  end.

(** [route_model] *)
Definition route_model (complexity : ComplexityTier) (task_type : option string)
    (llm_config : option (gmap string string)) (agent_model : option string) : string * string :=
  match route_task_type task_type llm_config agent_model with
  | Some routed => routed
  | None =>
      match llm_config ≫= fun routing => routing !! tier_value complexity with
      | Some override => apply_pin override agent_model ("config:override->" ++ override)
      | None =>
          let model := DEFAULT_ROUTING complexity in
          apply_pin model agent_model ("complexity:" ++ tier_value complexity ++ "->" ++ model)
      end
  end.

(** [_vendor_prefix] *)
Definition vendor_prefix (model_id : string) : option string :=
  match PyStr.split_once model_id "/" with
  | (vendor, Some rest) => if bool_decide (rest = "") then None else Some (PyStr.lower vendor)
  | (_, None) => None
  end.

(** [task_type_model_compatible] *)
Definition task_type_model_compatible (model : option string) (catalog : option (list string)) : bool :=
  match model, catalog with
  | Some model, Some catalog =>
      if bool_decide (model = "") || bool_decide (catalog = []) then true
      else if bool_decide (model ∈ catalog) then true
      else
        let vendor := vendor_prefix model in
        match get_model_family model with
        | None => existsb (fun candidate => bool_decide (vendor_prefix candidate = vendor)) catalog
        | Some family =>
            existsb (fun candidate => bool_decide (get_model_family candidate = Some family)
                                      && bool_decide (vendor_prefix candidate = vendor)) catalog
        end
  | _, _ => true
  end.

(** [resolve_extraction_model] *)
Definition resolve_extraction_model (cfg : option (gmap string string)) : string :=
  match cfg ≫= fun routing => routing !! "extraction" with
  | Some override => if bool_decide (override = "") then "haiku" else override
  | None => "haiku"
  end.

(** ** The rules *)

(** The model the table names for a task, and why: the route of its type, then that
    of its tier, then the default of its tier. *)
Definition table_model (complexity : ComplexityTier) (task_type : option string)
    (llm_config : option (gmap string string)) : string * string :=
  let routing := default ∅ llm_config in
  let by_type := match task_type with
                 | Some key => if bool_decide (key = "") then None
                               else (fun m => (m, "task_type:" ++ key ++ "->" ++ m)) <$> routing !! key
                 | None => None
                 end in
  let by_tier := (fun m => (m, "config:override->" ++ m)) <$> routing !! tier_value complexity in
  match by_type, by_tier with
  | Some r, _ => r
  | None, Some r => r
  | None, None => (DEFAULT_ROUTING complexity, "complexity:" ++ tier_value complexity ++ "->" ++ DEFAULT_ROUTING complexity)
  end.

(** The agent's model stands in for a model: a version, not a bare family name, of a
    family that is known and the same. *)
Definition stands_in (agent_model : option string) (model : string) : Prop :=
  exists agent, agent_model = Some agent /\ agent <> "" /\ agent ∉ MODEL_FAMILIES /\
    is_Some (get_model_family model) /\ get_model_family agent = get_model_family model.

Lemma pin_spec alias agent_model :
  (stands_in agent_model alias /\ agent_model = Some (pin_to_configured_model alias agent_model)) \/
  (~ stands_in agent_model alias /\ pin_to_configured_model alias agent_model = alias).
Proof.
  unfold stands_in, pin_to_configured_model, is_pinned_version. destruct agent_model as [agent|]; [|right; naive_solver].
  repeat case_bool_decide; cbn; try (right; split; [|done]; naive_solver). left. split; [|done]. exists agent.
  by split_and!.
Qed.

Lemma string_app_empty_r (s : string) : s ++ "" = s.
Proof. induction s as [|c s IH]; [done|]. change (String c (s ++ "") = String c s). by rewrite IH. Qed.

Lemma apply_pin_eq model agent_model reason :
  apply_pin model agent_model reason =
  (pin_to_configured_model model agent_model,
   reason ++ if decide (pin_to_configured_model model agent_model = model) then ""
             else ",pinned->" ++ pin_to_configured_model model agent_model).
Proof.
  unfold apply_pin. case_bool_decide as E; destruct (decide _); try done. cbn. rewrite E. by rewrite string_app_empty_r.
Qed.

Lemma route_model_pins complexity task_type llm_config agent_model :
  route_model complexity task_type llm_config agent_model =
  apply_pin (table_model complexity task_type llm_config).1 agent_model (table_model complexity task_type llm_config).2.
Proof.
  unfold route_model, route_task_type, table_model. destruct llm_config as [routing|]; cbn.
  - destruct task_type as [key|]; [case_bool_decide; [|destruct (routing !! key); [done|]]|]; cbn;
      by destruct (routing !! tier_value complexity).
  - rewrite lookup_empty. destruct task_type as [key|]; [|done]. case_bool_decide; [done|]. by rewrite lookup_empty.
Qed.

(** the model of a task. It is the one the routing table names for the task's
    type, else for its tier, else the default of its tier; only the agent's own model
    may stand in for it, and does exactly when it is a version of the same known
    family, so the family is always the one the table names. The reason says which
    rule decided, for which model, and whether it was replaced. *)
Theorem route_model_correct (complexity : ComplexityTier) (task_type : option string)
    (llm_config : option (gmap string string)) (agent_model : option string) :
  let '(named, why) := table_model complexity task_type llm_config in
  let '(model, reason) := route_model complexity task_type llm_config agent_model in
  (stands_in agent_model named -> agent_model = Some model) /\
  (~ stands_in agent_model named -> model = named) /\
  get_model_family model = get_model_family named /\
  reason = why ++ (if decide (model = named) then "" else ",pinned->" ++ model) /\
  (forall routed, route_task_type task_type llm_config agent_model = Some routed -> routed = (model, reason)).
Proof.
  pose proof (route_model_pins complexity task_type llm_config agent_model) as Hr.
  destruct (table_model complexity task_type llm_config) as [named why] eqn:Et. cbn [fst snd] in Hr.
  rewrite apply_pin_eq in Hr. rewrite Hr. split_and!.
  - intros Hs. by destruct (pin_spec named agent_model) as [[_ ?]|[? _]].
  - intros Hs. by destruct (pin_spec named agent_model) as [[? _]|[_ ?]].
  - destruct (pin_spec named agent_model) as [[(agent & Ha & _ & _ & _ & Hf) Heq]|[_ ->]]; [|done].
    rewrite Ha in Heq. assert (pin_to_configured_model named agent_model = agent) as -> by congruence. done.
  - done.
  - intros routed Hrt. unfold route_model in Hr. by rewrite Hrt in Hr.
Qed.

(** The keys of task types are not the names of tiers, so a route for a type is never
    read as the route of a tier. *)
Lemma task_types_are_no_tiers : Forall (fun key => tier_of_value key = None) TASK_TYPE_KEYS.
Proof. repeat constructor. Qed.

Lemma existsb_elem {A} (f : A -> bool) (l : list A) : existsb f l = true <-> exists x, x ∈ l /\ f x = true.
Proof. rewrite List.existsb_exists. by setoid_rewrite list_elem_of_In. Qed.

(** a model is compatible with a runtime exactly when nothing is known against
    it: there is no model or no catalog to check, or the catalog has a model written
    in the same vendor's dialect, of the same family where the family is known. In
    particular a model of a catalog is compatible with it, a longer catalog only
    helps, and a model that the agent's model of the same dialect stands in for is
    exactly as compatible as its stand-in. *)
Theorem compatible_exact (model : string) (catalog : list string) :
  (task_type_model_compatible (Some model) (Some catalog) = true <->
     model = "" \/ catalog = [] \/
     exists c, c ∈ catalog /\ vendor_prefix c = vendor_prefix model /\
       (get_model_family model = None \/ get_model_family c = get_model_family model)) /\
  (forall agent, stands_in (Some agent) model -> vendor_prefix agent = vendor_prefix model ->
     task_type_model_compatible (Some agent) (Some catalog) = task_type_model_compatible (Some model) (Some catalog)).
Proof.
  assert (forall m, task_type_model_compatible (Some m) (Some catalog) = true <->
    m = "" \/ catalog = [] \/ exists c, c ∈ catalog /\ vendor_prefix c = vendor_prefix m /\
      (get_model_family m = None \/ get_model_family c = get_model_family m)) as Hex.
  { intros m. unfold task_type_model_compatible. destruct (decide (m = "")) as [->|Hm]; [cbn; naive_solver|].
    destruct (decide (catalog = [])) as [->|Hc]; [rewrite orb_true_r; naive_solver|].
    rewrite !bool_decide_false by done. cbn [orb]. case_bool_decide as Hin; [by split; [eauto 8|]|].
    destruct (get_model_family m) as [family|] eqn:E; rewrite existsb_elem.
    - setoid_rewrite andb_true_iff. setoid_rewrite bool_decide_eq_true. naive_solver.
    - setoid_rewrite bool_decide_eq_true. naive_solver. }
  split; [apply Hex|]. intros agent (a & [= <-] & Hne & _ & Hsome & Hf) Hv. apply eq_bool_prop_intro.
  rewrite !Is_true_true, !Hex, Hf, Hv. destruct Hsome as [f Hsome]. split; [naive_solver|].
  intros [->|[?|?]]; [|naive_solver..]. by vm_compute in Hsome.
Qed.

Module Examples.

(** A route that names a version, or a model of another vendor, gives way to the
    agent's model too. *)
Example explicit_route_replaced :
  route_model MODERATE (Some "validate") (Some {["validate" := "ollama/sonnet"]}) (Some "claude-sonnet-5") =
    ("claude-sonnet-5", "task_type:validate->ollama/sonnet,pinned->claude-sonnet-5") /\
  route_model COMPLEX None (Some {["complex" := "claude-opus-4-7"]}) (Some "claude-opus-4-6") =
    ("claude-opus-4-6", "config:override->claude-opus-4-7,pinned->claude-opus-4-6").
Proof. split; vm_compute; reflexivity. Qed.

Example unknown_family_by_vendor :
  task_type_model_compatible (Some "claude-nova-1") (Some ["claude-opus-5"]) = true /\
  task_type_model_compatible (Some "ollama/sonnet") (Some ["claude-sonnet-5"]) = false.
Proof. split; vm_compute; reflexivity. Qed.

End Examples.
