(* ===== verification/Commits.v ===== *)
(** * Commits: conventional commit lines

    sova/core/steps/commit_convention.py, the builder of a commit's first line in
    sova/core/steps/commit.py, that of a pull request's title in
    sova/core/steps/create_pr.py, and the check of the configured types and scopes in
    sova/config/models.py. A text is the list of its ASCII characters; the regular
    expressions are written out as matchers, none of them needs to backtrack. *)

From stdpp Require Import base strings list.
From Stdlib Require Import Ascii.
From S2P Require Import Prelude.

Notation text := (list ascii).
Notation "'t:' s" := (PyStr.to_list s%string) (at level 9, s at level 9, format "'t:' s").

(** ** Characters and pieces of text *)

Definition char_in (low high : nat) (c : ascii) : bool :=
  let n := nat_of_ascii c in (low <=? n)%nat && (n <=? high)%nat.

Definition is_upper (c : ascii) : bool := char_in 65 90 c.
Definition is_lower (c : ascii) : bool := char_in 97 122 c.

(** [[a-z0-9]] and [[a-z0-9_-]] *)
Definition is_alnum (c : ascii) : bool := is_lower c || PyStr.is_digit c.
Definition is_scope_char (c : ascii) : bool := is_alnum c || Ascii.eqb c "_" || Ascii.eqb c "-".

Definition rstrip (l : text) : text := PyStr.drop_while_end PyStr.is_space l.

(** [s.startswith(p)], and the rest of [s] when it does. *)
Fixpoint after_prefix (p s : text) : option text :=
  match p, s with
  | [], _ => Some s
  | c :: p, d :: s => if Ascii.eqb c d then after_prefix p s else None
  | _ :: _, [] => None
  end.

Definition ends_with (s p : text) : bool := bool_decide (is_Some (after_prefix (rev p) (rev s))).

(** [s.partition(sep)]: the text before the first separator, and the text after it. *)
Fixpoint partition (sep s : text) : text * option text :=
  match after_prefix sep s with
  | Some rest => ([], Some rest)
  | None => match s with
            | [] => ([], None)
            | c :: s => let '(head, rest) := partition sep s in (c :: head, rest)
            end
  end.

(** [s.rsplit(c, 1)[0]] *)
Definition before_last (c : ascii) (s : text) : text :=
  if bool_decide (c ∈ s) then rev (tl (PyStr.drop_while (fun d => negb (Ascii.eqb c d)) (rev s))) else s.

(** [s.split("/")] *)
Fixpoint split_slash (word : text) (s : text) : list text :=
  match s with
  | [] => [rev word]
  | c :: s => if Ascii.eqb c "/" then rev word :: split_slash [] s else split_slash (c :: word) s
  end.

(** [" ".join(s.strip().split())] *)
Fixpoint join_words (ws : list text) : text :=
  match ws with
  | [] => []
  | [w] => w
  | w :: ws => w ++ " "%char :: join_words ws
  end.

Definition flatten (s : text) : text := join_words (PyStr.words [] s).

(** ** The convention *)

Definition MAX_LINE_LENGTH : nat := 72.
Definition SCOPELESS_TYPE : text := t:"ci".

(** [_LINE_RE.match]: the type, the scope and the subject. *)
Definition match_line (line : text) : option (text * option text * text) :=
  match line with
  | [] => None
  | c :: rest =>
      if negb (is_lower c) then None
      else
        let type := c :: PyStr.take_while is_alnum rest in
        let subject_of scope r :=
          match PyStr.drop_while PyStr.is_space r with
          | [] => None
          | s => if bool_decide ("010"%char ∈ s) then None else Some (type, scope, s)
          end in
        match PyStr.drop_while is_alnum rest with
        | d :: r =>
            if Ascii.eqb d ":" then subject_of None r
            else if Ascii.eqb d "("
            then match PyStr.take_while (fun x => negb (Ascii.eqb x ")")) r, PyStr.drop_while (fun x => negb (Ascii.eqb x ")")) r with
                 | (_ :: _) as scope, _ :: e :: r => if Ascii.eqb e ":" then subject_of (Some scope) r else None
                 | _, _ => None
                 end
            else None
        | [] => None
        end
  end.

(** The rule for the first letters of a subject. *)
Definition good_start (subject : text) : bool :=
  match subject with
  | [] => false
  | c :: rest => negb (is_upper c) || match rest with d :: _ => is_upper d | [] => false end
  end.

(** [is_valid_commit_line] *)
Definition is_valid_commit_line (line : text) (types scopes : list text) : bool :=
  let candidate := PyStr.strip_list line in
  if bool_decide (candidate = []) || (MAX_LINE_LENGTH <? length candidate)%nat then false
  else
    match match_line candidate with
    | None => false
    | Some (commit_type, scope, subject) =>
        if negb (bool_decide (commit_type ∈ types)) then false
        else
          let scope_accepted :=
            if bool_decide (commit_type = SCOPELESS_TYPE)
            then match scope with Some s => bool_decide (s ∈ scopes) | None => true end
            else match scope with Some s => negb (bool_decide (s = [])) && bool_decide (s ∈ scopes) | None => false end in
          scope_accepted && good_start subject
    end.

(** [resolve_default_scope], [resolve_default_type] *)
Definition resolve_default_scope (scopes : list text) (preferred : text) : text :=
  match scopes with
  | [] => preferred
  | first :: _ => if bool_decide (preferred ∈ scopes) then preferred else first
  end.

Definition resolve_default_type (types : list text) (preferred : text) : text :=
  match types with
  | [] => preferred
  | first :: _ =>
      if bool_decide (preferred ∈ types) then preferred
      else default first (List.find (fun candidate => negb (bool_decide (candidate = SCOPELESS_TYPE))) types)
  end.

(** [format_type_scope] *)
Definition format_type_scope (commit_type scope : text) : text :=
  if bool_decide (commit_type = SCOPELESS_TYPE) then commit_type else commit_type ++ "("%char :: scope ++ [")"%char].

(** [match_type_prefix]: the type, and the text after the prefix. *)
Definition match_prefix_of (subject type : text) : option (text * text) :=
  match after_prefix type subject with
  | Some (c :: r) =>
      if Ascii.eqb c ":" then Some (type, PyStr.drop_while PyStr.is_space r)
      else if Ascii.eqb c "("
      then match PyStr.drop_while (fun x => negb (Ascii.eqb x ")")) r with
           | _ :: d :: r => if Ascii.eqb d ":" then Some (type, PyStr.drop_while PyStr.is_space r) else None
           | _ => None
           end
      else None
  | _ => None
  end.

Definition match_type_prefix (subject : text) (types : list text) : option (text * text) :=
  head (omap (match_prefix_of subject) (sort_by (fun t => [(- Z.of_nat (length t))%Z]) types)).

(** [strip_type_prefix] *)
Definition strip_type_prefix (subject : text) (types : list text) : text :=
  match match_type_prefix subject types with Some (_, rest) => rest | None => subject end.

(** ** From changed paths *)

(** [_path_segments] *)
Definition path_segments (path : text) : list text :=
  List.filter (fun p => negb (bool_decide (p = []))) (split_slash [] (PyStr.strip_list path)).

(** [_match_scope_segment] *)
Definition match_scope_segment (path : text) (scopes : list text) : option text :=
  let parts := path_segments path in
  match last parts with
  | None => None
  | Some last =>
      match List.find (fun segment => bool_decide (segment ∈ scopes)) (take (length parts - 1) parts) with
      | Some segment => Some segment
      | None =>
          if (2 <? length parts)%nat then None
          else
            let stem := before_last "." last in
            if bool_decide (stem ∈ scopes) then Some stem
            else if bool_decide (last ∈ scopes) then Some last else None
      end
  end.

(** The loop of [infer_scope_from_paths]: the scopes in the order they are first seen,
    with how many paths each has; [None] is its [return default_scope]. *)
Fixpoint bump (scope : text) (counts : list (text * nat)) : list (text * nat) :=
  match counts with
  | [] => [(scope, 1%nat)]
  | (s, n) :: counts => if bool_decide (s = scope) then (s, S n) :: counts else (s, n) :: bump scope counts
  end.

Fixpoint count_scopes (paths : list text) (scopes : list text) (counts : list (text * nat)) : option (list (text * nat)) :=
  match paths with
  | [] => Some counts
  | path :: paths =>
      match match_scope_segment path scopes with
      | None => None
      | Some scope => count_scopes paths scopes (bump scope counts)
      end
  end.

(** [max(order, key=lambda s: (counts[s], -order.index(s)))]: the first of the most. *)
Definition most (counts : list (text * nat)) : option (text * nat) :=
  foldl (fun best c => match best with
                       | None => Some c
                       | Some b => if (b.2 <? c.2)%nat then Some c else Some b
                       end) None counts.

(** [infer_scope_from_paths]; no files and [None] are alike. *)
Definition infer_scope_from_paths (changed_files scopes : list text) (preferred : text) : text :=
  let default_scope := resolve_default_scope scopes preferred in
  match count_scopes changed_files scopes [] with
  | None => default_scope
  | Some counts => match most counts with None => default_scope | Some (scope, _) => scope end
  end.

Definition DOCS_DIR_NAMES : list text := [t:"docs"; t:"documentation"; t:"doc"].
Definition TEST_DIR_NAMES : list text := [t:"tests"; t:"test"; t:"spec"; t:"specs"; t:"__tests__"].

(** [_is_docs_only_path], [_is_test_only_path] *)
Definition is_docs_only_path (path : text) : bool :=
  match path_segments path with first :: _ => bool_decide (first ∈ DOCS_DIR_NAMES) | [] => false end.

Definition is_test_only_path (path : text) : bool :=
  let parts := path_segments path in
  match head parts, last parts with
  | Some first, Some name =>
      if bool_decide (first ∈ TEST_DIR_NAMES) || bool_decide (t:"__tests__" ∈ parts) then true
      else
        let stem := before_last "." name in
        bool_decide (is_Some (after_prefix t:"test_" name)) || ends_with name t:"_test.py" || ends_with stem t:"_test"
        || ends_with stem t:".test" || ends_with stem t:".spec"
  | _, _ => false
  end.

(** [infer_type_from_paths] *)
Definition infer_type_from_paths (changed_files types : list text) (preferred : text) : text :=
  if bool_decide (changed_files = []) then resolve_default_type types preferred
  else if bool_decide (t:"docs" ∈ types) && forallb is_docs_only_path changed_files then t:"docs"
  else if bool_decide (t:"test" ∈ types) && forallb is_test_only_path changed_files then t:"test"
  else resolve_default_type types preferred.

(** ** The builders *)

(** [lowercase_first_letter] *)
Definition lowercase_first_letter (s : text) : text :=
  match s with
  | [] => []
  | c :: rest => match rest with
                 | d :: _ => if is_upper c && is_upper d then s else PyStr.lower_char c :: rest
                 | [] => [PyStr.lower_char c]
                 end
  end.

(** [truncate_commit_line] *)
Definition clip (room : nat) (subject : text) : text :=
  let clipped := rstrip (take room subject) in
  let cuts_mid_word := match subject !! room with Some c => negb (PyStr.is_space c) | None => false end in
  let clipped := if cuts_mid_word && bool_decide (" "%char ∈ clipped) then rstrip (before_last " " clipped) else clipped in
  if bool_decide (clipped = []) then take room subject else clipped.

Definition truncate_commit_line (line : text) (limit : nat) : text :=
  if (length line <=? limit)%nat then line
  else
    match partition t:": " line with
    | (_, None) => rstrip (take limit line)
    | (head, Some subject) =>
        if (limit <? length head + 2 + 1)%nat then rstrip (take limit line)
        else head ++ t:": " ++ clip (limit - length head - 2) subject
    end.

(** [_normalize_commit_subject] *)
Definition commit_line (type scope subject : text) : text :=
  truncate_commit_line (format_type_scope type scope ++ t:": " ++ subject) MAX_LINE_LENGTH.

Definition normalize_commit_subject (subject commit_type default_scope : text) (types scopes : list text) : text :=
  let subject := strip_type_prefix (flatten subject) types in
  let subject := if bool_decide (subject = []) then t:"update issue implementation" else subject in
  let subject := lowercase_first_letter subject in
  let normalized := commit_line commit_type default_scope subject in
  if is_valid_commit_line normalized types scopes then normalized
  else commit_line (resolve_default_type types t:"feat") (resolve_default_scope scopes t:"core") subject.

(** The end of [_propose_commit_subject]: the first line of the model's answer, if it
    gave one that is valid. *)
Definition is_line_break (c : ascii) : bool := char_in 10 13 c || char_in 28 30 c.

Definition proposed_subject (answer : option text) (types scopes : list text) : option text :=
  match answer with
  | None => None
  | Some reply =>
      let candidate := PyStr.strip_list (PyStr.take_while (fun c => negb (is_line_break c)) (PyStr.strip_list reply)) in
      if is_valid_commit_line candidate types scopes then Some candidate else None
  end.

(** The first line of [_build_commit_message]: [review_label] names the run when it
    addresses a review. *)
Definition commit_subject (review_label : option text) (title : text) (answer : option text)
    (changed_paths types scopes : list text) : text :=
  match review_label with
  | Some label =>
      normalize_commit_subject (t:"address review findings for " ++ label)
        (resolve_default_type types t:"fix") (resolve_default_scope scopes t:"core") types scopes
  | None =>
      match proposed_subject answer types scopes with
      | Some proposed => proposed
      | None =>
          normalize_commit_subject title (infer_type_from_paths changed_paths types t:"feat")
            (infer_scope_from_paths changed_paths scopes t:"core") types scopes
      end
  end.

(** [_build_pr_title]; [jira_key] is the key of a Jira issue. *)
Definition build_pr_title (task_title : text) (jira_key : option text) (changed_files scopes types : list text) : text :=
  let '(commit_type, description) := match match_type_prefix task_title types with
                                     | Some found => found
                                     | None => (infer_type_from_paths changed_files types t:"feat", task_title)
                                     end in
  let description := lowercase_first_letter description in
  match jira_key with
  | Some key => truncate_commit_line ("["%char :: key ++ t:"] " ++ commit_type ++ t:": " ++ description) MAX_LINE_LENGTH
  | None => truncate_commit_line
              (format_type_scope commit_type (infer_scope_from_paths changed_files scopes t:"core") ++ t:": " ++ description)
              MAX_LINE_LENGTH
  end.

(** [CommitConfig._validate_type_scope_entries] *)
Definition type_entry (v : text) : bool :=
  match v with c :: rest => is_lower c && forallb is_alnum rest | [] => false end.

Definition scope_entry (v : text) : bool :=
  match v with c :: rest => is_lower c && forallb is_scope_char rest | [] => false end.

Definition validate_entries (entry : text -> bool) (value : list text) : option (list text) :=
  let cleaned := map PyStr.strip_list value in
  if negb (forallb entry cleaned) then None else if bool_decide (cleaned = []) then None else Some cleaned.

Definition DEFAULT_COMMIT_TYPES : list text :=
  map PyStr.to_list ["feat"; "fix"; "refactor"; "test"; "docs"; "chore"; "ci"]%string.

Definition DEFAULT_COMMIT_SCOPES : list text :=
  map PyStr.to_list ["dashboard"; "commands"; "personas"; "invariants"; "knowledge"; "cli"; "docs"; "scheduler"; "ipc";
    "adapters"; "roles"; "core"; "config"; "supervisor"; "mcp"; "monitoring"; "db"; "awareness"; "oversight"; "deps"]%string.

(** ** Lemmas on text *)

(** A text that begins and ends with visible characters. *)
Definition edges (s : text) : Prop :=
  exists c d, head s = Some c /\ last s = Some d /\ PyStr.is_space c = false /\ PyStr.is_space d = false.

Lemma drop_while_spec {A} (f : A -> bool) (l : list A) :
  exists dropped, l = dropped ++ PyStr.drop_while f l /\ Forall (fun x => f x = true) dropped /\
    match head (PyStr.drop_while f l) with Some x => f x = false | None => True end.
Proof.
  induction l as [|x l (dropped & Hl & Hd & Hh)]; [by exists []|]. cbn. destruct (f x) eqn:E; [|by exists []].
  exists (x :: dropped). split_and!; [by rewrite Hl at 1|by constructor|done].
Qed.

Lemma last_rev {A} (l : list A) : last (rev l) = head l.
Proof. destruct l as [|x l]; [done|]. cbn. apply last_snoc. Qed.

Lemma head_rev {A} (l : list A) : head (rev l) = last l.
Proof. by rewrite <- (rev_involutive l) at 2; rewrite last_rev. Qed.

(** [rstrip] drops white space from the end, and nothing else. *)
Lemma rstrip_spec (s : text) :
  exists blank, s = rstrip s ++ blank /\ Forall (fun c => PyStr.is_space c = true) blank /\
    match last (rstrip s) with Some d => PyStr.is_space d = false | None => True end.
Proof.
  destruct (drop_while_spec PyStr.is_space (rev s)) as (dropped & Hl & Hd & Hh). exists (rev dropped).
  unfold rstrip, PyStr.drop_while_end. split_and!.
  - by rewrite <- rev_app_distr, <- Hl, rev_involutive.
  - by apply Forall_rev.
  - by rewrite last_rev.
Qed.

(** What is left of a text with a visible beginning begins the same. *)
Lemma rstrip_edges (s : text) c :
  head s = Some c -> PyStr.is_space c = false -> edges (rstrip s) /\ head (rstrip s) = Some c.
Proof.
  intros Hh Hc. destruct (rstrip_spec s) as (blank & Hs & Hb & Hlast). destruct (rstrip s) as [|c' k] eqn:E.
  - cbn in Hs. subst blank. destruct s as [|x s]; [done|]. cbn in Hh. injection Hh as ->.
    apply Forall_inv in Hb. congruence.
  - rewrite Hs in Hh. cbn in Hh. injection Hh as ->. split; [|done].
    destruct (last (c :: k)) as [d|] eqn:El; [|by apply last_None in El]. exists c, d. by split_and!.
Qed.

Lemma strip_tight (s : text) : edges s -> PyStr.strip_list s = s.
Proof.
  intros (c & d & Hh & Hl & Hc & Hd). unfold PyStr.strip_list.
  destruct s as [|c' s]; [done|]. cbn in Hh. injection Hh as ->. cbn. rewrite Hc. unfold PyStr.drop_while_end.
  assert (exists r, rev (c :: s) = d :: r) as [r Hr].
  { rewrite <- head_rev in Hl. destruct (rev (c :: s)) as [|d' r]; [done|]. injection Hl as ->. by exists r. }
  rewrite Hr. cbn. rewrite Hd. rewrite <- Hr. apply rev_involutive.
Qed.

Lemma before_last_spec c (s : text) : c ∈ s -> exists rest, s = before_last c s ++ c :: rest.
Proof.
  intros Hin. unfold before_last. rewrite bool_decide_true by done.
  destruct (drop_while_spec (fun d => negb (Ascii.eqb c d)) (rev s)) as (dropped & Hl & Hd & Hh).
  destruct (PyStr.drop_while _ (rev s)) as [|x l].
  - rewrite app_nil_r in Hl. rewrite <- Hl in Hd. rewrite Forall_forall in Hd.
    assert (c ∈ rev s) as Hc by (by rewrite list_elem_of_In, <- in_rev, <- list_elem_of_In). specialize (Hd c Hc). cbn in Hd.
    by rewrite Ascii.eqb_refl in Hd.
  - cbn in Hh. apply negb_false_iff, Ascii.eqb_eq in Hh as <-. exists (rev dropped). cbn [tl].
    rewrite <- (rev_involutive s), Hl, rev_app_distr. cbn. by rewrite <- app_assoc.
Qed.

Lemma partition_colon (head s : text) : ":"%char ∉ head -> partition t:": " (head ++ t:": " ++ s) = (head, Some s).
Proof.
  induction head as [|c head IH]; intros Hn; [by destruct s|]. apply not_elem_of_cons in Hn as [Hc Hn].
  change ((c :: head) ++ t:": " ++ s) with (c :: (head ++ t:": " ++ s)).
  assert (after_prefix t:": " (c :: (head ++ t:": " ++ s)) = None) as Ha.
  { assert (Ascii.eqb ":" c = false) as E by (apply Ascii.eqb_neq; congruence).
    change ((if Ascii.eqb ":" c then after_prefix [" "%char] (head ++ t:": " ++ s) else None) = None). by rewrite E. }
  cbn [partition]. rewrite Ha, IH by done. done.
Qed.

(** A cut that ends a text, at a blank, or after two characters at least. *)
Definition clean_cut (s k : text) : Prop :=
  exists rest, s = k ++ rest /\ (rest = [] \/ 2 <= length k \/ exists d r, rest = d :: r /\ PyStr.is_space d = true).

Lemma clip_spec (room : nat) (s : text) c :
  2 <= room -> head s = Some c -> PyStr.is_space c = false ->
  edges (clip room s) /\ head (clip room s) = Some c /\ length (clip room s) <= room /\ clean_cut s (clip room s).
Proof.
  intros Hroom Hh Hc. assert (head (take room s) = Some c) as Ht.
  { destruct s as [|x s]; [done|]. by destruct room; [lia|]. }
  destruct (rstrip_edges _ _ Ht Hc) as [He Hhk]. destruct (rstrip_spec (take room s)) as (blank & Hs & Hb & _).
  set (k := rstrip (take room s)) in *. assert (length k <= room) as Hlen.
  { assert (length (take room s) <= room) as Hle by (rewrite length_take; lia). rewrite Hs, length_app in Hle. lia. }
  assert (clean_cut s k) as Hcut.
  { exists (blank ++ drop room s). split; [by rewrite app_assoc, <- Hs, take_drop|].
    destruct blank as [|d blank]; [|right; right; exists d, (blank ++ drop room s); split; [done|by apply Forall_inv in Hb]].
    rewrite app_nil_r in Hs. destruct (decide (length s <= room)) as [Hle|Hgt].
    - left. by rewrite drop_ge.
    - right; left. rewrite <- Hs, length_take. lia. }
  assert (k <> []) as Hne by (intros E; by rewrite E in Hhk).
  unfold clip. fold k. destruct (_ && bool_decide (_ ∈ k)) eqn:E; [|by rewrite bool_decide_false].
  apply andb_true_iff in E as [_ Hin%bool_decide_eq_true]. destruct (before_last_spec _ _ Hin) as [rest Hk].
  set (k1 := before_last " " k) in *. assert (head k1 = Some c) as Hh1.
  { rewrite Hk in Hhk. destruct k1 as [|x k1']; [|done]. cbn in Hhk. injection Hhk as <-. by vm_compute in Hc. }
  destruct (rstrip_edges k1 c Hh1 Hc) as [He2 Hh2]. destruct (rstrip_spec k1) as (blank1 & Hk1 & Hb1 & _).
  rewrite bool_decide_false by (intros En; by rewrite En in Hh2). split_and!; [done|done| |].
  - rewrite Hk, length_app in Hlen. rewrite Hk1, length_app in Hlen. lia.
  - destruct Hcut as (rest2 & Hs2 & _). exists (blank1 ++ " "%char :: rest ++ rest2). split.
    + rewrite Hs2, Hk at 1. rewrite Hk1 at 1. by rewrite <- !app_assoc.
    + right; right. destruct blank1 as [|d blank1]; [by exists " "%char, (rest ++ rest2)|].
      exists d, (blank1 ++ " "%char :: rest ++ rest2). split; [done|by apply Forall_inv in Hb1].
Qed.

Lemma upper_not_space c : PyStr.is_space c = true -> is_upper c = false.
Proof. destruct c as [[] [] [] [] [] [] [] []]; by vm_compute. Qed.

Lemma good_start_cut (s k : text) : good_start s = true -> clean_cut s k -> k <> [] -> good_start k = true.
Proof.
  intros Hg (rest & -> & Hrest) Hne. destruct k as [|c [|d k]]; [done| |exact Hg].
  cbn in Hg |- *. destruct Hrest as [->|[Hlen|(d & r & -> & Hd)]]; [done|cbn in Hlen; lia|].
  cbn in Hg. by rewrite (upper_not_space d Hd) in Hg.
Qed.

(** ** Lines that are built *)

(** A text that can follow the colon of a line. *)
Definition subject_ok (s : text) : Prop := edges s /\ good_start s = true /\ "010"%char ∉ s.

Lemma edges_drop_space (s : text) : edges s -> PyStr.drop_while PyStr.is_space s = s /\ s <> [].
Proof. intros (c & _ & Hh & _ & Hc & _). destruct s as [|x s]; [done|]. injection Hh as ->. cbn. by rewrite Hc. Qed.

Lemma forallb_impl {A} (f g : A -> bool) l : (forall x, f x = true -> g x = true) -> forallb f l = true -> forallb g l = true.
Proof. intros Hfg. induction l as [|x l IH]; [done|]. cbn. intros [Hx Hl]%andb_true_iff. by rewrite Hfg, IH. Qed.

Lemma scope_char_no_paren c : is_scope_char c = true -> negb (Ascii.eqb c ")") = true.
Proof. destruct c as [[] [] [] [] [] [] [] []]; by vm_compute. Qed.

(** What a line says when its type and scope are entries of a configuration. *)
Lemma match_built (type scope s : text) :
  type_entry type = true -> scope_entry scope = true -> subject_ok s ->
  match_line (format_type_scope type scope ++ t:": " ++ s) =
  Some (type, (if bool_decide (type = SCOPELESS_TYPE) then None else Some scope), s).
Proof.
  intros Ht Hs (He & _ & Hn). destruct (edges_drop_space s He) as [Hd Hne].
  destruct type as [|c type]; [done|]. apply andb_true_iff in Ht as [Hc Ht].
  assert (PyStr.drop_while PyStr.is_space (" "%char :: s) = s) as Hsp by exact Hd.
  unfold format_type_scope. destruct (bool_decide (c :: type = SCOPELESS_TYPE)) eqn:Eci.
  - change ((c :: type) ++ t:": " ++ s) with (c :: (type ++ ":"%char :: " "%char :: s)). unfold match_line.
    rewrite Hc, (PyStr.take_while_app is_alnum type), (PyStr.drop_while_app is_alnum type) by done.
    change (Ascii.eqb ":" ":") with true. cbn [negb]. cbv iota. rewrite Hsp.
    destruct s as [|x s]; [done|]. by rewrite (bool_decide_false _ Hn).
  - replace (((c :: type) ++ "("%char :: scope ++ [")"%char]) ++ t:": " ++ s)
      with (c :: (type ++ "("%char :: (scope ++ ")"%char :: ":"%char :: " "%char :: s))) by (rewrite <- app_assoc; cbn; by rewrite <- app_assoc).
    unfold match_line. rewrite Hc, (PyStr.take_while_app is_alnum type), (PyStr.drop_while_app is_alnum type) by done.
    change (Ascii.eqb "(" ":") with false. change (Ascii.eqb "(" "(") with true. cbn [negb]. cbv iota.
    assert (forallb (fun x => negb (Ascii.eqb x ")")) scope = true) as Hp.
    { destruct scope as [|d scope]; [done|]. apply andb_true_iff in Hs as [Hlow Hs].
      apply (forallb_impl is_scope_char); [apply scope_char_no_paren|]. cbn. rewrite Hs.
      unfold is_scope_char, is_alnum. by rewrite Hlow. }
    rewrite PyStr.take_while_app, PyStr.drop_while_app by done.
    destruct scope as [|d scope]; [done|]. change (Ascii.eqb ":" ":") with true. cbv iota. rewrite Hsp.
    destruct s as [|x s]; [done|]. by rewrite (bool_decide_false _ Hn).
Qed.

Lemma not_in_forallb (c : ascii) (f : ascii -> bool) (l : text) : f c = false -> forallb f l = true -> c ∉ l.
Proof.
  intros Hc Hl Hin. rewrite list_elem_of_In in Hin. rewrite forallb_forall in Hl. specialize (Hl c Hin). congruence.
Qed.

Lemma type_alnum type : type_entry type = true -> forallb is_alnum type = true.
Proof. destruct type as [|c type]; [done|]. cbn. unfold is_alnum. intros [-> ->]%andb_true_iff. done. Qed.

Lemma scope_chars scope : scope_entry scope = true -> forallb is_scope_char scope = true.
Proof. destruct scope as [|c scope]; [done|]. cbn. unfold is_scope_char, is_alnum. intros [-> ->]%andb_true_iff. done. Qed.

Lemma format_no_colon type scope :
  type_entry type = true -> scope_entry scope = true -> ":"%char ∉ format_type_scope type scope.
Proof.
  intros Ht%type_alnum Hs%scope_chars. assert (":"%char ∉ type) as H1 by (by apply (not_in_forallb _ is_alnum)).
  assert (":"%char ∉ scope) as H2 by (by apply (not_in_forallb _ is_scope_char)).
  unfold format_type_scope. case_bool_decide; [done|]. rewrite elem_of_app, elem_of_cons, elem_of_app, list_elem_of_singleton.
  by intros [?|[?|[?|?]]].
Qed.

Lemma format_length type scope : length (format_type_scope type scope) <= length type + length scope + 2.
Proof. unfold format_type_scope. case_bool_decide; [lia|]. rewrite length_app. cbn. rewrite length_app. cbn. lia. Qed.

Lemma format_head type scope :
  type_entry type = true -> exists c, head (format_type_scope type scope) = Some c /\ PyStr.is_space c = false.
Proof.
  destruct type as [|c type]; [done|]. intros [Hc _]%andb_true_iff. exists c. split.
  - unfold format_type_scope. by case_bool_decide.
  - destruct c as [[] [] [] [] [] [] [] []]; by vm_compute in Hc |- *.
Qed.

(** A line of a configured type and scope and a good subject is valid when it fits. *)
Lemma built_valid type scope s types scopes :
  type ∈ types -> scope ∈ scopes -> type_entry type = true -> scope_entry scope = true -> subject_ok s ->
  length (format_type_scope type scope ++ t:": " ++ s) <= MAX_LINE_LENGTH ->
  is_valid_commit_line (format_type_scope type scope ++ t:": " ++ s) types scopes = true.
Proof.
  intros Hty Hsc Ht Hs Hok Hlen. pose proof Hok as (He & Hg & _).
  assert (edges (format_type_scope type scope ++ t:": " ++ s)) as Hedges.
  { destruct (format_head type scope Ht) as (c & Hc & Hcs). destruct He as (_ & d & _ & Hl & _ & Hd). exists c, d.
    split_and!; [|by rewrite app_assoc, last_app, Hl|done|done]. by destruct (format_type_scope type scope). }
  unfold is_valid_commit_line. rewrite strip_tight by done. rewrite bool_decide_false.
  2:{ intros E. destruct Hedges as (c & _ & Hc & _). by rewrite E in Hc. }
  rewrite (proj2 (Nat.ltb_ge _ _) Hlen). cbn [orb]. rewrite match_built by done. rewrite bool_decide_true by done. cbn [negb].
  rewrite Hg, andb_true_r. case_bool_decide; [done|]. rewrite (bool_decide_true (scope ∈ scopes)) by done.
  rewrite bool_decide_false; [done|]. by intros ->.
Qed.

(** The names leave room for a subject of two letters. *)
Definition short (type scope : text) : Prop := length type + length scope <= 66.

Lemma cut_subject_ok room s :
  2 <= room -> subject_ok s -> subject_ok (clip room s) /\ length (clip room s) <= room.
Proof.
  intros Hroom (He & Hg & Hn). pose proof He as (c & _ & Hh & _ & Hc & _).
  destruct (clip_spec room s c Hroom Hh Hc) as (He2 & Hh2 & Hlen & Hcut). split; [|done]. split_and!; [done| |].
  - apply (good_start_cut s); [done..|]. intros E. by rewrite E in Hh2.
  - destruct Hcut as (rest & Hs & _). rewrite Hs, not_elem_of_app in Hn. apply Hn.
Qed.

Lemma commit_line_valid type scope s types scopes :
  type ∈ types -> scope ∈ scopes -> type_entry type = true -> scope_entry scope = true -> short type scope ->
  subject_ok s -> is_valid_commit_line (commit_line type scope s) types scopes = true.
Proof.
  intros Hty Hsc Ht Hs Hshort Hok. unfold commit_line, truncate_commit_line.
  destruct (_ <=? MAX_LINE_LENGTH)%nat eqn:E; [apply built_valid; try done; by apply Nat.leb_le|].
  rewrite partition_colon by (by apply format_no_colon). pose proof (format_length type scope) as Hlen. unfold short in Hshort.
  rewrite (proj2 (Nat.ltb_ge _ _)) by (unfold MAX_LINE_LENGTH; lia).
  destruct (cut_subject_ok (MAX_LINE_LENGTH - length (format_type_scope type scope) - 2) s) as [Hcut Hcl];
    [unfold MAX_LINE_LENGTH; lia|done|].
  apply built_valid; try done. rewrite !length_app. cbn [length PyStr.to_list String.list_ascii_of_string].
  unfold MAX_LINE_LENGTH in *. lia.
Qed.

(** ** Titles *)

(** One line, with visible ends or empty. *)
Definition line_text (s : text) : Prop := "010"%char ∉ s /\ (s = [] \/ edges s).

Definition word_ok (w : text) : Prop := w <> [] /\ Forall (fun c => PyStr.is_space c = false) w.

Lemma rev_word_ok d word : Forall (fun c => PyStr.is_space c = false) (d :: word) -> word_ok (rev (d :: word)).
Proof. intros Hw. split; [|by apply Forall_rev]. intros E. apply (f_equal length) in E. by rewrite length_rev in E. Qed.

Lemma words_ok word l : Forall (fun c => PyStr.is_space c = false) word -> Forall word_ok (PyStr.words word l).
Proof.
  revert word. induction l as [|c l IH]; intros word Hw; cbn.
  - destruct word as [|d word]; [constructor|]. constructor; [by apply rev_word_ok|constructor].
  - destruct (PyStr.is_space c) eqn:E; [|by apply IH; constructor].
    destruct word as [|d word]; [by apply IH|]. constructor; [by apply rev_word_ok|by apply IH; constructor].
Qed.

Lemma word_edges w : word_ok w -> edges w.
Proof.
  intros [Hne Hw]. destruct w as [|c w]; [done|]. destruct (last (c :: w)) as [d|] eqn:E; [|by apply last_None in E].
  exists c, d. split_and!; [done|done|by apply Forall_inv in Hw|]. rewrite Forall_forall in Hw.
  apply Hw, last_Some_elem_of, E.
Qed.

Lemma join_words_ok ws : Forall word_ok ws -> line_text (join_words ws).
Proof.
  induction ws as [|w ws IH]; intros Hws; [by split; [apply not_elem_of_nil|left]|]. apply Forall_cons in Hws as [Hw Hws].
  specialize (IH Hws) as [Hn IH]. assert ("010"%char ∉ w) as Hnw.
  { intros Hin. destruct Hw as [_ Hw]. rewrite Forall_forall in Hw. by specialize (Hw _ Hin). }
  destruct ws as [|w2 ws]; [by split; [|right; apply word_edges]|].
  change (join_words (w :: w2 :: ws)) with (w ++ " "%char :: join_words (w2 :: ws)). split.
  - rewrite not_elem_of_app, not_elem_of_cons. by split_and!.
  - right. destruct (word_edges w Hw) as (c & _ & Hc & _ & Hcs & _). destruct IH as [E|(_ & d & _ & Hd & _ & Hds)].
    + exfalso. apply Forall_inv in Hws as [Hne _]. destruct ws; [by subst|]. by destruct w2.
    + exists c, d. split_and!; [by destruct w|by rewrite last_app, last_cons, Hd|done|done].
Qed.

Lemma flatten_line s : line_text (flatten s).
Proof. apply join_words_ok, words_ok. constructor. Qed.

Lemma after_prefix_spec p s rest : after_prefix p s = Some rest -> s = p ++ rest.
Proof.
  revert s. induction p as [|c p IH]; intros [|d s]; cbn; try done; try (by intros [= ->]).
  destruct (Ascii.eqb c d) eqn:E; [|done]. apply Ascii.eqb_eq in E as <-. intros ->%IH. done.
Qed.

(** What follows the white space at a place of a line. *)
Lemma line_suffix s before rest :
  line_text s -> s = before ++ rest -> line_text (PyStr.drop_while PyStr.is_space rest).
Proof.
  intros [Hn He] Hs. destruct (drop_while_spec PyStr.is_space rest) as (dropped & Hr & _ & Hh). rewrite Hs, Hr in Hn, He.
  rewrite !not_elem_of_app in Hn. split; [apply Hn|]. destruct (PyStr.drop_while _ rest) as [|c k]; [by left|right].
  destruct He as [He|(_ & d & _ & Hl & _ & Hd)]; [by destruct before, dropped|]. rewrite !last_app in Hl.
  destruct (last (c :: k)) as [d'|] eqn:E; [|by apply last_None in E]. injection Hl as ->. by exists c, d.
Qed.

Lemma match_prefix_suffix s type t rest :
  match_prefix_of s type = Some (t, rest) -> t = type /\ exists before r, s = before ++ r /\ rest = PyStr.drop_while PyStr.is_space r.
Proof.
  unfold match_prefix_of. destruct (after_prefix type s) as [[|c r]|] eqn:Ea; try done. apply after_prefix_spec in Ea as ->.
  destruct (Ascii.eqb c ":"); [intros [= <- <-]; split; [done|]; exists (type ++ [c]), r; by rewrite <- app_assoc|].
  destruct (Ascii.eqb c "("); [|done]. destruct (drop_while_spec (fun x => negb (Ascii.eqb x ")")) r) as (dropped & Hr & _).
  destruct (PyStr.drop_while _ r) as [|x [|d r']]; try done. destruct (Ascii.eqb d ":"); [|done]. intros [= <- <-].
  split; [done|]. exists (type ++ c :: dropped ++ [x; d]), r'. split; [|done]. rewrite Hr at 1.
  by rewrite <- app_assoc; cbn; rewrite <- app_assoc.
Qed.

Lemma head_In {A} (l : list A) x : head l = Some x -> x ∈ l.
Proof. destruct l; [done|]. intros [= ->]. by left. Qed.

Lemma match_type_prefix_spec s types t rest :
  match_type_prefix s types = Some (t, rest) ->
  t ∈ types /\ exists before r, s = before ++ r /\ rest = PyStr.drop_while PyStr.is_space r.
Proof.
  intros (type & Hin & Hm)%head_In%list_elem_of_omap. rewrite sort_by_perm in Hin.
  by apply match_prefix_suffix in Hm as [-> Hm].
Qed.

Lemma strip_type_prefix_line s types : line_text s -> line_text (strip_type_prefix s types).
Proof.
  intros Hs. unfold strip_type_prefix. destruct (match_type_prefix s types) as [[t rest]|] eqn:E; [|done].
  apply match_type_prefix_spec in E as (_ & before & r & Hr & ->). by apply (line_suffix s before).
Qed.

Lemma lower_not_upper c : is_upper (PyStr.lower_char c) = false.
Proof. destruct c as [[] [] [] [] [] [] [] []]; by vm_compute. Qed.

Lemma lower_newline c : PyStr.lower_char c = "010"%char -> c = "010"%char.
Proof. destruct c as [[] [] [] [] [] [] [] []]; vm_compute; by intros. Qed.

Lemma lowercase_first_ok s : "010"%char ∉ s -> edges s -> subject_ok (lowercase_first_letter s).
Proof.
  intros Hn (c & d & Hh & Hl & Hc & Hd). destruct s as [|c' s]; [done|]. injection Hh as ->. apply not_elem_of_cons in Hn as [Hnc Hn].
  assert (PyStr.lower_char c <> "010"%char) as Hnl by (by intros ?%lower_newline).
  unfold lowercase_first_letter. destruct s as [|e s].
  - split_and!.
    + exists (PyStr.lower_char c), (PyStr.lower_char c). by rewrite PyStr.is_space_lower.
    + cbn. by rewrite lower_not_upper.
    + rewrite list_elem_of_singleton. congruence.
  - destruct (is_upper c && is_upper e) eqn:E.
    + apply andb_true_iff in E as [Eu Ee]. split_and!; [by exists c, d|cbn; by rewrite Eu, Ee|by apply not_elem_of_cons].
    + split_and!.
      * exists (PyStr.lower_char c), d. by rewrite PyStr.is_space_lower.
      * cbn. by rewrite lower_not_upper.
      * apply not_elem_of_cons. split; [congruence|done].
Qed.

(** ** The scope of a change *)

Definition occurrences (s : text) (ss : list text) : nat := length (List.filter (fun x => bool_decide (x = s)) ss).

Definition counts_of (ss : list text) : list (text * nat) := foldl (fun counts s => bump s counts) [] ss.

Lemma count_scopes_spec paths scopes counts :
  count_scopes paths scopes counts =
  if forallb (fun p => bool_decide (is_Some (match_scope_segment p scopes))) paths
  then Some (foldl (fun counts s => bump s counts) counts (omap (fun p => match_scope_segment p scopes) paths)) else None.
Proof.
  revert counts. induction paths as [|p paths IH]; intros counts; [done|]. cbn.
  destruct (match_scope_segment p scopes) as [s|]; [|done]. cbn. apply IH.
Qed.

Lemma bump_keys s counts :
  (bump s counts).*1 = counts.*1 ++ (if decide (s ∈ counts.*1) then [] else [s]).
Proof.
  induction counts as [|[x n] counts IH]; [by rewrite decide_False by apply not_elem_of_nil|]. cbn. case_bool_decide as E.
  - subst. rewrite decide_True by (by left). by rewrite app_nil_r.
  - cbn. rewrite IH. destruct (decide (s ∈ counts.*1)) as [Hin|Hout].
    + by rewrite decide_True by (by right).
    + rewrite decide_False; [done|]. by rewrite not_elem_of_cons.
Qed.

Lemma counts_of_snoc ss s : counts_of (ss ++ [s]) = bump s (counts_of ss).
Proof. unfold counts_of. by rewrite foldl_app. Qed.

Lemma counts_keys ss s : s ∈ (counts_of ss).*1 <-> s ∈ ss.
Proof.
  induction ss as [|x ss IH] using rev_ind; [done|]. rewrite counts_of_snoc, bump_keys, !elem_of_app, IH.
  rewrite list_elem_of_singleton. destruct (decide (x ∈ _)) as [Hin|_]; [|by rewrite list_elem_of_singleton].
  split; [intros [?|[]%not_elem_of_nil]; by left|]. intros [?|Hs]; [by left|left]. subst. apply IH, Hin.
Qed.

Lemma counts_nodup ss : NoDup (counts_of ss).*1.
Proof.
  induction ss as [|x ss IH] using rev_ind; [constructor|]. rewrite counts_of_snoc, bump_keys.
  destruct (decide _) as [_|Hout]; [by rewrite app_nil_r|]. apply NoDup_app. split_and!; [done| |apply NoDup_singleton].
  intros y Hy Hx%list_elem_of_singleton. by subst.
Qed.

Lemma occurrences_snoc x ss s : occurrences x (ss ++ [s]) = occurrences x ss + (if decide (s = x) then 1 else 0).
Proof.
  unfold occurrences. rewrite List.filter_app, length_app. cbn. f_equal. by case_bool_decide; destruct (decide _).
Qed.

Lemma occurrences_pos s ss : s ∉ ss <-> occurrences s ss = 0.
Proof.
  induction ss as [|x ss IH] using rev_ind; [split; [done|by intros _ ?%not_elem_of_nil]|].
  rewrite occurrences_snoc, not_elem_of_app, IH, list_elem_of_singleton. destruct (decide _) as [->|]; [split; [by intros []|lia]|].
  split; [lia|]. intros ?. split; [lia|congruence].
Qed.

Lemma bump_values s ss counts :
  NoDup counts.*1 -> (s ∉ counts.*1 -> occurrences s ss = 0) -> Forall (fun c => c.2 = occurrences c.1 ss) counts ->
  Forall (fun c => c.2 = occurrences c.1 (ss ++ [s])) (bump s counts).
Proof.
  intros Hnd Hout Hc. assert (forall x, x <> s -> occurrences x (ss ++ [s]) = occurrences x ss) as Hother.
  { intros x Hx. rewrite occurrences_snoc, decide_False by congruence. lia. }
  induction Hc as [|[x n] counts Hx Hc IH]; cbn.
  - constructor; [|constructor]. cbn. rewrite occurrences_snoc, decide_True, Hout by (done || apply not_elem_of_nil). lia.
  - cbn in Hx, Hnd, Hout. apply NoDup_cons in Hnd as [Hxn Hnd]. case_bool_decide as E.
    + subst x. constructor; cbn; [rewrite occurrences_snoc, decide_True by done; lia|].
      apply Forall_forall. intros [y m] Hy. cbn. rewrite Hother.
      * rewrite Forall_forall in Hc. by apply (Hc (y, m)).
      * intros ->. apply Hxn, list_elem_of_fmap. by exists (s, m).
    + constructor; cbn; [by rewrite Hother|]. apply IH; [done|]. intros Hs. apply Hout. by rewrite not_elem_of_cons.
Qed.

Lemma counts_values ss : Forall (fun c => c.2 = occurrences c.1 ss) (counts_of ss).
Proof.
  induction ss as [|x ss IH] using rev_ind; [constructor|]. rewrite counts_of_snoc.
  apply bump_values; [apply counts_nodup| |done]. by rewrite counts_keys, occurrences_pos.
Qed.

(** The keys come in the order they are first seen. *)
Lemma counts_order ss k1 s k2 :
  (counts_of ss).*1 = k1 ++ s :: k2 ->
  exists before after, ss = before ++ s :: after /\ s ∉ before /\ forall x, x ∈ before -> x ∈ k1.
Proof.
  revert k2. induction ss as [|x ss IH] using rev_ind; intros k2; [intros Hk; by destruct k1|].
  rewrite counts_of_snoc, bump_keys. assert (forall l, ss = l -> ss ++ [x] = l ++ [x]) as Hx by congruence.
  destruct (decide _) as [Hin|Hout].
  - rewrite app_nil_r. intros (before & after & Hss & ? & ?)%IH. exists before, (after ++ [x]). rewrite Hss, <- app_assoc. done.
  - destruct k2 as [|y k2 _] using rev_ind.
    + intros [Hk ->]%app_inj_tail. rewrite counts_keys in Hout. exists ss, []. split_and!; [done..|].
      intros y Hy. rewrite <- Hk. by apply counts_keys.
    + rewrite app_comm_cons, app_assoc. intros [Hk ->]%app_inj_tail. apply IH in Hk as (before & after & Hss & ? & ?).
      exists before, (after ++ [y]). rewrite Hss, <- app_assoc. done.
Qed.

(** [most] picks the first entry with the largest count. *)
Lemma most_spec counts :
  match most counts with
  | None => counts = []
  | Some c => exists c1 c2, counts = c1 ++ c :: c2 /\ Forall (fun x => x.2 < c.2) c1 /\ Forall (fun x => x.2 <= c.2) c2
  end.
Proof.
  unfold most. induction counts as [|x counts IH] using rev_ind; [done|]. rewrite foldl_app. cbn [foldl].
  destruct (foldl _ None counts) as [b|]; [|subst; by exists [], []].
  destruct IH as (c1 & c2 & -> & H1 & H2). destruct (b.2 <? x.2)%nat eqn:E.
  - apply Nat.ltb_lt in E. exists (c1 ++ b :: c2), []. split_and!; [done| |constructor]. apply Forall_app. split.
    + eapply Forall_impl; [exact H1|]. cbn. lia.
    + constructor; [done|]. eapply Forall_impl; [exact H2|]. cbn. lia.
  - apply Nat.ltb_ge in E. exists c1, (c2 ++ [x]). split_and!; [by rewrite <- app_assoc|done|].
    apply Forall_app. split; [done|]. by constructor.
Qed.

Lemma default_scope_in scopes preferred : scopes <> [] -> resolve_default_scope scopes preferred ∈ scopes.
Proof. destruct scopes as [|s scopes]; [done|]. intros _. cbn. case_bool_decide; [done|by left]. Qed.

Lemma default_type_in types preferred : types <> [] -> resolve_default_type types preferred ∈ types.
Proof.
  destruct types as [|t types]; [done|]. intros _. unfold resolve_default_type. case_bool_decide; [done|].
  destruct (List.find _ (t :: types)) as [c|] eqn:E; cbn; [|by left]. apply find_some in E as [Hin _]. by apply list_elem_of_In.
Qed.

Lemma scope_segment_in path scopes s : match_scope_segment path scopes = Some s -> s ∈ scopes.
Proof.
  unfold match_scope_segment. destruct (last _) as [l|]; [|done]. destruct (List.find _ _) as [c|] eqn:E.
  - intros [= <-]. by apply find_some in E as [_ ?%bool_decide_eq_true].
  - destruct (2 <? _)%nat; [done|]. repeat case_bool_decide; try done; by intros [= <-].
Qed.

(** The scope that is picked, in terms of the scopes of the paths. *)
Lemma most_first owned s n :
  most (counts_of owned) = Some (s, n) ->
  s ∈ owned /\ exists before after, owned = before ++ s :: after /\ s ∉ before /\
    (forall x, occurrences x owned <= occurrences s owned) /\
    (forall x, x ∈ before -> occurrences x owned < occurrences s owned).
Proof.
  intros Em. pose proof (most_spec (counts_of owned)) as Hmost. rewrite Em in Hmost. destruct Hmost as (c1 & c2 & Hc & H1 & H2).
  pose proof (counts_values owned) as Hv. rewrite Hc in Hv. apply Forall_app in Hv as [Hv1 [Hs Hv2]%Forall_cons]. cbn in Hs, H1, H2.
  assert ((counts_of owned).*1 = c1.*1 ++ s :: c2.*1) as Hk by (by rewrite Hc, fmap_app).
  destruct (counts_order owned _ _ _ Hk) as (before & after & Ho & Hnb & Hb). rewrite Hs in H1, H2.
  assert (forall (q : nat -> Prop) l, Forall (fun c => c.2 = occurrences c.1 owned) l -> Forall (fun c => q c.2) l ->
            forall x, x ∈ l.*1 -> q (occurrences x owned)) as Hval.
  { intros q l Hl Hq x Hx. apply list_elem_of_fmap in Hx as ([y m] & -> & Hy). rewrite Forall_forall in Hl, Hq.
    specialize (Hl _ Hy). specialize (Hq _ Hy). cbn in *. by rewrite <- Hl. }
  assert (forall x, x ∈ c1.*1 -> occurrences x owned < occurrences s owned) as Hlt.
  { exact (Hval (fun k => k < occurrences s owned) c1 Hv1 H1). }
  split; [rewrite Ho, elem_of_app; right; by left|]. exists before, after. split_and!; [done|done| |by intros x Hx; apply Hlt, Hb].
  intros x. destruct (decide (x ∈ owned)) as [Hx|Hx%occurrences_pos]; [|lia].
  apply counts_keys in Hx. rewrite Hk, elem_of_app, elem_of_cons in Hx.
  destruct Hx as [Hx|[->|Hx]]; [by apply Nat.lt_le_incl, Hlt|done|].
  exact (Hval (fun k => k <= occurrences s owned) c2 Hv2 H2 x Hx).
Qed.

Lemma infer_scope_in changed_files scopes preferred :
  scopes <> [] -> infer_scope_from_paths changed_files scopes preferred ∈ scopes.
Proof.
  intros Hne. unfold infer_scope_from_paths. rewrite count_scopes_spec. pose proof (default_scope_in scopes preferred Hne) as Hdef.
  destruct (forallb _ changed_files); [|done]. fold (counts_of (omap (fun p => match_scope_segment p scopes) changed_files)).
  destruct (most _) as [[s n]|] eqn:Em; [|done]. apply most_first in Em as [Hin _].
  apply list_elem_of_omap in Hin as (p & _ & Hp). by eapply scope_segment_in.
Qed.

(** the scope of a change. When every changed path belongs to a configured
    scope, the change gets the scope with the most paths, of several the one that is
    seen first; one path that belongs to none, or no path at all, makes it the
    default scope. It is always a configured one. *)
Theorem infer_scope_correct (changed_files scopes : list text) (preferred : text) (Hne : scopes <> []) :
  let owned := omap (fun p => match_scope_segment p scopes) changed_files in
  let s := infer_scope_from_paths changed_files scopes preferred in
  s ∈ scopes /\
  (changed_files = [] \/ Exists (fun p => match_scope_segment p scopes = None) changed_files ->
     s = resolve_default_scope scopes preferred) /\
  (changed_files <> [] -> Forall (fun p => is_Some (match_scope_segment p scopes)) changed_files ->
     exists before after, owned = before ++ s :: after /\ s ∉ before /\
       (forall x, occurrences x owned <= occurrences s owned) /\
       (forall x, x ∈ before -> occurrences x owned < occurrences s owned)).
Proof.
  split; [by apply infer_scope_in|].
  set (owned := omap _ changed_files). unfold infer_scope_from_paths. rewrite count_scopes_spec. fold owned.
  change (foldl _ [] owned) with (counts_of owned).
  destruct (forallb _ changed_files) eqn:Ef.
  - assert (Forall (fun p => is_Some (match_scope_segment p scopes)) changed_files) as Hall.
    { apply Forall_forall. intros p Hp. rewrite forallb_forall in Ef. eapply bool_decide_eq_true, Ef, list_elem_of_In, Hp. }
    assert (~ Exists (fun p => match_scope_segment p scopes = None) changed_files) as Hno.
    { rewrite Exists_exists. intros (p & Hp & Hnone). rewrite Forall_forall in Hall. destruct (Hall p Hp). congruence. }
    destruct (most _) as [[s n]|] eqn:Em.
    + apply most_first in Em as (Hin & Hex). split; [|done]. intros [->|He]; [|done]. by apply not_elem_of_nil in Hin.
    + split; [done|]. intros Hne2 _. exfalso. destruct changed_files as [|p ps]; [done|].
      apply Forall_inv in Hall as [s Hp]. assert (s ∈ owned) as Hin%counts_keys by (apply list_elem_of_omap; exists p; split; [by left|done]).
      pose proof (most_spec (counts_of owned)) as Hm. rewrite Em in Hm. rewrite Hm in Hin. by apply not_elem_of_nil in Hin.
  - split; [done|]. intros _ Hall. exfalso. apply not_true_iff_false in Ef. apply Ef, forallb_forall.
    intros p Hp%list_elem_of_In. rewrite Forall_forall in Hall. by apply bool_decide_eq_true, Hall.
Qed.

(** ** Lines are valid *)

Section configured.
Context (types scopes : list text).
Context (types_ok : Forall (fun t => type_entry t = true) types) (types_ne : types <> []).
Context (scopes_ok : Forall (fun s => scope_entry s = true) scopes) (scopes_ne : scopes <> []).
Context (names_short : forall t s, t ∈ types -> s ∈ scopes -> short t s).

Lemma configured_line_valid type scope s :
  type ∈ types -> scope ∈ scopes -> subject_ok s -> is_valid_commit_line (commit_line type scope s) types scopes = true.
Proof.
  intros Ht Hs Hok. rewrite Forall_forall in types_ok, scopes_ok.
  apply commit_line_valid; [done|done|by apply types_ok|by apply scopes_ok|by apply names_short|done].
Qed.

Lemma normalize_valid raw type scope :
  type ∈ types -> scope ∈ scopes ->
  is_valid_commit_line (normalize_commit_subject raw type scope types scopes) types scopes = true.
Proof.
  intros Ht Hs. unfold normalize_commit_subject. set (subject := if bool_decide _ then _ else _).
  assert (is_valid_commit_line (commit_line type scope (lowercase_first_letter subject)) types scopes = true) as Hv; [|by rewrite !Hv].
  apply configured_line_valid; [done|done|]. unfold subject.
  pose proof (strip_type_prefix_line _ types (flatten_line raw)) as [Hn He]. case_bool_decide as Eempty.
  - split_and!; [by exists "u"%char, "n"%char|done|].
    by apply (not_in_forallb _ (fun c => negb (Ascii.eqb c "010"))).
  - apply lowercase_first_ok; [done|]. by destruct He.
Qed.

Lemma inferred_type_in paths preferred : infer_type_from_paths paths types preferred ∈ types.
Proof.
  unfold infer_type_from_paths. case_bool_decide; [by apply default_type_in|].
  destruct (bool_decide (t:"docs" ∈ types) && _) eqn:E1; [by apply andb_true_iff in E1 as [?%bool_decide_eq_true _]|].
  destruct (bool_decide (t:"test" ∈ types) && _) eqn:E2; [by apply andb_true_iff in E2 as [?%bool_decide_eq_true _]|].
  by apply default_type_in.
Qed.

Lemma inferred_scope_in paths preferred : infer_scope_from_paths paths scopes preferred ∈ scopes.
Proof. by apply infer_scope_in. Qed.
End configured.

Lemma validated_entries entry raw l :
  validate_entries entry raw = Some l -> Forall (fun v => entry v = true) l /\ l <> [].
Proof.
  unfold validate_entries. destruct (forallb entry _) eqn:E; [|done]. cbn. case_bool_decide; [done|]. intros [= <-].
  split; [|done]. apply Forall_forall. intros v Hv%list_elem_of_In. rewrite forallb_forall in E. by apply E.
Qed.


Module Examples.

Lemma default_names_short t s : t ∈ DEFAULT_COMMIT_TYPES -> s ∈ DEFAULT_COMMIT_SCOPES -> short t s.
Proof.
  assert (Forall (fun t => length t <= 8) DEFAULT_COMMIT_TYPES) as Ht by (repeat constructor).
  assert (Forall (fun s => length s <= 10) DEFAULT_COMMIT_SCOPES) as Hs by (repeat constructor).
  rewrite Forall_forall in Ht, Hs. intros ?%Ht ?%Hs. unfold short. lia.
Qed.

Definition long_title : text := t:"feat(dashboard): LLM Provider abstraction that goes on for a very long time until it is cut".


Lemma infer_scope_correct_witness :
  infer_scope_from_paths [t:"sova/cli/a.py"; t:"sova/core/b.py"; t:"sova/core/c.py"; t:"sova/cli/d.py"]
    DEFAULT_COMMIT_SCOPES t:"core" ∈ DEFAULT_COMMIT_SCOPES.
Proof.
  assert (DEFAULT_COMMIT_SCOPES <> []) as Hne by discriminate. exact (proj1 (infer_scope_correct _ _ _ Hne)).
Defined.

Example built :
  commit_subject None long_title None [t:"sova/cli/a.py"; t:"sova/core/b.py"; t:"sova/core/c.py"; t:"sova/cli/d.py"]
    DEFAULT_COMMIT_TYPES DEFAULT_COMMIT_SCOPES = t:"feat(cli): LLM Provider abstraction that goes on for a very long time" /\
  commit_subject None t:"Describe   the API" None [t:"docs/api.md"] DEFAULT_COMMIT_TYPES DEFAULT_COMMIT_SCOPES
    = t:"docs(docs): describe the API".
Proof. split; vm_compute; reflexivity. Qed.

(** The check accepts a line without a space after its colon. *)
Example no_space_after_colon :
  is_valid_commit_line t:"fix(core):x" DEFAULT_COMMIT_TYPES DEFAULT_COMMIT_SCOPES = true.
Proof. vm_compute. reflexivity. Qed.

(** A title that is only a prefix makes a pull request without a description. *)
Example prefix_only_title :
  build_pr_title t:"docs:" None [] DEFAULT_COMMIT_SCOPES DEFAULT_COMMIT_TYPES = t:"docs(core): ".
Proof. vm_compute. reflexivity. Qed.

End Examples.
