(* ===== verification/Watchdog.v ===== *)
(** * Watchdog: agents that are stuck

    sova/supervisor/watchdog.py. A scan is told the table of task runs, the clocks and
    what the system says; it keeps the times of its alerts and of the steps it saw.
    Wall-clock and monotonic times are whole seconds, thresholds whole minutes,
    memory any unit. The texts of findings are not modelled. *)

From stdpp Require Import base gmap strings list sorting.
From S2P Require Import Prelude State.

Local Open Scope string_scope.

(** The columns of a [TaskRun] that a scan reads. *)
Record Run := {
  run_id : Z;
  issue_number : option string;
  status : string;
  pid : option Z;
  current_step : option string;
  started_at : option Z;
}.

(** [class AnomalySignal], [class WatchdogAction] *)
Inductive AnomalySignal :=
  | PIPELINE_NOT_ADOPTED | NO_OUTPUT_WARN | NO_OUTPUT_KILL | STEP_TIMEOUT_WARN | STEP_TIMEOUT_KILL
  | ZOMBIE_PROCESS | MEMORY_PRESSURE.

#[export] Instance signal_eq_dec : EqDecision AnomalySignal.
Proof. solve_decision. Defined.

Definition signal_value (s : AnomalySignal) : string :=
  match s with
  | PIPELINE_NOT_ADOPTED => "pipeline_not_adopted" | NO_OUTPUT_WARN => "no_output_warn"
  | NO_OUTPUT_KILL => "no_output_kill" | STEP_TIMEOUT_WARN => "step_timeout_warn"
  | STEP_TIMEOUT_KILL => "step_timeout_kill" | ZOMBIE_PROCESS => "zombie_process" | MEMORY_PRESSURE => "memory_pressure"
  end.

Inductive WatchdogAction := WARN | KILL.

#[export] Instance action_eq_dec : EqDecision WatchdogAction.
Proof. solve_decision. Defined.

(** [class WatchdogFinding] *)
Record Finding := { f_run_id : Z; f_issue_number : option string; f_signal : AnomalySignal; f_action : WatchdogAction }.

Definition finding (run : Run) (signal : AnomalySignal) (action : WatchdogAction) : Finding :=
  {| f_run_id := run_id run; f_issue_number := issue_number run; f_signal := signal; f_action := action |}.

(** [WatchdogConfig]; [_validate_thresholds]. *)
Record Config := {
  pipeline_adopt_timeout_minutes : Z;
  no_output_warn_minutes : Z;
  no_output_kill_minutes : Z;
  step_warn_minutes : Z;
  step_kill_minutes : Z;
  cooldown_minutes : Z;
}.

Definition valid_config (c : Config) : bool :=
  (Z.ltb 0 (pipeline_adopt_timeout_minutes c) && Z.ltb 0 (no_output_warn_minutes c) && Z.ltb 0 (step_warn_minutes c)
   && Z.ltb 0 (cooldown_minutes c))%bool
  && Z.ltb (no_output_warn_minutes c) (no_output_kill_minutes c) && Z.ltb (step_warn_minutes c) (step_kill_minutes c).

(** [MemoryGuardConfig]: what the runtime check reads. *)
Record MemoryGuard := { guard_enabled : bool; block_threshold : Z; stop_newest : bool }.

(** What the watchdog remembers: [_cooldowns] and [_step_started_at]. *)
Record Memory := { cooldowns : gmap (Z * string) Z; step_started_at : gmap (Z * string) Z }.

(** What a scan is told: the two clocks, the table, the last outputs by run, which
    processes live, and the memory available, if psutil says. *)
Record Scan := {
  s_now : Z;
  s_mono : Z;
  s_runs : list Run;
  s_outputs : gmap Z Z;
  s_alive : Z -> bool;
  s_available : option Z;
}.

(** [_get_active_runs] *)
Definition is_active (r : Run) : bool :=
  negb (bool_decide (status r ∈ TaskStatus.TASK_RUN_TERMINAL)) && bool_decide (is_Some (pid r)).

Definition active_runs (s : Scan) : list Run := List.filter is_active (s_runs s).

Section watchdog.
Context (config : Config) (memory_guard : MemoryGuard).

(** [_check_pipeline_not_adopted] *)
Definition check_pipeline_not_adopted (run : Run) (now : Z) : option Finding :=
  match started_at run with
  | None => None
  | Some started => if Z.ltb (now - started) (60 * pipeline_adopt_timeout_minutes config) then None
                    else Some (finding run PIPELINE_NOT_ADOPTED KILL)
  end.

(** [_check_no_output] *)
Definition check_no_output (run : Run) (silent : Z) : option Finding :=
  if Z.leb (60 * no_output_kill_minutes config) silent then Some (finding run NO_OUTPUT_KILL KILL)
  else if Z.leb (60 * no_output_warn_minutes config) silent then Some (finding run NO_OUTPUT_WARN WARN)
  else None.

(** A step that is timed: not none, not empty, not the sentinel. *)
Definition timed_step (run : Run) : option string :=
  match current_step run with
  | Some step => if bool_decide (step = "") || bool_decide (step = "agent") then None else Some step
  | None => None
  end.

(** [_check_step_timeout] *)
Definition check_step_timeout (run : Run) (mono : Z) (steps : gmap (Z * string) Z) : option Finding :=
  match timed_step run with
  | None => None
  | Some step =>
      match steps !! (run_id run, step) with
      | None => None
      | Some first_seen =>
          if Z.leb (60 * step_kill_minutes config) (mono - first_seen) then Some (finding run STEP_TIMEOUT_KILL KILL)
          else if Z.leb (60 * step_warn_minutes config) (mono - first_seen) then Some (finding run STEP_TIMEOUT_WARN WARN)
          else None
      end
  end.

Definition see_step (run : Run) (mono : Z) (steps : gmap (Z * string) Z) : gmap (Z * string) Z :=
  match timed_step run with
  | Some step => match steps !! (run_id run, step) with
                 | None => <[(run_id run, step) := mono]> steps
                 | Some _ => steps
                 end
  | None => steps
  end.

Definition option_list {A} (o : option A) : list A := match o with Some x => [x] | None => [] end.

(** [_detect_anomalies]: the findings, and the steps seen. *)
Definition detect_anomalies (s : Scan) (run : Run) (steps : gmap (Z * string) Z) : list Finding * gmap (Z * string) Z :=
  let adopt_finding := if bool_decide (current_step run = Some "agent") then check_pipeline_not_adopted run (s_now s) else None in
  match adopt_finding with
  | Some f => ([f], steps)
  | None =>
      if match pid run with Some p => negb (s_alive s p) | None => false end
      then ([finding run ZOMBIE_PROCESS KILL], steps)
      else
        let raw_baseline := match s_outputs s !! run_id run with Some t => Some t | None => started_at run end in
        let no_output_finding := match raw_baseline with Some t => check_no_output run (s_now s - t) | None => None end in
        let steps := see_step run (s_mono s) steps in
        ((option_list no_output_finding ++ option_list (check_step_timeout run (s_mono s) steps))%list, steps)
  end.

(** [max(active_runs, key=...)]: the first of the newest; a run that has not started
    counts as the oldest. *)
Definition newer (r1 r2 : Run) : bool :=
  match started_at r1, started_at r2 with
  | Some t1, Some t2 => Z.ltb t2 t1
  | Some _, None => true
  | None, _ => false
  end.

Definition newest (runs : list Run) : option Run :=
  foldl (fun best r => match best with None => Some r | Some b => if newer r b then Some r else Some b end) None runs.

(** [_check_memory_pressure] *)
Definition check_memory_pressure (s : Scan) : option Finding :=
  if negb (guard_enabled memory_guard) then None
  else match s_available s with
       | None => None
       | Some available =>
           if Z.leb (block_threshold memory_guard) available then None
           else match newest (active_runs s) with
                | Some run => if stop_newest memory_guard then Some (finding run MEMORY_PRESSURE KILL)
                              else Some {| f_run_id := 0; f_issue_number := None; f_signal := MEMORY_PRESSURE; f_action := WARN |}
                | None => Some {| f_run_id := 0; f_issue_number := None; f_signal := MEMORY_PRESSURE; f_action := WARN |}
                end
       end.

Definition cooldown_key (f : Finding) : Z * string := (f_run_id f, signal_value (f_signal f)).

(** [_is_on_cooldown], [_record_cooldown] *)
Definition is_on_cooldown (mono : Z) (c : gmap (Z * string) Z) (f : Finding) : bool :=
  match c !! cooldown_key f with
  | None => false
  | Some last_alert => Z.ltb (mono - last_alert) (cooldown_minutes config * 60)
  end.

(** One finding of the loop: kept and remembered unless on cooldown. *)
Definition report (mono : Z) (acc : list Finding * gmap (Z * string) Z) (f : Finding) : list Finding * gmap (Z * string) Z :=
  if is_on_cooldown mono acc.2 f then acc else ((acc.1 ++ [f])%list, <[cooldown_key f := mono]> acc.2).

(** [_prune_cooldowns] *)
Definition prune_cooldowns (active : list Z) (m : Memory) : Memory :=
  {| cooldowns := filter (fun kv => kv.1.1 ∈ active \/ kv.1.1 = 0%Z) (cooldowns m);
     step_started_at := filter (fun kv => kv.1.1 ∈ active) (step_started_at m) |}.

(** The loop over the runs. *)
Fixpoint scan_runs (s : Scan) (runs : list Run) (findings : list Finding) (m : Memory) : list Finding * Memory :=
  match runs with
  | [] => (findings, m)
  | run :: runs =>
      let '(found, steps) := detect_anomalies s run (step_started_at m) in
      let '(findings, cooldowns) := foldl (report (s_mono s)) (findings, cooldowns m) found in
      scan_runs s runs findings {| cooldowns := cooldowns; step_started_at := steps |}
  end.

(** [_scan_once]: the findings it acts on, and what it remembers. *)
Definition scan_once (s : Scan) (m : Memory) : list Finding * Memory :=
  match active_runs s with
  | [] => ([], prune_cooldowns [] m)
  | runs =>
      let '(findings, m) := scan_runs s runs [] m in
      let '(findings, cooldowns) := foldl (report (s_mono s)) (findings, cooldowns m) (option_list (check_memory_pressure s)) in
      (findings, prune_cooldowns (map run_id runs) {| cooldowns := cooldowns; step_started_at := step_started_at m |})
  end.

(** [_execute_finding] and [_kill_agent]: the run that is stopped, when the status that
    is read again allows it. *)
Definition execute_finding (status_now : Z -> option string) (f : Finding) : option Z :=
  match f_action f with
  | WARN => None
  | KILL => match status_now (f_run_id f) with
            | None => None
            | Some st => if bool_decide (st ∈ TaskStatus.TASK_RUN_TERMINAL) then None else Some (f_run_id f)
            end
  end.

(** ** What a scan finds *)

(** All that is detected in a list of runs, before cooldowns, and the steps seen. *)
Fixpoint detect_all (s : Scan) (runs : list Run) (steps : gmap (Z * string) Z) : list Finding * gmap (Z * string) Z :=
  match runs with
  | [] => ([], steps)
  | run :: runs =>
      let '(found, steps) := detect_anomalies s run steps in
      let '(more, steps) := detect_all s runs steps in ((found ++ more)%list, steps)
  end.

Lemma scan_runs_eq s runs findings m :
  scan_runs s runs findings m =
  let '(found, steps) := detect_all s runs (step_started_at m) in
  let '(findings, cooldowns) := foldl (report (s_mono s)) (findings, cooldowns m) found in
  (findings, {| cooldowns := cooldowns; step_started_at := steps |}).
Proof.
  revert findings m. induction runs as [|run runs IH]; intros findings m; cbn; [by destruct m|].
  destruct (detect_anomalies s run (step_started_at m)) as [found steps].
  destruct (foldl (report (s_mono s)) (findings, cooldowns m) found) as [fs cs] eqn:E. rewrite IH. cbn.
  destruct (detect_all s runs steps) as [more steps2]. by rewrite foldl_app, E.
Qed.

Lemma scan_once_eq s m :
  active_runs s <> [] ->
  scan_once s m =
  let '(found, steps) := detect_all s (active_runs s) (step_started_at m) in
  let '(findings, cooldowns) := foldl (report (s_mono s)) ([], cooldowns m) (found ++ option_list (check_memory_pressure s)) in
  (findings, prune_cooldowns (map run_id (active_runs s)) {| cooldowns := cooldowns; step_started_at := steps |}).
Proof.
  intros Hne. unfold scan_once. destruct (active_runs s) as [|run runs] eqn:E; [done|]. rewrite scan_runs_eq.
  destruct (detect_all s (run :: runs) _) as [found steps]. rewrite foldl_app.
  destruct (foldl _ (_, cooldowns m) found) as [fs cs]. cbn [cooldowns step_started_at]. done.
Qed.

(** An alert recorded now starts a cooldown, and none ends during the scan. *)
Lemma on_cooldown_now mono c f : (0 < cooldown_minutes config)%Z -> c !! cooldown_key f = Some mono -> is_on_cooldown mono c f = true.
Proof. intros Hcd E. unfold is_on_cooldown. rewrite E. apply Z.ltb_lt. lia. Qed.

Lemma on_cooldown_still mono c c' f :
  (0 < cooldown_minutes config)%Z -> (forall k, c' !! k = c !! k \/ c' !! k = Some mono) ->
  is_on_cooldown mono c f = true -> is_on_cooldown mono c' f = true.
Proof.
  intros Hcd Hc Hf. destruct (Hc (cooldown_key f)) as [E|E]; [|by apply on_cooldown_now].
  unfold is_on_cooldown in *. by rewrite E.
Qed.

(** What the reports of one scan add up to. *)
Lemma reports_spec mono found fs c fs' c' :
  (0 < cooldown_minutes config)%Z -> foldl (report mono) (fs, c) found = (fs', c') ->
  (forall f, f ∈ fs -> f ∈ fs') /\
  (forall f, f ∈ fs' -> f ∈ fs \/ (f ∈ found /\ is_on_cooldown mono c f = false)) /\
  (forall f, f ∈ found -> (exists g, g ∈ fs' /\ cooldown_key g = cooldown_key f) \/ is_on_cooldown mono c f = true) /\
  (forall k, c' !! k = c !! k \/ c' !! k = Some mono) /\
  (forall f, f ∈ fs' -> f ∈ fs \/ c' !! cooldown_key f = Some mono).
Proof.
  intros Hcd. revert fs c. induction found as [|f found IH]; intros fs c; cbn.
  { intros [= <- <-]. split_and!; auto. by intros f ?%not_elem_of_nil. }
  unfold report at 2. cbn. destruct (is_on_cooldown mono c f) eqn:Ef.
  - intros (H1 & H2 & H3 & H4 & H5)%IH. split_and!; [done| | |done|done].
    + intros g [?|[? ?]]%H2; [by left|right; split; [by right|done]].
    + intros g [->|Hg]%elem_of_cons; [by right|by apply H3].
  - intros (H1 & H2 & H3 & H4 & H5)%IH. split_and!.
    + intros g Hg. apply H1, elem_of_app. by left.
    + intros g [Hg|[Hg Hc]]%H2.
      * apply elem_of_app in Hg as [?|E%list_elem_of_singleton]; [by left|subst g; right; split; [by left|done]].
      * right. split; [by right|]. destruct (is_on_cooldown mono c g) eqn:Eg; [|done].
        rewrite (on_cooldown_still mono c) in Hc; [done|done| |done]. intros k.
        destruct (decide (k = cooldown_key f)) as [->|]; [right; by rewrite lookup_insert_eq|left; by rewrite lookup_insert_ne].
    + assert (f ∈ fs') as Hf by (apply H1, elem_of_app; right; by left).
      intros g [->|Hg]%elem_of_cons; [left; by exists f|]. destruct (H3 g Hg) as [?|Hc]; [by left|].
      destruct (decide (cooldown_key g = cooldown_key f)) as [E|E]; [left; by exists f|].
      right. unfold is_on_cooldown in *. by rewrite lookup_insert_ne in Hc.
    + intros k. destruct (H4 k) as [->|?]; [|by right].
      destruct (decide (k = cooldown_key f)) as [->|]; [right; by rewrite lookup_insert_eq|left; by rewrite lookup_insert_ne].
    + intros g [Hg|?]%H5; [|by right]. apply elem_of_app in Hg as [?|E%list_elem_of_singleton]; [by left|subst g; right].
      destruct (H4 (cooldown_key f)) as [->|?]; [by rewrite lookup_insert_eq|done].
Qed.

(** ** What is detected in a run *)

(** The pipeline was never adopted; the process is gone; the run has been silent. *)
Definition unadopted (s : Scan) (r : Run) : Prop :=
  current_step r = Some "agent" /\
  exists t, started_at r = Some t /\ (60 * pipeline_adopt_timeout_minutes config <= s_now s - t)%Z.

Definition dead (s : Scan) (r : Run) : Prop := exists p, pid r = Some p /\ s_alive s p = false.

Definition silent_for (minutes : Z) (s : Scan) (r : Run) : Prop :=
  exists t, match s_outputs s !! run_id r with Some t => Some t | None => started_at r end = Some t /\
    (60 * minutes <= s_now s - t)%Z.

Lemma adopt_finding_spec s r :
  (if bool_decide (current_step r = Some "agent") then check_pipeline_not_adopted r (s_now s) else None) =
    Some (finding r PIPELINE_NOT_ADOPTED KILL) /\ unadopted s r \/
  (if bool_decide (current_step r = Some "agent") then check_pipeline_not_adopted r (s_now s) else None) = None /\ ~ unadopted s r.
Proof.
  unfold unadopted, check_pipeline_not_adopted. case_bool_decide; [|right; naive_solver].
  destruct (started_at r) as [t|]; [|right; naive_solver]. destruct (_ <? _)%Z eqn:E.
  - apply Z.ltb_lt in E. right. split; [done|]. intros (_ & t' & [= <-] & ?). lia.
  - apply Z.ltb_ge in E. left. naive_solver.
Qed.

Lemma dead_spec s r :
  match pid r with Some p => negb (s_alive s p) | None => false end = true <-> dead s r.
Proof. unfold dead. destruct (pid r); [rewrite negb_true_iff|]; naive_solver. Qed.

Lemma no_output_spec s r f :
  match match s_outputs s !! run_id r with Some t => Some t | None => started_at r end with
  | Some t => check_no_output r (s_now s - t) | None => None end = Some f <->
  (f = finding r NO_OUTPUT_KILL KILL /\ silent_for (no_output_kill_minutes config) s r) \/
  (f = finding r NO_OUTPUT_WARN WARN /\ silent_for (no_output_warn_minutes config) s r /\
   ~ silent_for (no_output_kill_minutes config) s r).
Proof.
  unfold silent_for, check_no_output. destruct (match s_outputs s !! run_id r with Some t => Some t | None => started_at r end) as [t|];
    [|naive_solver].
  destruct (60 * no_output_kill_minutes config <=? _)%Z eqn:E1; [apply Z.leb_le in E1|apply Z.leb_gt in E1].
  - split; [intros [= <-]; left; eauto|]. intros [[-> _]|(_ & _ & Hn)]; [done|]. exfalso. apply Hn. eauto.
  - assert (~ exists t0, Some t = Some t0 /\ (60 * no_output_kill_minutes config <= s_now s - t0)%Z) as Hn.
    { intros (? & [= <-] & ?). lia. }
    destruct (60 * no_output_warn_minutes config <=? _)%Z eqn:E2; [apply Z.leb_le in E2|apply Z.leb_gt in E2].
    + split; [intros [= <-]; right; eauto|]. intros [[_ ?]|(-> & _)]; [done|done].
    + split; [done|]. intros [[_ ?]|(_ & (? & [= <-] & ?) & _)]; [done|lia].
Qed.

(** The time a run's step has been watched for is told by the steps seen. *)
Definition stuck_for (minutes : Z) (s : Scan) (r : Run) (steps : gmap (Z * string) Z) : Prop :=
  exists step t, timed_step r = Some step /\ see_step r (s_mono s) steps !! (run_id r, step) = Some t /\
    (60 * minutes <= s_mono s - t)%Z.

Lemma step_timeout_spec s r steps f :
  check_step_timeout r (s_mono s) (see_step r (s_mono s) steps) = Some f ->
  (f = finding r STEP_TIMEOUT_KILL KILL /\ stuck_for (step_kill_minutes config) s r steps) \/
  (f = finding r STEP_TIMEOUT_WARN WARN /\ stuck_for (step_warn_minutes config) s r steps).
Proof.
  unfold check_step_timeout, stuck_for. destruct (timed_step r) as [step|]; [|done].
  destruct (see_step _ _ _ !! _) as [t|] eqn:Et; [|done].
  destruct (60 * step_kill_minutes config <=? _)%Z eqn:E1; [apply Z.leb_le in E1; intros [= <-]; left; eauto 6|].
  destruct (60 * step_warn_minutes config <=? _)%Z eqn:E2; [apply Z.leb_le in E2; intros [= <-]; right; eauto 6|done].
Qed.

Lemma elem_of_option_list {A} (o : option A) x : x ∈ option_list o <-> o = Some x.
Proof. destruct o; cbn; [rewrite list_elem_of_singleton; naive_solver|]. split; [by intros ?%not_elem_of_nil|done]. Qed.

(** Everything that can be detected in a run. *)
Lemma detected s r steps f :
  f ∈ (detect_anomalies s r steps).1 ->
  (f = finding r PIPELINE_NOT_ADOPTED KILL /\ unadopted s r) \/
  (f = finding r ZOMBIE_PROCESS KILL /\ dead s r) \/
  (f = finding r NO_OUTPUT_KILL KILL /\ silent_for (no_output_kill_minutes config) s r) \/
  (f = finding r NO_OUTPUT_WARN WARN /\ silent_for (no_output_warn_minutes config) s r) \/
  (f = finding r STEP_TIMEOUT_KILL KILL /\ stuck_for (step_kill_minutes config) s r steps) \/
  (f = finding r STEP_TIMEOUT_WARN WARN /\ stuck_for (step_warn_minutes config) s r steps).
Proof.
  unfold detect_anomalies. destruct (adopt_finding_spec s r) as [[-> Hu]|[-> _]].
  { intros ->%list_elem_of_singleton. eauto. }
  destruct (match pid r with Some p => _ | None => false end) eqn:Ed.
  { intros ->%list_elem_of_singleton. right; left. by rewrite <- dead_spec. }
  cbn. rewrite elem_of_app, !elem_of_option_list, no_output_spec. intros [[?|(? & ? & ?)]|Hs]; [eauto 8..|].
  apply step_timeout_spec in Hs as [?|?]; eauto 8.
Qed.

(** The anomalies that leave no choice. *)
Lemma detects_fatal s r steps :
  (unadopted s r -> finding r PIPELINE_NOT_ADOPTED KILL ∈ (detect_anomalies s r steps).1) /\
  (~ unadopted s r -> dead s r -> finding r ZOMBIE_PROCESS KILL ∈ (detect_anomalies s r steps).1) /\
  (~ unadopted s r -> ~ dead s r -> silent_for (no_output_kill_minutes config) s r ->
   finding r NO_OUTPUT_KILL KILL ∈ (detect_anomalies s r steps).1).
Proof.
  unfold detect_anomalies. destruct (adopt_finding_spec s r) as [[-> Hu]|[-> Hu]].
  { split_and!; [by left|done|done]. }
  split_and!; [done|intros _ Hd; rewrite <- dead_spec in Hd; rewrite Hd; by left|].
  intros _ Hd Hs. rewrite <- dead_spec in Hd. apply not_true_is_false in Hd. rewrite Hd. cbn. apply elem_of_app. left.
  apply elem_of_option_list, no_output_spec. by left.
Qed.

Lemma detected_run s r steps f : f ∈ (detect_anomalies s r steps).1 -> f_run_id f = run_id r.
Proof. by intros [[-> _]|[[-> _]|[[-> _]|[[-> _]|[[-> _]|[-> _]]]]]]%detected. Qed.

(** What the scan knows of a step once it has seen some runs. *)
Definition steps_from (s : Scan) (runs : list Run) (steps steps' : gmap (Z * string) Z) : Prop :=
  forall k t, steps' !! k = Some t ->
    steps !! k = Some t \/ (t = s_mono s /\ exists r, r ∈ runs /\ run_id r = k.1 /\ timed_step r = Some k.2).

Lemma see_step_from s r steps : steps_from s [r] steps (see_step r (s_mono s) steps).
Proof.
  intros [id step] t. unfold see_step. destruct (timed_step r) as [st|] eqn:E; [|by left].
  destruct (steps !! (run_id r, st)) eqn:E2; [by left|]. destruct (decide ((run_id r, st) = (id, step))) as [Heq|Hne].
  - rewrite Heq, lookup_insert_eq. intros [= <-]. right. split; [done|]. exists r. injection Heq as <- <-. by split_and!; [left|..].
  - rewrite lookup_insert_ne by done. by left.
Qed.

Lemma detect_steps s r steps : steps_from s [r] steps (detect_anomalies s r steps).2.
Proof.
  unfold detect_anomalies. destruct (if bool_decide _ then _ else None); [by intros k t; left|].
  destruct (match pid r with Some p => _ | None => false end); [by intros k t; left|]. apply see_step_from.
Qed.

Lemma steps_from_trans s rs1 rs2 a b c : steps_from s rs1 a b -> steps_from s rs2 b c -> steps_from s (rs1 ++ rs2) a c.
Proof.
  intros H1 H2 k t [Hb|(Ht & r & Hr & ?)]%H2.
  - destruct (H1 k t Hb) as [?|(Ht & r & Hr & ?)]; [by left|right]. split; [done|]. exists r. split; [|done]. apply elem_of_app. by left.
  - right. split; [done|]. exists r. split; [|done]. apply elem_of_app. by right.
Qed.

Lemma detect_all_spec s runs steps :
  steps_from s runs steps (detect_all s runs steps).2 /\
  (forall f, f ∈ (detect_all s runs steps).1 ->
     exists r steps', r ∈ runs /\ f ∈ (detect_anomalies s r steps').1 /\ steps_from s runs steps steps') /\
  (forall r, r ∈ runs -> exists steps', forall f, f ∈ (detect_anomalies s r steps').1 -> f ∈ (detect_all s runs steps).1).
Proof.
  revert steps. induction runs as [|r runs IH]; intros steps; cbn.
  { split_and!; [by intros k t; left|by intros f ?%not_elem_of_nil|by intros r ?%not_elem_of_nil]. }
  pose proof (detect_steps s r steps) as Hd. destruct (detect_anomalies s r steps) as [found st] eqn:E. cbn [fst snd] in *.
  destruct (IH st) as (I1 & I2 & I3). destruct (detect_all s runs st) as [more st2]. cbn [fst snd] in *. split_and!.
  - by apply (steps_from_trans s [r] runs _ st).
  - intros f [Hf|Hf]%elem_of_app.
    + exists r, steps. rewrite E. split_and!; [by left|done|by intros k t; left].
    + destruct (I2 f Hf) as (r' & st' & Hr' & Hf' & Hs'). exists r', st'. split_and!; [by right|done|].
      by apply (steps_from_trans s [r] runs _ st).
  - intros r' [->|Hr']%elem_of_cons.
    + exists steps. rewrite E. intros f Hf. apply elem_of_app. by left.
    + destruct (I3 r' Hr') as [st' Hst']. exists st'. intros f Hf. apply elem_of_app. right. by apply Hst'.
Qed.

Lemma newer_trans a b c : newer a b = false -> newer c b = true -> newer a c = false.
Proof.
  unfold newer. destruct (started_at a), (started_at b), (started_at c); try done.
  rewrite !Z.ltb_ge, Z.ltb_lt. lia.
Qed.

Lemma newest_spec runs :
  match newest runs with None => runs = [] | Some r => r ∈ runs /\ forall x, x ∈ runs -> newer x r = false end.
Proof.
  assert (forall x, newer x x = false) as Hirr by (intros x; unfold newer; destruct (started_at x); [apply Z.ltb_irrefl|done]).
  unfold newest. induction runs as [|y runs IH] using rev_ind; [done|]. rewrite foldl_app. cbn [foldl].
  destruct (foldl _ None runs) as [b|].
  - destruct IH as [Hb Hmax]. destruct (newer y b) eqn:E; (split; [apply elem_of_app|]).
    + right; by left.
    + intros x [Hx|Hx%list_elem_of_singleton]%elem_of_app; [|by subst]. by apply (newer_trans x b y); [apply Hmax|].
    + by left.
    + intros x [Hx|Hx%list_elem_of_singleton]%elem_of_app; [by apply Hmax|by subst].
  - subst. split; [by left|]. by intros x ->%list_elem_of_singleton.
Qed.

Lemma memory_spec s f :
  check_memory_pressure s = Some f ->
  f_signal f = MEMORY_PRESSURE /\
  (exists a, s_available s = Some a /\ (a < block_threshold memory_guard)%Z) /\
  ((f_run_id f = 0%Z /\ f_action f = WARN) \/
   exists r, f = finding r MEMORY_PRESSURE KILL /\ stop_newest memory_guard = true /\ r ∈ active_runs s /\
     forall x, x ∈ active_runs s -> newer x r = false).
Proof.
  unfold check_memory_pressure. destruct (negb _); [done|]. destruct (s_available s) as [a|]; [|done].
  destruct (_ <=? a)%Z eqn:E; [done|]. apply Z.leb_gt in E. pose proof (newest_spec (active_runs s)) as Hn.
  destruct (newest (active_runs s)) as [r|]; [destruct (stop_newest memory_guard)|]; intros [= <-]; split_and!; eauto 8.
Qed.

(** ** A scan and its memory *)

Definition active_ids (s : Scan) : list Z := map run_id (active_runs s).

Lemma elem_of_active_ids s id : id ∈ active_ids s <-> exists r, r ∈ active_runs s /\ run_id r = id.
Proof. unfold active_ids. rewrite list_elem_of_fmap. naive_solver. Qed.

Lemma prune_cooldowns_lookup ids m k t :
  cooldowns (prune_cooldowns ids m) !! k = Some t <-> cooldowns m !! k = Some t /\ (k.1 ∈ ids \/ k.1 = 0%Z).
Proof. cbn. rewrite map_lookup_filter_Some. done. Qed.

(** Everything a scan acts on comes from an active run or from the memory check. *)
Lemma found_source s m f :
  (0 < cooldown_minutes config)%Z -> f ∈ (scan_once s m).1 ->
  is_on_cooldown (s_mono s) (cooldowns m) f = false /\
  cooldowns (scan_once s m).2 !! cooldown_key f = Some (s_mono s) /\
  (check_memory_pressure s = Some f \/
   exists r steps, r ∈ active_runs s /\ f ∈ (detect_anomalies s r steps).1 /\
     steps_from s (active_runs s) (step_started_at m) steps).
Proof.
  intros Hcd. destruct (decide (active_runs s = [])) as [E|Hne]; [unfold scan_once; rewrite E; by intros ?%not_elem_of_nil|].
  rewrite scan_once_eq by done. pose proof (detect_all_spec s (active_runs s) (step_started_at m)) as (_ & Hsrc & _).
  destruct (detect_all s (active_runs s) (step_started_at m)) as [found steps]. cbn [fst] in Hsrc.
  destruct (foldl _ _ _) as [fs cs] eqn:Er. apply reports_spec in Er as (_ & H2 & _ & _ & H5); [|done]. cbn [fst snd]. intros Hf.
  destruct (H2 f Hf) as [?%not_elem_of_nil|[Hin Hc]]; [done|]. destruct (H5 f Hf) as [?%not_elem_of_nil|Hk]; [done|].
  assert (check_memory_pressure s = Some f \/ exists r steps', r ∈ active_runs s /\ f ∈ (detect_anomalies s r steps').1 /\
            steps_from s (active_runs s) (step_started_at m) steps') as Hs.
  { apply elem_of_app in Hin as [Hin|Hin%elem_of_option_list]; [right; by apply Hsrc|by left]. }
  split_and!; [done| |done]. rewrite prune_cooldowns_lookup. split; [done|]. unfold cooldown_key. cbn [fst].
  destruct Hs as [Hm|(r & st & Hr & Hd & _)].
  - apply memory_spec in Hm as (_ & _ & [[? _]|(r & -> & _ & Hr & _)]); [by right|left].
    apply elem_of_active_ids. by exists r.
  - left. apply elem_of_active_ids. exists r. by rewrite (detected_run _ _ _ _ Hd).
Qed.

(** What is remembered of an alert while its run is active. *)
Lemma cooldown_kept s m k :
  (0 < cooldown_minutes config)%Z -> k.1 ∈ active_ids s \/ k.1 = 0%Z ->
  cooldowns (scan_once s m).2 !! k = cooldowns m !! k \/ cooldowns (scan_once s m).2 !! k = Some (s_mono s).
Proof.
  intros Hcd Hk. assert (forall c, k.1 ∈ map run_id (active_runs s) \/ k.1 = 0%Z ->
    cooldowns (prune_cooldowns (map run_id (active_runs s)) c) !! k = cooldowns c !! k) as Hprune.
  { intros c Hin. apply option_eq. intros t. rewrite prune_cooldowns_lookup. naive_solver. }
  destruct (decide (active_runs s = [])) as [E|Hne].
  - left. unfold scan_once, active_ids in *. rewrite E in *. by apply Hprune.
  - rewrite scan_once_eq by done. destruct (detect_all s _ _) as [found steps].
    destruct (foldl _ _ _) as [fs cs] eqn:Er. apply reports_spec in Er as (_ & _ & _ & H4 & _); [|done]. cbn [fst snd].
    rewrite Hprune by done. apply H4.
Qed.

(** The steps remembered after a scan. *)
Lemma steps_kept s m k t :
  step_started_at (scan_once s m).2 !! k = Some t ->
  k.1 ∈ active_ids s /\
  (step_started_at m !! k = Some t \/
   (t = s_mono s /\ exists r, r ∈ active_runs s /\ run_id r = k.1 /\ timed_step r = Some k.2)).
Proof.
  destruct (decide (active_runs s = [])) as [E|Hne].
  - unfold scan_once. rewrite E. cbn. rewrite map_lookup_filter_Some. intros [_ Hin]. by apply not_elem_of_nil in Hin.
  - rewrite scan_once_eq by done. pose proof (detect_all_spec s (active_runs s) (step_started_at m)) as (Hst & _ & _).
    destruct (detect_all s _ _) as [found steps]. destruct (foldl _ _ _) as [fs cs]. cbn in *.
    rewrite map_lookup_filter_Some. intros [Ht Hin]. split; [done|]. by apply Hst.
Qed.

(** The memory after a list of scans, from a new watchdog. *)
Definition after (scans : list Scan) : Memory :=
  foldl (fun m s => (scan_once s m).2) {| cooldowns := ∅; step_started_at := ∅ |} scans.

(** What the scan after some scans finds. *)
Definition found_at (scans : list Scan) (s : Scan) : list Finding := (scan_once s (after scans)).1.

Lemma valid_config_spec :
  valid_config config = true -> (0 < cooldown_minutes config)%Z /\ (0 < step_kill_minutes config)%Z /\ (0 < no_output_kill_minutes config)%Z.
Proof. unfold valid_config. rewrite !andb_true_iff, !Z.ltb_lt. lia. Qed.

(** ** Histories of scans *)

Local Close Scope string_scope.

Lemma after_snoc scans s : after (scans ++ [s]) = (scan_once s (after scans)).2.
Proof. unfold after. by rewrite foldl_app. Qed.

(** The run was active in a scan, on a step. *)
Definition on_step (s : Scan) (id : Z) (step : string) : Prop :=
  exists r, r ∈ active_runs s /\ run_id r = id /\ timed_step r = Some step.

(** It has been on the step since some scan, at some time, and active ever since. *)
Definition watched (scans : list Scan) (id : Z) (step : string) (t : Z) : Prop :=
  exists l1 s0 l2, scans = l1 ++ s0 :: l2 /\ s_mono s0 = t /\ on_step s0 id step /\ Forall (fun s => id ∈ active_ids s) l2.

Lemma steps_watched scans id step t : step_started_at (after scans) !! (id, step) = Some t -> watched scans id step t.
Proof.
  induction scans as [|s scans IH] using rev_ind; [done|]. rewrite after_snoc.
  intros (Hid & [Ht|(-> & Hr)])%steps_kept.
  - destruct (IH Ht) as (l1 & s0 & l2 & -> & ? & ? & ?). exists l1, s0, (l2 ++ [s]).
    split_and!; [by rewrite <- app_assoc|done|done|]. apply Forall_app. split; [done|]. by constructor.
  - exists scans, s, []. split_and!; [done..|constructor].
Qed.

(** An alert is remembered, or a later one for the same, while its run is active. *)
Lemma alert_kept before s1 mid f :
  (0 < cooldown_minutes config)%Z -> f ∈ found_at before s1 ->
  Forall (fun s => f_run_id f = 0%Z \/ f_run_id f ∈ active_ids s) mid ->
  Forall (fun s => (s_mono s1 <= s_mono s)%Z) mid ->
  exists t, cooldowns (after (before ++ s1 :: mid)) !! cooldown_key f = Some t /\ (s_mono s1 <= t)%Z.
Proof.
  intros Hcd Hf. induction mid as [|s mid IH] using rev_ind; intros Hact Htime.
  - rewrite after_snoc. exists (s_mono s1). split; [|done]. by apply found_source in Hf as (_ & ? & _).
  - apply Forall_app in Hact as [Hact Hs]. apply Forall_app in Htime as [Htime Hts].
    apply Forall_inv in Hs, Hts. destruct (IH Hact Htime) as (t & Ht & Hle).
    rewrite app_comm_cons, app_assoc, after_snoc.
    destruct (cooldown_kept s (after (before ++ s1 :: mid)) (cooldown_key f) Hcd) as [-> | ->]; [|by exists t|by eexists].
    cbn. tauto.
Qed.

(** the watchdog stops a run only for cause. Whatever scans came before, a run is
    stopped only if it is active, its status is read again and has not ended, and at
    that very scan its pipeline was never adopted within the timeout, or its process is
    gone, or it has put nothing out for the kill threshold, or it has been watched on
    its step for the kill threshold, active in every scan since; or memory is below
    the threshold, evicting is switched on, and no active run started later. *)
Theorem stop_justified (before : list Scan) (s : Scan) (f : Finding) (status_now : Z -> option string) (id : Z)
    (Hconfig : valid_config config = true) (Hf : f ∈ found_at before s)
    (Hstop : execute_finding status_now f = Some id) :
  (exists st, status_now id = Some st /\ st ∉ TaskStatus.TASK_RUN_TERMINAL) /\
  exists r, r ∈ active_runs s /\ run_id r = id /\
    (unadopted s r \/ dead s r \/ silent_for (no_output_kill_minutes config) s r \/
     (exists step t, timed_step r = Some step /\ watched before id step t /\
        (60 * step_kill_minutes config <= s_mono s - t)%Z) \/
     ((exists a, s_available s = Some a /\ (a < block_threshold memory_guard)%Z) /\
      stop_newest memory_guard = true /\ forall x, x ∈ active_runs s -> newer x r = false)).
Proof.
  apply valid_config_spec in Hconfig as (Hcd & Hkill & _).
  unfold execute_finding in Hstop. destruct (f_action f) eqn:Ea; [done|]. destruct (status_now (f_run_id f)) as [st|] eqn:Est; [|done].
  case_bool_decide; [done|]. injection Hstop as <-. split; [by exists st|].
  apply found_source in Hf as (_ & _ & Hsrc); [|done]. destruct Hsrc as [Hm|(r & steps & Hr & Hd & Hfrom)].
  - apply memory_spec in Hm as (_ & Ha & [[_ ?]|(r & -> & ? & Hr & Hn)]); [congruence|]. exists r. split_and!; [done|done|].
    do 4 right. done.
  - exists r. rewrite (detected_run _ _ _ _ Hd). split_and!; [done|done|]. apply detected in Hd.
    destruct Hd as [[-> ?]|[[-> ?]|[[-> ?]|[[-> ?]|[[-> Hs]|[-> ?]]]]]]; try discriminate; eauto.
    do 3 right. left. destruct Hs as (step & t & Hst & Ht & Hle). exists step, t. split_and!; [done| |done].
    destruct (steps_from_trans _ _ _ _ _ _ Hfrom (see_step_from s r steps) _ _ Ht) as [Hold|[-> _]]; [by apply steps_watched|lia].
Qed.

(** no anomaly is lost and none is repeated. An active run whose pipeline was not
    adopted in time, whose process is gone, or which has been silent for the kill
    threshold is acted on in the very scan that sees it, unless an alert of that kind
    for that run is on cooldown; and two alerts of one kind for a run that stays active
    are at least a cooldown apart, whatever the scans between them. *)
Theorem alerts_complete_and_spaced (before mid : list Scan) (s s2 : Scan) (r : Run)
    (Hconfig : valid_config config = true) (Hr : r ∈ active_runs s) :
  let seen signal := (exists g, g ∈ found_at before s /\ f_run_id g = run_id r /\ signal_value (f_signal g) = signal_value signal) \/
    (exists t, cooldowns (after before) !! (run_id r, signal_value signal) = Some t /\
       (s_mono s - t < cooldown_minutes config * 60)%Z) in
  (unadopted s r -> seen PIPELINE_NOT_ADOPTED) /\
  (~ unadopted s r -> dead s r -> seen ZOMBIE_PROCESS) /\
  (~ unadopted s r -> ~ dead s r -> silent_for (no_output_kill_minutes config) s r -> seen NO_OUTPUT_KILL) /\
  (forall f f2, f ∈ found_at before s -> f2 ∈ found_at (before ++ s :: mid) s2 -> cooldown_key f2 = cooldown_key f ->
     Forall (fun x => f_run_id f = 0%Z \/ f_run_id f ∈ active_ids x) mid ->
     Forall (fun x => (s_mono s <= s_mono x)%Z) mid ->
     (cooldown_minutes config * 60 <= s_mono s2 - s_mono s)%Z).
Proof.
  apply valid_config_spec in Hconfig as (Hcd & Hkill & _).
  intros seen. assert (forall signal, (forall steps, finding r signal KILL ∈ (detect_anomalies s r steps).1) -> seen signal) as Hseen.
  { intros signal Hdet. unfold seen, found_at. assert (active_runs s <> []) as Hne by (intros E; rewrite E in Hr; by apply not_elem_of_nil in Hr).
    rewrite scan_once_eq by done. pose proof (detect_all_spec s (active_runs s) (step_started_at (after before))) as (_ & _ & Hall).
    destruct (Hall r Hr) as [steps' Hin]. destruct (detect_all s _ _) as [found steps]. cbn [fst] in Hin.
    destruct (foldl _ _ _) as [fs cs] eqn:Er. apply reports_spec in Er as (_ & _ & Hrep & _ & _); [|done]. cbn [fst].
    destruct (Hrep (finding r signal KILL)) as [(g & Hg & Hk)|Hc].
    - apply elem_of_app. left. by apply Hin, Hdet.
    - left. exists g. split; [done|]. by injection Hk.
    - right. unfold is_on_cooldown in Hc. cbn in Hc. destruct (cooldowns (after before) !! _) as [t|]; [|done]. exists t.
      by apply Z.ltb_lt in Hc. }
  split_and!.
  - intros Hu. apply Hseen. intros steps. by apply detects_fatal.
  - intros Hu Hd. apply Hseen. intros steps. by apply detects_fatal.
  - intros Hu Hd Hs. apply Hseen. intros steps. by apply detects_fatal.
  - intros f f2 Hf Hf2 Hk Hact Htime. destruct (alert_kept before s mid f) as (t & Ht & Hle); [done..|].
    apply found_source in Hf2 as (Hc & _ & _); [|done]. unfold is_on_cooldown in Hc. rewrite Hk, Ht in Hc.
    apply Z.ltb_ge in Hc. lia.
Qed.

End watchdog.

Module Examples.

Local Open Scope string_scope.

Definition config : Config :=
  {| pipeline_adopt_timeout_minutes := 5; no_output_warn_minutes := 15; no_output_kill_minutes := 25;
     step_warn_minutes := 45; step_kill_minutes := 60; cooldown_minutes := 10 |}.

Definition guard : MemoryGuard := {| guard_enabled := true; block_threshold := 150; stop_newest := false |}.

(** A run that works on one step and puts output out, scanned every ten minutes. *)
Definition agent : Run :=
  {| run_id := 7; issue_number := Some "42"; status := "running"; pid := Some 4000%Z; current_step := Some "develop";
     started_at := Some 0%Z |}.

Definition scan (k : Z) : Scan :=
  {| s_now := 600 * k; s_mono := 600 * k; s_runs := [agent]; s_outputs := {[ 7%Z := (600 * k - 10)%Z ]};
     s_alive := fun _ => true; s_available := Some 900%Z |}.

Definition history : list Scan := map scan [1; 2; 3; 4; 5; 6]%Z.

(** It is warned about at the watched 50 minutes, and stopped at 60. *)
Example warned_then_stopped :
  map f_signal (found_at config guard (take 5 history) (scan 6)) = [STEP_TIMEOUT_WARN] /\
  map f_signal (found_at config guard history (scan 7)) = [STEP_TIMEOUT_KILL].
Proof. split; vm_compute; reflexivity. Qed.

Lemma stop_justified_witness :
  exists r, r ∈ active_runs (scan 7) /\ run_id r = 7%Z /\
    finding agent STEP_TIMEOUT_KILL KILL ∈ found_at config guard history (scan 7).
Proof.
  assert (finding agent STEP_TIMEOUT_KILL KILL ∈ found_at config guard history (scan 7)) as Hf by (vm_compute; by left).
  destruct (stop_justified config guard history (scan 7) _ (fun _ => Some "running") 7 eq_refl Hf eq_refl)
    as [_ (r & Hr & Hid & _)].
  by exists r.
Defined.

Lemma alerts_complete_and_spaced_witness : (cooldown_minutes config * 60 <= s_mono (scan 7) - s_mono (scan 6))%Z /\
  (~ unadopted config (scan 6) agent -> dead (scan 6) agent -> False).
Proof.
  assert (agent ∈ active_runs (scan 6)) as Hr by (vm_compute; by left).
  pose proof (alerts_complete_and_spaced config guard (take 5 history) [] (scan 6) (scan 7) agent eq_refl Hr) as (_ & Hdead & _).
  split; [by vm_compute|]. intros Hu Hd. destruct (Hdead Hu Hd) as [(g & Hg & _ & Hs)|(t & Ht & _)].
  - vm_compute in Hg. apply list_elem_of_singleton in Hg. subst g. vm_compute in Hs. discriminate.
  - vm_compute in Ht. discriminate.
Defined.

End Examples.
