(* ===== verification/Fences.v ===== *)
(** * Fences: the wrapper a model puts around its answer

    [strip_code_fences] of sova/utils/markdown.py, through which every answer of a
    model passes before it is read as JSON or stored. *)

From stdpp Require Import base gmap strings list.
From Stdlib Require Import Ascii.
From S2P Require Import Prelude Markdown.

Module Fences.

Import Markdown.

Definition is_tick (c : ascii) : bool := Ascii.eqb c "`"%char.

Definition is_blank (c : ascii) : bool := Ascii.eqb c space || Ascii.eqb c tab.

(** The lengths of the maximal runs of backticks; [cur] counts the run in progress. *)
Fixpoint tick_runs (cur : nat) (l : line) : list nat :=
  let closed := match cur with O => [] | _ => [cur] end in
  match l with
  | [] => closed
  | c :: l => if is_tick c then tick_runs (S cur) l else closed ++ tick_runs 0 l
  end.

(** [_strip_glued_closing_fence] *)
Definition strip_glued_closing_fence (l : line) (width : nat) : line :=
  let runs := List.filter (fun n => width <=? n) (tick_runs 0 l) in
  if Nat.even (length runs) || negb (forallb is_tick (take width (rev l)) && (width <=? length l)) then l
  else
    let body := PyStr.drop_while_end is_tick l in
    let trailing := length l - length body in
    let body_runs := tick_runs 0 body in
    let last_run := List.last body_runs 0 in
    if Nat.odd (length body_runs) && (last_run + width <=? trailing) then body ++ repeat "`"%char last_run
    else body.

Definition is_letter (c : ascii) : bool :=
  let n := nat_of_ascii c in ((65 <=? n) && (n <=? 90)) || ((97 <=? n) && (n <=? 122)).

(** [\w+-] on ASCII *)
Definition is_tag_char (c : ascii) : bool :=
  is_letter c || PyStr.is_digit c || Ascii.eqb c "_"%char || Ascii.eqb c "+"%char || Ascii.eqb c "-"%char.

Definition opens_json (l : list ascii) : bool :=
  match l with c :: _ => Ascii.eqb c "["%char || Ascii.eqb c "{"%char | [] => false end.

(** What follows a match of [_ONE_LINE_INFO_STRING_RE] at the start of the text. *)
Definition after_info_string (l : list ascii) : option (list ascii) :=
  let tagged := PyStr.drop_while is_tag_char l in
  match l with
  | c :: _ =>
      if is_letter c && opens_json tagged then Some tagged
      else
        let word := PyStr.of_list (map PyStr.lower_char (PyStr.take_while is_tag_char l)) in
        let rest := PyStr.drop_while is_blank tagged in
        if bool_decide (word ∈ ["json"; "jsonc"; "json5"]%string) && (length rest <? length tagged) && opens_json rest
        then Some rest else None
  | [] => None
  end.

(** [[ \t]*`{3,}[ \t]*] on a whole line *)
Definition is_closing_line (l : line) : bool :=
  let ticks := PyStr.drop_while is_blank l in
  (3 <=? length (PyStr.take_while is_tick ticks)) && forallb is_blank (PyStr.drop_while is_tick ticks).

(** The lines under the opening one, without the closing fence. *)
Definition without_closing (width : nat) (lines : list line) : list line :=
  match rev lines with
  | [] => []
  | l :: before => if is_closing_line l then rev before
                   else rev before ++ [strip_glued_closing_fence l width]
  end.

(** [strip_code_fences] *)
Definition strip_code_fences (text : string) : string :=
  let stripped := PyStr.strip_list (PyStr.to_list text) in
  let width := length (PyStr.take_while is_tick stripped) in
  PyStr.of_list
    (if width <? 3 then stripped
     else match split_nl stripped with
          | _ :: l :: ls => PyStr.strip_list (join_nl (without_closing width (l :: ls)))
          | _ => let body := PyStr.strip_list (strip_glued_closing_fence (drop width stripped) width) in
                 default body (after_info_string body)
          end).

Definition ticks (n : nat) : list ascii := repeat "`"%char n.

Example plain_answer : strip_code_fences " a `b` " = "a `b`"%string.
Proof. reflexivity. Qed.
Example one_line : strip_code_fences "```json{1}```" = "{1}"%string.
Proof. reflexivity. Qed.
Example one_line_spaced : strip_code_fences "``` JSON  [2] ```" = "[2]"%string.
Proof. reflexivity. Qed.
Example json_block : strip_code_fences (PyStr.of_list (ticks 3 ++ PyStr.to_list "json" ++ nl :: "{"%char :: nl :: "}"%char :: nl :: ticks 4))
  = PyStr.of_list ["{"%char; nl; "}"%char].
Proof. reflexivity. Qed.
Example a_sentence : strip_code_fences "```see [docs]```" = "see [docs]"%string.
Proof. reflexivity. Qed.

(** ** Lemmas *)

Lemma ticks_all n : forallb is_tick (ticks n) = true.
Proof. by induction n. Qed.

Lemma ticks_rev n : rev (ticks n) = ticks n.
Proof. apply rev_repeat. Qed.

Lemma forallb_rev {A} (f : A -> bool) l : forallb f (rev l) = forallb f l.
Proof. induction l as [|a l IH]; [done|]. cbn. rewrite forallb_app, IH. cbn. by destruct (f a), (forallb f l). Qed.

Lemma ticks_no_nl n : nl ∉ ticks n.
Proof. intros Hin%list_elem_of_In%repeat_spec. done. Qed.

(** Stripping a text that lies between blanks and starts and ends with something else. *)
Lemma strip_between pre l post :
  forallb PyStr.is_space pre = true -> forallb PyStr.is_space post = true ->
  (exists c l', l = c :: l' /\ PyStr.is_space c = false) ->
  (exists c l', l = l' ++ [c] /\ PyStr.is_space c = false) ->
  PyStr.strip_list (pre ++ l ++ post) = l.
Proof.
  intros Hpre Hpost (c & l1 & El & Hc) (d & l2 & El' & Hd). unfold PyStr.strip_list.
  assert (PyStr.drop_while PyStr.is_space (pre ++ l ++ post) = l ++ post) as ->
    by (rewrite El; by apply PyStr.drop_while_app).
  unfold PyStr.drop_while_end. rewrite El', <- app_assoc, rev_app_distr. cbn [rev app].
  rewrite <- app_assoc. cbn [app].
  rewrite PyStr.drop_while_app; [|by rewrite forallb_rev|done].
  cbn [rev]. by rewrite rev_involutive.
Qed.

Lemma take_ticks n l : (forall l', l <> "`"%char :: l') -> PyStr.take_while is_tick (ticks n ++ l) = ticks n.
Proof.
  intros Hl. destruct l as [|c l].
  - rewrite app_nil_r. induction n as [|n IH]; [done|]. cbn. by f_equal.
  - apply PyStr.take_while_app; [apply ticks_all|]. apply Ascii.eqb_neq. intros ->. by eapply Hl.
Qed.

Lemma closing_ticks n : 3 <= n -> is_closing_line (ticks n) = true.
Proof.
  intros Hn. unfold is_closing_line.
  assert (PyStr.drop_while is_blank (ticks n) = ticks n) as -> by (by destruct n).
  rewrite <- (app_nil_r (ticks n)), take_ticks by done.
  unfold ticks at 1. rewrite repeat_length. rewrite app_nil_r.
  rewrite (proj2 (Nat.leb_le 3 n) Hn). clear. by induction n.
Qed.

(** The lines of a wrapped text. *)
Lemma split_wrapped w info body closing :
  nl ∉ info -> nl ∉ closing ->
  split_nl (ticks w ++ info ++ nl :: body ++ nl :: closing) = (ticks w ++ info) :: split_nl body ++ [closing].
Proof.
  intros Hinfo Hcl. rewrite app_assoc, split_nl_app by (rewrite elem_of_app; intros [?%ticks_no_nl|]; done).
  f_equal. induction body as [|c body IH]; cbn.
  - by rewrite decide_True, split_nl_line.
  - case_decide; rewrite IH; [done|]. destruct (split_nl body) eqn:E; [by apply split_nl_nonempty in E|done].
Qed.

(** The stripped text of a wrapped one, its width, and its first line removed. *)
Lemma strip_wrapped pre w info rest post :
  3 <= w -> forallb PyStr.is_space pre = true -> forallb PyStr.is_space post = true ->
  (forall l, info <> "`"%char :: l) ->
  (exists c l', rest = l' ++ [c] /\ PyStr.is_space c = false) ->
  strip_code_fences (PyStr.of_list (pre ++ (ticks w ++ info ++ nl :: rest) ++ post)) =
  PyStr.of_list (match split_nl (ticks w ++ info ++ nl :: rest) with
                 | _ :: l :: ls => PyStr.strip_list (join_nl (without_closing w (l :: ls)))
                 | _ => let body := PyStr.strip_list (strip_glued_closing_fence (info ++ nl :: rest) w) in
                        default body (after_info_string body)
                 end).
Proof.
  intros Hw Hpre Hpost Hinfo (c & l' & El & Hc). unfold strip_code_fences. rewrite PyStr.to_of_list.
  rewrite strip_between; [|done|done| |].
  - rewrite take_ticks; [|by destruct info; [|intros ? [=->]; by eapply Hinfo]].
    rewrite drop_app_length' by done. assert (length (ticks w) = w) as -> by (unfold ticks; by rewrite repeat_length).
    by rewrite (proj2 (Nat.ltb_ge w 3) Hw).
  - destruct w as [|w]; [lia|]. by exists "`"%char, (ticks w ++ info ++ nl :: rest).
  - exists c, (ticks w ++ info ++ nl :: l'). rewrite El, <- !app_assoc. done.
Qed.

Lemma ends_in_tick n l : 1 <= n -> exists c l', l ++ ticks n = l' ++ [c] /\ PyStr.is_space c = false.
Proof.
  intros Hn. destruct n as [|n]; [lia|]. exists "`"%char, (l ++ ticks n).
  unfold ticks. cbn [repeat]. by rewrite repeat_cons, app_assoc.
Qed.

Lemma tick_runs_plain l n : forallb (fun c => negb (is_tick c)) l = true -> 0 < n -> tick_runs 0 (l ++ ticks n) = [n].
Proof.
  intros Hl Hn. induction l as [|c l IH]; cbn.
  - assert (forall k cur, 0 < k + cur -> tick_runs cur (ticks k) = [k + cur]) as Hk.
    { induction k as [|k IHk]; intros cur Hcur; cbn; [by destruct cur; [lia|]|]. rewrite IHk by lia. f_equal. lia. }
    rewrite Hk; [f_equal; lia|lia].
  - cbn in Hl. apply andb_true_iff in Hl as [Hc Hl]. apply negb_true_iff in Hc. rewrite Hc. auto.
Qed.

Lemma tick_runs_none l : forallb (fun c => negb (is_tick c)) l = true -> tick_runs 0 l = [].
Proof.
  induction l as [|c l IH]; cbn; [done|]. intros [Hc%negb_true_iff Hl]%andb_true_iff. rewrite Hc. auto.
Qed.

(** A closing fence glued to a line without backticks is dropped. *)
Lemma glued_dropped l w : 3 <= w -> forallb (fun c => negb (is_tick c)) l = true ->
  strip_glued_closing_fence (l ++ ticks w) w = l.
Proof.
  intros Hw Hl. unfold strip_glued_closing_fence. rewrite tick_runs_plain by (done || lia).
  cbn [List.filter]. rewrite Nat.leb_refl. cbn [length Nat.even orb].
  rewrite rev_app_distr, ticks_rev, take_app_length' by (unfold ticks; by rewrite repeat_length).
  rewrite ticks_all, length_app. unfold ticks at 1. rewrite repeat_length.
  rewrite (proj2 (Nat.leb_le w _)) by lia. cbn [andb negb].
  assert (PyStr.drop_while_end is_tick (l ++ ticks w) = l) as ->.
  { unfold PyStr.drop_while_end. rewrite rev_app_distr, ticks_rev.
    destruct (rev l) as [|c r] eqn:E.
    - rewrite app_nil_r. assert (l = []) as -> by (apply (f_equal (@rev _)) in E; by rewrite rev_involutive in E).
      clear. by induction w.
    - rewrite PyStr.drop_while_app; [|apply ticks_all|].
      + rewrite <- E. apply rev_involutive.
      + rewrite <- forallb_rev, E in Hl. cbn in Hl. apply andb_true_iff in Hl as [Hc%negb_true_iff _]. done. }
  by rewrite tick_runs_none.
Qed.

Lemma more_lines w ls (d : list ascii) : ls <> [] ->
  match ls with
  | [] => d
  | l :: ls => PyStr.strip_list (join_nl (without_closing w (l :: ls)))
  end = PyStr.strip_list (join_nl (without_closing w ls)).
Proof. by destruct ls. Qed.

(** Only the last line changes when a text is extended within it. *)
Lemma split_nl_extend text l : nl ∉ l ->
  exists before last first, split_nl text = before ++ [last] /\ split_nl (text ++ l) = before ++ [last ++ l] /\
                            text = first ++ last.
Proof.
  intros Hl. induction text as [|c text (before & last & first & E & E' & Et)]; cbn.
  - exists [], [], []. by rewrite split_nl_line.
  - case_decide as Hc.
    + exists ([] :: before), last, (c :: first). by rewrite E, E', Et.
    + rewrite E, E'. destruct before as [|b before].
      * exists [], (c :: last), []. split; [done|split; [done|]].
        pose proof (join_split_nl text) as J. rewrite E in J. cbn in J |- *. congruence.
      * exists ((c :: b) :: before), last, (c :: first). by rewrite Et.
Qed.

Lemma not_closing l c w : forallb (fun c => negb (is_tick c)) (l ++ [c]) = true -> is_blank c = false ->
  is_closing_line ((l ++ [c]) ++ ticks w) = false.
Proof.
  intros Hl Hc. unfold is_closing_line. apply andb_false_iff. left.
  induction l as [|d l IH].
  - cbn in *. rewrite Hc. cbn. apply andb_true_iff in Hl as [Hd%negb_true_iff _]. by rewrite Hd.
  - cbn in Hl. apply andb_true_iff in Hl as [Hd%negb_true_iff Hl]. cbn [app PyStr.drop_while].
    destruct (is_blank d); [auto|]. cbn [PyStr.take_while]. by rewrite Hd.
Qed.

Lemma without_glued body w :
  3 <= w -> forallb (fun c => negb (is_tick c)) body = true ->
  (exists c l, body = l ++ [c] /\ PyStr.is_space c = false) ->
  without_closing w (split_nl (body ++ ticks w)) = split_nl body.
Proof.
  intros Hw Hbody (c & l & -> & Hc).
  assert (nl ∉ [c]) as Hcnl by (intros E%list_elem_of_singleton; by subst c).
  destruct (split_nl_extend l [c] Hcnl) as (before2 & last2 & first & E2 & E2' & El).
  destruct (split_nl_extend l ([c] ++ ticks w)) as (before3 & last3 & first3 & E3 & E3' & _).
  { rewrite elem_of_app. by intros [?|?%ticks_no_nl]. }
  rewrite E2 in E3. apply app_inj_tail in E3 as [<- <-].
  rewrite <- app_assoc, E3', E2'. unfold without_closing. rewrite rev_app_distr. cbn [rev app].
  assert (forallb (fun c => negb (is_tick c)) (last2 ++ [c]) = true) as Hlast.
  { rewrite El, <- app_assoc, forallb_app in Hbody. by apply andb_true_iff in Hbody as [_ ?]. }
  replace (last2 ++ c :: ticks w) with ((last2 ++ [c]) ++ ticks w) by (by rewrite <- app_assoc).
  rewrite not_closing; [|done|].
  - by rewrite glued_dropped, rev_involutive.
  - apply not_true_iff_false. intros Hb. clear -Hb Hc. by destruct c as [[] [] [] [] [] [] [] []].
Qed.

(** ** Properties *)

(** The answer a model wraps in a code fence comes out as the text between the
    fences, stripped: with any info line, a closing line of any width from three up, and
    blanks around the wrapper; a closing fence glued to the last line of a text that
    has no backtick is dropped too; a text that does not start with three backticks
    is only stripped. *)
Theorem fenced_answer_unwrapped pre w info body post :
  3 <= w -> forallb PyStr.is_space pre = true -> forallb PyStr.is_space post = true ->
  nl ∉ info -> (forall l, info <> "`"%char :: l) ->
  (forall n, 3 <= n ->
     strip_code_fences (PyStr.of_list (pre ++ (ticks w ++ info ++ nl :: body ++ nl :: ticks n) ++ post)) =
     PyStr.of_list (PyStr.strip_list body)) /\
  (forallb (fun c => negb (is_tick c)) body = true ->
   (exists c l, body = l ++ [c] /\ PyStr.is_space c = false) ->
     strip_code_fences (PyStr.of_list (pre ++ (ticks w ++ info ++ nl :: body ++ ticks w) ++ post)) =
     PyStr.of_list (PyStr.strip_list body)) /\
  (forall text, length (PyStr.take_while is_tick (PyStr.strip_list text)) < 3 ->
     strip_code_fences (PyStr.of_list text) = PyStr.of_list (PyStr.strip_list text)).
Proof.
  intros Hw Hpre Hpost Hinfo Hhead. split; [|split].
  - intros n Hn. rewrite strip_wrapped; [|done..|].
    + rewrite split_wrapped; [|done|apply ticks_no_nl].
      rewrite more_lines by (by destruct (split_nl body)).
      unfold without_closing. rewrite rev_app_distr. cbn [rev app].
      by rewrite closing_ticks, rev_involutive, join_split_nl.
    + rewrite (cons_middle nl body (ticks n)), app_assoc. apply ends_in_tick. lia.
  - intros Hbody Hlast. rewrite strip_wrapped; [|done..|apply ends_in_tick; lia].
    rewrite app_assoc, split_nl_app by (rewrite elem_of_app; intros [?%ticks_no_nl|]; done).
    rewrite more_lines by apply split_nl_nonempty.
    rewrite (without_glued body w) by done. by rewrite join_split_nl.
  - intros text Htext. unfold strip_code_fences. rewrite PyStr.to_of_list.
    by rewrite (proj2 (Nat.ltb_lt _ 3) Htext).
Qed.

Lemma fenced_answer_unwrapped_witness :
  strip_code_fences (PyStr.of_list ([nl] ++ (ticks 3 ++ PyStr.to_list "json" ++ nl :: PyStr.to_list "{1}" ++ nl :: ticks 4) ++ [space]))
  = PyStr.of_list (PyStr.strip_list (PyStr.to_list "{1}")).
Proof.
  refine (proj1 (fenced_answer_unwrapped [nl] 3 (PyStr.to_list "json") (PyStr.to_list "{1}") [space] _ _ _ _ _) 4 _);
    [lia|reflexivity|reflexivity| |by intros l|lia].
  intros Hin%list_elem_of_In. vm_compute in Hin. repeat destruct Hin as [Hin|Hin]; discriminate || done.
Defined.

End Fences.
