(* ===== verification/Sections.v ===== *)
(** * Sections: replacing and removing the sections of a markdown text

    The writers of sova/utils/markdown.py: [upsert_section], [remove_section] and
    [strip_preamble]. As in [Markdown], the offsets that the code finds in a masked copy
    are lines of the model, paired with the lines of the text. *)

From stdpp Require Import base gmap strings list.
From Stdlib Require Import Ascii.
From S2P Require Import Prelude Markdown Fences.

Import Markdown Fences.

(** ** Operations *)

(** [text.rstrip()], [text.lstrip()] *)
Definition rstrip_list (l : list ascii) : list ascii := PyStr.drop_while_end PyStr.is_space l.
Definition lstrip_list (l : list ascii) : list ascii := PyStr.drop_while PyStr.is_space l.

(** The lines before the first heading line, and what follows that line, masked and original. *)
Fixpoint find_heading (is_it : line -> bool) (before masked original : list line) : option (list line * list line * list line) :=
  match masked, original with
  | m :: masked, o :: original =>
      if is_it m then Some (before, masked, original) else find_heading is_it (before ++ [o]) masked original
  | _, _ => None
  end.

(** The original lines from the next boundary on. *)
Fixpoint from_boundary (masked original : list line) : list line :=
  match masked, original with
  | m :: masked', o :: original' => if is_boundary m then original else from_boundary masked' original'
  | _, _ => []
  end.

(** [text[:match.start()]] *)
Definition lines_before (before : list line) : list ascii := concat (map (fun l => l ++ [nl]) before).

(** The section that is written for a heading. *)
Definition new_section (heading content : list ascii) : list ascii :=
  PyStr.to_list "## " ++ heading ++ nl :: nl :: PyStr.strip_list content ++ [nl].

(** [upsert_section] *)
Definition upsert_list (text heading content : list ascii) : list ascii :=
  let lines := split_nl text in
  match find_heading (is_heading heading) [] (mask_lines None lines) lines with
  | None =>
      let sep := match PyStr.strip_list text with [] => [] | _ => [nl; nl] end in
      PyStr.strip_list (rstrip_list text ++ sep ++ new_section heading content) ++ [nl]
  | Some (before, masked, original) =>
      match from_boundary masked original with
      | [] => PyStr.strip_list (lines_before before ++ new_section heading content) ++ [nl]
      | rest =>
          PyStr.strip_list (lines_before before ++ new_section heading content
                            ++ nl :: PyStr.drop_while (fun c => Ascii.eqb c nl) (join_nl rest)) ++ [nl]
      end
  end.

Definition upsert_section (text heading content : string) : string :=
  PyStr.of_list (upsert_list (PyStr.to_list text) (PyStr.to_list heading) (PyStr.to_list content)).

(** [^## <heading>\s*$] on one masked line, whose white space may go on over lines. *)
Definition is_plain_heading (heading : list ascii) (l : line) : bool :=
  match PyStr.after_literal (PyStr.to_list "## " ++ heading) l with
  | Some rest => forallb PyStr.is_space rest
  | None => false
  end.

(** [^## ] on one masked line *)
Definition is_plain_boundary (l : line) : bool :=
  match PyStr.after_literal (PyStr.to_list "## ") l with Some _ => true | None => false end.

Fixpoint from_plain_boundary (masked original : list line) : list line :=
  match masked, original with
  | m :: masked', o :: original' => if is_plain_boundary m then original else from_plain_boundary masked' original'
  | _, _ => []
  end.

(** [remove_section] *)
Definition remove_section (text heading : string) : string :=
  let lines := split_nl (PyStr.to_list text) in
  match find_heading (is_plain_heading (PyStr.to_list heading)) [] (mask_lines None lines) lines with
  | None => PyStr.strip text
  | Some (before, masked, original) =>
      PyStr.of_list (PyStr.strip_list (lines_before before ++ join_nl (from_plain_boundary masked original)))
  end.

(** [_is_atx_heading] *)
Definition is_atx_heading (l : line) : bool :=
  match l with
  | c :: _ => Ascii.eqb c "#"%char
              && match PyStr.drop_while (fun c => Ascii.eqb c "#"%char) l with [] => true | d :: _ => Ascii.eqb d space end
  | [] => false
  end.

(** The lines from the first heading outside a fence on. *)
Fixpoint from_atx_heading (in_fence : bool) (lines : list line) : option (list line) :=
  match lines with
  | [] => None
  | l :: ls =>
      match PyStr.after_literal (PyStr.to_list "```") (PyStr.strip_list l) with
      | Some _ => from_atx_heading (negb in_fence) ls
      | None => if negb in_fence && is_atx_heading l then Some lines else from_atx_heading in_fence ls
      end
  end.

(** [strip_preamble] *)
Definition strip_preamble (text : string) : string :=
  match from_atx_heading false (split_nl (PyStr.to_list text)) with
  | None => text
  | Some lines => PyStr.of_list (join_nl lines)
  end.

(** [extract_section(text, heading, ignore_case=True)] *)
Definition extract_section_nocase (text heading : string) : string :=
  let lines := split_nl (PyStr.to_list text) in
  match after_heading (PyStr.to_list (PyStr.lower heading)) (map (map PyStr.lower_char) (mask_lines None lines)) lines with
  | None => EmptyString
  | Some section => PyStr.of_list (PyStr.strip_list (join_nl section))
  end.

(** *** Examples *)

Definition lines_text (lines : list string) : string := PyStr.join (PyStr.of_list [nl]) lines.

Example replaces :
  upsert_section (lines_text ["## A"; "x"; ""; "## B"; "y"]%string) "A" " new " = lines_text ["## A"; ""; "new"; ""; "## B"; "y"; ""]%string.
Proof. reflexivity. Qed.
Example appends : upsert_section "text" "A" "new" = lines_text ["text"; ""; "## A"; ""; "new"; ""]%string.
Proof. reflexivity. Qed.
Example removes :
  remove_section (lines_text ["## A"; "x"; "```"; "## B"; "```"; "## C"; "y"]%string) "A" = lines_text ["## C"; "y"]%string.
Proof. reflexivity. Qed.
Example preamble :
  strip_preamble (lines_text ["I have"; "```"; "# no"; "```"; "#x"; "# Yes"; "z"]%string) = lines_text ["# Yes"; "z"]%string.
Proof. reflexivity. Qed.

(** ** Lemmas *)

(** *** Stripped texts *)

(** A text that starts and ends with something else than white space. *)
Definition tight (l : list ascii) : Prop :=
  (exists c l', l = c :: l' /\ PyStr.is_space c = false) /\ (exists c l', l = l' ++ [c] /\ PyStr.is_space c = false).

Lemma drop_while_split (l : list ascii) :
  exists pre, l = pre ++ PyStr.drop_while PyStr.is_space l /\ forallb PyStr.is_space pre = true.
Proof.
  induction l as [|c l (pre & E & H)]; [by exists []|]. cbn. destruct (PyStr.is_space c) eqn:Ec.
  - exists (c :: pre). cbn. by rewrite Ec, <- E.
  - by exists [].
Qed.

Lemma drop_while_head (l : list ascii) :
  PyStr.drop_while PyStr.is_space l = [] \/ exists c l', PyStr.drop_while PyStr.is_space l = c :: l' /\ PyStr.is_space c = false.
Proof.
  induction l as [|c l IH]; [by left|]. cbn. destruct (PyStr.is_space c) eqn:Ec; [done|]. right. by exists c, l.
Qed.

Lemma rstrip_split (l : list ascii) :
  exists post, l = rstrip_list l ++ post /\ forallb PyStr.is_space post = true /\
    (rstrip_list l = [] \/ exists c l', rstrip_list l = l' ++ [c] /\ PyStr.is_space c = false).
Proof.
  unfold rstrip_list, PyStr.drop_while_end. destruct (drop_while_split (rev l)) as (pre & E & H). exists (rev pre).
  split; [rewrite <- rev_app_distr, <- E; by rewrite rev_involutive|]. split; [by rewrite forallb_rev|].
  destruct (drop_while_head (rev l)) as [->|(c & l' & -> & Hc)]; [by left|]. right. cbn. by exists c, (rev l').
Qed.

(** A stripped text is empty or tight. *)
Lemma strip_cases (l : list ascii) : PyStr.strip_list l = [] \/ tight (PyStr.strip_list l).
Proof.
  unfold PyStr.strip_list. fold (rstrip_list (PyStr.drop_while PyStr.is_space l)).
  set (k := PyStr.drop_while PyStr.is_space l).
  destruct (rstrip_split k) as (post & E & Hpost & [->|(d & r & Er & Hd)]); [by left|]. right.
  split; [|by exists d, r].
  destruct (drop_while_head l) as [Hk|(c & k' & Hk & Hc)]; fold k in Hk.
  - rewrite Hk in Er. unfold rstrip_list, PyStr.drop_while_end in Er. cbn in Er. by destruct r.
  - rewrite Er in E. rewrite Er. destruct r as [|x r]; cbn in *.
    + exists d, []. done.
    + exists x, (r ++ [d]). split; [done|]. congruence.
Qed.

Lemma strip_padded pre l post :
  forallb PyStr.is_space pre = true -> forallb PyStr.is_space post = true -> tight l ->
  PyStr.strip_list (pre ++ l ++ post) = l.
Proof. intros Hpre Hpost [H1 H2]. by apply strip_between. Qed.

Lemma strip_tail l post : forallb PyStr.is_space post = true -> tight l -> PyStr.strip_list (l ++ post) = l.
Proof. intros Hpost Hl. by apply (strip_padded [] l post). Qed.

Lemma strip_blank l : forallb PyStr.is_space l = true -> PyStr.strip_list l = [].
Proof.
  intros H. unfold PyStr.strip_list. assert (PyStr.drop_while PyStr.is_space l = []) as ->; [|done].
  induction l as [|c l IH]; [done|]. cbn in *. apply andb_true_iff in H as [-> H]. auto.
Qed.

(** Stripping what is stripped already, between blanks. *)
Lemma strip_again pre l post :
  forallb PyStr.is_space pre = true -> forallb PyStr.is_space post = true ->
  PyStr.strip_list (pre ++ PyStr.strip_list l ++ post) = PyStr.strip_list l.
Proof.
  intros Hpre Hpost. destruct (strip_cases l) as [->|Ht]; [|by apply strip_padded].
  apply strip_blank. cbn. rewrite forallb_app. by rewrite Hpre, Hpost.
Qed.

Lemma tight_app a b : tight a -> tight b -> forall m, tight (a ++ m ++ b).
Proof.
  intros [(c & a' & -> & Hc) _] [_ (d & b' & -> & Hd)] m. split.
  - by exists c, (a' ++ m ++ b' ++ [d]).
  - exists d, ((c :: a') ++ m ++ b'). split; [|done]. by rewrite <- !app_assoc.
Qed.

(** *** Lines and fences *)

(** The fence that is open after some lines. *)
Fixpoint fence_after (fence : option (ascii * nat)) (lines : list line) : option (ascii * nat) :=
  match lines with
  | [] => fence
  | l :: ls =>
      match fence with
      | None => fence_after (fence_open l) ls
      | Some (c, n) => fence_after (if fence_close c n l then None else fence) ls
      end
  end.

Lemma mask_app fence a b : mask_lines fence (a ++ b) = mask_lines fence a ++ mask_lines (fence_after fence a) b.
Proof.
  revert fence. induction a as [|l a IH]; intros fence; [done|]. cbn.
  destruct fence as [[c n]|].
  - destruct (fence_close c n l); cbn; by rewrite IH.
  - destruct (fence_open l); cbn; by rewrite IH.
Qed.

Lemma fence_after_app fence a b : fence_after fence (a ++ b) = fence_after (fence_after fence a) b.
Proof. revert fence. induction a as [|l a IH]; intros fence; [done|]. cbn. destruct fence as [[c n]|]; apply IH. Qed.

Lemma length_mask fence lines : length (mask_lines fence lines) = length lines.
Proof. eapply Forall2_length, mask_lines_Forall2. Qed.

(** A line that starts with a number sign is no fence, and seen only outside of one. *)
Lemma hash_line fence l ls m ms :
  mask_lines fence (l :: ls) = m :: ms -> head m = Some "#"%char -> fence = None /\ m = l.
Proof.
  cbn. destruct fence as [[c n]|]; [|destruct (fence_open l) eqn:E].
  - intros H Hm. assert (m = blank l) as -> by (destruct (fence_close c n l); congruence). by destruct l.
  - intros [= <- <-]. by destruct l.
  - intros [= <- <-]. done.
Qed.

Lemma fence_open_hash l : head l = Some "#"%char -> fence_open l = None.
Proof. destruct l as [|c l]; [done|]. by intros [= ->]. Qed.

Lemma boundary_hash l : is_boundary l = true -> head l = Some "#"%char.
Proof.
  unfold is_boundary. destruct l as [|c1 [|c2 [|c3 l]]]; try done. intros H. cbn in *.
  apply andb_true_iff in H as [[H _]%andb_true_iff _]. apply bool_decide_eq_true in H. by subst.
Qed.

Lemma heading_boundary h l : is_heading h l = true -> is_boundary l = true.
Proof.
  unfold is_heading, is_boundary. destruct l as [|c1 [|c2 [|c3 l]]]; try done.
  intros [H _]%andb_true_iff. done.
Qed.

(** *** Joined lines *)

Lemma join_nl_cons l ls : ls <> [] -> join_nl (l :: ls) = l ++ nl :: join_nl ls.
Proof. by destruct ls. Qed.

Lemma join_nl_app a b : b <> [] -> join_nl (a ++ b) = lines_before a ++ join_nl b.
Proof.
  intros Hb. induction a as [|l a IH]; [done|]. cbn [app]. rewrite join_nl_cons; [|by destruct a].
  rewrite IH. unfold lines_before. cbn. by rewrite <- !app_assoc.
Qed.

Lemma join_split_app a x : lines_before a ++ x = join_nl (a ++ split_nl x).
Proof. rewrite join_nl_app by apply split_nl_nonempty. by rewrite join_split_nl. Qed.

(** *** Finding *)

Lemma find_heading_some is_it acc ms os b ms' os' :
  length ms = length os -> find_heading is_it acc ms os = Some (b, ms', os') ->
  exists mb b' m o, ms = mb ++ m :: ms' /\ os = b' ++ o :: os' /\ b = acc ++ b' /\ length mb = length b' /\
    is_it m = true /\ forall x, x ∈ mb -> is_it x = false.
Proof.
  revert acc os. induction ms as [|m ms IH]; intros acc [|o os]; try done. cbn. intros [= Hlen].
  destruct (is_it m) eqn:Em.
  - intros [= <- <- <-]. exists [], [], m, o. rewrite app_nil_r. do 4 (split; [done|]). split; [done|]. by intros x ?%not_elem_of_nil.
  - intros (mb & b' & m' & o' & -> & -> & -> & Hl & Hm & Hno)%IH; [|done].
    exists (m :: mb), (o :: b'), m', o'. rewrite <- app_assoc. do 3 (split; [done|]). split; [cbn; by f_equal|]. split; [done|].
    intros x [->|Hx]%elem_of_cons; auto.
Qed.

Lemma find_heading_none is_it acc ms os :
  length ms = length os -> find_heading is_it acc ms os = None -> forall x, x ∈ ms -> is_it x = false.
Proof.
  revert acc os. induction ms as [|m ms IH]; intros acc [|o os]; try done; cbn.
  - by intros _ _ x ?%not_elem_of_nil.
  - intros [= Hlen]. destruct (is_it m) eqn:Em; [done|]. intros Hf x [->|Hx]%elem_of_cons; [done|]. by eapply IH.
Qed.

Lemma after_heading_app h mb m ms b o os :
  length mb = length b -> (forall x, x ∈ mb -> is_heading h x = false) -> is_heading h m = true ->
  after_heading h (mb ++ m :: ms) (b ++ o :: os) = Some (until_boundary ms os).
Proof.
  revert b. induction mb as [|x mb IH]; intros [|y b]; try done; cbn.
  - by intros _ _ ->.
  - intros [= Hlen] Hno Hm. rewrite Hno by constructor. apply IH; [done| |done]. intros z Hz. apply Hno. by constructor.
Qed.

Lemma until_boundary_app ms os ms' os' :
  length ms = length os -> (forall x, x ∈ ms -> is_boundary x = false) ->
  until_boundary (ms ++ ms') (os ++ os') = os ++ until_boundary ms' os'.
Proof.
  revert os. induction ms as [|m ms IH]; intros [|o os]; try done; cbn. intros [= Hlen] Hno.
  rewrite Hno by constructor. f_equal. apply IH; [done|]. intros x Hx. apply Hno. by constructor.
Qed.

(** The rest of a text from a boundary on, under the mask of its lines. *)
Lemma from_boundary_mask os :
  from_boundary (mask_lines None os) os = [] \/
  exists s t rest, os = s ++ t :: rest /\ from_boundary (mask_lines None os) os = t :: rest /\ is_boundary t = true.
Proof.
  assert (forall fence, from_boundary (mask_lines fence os) os = [] \/
    exists s t rest, os = s ++ t :: rest /\ from_boundary (mask_lines fence os) os = t :: rest /\ is_boundary t = true) as H; [|apply H].
  induction os as [|o os IH]; intros fence; [by left|].
  destruct (mask_lines fence (o :: os)) as [|m ms] eqn:E; [by left|]. cbn [from_boundary].
  destruct (is_boundary m) eqn:Em.
  - right. exists [], o, os. destruct (hash_line _ _ _ _ _ E (boundary_hash _ Em)) as [_ ->]. done.
  - assert (exists fence', ms = mask_lines fence' os) as [fence' ->].
    { cbn in E. repeat case_match; simplify_eq; eauto. }
    destruct (IH fence') as [->|(s & t & rest & -> & Hf & Ht)]; [by left|]. right. exists (o :: s), t, rest. done.
Qed.

Lemma split_nl_sep a b : split_nl (a ++ nl :: b) = split_nl a ++ split_nl b.
Proof.
  induction a as [|c a IH]; cbn; [done|]. destruct (decide (c = nl)); [cbn; by rewrite IH|].
  rewrite IH. destruct (split_nl a) as [|l ls] eqn:E; [by apply split_nl_nonempty in E|]. done.
Qed.

(** The lines of a section stand in a text, under the first heading of their name. *)
Definition placed (text h : list ascii) (s : list line) : Prop := exists b tail,
  split_nl text = b ++ (PyStr.to_list "## " ++ h) :: s ++ tail /\
  (forall x, x ∈ mask_lines None b -> is_heading h x = false) /\ fence_after None b = None /\
  (forall x, x ∈ mask_lines None s -> is_boundary x = false) /\
  (tail = [] \/ fence_after None s = None /\ exists t tail', tail = t :: tail' /\ is_boundary t = true).

Lemma placed_extract text h s :
  is_heading h (PyStr.to_list "## " ++ h) = true -> placed text h s ->
  extract_section (PyStr.of_list text) (PyStr.of_list h) = PyStr.of_list (PyStr.strip_list (join_nl s)).
Proof.
  intros Hh (b & tail & Hall & Hb & Hfb & Hs & Htail). unfold extract_section. rewrite !PyStr.to_of_list.
  rewrite Hall, mask_app, Hfb. set (t := PyStr.to_list "## " ++ h) in *.
  assert (mask_lines None (t :: s ++ tail) = t :: mask_lines None (s ++ tail)) as ->.
  { cbn [mask_lines]. by rewrite (fence_open_hash t). }
  rewrite after_heading_app; [|by rewrite length_mask|done|done]. do 3 f_equal.
  destruct Htail as [->|(Hf & u & tail' & -> & Hu)].
  - pose proof (until_boundary_app (mask_lines None s) s [] [] (length_mask None s) Hs) as E. cbn in E.
    rewrite !app_nil_r in *. exact E.
  - rewrite mask_app, Hf, until_boundary_app; [|by rewrite length_mask|done].
    assert (mask_lines None (u :: tail') = u :: mask_lines None tail') as ->.
    { cbn [mask_lines]. by rewrite (fence_open_hash u) by by apply boundary_hash. }
    cbn. rewrite Hu. by rewrite app_nil_r.
Qed.

(** Lines without a fence are what they are masked to. *)
Definition fence_free (ls : list line) : Prop := forall l, l ∈ ls -> fence_open l = None.

Lemma fence_free_mask ls : fence_free ls -> mask_lines None ls = ls /\ fence_after None ls = None.
Proof.
  induction ls as [|l ls IH]; [done|]. intros Hf. cbn. rewrite (Hf l) by constructor.
  destruct IH as [-> ->]; [|done]. intros x Hx. apply Hf. by constructor.
Qed.

Lemma fence_open_blank l : fence_open (blank l) = None.
Proof. unfold blank. induction l as [|c l IH]; [done|]. exact IH. Qed.

Lemma masked_fence_free fence ls : fence_free (mask_lines fence ls).
Proof.
  revert fence. induction ls as [|l ls IH]; intros fence x; cbn; [by intros ?%not_elem_of_nil|].
  destruct fence as [[c n]|]; [destruct (fence_close c n l)|destruct (fence_open l) eqn:E];
    intros [->|Hx]%elem_of_cons; try (by apply fence_open_blank); try done; by eapply IH.
Qed.

(** Masking the text keeps a section without fences where it is. *)
Lemma placed_masked text h s :
  fence_free s -> placed text h s -> placed (PyStr.to_list (mask_fenced_blocks (PyStr.of_list text))) h s.
Proof.
  intros Hs (b & tail & Hall & Hb & Hfb & Hbs & Htail). destruct (fence_free_mask s Hs) as [Hms Hfs].
  exists (mask_lines None b), (mask_lines None tail). rewrite split_mask, PyStr.to_of_list, Hall, mask_app, Hfb.
  destruct (fence_free_mask _ (masked_fence_free None b)) as [-> ->].
  split.
  - f_equal. cbn [mask_lines]. rewrite fence_open_hash by done. rewrite mask_app, Hms, Hfs. done.
  - do 3 (split; [done|]). destruct Htail as [->|(_ & u & tail' & -> & Hu)]; [by left|]. right. split; [done|].
    exists u, (mask_lines None tail'). cbn [mask_lines]. by rewrite fence_open_hash by by apply boundary_hash.
Qed.

(** ** The round trip *)

(** A heading that the readers can find again. *)
Definition good_heading (h : list ascii) : Prop := nl ∉ h /\ tight h.

(** A content that is no section itself: no boundary outside its fences, which are closed. *)
Definition plain_content (c : list ascii) : Prop :=
  (forall x, x ∈ mask_lines None (split_nl c) -> is_boundary x = false) /\ fence_after None (split_nl c) = None.

(** The lines of the section under its heading. *)
Definition section_lines (c : list ascii) : list line := split_nl (nl :: c ++ [nl]).

Lemma good_is_heading h : good_heading h -> is_heading h (PyStr.to_list "## " ++ h) = true.
Proof.
  intros [_ [(c & h' & -> & Hc) _]]. unfold is_heading. cbn [app PyStr.to_list String.list_ascii_of_string].
  set (f := fun c : ascii => (bool_decide (c = space) || bool_decide (c = tab))%bool).
  assert (PyStr.drop_while f (c :: h') = c :: h') as ->.
  { cbn [PyStr.drop_while]. assert (f c = false) as ->; [|done]. unfold f.
    apply orb_false_iff. split; apply bool_decide_eq_false; intros ->; done. }
  rewrite firstn_all, skipn_all, (bool_decide_eq_true_2 (c :: h' = c :: h')) by done. reflexivity.
Qed.

Lemma section_plain c : plain_content c ->
  (forall x, x ∈ mask_lines None (section_lines c) -> is_boundary x = false) /\ fence_after None (section_lines c) = None.
Proof.
  intros [Hb Hf]. unfold section_lines. change (nl :: c ++ [nl]) with ([] ++ nl :: c ++ nl :: []). rewrite !split_nl_sep.
  change (split_nl []) with [[] : line]. cbn [app]. split.
  - intros x. cbn [mask_lines fence_open]. cbn. intros [->|Hx]%elem_of_cons; [done|]. rewrite mask_app, Hf in Hx.
    apply elem_of_app in Hx as [Hx|Hx]; [by apply Hb|]. by apply list_elem_of_singleton in Hx as ->.
  - cbn. by rewrite fence_after_app, Hf.
Qed.

Lemma strip_section c : PyStr.strip_list (join_nl (section_lines (PyStr.strip_list c))) = PyStr.strip_list c.
Proof. unfold section_lines. rewrite join_split_nl. by apply (strip_again [nl] c [nl]). Qed.

(** The lines under a heading that was written with a content. *)
Definition section_of (c : list ascii) (ls : list line) : Prop :=
  ls = section_lines (PyStr.strip_list c) \/ PyStr.strip_list c = [] /\ ls = [[]].

Lemma section_of_plain c ls : plain_content (PyStr.strip_list c) -> section_of c ls ->
  forall x, x ∈ mask_lines None ls -> is_boundary x = false.
Proof.
  intros Hc [->|[_ ->]]; [by apply section_plain|]. intros x Hx. by apply list_elem_of_singleton in Hx as ->.
Qed.

Lemma section_of_strip c ls : section_of c ls -> PyStr.strip_list (join_nl ls) = PyStr.strip_list c.
Proof. intros [->|[-> ->]]; [apply strip_section|done]. Qed.

Lemma tight_head l x : tight l -> head l = Some x -> PyStr.is_space x = false.
Proof. intros [(c & l' & -> & Hc) _]. by intros [= <-]. Qed.

(** A section that is written at the end of a text: the lines that stand there. *)
Lemma written_at_end p h c :
  good_heading h -> (forall x, head p = Some x -> PyStr.is_space x = false) ->
  exists s, PyStr.strip_list (p ++ new_section h c) ++ [nl] = p ++ (PyStr.to_list "## " ++ h) ++ s /\
    (exists ls, split_nl ((PyStr.to_list "## " ++ h) ++ s) = (PyStr.to_list "## " ++ h) :: ls /\ section_of c ls).
Proof.
  intros [Hnl Ht] Hp. set (t := PyStr.to_list "## " ++ h). set (k := PyStr.strip_list c).
  assert (nl ∉ t) as Htnl.
  { unfold t. apply not_elem_of_app. split; [|done]. apply (bool_decide_unpack _). vm_compute. exact I. }
  assert (exists a, tight (p ++ t) /\ new_section h c = t ++ a /\ a = nl :: nl :: k ++ [nl]) as (a & Hpt & Hnew & Ha).
  { exists (nl :: nl :: k ++ [nl]). split; [|split; [|done]].
    - destruct Ht as [_ (d & h' & -> & Hd)]. split.
      + destruct p as [|x p]; cbn; [by eexists _, _|]. exists x, (p ++ t). split; [done|]. by apply Hp.
      + exists d, (p ++ PyStr.to_list "## " ++ h'). split; [|done]. unfold t. by rewrite <- !app_assoc.
    - unfold new_section, t. by rewrite <- app_assoc. }
  rewrite Hnew, app_assoc. destruct (strip_cases c) as [Hk|Hk]; fold k in Hk.
  - exists [nl]. rewrite Ha, Hk. cbn [app]. split.
    + rewrite strip_tail by done. by rewrite <- app_assoc.
    + exists [[]]. rewrite split_nl_app by done. split; [done|]. by right.
  - exists a. split.
    + rewrite Ha. change (nl :: nl :: k ++ [nl]) with ([nl; nl] ++ k ++ [nl]). rewrite !app_assoc, strip_tail; [done|done|].
      rewrite <- (app_assoc _ _ k). by apply tight_app.
    + exists (section_lines k). rewrite Ha, split_nl_app by done. split; [done|]. by left.
Qed.

Lemma stripped_cases text : PyStr.strip_list text = text -> text = [] \/ tight text.
Proof. intros H. destruct (strip_cases text) as [E|E]; rewrite H in E; auto. Qed.

Lemma stripped_rstrip text : PyStr.strip_list text = text -> rstrip_list text = text.
Proof.
  intros H. destruct (stripped_cases text H) as [->|[(c & l & -> & Hc) _]]; [done|].
  unfold PyStr.strip_list in H. cbn [PyStr.drop_while] in H. by rewrite Hc in H.
Qed.

Lemma split_lines_before b x : (forall l, l ∈ b -> nl ∉ l) -> split_nl (lines_before b ++ x) = b ++ split_nl x.
Proof.
  intros Hb. rewrite join_split_app. apply split_join_nl.
  - destruct b; [apply split_nl_nonempty|done].
  - intros l [Hl|Hl]%elem_of_app; [by apply Hb|by eapply split_nl_no_nl].
Qed.

(** What was found: the lines around the heading, and the mask behind it. *)
Lemma find_heading_text h text b ms os :
  find_heading (is_heading h) [] (mask_lines None (split_nl text)) (split_nl text) = Some (b, ms, os) ->
  exists o, split_nl text = b ++ o :: os /\ ms = mask_lines None os /\ fence_after None b = None /\
    (forall x, x ∈ mask_lines None b -> is_heading h x = false).
Proof.
  intros H. apply find_heading_some in H as (mb & b' & m & o & Hm & Ho & -> & Hlen & His & Hno); [|apply length_mask].
  exists o. rewrite Ho in Hm. rewrite mask_app in Hm. apply app_inj_1 in Hm as [Hmb Hm]; [|by rewrite length_mask].
  pose proof (boundary_hash m (heading_boundary h m His)) as Hh.
  destruct (hash_line _ _ _ _ _ Hm Hh) as [Hf ->]. rewrite Hf in Hm. cbn [mask_lines] in Hm.
  rewrite (fence_open_hash o Hh) in Hm. injection Hm as <-. subst mb. done.
Qed.

Lemma last_of_app (a b l : list ascii) c : b <> [] -> a ++ b = l ++ [c] -> exists b', b = b' ++ [c].
Proof.
  intros Hb E. destruct (exists_last Hb) as (b' & d & ->). rewrite app_assoc in E. apply app_inj_tail in E as [_ ->]. by exists b'.
Qed.

(** The end of a text from a boundary on, after the section before it was replaced. *)
Lemma written_before p h c rest :
  good_heading h -> (forall x, head p = Some x -> PyStr.is_space x = false) ->
  (exists d r, join_nl rest = r ++ [d] /\ PyStr.is_space d = false) -> (forall l, l ∈ rest -> nl ∉ l) -> rest <> [] ->
  exists s, PyStr.strip_list (p ++ new_section h c ++ nl :: join_nl rest) ++ [nl] = p ++ s /\
    split_nl s = (PyStr.to_list "## " ++ h) :: section_lines (PyStr.strip_list c) ++ rest ++ [[]].
Proof.
  intros [Hnl Ht] Hp (d & r & Hr & Hd) Hrest Hne. set (t := PyStr.to_list "## " ++ h). set (k := PyStr.strip_list c).
  assert (nl ∉ t) as Htnl.
  { unfold t. apply not_elem_of_app. split; [|done]. apply (bool_decide_unpack _). vm_compute. exact I. }
  exists (t ++ nl :: (nl :: k ++ [nl]) ++ nl :: join_nl rest ++ nl :: []). split.
  - assert (new_section h c = t ++ nl :: nl :: k ++ [nl]) as -> by (unfold new_section, t; by rewrite <- app_assoc).
    pose proof (strip_tail (p ++ (t ++ nl :: nl :: k ++ [nl]) ++ nl :: join_nl rest) []) as E. rewrite app_nil_r in E. rewrite E; [|done|].
    + rewrite <- !app_assoc. cbn. by rewrite <- !app_assoc.
    + split.
      * destruct p as [|x p]; [by eexists _, _|]. exists x. eexists. split; [reflexivity|]. by apply Hp.
      * exists d, (p ++ (t ++ nl :: nl :: k ++ [nl]) ++ nl :: r). split; [|exact Hd]. rewrite Hr, <- !app_assoc. done.
  - rewrite split_nl_app by done. rewrite split_nl_sep, split_nl_sep. unfold section_lines. rewrite split_join_nl by done. done.
Qed.

(** A section that is written stands in the text. *)
Lemma upsert_placed x h c :
  good_heading h -> PyStr.strip_list x = x -> plain_content (PyStr.strip_list c) ->
  (find_heading (is_heading h) [] (mask_lines None (split_nl x)) (split_nl x) = None -> fence_after None (split_nl x) = None) ->
  exists s, placed (upsert_list x h c) h s /\ section_of c s.
Proof.
  intros Hh Hx Hc Hclosed. unfold upsert_list. destruct (find_heading _ _ _ _) as [[[b ms] os]|] eqn:Ef.
  - apply find_heading_text in Ef as (o & Ho & -> & Hfb & Hnob).
    assert (forall l, l ∈ split_nl x -> nl ∉ l) as Hno by (intros l; apply split_nl_no_nl).
    assert (forall l, l ∈ b -> nl ∉ l) as Hnb by (intros l Hl; apply Hno; rewrite Ho; apply elem_of_app; by left).
    assert (forall y, head (lines_before b) = Some y -> PyStr.is_space y = false) as Hp.
    { intros y Hy. destruct (stripped_cases x Hx) as [E|Ht].
      - rewrite E in Ho. destruct b as [|l b]; [done|]. cbn in Ho. injection Ho as <- Ho. by destruct b.
      - apply (tight_head x y Ht). rewrite <- (join_split_nl x), Ho, join_nl_app by done. by destruct (lines_before b). }
    destruct (from_boundary_mask os) as [->|(s0 & t' & rest & Hos & -> & Ht')].
    + destruct (written_at_end (lines_before b) h c Hh Hp) as (s & -> & ls & Hl & Hsec). exists ls. split; [|done].
      exists b, []. rewrite split_lines_before by done. rewrite Hl, app_nil_r. do 3 (split; [done|]).
      split; [by eapply section_of_plain|by left].
    + assert (PyStr.drop_while (fun c => Ascii.eqb c nl) (join_nl (t' :: rest)) = join_nl (t' :: rest)) as ->.
      { apply boundary_hash in Ht'. destruct t' as [|y t']; [done|]. cbn in Ht'. injection Ht' as ->. by destruct rest. }
      assert (forall l, l ∈ t' :: rest -> nl ∉ l) as Hnr.
      { intros l Hl. apply Hno. rewrite Ho, Hos. apply elem_of_app. right. constructor. apply elem_of_app. by right. }
      destruct (written_before (lines_before b) h c (t' :: rest) Hh Hp) as (s & -> & Hl); [|done|done|].
      { assert (x = lines_before (b ++ o :: s0) ++ join_nl (t' :: rest)) as Ex.
        { rewrite <- join_nl_app by done. rewrite <- app_assoc. cbn [app]. by rewrite <- Hos, <- Ho, join_split_nl. }
        destruct (stripped_cases x Hx) as [E|[_ (d & l' & El & Hd)]].
        - rewrite E in Ex. symmetry in Ex. apply app_nil in Ex as [_ Ex]. apply boundary_hash in Ht'. by destruct t', rest.
        - rewrite Ex in El. apply last_of_app in El as [r Hr]; [by exists d, r|].
          apply boundary_hash in Ht'. by destruct t', rest. }
      exists (section_lines (PyStr.strip_list c)). split; [|by left].
      exists b, ((t' :: rest) ++ [[]]). rewrite split_lines_before by done. rewrite Hl. do 3 (split; [done|]).
      destruct (section_plain _ Hc) as [Hs1 Hs2]. split; [done|]. right. split; [done|]. by exists t', (rest ++ [[]]).
  - specialize (Hclosed eq_refl). pose proof (find_heading_none _ _ _ _ (length_mask _ _) Ef) as Hnone.
    rewrite Hx, (stripped_rstrip x Hx), app_assoc. destruct (stripped_cases x Hx) as [->|Ht].
    + destruct (written_at_end ([] ++ []) h c Hh) as (s & -> & ls & Hl & Hsec); [done|]. exists ls. split; [|done].
      exists [], []. cbn [app]. rewrite Hl, app_nil_r. split; [done|]. split; [by intros y ?%not_elem_of_nil|]. split; [done|].
      split; [by eapply section_of_plain|by left].
    + assert (match x with [] => [] | _ => [nl; nl] end = [nl; nl]) as -> by (by destruct Ht as [(? & ? & -> & _) _]).
      destruct (written_at_end (x ++ [nl; nl]) h c Hh) as (s & -> & ls & Hl & Hsec).
      { intros y Hy. apply (tight_head x y Ht). by destruct Ht as [(? & ? & -> & _) _]. }
      exists ls. split; [|done]. exists (split_nl x ++ [[]]), [].
      split; [rewrite <- app_assoc; change ([nl; nl] ++ ?l) with (nl :: [] ++ nl :: l); rewrite !split_nl_sep, Hl; cbn; by rewrite app_nil_r, <- app_assoc|].
      split; [intros y; rewrite mask_app, Hclosed; intros [Hy|Hy]%elem_of_app; [by apply Hnone|]; by apply list_elem_of_singleton in Hy as ->|].
      split; [by rewrite fence_after_app, Hclosed|]. split; [by eapply section_of_plain|by left].
Qed.

(** No fence is left open where a section is appended. *)
Definition appendable (text heading : string) : Prop :=
  let lines := split_nl (PyStr.to_list text) in
  find_heading (is_heading (PyStr.to_list heading)) [] (mask_lines None lines) lines = None -> fence_after None lines = None.

(** ** Properties *)

(** A section that is written is the section that is read: under a good heading, in a
    stripped text with no fence left open where the section is appended, and with a content
    that is not itself cut by a heading or an open fence. *)
Theorem upsert_then_extract text heading content :
  good_heading (PyStr.to_list heading) -> PyStr.strip text = text -> plain_content (PyStr.strip_list (PyStr.to_list content)) ->
  appendable text heading -> extract_section (upsert_section text heading content) heading = PyStr.strip content.
Proof.
  intros Hh Htext Hc Hclosed.
  assert (PyStr.strip_list (PyStr.to_list text) = PyStr.to_list text) as Hx by (rewrite <- Htext at 2; unfold PyStr.strip; by rewrite PyStr.to_of_list).
  destruct (upsert_placed _ _ _ Hh Hx Hc Hclosed) as (s & Hplaced & Hsec).
  apply placed_extract in Hplaced; [|by apply good_is_heading]. rewrite (section_of_strip _ _ Hsec), PyStr.of_to_list in Hplaced. exact Hplaced.
Qed.

Module Examples.

(** A fence that is left open swallows the section that is appended behind it. *)
Example open_fence_swallows :
  extract_section (upsert_section (lines_text ["text"; "```"; "code"]%string) "Issue" "Closes #3") "Issue" = EmptyString.
Proof. reflexivity. Qed.

Lemma upsert_then_extract_witness :
  extract_section (upsert_section (lines_text ["## Summary"; "x"]%string) "Issue" " Closes #3 ") "Issue" = "Closes #3"%string.
Proof.
  rewrite (upsert_then_extract (lines_text ["## Summary"; "x"]%string) "Issue" " Closes #3 "); [reflexivity| |reflexivity| |intros _; reflexivity].
  - split; [apply (bool_decide_unpack _); vm_compute; exact I|]. split; [by eexists _, _|].
    by exists "e"%char, (PyStr.to_list "Issu").
  - split; [|reflexivity]. intros x Hx. cbn in Hx. by apply list_elem_of_singleton in Hx as ->.
Defined.

End Examples.
