(* ===== verification/Knowledge.v ===== *)
(** * Knowledge: the upkeep of agent memories

    sova/knowledge/lifecycle.py and sova/knowledge/similarity.py: confirmation
    counters, similar titles, staleness, archival, clusters and their consolidation by
    a model, over the table of sova/db/models.py. Times are whole seconds; a SELECT
    gives rows in the order of the table. The score of a memory is the parameter
    [score], in ten-thousandths: the formula of floats is not modelled. *)

From stdpp Require Import base gmap strings list sorting pretty.
From Stdlib Require Import Ascii.
From S2P Require Import Prelude Priority Fences.

(** ** Titles and counters *)

Local Open Scope string_scope.

(** [titles_match] *)
Definition titles_match (existing new : string) : bool :=
  let existing_lower := PyStr.strip (PyStr.lower existing) in
  let new_lower := PyStr.strip (PyStr.lower new) in
  if bool_decide (existing_lower = new_lower) then true
  else
    let shorter := if (String.length new_lower <? String.length existing_lower)%nat then new_lower else existing_lower in
    let longer := if (String.length existing_lower <? String.length new_lower)%nat then new_lower else existing_lower in
    (20 <=? String.length shorter)%nat && PyStr.contains longer shorter.

Local Close Scope string_scope.

(** [_CONFIRMATION_RE] at the start of a text: the number, and the rest. *)
Definition counter_at (l : list ascii) : option (Z * list ascii) :=
  match PyStr.after_literal (PyStr.to_list "[confirmed:") l with
  | None => None
  | Some l =>
      let l := PyStr.drop_while PyStr.is_space l in
      match PyStr.digits_val 0 false (PyStr.take_while PyStr.is_digit l), PyStr.drop_while PyStr.is_digit l with
      | Some n, c :: rest => if Ascii.eqb c "]" then Some (n, rest) else None
      | _, _ => None
      end
  end.

(** [_CONFIRMATION_RE.search] *)
Fixpoint search (l : list ascii) : option Z :=
  match counter_at l with
  | Some (n, _) => Some n
  | None => match l with [] => None | _ :: l => search l end
  end.

(** [_CONFIRMATION_RE.sub]; the fuel is the length of the text. *)
Fixpoint sub (fuel : nat) (replacement l : list ascii) : list ascii :=
  match fuel, l with
  | S fuel, c :: l' => match counter_at l with
                       | Some (_, rest) => replacement ++ sub fuel replacement rest
                       | None => c :: sub fuel replacement l'
                       end
  | _, _ => l
  end.

(** [parse_confirmation_counter], [set_confirmation_counter]; counts are natural. *)
Definition parse_confirmation_counter (content : string) : Z := default 0%Z (search (PyStr.to_list content)).

Definition counter (count : N) : list ascii := PyStr.to_list "[confirmed: " ++ PyStr.to_list (pretty count) ++ ["]"%char].

Definition set_confirmation_counter (content : string) (count : N) : string :=
  let l := PyStr.to_list content in
  PyStr.of_list (match search l with
                 | Some _ => sub (length l) (counter count) l
                 | None => l ++ ["010"%char; "010"%char] ++ counter count
                 end).

(** ** The table *)

(** [class Memory] *)
Record Memory := {
  m_id : Z;
  m_category : string;
  m_title : string;
  m_content : string;
  m_tags : string;
  m_repo : string;
  m_tier : string;
  m_superseded_by : option Z;
  m_retrieval_count : Z;
  m_last_retrieved_at : option Z;
  m_archived : bool;
  m_health_score : option Z;
  m_created_at : Z;
  m_updated_at : Z;
}.

Record Store := { rows : list Memory; next_id : Z }.

(** Neither superseded nor archived. *)
Definition active (m : Memory) : bool := bool_decide (m_superseded_by m = None) && negb (m_archived m).

Definition active_rows (st : Store) : list Memory := List.filter active (rows st).

Definition confirmations (m : Memory) : Z := parse_confirmation_counter (m_content m).

(** The columns the upkeep writes; an UPDATE sets [updated_at]. *)
Definition with_score (now score : Z) (m : Memory) : Memory :=
  {| m_id := m_id m; m_category := m_category m; m_title := m_title m; m_content := m_content m; m_tags := m_tags m;
     m_repo := m_repo m; m_tier := m_tier m; m_superseded_by := m_superseded_by m; m_retrieval_count := m_retrieval_count m;
     m_last_retrieved_at := m_last_retrieved_at m; m_archived := m_archived m; m_health_score := Some score;
     m_created_at := m_created_at m; m_updated_at := now |}.

Definition with_archived (now : Z) (m : Memory) : Memory :=
  {| m_id := m_id m; m_category := m_category m; m_title := m_title m; m_content := m_content m; m_tags := m_tags m;
     m_repo := m_repo m; m_tier := m_tier m; m_superseded_by := m_superseded_by m; m_retrieval_count := m_retrieval_count m;
     m_last_retrieved_at := m_last_retrieved_at m; m_archived := true; m_health_score := m_health_score m;
     m_created_at := m_created_at m; m_updated_at := now |}.

Definition with_superseded (now id : Z) (m : Memory) : Memory :=
  {| m_id := m_id m; m_category := m_category m; m_title := m_title m; m_content := m_content m; m_tags := m_tags m;
     m_repo := m_repo m; m_tier := m_tier m; m_superseded_by := Some id; m_retrieval_count := m_retrieval_count m;
     m_last_retrieved_at := m_last_retrieved_at m; m_archived := m_archived m; m_health_score := m_health_score m;
     m_created_at := m_created_at m; m_updated_at := now |}.

Definition update_rows (f : Memory -> Memory) (st : Store) : Store := {| rows := map f (rows st); next_id := next_id st |}.

(** ** Scores, staleness, archival *)

Definition HIGH_CONFIRMATION_EXEMPT : Z := 5.
Definition MIN_CLUSTER_SIZE : nat := 3.
Definition DAY : Z := 86400.

(** [compute_health_scores]. [differs] says whether the session sees the new score as
    a change of the stored one; a row without a change is not written. *)
Definition compute_health_scores (score : Z -> Z -> Z -> Z) (differs : option Z -> Z -> bool) (now : Z) (st : Store) : Store :=
  update_rows (fun m =>
    if active m then
      let new := score (confirmations m) (Z.max 0 (now - m_updated_at m)) (m_retrieval_count m) in
      if differs (m_health_score m) new then with_score now new m else m
    else m) st.

Definition last_used (m : Memory) : Z := default (m_created_at m) (m_last_retrieved_at m).

(** [flag_stale_memories] *)
Definition flag_stale_memories (staleness_days now : Z) (st : Store) : list Z :=
  let cutoff := (now - staleness_days * DAY)%Z in
  map m_id (List.filter (fun m => Z.ltb (m_created_at m) cutoff && Z.ltb (confirmations m) HIGH_CONFIRMATION_EXEMPT
                                  && Z.ltb (last_used m) cutoff) (active_rows st)).

(** [archive_memories]: the number archived, and the table. *)
Definition archive_memories (memory_ids : list Z) (now : Z) (st : Store) : nat * Store :=
  let hit m := bool_decide (m_id m ∈ memory_ids) && negb (m_archived m) in
  (length (List.filter hit (rows st)), update_rows (fun m => if hit m then with_archived now m else m) st).

(** [find_archive_candidates], [auto_archive] *)
Definition archivable (archive_days now : Z) (m : Memory) : bool :=
  let cutoff := (now - archive_days * DAY)%Z in
  Z.ltb (m_created_at m) cutoff && bool_decide (confirmations m = 0%Z) && Z.ltb (last_used m) cutoff.

Definition find_archive_candidates (archive_days now : Z) (st : Store) : list Memory :=
  List.filter (archivable archive_days now) (active_rows st).

Definition auto_archive (archive_days now : Z) (st : Store) : nat * Store :=
  archive_memories (map m_id (find_archive_candidates archive_days now st)) now st.

(** ** Clusters *)

(** The primitives of a row: id, title, content, category. *)
Record Item := { i_id : Z; i_title : string; i_content : string; i_category : string }.

Definition item_of (m : Memory) : Item :=
  {| i_id := m_id m; i_title := m_title m; i_content := m_content m; i_category := m_category m |}.

(** [class ConsolidationCluster] *)
Record ConsolidationCluster := { representative_id : Z; member_ids : list Z; titles : list string }.

(** The test of the loop of [_find_cluster_members]. *)
Definition joins (anchor : Item) (assigned : gset Z) (b : Item) : bool :=
  negb (bool_decide (i_id b ∈ assigned) || negb (String.eqb (i_category anchor) (i_category b)))
  && titles_match (i_title anchor) (i_title b).

(** [_find_cluster_members] *)
Definition find_cluster_members (anchor : Item) (candidates : list Item) (assigned : gset Z) : list (Z * string) :=
  (i_id anchor, i_title anchor) ::
  map (fun b => (i_id b, i_title b)) (List.filter (joins anchor assigned) candidates).

(** [_build_clusters], from the ids already assigned. *)
Fixpoint build_clusters_from (assigned : gset Z) (items : list Item) : list ConsolidationCluster :=
  match items with
  | [] => []
  | anchor :: rest =>
      if bool_decide (i_id anchor ∈ assigned) then build_clusters_from assigned rest
      else
        let members := find_cluster_members anchor rest assigned in
        if (MIN_CLUSTER_SIZE <=? length members)%nat then
          let cluster := {| representative_id := default 0%Z (head (map fst members));
                            member_ids := map fst members; titles := map snd members |} in
          cluster :: build_clusters_from (assigned ∪ list_to_set (member_ids cluster)) rest
        else build_clusters_from assigned rest
  end.

Definition build_clusters (items : list Item) : list ConsolidationCluster := build_clusters_from ∅ items.

(** [find_consolidation_candidates] *)
Definition find_consolidation_candidates (st : Store) : list ConsolidationCluster :=
  let memories := active_rows st in
  if (length memories <? MIN_CLUSTER_SIZE)%nat then [] else build_clusters (map item_of memories).

(** ** Consolidation *)

Fixpoint split_on (sep : ascii) (l : list ascii) : list (list ascii) :=
  match l with
  | [] => [[]]
  | c :: l =>
      if Ascii.eqb c sep then [] :: split_on sep l
      else match split_on sep l with
           | w :: ws => (c :: w) :: ws
           | [] => [[c]]
           end
  end.

(** [",".join(sorted(all_tags))], or the default of the column for no tags. *)
Definition tags_of (s : string) : list string :=
  List.filter (fun t => negb (String.eqb t EmptyString))
    (map (fun l => PyStr.strip (PyStr.of_list l)) (split_on ","%char (PyStr.to_list s))).

Definition merged_tags (members : list Memory) : string :=
  PyStr.join "," (sorted_strings (list_to_set (concat (map (fun m => tags_of (m_tags m)) members)))).

Definition newline : string := String "010" EmptyString.
Definition quote : string := String "034" EmptyString.

Local Open Scope string_scope.

Definition member_text (m : Memory) : string := "Title: " ++ m_title m ++ newline ++ "Content: " ++ m_content m.

Definition consolidation_prompt (members : list Memory) : string :=
  "You are a knowledge consolidation assistant. Merge these " ++ pretty (Z.of_nat (length members))
  ++ " related memory entries into a single, comprehensive entry." ++ newline ++ newline
  ++ "## Entries to merge" ++ newline
  ++ PyStr.join newline (map (fun m => "---" ++ newline ++ member_text m) members) ++ newline
  ++ "---" ++ newline ++ newline
  ++ "## Rules" ++ newline
  ++ "- Combine all unique information from all entries" ++ newline
  ++ "- Remove redundancy: say it once clearly" ++ newline
  ++ "- Preserve actionable details and the WHY behind patterns" ++ newline
  ++ "- Keep the same tone: concise, technical, imperative" ++ newline ++ newline
  ++ "## Output Format" ++ newline
  ++ "Return ONLY a JSON object (no markdown fences, no extra text):" ++ newline
  ++ "{" ++ quote ++ "title" ++ quote ++ ": " ++ quote ++ "Consolidated title (max 100 chars)" ++ quote ++ ", "
  ++ quote ++ "content" ++ quote ++ ": " ++ quote ++ "Merged content" ++ quote ++ "}".

Local Close Scope string_scope.

Section Model.
(** The reply to a prompt, [None] for an exception. *)
Variable invoke : string -> option string.
(** The JSON object of a text with the strings under "title" and "content" (an absent
    field or another type is [None]); [None] for a text that is no JSON object. *)
Variable json_fields : string -> option (option string * option string).

(** The body of the [try]: the new title and content. *)
Definition merged_entry (cluster : ConsolidationCluster) (members : list Memory) : option (string * string) :=
  match invoke (consolidation_prompt members) with
  | None => None
  | Some reply =>
      match json_fields (Fences.strip_code_fences reply) with
      | None => None
      | Some (title, content) =>
          let new_title := default (default EmptyString (head (titles cluster))) title in
          match content with
          | None | Some EmptyString => None
          | Some new_content => Some (PyStr.slice_to 200 new_title, new_content)
          end
      end
  end.

(** [consolidate_cluster]: the id of the new row, and the table. *)
Definition consolidate_cluster (cluster : ConsolidationCluster) (now : Z) (st : Store) : option Z * Store :=
  let members := List.filter (fun m => bool_decide (m_id m ∈ member_ids cluster)) (rows st) in
  match members with
  | first :: _ =>
      if (length members <? MIN_CLUSTER_SIZE)%nat then (None, st)
      else
        let total_confirmations := foldr Z.add 0%Z (map confirmations members) in
        match merged_entry cluster members with
        | None => (None, st)
        | Some (new_title, new_content) =>
            let new_mem :=
              {| m_id := next_id st; m_category := m_category first; m_title := new_title;
                 m_content := set_confirmation_counter new_content (Z.to_N total_confirmations);
                 m_tags := merged_tags members; m_repo := m_repo first; m_tier := "project";
                 m_superseded_by := None; m_retrieval_count := 0; m_last_retrieved_at := None;
                 m_archived := false; m_health_score := None; m_created_at := now; m_updated_at := now |} in
            let superseded := update_rows (fun m => if bool_decide (m_id m ∈ map m_id members)
                                                    then with_superseded now (next_id st) m else m) st in
            (Some (next_id st), {| rows := rows superseded ++ [new_mem]; next_id := next_id st + 1 |})
        end
  | [] => (None, st)
  end.

(** The loop of [auto_cleanup] over the clusters; [clock k] is the time of its k-th write. *)
Fixpoint consolidate_all (clusters : list ConsolidationCluster) (clock : nat -> Z) (st : Store) : nat * Store :=
  match clusters with
  | [] => (O, st)
  | c :: cs =>
      let '(new_id, st) := consolidate_cluster c (clock O) st in
      let '(consolidated, st) := consolidate_all cs (fun k => clock (S k)) st in
      (((if new_id then 1 else 0) + consolidated)%nat, st)
  end.

(** [class CleanupResult] *)
Record CleanupResult := { stale_flagged : nat; archived : nat; consolidated : nat }.

(** [auto_cleanup]; [with_cwd] says whether a working directory is given. The clock is read once by
    each of the four operations, and then by every consolidation. *)
Definition auto_cleanup (score : Z -> Z -> Z -> Z) (differs : option Z -> Z -> bool)
    (staleness_days archive_days : Z) (with_cwd : bool) (clock : nat -> Z) (st : Store) : CleanupResult * Store :=
  let st := compute_health_scores score differs (clock 0%nat) st in
  let stale := flag_stale_memories staleness_days (clock 1%nat) st in
  let '(archived, st) := auto_archive archive_days (clock 2%nat) st in
  let '(consolidated, st) :=
    if with_cwd then consolidate_all (find_consolidation_candidates st) (fun k => clock (3 + k)%nat) st else (O, st) in
  ({| stale_flagged := length stale; archived := archived; consolidated := consolidated |}, st).

End Model.

(** ** Counters: lemmas *)

(** The tail of the literal, after its bracket. *)
Definition literal_tail : list ascii := PyStr.to_list "confirmed:".

(** A text in which no match of the counter begun before it can end. *)
Definition fresh (t : list ascii) : Prop :=
  exists blanks t', t = blanks ++ "["%char :: t' /\ forallb PyStr.is_space blanks = true.

Lemma fresh_head t : fresh t -> exists c t', t = c :: t' /\ c ∉ literal_tail /\ PyStr.is_digit c = false /\ c <> "]"%char.
Proof.
  intros ([|c b] & t' & -> & Hb); cbn.
  - eexists _, _. split; [done|]. split; [|done].
    intros Hin%list_elem_of_In. vm_compute in Hin. repeat destruct Hin as [Hin|Hin]; discriminate || done.
  - eexists _, _. split; [done|]. cbn in Hb. apply andb_true_iff in Hb as [Hc _].
    split; [|split].
    + intros Hin%list_elem_of_In. vm_compute in Hin. repeat destruct Hin as [<-|Hin]; discriminate || done.
    + by destruct c as [[] [] [] [] [] [] [] []].
    + by intros ->.
Qed.

Lemma drop_blanks_fresh a t : fresh t -> forallb PyStr.is_space a = true ->
  exists t', PyStr.drop_while PyStr.is_space (a ++ t) = "["%char :: t'.
Proof.
  intros (b & t' & -> & Hb) Ha. exists t'. rewrite app_assoc.
  apply PyStr.drop_while_app; [|done]. by rewrite forallb_app, Ha.
Qed.

(** Dropping or taking a run over a text and its continuation: the run ends in the text, or it covers it. *)
Lemma drop_while_over (f : ascii -> bool) a t :
  forallb f a = true \/
  exists c a', PyStr.drop_while f a = c :: a' /\ PyStr.drop_while f (a ++ t) = c :: a' ++ t /\
               PyStr.take_while f (a ++ t) = PyStr.take_while f a.
Proof.
  induction a as [|c a IH]; [by left|]. cbn. destruct (f c) eqn:E.
  - destruct IH as [IH|(d & a' & H1 & H2 & H3)]; [by left|]. right. exists d, a'. by rewrite H3.
  - right. by exists c, a.
Qed.

Lemma after_literal_over p a t c t' : t = c :: t' -> c ∉ p ->
  PyStr.after_literal p (a ++ t) = (fun a' => a' ++ t) <$> PyStr.after_literal p a \/
  PyStr.after_literal p (a ++ t) = None /\ PyStr.after_literal p a = None.
Proof.
  intros -> Hc. revert p Hc. induction a as [|d a IH]; intros p Hc.
  - destruct p as [|x p]; [by left|]. right. cbn. split; [|done].
    apply not_elem_of_cons in Hc as [Hc _]. by rewrite (proj2 (Ascii.eqb_neq x c)).
  - destruct p as [|x p]; [by left|]. cbn. destruct (Ascii.eqb x d); [|by left].
    apply IH. intros ?. apply Hc. by constructor.
Qed.

Lemma drop_while_all (f : ascii -> bool) a : forallb f a = true -> PyStr.drop_while f a = [].
Proof. induction a as [|c a IH]; [done|]. cbn. intros [-> Ha]%andb_true_iff. auto. Qed.

(** A match that begins in a text does not depend on a fresh continuation of it. *)
Lemma counter_at_over a t : fresh t -> a <> [] ->
  counter_at (a ++ t) = (fun r => (r.1, r.2 ++ t)) <$> counter_at a.
Proof.
  intros Ht Ha. destruct (fresh_head t Ht) as (c0 & t0 & Et & Hc0 & Hdig & Hbr).
  destruct a as [|d a]; [done|]. unfold counter_at. cbn [app].
  change (PyStr.to_list "[confirmed:") with ("["%char :: literal_tail). cbn [PyStr.after_literal].
  destruct (Ascii.eqb "[" d); [|done].
  destruct (after_literal_over literal_tail a t c0 t0 Et Hc0) as [-> | [-> ->]]; [|done].
  destruct (PyStr.after_literal literal_tail a) as [b|]; [cbn [fmap option_fmap option_map]|done].
  destruct (drop_while_over PyStr.is_space b t) as [Hb|(c & b' & -> & -> & _)].
  { destruct (drop_blanks_fresh b t Ht Hb) as (t' & ->). rewrite (drop_while_all _ b) by done. done. }
  destruct (drop_while_over PyStr.is_digit (c :: b') t) as [Hd|(x & b'' & E1 & E2 & E3)].
  - rewrite (drop_while_all _ (c :: b')) by done.
    rewrite app_comm_cons, Et, PyStr.drop_while_app by done. rewrite (proj2 (Ascii.eqb_neq c0 _)) by done.
    by repeat case_match.
  - rewrite app_comm_cons, E1, E2, E3. destruct (PyStr.digits_val _ _ _); [|done].
    by destruct (Ascii.eqb x "]").
Qed.

Lemma pretty_N_char_digit x : (x < 10)%N ->
  PyStr.is_digit (pretty_N_char x) = true /\ PyStr.digit_val (pretty_N_char x) = Z.of_N x.
Proof.
  intros Hx. assert (x ∈ [0;1;2;3;4;5;6;7;8;9]%N) as Hin by (rewrite !elem_of_cons; lia).
  repeat (apply elem_of_cons in Hin as [->|Hin]; [done|]). by apply not_elem_of_nil in Hin.
Qed.

Lemma pretty_N_go_digits x s : (0 < x)%N ->
  (forall b, PyStr.digits_val 0 b (PyStr.to_list (pretty_N_go x s)) = PyStr.digits_val (Z.of_N x) true (PyStr.to_list s)) /\
  (forallb PyStr.is_digit (PyStr.to_list s) = true -> forallb PyStr.is_digit (PyStr.to_list (pretty_N_go x s)) = true).
Proof.
  revert s. induction (N.lt_wf_0 x) as [x _ IH]; intros s Hx.
  destruct (pretty_N_char_digit (x mod 10)) as [Hd Hv]; [by apply N.mod_lt|].
  rewrite pretty_N_go_step by done. pose proof (N.div_mod x 10 ltac:(done)) as E.
  destruct (decide (0 < x / 10)%N) as [Hlt|Hge].
  - destruct (IH (x / 10)%N ltac:(by apply N.div_lt) (String (pretty_N_char (x mod 10)) s) Hlt) as [IH1 IH2]. split.
    + intros b. rewrite IH1. cbn [PyStr.to_list String.list_ascii_of_string PyStr.digits_val]. rewrite Hd, Hv.
      unfold PyStr.to_list. f_equal. lia.
    + intros Hs. apply IH2. cbn. by rewrite Hd.
  - assert (x / 10 = 0)%N as E0 by (destruct (x / 10)%N; [done|by destruct Hge]). rewrite E0, pretty_N_go_0. split.
    + intros b. cbn [PyStr.to_list String.list_ascii_of_string PyStr.digits_val]. rewrite Hd, Hv.
      unfold PyStr.to_list. f_equal. lia.
    + intros Hs. cbn. by rewrite Hd.
Qed.

Lemma pretty_N_digits (n : N) :
  PyStr.digits_val 0 false (PyStr.to_list (pretty n)) = Some (Z.of_N n) /\
  forallb PyStr.is_digit (PyStr.to_list (pretty n)) = true /\
  exists c s, PyStr.to_list (pretty n) = c :: s.
Proof.
  assert (forall a b : list ascii, PyStr.digits_val 0 false a = Some (Z.of_N n) -> exists c s, a = c :: s) as Hne.
  { intros [|c s] _; [done|]. by eexists _, _. }
  change (pretty n) with (pretty_N n). unfold pretty_N. destruct (decide (n = 0%N)) as [->|Hn]; [by repeat econstructor|].
  destruct (pretty_N_go_digits n "") as [H1 H2]; [lia|]. split; [apply H1|]. split; [by apply H2|].
  apply (Hne _ []), H1.
Qed.

(** Reading a counter that was just written. *)
Lemma counter_at_counter n r : counter_at (counter n ++ r) = Some (Z.of_N n, r).
Proof.
  unfold counter, counter_at. rewrite <- !app_assoc.
  destruct (pretty_N_digits n) as (Hv & Hd & c & s & E).
  change (PyStr.after_literal _ _) with (Some (" "%char :: PyStr.to_list (pretty n) ++ "]"%char :: r)). cbv iota.
  assert (PyStr.drop_while PyStr.is_space (" "%char :: PyStr.to_list (pretty n) ++ "]"%char :: r)
          = PyStr.to_list (pretty n) ++ "]"%char :: r) as ->.
  { rewrite E in Hd |- *. cbn in Hd. apply andb_true_iff in Hd as [Hc _]. cbn.
    assert (PyStr.is_space c = false) as -> by (by destruct c as [[] [] [] [] [] [] [] []]). done. }
  rewrite PyStr.take_while_app, PyStr.drop_while_app by done. by rewrite Hv.
Qed.

Lemma search_over a t n r : fresh t -> search a = None -> counter_at t = Some (n, r) -> search (a ++ t) = Some n.
Proof.
  intros Ht Ha Hn. induction a as [|c a IH]; [by destruct t; cbn [app search]; rewrite Hn|].
  cbn [app]. cbn [search] in *. rewrite app_comm_cons, counter_at_over by done.
  destruct (counter_at (c :: a)) as [[]|]; [done|]. auto.
Qed.

Lemma counter_at_fresh l r : counter_at l = Some r -> fresh l.
Proof.
  destruct l as [|c l]; [done|]. unfold counter_at.
  change (PyStr.to_list "[confirmed:") with ("["%char :: literal_tail). cbn [PyStr.after_literal].
  destruct (Ascii.eqb_spec "["%char c) as [<-|]; [|done]. intros _. by exists [], l.
Qed.

(** The first replacement of [sub]: nothing matches in the text before it. *)
Lemma sub_first replacement l fuel : (length l <= fuel)%nat -> search l <> None ->
  exists a t x, l = a ++ t /\ fresh t /\ search a = None /\ sub fuel replacement l = a ++ replacement ++ x.
Proof.
  revert fuel. induction l as [|c l IH]; intros fuel Hf Hs; [by cbn in Hs|].
  destruct fuel as [|fuel]; [cbn in Hf; lia|]. cbn [sub]. cbn [search] in Hs.
  destruct (counter_at (c :: l)) as [[n rest]|] eqn:E.
  - exists [], (c :: l), (sub fuel replacement rest). by apply counter_at_fresh in E.
  - cbn in Hf. destruct (IH fuel ltac:(lia) Hs) as (a & t & x & -> & Ht & Ha & Ex).
    exists (c :: a), t, x. split; [done|]. split; [done|]. rewrite Ex. split; [|done].
    cbn [search]. rewrite app_comm_cons, counter_at_over in E by done.
    by destruct (counter_at (c :: a)).
Qed.

Lemma fresh_counter n r : fresh (counter n ++ r).
Proof. eapply counter_at_fresh, counter_at_counter. Qed.

Lemma parse_set_counter content n : parse_confirmation_counter (set_confirmation_counter content n) = Z.of_N n.
Proof.
  unfold parse_confirmation_counter, set_confirmation_counter. rewrite PyStr.to_of_list.
  destruct (search (PyStr.to_list content)) as [z|] eqn:E.
  - destruct (sub_first (counter n) (PyStr.to_list content) (length (PyStr.to_list content)))
      as (a & t & x & _ & _ & Ha & ->); [done|by rewrite E|].
    by rewrite (search_over a _ _ _ (fresh_counter n x) Ha (counter_at_counter n x)).
  - replace (PyStr.to_list content ++ ["010"; "010"]%char ++ counter n)
      with (PyStr.to_list content ++ "010"%char :: "010"%char :: counter n ++ []) by (by rewrite app_nil_r).
    assert (fresh ("010"%char :: "010"%char :: counter n ++ [])) as Hfresh.
    { destruct (fresh_counter n []) as (b & t' & E' & Hb). exists ("010"%char :: "010"%char :: b), t'.
      by rewrite E'. }
    assert (forall t, counter_at ("010"%char :: t) = None) as Hnl by done.
    clear -E Hfresh Hnl. induction (PyStr.to_list content) as [|c a IH].
    + pose proof (search_over ["010"; "010"]%char _ _ [] (fresh_counter n []) eq_refl (counter_at_counter n [])) as H.
      cbn [app] in H |- *. by rewrite H.
    + cbn [search] in E. cbn [app search]. rewrite app_comm_cons, counter_at_over by done.
      destruct (counter_at (c :: a)) as [[]|]; [done|]. auto.
Qed.

Lemma search_nonneg l n : search l = Some n -> (0 <= n)%Z.
Proof.
  induction l as [|c l IH]; cbn [search]; [done|].
  destruct (counter_at (c :: l)) as [[z r]|] eqn:E; [intros [= <-]|exact IH].
  unfold counter_at in E. repeat case_match; simplify_eq. by eapply Milestone.digits_val_nonneg; [|done].
Qed.

Lemma confirmations_nonneg m : (0 <= confirmations m)%Z.
Proof.
  unfold confirmations, parse_confirmation_counter.
  destruct (search _) eqn:E; cbn; [by eapply search_nonneg|done].
Qed.

(** ** Clusters: lemmas *)

Definition clustered (cs : list ConsolidationCluster) : list Z := concat (map member_ids cs).

(** A cluster of the items: three or more of them, of one category, each the representative or of a similar title. *)
Definition sound_cluster (items : list Item) (c : ConsolidationCluster) : Prop :=
  (MIN_CLUSTER_SIZE <= length (member_ids c))%nat /\ length (titles c) = length (member_ids c) /\
  exists anchor, anchor ∈ items /\ i_id anchor = representative_id c /\ head (member_ids c) = Some (i_id anchor) /\
    forall id, id ∈ member_ids c -> exists b, b ∈ items /\ i_id b = id /\ i_category b = i_category anchor /\
                                    (b = anchor \/ titles_match (i_title anchor) (i_title b) = true).

Lemma member_ids_of anchor rest assigned :
  map fst (find_cluster_members anchor rest assigned) = i_id anchor :: map i_id (List.filter (joins anchor assigned) rest).
Proof. unfold find_cluster_members. cbn. by rewrite map_map. Qed.

Lemma joined_in anchor assigned rest b : b ∈ List.filter (joins anchor assigned) rest ->
  b ∈ rest /\ i_id b ∉ assigned /\ i_category b = i_category anchor /\ titles_match (i_title anchor) (i_title b) = true.
Proof.
  intros [Hb Hj]%list_elem_of_In%List.filter_In. apply list_elem_of_In in Hb. unfold joins in Hj.
  apply andb_true_iff in Hj as [Hj Ht]. apply negb_true_iff, orb_false_iff in Hj as [Ha Hc].
  apply bool_decide_eq_false in Ha. by apply negb_false_iff, String.eqb_eq in Hc.
Qed.

Lemma sound_weaken items items' c : items ⊆ items' -> sound_cluster items c -> sound_cluster items' c.
Proof.
  intros Hsub (H1 & H2 & a & Ha & Hr & Hh & Hm). split; [done|]. split; [done|].
  exists a. split; [auto|]. split; [done|]. split; [done|].
  intros id Hid. destruct (Hm id Hid) as (b & Hb & ?). exists b. auto.
Qed.

(** The cluster of an anchor. *)
Lemma anchor_cluster anchor rest assigned cluster :
  cluster = {| representative_id := default 0%Z (head (map fst (find_cluster_members anchor rest assigned)));
               member_ids := map fst (find_cluster_members anchor rest assigned);
               titles := map snd (find_cluster_members anchor rest assigned) |} ->
  (MIN_CLUSTER_SIZE <= length (find_cluster_members anchor rest assigned))%nat ->
  sound_cluster (anchor :: rest) cluster.
Proof.
  intros -> Hlen. unfold sound_cluster. cbn [representative_id member_ids titles].
  rewrite !length_map. split; [done|]. split; [done|]. exists anchor. split; [by constructor|].
  split; [done|]. split; [done|]. intros id. rewrite member_ids_of.
  intros [->|(b & -> & Hb)%list_elem_of_fmap]%elem_of_cons.
  - exists anchor. split; [by constructor|]. auto.
  - apply joined_in in Hb as (Hb & _ & Hc & Ht). exists b. split; [by constructor|]. auto.
Qed.

Lemma build_clusters_sound assigned items :
  NoDup (map i_id items) ->
  Forall (sound_cluster items) (build_clusters_from assigned items) /\
  NoDup (clustered (build_clusters_from assigned items)) /\
  (forall id, id ∈ clustered (build_clusters_from assigned items) -> id ∉ assigned /\ id ∈ map i_id items).
Proof.
  revert assigned. induction items as [|anchor rest IH]; intros assigned Hnd.
  { split; [constructor|]. split; [constructor|]. by intros id ?%not_elem_of_nil. }
  apply NoDup_cons in Hnd as [Hanchor Hnd]. cbn [build_clusters_from].
  assert (forall assigned, let cs := build_clusters_from assigned rest in
    Forall (sound_cluster (anchor :: rest)) cs /\ NoDup (clustered cs) /\
    (forall id, id ∈ clustered cs -> id ∉ assigned /\ id ∈ map i_id (anchor :: rest))) as Hskip.
  { intros assigned'. destruct (IH assigned' Hnd) as (H1 & H2 & H3). split; [|split; [done|]].
    - eapply Forall_impl; [exact H1|]. intros c. apply sound_weaken. by apply list_subseteq_cons.
    - intros id Hid. destruct (H3 id Hid). split; [done|]. by constructor. }
  case_bool_decide as Ha; [apply Hskip|].
  destruct (MIN_CLUSTER_SIZE <=? _)%nat eqn:Hlen; [|apply Hskip]. apply Nat.leb_le in Hlen.
  set (cluster := {| representative_id := _; member_ids := _; titles := _ |}).
  destruct (Hskip (assigned ∪ list_to_set (member_ids cluster))) as (H1 & H2 & H3).
  assert (forall id, id ∈ member_ids cluster -> id ∉ assigned /\ id ∈ map i_id (anchor :: rest)) as Hc.
  { intros id. cbn [member_ids cluster]. rewrite member_ids_of.
    intros [->|(b & -> & Hb)%list_elem_of_fmap]%elem_of_cons; [split; [done|by constructor]|].
    apply joined_in in Hb as (Hb & Has & _). split; [done|]. constructor. apply list_elem_of_fmap. by exists b. }
  split; [|split].
  - constructor; [by eapply anchor_cluster|done].
  - unfold clustered. cbn [map concat]. apply NoDup_app. split; [|split; [|done]].
    + cbn [member_ids cluster]. rewrite member_ids_of. apply NoDup_cons. split; [|by apply NoDup_map_filter].
      intros (b & Eb & Hb)%list_elem_of_fmap. apply joined_in in Hb as (Hb & _).
      apply Hanchor, list_elem_of_fmap. by exists b.
    + intros id Hid Hid'. apply H3 in Hid' as [Hid' _]. apply Hid', elem_of_union. right. by apply elem_of_list_to_set.
  - intros id. unfold clustered. cbn [map concat]. rewrite elem_of_app. intros [Hid|Hid]; [auto|].
    destruct (H3 id Hid) as [Hn Hin]. split; [|done]. intros ?. apply Hn, elem_of_union. by left.
Qed.

Lemma filter_length_le {A} (f g : A -> bool) l : (forall a, f a = true -> g a = true) ->
  (length (List.filter f l) <= length (List.filter g l))%nat.
Proof.
  intros Hfg. induction l as [|a l IH]; [done|]. cbn. destruct (f a) eqn:E; [by rewrite (Hfg a E); cbn; lia|].
  destruct (g a); cbn; lia.
Qed.

Lemma joins_fewer anchor (X Y : gset Z) b : X ⊆ Y -> joins anchor Y b = true -> joins anchor X b = true.
Proof.
  unfold joins. intros Hsub H. apply andb_true_iff in H as [H ->]. rewrite andb_true_r.
  apply negb_true_iff, orb_false_iff in H as [H Hc]. apply bool_decide_eq_false in H.
  apply negb_true_iff, orb_false_iff. split; [|done]. apply bool_decide_eq_false. set_solver.
Qed.

(** An item left out of the clusters has fewer than two later items left out that it could join. *)
Lemma build_clusters_maximal assigned before anchor rest cs final :
  cs = build_clusters_from assigned (before ++ anchor :: rest) ->
  final = assigned ∪ list_to_set (clustered cs) ->
  i_id anchor ∉ final ->
  (S (length (List.filter (joins anchor final) rest)) < MIN_CLUSTER_SIZE)%nat.
Proof.
  revert assigned cs. induction before as [|b before IH]; intros assigned cs; cbn [app build_clusters_from].
  - case_bool_decide as Ha; [set_solver|].
    destruct (MIN_CLUSTER_SIZE <=? _)%nat eqn:Hlen; intros Ecs Efin Hn.
    { exfalso. apply Hn. rewrite Efin, Ecs. unfold clustered. cbn [map concat member_ids].
      rewrite member_ids_of. set_solver. }
    apply Nat.leb_gt in Hlen. unfold find_cluster_members in Hlen. cbn [length] in Hlen. rewrite length_map in Hlen.
    assert (length (List.filter (joins anchor final) rest) <= length (List.filter (joins anchor assigned) rest))%nat; [|lia].
    apply filter_length_le. intros a. apply joins_fewer. set_solver.
  - case_bool_decide as Ha; [apply IH|]. destruct (MIN_CLUSTER_SIZE <=? _)%nat; [|apply IH].
    set (cluster := {| representative_id := _; member_ids := _; titles := _ |}).
    intros -> Efin. eapply IH; [done|]. rewrite Efin. unfold clustered. cbn [map concat].
    by rewrite list_to_set_app_L, (assoc_L (∪)).
Qed.

(** ** The table: lemmas *)

(** Ids are unique and below the next one. *)
Definition well_formed (st : Store) : Prop :=
  NoDup (map m_id (rows st)) /\ forall m, m ∈ rows st -> (m_id m < next_id st)%Z.

Definition weight (m : Memory) : Z := if active m then confirmations m else 0.

Definition sum (l : list Z) : Z := foldr Z.add 0%Z l.

(** The confirmations that retrieval can see. *)
Definition total (st : Store) : Z := sum (map confirmations (active_rows st)).

(** What the upkeep never changes of a row. *)
Definition entry (m : Memory) :=
  (m_id m, m_category m, m_title m, m_content m, m_tags m, m_repo m, m_tier m,
   (m_retrieval_count m, m_last_retrieved_at m, m_created_at m)).

Lemma sum_app l1 l2 : sum (l1 ++ l2) = (sum l1 + sum l2)%Z.
Proof. unfold sum. induction l1 as [|z l1 IH]; cbn; [done|]. rewrite IH. lia. Qed.

Lemma total_weight st : total st = sum (map weight (rows st)).
Proof.
  unfold total, active_rows, weight, sum. induction (rows st) as [|m l IH]; [done|]. cbn [List.filter map foldr].
  destruct (active m); cbn [map foldr]; rewrite IH; lia.
Qed.

Lemma update_rows_weight f st : (forall m, m ∈ rows st -> weight (f m) = weight m) -> total (update_rows f st) = total st.
Proof.
  intros Hf. rewrite !total_weight. cbn. rewrite map_map. f_equal. apply map_ext_in.
  intros m Hm%list_elem_of_In. auto.
Qed.

Lemma update_rows_wf f st : (forall m, m_id (f m) = m_id m) -> well_formed st -> well_formed (update_rows f st).
Proof.
  intros Hf [Hnd Hlt]. split; cbn.
  - rewrite map_map. by rewrite (map_ext _ m_id Hf).
  - intros m (m0 & -> & Hm)%list_elem_of_fmap. rewrite Hf. auto.
Qed.

Lemma in_update_rows f st m : m ∈ rows st -> f m ∈ rows (update_rows f st).
Proof. intros Hm. apply list_elem_of_fmap. by exists m. Qed.

Lemma same_id st m m' : well_formed st -> m ∈ rows st -> m' ∈ rows st -> m_id m = m_id m' -> m = m'.
Proof.
  intros [Hnd _] (i & Hi)%list_elem_of_lookup (j & Hj)%list_elem_of_lookup E.
  assert (i = j) as ->; [|congruence].
  eapply NoDup_lookup; [exact Hnd|..].
  - rewrite (list_lookup_fmap m_id), Hi. done.
  - rewrite (list_lookup_fmap m_id), Hj. cbn. by rewrite E.
Qed.

Lemma rescored score differs now st :
  well_formed st ->
  let st' := compute_health_scores score differs now st in
  well_formed st' /\ total st' = total st /\
  forall m, m ∈ rows st -> exists m', m' ∈ rows st' /\ entry m' = entry m /\ active m' = active m /\ (active m = false -> m' = m).
Proof.
  intros Hwf st'. split; [|split].
  - apply update_rows_wf; [|done]. intros m. cbv zeta. by repeat case_match.
  - apply update_rows_weight. intros m _. cbv beta zeta. by repeat case_match.
  - intros m Hm. eexists. split; [by apply in_update_rows|]. cbv beta zeta.
    destruct (active m) eqn:E; [|done]. by case_match; (split; [done|]; split; [exact E|]).
Qed.

Lemma archived_rows archive_days now st :
  well_formed st ->
  let st' := (auto_archive archive_days now st).2 in
  well_formed st' /\ total st' = total st /\
  forall m, m ∈ rows st -> exists m', m' ∈ rows st' /\ entry m' = entry m /\
    (m' = m \/ active m = true /\ archivable archive_days now m = true /\ m_archived m' = true /\
               m_superseded_by m' = None).
Proof.
  intros Hwf st'. unfold st', auto_archive, archive_memories. cbn [snd].
  assert (forall m, m ∈ rows st -> m_id m ∈ map m_id (find_archive_candidates archive_days now st) ->
            active m = true /\ archivable archive_days now m = true) as Hhit.
  { intros m Hm (m' & E & Hc)%list_elem_of_fmap.
    apply list_elem_of_In, List.filter_In in Hc as [Hc Har]. apply List.filter_In in Hc as [Hc Hac].
    by rewrite (same_id st m m' Hwf Hm (proj2 (list_elem_of_In _ _) Hc) E). }
  split; [|split].
  - apply update_rows_wf; [|done]. intros m. by case_match.
  - apply update_rows_weight. intros m Hm.
    destruct (bool_decide (m_id m ∈ _)) eqn:Eb; [|done]. apply bool_decide_eq_true in Eb.
    destruct (Hhit m Hm Eb) as [Hac Har]. cbn [andb]. destruct (negb (m_archived m)); [|done].
    unfold weight at 2. rewrite Hac. unfold archivable in Har.
    apply andb_true_iff in Har as [Har _]. apply andb_true_iff in Har as [_ Hz%bool_decide_eq_true].
    rewrite Hz. unfold weight, active. cbn. by rewrite andb_false_r.
  - intros m Hm. eexists. split; [by apply in_update_rows|].
    destruct (bool_decide (m_id m ∈ _)) eqn:Eb; cbn [andb]; [|by split; [|left]].
    apply bool_decide_eq_true in Eb. destruct (Hhit m Hm Eb) as [Hac Har].
    assert (m_superseded_by m = None /\ m_archived m = false) as [Hs Ha].
    { unfold active in Hac. apply andb_true_iff in Hac as [H1%bool_decide_eq_true H2%negb_true_iff]. done. }
    rewrite Ha. cbn [negb]. split; [done|]. right. by rewrite Hac.
Qed.

Section Consolidation.
Context (invoke : string -> option string) (json_fields : string -> option (option string * option string)).

(** A row of the table that took over another one. *)
Definition superseded_in (st : Store) (m m' : Memory) : Prop :=
  exists n, n ∈ rows st /\ m_superseded_by m' = Some (m_id n) /\ active n = true /\ m_category n = m_category m.

(** The members of a cluster to merge. *)
Definition mergeable (ids : list Z) (st : Store) : Prop :=
  (forall m, m ∈ rows st -> m_id m ∈ ids -> active m = true) /\
  exists category, forall m, m ∈ rows st -> m_id m ∈ ids -> m_category m = category.

Definition members_of (cluster : ConsolidationCluster) (st : Store) : list Memory :=
  List.filter (fun m => bool_decide (m_id m ∈ member_ids cluster)) (rows st).

Lemma in_members cluster st m : m ∈ members_of cluster st <-> m ∈ rows st /\ m_id m ∈ member_ids cluster.
Proof.
  unfold members_of. rewrite list_elem_of_In, List.filter_In, <- list_elem_of_In. by rewrite bool_decide_eq_true.
Qed.

(** The two outcomes of [consolidate_cluster]. *)
Lemma consolidate_cases cluster now st :
  let st' := (consolidate_cluster invoke json_fields cluster now st).2 in
  st' = st \/
  exists new first, first ∈ members_of cluster st /\
    st' = {| rows := map (fun m => if bool_decide (m_id m ∈ map m_id (members_of cluster st))
                                   then with_superseded now (next_id st) m else m) (rows st) ++ [new];
             next_id := next_id st + 1 |} /\
    m_id new = next_id st /\ active new = true /\ m_category new = m_category first /\
    confirmations new = Z.of_N (Z.to_N (sum (map confirmations (members_of cluster st)))).
Proof.
  cbv zeta. unfold consolidate_cluster. fold (members_of cluster st).
  destruct (members_of cluster st) as [|first ms] eqn:E; [by left|].
  destruct (_ <? _)%nat; [by left|]. destruct (merged_entry _ _ _ _) as [[title content]|]; [|by left].
  right. eexists _, first. split; [by constructor|]. split; [reflexivity|]. split; [done|]. split; [done|]. split; [done|].
  unfold confirmations at 1. cbn [m_content]. apply parse_set_counter.
Qed.

Lemma sum_nonneg l : (0 <= sum (map confirmations l))%Z.
Proof. unfold sum. induction l as [|m l IH]; cbn; [done|]. pose proof (confirmations_nonneg m). lia. Qed.

(** Marking the members takes their confirmations out of the total. *)
Lemma marked_weight (ids : list Z) now id l :
  (forall m, m ∈ l -> m_id m ∈ ids -> active m = true) ->
  (sum (map (fun m => weight (if bool_decide (m_id m ∈ ids) then with_superseded now id m else m)) l)
   + sum (map confirmations (List.filter (fun m => bool_decide (m_id m ∈ ids)) l)))%Z = sum (map weight l).
Proof.
  unfold sum. induction l as [|m l IH]; intros Hac; [done|]. cbn [map foldr List.filter].
  assert (forall m, m ∈ l -> m_id m ∈ ids -> active m = true) as Hac' by (intros m' Hm'; apply Hac; by constructor).
  specialize (IH Hac'). destruct (bool_decide (m_id m ∈ ids)) eqn:Eb.
  - apply bool_decide_eq_true in Eb. cbn [map foldr]. unfold weight at 1 3. rewrite (Hac m) by (done || constructor).
    change (active (with_superseded now id m)) with false. cbv iota. lia.
  - lia.
Qed.

Lemma marked_iff cluster st m : m ∈ rows st -> m_id m ∈ map m_id (members_of cluster st) <-> m_id m ∈ member_ids cluster.
Proof.
  intros Hm. split.
  - by intros (m' & -> & [_ Hm']%in_members)%list_elem_of_fmap.
  - intros Hid. apply list_elem_of_fmap. exists m. by rewrite in_members.
Qed.

(** What the merge of one cluster does to the table. *)
Definition merged (ids : list Z) (st st' : Store) : Prop :=
  well_formed st' /\ total st' = total st /\ (next_id st <= next_id st')%Z /\
  (forall m, m ∈ rows st -> m_id m ∉ ids -> m ∈ rows st') /\
  (forall m, m ∈ rows st -> m_id m ∈ ids -> exists m', m' ∈ rows st' /\ entry m' = entry m /\
     (m' = m \/ exists n, n ∈ rows st' /\ m_superseded_by m' = Some (m_id n) /\ active n = true /\
                         m_category n = m_category m /\ m_id n = next_id st)) /\
  (forall m', m' ∈ rows st' -> m' ∈ rows st \/ m_id m' ∈ ids \/ m_id m' = next_id st).

Lemma merged_refl ids st : well_formed st -> merged ids st st.
Proof.
  intros Hwf. split; [done|]. split; [done|]. split; [done|]. split; [done|]. split; [|auto].
  intros m Hm _. exists m. auto.
Qed.

Lemma consolidate_merges cluster now st :
  well_formed st -> mergeable (member_ids cluster) st ->
  merged (member_ids cluster) st (consolidate_cluster invoke json_fields cluster now st).2.
Proof.
  intros Hwf (Hac & category & Hcat). destruct (consolidate_cases cluster now st) as [->|(new & first & Hfirst & -> & Hid & Hnew & Hncat & Hconf)];
    [by apply merged_refl|].
  set (ids := map m_id (members_of cluster st)).
  set (mark := fun m => if bool_decide (m_id m ∈ ids) then with_superseded now (next_id st) m else m).
  assert (forall m, m_id (mark m) = m_id m) as Hmark by (intros m; unfold mark; by case_match).
  apply in_members in Hfirst as [Hf Hfid]. unfold merged. cbn [rows next_id].
  split; [|split; [|split; [lia|split; [|split]]]].
  - destruct (update_rows_wf mark st Hmark Hwf) as [Hnd Hlt]. split; cbn [rows next_id].
    + rewrite map_app. cbn. apply NoDup_app. split; [done|]. split; [|apply NoDup_singleton].
      intros id (m & -> & Hm)%list_elem_of_fmap E%list_elem_of_singleton. pose proof (Hlt m Hm) as H. cbn in H. lia.
    + intros m [Hm|E%list_elem_of_singleton]%elem_of_app; [pose proof (Hlt m Hm) as H; cbn in H; lia|subst m; lia].
  - rewrite !total_weight. cbn [rows]. rewrite map_app, map_map, sum_app. unfold mark.
    pose proof (marked_weight ids now (next_id st) (rows st)) as H.
    rewrite <- H; [|intros m Hm Hin; exact (Hac m Hm (proj1 (marked_iff cluster st m Hm) Hin))]. f_equal.
    unfold sum at 1. cbn [map foldr]. unfold weight. rewrite Hnew, Hconf.
    assert (List.filter (fun m => bool_decide (m_id m ∈ ids)) (rows st) = members_of cluster st) as ->.
    { unfold members_of. apply filter_ext_in. intros m Hm%list_elem_of_In. apply bool_decide_ext, (marked_iff cluster st m Hm). }
    pose proof (sum_nonneg (members_of cluster st)). lia.
  - intros m Hm Hn. apply elem_of_app. left. apply list_elem_of_fmap. exists m. split; [|done].
    unfold mark. rewrite bool_decide_eq_false_2; [done|]. intros Hin. exact (Hn (proj1 (marked_iff cluster st m Hm) Hin)).
  - intros m Hm Hin. exists (mark m). split; [apply elem_of_app; left; by apply list_elem_of_fmap; exists m|].
    unfold mark. rewrite bool_decide_eq_true_2 by exact (proj2 (marked_iff cluster st m Hm) Hin). split; [done|]. right. exists new.
    split; [apply elem_of_app; right; by constructor|]. cbn. rewrite Hid. split; [done|]. split; [done|].
    split; [|done]. by rewrite Hncat, (Hcat first Hf Hfid), (Hcat m Hm Hin).
  - intros m' [(m & -> & Hm)%list_elem_of_fmap|E%list_elem_of_singleton]%elem_of_app; [|subst m'; auto].
    unfold mark. case_bool_decide as Hin; [|auto]. right. left. cbn. exact (proj1 (marked_iff cluster st m Hm) Hin).
Qed.

(** What the loop over the clusters needs, and what it guarantees. *)
Definition ready (cs : list ConsolidationCluster) (st : Store) : Prop :=
  well_formed st /\ NoDup (clustered cs) /\ (forall id, id ∈ clustered cs -> (id < next_id st)%Z) /\
  forall c, c ∈ cs -> mergeable (member_ids c) st.

Lemma ready_next c cs st st' : ready (c :: cs) st -> merged (member_ids c) st st' -> ready cs st'.
Proof.
  intros (_ & Hnd & Hlt & Hmg) (Hwf' & _ & Hnext & _ & _ & Hfrom). unfold clustered in *. cbn [map concat] in *.
  apply NoDup_app in Hnd as (_ & Hdis & Hnd).
  assert (forall id, id ∈ concat (map member_ids cs) -> (id < next_id st)%Z) as Hlt'
    by (intros id Hid; apply Hlt, elem_of_app; auto).
  split; [done|]. split; [done|]. split; [intros id Hid; specialize (Hlt' id Hid); lia|].
  intros c' Hc'. assert (forall m, m ∈ rows st' -> m_id m ∈ member_ids c' -> m ∈ rows st) as Hold.
  { intros m Hm Hid.
    assert (m_id m ∈ concat (map member_ids cs)) as Hin.
    { apply list_elem_of_In, in_concat. exists (member_ids c').
      split; [apply in_map, list_elem_of_In, Hc'|by apply list_elem_of_In]. }
    destruct (Hfrom m Hm) as [H|[H|H]]; [done|by destruct (Hdis _ H Hin)|specialize (Hlt' _ Hin); lia]. }
  destruct (Hmg c' ltac:(by constructor)) as (Hac & category & Hcat).
  split; [intros m Hm Hid; by apply Hac; [apply Hold|]|].
  exists category. intros m Hm Hid. by apply Hcat; [apply Hold|].
Qed.

Lemma consolidate_all_merges cs clock st :
  ready cs st ->
  let st' := (consolidate_all invoke json_fields cs clock st).2 in
  well_formed st' /\ total st' = total st /\
  forall m, m ∈ rows st -> exists m', m' ∈ rows st' /\ entry m' = entry m /\
    (m' = m \/ m_id m ∈ clustered cs /\ superseded_in st' m m').
Proof.
  revert clock st. induction cs as [|c cs IH]; intros clock st Hready; cbn [consolidate_all].
  { destruct Hready as [Hwf _]. cbn. split; [done|]. split; [done|]. intros m Hm. exists m. auto. }
  pose proof (consolidate_merges c (clock 0%nat) st (proj1 Hready) (proj2 (proj2 (proj2 Hready)) c ltac:(by constructor))) as Hmerged.
  destruct (consolidate_cluster _ _ c _ st) as [new_id st1]. cbn [snd] in Hmerged.
  pose proof (ready_next _ _ _ _ Hready Hmerged) as Hready1.
  specialize (IH (fun k => clock (S k)) st1 Hready1). cbv zeta in IH.
  destruct (consolidate_all _ _ cs _ st1) as [n st2]. cbn [snd] in IH |- *.
  destruct IH as (Hwf2 & Htot2 & Hrows2). destruct Hmerged as (_ & Htot1 & _ & Hkeep & Hgone & _).
  split; [done|]. split; [congruence|].
  destruct Hready as (_ & Hnd & Hlt & _). unfold clustered in *. cbn [map concat] in *.
  apply NoDup_app in Hnd as (_ & Hdis & _).
  assert (forall m, m ∈ rows st1 -> m_id m ∉ concat (map member_ids cs) -> m ∈ rows st2) as Hstay.
  { intros m Hm Hn. by destruct (Hrows2 m Hm) as (m' & Hm' & _ & [->|[H _]]). }
  intros m Hm. destruct (decide (m_id m ∈ member_ids c)) as [Hin|Hout].
  - destruct (Hgone m Hm Hin) as (m1 & Hm1 & Hentry & Hfate). exists m1.
    assert (m_id m1 = m_id m) as Hid by (unfold entry in Hentry; congruence).
    split; [apply Hstay; [done|]; rewrite Hid; by apply Hdis|]. split; [done|].
    destruct Hfate as [->|(k & Hk & Hs & Hac & Hcat & Hkid)]; [by left|]. right.
    split; [apply elem_of_app; by left|]. exists k. split; [|done].
    apply Hstay; [done|]. intros H. specialize (Hlt (m_id k) ltac:(apply elem_of_app; by right)). lia.
  - destruct (Hrows2 m (Hkeep m Hm Hout)) as (m2 & Hm2 & Hentry & Hfate). exists m2. split; [done|]. split; [done|].
    destruct Hfate as [->|[H1 H2]]; [by left|]. right. split; [apply elem_of_app; by right|done].
Qed.

(** The clusters found in a table are ready to be merged there. *)
Lemma found_ready st : well_formed st -> ready (find_consolidation_candidates st) st.
Proof.
  intros Hwf. unfold ready, find_consolidation_candidates.
  destruct (_ <? _)%nat.
  { split; [done|]. split; [constructor|]. split; [by intros ? ?%not_elem_of_nil|by intros ? ?%not_elem_of_nil]. }
  assert (NoDup (map i_id (map item_of (active_rows st)))) as Hnd.
  { rewrite map_map. apply NoDup_map_filter, Hwf. }
  destruct (build_clusters_sound ∅ _ Hnd) as (H1 & H2 & H3). fold (build_clusters (map item_of (active_rows st))) in *.
  split; [done|]. split; [done|]. split.
  - intros id Hid. destruct (H3 id Hid) as [_ Hin]. rewrite map_map in Hin.
    apply list_elem_of_fmap in Hin as (m & -> & Hm). apply list_elem_of_In, List.filter_In in Hm as [Hm _].
    by apply Hwf, list_elem_of_In.
  - intros c Hc. rewrite Forall_forall in H1. destruct (H1 c Hc) as (_ & _ & anchor & _ & _ & _ & Hmem).
    assert (forall m, m ∈ rows st -> m_id m ∈ member_ids c -> active m = true /\ m_category m = i_category anchor) as Hall.
    { intros m Hm Hid. destruct (Hmem _ Hid) as (b & Hb & Eid & Ecat & _).
      apply list_elem_of_fmap in Hb as (m' & -> & Hm'). apply list_elem_of_In, List.filter_In in Hm' as [Hm' Hac].
      apply list_elem_of_In in Hm'. by rewrite (same_id st m m' Hwf Hm Hm' (eq_sym Eid)). }
    split; [intros m Hm Hid; by destruct (Hall m Hm Hid)|].
    exists (i_category anchor). intros m Hm Hid. by destruct (Hall m Hm Hid).
Qed.
End Consolidation.

(** The clusters of the upkeep are disjoint, so no memory is merged twice; each has three
    members or more of one category, its representative among them and every other
    one of a similar title; and none is missed: a memory left alone could be
    joined by at most one later memory left alone. *)
Theorem clusters_exact items :
  NoDup (map i_id items) ->
  let cs := build_clusters items in
  Forall (sound_cluster items) cs /\ NoDup (clustered cs) /\
  (forall before anchor rest, items = before ++ anchor :: rest -> i_id anchor ∉ clustered cs ->
     (S (length (List.filter (joins anchor (list_to_set (clustered cs))) rest)) < MIN_CLUSTER_SIZE)%nat).
Proof.
  intros Hnd cs. destruct (build_clusters_sound ∅ items Hnd) as (H1 & H2 & _). split; [done|]. split; [done|].
  intros before anchor rest E Hn. eapply (build_clusters_maximal ∅ before anchor rest cs).
  - by rewrite <- E.
  - by rewrite (left_id_L ∅ (∪)).
  - by rewrite elem_of_list_to_set.
Qed.

Lemma entry_archivable days now m m' : entry m' = entry m -> archivable days now m' = archivable days now m.
Proof. unfold entry, archivable, confirmations, last_used. intros [= E1 E2 E3 E4 E5 E6 E7 E8 E9 E10]. by rewrite E4, E9, E10. Qed.

Lemma superseded_entry st m m' m'' : entry m' = entry m -> superseded_in st m' m'' -> superseded_in st m m''.
Proof. intros E (n & Hn & Hs & Hac & Hc). exists n. unfold entry in E. split; [done|]. split; [done|]. split; [done|]. congruence. Qed.

Lemma clustered_active cs st m : ready cs st -> m ∈ rows st -> m_id m ∈ clustered cs -> active m = true.
Proof.
  intros (_ & _ & _ & Hmg) Hm Hid. apply list_elem_of_In, in_concat in Hid as (l & Hl & Hid).
  apply in_map_iff in Hl as (c & <- & Hc). apply list_elem_of_In in Hc, Hid. by apply (Hmg c Hc).
Qed.

(** The clean-up keeps the knowledge it tidies. Whatever the model answers, and whether
    or not the merges succeed, ids stay unique, every row stays in the table with its
    text, the confirmations that retrieval can see keep their total, a row out of use
    is not touched, and a row in use stays in use, or is archived because it has no
    confirmation and is older and longer unused than [archive_days], or is superseded by
    a row in use of its category. *)
Theorem cleanup_loses_nothing invoke json_fields score differs staleness_days archive_days with_cwd clock st :
  well_formed st ->
  let st' := (auto_cleanup invoke json_fields score differs staleness_days archive_days with_cwd clock st).2 in
  well_formed st' /\ total st' = total st /\
  forall m, m ∈ rows st -> exists m', m' ∈ rows st' /\ entry m' = entry m /\
    if active m then
      active m' = true \/ m_archived m' = true /\ archivable archive_days (clock 2%nat) m = true \/ superseded_in st' m m'
    else m' = m.
Proof.
  intros Hwf. cbv zeta. unfold auto_cleanup.
  destruct (rescored score differs (clock 0%nat) st Hwf) as (Hwf1 & Htot1 & Hrows1).
  set (st1 := compute_health_scores _ _ _ st) in *.
  destruct (archived_rows archive_days (clock 2%nat) st1 Hwf1) as (Hwf2 & Htot2 & Hrows2).
  destruct (auto_archive archive_days (clock 2%nat) st1) as [n st2]. cbn [snd] in *.
  pose proof (found_ready st2 Hwf2) as Hready.
  pose proof (consolidate_all_merges invoke json_fields _ (fun k => clock (3 + k)%nat) st2 Hready) as Hall.
  assert (exists st3, (if with_cwd then consolidate_all invoke json_fields (find_consolidation_candidates st2) (fun k => clock (3 + k)%nat) st2
                       else (O, st2)).2 = st3 /\ well_formed st3 /\ total st3 = total st2 /\
          forall m, m ∈ rows st2 -> exists m', m' ∈ rows st3 /\ entry m' = entry m /\ (m' = m \/ active m = true /\ superseded_in st3 m m'))
    as (st3 & Est3 & Hwf3 & Htot3 & Hrows3).
  { destruct with_cwd.
    - eexists. split; [done|]. destruct Hall as (H1 & H2 & H3). split; [done|]. split; [done|].
      intros m Hm. destruct (H3 m Hm) as (m' & Hm' & E & Hf). exists m'. split; [done|]. split; [done|].
      destruct Hf as [Hf|[Hc Hf]]; [by left|]. right. split; [by eapply clustered_active|done].
    - exists st2. split; [done|]. split; [done|]. split; [done|]. intros m Hm. exists m. auto. }
  destruct (if with_cwd then _ else _) as [k st3']. cbn [snd] in Est3 |- *. subst st3'.
  split; [done|]. split; [congruence|]. intros m Hm.
  destruct (Hrows1 m Hm) as (m1 & Hm1 & E1 & Hac1 & Hsame1).
  destruct (Hrows2 m1 Hm1) as (m2 & Hm2 & E2 & Hf2).
  destruct (Hrows3 m2 Hm2) as (m3 & Hm3 & E3 & Hf3). exists m3. split; [done|]. split; [congruence|].
  destruct (active m) eqn:Hac.
  - destruct Hf3 as [->|[_ Hf3]]; [|right; right; eapply superseded_entry, Hf3; congruence].
    destruct Hf2 as [->|(_ & Har & Ha & _)]; [by left|]. right. left. split; [done|].
    by rewrite <- (entry_archivable _ _ m m1).
  - rewrite (Hsame1 eq_refl) in *. destruct Hf2 as [->|(H & _)]; [|congruence].
    destruct Hf3 as [->|(H & _)]; [done|congruence].
Qed.

(** A counter that is written is the counter that is read, in every text: one that has
    no counter, several, or the beginning of one. *)
Theorem counter_roundtrip content n k :
  parse_confirmation_counter (set_confirmation_counter content n) = Z.of_N n /\
  parse_confirmation_counter (set_confirmation_counter (set_confirmation_counter content n) k) = Z.of_N k /\
  (0 <= parse_confirmation_counter content)%Z.
Proof.
  split; [apply parse_set_counter|]. split; [apply parse_set_counter|].
  unfold parse_confirmation_counter. destruct (search _) eqn:E; [by eapply search_nonneg|done].
Qed.

(** The recency that a score measures is the time since the last write of the row, and
    storing the score is such a write: the entry did not change, and its age is zero. *)
Theorem recomputation_resets_recency score differs now st m :
  m ∈ rows st -> active m = true ->
  differs (m_health_score m) (score (confirmations m) (Z.max 0 (now - m_updated_at m)) (m_retrieval_count m)) = true ->
  exists m', m' ∈ rows (compute_health_scores score differs now st) /\ entry m' = entry m /\ m_updated_at m' = now.
Proof.
  intros Hm Hac Hd. eexists. split; [by apply in_update_rows|]. cbv beta zeta. by rewrite Hac, Hd.
Qed.

(** ** Witnesses *)

Definition a_memory (id : Z) (title content : string) : Memory :=
  {| m_id := id; m_category := "learning"; m_title := title; m_content := content; m_tags := "db, tests";
     m_repo := ""; m_tier := "project"; m_superseded_by := None; m_retrieval_count := 0; m_last_retrieved_at := None;
     m_archived := false; m_health_score := None; m_created_at := 1000; m_updated_at := 1000 |}.

Definition a_store : Store :=
  {| rows := [a_memory 1 "Use a fixture for the database" "one [confirmed: 2]";
              a_memory 2 "use a fixture for the database" "two [confirmed: 3]";
              a_memory 3 "Unused hint" "three";
              a_memory 4 "Use a fixture for the database in tests" "four [confirmed: 1] [confirmed: 9]"];
     next_id := 5 |}.

Definition a_cleanup : CleanupResult * Store :=
  auto_cleanup (fun _ => Some "```x```"%string) (fun _ => Some (None, Some "merged"%string)) (fun _ _ _ => 5000%Z)
    (fun _ _ => true) 90 30 true (fun k => (10000000 + Z.of_nat k)%Z) a_store.

Example a_cleanup_result :
  a_cleanup.1 = {| stale_flagged := 4; archived := 1; consolidated := 1 |} /\
  map (fun m => (m_id m, m_superseded_by m, m_archived m)) (rows a_cleanup.2) =
    [(1%Z, Some 5%Z, false); (2%Z, Some 5%Z, false); (3%Z, None, true); (4%Z, Some 5%Z, false); (5%Z, None, false)] /\
  map (fun m => (m_title m, m_tags m, confirmations m)) (active_rows a_cleanup.2) =
    [("Use a fixture for the database", "db,tests", 6%Z)]%string.
Proof. vm_compute. done. Qed.

Lemma a_store_well_formed : well_formed a_store.
Proof.
  split; [apply (bool_decide_unpack _); by vm_compute|].
  intros m Hm%list_elem_of_In. repeat destruct Hm as [<-|Hm]; cbn; lia || done.
Qed.

Lemma clusters_exact_witness :
  let cs := build_clusters (map item_of (rows a_store)) in
  map member_ids cs = [[1%Z; 2%Z; 4%Z]] /\ NoDup (clustered cs).
Proof.
  split; [by vm_compute|]. apply (clusters_exact (map item_of (rows a_store))).
  apply (bool_decide_unpack _). by vm_compute.
Defined.

Lemma cleanup_loses_nothing_witness : total a_cleanup.2 = total a_store.
Proof.
  apply (cleanup_loses_nothing (fun _ => Some "```x```"%string) (fun _ => Some (None, Some "merged"%string)) (fun _ _ _ => 5000%Z)
    (fun _ _ => true) 90 30 true (fun k => (10000000 + Z.of_nat k)%Z) a_store), a_store_well_formed.
Defined.
