(* ===== verification/DiffGuard.v ===== *)
(** * DiffGuard: reverts and downgrades that a rewritten branch brings in

    sova/core/pr_diff_guard.py, and the check of a finished command that runs it
    ([_check_pr_diff_guard] of dashboard/services/agent_db.py). Git is a parameter: a
    command that only reads answers from the repository as it is, [None] for a
    command that fails and an exception for one that cannot be started; a fetch may
    change the repository, whatever it answers. *)

From stdpp Require Import base gmap strings list pretty.
From Stdlib Require Import Ascii.
From S2P Require Import Prelude Fences.

Local Open Scope sova_scope.

(** ** The silent revert *)

(** [class GuardResult] *)
Record GuardResult := {
  ok : bool;
  reason : option string;
  files : gset string;
  inconclusive : bool;
  pre_merge_base : option string;
  post_merge_base : option string;
}.

Definition passed : GuardResult :=
  {| ok := true; reason := None; files := ∅; inconclusive := false; pre_merge_base := None; post_merge_base := None |}.

Definition could_not (reason : string) : GuardResult :=
  {| ok := false; reason := Some reason; files := ∅; inconclusive := true; pre_merge_base := None; post_merge_base := None |}.

(** [detect_reverted_files] *)
Definition detect_reverted_files (pre_run_files post_run_files base_changed_files : gset string) : gset string :=
  (post_run_files ∖ pre_run_files) ∩ base_changed_files.

(** [result.stdout.strip() or None] *)
Definition stripped_or_none (stdout : string) : option string :=
  let s := PyStr.strip stdout in if String.eqb s EmptyString then None else Some s.

Section Guard.
Context {Repo : Type}.
Variable git : Repo -> list string -> outcome (option string).
Variable fetch : Repo -> string -> outcome bool * Repo.

(** [get_merge_base] *)
Definition get_merge_base (repo : Repo) (base_ref head_ref : string) : outcome (option string) :=
  let? stdout := git repo ["merge-base"; base_ref; head_ref]%string in
  Ret (stdout ≫= stripped_or_none).

(** [diff_file_set] *)
Definition diff_file_set (repo : Repo) (from_ref to_ref : string) : outcome (option (gset string)) :=
  let? stdout := git repo ["diff"; "--name-only"; from_ref; to_ref]%string in
  Ret ((fun out => list_to_set (omap (fun l => stripped_or_none (PyStr.of_list l)) (PyStr.splitlines out))) <$> stdout).

(** [_blob_sha] *)
Definition blob_sha (repo : Repo) (ref path : string) : outcome (option string) :=
  let? stdout := git repo ["rev-parse"; ref ++ ":" ++ path]%string in
  Ret (stdout ≫= stripped_or_none).

(** [_confirm_content_reverted]: reverted, inconclusive. *)
Definition confirm_content_reverted (repo : Repo) (path head_ref pre_base base_ref : string) : outcome (bool * bool) :=
  let? head_blob := blob_sha repo head_ref path in
  match head_blob with
  | None => Ret (false, true)
  | Some head =>
      let? pre_blob := blob_sha repo pre_base path in
      match pre_blob with
      | None => Ret (false, false)
      | Some pre =>
          let? base_blob := blob_sha repo base_ref path in
          match base_blob with
          | None => Ret (true, false)
          | Some base => Ret (String.eqb head pre && negb (String.eqb head base), false)
          end
      end
  end.

(** [_commit_present_locally] *)
Definition commit_present_locally (repo : Repo) (sha : string) : outcome bool :=
  let? stdout := git repo ["cat-file"; "-e"; sha ++ "^{commit}"]%string in
  Ret (if stdout then true else false).

(** The loop over the candidates: the confirmed ones and the deleted ones. *)
Fixpoint classify (repo : Repo) (head_ref pre_base base_ref : string) (candidates : list string)
    : outcome (list string * list string) :=
  match candidates with
  | [] => Ret ([], [])
  | path :: candidates =>
      let? verdict := confirm_content_reverted repo path head_ref pre_base base_ref in
      let? rest := classify repo head_ref pre_base base_ref candidates in
      Ret (if verdict.2 then (rest.1, path :: rest.2)
           else if verdict.1 then (path :: rest.1, rest.2) else rest)
  end.

(** [check_silent_revert] from the fork points on. *)
Definition compare (repo : Repo) (base_branch pre_run_sha head_ref : string) : outcome GuardResult :=
  let base_ref := ("origin/" ++ base_branch)%string in
  let short := PyStr.slice_to 12 pre_run_sha in
  let? pre_base := get_merge_base repo base_ref pre_run_sha in
  match pre_base with
  | None => Ret (could_not ("could not resolve fork point for pre-run commit " ++ short))
  | Some pre_base =>
  let? post_base := get_merge_base repo base_ref head_ref in
  match post_base with
  | None => Ret (could_not ("could not resolve fork point for " ++ head_ref))
  | Some post_base =>
  let? pre_run_files := diff_file_set repo pre_base pre_run_sha in
  match pre_run_files with
  | None => Ret (could_not ("could not diff pre-run commit " ++ short ++ " against its fork point"))
  | Some pre_run_files =>
  let? post_run_files := diff_file_set repo post_base head_ref in
  match post_run_files with
  | None => Ret (could_not ("could not diff " ++ head_ref ++ " against its fork point"))
  | Some post_run_files =>
  let? base_changed_files := diff_file_set repo pre_base base_ref in
  match base_changed_files with
  | None => Ret (could_not ("could not diff " ++ base_ref ++ " against its fork point"))
  | Some base_changed_files =>
      let? found := classify repo head_ref pre_base base_ref
                      (sorted_strings (detect_reverted_files pre_run_files post_run_files base_changed_files)) in
      let result ok reason files inconclusive :=
        {| ok := ok; reason := reason; files := files; inconclusive := inconclusive;
           pre_merge_base := Some pre_base; post_merge_base := Some post_base |} in
      let '(confirmed, deleted) := found in
      Ret (match confirmed, deleted with
           | _ :: _, _ =>
               result false
                 (Some ("possible silent revert: " ++ PyStr.join ", " confirmed ++ " "
                        ++ (if (length confirmed =? 1)%nat then "was" else "were")
                        ++ " not part of this PR but changed by " ++ base_branch ++ " since the fork point")%string)
                 (list_to_set confirmed) false
           | [], _ :: _ =>
               result false (Some ("branch deleted " ++ PyStr.join ", " deleted ++ ", which " ++ base_branch ++ " also changed")%string)
                 ∅ true
           | [], [] => result true None ∅ false
           end)
  end end end end end.

(** [check_silent_revert], with the repository that the fetches leave. *)
Definition check_silent_revert (repo : Repo) (base_branch pre_run_sha head_ref : string) : outcome GuardResult * Repo :=
  let '(fetched, repo) := fetch repo base_branch in
  match fetched with
  | Raise e => (Raise e, repo)
  | Ret false => (Ret (could_not ("could not fetch origin/" ++ base_branch ++ " to verify the diff")), repo)
  | Ret true =>
      match commit_present_locally repo pre_run_sha with
      | Raise e => (Raise e, repo)
      | Ret true => (compare repo base_branch pre_run_sha head_ref, repo)
      | Ret false =>
          let '(fetched, repo) := if String.eqb head_ref "HEAD" then (Ret true, repo) else fetch repo head_ref in
          (let? _ := fetched in
           let? present := commit_present_locally repo pre_run_sha in
           if present then compare repo base_branch pre_run_sha head_ref else Ret passed, repo)
      end
  end.
End Guard.

(** ** Pin downgrades *)

(** [class PinDowngrade] *)
Record PinDowngrade := { d_file : string; d_package : string; from_version : string; to_version : string }.

(** A removed or an added version on a line of a diff, with the name when the pattern has one. *)
Record PinLine := { added_line : bool; pin_name : option string; pin_version : string }.

(** The three patterns a dependency file is read with. *)
Inductive Pattern := PYTHON_REQUIREMENT | NPM_LOCK | PACKAGE_JSON_DEP.

Definition dquote : ascii := "034"%char.
Definition is_alnum (c : ascii) : bool := Fences.is_letter c || PyStr.is_digit c.
Definition one_of (cs : string) (c : ascii) : bool := existsb (Ascii.eqb c) (PyStr.to_list cs).

(** [(?P<marker>[+-])\s*] *)
Definition marked (l : list ascii) : option (bool * list ascii) :=
  match l with
  | c :: l => if one_of "+-" c then Some (Ascii.eqb c "+"%char, PyStr.drop_while PyStr.is_space l) else None
  | [] => None
  end.

(** A quoted text, which is not empty: the text, and what follows it. *)
Definition quoted (l : list ascii) : option (list ascii * list ascii) :=
  match l with
  | c :: l =>
      if Ascii.eqb c dquote then
        let inside := fun c => negb (Ascii.eqb c dquote) in
        match PyStr.take_while inside l, PyStr.drop_while inside l with
        | (_ :: _) as key, _ :: rest => Some (key, rest)
        | _, _ => None
        end
      else None
  | [] => None
  end.

(** [_PYTHON_REQUIREMENT_RE] *)
Definition match_requirement (l : list ascii) : option PinLine :=
  match marked l with
  | None => None
  | Some (added, l) =>
      let l := match l with c :: l' => if Ascii.eqb c dquote || Ascii.eqb c "'"%char then l' else l | [] => [] end in
      let name_char := fun c => is_alnum c || one_of "._-" c in
      let version_char := fun c => is_alnum c || one_of ".!+*-" c in
      match l with
      | c :: _ =>
          if is_alnum c then
            match PyStr.after_literal (PyStr.to_list "==") (PyStr.drop_while PyStr.is_space (PyStr.drop_while name_char l)) with
            | None => None
            | Some rest =>
                match PyStr.take_while version_char (PyStr.drop_while PyStr.is_space rest) with
                | [] => None
                | version => Some {| added_line := added; pin_name := Some (PyStr.of_list (PyStr.take_while name_char l));
                                     pin_version := PyStr.of_list version |}
                end
            end
          else None
      | [] => None
      end
  end.

(** A key and the colon and blanks after it. *)
Definition json_key (l : list ascii) : option (list ascii * list ascii) :=
  match quoted l with
  | Some (key, c :: rest) => if Ascii.eqb c ":"%char then Some (key, PyStr.drop_while PyStr.is_space rest) else None
  | _ => None
  end.

(** [_NPM_LOCK_RE] *)
Definition match_npm_lock (l : list ascii) : option PinLine :=
  match marked l with
  | None => None
  | Some (added, l) =>
      match json_key l with
      | Some (key, rest) =>
          if String.eqb (PyStr.of_list key) "version" then
            match quoted rest with
            | Some (version, _) => Some {| added_line := added; pin_name := None; pin_version := PyStr.of_list version |}
            | None => None
            end
          else None
      | None => None
      end
  end.

(** [_PACKAGE_JSON_DEP_RE] *)
Definition match_package_json (l : list ascii) : option PinLine :=
  match marked l with
  | None => None
  | Some (added, l) =>
      match json_key l with
      | Some (key, rest) =>
          match quoted rest with
          | Some (value, _) =>
              let drop_one c (l : list ascii) := match l with d :: l' => if Ascii.eqb d c then l' else l | [] => [] end in
              match drop_one "~"%char (drop_one "^"%char value) with
              | (c :: _) as version =>
                  if PyStr.is_digit c
                  then Some {| added_line := added; pin_name := Some (PyStr.of_list key); pin_version := PyStr.of_list version |}
                  else None
              | [] => None
              end
          | None => None
          end
      | None => None
      end
  end.

Definition match_pin (p : Pattern) : list ascii -> option PinLine :=
  match p with
  | PYTHON_REQUIREMENT => match_requirement
  | NPM_LOCK => match_npm_lock
  | PACKAGE_JSON_DEP => match_package_json
  end.

(** [_LOCKFILE_KEY_OPEN_RE]: the key of the object that a line opens. *)
Definition opened_key (l : list ascii) : option string :=
  match l with
  | c :: l =>
      if one_of " +-" c then
        match json_key (PyStr.drop_while PyStr.is_space l) with
        | Some (key, c :: rest) =>
            if Ascii.eqb c "{"%char && forallb PyStr.is_space rest then Some (PyStr.of_list key) else None
        | _ => None
        end
      else None
  | [] => None
  end.

Local Open Scope string_scope.

Definition LOCKFILE_CONTAINER_KEYS : list string :=
  ["packages"; "dependencies"; "devDependencies"; "optionalDependencies"; "peerDependencies"; "engines"].

Definition PACKAGE_JSON_METADATA_KEYS : list string :=
  ["name"; "version"; "engines"; "node"; "npm"; "main"; "module"; "license"; "private"; "packageManager"].

Definition PYTHON_DEP_FILES : list string := ["requirements.txt"; "requirements-dev.txt"; "pyproject.toml"].
Definition NPM_DEP_FILES : list string := ["package.json"; "package-lock.json"].

Local Close Scope string_scope.

(** [s.rsplit(sep, 1)[-1]]: what follows the last occurrence of the separator. *)
Fixpoint after_last (sep l : list ascii) : option (list ascii) :=
  match l with
  | [] => None
  | _ :: l' => match after_last sep l' with
               | Some rest => Some rest
               | None => PyStr.after_literal sep l
               end
  end.

Definition rsplit_last (sep s : string) : string :=
  PyStr.of_list (default (PyStr.to_list s) (after_last (PyStr.to_list sep) (PyStr.to_list s))).

(** [_lockfile_package_name] *)
Definition lockfile_package_name (key : string) : string := rsplit_last "node_modules/" key.

(** A name, the removed version and the added one. *)
Definition Pin : Type := option string * option string * option string.

(** The state of the loop of [_parse_pin_lines_positional]. *)
Record Positional := { pairs : list Pin; pending : gmap (option string) string; current_key : option string }.

Definition positional_step (p : Pattern) (st : Positional) (l : list ascii) : Positional :=
  match opened_key l with
  | Some key => {| pairs := pairs st; pending := pending st; current_key := Some key |}
  | None =>
      match match_pin p l with
      | None => st
      | Some pin =>
          if bool_decide (current_key st ∈ Some <$> LOCKFILE_CONTAINER_KEYS) then st
          else if added_line pin then
            match pending st !! current_key st with
            | None => st
            | Some removed =>
                {| pairs := pairs st ++ [(lockfile_package_name <$> current_key st, Some removed, Some (pin_version pin))];
                   pending := delete (current_key st) (pending st); current_key := current_key st |}
            end
          else {| pairs := pairs st; pending := <[current_key st := pin_version pin]> (pending st); current_key := current_key st |}
      end
  end.

(** [_parse_pin_lines_positional] *)
Definition parse_pin_lines_positional (diff_text : string) (p : Pattern) : list Pin :=
  pairs (foldl (positional_step p) {| pairs := []; pending := ∅; current_key := None |} (PyStr.splitlines diff_text)).

(** The state of the loop of [_parse_pin_lines_named]. *)
Record Named := { removed_by_name : gmap string (list string); added_by_name : gmap string (list string); name_order : list string }.

Definition bucket (m : gmap string (list string)) (name : string) : list string := default [] (m !! name).

Definition named_step (p : Pattern) (st : Named) (l : list ascii) : Named :=
  match match_pin p l with
  | None => st
  | Some pin =>
      let name := default EmptyString (pin_name pin) in
      let order := match removed_by_name st !! name, added_by_name st !! name with
                   | None, None => name_order st ++ [name]
                   | _, _ => name_order st
                   end in
      let push m := <[name := bucket m name ++ [pin_version pin]]> m in
      if added_line pin
      then {| removed_by_name := removed_by_name st; added_by_name := push (added_by_name st); name_order := order |}
      else {| removed_by_name := push (removed_by_name st); added_by_name := added_by_name st; name_order := order |}
  end.

(** [_parse_pin_lines_named] *)
Definition parse_pin_lines_named (diff_text : string) (p : Pattern) : list Pin :=
  let st := foldl (named_step p) {| removed_by_name := ∅; added_by_name := ∅; name_order := [] |} (PyStr.splitlines diff_text) in
  concat (map (fun name => zip_with (fun r a => (Some name, Some r, Some a))
                             (bucket (removed_by_name st) name) (bucket (added_by_name st) name)) (name_order st)).

(** [_parse_pin_lines] *)
Definition parse_pin_lines (path diff_text : string) (p : Pattern) : list Pin :=
  let pins := match p with NPM_LOCK => parse_pin_lines_positional | _ => parse_pin_lines_named end diff_text p in
  if PyStr.endswith path "package.json"
  then List.filter (fun pin => negb (bool_decide (pin.1.1 ∈ Some <$> PACKAGE_JSON_METADATA_KEYS))) pins
  else pins.

(** [_is_python_dep_file], [_is_npm_dep_file], [_pattern_for_dep_file] *)
Definition is_python_dep_file (path : string) : bool :=
  let name := rsplit_last "/" path in
  bool_decide (name ∈ PYTHON_DEP_FILES) || PyStr.startswith name "requirements".

Definition is_npm_dep_file (path : string) : bool := bool_decide (rsplit_last "/" path ∈ NPM_DEP_FILES).

Definition pattern_for_dep_file (path : string) : option Pattern :=
  if is_python_dep_file path then Some PYTHON_REQUIREMENT
  else if is_npm_dep_file path then
    if PyStr.endswith path "package.json" then Some PACKAGE_JSON_DEP else Some NPM_LOCK
  else None.

(** The numeric parts of a version, split at [.], [+] and [-]. *)
Fixpoint split_by (f : ascii -> bool) (l : list ascii) : list (list ascii) :=
  match l with
  | [] => [[]]
  | c :: l =>
      if f c then [] :: split_by f l
      else match split_by f l with
           | w :: ws => (c :: w) :: ws
           | [] => [[c]]
           end
  end.

Definition version_tuple (v : string) : list Z :=
  omap (fun part => if forallb PyStr.is_digit part then PyStr.digits_val 0 false part else None)
    (split_by (one_of ".+-") (PyStr.to_list v)).

Section Pins.
(** [Version(a) < Version(b)] of the packaging library; [None] when the library is
    missing or one of the versions is invalid. *)
Variable version_lt : string -> string -> option bool.

(** [_compare_versions] *)
Definition compare_versions (removed added : string) : option bool :=
  match version_lt added removed with
  | Some older => Some older
  | None =>
      match version_tuple removed, version_tuple added with
      | [], _ | _, [] => None
      | removed_t, added_t => Some (negb (lex_leb removed_t added_t))
      end
  end.

(** [_downgrades_in_pins] *)
Definition downgrade_of (path : string) (pin : Pin) : option PinDowngrade :=
  match pin with
  | (name, Some removed, Some added) =>
      if String.eqb removed added then None
      else match compare_versions removed added with
           | Some true => Some {| d_file := path;
                                  d_package := match name with Some ((String _ _) as n) => n | _ => "<lockfile entry>"%string end;
                                  from_version := removed; to_version := added |}
           | _ => None
           end
  | _ => None
  end.

Definition downgrades_in_pins (path : string) (pins : list Pin) : list PinDowngrade := omap (downgrade_of path) pins.

Context {Repo : Type}.
Variable git : Repo -> list string -> outcome (option string).

(** [_pin_downgrades_for_file] *)
Definition pin_downgrades_for_file (repo : Repo) (from_ref to_ref path : string) (p : Pattern) : outcome (list PinDowngrade * bool) :=
  let? stdout := git repo ["diff"; from_ref; to_ref; "--"; path]%string in
  Ret (match stdout with
       | None => ([], true)
       | Some diff_text => (downgrades_in_pins path (parse_pin_lines path diff_text p), false)
       end).

Fixpoint pin_downgrades_for_files (repo : Repo) (from_ref to_ref : string) (paths : list string) : outcome (list PinDowngrade * bool) :=
  match paths with
  | [] => Ret ([], false)
  | path :: paths =>
      match pattern_for_dep_file path with
      | None => pin_downgrades_for_files repo from_ref to_ref paths
      | Some p =>
          let? file := pin_downgrades_for_file repo from_ref to_ref path p in
          let? rest := pin_downgrades_for_files repo from_ref to_ref paths in
          Ret (file.1 ++ rest.1, file.2 || rest.2)
      end
  end.

(** [check_pin_downgrades]: the downgrades, and whether the scan could not be trusted. *)
Definition check_pin_downgrades (repo : Repo) (from_ref to_ref : string) : outcome (list PinDowngrade * bool) :=
  let? changed := diff_file_set git repo from_ref to_ref in
  match changed with
  | None => Ret ([], true)
  | Some changed => pin_downgrades_for_files repo from_ref to_ref (sorted_strings changed)
  end.

End Pins.

(** ** The check of a finished command *)

(** [class OutcomeValidation] *)
Record OutcomeValidation := { failure_reason : option string; network_blocked : bool }.

Definition VALID : OutcomeValidation := {| failure_reason := None; network_blocked := false |}.

(** The fields of [AgentState] that the check reads. *)
Record Agent := {
  pre_run_sha : option string;
  pre_run_head_sha : option string;
  pr_number : option Z;
  prompt : string;
  issue : option string;
}.

(** [_is_pin_downgrade_exempted] *)
Definition is_pin_downgrade_exempted (d : PinDowngrade) (exemption_text : string) : bool :=
  if String.eqb exemption_text EmptyString then false
  else
    let lowered := PyStr.lower exemption_text in
    if negb (PyStr.contains lowered (PyStr.lower (d_file d))) then false
    else if String.eqb (d_package d) "<lockfile entry>" then true
    else PyStr.contains lowered (PyStr.lower (d_package d)).

(** [_resolve_pin_downgrade_exemption_text], from the text of the issue's spec and the
    body of its task; an exception of either lookup leaves its text out. *)
Definition resolve_pin_downgrade_exemption_text (agent : Agent) (spec body : outcome (option string)) : string :=
  let some_text (t : outcome (option string)) :=
    match t with Ret (Some ((String _ _) as s)) => [s] | _ => [] end in
  PyStr.join (PyStr.of_list ["010"%char])
    (some_text (Ret (Some (prompt agent)))
     ++ match issue agent with
        | Some (String _ _) => some_text spec ++ some_text body
        | _ => []
        end).

(** The branch and the base named by the pull request: [None] when GitHub could not be reached. *)
Definition refs_of (agent : Agent) (base_branch : string) (fields : option string * bool) : option (string * string) :=
  match pr_number agent with
  | None | Some 0%Z => Some ("HEAD", base_branch)%string
  | Some _ =>
      match fields with
      | (Some f, _) =>
          let parts := map PyStr.of_list (split_by (Ascii.eqb "009"%char) (PyStr.to_list f)) in
          let or_else s d := if String.eqb s EmptyString then d else s in
          Some (or_else (default EmptyString (parts !! 0%nat)) "HEAD"%string,
                or_else (default EmptyString (parts !! 1%nat)) base_branch)
      | (None, true) => None
      | (None, false) => Some ("HEAD", base_branch)%string
      end
  end.

Section Check.
Variable version_lt : string -> string -> option bool.
Context {Repo : Type}.
Variable git : Repo -> list string -> outcome (option string).
Variable fetch : Repo -> string -> outcome bool * Repo.

(** What the [try] of [_check_pr_diff_guard] ends with: a verdict, or the downgrades
    that the run introduced. *)
Definition guard_body (cmd_name baseline_sha head_ref base_branch : string) (repo : Repo)
    : outcome (OutcomeValidation + list PinDowngrade) :=
  let '(revert, repo) := check_silent_revert git fetch repo base_branch baseline_sha head_ref in
  let? revert_result := revert in
  if negb (ok revert_result) then
    Ret (inl {| failure_reason := Some (cmd_name ++ " " ++ default "None" (reason revert_result))%string;
                network_blocked := inconclusive revert_result |})
  else
    match pre_merge_base revert_result, post_merge_base revert_result with
    | Some pre_base, Some post_base =>
        let? pre_run := check_pin_downgrades version_lt git repo pre_base baseline_sha in
        let? post_run := check_pin_downgrades version_lt git repo post_base head_ref in
        if pre_run.2 || post_run.2 then
          Ret (inl {| failure_reason := Some (cmd_name ++ " outcome unverified: could not diff dependency pin changes")%string;
                      network_blocked := true |})
        else
          let pre_keys := map (fun d => (d_file d, d_package d)) pre_run.1 in
          Ret (inr (List.filter (fun d => negb (bool_decide ((d_file d, d_package d) ∈ pre_keys))) post_run.1))
    | _, _ => Ret (inl VALID)
    end.

(** [_check_pr_diff_guard]; [config] is the base branch of the configuration, [fields] the
    answer of GitHub for the pull request. *)
Definition check_pr_diff_guard (cmd_name : string) (agent : Agent) (config : outcome string) (fields : option string * bool)
    (exemption_text : string) (repo : Repo) : OutcomeValidation :=
  match match pre_run_sha agent with Some sha => Some sha | None => pre_run_head_sha agent end with
  | None => VALID
  | Some baseline_sha =>
      match (let? base_branch := config in
             match refs_of agent base_branch fields with
             | None => Ret (inl {| failure_reason := Some (cmd_name ++ " could not fetch PR #" ++ pretty (default 0%Z (pr_number agent))
                                                          ++ " branch info to verify the diff")%string;
                                   network_blocked := true |})
             | Some (head_ref, base_branch) => guard_body cmd_name baseline_sha head_ref base_branch repo
             end) with
      | Raise _ => VALID
      | Ret (inl verdict) => verdict
      | Ret (inr downgrades) =>
          match List.filter (fun d => negb (is_pin_downgrade_exempted d exemption_text)) downgrades with
          | [] => VALID
          | unexempted =>
              {| failure_reason :=
                   Some (cmd_name ++ " introduced a dependency pin downgrade: "
                         ++ PyStr.join ", " (map (fun d => d_package d ++ " " ++ from_version d ++ "->" ++ to_version d
                                                            ++ " in " ++ d_file d) unexempted))%string;
                 network_blocked := false |}
          end
      end
  end.
End Check.

(** *** Examples *)

Definition text_of (lines : list string) : string := PyStr.join (PyStr.of_list ["010"%char]) lines.

Example requirement_pins :
  parse_pin_lines "requirements.txt" (text_of ["@@"; "-a==2.0"; "+a == 1.9"; " b==1"; "- 'c-d'=='"; "+c==3"]%string) PYTHON_REQUIREMENT
  = [(Some "a", Some "2.0", Some "1.9")]%string.
Proof. vm_compute. done. Qed.
Example swapped_entries :
  let q := PyStr.of_list [dquote] in
  let key k := (q ++ k ++ q ++ ": {")%string in
  let version m v := (m ++ "  " ++ q ++ "version" ++ q ++ ": " ++ q ++ v ++ q ++ ",")%string in
  parse_pin_lines "package-lock.json"
    (text_of [("-" ++ key "node_modules/a")%string; version "-" "2.0.0"; ("+" ++ key "node_modules/b")%string; version "+" "1.0.0";
              (" " ++ key "node_modules/x/node_modules/c")%string; version "-" "3.1.0"; version "+" "3.0.0"]) NPM_LOCK
  = [(Some "c", Some "3.1.0", Some "3.0.0")]%string.
Proof. vm_compute. done. Qed.

(** ** The silent revert: lemmas *)

Lemma obind_Ret {A B} (m : outcome A) (k : A -> outcome B) b : obind m k = Ret b <-> exists a, m = Ret a /\ k a = Ret b.
Proof.
  destruct m as [a|e]; cbn; [|by split; [|intros (? & [=] & _)]].
  split; [by exists a|by intros (a' & [= ->] & ?)].
Qed.

Section Reverts.
Context {Repo : Type} (git : Repo -> list string -> outcome (option string)) (fetch : Repo -> string -> outcome bool * Repo).

(** The content of the path at the head is the one of the fork point, which the base has
    since replaced; or the base has no content for it any more. *)
Definition reverted (repo : Repo) (head_ref pre_base base_ref path : string) : Prop :=
  exists head pre, blob_sha git repo head_ref path = Ret (Some head) /\ blob_sha git repo pre_base path = Ret (Some pre) /\
    (blob_sha git repo base_ref path = Ret None \/
     head = pre /\ exists base, blob_sha git repo base_ref path = Ret (Some base) /\ base <> head).

Definition deleted (repo : Repo) (head_ref path : string) : Prop := blob_sha git repo head_ref path = Ret None.

Lemma confirm_spec repo path head_ref pre_base base_ref r i :
  confirm_content_reverted git repo path head_ref pre_base base_ref = Ret (r, i) ->
  (r = true <-> reverted repo head_ref pre_base base_ref path) /\ (i = true <-> deleted repo head_ref path) /\
  (i = true -> r = false).
Proof.
  unfold confirm_content_reverted, reverted, deleted.
  destruct (blob_sha git repo head_ref path) as [[head|]|e]; cbn [obind]; [|by intros [= <- <-]; naive_solver|done].
  destruct (blob_sha git repo pre_base path) as [[pre|]|e]; cbn [obind]; [|by intros [= <- <-]; naive_solver|done].
  destruct (blob_sha git repo base_ref path) as [[base|]|e]; cbn [obind]; [|by intros [= <- <-]; naive_solver|done].
  intros [= <- <-]. rewrite andb_true_iff, negb_true_iff, String.eqb_eq, String.eqb_neq. naive_solver.
Qed.

Lemma classify_spec repo head_ref pre_base base_ref l c d :
  classify git repo head_ref pre_base base_ref l = Ret (c, d) ->
  forall path, (path ∈ c <-> path ∈ l /\ reverted repo head_ref pre_base base_ref path) /\
               (path ∈ d <-> path ∈ l /\ deleted repo head_ref path).
Proof.
  revert c d. induction l as [|p l IH]; intros c d; cbn [classify].
  - intros [= <- <-] path. set_solver.
  - intros ([r i] & Hp & ([c' d'] & Hl & [= E])%obind_Ret)%obind_Ret path.
    apply confirm_spec in Hp as (Hr & Hi & Hir). specialize (IH c' d' Hl path). destruct IH as [IHc IHd]. cbn in E.
    destruct i; [|destruct r]; injection E as <- <-; rewrite ?elem_of_cons, ?IHc, ?IHd; naive_solver.
Qed.

(** The five readings of the repository: fork points and sets of files. *)
Definition readings (repo : Repo) (base_branch sha head_ref pb qb : string) (f1 f2 f3 : gset string) : Prop :=
  let base_ref := ("origin/" ++ base_branch)%string in
  get_merge_base git repo base_ref sha = Ret (Some pb) /\ get_merge_base git repo base_ref head_ref = Ret (Some qb) /\
  diff_file_set git repo pb sha = Ret (Some f1) /\ diff_file_set git repo qb head_ref = Ret (Some f2) /\
  diff_file_set git repo pb base_ref = Ret (Some f3).

(** The verdict of a comparison whose readings all succeed. *)
Definition verdict_on (repo : Repo) (base_branch head_ref pb qb : string) (candidates : gset string) (g : GuardResult) : Prop :=
  let base_ref := ("origin/" ++ base_branch)%string in
  pre_merge_base g = Some pb /\ post_merge_base g = Some qb /\
  (forall path, path ∈ files g <-> path ∈ candidates /\ reverted repo head_ref pb base_ref path) /\
  (ok g = true <-> forall path, path ∈ candidates -> ~ reverted repo head_ref pb base_ref path /\ ~ deleted repo head_ref path) /\
  (ok g = true -> inconclusive g = false) /\
  (ok g = false -> if inconclusive g then files g = ∅ else files g <> ∅).

Lemma compare_spec repo base_branch sha head_ref g :
  compare git repo base_branch sha head_ref = Ret g ->
  (exists pb qb f1 f2 f3, readings repo base_branch sha head_ref pb qb f1 f2 f3 /\
     verdict_on repo base_branch head_ref pb qb (detect_reverted_files f1 f2 f3) g) \/
  (forall pb qb f1 f2 f3, ~ readings repo base_branch sha head_ref pb qb f1 f2 f3) /\ exists reason, g = could_not reason.
Proof.
  unfold compare, readings.
  intros ([pb|] & E1 & H)%obind_Ret; [|right; injection H as <-; split; [intros * (?&?&?&?&?); congruence|by eexists]].
  apply obind_Ret in H as ([qb|] & E2 & H); [|right; injection H as <-; split; [intros * (?&?&?&?&?); congruence|by eexists]].
  apply obind_Ret in H as ([f1|] & E3 & H); [|right; injection H as <-; split; [intros * (?&?&?&?&?); congruence|by eexists]].
  apply obind_Ret in H as ([f2|] & E4 & H); [|right; injection H as <-; split; [intros * (?&?&?&?&?); congruence|by eexists]].
  apply obind_Ret in H as ([f3|] & E5 & H); [|right; injection H as <-; split; [intros * (?&?&?&?&?); congruence|by eexists]].
  apply obind_Ret in H as ([c d] & Hc & H). left. exists pb, qb, f1, f2, f3. split; [done|].
  pose proof (classify_spec _ _ _ _ _ _ _ Hc) as Hspec. setoid_rewrite elem_of_sorted_strings in Hspec.
  unfold verdict_on. destruct c as [|p c]; [destruct d as [|p d]|]; injection H as <-;
    cbn [pre_merge_base post_merge_base ok inconclusive files].
  - split; [done|]. split; [done|]. split; [set_solver|]. split; [|done]. split; [|done]. intros _ path Hp. set_solver.
  - split; [done|]. split; [done|]. split; [set_solver|]. split; [|done]. split; [done|].
    intros Hall. destruct (proj1 (proj2 (Hspec p)) ltac:(set_solver)) as [Hp Hdel]. by destruct (Hall p Hp).
  - split; [done|]. split; [done|]. split; [set_solver|]. split; [|split; [done|set_solver]]. split; [done|].
    intros Hall. destruct (proj1 (proj1 (Hspec p)) ltac:(set_solver)) as [Hp Hrev]. by destruct (Hall p Hp).
Qed.

(** A confirmed revert is what a failed and conclusive check reports. *)
Lemma accused_files repo base_branch sha head_ref g repo' :
  check_silent_revert git fetch repo base_branch sha head_ref = (Ret g, repo') ->
  (ok g = true -> files g = ∅ /\ inconclusive g = false) /\
  (ok g = false -> if inconclusive g then files g = ∅ else files g <> ∅).
Proof.
  assert (forall repo, compare git repo base_branch sha head_ref = Ret g ->
            (ok g = true -> files g = ∅ /\ inconclusive g = false) /\
            (ok g = false -> if inconclusive g then files g = ∅ else files g <> ∅)) as Hcmp.
  { intros r [(pb & qb & f1 & f2 & f3 & _ & _ & _ & Hf & Hok & Hi & Hb)|(_ & w & ->)]%compare_spec; [|done].
    split; [|done]. intros E. split; [|by apply Hi]. apply set_eq. intros path. rewrite Hf.
    pose proof (proj1 Hok E path). set_solver. }
  unfold check_silent_revert. destruct (fetch repo base_branch) as [[[]|e] r1]; [|by intros [= <- <-]|done].
  destruct (commit_present_locally _ _ _) as [[]|e]; [by intros [= E _]; eapply Hcmp| |done].
  destruct (if String.eqb head_ref "HEAD" then _ else _) as [o r2]. intros [= E _].
  apply obind_Ret in E as (u & _ & ([] & _ & E)%obind_Ret); [by eapply Hcmp|by injection E as <-].
Qed.
End Reverts.

(** ** Pin downgrades: lemmas *)

(** The key of the object that the last line opening one opens. *)
Definition last_key (lines : list (list ascii)) : option string :=
  foldl (fun k l => match opened_key l with Some key => Some key | None => k end) None lines.

Definition removes (p : Pattern) (l : list ascii) (v : string) : Prop :=
  exists name, match_pin p l = Some {| added_line := false; pin_name := name; pin_version := v |}.
Definition adds (p : Pattern) (l : list ascii) (v : string) : Prop :=
  exists name, match_pin p l = Some {| added_line := true; pin_name := name; pin_version := v |}.

(** A line that removes the version, under the given key. *)
Definition removed_under (p : Pattern) (lines : list (list ascii)) (k : option string) (v : string) : Prop :=
  exists a l b, lines = a ++ l :: b /\ last_key a = k /\ removes p l v.

(** A removal, and later an addition under the same key, which is not a container. *)
Definition replaced_under (p : Pattern) (lines : list (list ascii)) (k : option string) (removed added : string) : Prop :=
  exists before l after, lines = before ++ l :: after /\ removed_under p before k removed /\ last_key before = k /\
    adds p l added /\ k ∉ Some <$> LOCKFILE_CONTAINER_KEYS.

Lemma removed_snoc p lines l k v : removed_under p lines k v -> removed_under p (lines ++ [l]) k v.
Proof. intros (a & x & b & -> & H). exists a, x, (b ++ [l]). by rewrite <- app_assoc. Qed.

Lemma replaced_snoc p lines l k r a : replaced_under p lines k r a -> replaced_under p (lines ++ [l]) k r a.
Proof. intros (a' & x & b & -> & H). exists a', x, (b ++ [l]). by rewrite <- app_assoc. Qed.

Definition positional_of (p : Pattern) (lines : list (list ascii)) : Positional :=
  foldl (positional_step p) {| pairs := []; pending := ∅; current_key := None |} lines.

Lemma positional_spec p lines :
  let st := positional_of p lines in
  current_key st = last_key lines /\
  (forall k v, pending st !! k = Some v -> removed_under p lines k v) /\
  (forall pin, pin ∈ pairs st -> exists k r a, pin = (lockfile_package_name <$> k, Some r, Some a) /\ replaced_under p lines k r a).
Proof.
  induction lines as [|l lines (IHk & IHp & IHpairs)] using rev_ind; [split; [done|]; split; [done|by intros ? ?%not_elem_of_nil]|].
  cbv zeta. unfold positional_of, last_key. rewrite !foldl_app. cbn [foldl].
  fold (positional_of p lines) (last_key lines). set (st := positional_of p lines) in *.
  assert (forall k v, pending st !! k = Some v -> removed_under p (lines ++ [l]) k v) as Hp by (intros; by apply removed_snoc, IHp).
  assert (forall pin, pin ∈ pairs st -> exists k r a, pin = (lockfile_package_name <$> k, Some r, Some a) /\
            replaced_under p (lines ++ [l]) k r a) as Hpairs.
  { intros pin (k & r & a & -> & H)%IHpairs. exists k, r, a. split; [done|]. by apply replaced_snoc. }
  unfold positional_step. destruct (opened_key l) as [key|] eqn:Ek; [done|].
  destruct (match_pin p l) as [[added name v]|] eqn:Em; [|done]. case_bool_decide as Hc; [done|].
  cbn [added_line pin_version]. destruct added.
  - destruct (pending st !! current_key st) as [r|] eqn:Er; [|done]. cbn [current_key pending pairs]. split; [done|]. split.
    + intros k v' [_ H]%lookup_delete_Some. auto.
    + intros pin [H|H%list_elem_of_singleton]%elem_of_app; [auto|]. exists (current_key st), r, v. split; [done|].
      exists lines, l, []. split; [done|]. split; [by apply IHp|]. split; [done|]. split; [by exists name|done].
  - cbn [current_key pending pairs]. split; [done|]. split; [|done].
    intros k v' [[<- <-]|[_ H]]%lookup_insert_Some; [|auto].
    exists lines, l, []. split; [done|]. split; [done|]. by exists name.
Qed.

(** The named pairing. *)
Definition named_of (p : Pattern) (lines : list (list ascii)) : Named :=
  foldl (named_step p) {| removed_by_name := ∅; added_by_name := ∅; name_order := [] |} lines.

Definition named_line (p : Pattern) (lines : list (list ascii)) (added : bool) (name v : string) : Prop :=
  exists l, l ∈ lines /\ exists n, default EmptyString n = name /\
    match_pin p l = Some {| added_line := added; pin_name := n; pin_version := v |}.

Lemma bucket_insert m name v name' x :
  x ∈ bucket (<[name := bucket m name ++ [v]]> m) name' -> x ∈ bucket m name' \/ name' = name /\ x = v.
Proof.
  unfold bucket at 1. destruct (decide (name = name')) as [<-|Hn].
  - rewrite lookup_insert_eq. cbn. rewrite elem_of_app, list_elem_of_singleton. naive_solver.
  - rewrite lookup_insert_ne by done. auto.
Qed.

Lemma named_spec p lines name v :
  (v ∈ bucket (removed_by_name (named_of p lines)) name -> named_line p lines false name v) /\
  (v ∈ bucket (added_by_name (named_of p lines)) name -> named_line p lines true name v).
Proof.
  assert (forall added l name v lines, named_line p lines added name v -> named_line p (lines ++ [l]) added name v) as Hsnoc.
  { intros added l n x ls (l' & Hl & H). exists l'. split; [apply elem_of_app; by left|done]. }
  induction lines as [|l lines [IHr IHa]] using rev_ind; [by split; intros ?%not_elem_of_nil|].
  unfold named_of. rewrite !foldl_app. cbn [foldl]. fold (named_of p lines). set (st := named_of p lines) in *.
  unfold named_step. destruct (match_pin p l) as [[added n x]|] eqn:Em; [|by split; auto]. cbn [added_line pin_name pin_version].
  assert (named_line p (lines ++ [l]) added (default EmptyString n) x) as Hl.
  { exists l. split; [apply elem_of_app; right; by constructor|]. by exists n. }
  destruct added; cbn [removed_by_name added_by_name]; split; auto;
    intros [H|[-> ->]]%bucket_insert; auto.
Qed.

(** The evidence of a pair in a diff: for a lockfile a replacement under one key, and
    for the other files a removal and an addition of one name. *)
Definition pin_evidence (p : Pattern) (lines : list (list ascii)) (name : option string) (removed added : string) : Prop :=
  match p with
  | NPM_LOCK => exists k, name = lockfile_package_name <$> k /\ replaced_under p lines k removed added
  | _ => exists n, name = Some n /\ named_line p lines false n removed /\ named_line p lines true n added
  end.

Lemma parse_evidence path diff_text p pin :
  pin ∈ parse_pin_lines path diff_text p ->
  exists name r a, pin = (name, Some r, Some a) /\ pin_evidence p (PyStr.splitlines diff_text) name r a.
Proof.
  unfold parse_pin_lines. intros H.
  assert (pin ∈ match p with NPM_LOCK => parse_pin_lines_positional | _ => parse_pin_lines_named end diff_text p) as Hin.
  { destruct (PyStr.endswith _ _); [|done]. by apply list_elem_of_In, List.filter_In in H as [H%list_elem_of_In _]. }
  clear H. assert (pin ∈ parse_pin_lines_named diff_text p -> exists name r a, pin = (Some name, Some r, Some a) /\
    named_line p (PyStr.splitlines diff_text) false name r /\ named_line p (PyStr.splitlines diff_text) true name a) as Hnamed.
  { unfold parse_pin_lines_named. fold (named_of p (PyStr.splitlines diff_text)).
    intros (l & (name & <- & _)%in_map_iff & Hl)%list_elem_of_In%in_concat.
    apply list_elem_of_In, elem_of_lookup_zip_with in Hl as (i & r & a & -> & Hr & Ha).
    exists name, r, a. split; [done|].
    split; apply (named_spec p); by eapply list_elem_of_lookup_2. }
  destruct p; [|apply (positional_spec NPM_LOCK) in Hin as (k & r & a & -> & H)|];
    [|exists (lockfile_package_name <$> k), r, a; split; [done|]; by exists k|];
    destruct (Hnamed Hin) as (name & r & a & -> & H); exists (Some name), r, a; (split; [done|]); by exists name.
Qed.

Section PinTheorems.
Context (version_lt : string -> string -> option bool) {Repo : Type} (git : Repo -> list string -> outcome (option string)).

Lemma downgrade_of_Some path pin d :
  downgrade_of version_lt path pin = Some d ->
  exists name r a, pin = (name, Some r, Some a) /\ r <> a /\ compare_versions version_lt r a = Some true /\
    d_file d = path /\ from_version d = r /\ to_version d = a /\
    d_package d = match name with Some ((String _ _) as n) => n | _ => "<lockfile entry>"%string end.
Proof.
  destruct pin as [[name [r|]] [a|]]; cbn; [|done..].
  destruct (String.eqb_spec r a); [done|]. destruct (compare_versions version_lt r a) as [[]|] eqn:E; [|done..].
  intros [= <-]. by exists name, r, a.
Qed.

(** One file of the scan: its diff could be read, and these are its downgrades. *)
Definition scanned (repo : Repo) (from_ref to_ref path : string) (p : Pattern) (ds : list PinDowngrade) : Prop :=
  exists diff_text, git repo ["diff"; from_ref; to_ref; "--"; path]%string = Ret (Some diff_text) /\
    ds = downgrades_in_pins version_lt path (parse_pin_lines path diff_text p).

Lemma files_spec repo from_ref to_ref paths ds inc :
  pin_downgrades_for_files version_lt git repo from_ref to_ref paths = Ret (ds, inc) ->
  (forall d, d ∈ ds -> exists path p l, path ∈ paths /\ pattern_for_dep_file path = Some p /\
                       scanned repo from_ref to_ref path p l /\ d ∈ l) /\
  (inc = false -> forall path p, path ∈ paths -> pattern_for_dep_file path = Some p ->
                  exists l, scanned repo from_ref to_ref path p l /\ l ⊆ ds).
Proof.
  revert ds inc. induction paths as [|path paths IH]; intros ds inc; cbn [pin_downgrades_for_files].
  - intros [= <- <-]. split; [by intros ? ?%not_elem_of_nil|by intros _ ? ? ?%not_elem_of_nil].
  - destruct (pattern_for_dep_file path) as [p|] eqn:Ep.
    + intros ([l i] & (out & Eout & [= Hf])%obind_Ret & ([ds' inc'] & Hrest & [= <- <-])%obind_Ret)%obind_Ret.
      destruct (IH ds' inc' Hrest) as [IH1 IH2]. cbn. split.
      * intros d [Hd|Hd]%elem_of_app.
        -- destruct out as [diff_text|]; [|injection Hf as <- <-; by apply not_elem_of_nil in Hd].
           injection Hf as <- <-. eexists path, p, _. split; [by constructor|]. split; [done|]. split; [|exact Hd].
           by exists diff_text.
        -- destruct (IH1 d Hd) as (path' & p' & l' & Hp & H). exists path', p', l'. split; [by constructor|done].
      * intros [-> ->]%orb_false_iff path' p' [->|Hp]%elem_of_cons Ep'.
        -- rewrite Ep in Ep'. injection Ep' as <-. destruct out as [diff_text|]; [|done]. injection Hf as <-.
           eexists. split; [by exists diff_text|]. by apply list_subseteq_app_l.
        -- destruct (IH2 eq_refl path' p' Hp Ep') as (l' & Hl & Hsub). exists l'. split; [done|].
           intros d Hd. apply elem_of_app. right. auto.
    + intros H. destruct (IH ds inc H) as [IH1 IH2]. split.
      * intros d Hd. destruct (IH1 d Hd) as (path' & p' & l' & Hp & H'). exists path', p', l'. split; [by constructor|done].
      * intros Hi path' p' [->|Hp]%elem_of_cons Ep'; [congruence|by apply IH2].
Qed.

(** The scan of the dependency files. Every downgrade it reports has its evidence in
    the diff of a changed dependency file: a line that removes the version and one that
    adds an older one, of the same package (under one key of a lockfile, in that order).
    When the scan says it can be trusted, it read the set of changed files and the diff of
    each dependency file among them, and reports every downgrade of each. *)
Theorem pin_scan_exact repo from_ref to_ref ds inc :
  check_pin_downgrades version_lt git repo from_ref to_ref = Ret (ds, inc) ->
  (forall d, d ∈ ds -> exists changed diff_text p name,
     diff_file_set git repo from_ref to_ref = Ret (Some changed) /\ d_file d ∈ changed /\
     pattern_for_dep_file (d_file d) = Some p /\
     git repo ["diff"; from_ref; to_ref; "--"; d_file d]%string = Ret (Some diff_text) /\
     pin_evidence p (PyStr.splitlines diff_text) name (from_version d) (to_version d) /\
     d_package d = match name with Some ((String _ _) as n) => n | _ => "<lockfile entry>"%string end /\
     compare_versions version_lt (from_version d) (to_version d) = Some true) /\
  (inc = false -> exists changed, diff_file_set git repo from_ref to_ref = Ret (Some changed) /\
     forall path p, path ∈ changed -> pattern_for_dep_file path = Some p ->
       exists l, scanned repo from_ref to_ref path p l /\ l ⊆ ds).
Proof.
  intros ([changed|] & Ec & H)%obind_Ret; [|by injection H as <- <-; split; [intros ? ?%not_elem_of_nil|]].
  apply files_spec in H as [H1 H2]. split.
  - intros d Hd. destruct (H1 d Hd) as (path & p & l & Hpath & Ep & (diff_text & Ed & ->) & Hl).
    unfold downgrades_in_pins in Hl. apply list_elem_of_omap in Hl as (pin & Hpin & Hdown).
    apply downgrade_of_Some in Hdown as (name & r & a & -> & _ & Hcmp & <- & <- & <- & Hpkg).
    apply parse_evidence in Hpin as (name' & r' & a' & [= <- <- <-] & Hev).
    exists changed, diff_text, p, name. rewrite elem_of_sorted_strings in Hpath. done.
  - intros Hi. exists changed. split; [done|]. intros path p Hp. apply H2; [done|]. by apply elem_of_sorted_strings.
Qed.
End PinTheorems.

(** ** Properties *)

Section Theorems.
Context (version_lt : string -> string -> option bool) {Repo : Type} (git : Repo -> list string -> outcome (option string))
  (fetch : Repo -> string -> outcome bool * Repo).

(** The silent-revert check has one verdict for each state of the repository that the
    fetches leave. Without the base, or without a reading it needs, it is inconclusive
    and never passes; without the commit of the baseline it skips; otherwise it reports
    exactly the files that the branch did not touch before, touches now, and the base
    changed since the fork point, whose content at the head is the one of the fork
    point and no longer the one of the base; and it passes exactly when there is no
    such file, reverted or deleted. *)
Theorem silent_revert_exact repo base_branch sha head_ref g repo' :
  check_silent_revert git fetch repo base_branch sha head_ref = (Ret g, repo') ->
  let fetched := (fetch repo base_branch).1 in
  let present := commit_present_locally git repo' sha in
  (fetched = Ret false /\ exists reason, g = could_not reason) \/
  (fetched = Ret true /\ present = Ret false /\ g = passed) \/
  (fetched = Ret true /\ present = Ret true /\
   ((exists pb qb f1 f2 f3, readings git repo' base_branch sha head_ref pb qb f1 f2 f3 /\
       verdict_on git repo' base_branch head_ref pb qb (detect_reverted_files f1 f2 f3) g) \/
    (forall pb qb f1 f2 f3, ~ readings git repo' base_branch sha head_ref pb qb f1 f2 f3) /\
    exists reason, g = could_not reason)).
Proof.
  unfold check_silent_revert. destruct (fetch repo base_branch) as [[[]|e] r1]; cbn [fst];
    [|intros [= <- <-]; left; split; [done|by eexists]|done].
  destruct (commit_present_locally git r1 sha) as [[]|e] eqn:E1; [| |done].
  - intros [= Hg <-]. right. right. rewrite E1. split; [done|]. split; [done|]. by apply compare_spec.
  - destruct (if String.eqb head_ref "HEAD" then _ else _) as [o r2]. intros [= Hg <-].
    apply obind_Ret in Hg as (u & _ & ([] & -> & Hg)%obind_Ret); right; [right|left].
    + split; [done|]. split; [done|]. by apply compare_spec.
    + by injection Hg as <-.
Qed.

(** The grounds on which the check of a command fails it: a file that the rewrite
    reverts, or a downgrade of a dependency that is in the branch now, was not in it
    before the run, and is not named in the text of the task. *)
Definition convicting (head_ref sha exemption_text : string) (repo : Repo) (g : GuardResult) : Prop :=
  files g <> ∅ \/
  ok g = true /\ exists pb qb pre post d,
    pre_merge_base g = Some pb /\ post_merge_base g = Some qb /\
    check_pin_downgrades version_lt git repo pb sha = Ret (pre, false) /\
    check_pin_downgrades version_lt git repo qb head_ref = Ret (post, false) /\
    d ∈ post /\ (d_file d, d_package d) ∉ map (fun d => (d_file d, d_package d)) pre /\
    is_pin_downgrade_exempted d exemption_text = false.

Definition introduced (pre post : list PinDowngrade) : list PinDowngrade :=
  List.filter (fun d => negb (bool_decide ((d_file d, d_package d) ∈ map (fun d => (d_file d, d_package d)) pre))) post.

(** The verdict on the downgrades that a run introduced. *)
Lemma unexempted_spec pre post exemption_text :
  List.filter (fun d => negb (is_pin_downgrade_exempted d exemption_text)) (introduced pre post) <> [] <->
  exists d, d ∈ post /\ (d_file d, d_package d) ∉ map (fun d => (d_file d, d_package d)) pre /\
            is_pin_downgrade_exempted d exemption_text = false.
Proof.
  assert (forall d, d ∈ List.filter (fun d => negb (is_pin_downgrade_exempted d exemption_text)) (introduced pre post) <->
            d ∈ post /\ (d_file d, d_package d) ∉ map (fun d => (d_file d, d_package d)) pre /\
            is_pin_downgrade_exempted d exemption_text = false) as Hin.
  { intros d. unfold introduced. rewrite list_elem_of_In, !List.filter_In, <- list_elem_of_In.
    rewrite !negb_true_iff, bool_decide_eq_false. naive_solver. }
  split.
  - destruct (List.filter _ (introduced pre post)) as [|d l]; [done|]. intros _. exists d. apply Hin. by constructor.
  - intros (d & Hd%Hin) E. rewrite E in Hd. by apply not_elem_of_nil in Hd.
Qed.

Lemma guard_body_spec cmd_name sha head_ref base_branch exemption_text repo :
  match guard_body version_lt git fetch cmd_name sha head_ref base_branch repo with
  | Raise _ => forall g repo', check_silent_revert git fetch repo base_branch sha head_ref = (Ret g, repo') ->
                 ~ convicting head_ref sha exemption_text repo' g
  | Ret (inl v) =>
      (failure_reason v <> None /\ network_blocked v = false) <->
      exists g repo', check_silent_revert git fetch repo base_branch sha head_ref = (Ret g, repo') /\
                      convicting head_ref sha exemption_text repo' g
  | Ret (inr ds) =>
      List.filter (fun d => negb (is_pin_downgrade_exempted d exemption_text)) ds <> [] <->
      exists g repo', check_silent_revert git fetch repo base_branch sha head_ref = (Ret g, repo') /\
                      convicting head_ref sha exemption_text repo' g
  end.
Proof.
  unfold guard_body. destruct (check_silent_revert git fetch repo base_branch sha head_ref) as [[g|e] repo'] eqn:Eg; cbn [obind];
    [|naive_solver].
  destruct (accused_files _ _ _ _ _ _ _ _ Eg) as [Hok Hbad]. unfold convicting.
  destruct (ok g) eqn:Eok; cbn [negb].
  2:{ specialize (Hbad eq_refl). cbn [failure_reason network_blocked].
      destruct (inconclusive g); split; [by intros [_ ?]| |intros _; exists g, repo'; auto|done].
      intros (g' & r' & [= <- <-] & [H|[H _]]); [done|congruence]. }
  destruct (Hok eq_refl) as [Hf _].
  destruct (pre_merge_base g) as [pb|] eqn:Epb; [destruct (post_merge_base g) as [qb|] eqn:Eqb|]; cycle 1.
  { split; [by intros [[] _]|]. intros (g' & r' & [= <- <-] & [H|(_ & H)]); [done|naive_solver congruence]. }
  { split; [by intros [[] _]|]. intros (g' & r' & [= <- <-] & [H|(_ & H)]); [done|naive_solver congruence]. }
  destruct (check_pin_downgrades version_lt git repo' pb sha) as [[pre i1]|e] eqn:E1; cbn [obind]; cycle 1.
  { intros g' r' [= <- <-] [H|(_ & pb' & qb' & pre' & post' & d & Hpb & _ & E1' & _)]; [done|congruence]. }
  destruct (check_pin_downgrades version_lt git repo' qb head_ref) as [[post i2]|e] eqn:E2; cbn [obind]; cycle 1.
  { intros g' r' [= <- <-] [H|(_ & pb' & qb' & pre' & post' & d & _ & Hqb & _ & E2' & _)]; [done|congruence]. }
  cbn [fst snd]. fold (introduced pre post). destruct (i1 || i2) eqn:Ei.
  - split; [by intros [_ ?]|].
    intros (g' & r' & [= <- <-] & [H|(_ & pb' & qb' & pre' & post' & d & Hpb & Hqb & E1' & E2' & _)]); [done|].
    assert (pb' = pb) as -> by congruence. assert (qb' = qb) as -> by congruence. rewrite E1 in E1'. rewrite E2 in E2'. injection E1' as -> ->. injection E2' as -> ->. done.
  - apply orb_false_iff in Ei as [-> ->]. rewrite unexempted_spec. split.
    + intros (d & Hd). exists g, repo'. split; [done|]. right. split; [done|]. by exists pb, qb, pre, post, d.
    + intros (g' & r' & [= <- <-] & [H|(_ & pb' & qb' & pre' & post' & d & Hpb & Hqb & E1' & E2' & Hd)]); [done|].
      assert (pb' = pb) as -> by congruence. assert (qb' = qb) as -> by congruence.
      exists d. by assert (pre' = pre) as <- by congruence; assert (post' = post) as <- by congruence.
Qed.

(** The check accuses exactly on these grounds: it fails a finished command, and not only
    says that it could not be verified, if and only if a baseline, a configuration and the
    branch are known and the repository convicts it. In particular no error of git,
    GitHub or the configuration is held against the command. *)
Theorem guard_accuses_exactly cmd_name agent config fields exemption_text repo :
  let v := check_pr_diff_guard version_lt git fetch cmd_name agent config fields exemption_text repo in
  (failure_reason v <> None /\ network_blocked v = false) <->
  exists sha base head_ref base_branch g repo',
    match pre_run_sha agent with Some sha => Some sha | None => pre_run_head_sha agent end = Some sha /\
    config = Ret base /\ refs_of agent base fields = Some (head_ref, base_branch) /\
    check_silent_revert git fetch repo base_branch sha head_ref = (Ret g, repo') /\
    convicting head_ref sha exemption_text repo' g.
Proof.
  cbv zeta. unfold check_pr_diff_guard.
  destruct (match pre_run_sha agent with Some sha => Some sha | None => pre_run_head_sha agent end) as [sha|];
    [|split; [by intros [[] _]|naive_solver]].
  destruct config as [base|e]; cbn [obind]; [|split; [by intros [[] _]|naive_solver]].
  destruct (refs_of agent base fields) as [[head_ref base_branch]|] eqn:Er; [|split; [by intros [_ ?]|naive_solver]].
  pose proof (guard_body_spec cmd_name sha head_ref base_branch exemption_text repo) as H.
  assert ((exists g repo', check_silent_revert git fetch repo base_branch sha head_ref = (Ret g, repo') /\
                           convicting head_ref sha exemption_text repo' g) <->
          exists sha' base' head_ref' base_branch' g repo', Some sha = Some sha' /\ Ret base = Ret base' /\
            refs_of agent base' fields = Some (head_ref', base_branch') /\
            check_silent_revert git fetch repo base_branch' sha' head_ref' = (Ret g, repo') /\
            convicting head_ref' sha' exemption_text repo' g) as Hshape.
  { split; [intros (g & r' & Hg & Hc); by exists sha, base, head_ref, base_branch, g, r'|].
    intros (? & ? & ? & ? & g & r' & [= <-] & [= <-] & Er' & Hg & Hc). rewrite Er in Er'. injection Er' as <- <-. by exists g, r'. }
  rewrite <- Hshape. destruct (guard_body _ _ _ _ _ _ _ _) as [[v|ds]|e].
  - exact H.
  - rewrite <- H. destruct (List.filter _ ds); [split; [by intros [[] _]|done]|]. by split.
  - split; [by intros [[] _]|]. intros (g & r' & Hg & Hc). by destruct (H g r' Hg).
Qed.
End Theorems.

(** ** Witnesses *)

Module Examples.

Local Open Scope string_scope.

(** A repository whose branch touched [x.py] before the run, and afterwards puts the old
    content of [y.py] over the base's, and pins an older version of a library. *)
Definition answers : list (list string * string) :=
  [ (["cat-file"; "-e"; "sha^{commit}"], "");
    (["merge-base"; "origin/main"; "sha"], "f0");
    (["merge-base"; "origin/main"; "HEAD"], "f1");
    (["diff"; "--name-only"; "f0"; "sha"], "x.py");
    (["diff"; "--name-only"; "f1"; "HEAD"], text_of ["x.py"; "y.py"; "requirements.txt"]);
    (["diff"; "--name-only"; "f0"; "origin/main"], "y.py");
    (["rev-parse"; "f0:y.py"], "old");
    (["rev-parse"; "origin/main:y.py"], "new");
    (["diff"; "f1"; "HEAD"; "--"; "requirements.txt"], text_of ["-lib==2.10"; "+lib==2.9"]) ].

(** The state is the content of [y.py] at the head. *)
Definition a_git (y : string) (args : list string) : outcome (option string) :=
  if bool_decide (args = ["rev-parse"; "HEAD:y.py"]) then Ret (Some y)
  else Ret (snd <$> List.find (fun a => bool_decide (a.1 = args)) answers).

Definition a_fetch (y : string) (_ : string) : outcome bool * string := (Ret true, y).

Definition an_agent : Agent :=
  {| pre_run_sha := Some "sha"; pre_run_head_sha := None; pr_number := None; prompt := ""; issue := None |}.

Definition no_packaging : string -> string -> option bool := fun _ _ => None.

Definition a_revert : GuardResult :=
  {| ok := false; reason := Some "possible silent revert: y.py was not part of this PR but changed by main since the fork point";
     files := {["y.py"]}; inconclusive := false; pre_merge_base := Some "f0"; post_merge_base := Some "f1" |}.

Definition a_downgrade : PinDowngrade :=
  {| d_file := "requirements.txt"; d_package := "lib"; from_version := "2.10"; to_version := "2.9" |}.

Example reverts : check_silent_revert a_git a_fetch "old" "main" "sha" "HEAD" = (Ret a_revert, "old").
Proof. vm_compute. done. Qed.

Example downgraded :
  check_pr_diff_guard no_packaging a_git a_fetch "pr" an_agent (Ret "main") (None, false) "" "mine"
  = {| failure_reason := Some "pr introduced a dependency pin downgrade: lib 2.10->2.9 in requirements.txt";
       network_blocked := false |}.
Proof. vm_compute. done. Qed.

Example exempted :
  check_pr_diff_guard no_packaging a_git a_fetch "pr" an_agent (Ret "main") (None, false) "pin lib in requirements.txt" "mine" = VALID.
Proof. vm_compute. done. Qed.

Lemma silent_revert_exact_witness :
  "y.py" ∈ files a_revert /\
  exists pb qb f1 f2 f3, readings a_git "old" "main" "sha" "HEAD" pb qb f1 f2 f3 /\
    verdict_on a_git "old" "main" "HEAD" pb qb (detect_reverted_files f1 f2 f3) a_revert.
Proof.
  split; [set_solver|].
  destruct (silent_revert_exact a_git a_fetch "old" "main" "sha" "HEAD" a_revert "old") as [H|[H|H]].
  - vm_compute. done.
  - by destruct H as [H _].
  - by destruct H as (_ & H & _).
  - destruct H as (_ & _ & [H|(_ & w & H)]); [exact H|discriminate H].
Defined.

Lemma pin_scan_exact_witness :
  check_pin_downgrades no_packaging a_git "mine" "f1" "HEAD" = Ret ([a_downgrade], false) /\
  exists changed, diff_file_set a_git "mine" "f1" "HEAD" = Ret (Some changed) /\ "requirements.txt" ∈ changed.
Proof.
  split; [by vm_compute|].
  destruct (pin_scan_exact no_packaging a_git "mine" "f1" "HEAD" [a_downgrade] false) as [H _]; [by vm_compute|].
  destruct (H a_downgrade ltac:(by constructor)) as (changed & _ & _ & _ & Hc & Hin & _). by exists changed.
Defined.

End Examples.
