(* ===== verification/Links.v ===== *)
(** * Links: the issues that a pull request names

    The readers of a pull request's body in sova/utils/gh.py: closing references and
    "Part of" links ([parse_issue_links]), the list of what is left undone
    ([parse_not_done_items]) and the issue of a pull request ([resolve_linked_issue]).
    The regular expressions are executable matchers on ASCII text. *)

From stdpp Require Import base gmap strings list.
From Stdlib Require Import Ascii.
From S2P Require Import Prelude Markdown Fences.

Import Markdown.

Definition is_word (c : ascii) : bool := Fences.is_letter c || PyStr.is_digit c || Ascii.eqb c "_"%char.

(** ** Searching *)

(** A matcher reads what follows a position, given the character before it; a match is a
    text it captures, and how many characters it takes, of which there is one at least. *)
Definition Matcher : Type := option ascii -> list ascii -> option (list ascii * nat).

(** [pattern.finditer(text)]: the captures of the matches that do not overlap, from the
    left; [skip] characters are still part of the last one. *)
Fixpoint find_all (m : Matcher) (prev : option ascii) (skip : nat) (l : list ascii) : list (list ascii) :=
  match l with
  | [] => []
  | c :: l' =>
      match skip with
      | S skip => find_all m (Some c) skip l'
      | O => match m prev l with
             | Some (found, n) => found :: find_all m (Some c) (n - 1) l'
             | None => find_all m (Some c) 0 l'
             end
      end
  end.

(** A literal, whatever the case of its letters. *)
Definition after_nocase (p : string) (l : list ascii) : option (list ascii) :=
  if bool_decide (map PyStr.lower_char (take (String.length p) l) = PyStr.to_list p)
  then Some (drop (String.length p) l) else None.

(** [#(\d+)] after what has been read; [all] is the text from the start of the match. *)
Definition hash_number (all l : list ascii) : option (list ascii * nat) :=
  match l with
  | h :: l =>
      if Ascii.eqb h "#"%char then
        match PyStr.take_while PyStr.is_digit l with
        | [] => None
        | digits => Some (digits, length all - length (PyStr.drop_while PyStr.is_digit l))
        end
      else None
  | [] => None
  end.

(** ** Closing references *)

(** [CLOSING_KEYWORDS] *)
Definition CLOSING_KEYWORDS : list string :=
  ["close"; "closes"; "closed"; "fix"; "fixes"; "fixed"; "resolve"; "resolves"; "resolved"]%string.

(** [CLOSING_SEPARATOR]: an optional colon between blanks, and a blank at the end. *)
Definition after_separator (l : list ascii) : option (list ascii) :=
  let after_blanks l := match l with
                        | c :: _ => if PyStr.is_space c then Some (PyStr.drop_while PyStr.is_space l) else None
                        | [] => None
                        end in
  match PyStr.drop_while PyStr.is_space l with
  | c :: l' => if Ascii.eqb c ":"%char then after_blanks l' else after_blanks l
  | [] => after_blanks l
  end.

(** [CLOSES_RE] *)
Definition match_closes : Matcher := fun prev l =>
  if match prev with Some c => is_word c | None => false end then None
  else head (omap (fun k => (after_nocase k l ≫= after_separator) ≫= hash_number l) CLOSING_KEYWORDS).

(** [_PART_OF_RE] *)
Definition match_part_of : Matcher := fun _ l =>
  after_nocase "part of" l ≫= fun rest =>
  match rest with
  | c :: _ => if PyStr.is_space c then hash_number l (PyStr.drop_while PyStr.is_space rest) else None
  | [] => None
  end.

(** [INLINE_CODE_RE.sub(" ", text)]; [skip] characters are still part of a code span. *)
Fixpoint without_code (skip : nat) (l : list ascii) : list ascii :=
  match l with
  | [] => []
  | c :: l' =>
      match skip with
      | S skip => without_code skip l'
      | O =>
          if Ascii.eqb c "`"%char then
            let inside := PyStr.take_while (fun c => negb (Ascii.eqb c "`"%char || Ascii.eqb c nl)) l' in
            match drop (length inside) l' with
            | e :: _ => if Ascii.eqb e "`"%char then space :: without_code (S (length inside)) l' else c :: without_code 0 l'
            | [] => c :: without_code 0 l'
            end
          else c :: without_code 0 l'
      end
  end.

(** [class IssueLinks] *)
Record IssueLinks := { closes : list string; part_of : list string }.

Definition numbers_of (m : Matcher) (text : string) : list string :=
  dedup [] (map PyStr.of_list (find_all m None 0 (PyStr.to_list text))).

(** [parse_issue_links] *)
Definition parse_issue_links (body : string) : IssueLinks :=
  let prose := PyStr.of_list (without_code 0 (PyStr.to_list (mask_fenced_blocks body))) in
  let closes := numbers_of match_closes prose in
  let section := extract_section prose "Issue" in
  let scope := if String.eqb section EmptyString then prose else section in
  {| closes := closes;
     part_of := List.filter (fun n => negb (bool_decide (n ∈ closes))) (numbers_of match_part_of scope) |}.

(** ** What is left undone *)

Definition NOT_DONE_LABEL : string := "Not done in this PR:".

(** [_NOT_DONE_ITEM_RE] *)
Definition match_item (l : list ascii) : option (list ascii) :=
  match l with
  | c :: b :: l =>
      if existsb (Ascii.eqb c) ["-"; "*"; "+"]%char && Fences.is_blank b then
        match PyStr.drop_while Fences.is_blank l with
        | d :: item => if PyStr.is_space d then None else Some (d :: item)
        | [] => None
        end
      else None
  | _ => None
  end.

(** [_SHALLOW_HEADING_RE] *)
Definition is_shallow_heading (l : list ascii) : bool :=
  let l := match l with c :: l' => if Ascii.eqb c space then l' else l | [] => [] end in
  let hashes := length (PyStr.take_while (fun c => Ascii.eqb c "#"%char) l) in
  (1 <=? hashes) && (hashes <=? 6) && match drop hashes l with c :: _ => Fences.is_blank c | [] => true end.

(** The inner loop of [parse_not_done_items]: the items under a label. *)
Fixpoint items_from (items : list (list ascii)) (lines : list (list ascii)) : list (list ascii) :=
  match lines with
  | [] => items
  | candidate :: lines =>
      let line_text := PyStr.drop_while_end PyStr.is_space candidate in
      if bool_decide (items = []) && bool_decide (line_text = []) then items_from items lines
      else match match_item line_text with
           | Some item => items_from (items ++ [item]) lines
           | None =>
               match line_text with
               | c :: _ =>
                   if negb (bool_decide (items = [])) && Fences.is_blank c && negb (is_shallow_heading line_text)
                   then items_from (removelast items ++ [List.last items [] ++ nl :: line_text]) lines
                   else items
               | [] => items
               end
           end
  end.

(** The loop over the lines of the section. *)
Fixpoint first_list (lines : list (list ascii)) : option (list (list ascii)) :=
  match lines with
  | [] => None
  | l :: lines =>
      if bool_decide (PyStr.strip_list l = PyStr.to_list NOT_DONE_LABEL) then
        match items_from [] lines with
        | [] => first_list lines
        | items => Some items
        end
      else first_list lines
  end.

(** [parse_not_done_items] *)
Definition parse_not_done_items (body : string) : option (list string) :=
  map PyStr.of_list <$> first_list (PyStr.splitlines (extract_section (mask_fenced_blocks body) "Issue")).

(** ** The issue of a pull request *)

(** [BRANCH_ISSUE_RE] *)
Definition match_branch : Matcher := fun prev l =>
  if match prev with Some c => negb (Ascii.eqb c "/"%char) | None => false end then None
  else match PyStr.after_literal (PyStr.to_list "issue-") l with
       | Some rest =>
           match PyStr.take_while PyStr.is_digit rest, PyStr.drop_while PyStr.is_digit rest with
           | [], _ => None
           | digits, [] => Some (digits, 1)
           | digits, c :: _ => if existsb (Ascii.eqb c) ["-"; "_"; "/"]%char then Some (digits, 1) else None
           end
       | None => None
       end.

Definition branch_issue (branch : string) : option string :=
  PyStr.of_list <$> head (find_all match_branch None 0 (PyStr.to_list branch)).

(** [resolve_linked_issue] from the body and the branch. *)
Definition pick (branch_issue : option string) (candidates : list string) : option string :=
  match candidates with
  | [] => None
  | first :: _ => Some (match branch_issue with
                        | Some n => if bool_decide (n ∈ candidates) then n else first
                        | None => first
                        end)
  end.

Definition resolve_from (body branch : string) : option string :=
  let section_links := parse_issue_links (extract_section body "Issue") in
  let body_links := parse_issue_links body in
  head (omap (pick (branch_issue branch))
         [closes section_links ++ part_of section_links; closes body_links; part_of body_links]).

(** [resolve_linked_issue]; [fetched] is the answer of gh, an exception when it cannot be had or read. *)
Definition resolve_linked_issue (fetched : outcome (string * string)) : outcome (option string) :=
  obind fetched (fun '(body, branch) => Ret (resolve_from body branch)).

(** *** Examples *)

Definition lines_text (lines : list string) : string := PyStr.join (PyStr.of_list [nl]) lines.

Example nine_forms :
  closes (parse_issue_links "Closes #1, fixed: #2 RESOLVE  :  #3; bugfix #4 `fix #5` closest #6 fix 7 fixes #1")
  = ["1"; "2"; "3"]%string.
Proof. vm_compute. done. Qed.
Example epic_in_summary :
  parse_issue_links (lines_text ["## Summary"; "Part of #9"; "## Issue"; "Part of #3"; "```"; "Closes #4"; "```"]%string)
  = {| closes := []; part_of := ["3"]%string |}.
Proof. vm_compute. done. Qed.
Example not_done :
  parse_not_done_items (lines_text ["## Issue"; "Not done in this PR:"; ""; "- first"; "  more"; "* `b` "; "# end"; "- no"]%string)
  = Some [PyStr.of_list (PyStr.to_list "first" ++ nl :: PyStr.to_list "  more"); "`b`"]%string.
Proof. vm_compute. done. Qed.
Example tie_broken : resolve_from "Closes #1 and closes #2" "feat/issue-2" = Some "2"%string.
Proof. vm_compute. done. Qed.
