(* ===== verification/Merge.v ===== *)
(** * Merge: what merging a pull request does to its issues

    The part of sova/git/merge.py that acts on the issues a merged or an opened pull
    request names. GitHub is a state, the issues with
    their comments and labels, under commands that may fail: a command that fails has
    either done nothing, or done its work and lost the answer. The open pull requests
    and the body of the merged one are answers. *)

From stdpp Require Import base gmap strings list pretty.
From Stdlib Require Import Ascii.
From S2P Require Import Prelude Tracker Markdown Fences Sections Links.

Import Markdown.

Local Open Scope string_scope.

(** ** GitHub *)

Record Issue := { is_body : string; is_comments : list string; is_labels : gset string; is_state : TaskState.t }.

(** How a command fares. *)
Inductive Fate := Done | Failed | AnswerLost.

Definition answered (f : Fate) : bool := match f with Done => true | _ => false end.
Definition applied (f : Fate) : bool := match f with Failed => false | _ => true end.

(** The issues, and the number of commands so far. *)
Record World := { issues : gmap string Issue; commands : nat }.

Definition ticked (w : World) : World := {| issues := issues w; commands := S (commands w) |}.

Section Github.
(** The fate of each command. *)
Variable fate : nat -> Fate.

(** A command that reads: the issue, when it exists and the command succeeds. *)
Definition view (issue : string) (w : World) : option Issue * World :=
  (if answered (fate (commands w)) then issues w !! issue else None, ticked w).

(** A command that changes one issue; it fails when there is none. *)
Definition change (issue : string) (f : Issue -> Issue) (w : World) : bool * World :=
  match issues w !! issue with
  | None => (false, ticked w)
  | Some i =>
      (answered (fate (commands w)),
       {| issues := if applied (fate (commands w)) then <[issue := f i]> (issues w) else issues w;
          commands := S (commands w) |})
  end.

Definition post (issue comment : string) : World -> bool * World :=
  change issue (fun i => {| is_body := is_body i; is_comments := is_comments i ++ [comment]; is_labels := is_labels i;
                            is_state := is_state i |}).

Definition remove_labels (issue : string) (labels : list string) : World -> bool * World :=
  change issue (fun i => {| is_body := is_body i; is_comments := is_comments i;
                            is_labels := is_labels i ∖ list_to_set labels; is_state := is_state i |}).

(** ** "Part of" issues *)

(** [class _PartOfResult] *)
Inductive PartOfResult := STRIPPED | NO_LABELS | KEPT | FAILED.

(** [class MergedIssues] *)
Record MergedIssues := { transitioned : list string; commented : list string; failed : list string;
                         unlabeled : list string; kept : list string }.

Definition no_issues : MergedIssues :=
  {| transitioned := []; commented := []; failed := []; unlabeled := []; kept := [] |}.

Definition PART_OF_STRIP_LABELS : gset string := {["agent:in-review"; "agent:in-progress"; "sova:revise"; "sova:block"]}.

Definition OPEN_PR_LIMIT : nat := 200.

(** [_PART_OF_MARKER.format(pr=pr_number)] *)
Definition part_of_marker (pr_number : Z) : string := "<!-- sova-part-of: pr=" ++ pretty pr_number ++ " -->".

(** [_UNCHECKED_ITEM_RE], stripped *)
Definition unchecked_item (l : list ascii) : option string :=
  match l with
  | c :: b :: l =>
      if existsb (Ascii.eqb c) ["-"; "*"; "+"]%char && Fences.is_blank b then
        match PyStr.after_literal (PyStr.to_list "[ ]") (PyStr.drop_while Fences.is_blank l) with
        | Some rest =>
            match PyStr.drop_while Fences.is_blank rest with
            | d :: item => if PyStr.is_space d then None else Some (PyStr.strip (PyStr.of_list (d :: item)))
            | [] => None
            end
        | None => None
        end
      else None
  | _ => None
  end.

(** [_render_part_of_comment] *)
Definition render_part_of_comment (pr_number : Z) (issue_body : string)
    (not_done : option (list string)) : string :=
  let head := [part_of_marker pr_number;
               "PR #" ++ pretty pr_number ++ " was merged as part of this issue, so the issue stays open. "
               ++ "The PR description says what it left undone."; ""] in
  let bullets := map (fun item => "- " ++ item) in
  PyStr.join (PyStr.of_list [nl])
    (match not_done with
     | Some ((_ :: _) as items) => head ++ NOT_DONE_LABEL :: bullets items
     | _ =>
         match omap unchecked_item (PyStr.splitlines (mask_fenced_blocks (extract_section_nocase issue_body "Acceptance Criteria"))) with
         | [] => head ++ ["This issue has no unchecked acceptance criteria: confirm the rest is done before closing it."]
         | items => head ++ "Acceptance criteria still unchecked in this issue:" :: bullets items
         end
     end).

(** [class _OpenPrLinks]: not read yet, or what the one reading gave, [None] for a failure. *)
Inductive OpenPrLinks := NotLoaded | Loaded (prs : option (list (Z * IssueLinks) * bool)).

(** The number and the body of the open pull requests, at most [OPEN_PR_LIMIT] of them. *)
Variable open_prs : list (Z * string).

(** [_OpenPrLinks._load] *)
Definition load (w : World) : OpenPrLinks * World :=
  (Loaded (if answered (fate (commands w))
           then Some (map (fun pr => (pr.1, parse_issue_links pr.2)) open_prs, (OPEN_PR_LIMIT <=? length open_prs)%nat)
           else None), ticked w).

(** [_OpenPrLinks.another_links] *)
Definition another_links (prs : OpenPrLinks) (issue : string) (pr_number : Z) (w : World) : option bool * OpenPrLinks * World :=
  let '(prs, w) := match prs with NotLoaded => load w | _ => (prs, w) end in
  (match prs with
   | NotLoaded | Loaded None => None
   | Loaded (Some (listed, truncated)) =>
       if existsb (fun pr => negb (Z.eqb pr.1 pr_number)
                             && bool_decide (issue ∈ closes pr.2 \/ issue ∈ part_of pr.2)) listed
       then Some true else if truncated then None else Some false
   end, prs, w).

(** [_strip_workflow_labels] *)
Definition strip_workflow_labels (prs : OpenPrLinks) (issue : string) (present : gset string) (pr_number : Z) (w : World)
    : PartOfResult * OpenPrLinks * World :=
  match sorted_strings (present ∩ PART_OF_STRIP_LABELS) with
  | [] => (NO_LABELS, prs, w)
  | to_remove =>
      let '(other_open, prs, w) := another_links prs issue pr_number w in
      match other_open with
      | None => (FAILED, prs, w)
      | Some true => (KEPT, prs, w)
      | Some false => let '(edited, w) := remove_labels issue to_remove w in (if edited then STRIPPED else FAILED, prs, w)
      end
  end.

(** [_update_part_of_issue] *)
Definition update_part_of_issue (prs : OpenPrLinks) (issue : string) (pr_number : Z) (not_done : option (list string)) (w : World)
    : PartOfResult * OpenPrLinks * World :=
  let '(viewed, w) := view issue w in
  match viewed with
  | None => (FAILED, prs, w)
  | Some i =>
      let already_posted := existsb (fun c => PyStr.contains c (part_of_marker pr_number)) (is_comments i) in
      let '(posted, w) := if already_posted then (true, w)
                          else post issue (render_part_of_comment pr_number (is_body i) not_done) w in
      if posted then strip_workflow_labels prs issue (is_labels i) pr_number w else (FAILED, prs, w)
  end.

(** ** The issues of a merged pull request *)

(** What the adapter makes of an issue that it moves to a state. *)
Variable transition : TaskState.t -> Issue -> Issue.

(** [handle_post_merge_state] with an adapter, whose failure is an exception for the
    caller: the issue moved, nothing was to move, or the adapter failed. *)
Definition handle_post_merge_state (issue post_merge_state : string) (w : World) : outcome bool * World :=
  if String.eqb issue EmptyString then (Ret false, w)
  else
    match List.find (fun s => String.eqb (TaskState.value s) post_merge_state) [TaskState.DONE; TaskState.ON_QA] with
    | None => (Ret false, w)
    | Some target => let '(moved, w) := change issue (transition target) w in
                     (if moved then Ret true else Raise (AdapterError "transition"), w)
    end.

Definition move_all (post_merge_state : string) : list string -> MergedIssues -> World -> MergedIssues * World :=
  fix go (l : list string) (out : MergedIssues) (w : World) {struct l} : MergedIssues * World :=
    match l with
    | [] => (out, w)
    | issue :: l =>
        let '(moved, w) := handle_post_merge_state issue post_merge_state w in
        go l (match moved with
              | Ret true => {| transitioned := transitioned out ++ [issue]; commented := commented out; failed := failed out;
                               unlabeled := unlabeled out; kept := kept out |}
              | _ => {| transitioned := transitioned out; commented := commented out; failed := failed out ++ [issue];
                        unlabeled := unlabeled out; kept := kept out |}
              end) w
    end.

(** The bucket of a result. *)
Definition recorded (out : MergedIssues) (issue : string) (result : PartOfResult) : MergedIssues :=
  let add (b : bool) (l : list string) := if b then (l ++ [issue])%list else l in
  {| transitioned := transitioned out;
     commented := add (match result with STRIPPED => true | _ => false end) (commented out);
     failed := add (match result with FAILED => true | _ => false end) (failed out);
     unlabeled := add (match result with NO_LABELS => true | _ => false end) (unlabeled out);
     kept := add (match result with KEPT => true | _ => false end) (kept out) |}.

Fixpoint update_all (pr_number : Z) (not_done : option (list string)) (prs : OpenPrLinks) (l : list string) (out : MergedIssues)
    (w : World) : MergedIssues * World :=
  match l with
  | [] => (out, w)
  | issue :: l =>
      let '(result, prs, w) := update_part_of_issue prs issue pr_number not_done w in
      update_all pr_number not_done prs l (recorded out issue result) w
  end.

(** [handle_merged_pr_issues]; [None] when the body of the pull request cannot be read. *)
Definition handle_merged_pr_issues (pr_number : Z) (pr_body post_merge_state : string) (w : World) : option MergedIssues * World :=
  if answered (fate (commands w)) then
    let links := parse_issue_links pr_body in
    let '(out, w) := move_all post_merge_state (closes links) no_issues (ticked w) in
    let '(out, w) := update_all pr_number (parse_not_done_items pr_body) NotLoaded (part_of links) out w in
    (Some out, w)
  else (None, ticked w).

(** ** The issues of an opened pull request *)

(** [_IN_REVIEW_FROM] *)
Definition IN_REVIEW_FROM : list TaskState.t :=
  [TaskState.BACKLOG; TaskState.TRIAGED; TaskState.RESEARCHED; TaskState.IN_PROGRESS].

(** [class OpenedPrIssues]: what became of each issue. *)
Record OpenedPrIssues := { o_moved : list string; o_already : list string; o_left : list (string * TaskState.t);
                           o_failed : list string }.

(** The body of the loop of [mark_pr_issues_in_review]. *)
Definition mark_issue (issue : string) (out : OpenedPrIssues) (w : World) : OpenedPrIssues * World :=
  let fails := {| o_moved := o_moved out; o_already := o_already out; o_left := o_left out; o_failed := o_failed out ++ [issue] |} in
  let '(viewed, w) := view issue w in
  match viewed with
  | None => (fails, w)
  | Some i =>
      if bool_decide (is_state i = TaskState.IN_REVIEW) then
        ({| o_moved := o_moved out; o_already := o_already out ++ [issue]; o_left := o_left out; o_failed := o_failed out |}, w)
      else if bool_decide (is_state i ∈ IN_REVIEW_FROM) then
        let '(ok, w) := change issue (transition TaskState.IN_REVIEW) w in
        (if ok then {| o_moved := o_moved out ++ [issue]; o_already := o_already out; o_left := o_left out;
                       o_failed := o_failed out |}
         else fails, w)
      else
        ({| o_moved := o_moved out; o_already := o_already out; o_left := o_left out ++ [(issue, is_state i)];
            o_failed := o_failed out |}, w)
  end.

Fixpoint mark_all (l : list string) (out : OpenedPrIssues) (w : World) : OpenedPrIssues * World :=
  match l with
  | [] => (out, w)
  | issue :: l => let '(out, w) := mark_issue issue out w in mark_all l out w
  end.

(** [mark_pr_issues_in_review]; [None] when the body of the pull request cannot be read. *)
Definition mark_pr_issues_in_review (pr_body : string) (w : World) : option OpenedPrIssues * World :=
  if answered (fate (commands w)) then
    let links := parse_issue_links pr_body in
    let '(out, w) := mark_all (closes links ++ part_of links)%list
                       {| o_moved := []; o_already := []; o_left := []; o_failed := [] |} (ticked w) in
    (Some out, w)
  else (None, ticked w).

End Github.

(** ** Lemmas *)

Section Lemmas.
Context (fate : nat -> Fate) (open_prs : list (Z * string)) (transition : TaskState.t -> Issue -> Issue).

(** What a command may do to the issues. *)
Definition changed (issue : string) (f : Issue -> Issue) (w w' : World) : Prop :=
  issues w' = issues w \/ exists i, issues w !! issue = Some i /\ issues w' = <[issue := f i]> (issues w).

Lemma change_spec issue f w b w' : change fate issue f w = (b, w') ->
  changed issue f w w' /\ (b = true -> exists i, issues w !! issue = Some i /\ issues w' = <[issue := f i]> (issues w)).
Proof.
  unfold change, changed. destruct (issues w !! issue) as [i|] eqn:E; [|by intros [= <- <-]; split; [left|]].
  destruct (fate (commands w)); intros [= <- <-]; cbn; split; try done; eauto.
Qed.

Lemma load_issues w prs w' : load fate open_prs w = (prs, w') -> issues w' = issues w.
Proof. by intros [= _ <-]. Qed.

(** The links that the open pull requests can be known to have. *)
Definition honest (prs : OpenPrLinks) : Prop :=
  match prs with
  | NotLoaded | Loaded None => True
  | Loaded (Some (listed, truncated)) =>
      listed = map (fun pr => (pr.1, parse_issue_links pr.2)) open_prs /\ truncated = (OPEN_PR_LIMIT <=? length open_prs)%nat
  end.

(** No open pull request but this one links the issue, and the listing is complete. *)
Definition only_here (issue : string) (pr_number : Z) : Prop :=
  (length open_prs < OPEN_PR_LIMIT)%nat /\
  forall pr, pr ∈ open_prs -> pr.1 <> pr_number ->
    issue ∉ closes (parse_issue_links pr.2) /\ issue ∉ part_of (parse_issue_links pr.2).

Lemma another_links_spec prs issue pr_number w answer prs' w' :
  honest prs -> another_links fate open_prs prs issue pr_number w = (answer, prs', w') ->
  issues w' = issues w /\ honest prs' /\ (answer = Some false -> only_here issue pr_number).
Proof.
  intros Hh. unfold another_links.
  assert (exists prs1 w1, (match prs with NotLoaded => load fate open_prs w | _ => (prs, w) end) = (prs1, w1) /\
            issues w1 = issues w /\ honest prs1 /\ prs1 <> NotLoaded) as (prs1 & w1 & -> & Hw & Hh1 & Hne).
  { destruct prs as [|prs]; [|by exists (Loaded prs), w]. eexists _, _. split; [done|]. split; [done|]. split; [|done].
    unfold honest. by case_match; case_match; simplify_eq. }
  intros [= <- <- <-]. split; [done|]. split; [done|].
  destruct prs1 as [|[[listed truncated]|]]; [done| |done]. destruct Hh1 as [-> ->].
  destruct (existsb _ _) eqn:Ex; [done|]. destruct (_ <=? _)%nat eqn:El; [done|]. intros _.
  split; [by apply Nat.leb_gt|]. intros pr Hpr Hn.
  apply not_true_iff_false in Ex. split; intros Hin; apply Ex, existsb_exists;
    exists (pr.1, parse_issue_links pr.2); (split; [apply in_map_iff; exists pr; split; [done|by apply list_elem_of_In]|]);
    cbn; rewrite (proj2 (Z.eqb_neq _ _) Hn); apply bool_decide_eq_true; auto.
Qed.

(** What merging may do to a "Part of" issue. *)
Definition left_open (issue : string) (pr_number : Z) (i i' : Issue) : Prop :=
  is_state i' = is_state i /\ is_body i' = is_body i /\
  is_labels i' ⊆ is_labels i /\ is_labels i ∖ is_labels i' ⊆ PART_OF_STRIP_LABELS /\
  (is_labels i' <> is_labels i -> only_here issue pr_number) /\
  (is_comments i' = is_comments i \/
   existsb (fun c => PyStr.contains c (part_of_marker pr_number)) (is_comments i) = false /\
   exists c, PyStr.contains c (part_of_marker pr_number) = true /\ is_comments i' = (is_comments i ++ [c])%list).

Lemma prefix_contains p s : PyStr.contains (p ++ s) p = true.
Proof.
  unfold PyStr.contains. assert (String.prefix p (p ++ s) = true) as Hp.
  { induction p as [|c p IH]; [by destruct s|].
    change (String.prefix (String c p) (String c (p ++ s)) = true). cbn [String.prefix]. by destruct (ascii_dec c c). }
  destruct (p ++ s) as [|c t] eqn:E; [by destruct p|]. cbn [String.index]. rewrite Hp. by destruct p.
Qed.

Lemma rendered_marker pr_number body not_done :
  PyStr.contains (render_part_of_comment pr_number body not_done) (part_of_marker pr_number) = true.
Proof.
  unfold render_part_of_comment. cbv zeta.
  assert (forall a b l, PyStr.contains (PyStr.join (PyStr.of_list [nl]) (a :: b :: l)) a = true) as H
    by (intros a b l; apply prefix_contains).
  destruct not_done as [[|]|]; [destruct (omap _ _)| |destruct (omap _ _)]; apply H.
Qed.

(** Two worlds that agree outside one issue, which exists in both and changed as said. *)
Definition touched (issue : string) (R : Issue -> Issue -> Prop) (w w' : World) : Prop :=
  (forall n, n <> issue -> issues w' !! n = issues w !! n) /\
  match issues w !! issue with
  | None => issues w' !! issue = None
  | Some i => exists i', issues w' !! issue = Some i' /\ R i i'
  end.

Lemma changed_touched issue f (R : Issue -> Issue -> Prop) w w' :
  changed issue f w w' -> (forall i, issues w !! issue = Some i -> R i i /\ R i (f i)) -> touched issue R w w'.
Proof.
  intros [E|(i & Ei & E)] HR; unfold touched; rewrite E.
  - split; [done|]. destruct (issues w !! issue) as [i|]; [|done]. exists i. split; [done|]. by apply HR.
  - split; [intros n Hn; by rewrite lookup_insert_ne|]. rewrite Ei. exists (f i). rewrite lookup_insert_eq.
    split; [done|]. by apply HR.
Qed.

Lemma no_labels_gone (X : gset string) : X ∖ X ⊆ PART_OF_STRIP_LABELS.
Proof. rewrite difference_diag_L. apply empty_subseteq. Qed.

Lemma fewer_labels (X Y : gset string) : Y ⊆ PART_OF_STRIP_LABELS -> X ∖ Y ⊆ X /\ X ∖ (X ∖ Y) ⊆ PART_OF_STRIP_LABELS.
Proof.
  intros Hsub. split; [apply subseteq_difference_l; reflexivity|].
  intros x [Hx Hn]%elem_of_difference. apply Hsub. destruct (decide (x ∈ Y)); [done|].
  destruct Hn. by apply elem_of_difference.
Qed.

Lemma left_open_refl issue pr_number i : left_open issue pr_number i i.
Proof. unfold left_open. do 3 (split; [done|]). split; [apply no_labels_gone|]. split; [done|by left]. Qed.

Lemma strip_spec prs issue present pr_number w result prs' w' :
  honest prs -> strip_workflow_labels fate open_prs prs issue present pr_number w = (result, prs', w') ->
  honest prs' /\ exists labels, list_to_set labels ⊆ PART_OF_STRIP_LABELS /\
    (issues w' <> issues w -> only_here issue pr_number) /\
    changed issue (fun i => {| is_body := is_body i; is_comments := is_comments i;
                               is_labels := is_labels i ∖ list_to_set labels; is_state := is_state i |}) w w'.
Proof.
  intros Hh. unfold strip_workflow_labels.
  set (to_remove := sorted_strings (present ∩ PART_OF_STRIP_LABELS)).
  assert (list_to_set to_remove ⊆ PART_OF_STRIP_LABELS) as Hsub.
  { intros l Hl%elem_of_list_to_set. unfold to_remove in Hl. rewrite elem_of_sorted_strings in Hl. by apply elem_of_intersection in Hl as [_ Hl]. }
  assert (match to_remove with [] => (NO_LABELS, prs, w) | _ :: _ =>
            let '(other_open, prs, w) := another_links fate open_prs prs issue pr_number w in
            match other_open with
            | None => (FAILED, prs, w)
            | Some true => (KEPT, prs, w)
            | Some false => let '(edited, w) := remove_labels fate issue to_remove w in (if edited then STRIPPED else FAILED, prs, w)
            end end = (result, prs', w') ->
          honest prs' /\ exists labels, list_to_set labels ⊆ PART_OF_STRIP_LABELS /\
            (issues w' <> issues w -> only_here issue pr_number) /\
            changed issue (fun i => {| is_body := is_body i; is_comments := is_comments i;
                               is_labels := is_labels i ∖ list_to_set labels; is_state := is_state i |}) w w') as Hmain.
  { destruct to_remove as [|l ls] eqn:El; [intros [= <- <- <-]; split; [done|]; exists []; by split; [|split; [|left]]|].
    rewrite <- El in *. destruct (another_links fate open_prs prs issue pr_number w) as [[other prs1] w1] eqn:Ea.
    destruct (another_links_spec _ _ _ _ _ _ _ Hh Ea) as (Hw1 & Hh1 & Hother).
    destruct other as [[]|]; [intros [= <- <- <-]; split; [done|]; exists []; split; [done|]; split; [congruence|left; congruence]| |
                              intros [= <- <- <-]; split; [done|]; exists []; split; [done|]; split; [congruence|left; congruence]].
    unfold remove_labels. destruct (change fate issue _ w1) as [edited w2] eqn:Ec. intros [= <- <- <-]. split; [done|].
    apply change_spec in Ec as [Hc _]. exists to_remove. split; [done|]. split; [auto|].
    unfold changed in *. by rewrite Hw1 in Hc. }
  subst to_remove. destruct (sorted_strings _) as [|l ls]; exact Hmain.
Qed.
Lemma touched_trans issue (R1 R2 R3 : Issue -> Issue -> Prop) w w1 w2 :
  touched issue R1 w w1 -> touched issue R2 w1 w2 ->
  (forall i i1 i2, issues w !! issue = Some i -> R1 i i1 -> R2 i1 i2 -> R3 i i2) -> touched issue R3 w w2.
Proof.
  intros [Ho H1] [Ho' H2] HR. split; [intros n Hn; by rewrite Ho', Ho|].
  destruct (issues w !! issue) as [i|] eqn:Ei.
  - destruct H1 as (i1 & E1 & HR1). rewrite E1 in H2. destruct H2 as (i2 & E2 & HR2). exists i2. split; [done|]. eauto.
  - by rewrite H1 in H2.
Qed.

Lemma touched_same issue (R : Issue -> Issue -> Prop) w w' :
  issues w' = issues w -> (forall i, R i i) -> touched issue R w w'.
Proof. intros E HR. split; [by intros; rewrite E|]. rewrite E. destruct (issues w !! issue); eauto. Qed.

(** Only the labels change, and only as [left_open] allows. *)
Definition labels_left (issue : string) (pr_number : Z) (i i' : Issue) : Prop :=
  is_state i' = is_state i /\ is_body i' = is_body i /\ is_comments i' = is_comments i /\
  is_labels i' ⊆ is_labels i /\ is_labels i ∖ is_labels i' ⊆ PART_OF_STRIP_LABELS /\
  (is_labels i' <> is_labels i -> only_here issue pr_number).

Lemma strip_touched prs issue present pr_number w result prs' w' :
  honest prs -> strip_workflow_labels fate open_prs prs issue present pr_number w = (result, prs', w') ->
  honest prs' /\ touched issue (labels_left issue pr_number) w w'.
Proof.
  intros Hh Hs. destruct (strip_spec _ _ _ _ _ _ _ _ Hh Hs) as (Hh' & labels & Hsub & Honly & Hch). split; [done|].
  destruct Hch as [E|(i & Ei & E)].
  - apply touched_same; [done|]. intros i. unfold labels_left. do 4 (split; [done|]). split; [apply no_labels_gone|done].
  - split; [intros n Hn; by rewrite E, lookup_insert_ne|]. rewrite Ei, E. eexists. rewrite lookup_insert_eq.
    split; [done|]. unfold labels_left. cbn. split; [done|]. split; [done|]. split; [done|].
    destruct (fewer_labels (is_labels i) _ Hsub) as [Hf1 Hf2]. split; [exact Hf1|]. split; [exact Hf2|]. intros Hne. apply Honly. rewrite E. intros Hsame.
    apply Hne. pose proof (f_equal (lookup issue) Hsame) as Hl. cbn beta in Hl. rewrite lookup_insert_eq, Ei in Hl.
    injection Hl as Hl. exact (f_equal is_labels Hl).
Qed.

Lemma update_touched prs issue pr_number not_done w result prs' w' :
  honest prs -> update_part_of_issue fate open_prs prs issue pr_number not_done w = (result, prs', w') ->
  honest prs' /\ touched issue (left_open issue pr_number) w w'.
Proof.
  intros Hh. unfold update_part_of_issue. destruct (view fate issue w) as [viewed w1] eqn:Ev.
  assert (issues w1 = issues w /\ (forall i, viewed = Some i -> issues w !! issue = Some i)) as [Hw1 Hview].
  { unfold view in Ev. injection Ev as <- <-. split; [done|]. by destruct (answered _). }
  destruct viewed as [i|]; [|intros [= <- <- <-]; split; [done|]; apply touched_same; [done|]; intros; apply left_open_refl].
  specialize (Hview i eq_refl). set (already := existsb _ _).
  destruct (if already then _ else _) as [posted w2] eqn:Ep.
  assert (touched issue (fun i i' => left_open issue pr_number i i' /\ is_labels i' = is_labels i) w w2) as Hpost.
  { destruct already eqn:Ea.
    - injection Ep as _ <-. apply touched_same; [done|]. intros. split; [apply left_open_refl|done].
    - apply change_spec in Ep as [Hc _]. eapply changed_touched; [unfold changed in *; rewrite Hw1 in Hc; exact Hc|].
      intros i0 Ei0. rewrite Hview in Ei0. injection Ei0 as <-.
      split; [split; [apply left_open_refl|done]|]. split; [|done]. unfold left_open. cbn.
      do 3 (split; [done|]). split; [apply no_labels_gone|]. split; [done|]. right. split; [exact Ea|].
      eexists. split; [apply rendered_marker|done]. }
  destruct posted.
  - intros Hs. destruct (strip_touched _ _ _ _ _ _ _ _ Hh Hs) as [Hh' Ht]. split; [done|].
    eapply touched_trans; [exact Hpost|exact Ht|]. intros i0 i1 i2 _ [(S1 & B1 & L1 & D1 & O1 & C1) El] (S2 & B2 & C2 & L2 & D2 & O2).
    unfold left_open. rewrite S2, B2, C2, <- El. split; [congruence|]. split; [congruence|]. done.
  - intros [= <- <- <-]. split; [done|]. destruct Hpost as [Ho Hi]. split; [done|].
    destruct (issues w !! issue); [|done]. destruct Hi as (i' & E & [H _]). by exists i'.
Qed.

(** The "Part of" issues, each once. *)
Lemma update_all_spec pr_number not_done prs l out w out' w' :
  honest prs -> NoDup l -> update_all fate open_prs pr_number not_done prs l out w = (out', w') ->
  (forall n, n ∉ l -> issues w' !! n = issues w !! n) /\
  (forall n i, n ∈ l -> issues w !! n = Some i -> exists i', issues w' !! n = Some i' /\ left_open n pr_number i i').
Proof.
  revert prs out w. induction l as [|issue l IH]; intros prs out w Hh Hnd; cbn [update_all].
  - intros [= <- <-]. split; [done|]. by intros n i ?%not_elem_of_nil.
  - apply NoDup_cons in Hnd as [Hnot Hnd].
    destruct (update_part_of_issue fate open_prs prs issue pr_number not_done w) as [[result prs1] w1] eqn:Eu. intros Hall.
    apply update_touched in Eu as [Hh1 [Ho Hi]]; [|done].
    destruct (IH _ _ _ Hh1 Hnd Hall) as [IH1 IH2]. split.
    + intros n [Hn Hl]%not_elem_of_cons. by rewrite IH1, Ho.
    + intros n i [->|Hn]%elem_of_cons Ei.
      * rewrite Ei in Hi. destruct Hi as (i1 & E1 & HR). exists i1. by rewrite IH1.
      * apply IH2; [done|]. rewrite Ho; [done|]. by intros ->.
Qed.

(** What closing an issue may do to it: nothing, or what the adapter makes of it. *)
Definition moved (i i' : Issue) : Prop := i' = i \/ exists target, target ∈ [TaskState.DONE; TaskState.ON_QA] /\ i' = transition target i.

Lemma handle_touched issue post_state w b w' :
  handle_post_merge_state fate transition issue post_state w = (b, w') -> touched issue moved w w'.
Proof.
  unfold handle_post_merge_state. destruct (String.eqb issue ""); [intros [= <- <-]; apply touched_same; [done|]; by left|].
  destruct (List.find _ _) as [target|] eqn:Ef; [|intros [= <- <-]; apply touched_same; [done|]; by left].
  destruct (change fate issue (transition target) w) as [m w1] eqn:Ec. intros [= <- <-].
  apply change_spec in Ec as [Hc _]. eapply changed_touched; [exact Hc|]. intros i _. split; [by left|]. right.
  exists target. split; [|done]. apply List.find_some in Ef as [Hin _]. by apply list_elem_of_In.
Qed.

Lemma move_all_spec post_state l out w out' w' :
  NoDup l -> move_all fate transition post_state l out w = (out', w') ->
  (forall n, n ∉ l -> issues w' !! n = issues w !! n) /\
  (forall n i, n ∈ l -> issues w !! n = Some i -> exists i', issues w' !! n = Some i' /\ moved i i').
Proof.
  revert out w. induction l as [|issue l IH]; intros out w Hnd; cbn [move_all].
  - intros [= <- <-]. split; [done|]. by intros n i ?%not_elem_of_nil.
  - apply NoDup_cons in Hnd as [Hnot Hnd].
    destruct (handle_post_merge_state fate transition issue post_state w) as [m w1] eqn:Eu. intros Hall.
    apply handle_touched in Eu as [Ho Hi]. destruct (IH _ _ Hnd Hall) as [IH1 IH2]. split.
    + intros n [Hn Hl]%not_elem_of_cons. by rewrite IH1, Ho.
    + intros n i [->|Hn]%elem_of_cons Ei.
      * rewrite Ei in Hi. destruct Hi as (i1 & E1 & HR). exists i1. by rewrite IH1.
      * apply IH2; [done|]. rewrite Ho; [done|]. by intros ->.
Qed.

(** The outcome lists. *)
Definition handled (out : MergedIssues) : list string :=
  (transitioned out ++ commented out ++ failed out ++ unlabeled out ++ kept out)%list.

Lemma move_all_handled post_state l out w out' w' :
  move_all fate transition post_state l out w = (out', w') -> handled out' ≡ₚ (handled out ++ l)%list.
Proof.
  revert out w. induction l as [|issue l IH]; intros out w; cbn [move_all]; [intros [= <- _]; by rewrite app_nil_r|].
  destruct (handle_post_merge_state _ _ _ _ _) as [m w1]. intros ->%IH.
  unfold handled. destruct m as [[]|]; cbn; solve_Permutation.
Qed.

Lemma update_all_handled pr_number not_done prs l out w out' w' :
  update_all fate open_prs pr_number not_done prs l out w = (out', w') -> handled out' ≡ₚ (handled out ++ l)%list.
Proof.
  revert prs out w. induction l as [|issue l IH]; intros prs out w; cbn [update_all]; [intros [= <- _]; by rewrite app_nil_r|].
  destruct (update_part_of_issue _ _ _ _ _ _ _) as [[result prs1] w1]. intros ->%IH.
  unfold handled, recorded. destruct result; cbn; solve_Permutation.
Qed.

(** What became of an issue of an opened pull request. *)
Definition marked (out : OpenedPrIssues) : list string :=
  (o_moved out ++ o_already out ++ map fst (o_left out) ++ o_failed out)%list.

(** The issue ends in review, or stays as it is; only an issue on its way there is moved. *)
Definition put_in_review (i i' : Issue) : Prop :=
  i' = i \/ is_state i ∈ IN_REVIEW_FROM /\ i' = transition TaskState.IN_REVIEW i.

(** What a list of the outcome says of an issue. *)
Definition told (out : OpenedPrIssues) (n : string) (i i' : Issue) : Prop :=
  (n ∈ o_moved out -> is_state i ∈ IN_REVIEW_FROM /\ i' = transition TaskState.IN_REVIEW i) /\
  (n ∈ o_already out -> is_state i = TaskState.IN_REVIEW /\ i' = i) /\
  (forall st, (n, st) ∈ o_left out -> is_state i = st /\ st ∉ TaskState.IN_REVIEW :: IN_REVIEW_FROM /\ i' = i).

Lemma mark_issue_spec issue out w out' w' :
  issue ∉ marked out -> mark_issue fate transition issue out w = (out', w') ->
  marked out' ≡ₚ (marked out ++ [issue])%list /\
  (forall n, n <> issue -> (n ∈ o_moved out' <-> n ∈ o_moved out) /\ (n ∈ o_already out' <-> n ∈ o_already out) /\
                           forall st, (n, st) ∈ o_left out' <-> (n, st) ∈ o_left out) /\
  touched issue (fun i i' => put_in_review i i' /\ told out' issue i i') w w'.
Proof.
  intros Hnew. unfold mark_issue. destruct (view fate issue w) as [viewed w1] eqn:Ev.
  assert (issues w1 = issues w /\ (forall i, viewed = Some i -> issues w !! issue = Some i)) as [Hw1 Hview].
  { unfold view in Ev. injection Ev as <- <-. split; [done|]. by destruct (answered _). }
  unfold marked in Hnew. rewrite !elem_of_app in Hnew.
  assert (forall st, (issue, st) ∉ o_left out) as Hl.
  { intros st Hin. apply Hnew. right; right; left. apply list_elem_of_fmap. by exists (issue, st). }
  assert (issue ∉ o_moved out /\ issue ∉ o_already out) as [Hm Ha] by tauto.
  assert (forall n (l : list string), n <> issue -> n ∈ (l ++ [issue])%list <-> n ∈ l) as Happ.
  { intros n l Hn. rewrite elem_of_app, list_elem_of_singleton. tauto. }
  assert (forall n st st' (l : list (string * TaskState.t)), n <> issue -> (n, st) ∈ (l ++ [(issue, st')])%list <-> (n, st) ∈ l) as Happ2.
  { intros n st st' l Hn. rewrite elem_of_app, list_elem_of_singleton. split; [|tauto]. intros [?|[= ]]; done. }
  assert (forall i i' o, o_moved o = o_moved out -> o_already o = o_already out -> o_left o = o_left out -> told o issue i i') as Hquiet.
  { intros i i' o E1 E2 E3. unfold told. rewrite E1, E2, E3. split; [done|]. split; [done|]. intros st Hin. by destruct (Hl st). }
  destruct viewed as [i|]; [specialize (Hview i eq_refl)|].
  2: { intros [= <- <-]. split; [unfold marked; cbn; solve_Permutation|]. split; [done|].
       apply touched_same; [done|]. intros i. split; [by left|]. by apply Hquiet. }
  assert (forall o, told o issue i i -> touched issue (fun i i' => put_in_review i i' /\ told o issue i i') w w1) as Hstay.
  { intros o Ht. split; [by intros; rewrite Hw1|]. rewrite Hview, Hw1. exists i. split; [done|]. split; [by left|done]. }
  destruct (decide (is_state i = TaskState.IN_REVIEW)) as [Hr|Hr];
    [rewrite bool_decide_eq_true_2 by done|rewrite bool_decide_eq_false_2 by done].
  { intros [= <- <-]. split; [unfold marked; cbn; solve_Permutation|]. split; [intros n Hn; cbn; rewrite Happ; done|].
    apply Hstay. split; [done|]. split; [done|]. cbn. intros st Hin. by destruct (Hl st). }
  destruct (decide (is_state i ∈ IN_REVIEW_FROM)) as [Hf|Hf];
    [rewrite bool_decide_eq_true_2 by done|rewrite bool_decide_eq_false_2 by done].
  - destruct (change fate issue _ w1) as [ok w2] eqn:Ec. apply change_spec in Ec as [Hc Hok]. intros [= <- <-].
    unfold changed in Hc. rewrite Hw1 in Hc.
    destruct ok.
    + split; [unfold marked; cbn; solve_Permutation|]. split; [intros n Hn; cbn; rewrite Happ; done|].
      destruct (Hok eq_refl) as (i0 & Ei0 & E2). rewrite Hw1, Hview in Ei0. injection Ei0 as <-. rewrite Hw1 in E2.
      split; [intros n Hn; by rewrite E2, lookup_insert_ne|]. rewrite Hview, E2, lookup_insert_eq. eexists. split; [done|].
      split; [by right|]. split; [done|]. split; [done|]. cbn. intros st Hin. by destruct (Hl st).
    + split; [unfold marked; cbn; solve_Permutation|]. split; [done|].
      eapply changed_touched; [exact Hc|]. intros i0 Ei0. rewrite Hview in Ei0. injection Ei0 as <-.
      split; (split; [|by apply Hquiet]); [by left|by right].
  - intros [= <- <-]. split; [unfold marked; cbn; rewrite map_app; cbn; solve_Permutation|].
    split; [intros n Hn; cbn; split; [done|]; split; [done|]; intros st; by apply Happ2|].
    apply Hstay. split; [done|]. split; [done|]. cbn. intros st [Hin|[= ->]%list_elem_of_singleton]%elem_of_app; [by destruct (Hl st)|].
    split; [done|]. split; [|done]. by apply not_elem_of_cons.
Qed.

Lemma mark_all_spec l out w out' w' :
  NoDup l -> (forall n, n ∈ l -> n ∉ marked out) -> mark_all fate transition l out w = (out', w') ->
  marked out' ≡ₚ (marked out ++ l)%list /\
  (forall n, n ∉ l -> issues w' !! n = issues w !! n /\
     (n ∈ o_moved out' <-> n ∈ o_moved out) /\ (n ∈ o_already out' <-> n ∈ o_already out) /\
     forall st, (n, st) ∈ o_left out' <-> (n, st) ∈ o_left out) /\
  (forall n i, n ∈ l -> issues w !! n = Some i ->
     exists i', issues w' !! n = Some i' /\ put_in_review i i' /\ told out' n i i').
Proof.
  revert out w. induction l as [|issue l IH]; intros out w Hnd Hnew; cbn [mark_all].
  - intros [= <- <-]. split; [by rewrite app_nil_r|]. split; [done|]. by intros n i ?%not_elem_of_nil.
  - apply NoDup_cons in Hnd as [Hnot Hnd].
    destruct (mark_issue fate transition issue out w) as [out1 w1] eqn:Em. intros Hall.
    apply mark_issue_spec in Em as (Hp & Hb & Ho & Hi); [|apply Hnew; by constructor].
    apply IH in Hall as (IH1 & IH2 & IH3); [|done|].
    2: { intros n Hn. rewrite Hp, elem_of_app, list_elem_of_singleton. intros [Hin| ->]; [|done].
         apply (Hnew n); [by constructor|done]. }
    split; [rewrite IH1, Hp; by rewrite <- app_assoc|]. split.
    + intros n [Hn Hl]%not_elem_of_cons. destruct (IH2 n Hl) as (-> & -> & -> & H). destruct (Hb n Hn) as (-> & -> & Hb').
      split; [by apply Ho|]. split; [done|]. split; [done|]. intros st. by rewrite H.
    + intros n i [->|Hn]%elem_of_cons Ei.
      * rewrite Ei in Hi. destruct Hi as (i1 & E1 & Hr & Ht). exists i1. destruct (IH2 issue Hnot) as (-> & H1 & H2 & H3).
        split; [done|]. split; [done|]. unfold told in *. setoid_rewrite H1. setoid_rewrite H2. setoid_rewrite H3. done.
      * apply IH3; [done|]. rewrite Ho; [done|]. by intros ->.
Qed.
End Lemmas.

(** ** Properties *)

Lemma links_shape body :
  let links := parse_issue_links body in
  NoDup (closes links) /\ NoDup (part_of links) /\ forall n, n ∈ closes links -> n ∉ part_of links.
Proof.
  cbn. split; [apply NoDup_dedup|]. split.
  - assert (forall (f : string -> bool) l, NoDup l -> NoDup (List.filter f l)) as H; [|apply H, NoDup_dedup].
    intros f l Hl. apply NoDup_ListNoDup, List.NoDup_filter. by apply NoDup_ListNoDup.
  - intros n Hn [_ Hf]%list_elem_of_In%List.filter_In. apply negb_true_iff, bool_decide_eq_false in Hf. done.
Qed.


(** Opening a pull request touches only the issues its body names. Each of them is in
    exactly one list of the outcome, which says the truth about it: an issue is reported as
    moved only when it was before review and is what the adapter makes of it, and one that
    is past review or kept for people is never moved. *)
Theorem opened_issues_exact fate transition pr_body w out w' :
  mark_pr_issues_in_review fate transition pr_body w = (out, w') ->
  let links := parse_issue_links pr_body in
  match out with
  | None => issues w' = issues w
  | Some out =>
      marked out ≡ₚ (closes links ++ part_of links)%list /\ NoDup (marked out) /\
      (forall n, n ∉ closes links -> n ∉ part_of links -> issues w' !! n = issues w !! n) /\
      forall n i, issues w !! n = Some i -> n ∈ closes links \/ n ∈ part_of links ->
        exists i', issues w' !! n = Some i' /\ put_in_review transition i i' /\ told transition out n i i'
  end.
Proof.
  unfold mark_pr_issues_in_review. destruct (answered _); [|by intros [= <- <-]].
  destruct (links_shape pr_body) as (Hc & Hp & Hdis). set (links := parse_issue_links pr_body) in *.
  destruct (mark_all _ _ _ _ _) as [out1 w1] eqn:E. intros [= <- <-]. cbv zeta.
  assert (NoDup (closes links ++ part_of links)%list) as Hnd by (apply NoDup_app; done).
  apply mark_all_spec in E as (H1 & H2 & H3); [|done|by intros n _ ?%not_elem_of_nil].
  cbn in H1. split; [done|]. split; [by rewrite H1|]. split.
  - intros n Hn Hn'. apply H2. rewrite elem_of_app. tauto.
  - intros n i Ei Hn. by apply H3; [apply elem_of_app|].
Qed.

(** One attempt: the open pull requests at that time, the body and the configured state. *)
Definition attempt : Type := list (Z * string) * string * string.

(** The attempts to handle one merged pull request, one after the other. *)
Fixpoint attempts (fate : nat -> Fate) (transition : TaskState.t -> Issue -> Issue) (pr_number : Z) (l : list attempt) (w : World)
    : World :=
  match l with
  | [] => w
  | (open_prs, pr_body, state) :: l =>
      attempts fate transition pr_number l (handle_merged_pr_issues fate open_prs transition pr_number pr_body state w).2
  end.

Definition marked_already (pr_number : Z) (i : Issue) : bool :=
  existsb (fun c => PyStr.contains c (part_of_marker pr_number)) (is_comments i).

(** The comments that handling one pull request leaves. *)
Definition commented_once (pr_number : Z) (i i' : Issue) : Prop :=
  is_comments i' = is_comments i \/
  marked_already pr_number i = false /\
  exists c, PyStr.contains c (part_of_marker pr_number) = true /\ is_comments i' = (is_comments i ++ [c])%list.

Lemma attempt_comments fate transition (Hkeeps : forall t i, is_comments (transition t i) = is_comments i)
  open_prs pr_number pr_body state w n i :
  issues w !! n = Some i ->
  exists i', issues (handle_merged_pr_issues fate open_prs transition pr_number pr_body state w).2 !! n = Some i' /\
             commented_once pr_number i i'.
Proof.
  intros Ei. unfold handle_merged_pr_issues. destruct (answered _); [|exists i; split; [done|by left]].
  destruct (links_shape pr_body) as (Hc & Hp & Hdis). set (links := parse_issue_links pr_body) in *.
  destruct (move_all _ _ _ _ _ _) as [out1 w1] eqn:E1. destruct (update_all _ _ _ _ _ _ _ _) as [out2 w2] eqn:E2. cbn [snd].
  apply move_all_spec in E1 as [M1 M2]; [|done]. apply update_all_spec in E2 as [U1 U2]; [|done..].
  change (issues (ticked w)) with (issues w) in *.
  assert (exists i1, issues w1 !! n = Some i1 /\ is_comments i1 = is_comments i) as (i1 & Ei1 & Ec1).
  { destruct (decide (n ∈ closes links)) as [Hin|Hout]; [|exists i; by rewrite M1].
    destruct (M2 n i Hin Ei) as (i1 & Ei1 & Hm). exists i1. split; [done|].
    destruct Hm as [->|(t & _ & ->)]; [done|apply Hkeeps]. }
  destruct (decide (n ∈ part_of links)) as [Hin|Hout]; [|exists i1; rewrite U1 by done; split; [done|by left]].
  destruct (U2 n i1 Hin Ei1) as (i2 & Ei2 & (_ & _ & _ & _ & _ & Hcom)). exists i2. split; [done|].
  unfold commented_once, marked_already. by rewrite <- Ec1.
Qed.

(** However often the handling of a merged pull request is repeated, and whatever of it
    fails or succeeds without an answer, an issue gets at most one comment for it. *)
Theorem commented_at_most_once fate transition pr_number l w n i :
  (forall t i, is_comments (transition t i) = is_comments i) ->
  issues w !! n = Some i ->
  exists i', issues (attempts fate transition pr_number l w) !! n = Some i' /\ commented_once pr_number i i'.
Proof.
  intros Hkeeps. revert w i. induction l as [|[[open_prs pr_body] state] l IH]; intros w i Ei; cbn [attempts].
  { exists i. split; [done|by left]. }
  destruct (attempt_comments fate transition Hkeeps open_prs pr_number pr_body state w n i Ei) as (i1 & Ei1 & H1).
  destruct (IH _ _ Ei1) as (i2 & Ei2 & H2). exists i2. split; [done|].
  destruct H1 as [E1|(Hnone & c & Hc & E1)]; destruct H2 as [E2|(Hnone2 & c2 & Hc2 & E2)].
  - left. congruence.
  - right. unfold marked_already in *. rewrite E1 in *. split; [done|]. by exists c2.
  - right. split; [done|]. exists c. split; [done|congruence].
  - unfold marked_already in Hnone2. rewrite E1, existsb_app in Hnone2. cbn in Hnone2. rewrite Hc in Hnone2.
    by destruct (existsb _ _).
Qed.

(** ** Examples and witnesses *)

Module Examples.

Definition close_it (t : TaskState.t) (i : Issue) : Issue :=
  {| is_body := is_body i; is_comments := is_comments i; is_labels := is_labels i; is_state := t |}.

Definition a_world : World :=
  {| issues := {["3" := {| is_body := "Bug"; is_comments := []; is_labels := ∅; is_state := TaskState.IN_REVIEW |};
                 "4" := {| is_body := "Epic"; is_comments := ["hello"]; is_labels := {["agent:in-review"; "bug"]};
                           is_state := TaskState.IN_REVIEW |}]};
     commands := 0 |}.

Definition a_body : string := "Closes #3. Part of #4.".

Local Notation after_merge := (handle_merged_pr_issues (fun _ => Done) [(7%Z, a_body)] close_it 7 a_body "done" a_world).

(** The closed issue is done; the other one has its comment, and keeps the label that is no workflow label. *)
Example merged_here :
  fmap is_state (issues after_merge.2 !! "3") = Some TaskState.DONE /\
  fmap (fun i => (length (is_comments i), bool_decide ("bug" ∈ is_labels i), bool_decide ("agent:in-review" ∈ is_labels i)))
    (issues after_merge.2 !! "4") = Some (2, true, false).
Proof. by vm_compute. Qed.


Local Notation after_opening := (mark_pr_issues_in_review (fun _ => Done) close_it a_body a_world).

Lemma opened_issues_exact_witness :
  exists out, after_opening.1 = Some out /\ NoDup (marked out).
Proof.
  pose proof (surjective_pairing after_opening) as H. apply opened_issues_exact in H.
  assert (match after_opening.1 with Some _ => true | None => false end = true) as Hs by (vm_compute; reflexivity).
  cbv zeta in H. destruct after_opening.1 as [out|]; [|discriminate Hs].
  destruct H as (_ & Hn & _). exists out. split; [reflexivity|exact Hn].
Defined.

Lemma commented_at_most_once_witness :
  exists i', issues (attempts (fun n => if Nat.even n then Done else AnswerLost) close_it 7
                       [([], a_body, "done"); ([], a_body, "done")] a_world) !! "4" = Some i' /\
             (length (is_comments i') <= 2)%nat.
Proof.
  destruct (commented_at_most_once (fun n => if Nat.even n then Done else AnswerLost) close_it 7
    [([], a_body, "done"); ([], a_body, "done")] a_world "4"
    {| is_body := "Epic"; is_comments := ["hello"]; is_labels := {["agent:in-review"; "bug"]}; is_state := TaskState.IN_REVIEW |})
    as (i' & Hi & Hc).
  - done.
  - reflexivity.
  - exists i'. split; [exact Hi|]. destruct Hc as [->|(_ & c & _ & ->)]; cbn; lia.
Defined.

End Examples.
