(* ===== verification/MergeQueue.v ===== *)
(** * MergeQueue: merging through GitHub's queue, and watching it

    The choice of the queue and the merge of sova/git/merge.py, and the monitor that
    follows the queued pull requests to their end
    (dashboard/services/merge_queue_monitor.py). The answers of GitHub, of the file
    system and of the database are arguments; what the monitor does is a list of effects. *)

From stdpp Require Import base gmap strings list pretty.
From Stdlib Require Import Ascii.
From S2P Require Import Prelude.

Local Open Scope string_scope.

(** ** Merging *)

(** The fields of [IntegrationConfig] that merging reads. *)
Record Config := { merge_queue_enabled : string; merge_method : string; delete_branch : bool; merge_queue_timeout : Z }.

(** [detect_merge_queue]: the answer of GitHub, [None] when it failed or could not be read;
    in it the queue of the branch, and whether the queue has a configuration. *)
Definition detect_merge_queue (answer : option (option bool)) : option bool :=
  match answer with
  | None => None
  | Some None => Some false
  | Some (Some configured) => Some configured
  end.

(** [should_use_merge_queue] *)
Definition should_use_merge_queue (cfg : Config) (answer : option (option bool)) : bool :=
  if String.eqb (merge_queue_enabled cfg) "true" then true
  else if String.eqb (merge_queue_enabled cfg) "false" then false
  else default false (detect_merge_queue answer).

(** [_build_merge_args] *)
Definition build_merge_args (pr_number : Z) (repo : string) (cfg : Config) (use_queue : bool) : list string :=
  (["gh"; "pr"; "merge"; pretty pr_number; "--repo"; repo]
   ++ (if use_queue then []
       else if String.eqb (merge_method cfg) "squash" then ["--squash"]
       else if String.eqb (merge_method cfg) "rebase" then ["--rebase"]
       else if String.eqb (merge_method cfg) "merge" then ["--merge"] else [])
   ++ (if delete_branch cfg && negb use_queue then ["--delete-branch"] else []))%list.

(** [class MergeResult] *)
Record MergeResult := { success : bool; merged : bool; enqueued : bool; message : string; needs_poll : bool }.

Definition or_else (s d : string) : string := if String.eqb s EmptyString then d else s.

(** [merge_pr] from the answer of the command: whether it succeeded, its output and its errors. *)
Definition merge_result (use_queue ran : bool) (stdout stderr : string) : MergeResult :=
  if negb ran then
    {| success := false; merged := false; enqueued := false;
       message := or_else (PyStr.strip stderr) (PyStr.strip stdout); needs_poll := false |}
  else
    let output := PyStr.strip stdout in
    if use_queue || PyStr.contains (PyStr.lower output) "already queued"
       || PyStr.contains (PyStr.lower output) "added to merge queue" then
      {| success := true; merged := false; enqueued := true; message := or_else output "PR enqueued in merge queue"; needs_poll := true |}
    else
      {| success := true; merged := true; enqueued := false; message := or_else output "PR merged successfully"; needs_poll := false |}.

(** ** The status of a queued pull request *)

(** [class MergeQueueStatus] *)
Record MergeQueueStatus := { in_queue : bool; state : string }.

Definition is_merged (s : MergeQueueStatus) : bool := String.eqb (state s) "MERGED".
Definition is_failed (s : MergeQueueStatus) : bool := String.eqb (state s) "UNMERGEABLE" || String.eqb (state s) "LOCKED".

(** What GitHub says of a pull request: whether it is merged, and the state of its entry
    in the queue, if it has one and the entry names a state. *)
Record PrData := { pr_merged : bool; queue_entry : option (option string) }.

(** [get_merge_queue_status]; the answer is [None] when the request failed or could not be read. *)
Definition get_merge_queue_status (answer : option PrData) : MergeQueueStatus :=
  match answer with
  | None => {| in_queue := true; state := "UNKNOWN" |}
  | Some pr =>
      if pr_merged pr then {| in_queue := false; state := "MERGED" |}
      else match queue_entry pr with
           | None => {| in_queue := false; state := "NOT_QUEUED" |}
           | Some s => {| in_queue := true; state := default "QUEUED" s |}
           end
  end.

(** ** Waiting for the queue *)

(** The status that [poll_merge_queue] gives when it stops waiting. *)
Definition timed_out : MergeQueueStatus := {| in_queue := true; state := "TIMEOUT" |}.

Definition max_consecutive_unknown : nat := 5.

Section Poll.
(** The interval and the timeout of the configuration; the [n]-th answer, how long it took,
    and how much later than asked the sleep after it ended, in the clock's units. *)
Variables (interval timeout : Z) (answers : nat -> option PrData) (took overslept : nat -> Z).

(** The loop of [poll_merge_queue] before its [n]-th request. *)
Fixpoint poll_from (fuel n : nat) (elapsed : Z) (consecutive_unknown : nat) : option MergeQueueStatus :=
  match fuel with
  | O => None
  | S fuel =>
      if Z.leb timeout elapsed then Some timed_out
      else
        let status := get_merge_queue_status (answers n) in
        if is_merged status then Some status
        else if is_failed status then Some status
        else if negb (in_queue status) then Some status
        else
          let unknown := String.eqb (state status) "UNKNOWN" in
          let consecutive_unknown := if unknown then S consecutive_unknown else O in
          if unknown && (max_consecutive_unknown <=? consecutive_unknown)%nat then Some timed_out
          else
            let remaining := (timeout - (elapsed + took n))%Z in
            if Z.leb remaining 0 then Some timed_out
            else poll_from fuel (S n) (elapsed + took n + Z.min interval remaining + overslept n) consecutive_unknown
  end.

(** [poll_merge_queue] *)
Definition poll_merge_queue (fuel : nat) : option MergeQueueStatus := poll_from fuel 0 0 0.
End Poll.

(** ** The monitor *)

(** [class MergeQueueEntry] *)
Inductive Status := QUEUED | MERGED | EJECTED | TIMEOUT.

#[export] Instance Status_eq_dec : EqDecision Status.
Proof. solve_decision. Defined.

Record Entry := {
  e_id : Z;
  e_pr_number : Z;
  e_repo : string;
  e_issue_number : option string;
  e_project_dir : string;
  e_enqueued_at : Z;
  e_status : Status;
  e_resolved_at : option Z;
  e_branch_name : string;
}.

(** What the monitor does outside the database. *)
Inductive Effect :=
  | DeleteBranch (branch repo : string)
  | TransitionIssues (pr_number : Z) (issue_number : option string)
  | CleanWorktree (issue_number : string)
  | Feed (entry : Z) (status : Status) (detail : option string)
  | Notify (entry : Z) (status : Status).

(** The answers that the check of one entry gets. *)
Record Answers := {
  status_of : outcome (option PrData);      (* GitHub on the queue *)
  pr_state : outcome string;                (* GitHub on the pull request *)
  deletion : outcome bool;                  (* deleting the branch: whether GitHub did *)
  issue_lines : outcome (list string);      (* moving the issues: a line for each action *)
  worktree_exists : bool;
  update_works : bool;                      (* the database takes the new status *)
}.

(** The exceptions that a step of the clean-up catches. *)
Definition caught (e : exn) : bool :=
  match e with RuntimeError _ | OSError _ | TimeoutError => true | _ => false end.
Definition caught_by_transition (e : exn) : bool :=
  caught e || match e with ValueError _ | AdapterError _ => true | _ => false end.

(** The effects of a check, and the status it gives; [None] for an entry that stays as it
    is. An exception that ends the check leaves the effects before it. *)
Definition Check : Type := list Effect * option Status.

(** [_handle_merged] *)
Definition handle_merged (a : Answers) (entry : Entry) : Check :=
  let branch := e_branch_name entry in
  let deletes := if String.eqb branch EmptyString then [] else [DeleteBranch branch (e_repo entry)] in
  let after_deletion (actions : list string) : Check :=
    let transitions := [TransitionIssues (e_pr_number entry) (e_issue_number entry)] in
    let after_transition (actions : list string) : Check :=
      let worktree := match e_issue_number entry with
                      | Some ((String _ _) as issue) => if worktree_exists a then [CleanWorktree issue] else []
                      | _ => []
                      end in
      ((deletes ++ transitions ++ worktree
        ++ [Feed (e_id entry) MERGED (match actions with [] => None | _ => Some (PyStr.join ", " actions) end);
            Notify (e_id entry) MERGED])%list,
       Some MERGED) in
    match issue_lines a with
    | Ret lines => after_transition (actions ++ lines)%list
    | Raise e => if caught_by_transition e then after_transition actions else ((deletes ++ transitions)%list, None)
    end in
  if String.eqb branch EmptyString then after_deletion []
  else match deletion a with
       | Ret _ => after_deletion ["branch '" ++ branch ++ "' deleted"]
       | Raise e => if caught e then after_deletion [] else (deletes, None)
       end.

(** [_handle_ejected], [_handle_timeout] *)
Definition handle_end (status : Status) (detail : string) (entry : Entry) : Check :=
  ([Feed (e_id entry) status (Some detail); Notify (e_id entry) status], Some status).

Definition handle_ejected (entry : Entry) : Check :=
  handle_end EJECTED ("Manual re-enqueue required for " ++ e_repo entry) entry.

Definition handle_timeout (entry : Entry) : Check :=
  handle_end TIMEOUT ("Check " ++ e_repo entry ++ " merge queue status manually") entry.

(** [_check_pr_merged_directly], whose exception is [None] when it is not caught. *)
Definition check_pr_merged_directly (a : Answers) : option bool :=
  match pr_state a with
  | Ret s => Some (String.eqb s "MERGED")
  | Raise e => if caught e then Some false else None
  end.

(** [_check_entry] *)
Definition check_entry (cfg : Config) (now : Z) (a : Answers) (entry : Entry) : Check :=
  match status_of a with
  | Raise _ => ([], None)
  | Ret answer =>
      let status := get_merge_queue_status answer in
      if is_merged status then handle_merged a entry
      else if is_failed status then handle_ejected entry
      else if negb (in_queue status) && String.eqb (state status) "NOT_QUEUED" then
        match check_pr_merged_directly a with
        | Some true => handle_merged a entry
        | Some false => handle_ejected entry
        | None => ([], None)
        end
      else if Z.ltb (merge_queue_timeout cfg) (now - e_enqueued_at entry) then handle_timeout entry
      else ([], None)
  end.

(** [_update_entry_status] *)
Definition update_entry_status (id : Z) (status : Status) (now : Z) (db : list Entry) : list Entry :=
  map (fun e => if Z.eqb (e_id e) id
                then {| e_id := e_id e; e_pr_number := e_pr_number e; e_repo := e_repo e; e_issue_number := e_issue_number e;
                        e_project_dir := e_project_dir e; e_enqueued_at := e_enqueued_at e; e_status := status;
                        e_resolved_at := Some now; e_branch_name := e_branch_name e |}
                else e) db.

(** [_load_queued_entries] *)
Definition load_queued_entries (project_dir : string) (db : list Entry) : list Entry :=
  List.filter (fun e => bool_decide (e_status e = QUEUED) && String.eqb (e_project_dir e) project_dir) db.

(** The loop of [_poll_cycle]; the answers are those for each entry. *)
Fixpoint check_all (cfg : Config) (now : Z) (answers : Z -> Answers) (entries db : list Entry) : list Effect * list Entry :=
  match entries with
  | [] => ([], db)
  | entry :: entries =>
      let a := answers (e_id entry) in
      let '(effects, status) := check_entry cfg now a entry in
      let db := match status with
                | Some s => if update_works a then update_entry_status (e_id entry) s now db else db
                | None => db
                end in
      let '(rest, db) := check_all cfg now answers entries db in
      ((effects ++ rest)%list, db)
  end.

(** [_poll_cycle]; [should_skip] is the quota of the identity, [loaded] whether the
    database answered. *)
Definition poll_cycle (cfg : Config) (project_dir : string) (should_skip loaded : bool) (now : Z) (answers : Z -> Answers)
    (db : list Entry) : list Effect * list Entry :=
  if should_skip then ([], db)
  else check_all cfg now answers (if loaded then load_queued_entries project_dir db else []) db.

(** [create_merge_queue_entry]: the id of the new entry, [None] for a duplicate. *)
Definition create_merge_queue_entry (id pr_number : Z) (repo project_dir branch_name : string) (issue_number : option string)
    (now : Z) (db : list Entry) : option Z * list Entry :=
  if existsb (fun e => Z.eqb (e_pr_number e) pr_number && String.eqb (e_repo e) repo && bool_decide (e_status e = QUEUED)) db
  then (None, db)
  else (Some id,
        (db ++ [{| e_id := id; e_pr_number := pr_number; e_repo := repo;
                   e_issue_number := match issue_number with Some EmptyString => None | i => i end;
                   e_project_dir := project_dir; e_enqueued_at := now; e_status := QUEUED; e_resolved_at := None;
                   e_branch_name := branch_name |}])%list).

(** ** Lemmas *)

(** GitHub says that the pull request is merged. *)
Definition seen_merged (a : Answers) : Prop :=
  exists pr, status_of a = Ret (Some pr) /\
    (pr_merged pr = true \/ queue_entry pr = Some (Some "MERGED") \/ queue_entry pr = None /\ pr_state a = Ret "MERGED").

(** GitHub says that the queue will not merge it; or it is in no queue, and is not seen merged. *)
Definition seen_out (a : Answers) : Prop :=
  exists pr, status_of a = Ret (Some pr) /\ pr_merged pr = false /\
    (queue_entry pr = Some (Some "UNMERGEABLE") \/ queue_entry pr = Some (Some "LOCKED") \/
     (queue_entry pr = None /\ pr_state a <> Ret "MERGED")).

(** The grounds of a status. *)
Definition grounds (cfg : Config) (now : Z) (a : Answers) (entry : Entry) (s : Status) : Prop :=
  match s with
  | QUEUED => False
  | MERGED => seen_merged a
  | EJECTED => seen_out a
  | TIMEOUT => (merge_queue_timeout cfg < now - e_enqueued_at entry)%Z /\ ~ seen_merged a /\ ~ seen_out a
  end.

Lemma handle_merged_status a entry : (handle_merged a entry).2 = Some MERGED \/ (handle_merged a entry).2 = None.
Proof. unfold handle_merged. repeat case_match; cbn; auto. Qed.

(** The state of GitHub's answer, case by case. *)
Lemma check_cases cfg now a entry :
  (status_of a = Ret None \/ exists e, status_of a = Raise e) /\ ~ seen_merged a /\ ~ seen_out a \/
  seen_merged a /\ check_entry cfg now a entry = handle_merged a entry \/
  seen_out a /\ (check_entry cfg now a entry = handle_ejected entry \/ check_entry cfg now a entry = ([], None)) \/
  ~ seen_merged a /\ ~ seen_out a /\ (exists pr, status_of a = Ret (Some pr) /\ queue_entry pr <> None) /\
  (check_entry cfg now a entry = ([], None) \/ check_entry cfg now a entry = handle_timeout entry).
Proof.
  unfold check_entry, seen_merged, seen_out.
  destruct (status_of a) as [[pr|]|e]; [|left; naive_solver..].
  unfold get_merge_queue_status. destruct (pr_merged pr) eqn:Em; [right; left; cbn; naive_solver|].
  destruct (queue_entry pr) as [[s|]|] eqn:Eq; cbn [is_merged is_failed state in_queue default].
  - unfold is_merged, is_failed; cbn [state in_queue default].
    destruct (String.eqb_spec s "MERGED") as [->|]; [right; left; naive_solver|].
    destruct (String.eqb_spec s "UNMERGEABLE") as [->|]; [right; right; left; naive_solver|].
    destruct (String.eqb_spec s "LOCKED") as [->|]; [right; right; left; naive_solver|].
    right. right. right. split; [naive_solver congruence|]. split; [naive_solver congruence|]. split; [by exists pr; rewrite Eq|].
    cbn. rewrite !(proj2 (String.eqb_neq _ _)) by done. cbn. destruct (Z.ltb _ _); auto.
  - right. right. right. split; [naive_solver congruence|]. split; [naive_solver congruence|]. split; [by exists pr; rewrite Eq|].
    cbn. destruct (Z.ltb _ _); auto.
  - cbn. unfold check_pr_merged_directly. destruct (pr_state a) as [s|e] eqn:Es.
    + destruct (String.eqb_spec s "MERGED") as [->|]; [right; left; naive_solver|]. right. right. left. naive_solver congruence.
    + right. right. left. split; [naive_solver congruence|]. destruct (caught e); auto.
Qed.

Lemma check_grounds cfg now a entry s : (check_entry cfg now a entry).2 = Some s -> grounds cfg now a entry s.
Proof.
  destruct (check_cases cfg now a entry) as [([E|(e & E)] & Hm & Ho)|[(Hm & ->)|[(Ho & [->| ->])|(Hm & Ho & (pr & E & Hq) & _)]]].
  - unfold check_entry. rewrite E. cbn. destruct (Z.ltb_spec (merge_queue_timeout cfg) (now - e_enqueued_at entry)); [|done].
    intros [= <-]. done.
  - unfold check_entry. by rewrite E.
  - destruct (handle_merged_status a entry) as [->| ->]; [intros [= <-]|]; done.
  - intros [= <-]. done.
  - done.
  - intros H. unfold check_entry in H. rewrite E in H. unfold get_merge_queue_status in H.
    destruct (pr_merged pr) eqn:Em; [destruct Hm; exists pr; auto|].
    destruct (queue_entry pr) as [q|] eqn:Eq; [|done]. unfold is_merged, is_failed in H. cbn [state in_queue] in H.
    destruct (String.eqb_spec (default "QUEUED" q) "MERGED") as [Es|].
    { destruct Hm. exists pr. destruct q as [q|]; [|done]. cbn in Es. subst q. auto. }
    destruct (_ || _) eqn:Ef.
    { destruct Ho. exists pr. split; [done|]. split; [done|]. destruct q as [q|]; [|done]. cbn in Ef.
      apply orb_true_iff in Ef as [->%String.eqb_eq| ->%String.eqb_eq]; auto. }
    cbn in H. destruct (Z.ltb_spec (merge_queue_timeout cfg) (now - e_enqueued_at entry)); [|done].
    injection H as <-. done.
Qed.

(** The entry with a status that the database took. *)
Definition resolved (now : Z) (s : Status) (e : Entry) : Entry :=
  {| e_id := e_id e; e_pr_number := e_pr_number e; e_repo := e_repo e; e_issue_number := e_issue_number e;
     e_project_dir := e_project_dir e; e_enqueued_at := e_enqueued_at e; e_status := s;
     e_resolved_at := Some now; e_branch_name := e_branch_name e |}.

(** What a cycle makes of one entry that it watches. *)
Definition after_check (cfg : Config) (now : Z) (answers : Z -> Answers) (e : Entry) : Entry :=
  let a := answers (e_id e) in
  match (check_entry cfg now a e).2 with
  | Some s => if update_works a then resolved now s e else e
  | None => e
  end.

Lemma update_one id s now db :
  update_entry_status id s now db = map (fun e => if Z.eqb (e_id e) id then resolved now s e else e) db.
Proof. done. Qed.

Lemma same_entry (db : list Entry) e e' : NoDup (map e_id db) -> e ∈ db -> e' ∈ db -> e_id e = e_id e' -> e = e'.
Proof.
  intros Hdb (i & Hi)%list_elem_of_lookup (j & Hj)%list_elem_of_lookup Eid.
  assert (i = j) as ->; [|congruence].
  eapply NoDup_lookup; [exact Hdb|rewrite (list_lookup_fmap e_id), Hi; done|rewrite (list_lookup_fmap e_id), Hj; cbn; by rewrite Eid].
Qed.

(** An event or a notification of an entry tells the status that its check gives. *)
Definition tells (entry : Entry) (c : Check) (effect : Effect) : Prop :=
  match effect with
  | Feed id s _ | Notify id s => e_id entry = id /\ c.2 = Some s
  | _ => True
  end.

Lemma merged_tells a entry effect : effect ∈ (handle_merged a entry).1 -> tells entry (handle_merged a entry) effect.
Proof.
  intros Hin. destruct effect as [| | |id s d|id s]; try exact I; unfold tells, handle_merged in *;
    repeat case_match; cbn [fst snd] in *; rewrite ?elem_of_app, ?elem_of_cons in Hin; set_solver.
Qed.

Lemma check_tells cfg now a entry effect :
  effect ∈ (check_entry cfg now a entry).1 -> tells entry (check_entry cfg now a entry) effect.
Proof.
  unfold check_entry, handle_ejected, handle_timeout, handle_end.
  repeat (case_match; try (by intros ?%not_elem_of_nil)); try apply merged_tells;
    cbn [fst]; intros [->|[->|?%not_elem_of_nil]%elem_of_cons]%elem_of_cons; done.
Qed.

Lemma check_cleans cfg now a entry effect :
  effect ∈ (check_entry cfg now a entry).1 ->
  match effect with DeleteBranch _ _ | TransitionIssues _ _ | CleanWorktree _ => seen_merged a | _ => True end.
Proof.
  intros Hin. destruct (check_cases cfg now a entry) as [(E & _)|[(Hm & _)|[(_ & E)|(_ & _ & _ & E)]]].
  - assert (check_entry cfg now a entry = ([], None) \/ check_entry cfg now a entry = handle_timeout entry) as [Ec|Ec].
    { unfold check_entry. destruct E as [->|(e & ->)]; [|by left]. cbn. destruct (Z.ltb _ _); auto. }
    + rewrite Ec in Hin. by apply not_elem_of_nil in Hin.
    + rewrite Ec in Hin. by apply elem_of_cons in Hin as [->|[->|?%not_elem_of_nil]%elem_of_cons].
  - by destruct effect.
  - destruct E as [E|E]; rewrite E in Hin; [|by apply not_elem_of_nil in Hin].
    by apply elem_of_cons in Hin as [->|[->|?%not_elem_of_nil]%elem_of_cons].
  - destruct E as [E|E]; rewrite E in Hin; [by apply not_elem_of_nil in Hin|].
    by apply elem_of_cons in Hin as [->|[->|?%not_elem_of_nil]%elem_of_cons].
Qed.

Lemma check_effects cfg now a entry effect :
  effect ∈ (check_entry cfg now a entry).1 ->
  match effect with
  | DeleteBranch _ _ | TransitionIssues _ _ | CleanWorktree _ => seen_merged a
  | Feed id s _ | Notify id s => e_id entry = id /\ grounds cfg now a entry s
  end.
Proof.
  intros Hin. pose proof (check_cleans _ _ _ _ _ Hin) as Hclean. pose proof (check_tells _ _ _ _ _ Hin) as Htell.
  destruct effect; try done; destruct Htell as [<- Hs]; (split; [done|]); by apply check_grounds.
Qed.

(** The loop over entries with distinct ids, none of which is seen twice. *)
Lemma check_all_pointwise cfg now answers entries db :
  NoDup (map e_id entries) -> NoDup (map e_id db) -> (forall e, e ∈ entries -> e ∈ db) ->
  check_all cfg now answers entries db =
  (concat (map (fun e => (check_entry cfg now (answers (e_id e)) e).1) entries),
   map (fun e => if bool_decide (e_id e ∈ map e_id entries) then after_check cfg now answers e else e) db).
Proof.
  revert db. induction entries as [|entry entries IH]; intros db Hnd Hdb Hin; cbn [check_all].
  { cbn. f_equal. by rewrite map_id. }
  apply NoDup_cons in Hnd as [Hnot Hnd].
  destruct (check_entry cfg now (answers (e_id entry)) entry) as [effects status] eqn:Ec.
  set (db1 := match status with Some s => _ | None => db end).
  assert (db1 = map (fun e => if Z.eqb (e_id e) (e_id entry) then after_check cfg now answers e else e) db) as Hdb1.
  { assert (forall e, e ∈ db -> e_id e = e_id entry -> e = entry) as Hsame.
    { intros e He Eid. apply (same_entry db); [done|done|apply Hin; by constructor|done]. }
    transitivity (map (fun e => if Z.eqb (e_id e) (e_id entry) then after_check cfg now answers entry else e) db).
    - unfold after_check. rewrite Ec. cbn [snd]. unfold db1. destruct status as [s|].
      + destruct (update_works _); [rewrite update_one|]; [|rewrite <- (map_id db) at 1]; apply map_ext_in;
          intros e He%list_elem_of_In; destruct (Z.eqb_spec (e_id e) (e_id entry)) as [E|]; try done; by rewrite (Hsame e He E).
      + rewrite <- (map_id db) at 1. apply map_ext_in. intros e He%list_elem_of_In.
        destruct (Z.eqb_spec (e_id e) (e_id entry)) as [E|]; [by rewrite (Hsame e He E)|done].
    - apply map_ext_in. intros e He%list_elem_of_In. destruct (Z.eqb_spec (e_id e) (e_id entry)) as [E|]; [by rewrite (Hsame e He E)|done]. }
  assert (forall e, e_id (after_check cfg now answers e) = e_id e) as Hid.
  { intros e. unfold after_check. repeat case_match; done. }
  rewrite (IH db1).
  - cbn. rewrite Ec. f_equal. rewrite Hdb1, map_map. apply map_ext. intros e.
    destruct (Z.eqb_spec (e_id e) (e_id entry)) as [E|E].
    + rewrite Hid, E. rewrite (bool_decide_eq_false_2 (e_id entry ∈ _)) by done.
      rewrite bool_decide_eq_true_2 by constructor. done.
    + destruct (decide (e_id e ∈ map e_id entries)) as [Hm|Hm].
      * rewrite !bool_decide_eq_true_2 by (done || by constructor). done.
      * rewrite !bool_decide_eq_false_2; [done| |done]. by apply not_elem_of_cons.
  - done.
  - rewrite Hdb1, map_map. erewrite map_ext; [exact Hdb|]. intros e. cbv beta. by destruct (Z.eqb _ _).
  - intros e He. rewrite Hdb1. apply list_elem_of_fmap. exists e. split; [|apply Hin; by constructor].
    destruct (Z.eqb_spec (e_id e) (e_id entry)) as [E|]; [|done]. destruct Hnot. rewrite <- E.
    apply list_elem_of_fmap. by exists e.
Qed.

(** ** The wait *)

Section PollLemmas.
Context (interval timeout : Z) (answers : nat -> option PrData) (took overslept : nat -> Z).
Context (Hinterval : (0 < interval)%Z) (Htook : forall n, (0 <= took n)%Z) (Hover : forall n, (0 <= overslept n)%Z).

Let status (n : nat) := get_merge_queue_status (answers n).

(** The pull request is still waiting. *)
Definition waits (s : MergeQueueStatus) : bool := negb (is_merged s) && negb (is_failed s) && in_queue s.

(** The time before a request, when all before it said to wait. *)
Fixpoint poll_time (n : nat) : Z :=
  match n with
  | O => 0
  | S n => let answered := (poll_time n + took n)%Z in answered + Z.min interval (timeout - answered) + overslept n
  end.

(** The reasons to give up after the requests before the [n]-th, the last one included. *)
Definition gives_up (n : nat) : Prop :=
  (timeout <= poll_time n)%Z \/
  waits (status n) = true /\
  ((timeout <= poll_time n + took n)%Z \/
   (max_consecutive_unknown <= S n)%nat /\
   forall k, (S n - max_consecutive_unknown <= k <= n)%nat -> state (status k) = "UNKNOWN").

Lemma poll_time_grows n :
  (poll_time n + took n < timeout)%Z ->
  (timeout <= poll_time (S n))%Z \/ (poll_time n + interval <= poll_time (S n))%Z.
Proof using Htook Hover. intros H. cbn [poll_time]. specialize (Htook n). specialize (Hover n). lia. Qed.

Lemma poll_from_ends fuel n unknown :
  (Z.to_nat (timeout / interval) + 2 <= fuel + n)%nat ->
  (timeout <= poll_time n \/ Z.of_nat n * interval <= poll_time n)%Z ->
  (n <= Z.to_nat (timeout / interval) + 1)%nat ->
  (forall k, (k < n)%nat -> waits (status k) = true) ->
  (unknown <= n)%nat -> (unknown < max_consecutive_unknown)%nat ->
  (forall k, (n - unknown <= k < n)%nat -> state (status k) = "UNKNOWN") ->
  exists s m, poll_from interval timeout answers took overslept fuel n (poll_time n) unknown = Some s /\
    (m <= Z.to_nat (timeout / interval) + 1)%nat /\ (forall k, (k < m)%nat -> waits (status k) = true) /\
    ((poll_time m < timeout)%Z /\ waits (status m) = false /\ s = status m \/ gives_up m /\ s = timed_out).
Proof using Hinterval Htook Hover.
  revert n unknown. induction fuel as [|fuel IH]; intros n unknown Hfuel Htime Hn Hw Hu Hu5 Hunk; [lia|].
  cbn [poll_from]. destruct (Z.leb_spec timeout (poll_time n)) as [Hlate|Hearly].
  { exists timed_out, n. split; [done|]. split; [done|]. split; [done|]. right. split; [by left|done]. }
  fold (status n).
  assert (forall s, s = status n -> waits (status n) = false -> exists s' m, Some s = Some s' /\
    (m <= Z.to_nat (timeout / interval) + 1)%nat /\ (forall k, (k < m)%nat -> waits (status k) = true) /\
    ((poll_time m < timeout)%Z /\ waits (status m) = false /\ s' = status m \/ gives_up m /\ s' = timed_out)) as Hfinal.
  { intros s -> Hs. exists (status n), n. split; [done|]. split; [done|]. split; [done|]. by left. }
  unfold waits in Hfinal.
  destruct (is_merged (status n)) eqn:Em; [by apply Hfinal|]. destruct (is_failed (status n)) eqn:Ef; [by apply Hfinal|].
  destruct (in_queue (status n)) eqn:Eq; [|by apply Hfinal]. cbn [negb]. clear Hfinal.
  assert (waits (status n) = true) as Hwn by (unfold waits; by rewrite Em, Ef, Eq).
  assert (forall k, (k < S n)%nat -> waits (status k) = true) as Hw'.
  { intros k Hk. destruct (decide (k = n)) as [->|]; [done|]. apply Hw. lia. }
  set (unknown' := if String.eqb (state (status n)) "UNKNOWN" then S unknown else O).
  assert (forall k, (S n - unknown' <= k < S n)%nat -> state (status k) = "UNKNOWN") as Hunk'.
  { intros k Hk. unfold unknown' in Hk. destruct (String.eqb_spec (state (status n)) "UNKNOWN") as [E|]; [|lia].
    destruct (decide (k = n)) as [->|]; [done|]. apply Hunk. lia. }
  destruct (String.eqb (state (status n)) "UNKNOWN" && _) eqn:E5.
  { apply andb_true_iff in E5 as [Es E5%Nat.leb_le]. exists timed_out, n. split; [done|]. split; [done|]. split; [done|]. right.
    split; [|done]. right. split; [done|]. right. unfold unknown' in *. rewrite Es in *. unfold max_consecutive_unknown in *.
    split; [lia|]. intros k Hk. apply Hunk'. lia. }
  destruct (Z.leb_spec (timeout - (poll_time n + took n)) 0) as [Hl|Hl].
  { exists timed_out, n. split; [done|]. split; [done|]. split; [done|]. right. split; [|done]. right. split; [done|]. left. lia. }
  change (poll_time n + took n + _ + _)%Z with (poll_time (S n)).
  pose proof (poll_time_grows n ltac:(lia)) as Hgrow.
  apply IH; [lia| |  |done| | |exact Hunk'].
  - lia.
  - assert (Z.of_nat n <= timeout / interval)%Z; [apply Z.div_le_lower_bound; lia|lia].
  - unfold unknown'. case_match; lia.
  - unfold unknown' in *. unfold max_consecutive_unknown in *. destruct (String.eqb _ _); [|lia].
    cbn [andb] in E5. apply Nat.leb_gt in E5. lia.
Qed.
End PollLemmas.

(** ** Properties *)

(** C25: A cycle of the monitor treats each entry of its project that is still queued once, on
    its own, and no other. Such an entry ends only on the grounds of its status: merged
    when GitHub says so, ejected when GitHub says that it left the queue and does not say
    that it is merged, timed out when neither and the time is up. The branch and the
    issues of a pull request are touched only when GitHub says that it is merged. *)
Theorem queue_monitor_exact cfg project_dir should_skip loaded now answers db effects db' :
  NoDup (map e_id db) ->
  poll_cycle cfg project_dir should_skip loaded now answers db = (effects, db') ->
  let watched e := negb should_skip && loaded && bool_decide (e_status e = QUEUED) && String.eqb (e_project_dir e) project_dir in
  db' = map (fun e => if watched e then after_check cfg now answers e else e) db /\
  effects = concat (map (fun e => (check_entry cfg now (answers (e_id e)) e).1) (List.filter watched db)) /\
  (forall e, e ∈ db -> watched e = true -> after_check cfg now answers e = e \/
     exists s, grounds cfg now (answers (e_id e)) e s /\ after_check cfg now answers e = resolved now s e) /\
  (forall effect, effect ∈ effects ->
     match effect with
     | DeleteBranch _ _ | TransitionIssues _ _ | CleanWorktree _ => exists e, e ∈ db /\ watched e = true /\ seen_merged (answers (e_id e))
     | Feed id s _ | Notify id s => exists e, e ∈ db /\ watched e = true /\ e_id e = id /\ grounds cfg now (answers id) e s
     end).
Proof.
  intros Hnd Hpoll watched.
  assert (effects = concat (map (fun e => (check_entry cfg now (answers (e_id e)) e).1) (List.filter watched db)) /\
          db' = map (fun e => if watched e then after_check cfg now answers e else e) db) as [Heff Hdb].
  { unfold poll_cycle in Hpoll. destruct should_skip; [|destruct loaded].
    - injection Hpoll as <- <-. unfold watched. cbn. rewrite map_id, filter_none. done.
    - unfold load_queued_entries in Hpoll. rewrite check_all_pointwise in Hpoll; [|by apply NoDup_map_filter|done|].
      + injection Hpoll as <- <-. split; [done|]. apply map_ext_in. intros e He%list_elem_of_In.
        destruct (watched e) eqn:Ew.
        * rewrite bool_decide_eq_true_2; [done|]. apply list_elem_of_fmap. exists e. split; [done|].
          by apply list_elem_of_In, List.filter_In; split; [apply list_elem_of_In|].
        * rewrite bool_decide_eq_false_2; [done|]. intros (e' & Eid & He')%list_elem_of_fmap.
          apply list_elem_of_In, List.filter_In in He' as [He'%list_elem_of_In Hw].
          rewrite (same_entry db e e' Hnd He He' Eid) in Ew. unfold watched in Ew. cbn in Ew. congruence.
      + intros e He. by apply list_elem_of_In, List.filter_In in He as [He%list_elem_of_In _].
    - injection Hpoll as <- <-. unfold watched. cbn. rewrite map_id, filter_none. done. }
  split; [done|]. split; [done|]. split.
  - intros e _ _. unfold after_check. destruct (check_entry cfg now (answers (e_id e)) e).2 as [s|] eqn:Ec; [|by left].
    destruct (update_works _); [|by left]. right. exists s. split; [by apply check_grounds|done].
  - intros effect Hin. rewrite Heff in Hin. apply list_elem_of_In, in_concat in Hin as (l & Hl & Hin).
    apply in_map_iff in Hl as (e & <- & He). apply List.filter_In in He as [He%list_elem_of_In Hw].
    apply list_elem_of_In in Hin. apply check_effects in Hin.
    destruct effect; [by exists e..| |]; destruct Hin as [<- Hg]; by exists e.
Qed.

(** Waiting for the queue ends within the timeout's number of intervals, whatever GitHub
    answers: with the first status that is not to wait, read before the time was up, or
    with a timeout, and then because the time is up or five readings in a row said nothing. *)
Theorem queue_wait_ends interval timeout answers took overslept fuel :
  (0 < interval)%Z -> (forall n, 0 <= took n)%Z -> (forall n, 0 <= overslept n)%Z ->
  (Z.to_nat (timeout / interval) + 2 <= fuel)%nat ->
  exists s n, poll_merge_queue interval timeout answers took overslept fuel = Some s /\
    (n <= Z.to_nat (timeout / interval) + 1)%nat /\
    (forall k, (k < n)%nat -> waits (get_merge_queue_status (answers k)) = true) /\
    ((poll_time interval timeout took overslept n < timeout)%Z /\ waits (get_merge_queue_status (answers n)) = false /\
       s = get_merge_queue_status (answers n) \/
     gives_up interval timeout answers took overslept n /\ s = timed_out).
Proof.
  intros Hi Ht Ho Hfuel. unfold poll_merge_queue.
  apply (poll_from_ends interval timeout answers took overslept Hi Ht Ho fuel 0 0);
    unfold max_consecutive_unknown; cbn; lia.
Qed.

(** No exception escapes the check: GitHub answered on the queue, and what fails after that
    is what the monitor catches. *)
Definition tame (a : Answers) : Prop :=
  (exists answer, status_of a = Ret answer) /\
  (forall e, pr_state a = Raise e -> caught e = true) /\ (forall e, deletion a = Raise e -> caught e = true) /\
  (forall e, issue_lines a = Raise e -> caught_by_transition e = true).

Lemma tame_merged a entry : tame a -> (handle_merged a entry).2 = Some MERGED.
Proof.
  intros (_ & _ & Hd & Hi). unfold handle_merged.
  destruct (String.eqb (e_branch_name entry) ""); [by destruct (issue_lines a) as [l|e]; [|rewrite (Hi e eq_refl)]|].
  destruct (deletion a) as [b|e]; [|rewrite (Hd e eq_refl)];
    by destruct (issue_lines a) as [l|e']; [|rewrite (Hi e' eq_refl)].
Qed.

(** An entry does not wait for ever: once its time is up, and GitHub and the database
    answer, the next cycle that watches it gives it a final status. *)
Theorem overdue_entry_resolved cfg now answers entry :
  let a := answers (e_id entry) in
  tame a -> update_works a = true -> (merge_queue_timeout cfg < now - e_enqueued_at entry)%Z ->
  exists s, s <> QUEUED /\ after_check cfg now answers entry = resolved now s entry /\ grounds cfg now a entry s.
Proof.
  cbv zeta. intros Htame Hup Htime.
  assert (exists s, (check_entry cfg now (answers (e_id entry)) entry).2 = Some s) as [s Hs].
  { pose proof (tame_merged _ entry Htame) as Hm. destruct Htame as ((answer & E) & Hp & _).
    unfold check_entry. rewrite E. destruct (is_merged _); [by eexists|]. destruct (is_failed _); [by eexists|].
    rewrite (proj2 (Z.ltb_lt _ _) Htime). unfold check_pr_merged_directly.
    destruct (_ && _); [|by eexists]. destruct (pr_state _) as [st|e] eqn:Ep; [destruct (String.eqb st "MERGED"); by eexists|].
    rewrite (Hp e eq_refl). by eexists. }
  pose proof (check_grounds _ _ _ _ _ Hs) as Hg. exists s. split; [by intros ->|].
  unfold after_check. by rewrite Hs, Hup.
Qed.

(** ** The queue over time *)

(** What can happen to the table: an entry is created under a new id, or a monitor runs a cycle. *)
Inductive step (cfg : Config) : list Entry -> list Entry -> Prop :=
  | step_create id pr repo project branch issue now db :
      id ∉ map e_id db ->
      step cfg db (create_merge_queue_entry id pr repo project branch issue now db).2
  | step_poll project should_skip loaded now answers db :
      step cfg db (poll_cycle cfg project should_skip loaded now answers db).2.

Definition queued_once (db : list Entry) : Prop :=
  NoDup (map e_id db) /\
  forall e e', e ∈ db -> e' ∈ db -> e_status e = QUEUED -> e_status e' = QUEUED ->
    e_pr_number e = e_pr_number e' -> e_repo e = e_repo e' -> e = e'.

Lemma after_check_same cfg now answers e :
  e_id (after_check cfg now answers e) = e_id e /\ e_pr_number (after_check cfg now answers e) = e_pr_number e /\
  e_repo (after_check cfg now answers e) = e_repo e /\
  (e_status (after_check cfg now answers e) = QUEUED -> after_check cfg now answers e = e).
Proof.
  unfold after_check. destruct (check_entry _ _ _ _).2 as [s|] eqn:Ec; [|done]. destruct (update_works _); [|done].
  split; [done|]. split; [done|]. split; [done|]. cbn. intros ->. apply check_grounds in Ec. done.
Qed.

Lemma poll_table cfg project should_skip loaded now answers db :
  NoDup (map e_id db) -> exists watched,
    (poll_cycle cfg project should_skip loaded now answers db).2 =
    map (fun e => if watched e : bool then after_check cfg now answers e else e) db.
Proof.
  intros Hnd. unfold poll_cycle. destruct should_skip; [exists (fun _ => false); cbn; by rewrite map_id|].
  destruct loaded; [|exists (fun _ => false); cbn; by rewrite map_id].
  unfold load_queued_entries. rewrite check_all_pointwise; [|by apply NoDup_map_filter|done|].
  - eexists (fun e => bool_decide _). reflexivity.
  - intros e He. by apply list_elem_of_In, List.filter_In in He as [He%list_elem_of_In _].
Qed.

(** However entries are created and cycles run, a pull request has at most one queued entry. *)
Theorem one_queued_entry cfg db db' : queued_once db -> rtc (step cfg) db db' -> queued_once db'.
Proof.
  intros Hq. induction 1 as [|db db1 db' Hstep _ IH]; [done|]. apply IH. clear IH.
  destruct Hq as [Hnd Hone]. destruct Hstep as [id pr repo project branch issue now db Hid|project skip loaded now answers db].
  - unfold create_merge_queue_entry. destruct (existsb _ _) eqn:Ex; [done|]. cbn [snd]. split.
    + rewrite map_app. apply NoDup_app. split; [done|]. split; [|apply NoDup_singleton].
      intros i Hi E%list_elem_of_singleton. cbn in E. by subst i.
    + apply not_true_iff_false in Ex.
      assert (forall e, e ∈ db -> e_status e = QUEUED -> e_pr_number e = pr -> e_repo e = repo -> False) as Hnew.
      { intros e He Hs Hp Hr. apply Ex, existsb_exists. exists e. split; [by apply list_elem_of_In|].
        rewrite Hp, Hr, Z.eqb_refl, String.eqb_refl, bool_decide_eq_true_2 by done. done. }
      intros e e' [He|He%list_elem_of_singleton]%elem_of_app [He'|He'%list_elem_of_singleton]%elem_of_app; subst; cbn; intros; auto.
      * by destruct (Hnew e).
      * by destruct (Hnew e').
  - destruct (poll_table cfg project skip loaded now answers db Hnd) as [watched ->].
    set (f := fun e => if watched e then after_check cfg now answers e else e).
    assert (forall e, e_id (f e) = e_id e /\ e_pr_number (f e) = e_pr_number e /\ e_repo (f e) = e_repo e /\
                      (e_status (f e) = QUEUED -> f e = e)) as Hf.
    { intros e. unfold f. destruct (watched e); [apply after_check_same|done]. }
    split.
    + rewrite map_map. erewrite map_ext; [exact Hnd|]. intros e. apply Hf.
    + intros e e' (x & -> & Hx)%list_elem_of_fmap (y & -> & Hy)%list_elem_of_fmap Hs Hs' Hp Hr.
      destruct (Hf x) as (_ & _ & _ & Ex). destruct (Hf y) as (_ & _ & _ & Ey).
      specialize (Ex Hs). specialize (Ey Hs'). rewrite Ex in Hs, Hp, Hr |- *. rewrite Ey in Hs', Hp, Hr |- *. by apply Hone.
Qed.

(** ** Examples and witnesses *)

Module Examples.

Definition a_config : Config := {| merge_queue_enabled := "auto"; merge_method := "squash"; delete_branch := true; merge_queue_timeout := 3600 |}.

Definition an_entry : Entry :=
  {| e_id := 1; e_pr_number := 7; e_repo := "o/r"; e_issue_number := Some "3"; e_project_dir := "/p"; e_enqueued_at := 0;
     e_status := QUEUED; e_resolved_at := None; e_branch_name := "feat/x" |}.

Definition merged_answers (deleted : outcome bool) : Answers :=
  {| status_of := Ret (Some {| pr_merged := true; queue_entry := None |}); pr_state := Ret "MERGED"; deletion := deleted;
     issue_lines := Ret ["issue #3 moved to done"]; worktree_exists := true; update_works := true |}.

(** The answer of the deletion is dropped: the feed reports a branch as deleted that GitHub refused to delete. *)
Example deletion_reported_anyway :
  In (Feed 1 MERGED (Some "branch 'feat/x' deleted, issue #3 moved to done"))
     (check_entry a_config 10 (merged_answers (Ret false)) an_entry).1.
Proof. vm_compute. tauto. Qed.

(** A pull request that is in no queue counts as ejected when its state cannot be read. *)
Example unreadable_is_ejected :
  (check_entry a_config 10
     {| status_of := Ret (Some {| pr_merged := false; queue_entry := None |}); pr_state := Raise (RuntimeError "network");
        deletion := Ret true; issue_lines := Ret []; worktree_exists := false; update_works := true |} an_entry).2 = Some EJECTED.
Proof. reflexivity. Qed.

Example merge_arguments :
  build_merge_args 7 "o/r" a_config false = ["gh"; "pr"; "merge"; "7"; "--repo"; "o/r"; "--squash"; "--delete-branch"].
Proof. reflexivity. Qed.

Lemma queue_monitor_exact_witness :
  (poll_cycle a_config "/p" false true 10 (fun _ => merged_answers (Ret true)) [an_entry]).2 = [resolved 10 MERGED an_entry].
Proof.
  destruct (poll_cycle a_config "/p" false true 10 (fun _ => merged_answers (Ret true)) [an_entry]) as [effects db'] eqn:E.
  destruct (queue_monitor_exact a_config "/p" false true 10 (fun _ => merged_answers (Ret true)) [an_entry] effects db') as [H _];
    [apply NoDup_singleton|exact E|]. exact H.
Defined.

(** Four failed readings and one that answers do not end the wait; five in a row do. *)
Example patience :
  let answers bad n := if (n <? bad)%nat then None else if (n =? bad)%nat then Some {| pr_merged := false; queue_entry := Some None |}
                       else Some {| pr_merged := true; queue_entry := None |} in
  map (fun bad => state <$> poll_merge_queue 30 1800 (answers bad) (fun _ => 1%Z) (fun _ => 0%Z) 62) [4; 5]
  = [Some "MERGED"; Some "TIMEOUT"].
Proof. reflexivity. Qed.

Lemma queue_wait_ends_witness :
  exists s, poll_merge_queue 30 1800 (fun _ => Some {| pr_merged := false; queue_entry := Some None |}) (fun _ => 1%Z) (fun _ => 0%Z) 62
            = Some s.
Proof.
  destruct (queue_wait_ends 30 1800 (fun _ => Some {| pr_merged := false; queue_entry := Some None |}) (fun _ => 1%Z) (fun _ => 0%Z) 62)
    as (s & n & Hs & _); [lia|intros; lia|intros; lia|vm_compute; lia|].
  by exists s.
Defined.

Lemma overdue_entry_resolved_witness :
  exists s, s <> QUEUED /\ after_check a_config 5000 (fun _ => merged_answers (Ret true)) an_entry = resolved 5000 s an_entry.
Proof.
  destruct (overdue_entry_resolved a_config 5000 (fun _ => merged_answers (Ret true)) an_entry) as (s & H1 & H2 & _).
  - split; [by eexists|]. by repeat split.
  - reflexivity.
  - reflexivity.
  - by exists s.
Defined.

Lemma one_queued_entry_witness :
  queued_once (create_merge_queue_entry 2 7 "o/r" "/p" "b" None 5 [an_entry]).2.
Proof.
  apply (one_queued_entry a_config [an_entry]).
  - split; [apply NoDup_singleton|]. intros e e' ->%list_elem_of_singleton ->%list_elem_of_singleton. done.
  - apply rtc_once, step_create. cbn. intros ?%list_elem_of_singleton. done.
Defined.

End Examples.
