(* ===== verification/CiMonitor.v ===== *)
(** * CiMonitor: waiting for the checks of a pull request, and repairing them

    The reading of checks in sova/git/pr.py and the step of
    sova/core/steps/monitor_ci.py. What GitHub, git, the clock and the model answer are
    arguments; the step's polling loop and its loop of repairs are written out with their
    state. Heartbeats and logs are left out. *)

From stdpp Require Import base gmap strings list pretty.
From Stdlib Require Import Ascii.
From S2P Require Import Prelude Workflow.

Local Open Scope string_scope.

(** ** Checks *)

(** [class CheckStatus] *)
Inductive CheckStatus := CS_QUEUED | CS_IN_PROGRESS | CS_COMPLETED.

(** [class CheckConclusion] *)
Inductive CheckConclusion :=
  | CC_SUCCESS | CC_FAILURE | CC_NEUTRAL | CC_CANCELLED | CC_TIMED_OUT | CC_ACTION_REQUIRED | CC_SKIPPED.

#[export] Instance CheckStatus_eq_dec : EqDecision CheckStatus.
Proof. solve_decision. Defined.
#[export] Instance CheckConclusion_eq_dec : EqDecision CheckConclusion.
Proof. solve_decision. Defined.

(** [class CICheck] *)
Record CICheck := { c_name : string; c_status : CheckStatus; c_conclusion : option CheckConclusion; c_details_url : string }.

Definition is_completed (c : CICheck) : bool := bool_decide (c_status c = CS_COMPLETED).
Definition is_passed (c : CICheck) : bool := is_completed c && bool_decide (c_conclusion c = Some CC_SUCCESS).
Definition is_failed (c : CICheck) : bool :=
  is_completed c
  && bool_decide (c_conclusion c ∈ [Some CC_FAILURE; Some CC_TIMED_OUT; Some CC_ACTION_REQUIRED]).

(** What a command of gh answers: whether it succeeded, what it wrote, and the JSON of
    its output when it is what is expected. *)
Record Gh (A : Type) := { ran : bool; stderr : string; parsed : option A }.
Arguments ran {A} _. Arguments stderr {A} _. Arguments parsed {A} _.

Definition lookup_or {A} (d : A) (table : list (string * A)) (k : string) : A :=
  match List.find (fun kv => String.eqb kv.1 k) table with Some kv => kv.2 | None => d end.

(** [_GH_STATE_MAP] *)
Definition GH_STATE_MAP : list (string * (CheckStatus * option CheckConclusion)) :=
  [("SUCCESS", (CS_COMPLETED, Some CC_SUCCESS)); ("FAILURE", (CS_COMPLETED, Some CC_FAILURE));
   ("TIMED_OUT", (CS_COMPLETED, Some CC_TIMED_OUT)); ("ERROR", (CS_COMPLETED, Some CC_FAILURE));
   ("STARTUP_FAILURE", (CS_COMPLETED, Some CC_FAILURE)); ("PENDING", (CS_IN_PROGRESS, None));
   ("QUEUED", (CS_QUEUED, None)); ("IN_PROGRESS", (CS_IN_PROGRESS, None)); ("SKIPPING", (CS_COMPLETED, Some CC_SKIPPED));
   ("SKIPPED", (CS_COMPLETED, Some CC_SKIPPED)); ("CANCELLED", (CS_COMPLETED, Some CC_CANCELLED));
   ("NEUTRAL", (CS_COMPLETED, Some CC_NEUTRAL)); ("EXPECTED", (CS_COMPLETED, Some CC_NEUTRAL));
   ("STALE", (CS_COMPLETED, Some CC_NEUTRAL)); ("ACTION_REQUIRED", (CS_COMPLETED, Some CC_ACTION_REQUIRED))].

(** An entry of [gh pr checks], its state ["PENDING"] when it names none. *)
Record PrCheck := { k_name : string; k_state : string; k_link : string }.

(** [get_ci_checks] *)
Definition get_ci_checks (r : Gh (list PrCheck)) : option (list CICheck) :=
  if negb (ran r) then if PyStr.contains (stderr r) "no checks reported" then Some [] else None
  else
    map (fun item => let '(status, conclusion) := lookup_or (CS_IN_PROGRESS, None) GH_STATE_MAP (k_state item) in
                     {| c_name := k_name item; c_status := status; c_conclusion := conclusion; c_details_url := k_link item |})
    <$> parsed r.

(** [ShellResult.is_rate_limited] *)
Definition is_rate_limited {A} (r : Gh A) : bool :=
  negb (ran r) && (PyStr.contains (PyStr.lower (stderr r)) "rate limit" || PyStr.contains (PyStr.lower (stderr r)) "abuse detection").

(** [sha_has_workflow_runs]; the answer is the number of runs. *)
Definition sha_has_workflow_runs (r : Gh nat) : option bool :=
  if negb (ran r) then
    if is_rate_limited r then None else if PyStr.contains (stderr r) "HTTP 404" then Some false else None
  else (fun n => negb (n =? 0)%nat) <$> parsed r.

(** [get_pr_head_sha]; empty for a failure. *)
Definition get_pr_head_sha (r : Gh string) : string := if ran r then default "" (parsed r) else "".

(** *** The checks of a commit *)

(** [_CHECK_RUN_STATUS_MAP] *)
Definition CHECK_RUN_STATUS_MAP : list (string * CheckStatus) :=
  [("queued", CS_QUEUED); ("in_progress", CS_IN_PROGRESS); ("completed", CS_COMPLETED)].

(** [_CHECK_RUN_CONCLUSION_MAP] *)
Definition CHECK_RUN_CONCLUSION_MAP : list (string * option CheckConclusion) :=
  [("success", Some CC_SUCCESS); ("failure", Some CC_FAILURE); ("neutral", Some CC_NEUTRAL); ("cancelled", Some CC_CANCELLED);
   ("timed_out", Some CC_TIMED_OUT); ("action_required", Some CC_ACTION_REQUIRED); ("skipped", Some CC_SKIPPED);
   ("stale", Some CC_NEUTRAL); ("startup_failure", Some CC_FAILURE)].

(** [_COMMIT_STATUS_STATE_MAP] *)
Definition COMMIT_STATUS_STATE_MAP : list (string * (CheckStatus * option CheckConclusion)) :=
  [("success", (CS_COMPLETED, Some CC_SUCCESS)); ("failure", (CS_COMPLETED, Some CC_FAILURE));
   ("error", (CS_COMPLETED, Some CC_FAILURE)); ("pending", (CS_IN_PROGRESS, None))].

Definition PAGE : nat := 100.
(** [_MAX_CHECK_PAGES] *)
Definition MAX_CHECK_PAGES : nat := 50.

Record RunItem := { r_name : string; r_status : string; r_conclusion : string; r_url : string }.
Record StatusItem := { s_context : string; s_state : string; s_url : string }.

(** [_is_unknown_commit_error] *)
Definition is_unknown_commit_error {A} (r : Gh A) : bool :=
  negb (ran r) && (PyStr.contains (stderr r) "HTTP 404" || PyStr.contains (stderr r) "HTTP 422"
                   || PyStr.contains (stderr r) "No commit found").

(** [_has_more_pages] *)
Definition has_more_pages {A} (items : list A) (total_count : option nat) : bool :=
  negb (length items =? 0)%nat && (length items mod PAGE =? 0)%nat
  && match total_count with None => true | Some t => (length items <? t)%nat end.

(** [_fetch_remaining_pages] with [allowed] pages before the limit; a page is [None] when its
    request failed or its answer cannot be read. *)
Fixpoint fetch_remaining_pages {A} (pages : nat -> option (list A)) (allowed : nat) (items : list A) (total_count : option nat)
    : option (list A) :=
  if has_more_pages items total_count then
    match allowed with
    | O => None
    | S allowed =>
        match pages (MAX_CHECK_PAGES - allowed)%nat with
        | None => None
        | Some page_items =>
            let items := (items ++ page_items)%list in
            if (length page_items <? PAGE)%nat then Some items
            else fetch_remaining_pages pages allowed items total_count
        end
    end
  else Some items.

(** One endpoint: its first answer, with the count it reports, and the further pages. *)
Record Endpoint (A : Type) := { first_page : Gh (list A * option nat); next_pages : nat -> option (list A) }.
Arguments first_page {A} _. Arguments next_pages {A} _.

Definition all_items {A} (e : Endpoint A) (first : list A * option nat) : option (list A) :=
  fetch_remaining_pages (next_pages e) (MAX_CHECK_PAGES - 1) first.1 first.2.

Definition check_of_run (item : RunItem) : CICheck :=
  let status := lookup_or CS_IN_PROGRESS CHECK_RUN_STATUS_MAP (r_status item) in
  let conclusion := lookup_or None CHECK_RUN_CONCLUSION_MAP (r_conclusion item) in
  {| c_name := r_name item; c_status := status;
     c_conclusion := if bool_decide (status = CS_COMPLETED) && negb (String.eqb (r_conclusion item) "") && bool_decide (conclusion = None)
                     then Some CC_FAILURE else conclusion;
     c_details_url := r_url item |}.

Definition check_of_status (item : StatusItem) : CICheck :=
  let '(status, conclusion) := lookup_or (CS_IN_PROGRESS, None) COMMIT_STATUS_STATE_MAP (s_state item) in
  {| c_name := s_context item; c_status := status; c_conclusion := conclusion; c_details_url := s_url item |}.

(** What [get_ci_checks_for_sha] answers: the exception [UnknownCommitError], [None], or checks. *)
Inductive ShaReply := UnknownCommit | NotFetched | Fetched (checks : list CICheck).

Record ShaAnswers := { check_runs : Endpoint RunItem; statuses : Endpoint StatusItem }.

(** [get_ci_checks_for_sha] *)
Definition get_ci_checks_for_sha (a : ShaAnswers) : ShaReply :=
  let runs := first_page (check_runs a) in
  let stats := first_page (statuses a) in
  if negb (ran runs) || negb (ran stats) then
    if is_unknown_commit_error runs && is_unknown_commit_error stats then UnknownCommit else NotFetched
  else
    match parsed runs, parsed stats with
    | Some runs, Some stats =>
        match all_items (check_runs a) runs with
        | None => NotFetched
        | Some run_items =>
            match all_items (statuses a) stats with
            | None => NotFetched
            | Some status_items => Fetched (map check_of_run run_items ++ map check_of_status status_items)
            end
        end
    | _, _ => NotFetched
    end.

(** ** Polling *)

(** [class CIConfig]; the times in seconds. *)
Record CIConfig := {
  poll_interval : Z;
  max_wait : Z;
  no_checks_grace_period : Z;
  max_fix_attempts : nat;
  exclude_checks : list string;
}.

(** The readings of the clock are in units of which a second has [TICKS]. *)
Definition TICKS : Z := 1000.

(** [[c for c in checks if not any(pat in c.name for pat in exclude)]] *)
Definition excluded (cfg : CIConfig) (c : CICheck) : bool := existsb (PyStr.contains (c_name c)) (exclude_checks cfg).
Definition kept (cfg : CIConfig) (checks : list CICheck) : list CICheck := List.filter (fun c => negb (excluded cfg c)) checks.

(** What one round of the loop is told. *)
Record Round := {
  a_sha : string -> ShaAnswers;      (* GitHub on a commit *)
  a_pr : Gh (list PrCheck);          (* gh on the pull request *)
  a_pr_again : Gh (list PrCheck);    (* and once more *)
  a_head : Gh string;                (* the head of the pull request *)
  a_runs : string -> Gh nat;         (* the workflow runs of a commit *)
  a_grace_clock : Z;                 (* the clock when the grace period is looked at, or restarted *)
  a_end_clock : Z;                   (* the clock at the end of the round *)
}.

(** The reasons of [_pr_confirms_no_checks]. *)
Inductive Unconfirmed := PR_REPORTS_CHECKS | PR_LOOKUP_FAILED | RUN_WITHOUT_CHECKS | RUN_LOOKUP_UNREADABLE.

(** [_pr_confirms_no_checks]: [None] when it confirms. *)
Definition pr_confirms_no_checks (cfg : CIConfig) (a : Round) (sha : string) (pr_checks : option (list CICheck)) : option Unconfirmed :=
  match (match pr_checks with Some l => Some l | None => get_ci_checks (a_pr_again a) end) with
  | None => Some PR_LOOKUP_FAILED
  | Some l =>
      match kept cfg l with
      | _ :: _ => Some PR_REPORTS_CHECKS
      | [] =>
          match sha_has_workflow_runs (a_runs a sha) with
          | None => Some RUN_LOOKUP_UNREADABLE
          | Some true => Some RUN_WITHOUT_CHECKS
          | Some false => None
          end
      end
  end.

(** [_find_pr_head_mismatch]: the head, when it is known to be another commit. *)
Definition find_pr_head_mismatch (a : Round) (expected_sha : string) : option string :=
  let head_sha := get_pr_head_sha (a_head a) in
  if String.eqb head_sha "" then None else if String.eqb head_sha expected_sha then None else Some head_sha.

(** How the polling ends. *)
Inductive Ended :=
  | AllExcluded                                  (* every check is excluded *)
  | NoChecks (elapsed : Z)                       (* there is no CI *)
  | AllPassed (checks : list CICheck)
  | Failing (failed : list CICheck)
  | NothingPassed (checks : list CICheck)        (* cancelled, and none passed *)
  | UnknownHead (sha : string)                   (* the commit is not on the remote *)
  | TimedOut.

(** A set of completed checks. *)
Definition verdict_of (checks : list CICheck) : Ended :=
  match List.filter is_failed checks with
  | (_ :: _) as failed => Failing failed
  | [] =>
      if negb (existsb is_passed checks) && existsb (fun c => bool_decide (c_conclusion c = Some CC_CANCELLED)) checks
      then NothingPassed checks else AllPassed checks
  end.

(** The local variables of [_poll_ci]. *)
Record Polling := { expected : string; grace_start : Z; elapsed : Z }.

(** [elapsed = int(time.monotonic() - start_time)] at the end of a round *)
Definition next_round (start_time : Z) (a : Round) (expected : string) (grace_start : Z) : Ended + Polling :=
  inr {| expected := expected; grace_start := grace_start; elapsed := (a_end_clock a - start_time) / TICKS |}.

(** A round that could read the checks. *)
Definition round_with (cfg : CIConfig) (start_time : Z) (a : Round) (st : Polling) (checks : list CICheck) : Ended + Polling :=
  let again := next_round start_time a (expected st) (grace_start st) in
  match kept cfg checks with
  | [] =>
      let grace_elapsed := Z.leb (no_checks_grace_period cfg * TICKS) (a_grace_clock a - grace_start st) in
      if negb grace_elapsed then again
      else match checks with
      | _ :: _ => inl AllExcluded
      | [] =>
          let confirm_sha := if String.eqb (expected st) "" then get_pr_head_sha (a_head a) else expected st in
          if String.eqb confirm_sha "" then again
          else
            match pr_confirms_no_checks cfg a confirm_sha (if String.eqb (expected st) "" then Some [] else None) with
            | Some _ => again
            | None => inl (NoChecks (elapsed st))
            end
      end
  | (_ :: _) as checks =>
      if forallb is_completed checks then
        match (if String.eqb (expected st) "" then None else find_pr_head_mismatch a (expected st)) with
        | Some new_head => next_round start_time a new_head (a_grace_clock a)
        | None => inl (verdict_of checks)
        end
      else again
  end.

(** One round of the loop: the end of it, or the state for the next round. *)
Definition poll_round (cfg : CIConfig) (start_time : Z) (a : Round) (st : Polling) : Ended + Polling :=
  let again := next_round start_time a (expected st) (grace_start st) in
  if String.eqb (expected st) "" then
    match get_ci_checks (a_pr a) with
    | None => again
    | Some checks => round_with cfg start_time a st checks
    end
  else
    match get_ci_checks_for_sha (a_sha a (expected st)) with
    | UnknownCommit =>
        let head_sha := get_pr_head_sha (a_head a) in
        if String.eqb head_sha "" || String.eqb head_sha (expected st) then again else inl (UnknownHead (expected st))
    | NotFetched => again
    | Fetched checks => round_with cfg start_time a st checks
    end.

(** The loop from the [n]-th round; [None] when the fuel runs out. *)
Fixpoint poll_loop (cfg : CIConfig) (start_time : Z) (rounds : nat -> Round) (fuel n : nat) (st : Polling) : option Ended :=
  match fuel with
  | O => None
  | S fuel =>
      if Z.ltb (elapsed st) (max_wait cfg) then
        match poll_round cfg start_time (rounds n) st with
        | inl e => Some e
        | inr st => poll_loop cfg start_time rounds fuel (S n) st
        end
      else Some TimedOut
  end.

(** The start of a polling: the clock, and the local head, empty when it cannot be read. *)
Record PollStart := { s_clock : Z; s_local_head : string; s_rounds : nat -> Round }.

(** [_poll_ci] before its result is rendered. *)
Definition poll_ended (cfg : CIConfig) (fuel : nat) (p : PollStart) (expected_sha : string) : option Ended :=
  poll_loop cfg (s_clock p) (s_rounds p) fuel 0
    {| expected := if String.eqb expected_sha "" then s_local_head p else expected_sha; grace_start := s_clock p; elapsed := 0 |}.

Definition names_of (checks : list CICheck) : string := PyStr.join ", " (map c_name checks).
Definition nat_text (n : nat) : string := pretty n.

Definition passed_result (summary : string) : StepResult :=
  {| sr_success := true; sr_summary := summary; sr_error := None; sr_cost_usd := 0; sr_awaiting_approval := false;
     sr_handoff_actions := []; sr_partial_work := false; sr_usage := None; sr_runaway_triggered := false |}.

(** The result and the failed checks of a polling. *)
Definition poll_result (cfg : CIConfig) (e : Ended) : StepResult * list CICheck :=
  match e with
  | AllExcluded => (passed_result "No CI checks found (all excluded via ci.exclude_checks), proceeding", [])
  | NoChecks elapsed => (passed_result ("No CI checks found after " ++ pretty elapsed ++ "s grace period, proceeding"), [])
  | AllPassed checks => (passed_result ("All " ++ nat_text (length checks) ++ " CI checks passed"), [])
  | Failing failed => (failed_result ("CI failed: " ++ names_of failed) ("Failed checks: " ++ names_of failed), failed)
  | NothingPassed checks =>
      (failed_result ("CI checks completed without any passing: " ++ names_of checks) ("No passing checks: " ++ names_of checks), [])
  | UnknownHead sha =>
      (failed_result ("Polled commit " ++ PyStr.slice_to 8 sha ++ " is not on the remote; push may have failed")
                     ("GitHub has no record of commit " ++ sha), [])
  | TimedOut => (failed_result "CI monitoring timed out" ("Timed out after " ++ pretty (max_wait cfg) ++ "s"), [])
  end.

(** [_poll_ci] *)
Definition poll_ci (cfg : CIConfig) (fuel : nat) (p : PollStart) (expected_sha : string) : option (StepResult * list CICheck) :=
  poll_result cfg <$> poll_ended cfg fuel p expected_sha.

(** ** Repairing *)

(** What the model's invocation gives: its cost, or a [RuntimeError], which may be a timeout. *)
Inductive Invocation := Answered (cost : Z) | LlmFailed (timed_out : bool) (msg : string).

(** What one attempt at a repair is told. *)
Record Repair := {
  f_fraction : option string;        (* the remaining resources as a text, when they are below the threshold *)
  f_invoke : Invocation;
  f_changes : bool;                  (* git status succeeds and shows changes *)
  f_add : bool;                      (* git add succeeds *)
  f_commit : bool;                   (* git commit succeeds *)
  f_hook : option (bool * string);   (* the pre-push hook: whether it passes, and its output *)
  f_ahead : option string;           (* git rev-list --count, when it succeeds *)
  f_head : string;                   (* the local head *)
  f_push : option string;            (* the error of the push *)
  f_poll : PollStart;
}.

(** [_ensure_committed] *)
Definition ensure_committed (f : Repair) : option bool :=
  if negb (f_changes f) then Some false
  else if negb (f_add f) then None
  else if f_commit f then Some true else None.

(** The commits that the branch is ahead by. *)
Definition ahead_count (f : Repair) : Z :=
  match f_ahead f with
  | None => 0
  | Some out => let out := PyStr.strip out in default 0%Z (PyStr.int_of (if String.eqb out "" then "0" else out))
  end.

(** [_validate_fix]: whether to skip the attempt, and the result that ends the step. *)
Definition validate_fix (f : Repair) (attempt max_attempts : nat) : bool * option StepResult :=
  let reject (summary error : string) : bool * option StepResult :=
    if (attempt =? max_attempts)%nat then (false, Some (failed_result summary error)) else (true, None) in
  let n := nat_text max_attempts in
  match ensure_committed f with
  | None => reject ("CI fix failed to stage/commit after " ++ n ++ " attempt(s)")
                   "git add or git commit failed; changes remain uncommitted"
  | Some _ =>
      match f_hook f with
      | Some (false, output) => reject ("CI fix failed local validation after " ++ n ++ " attempt(s)") (PyStr.slice_to 1000 output)
      | _ =>
          if Z.eqb (ahead_count f) 0
          then reject ("CI fix produced no pushable commit after " ++ n ++ " attempt(s)")
                      "Auto-recovery needs a committed fix before pushing"
          else (false, None)
      end
  end.

(** What the loop does outside: it invokes the model, and pushes a head. *)
Inductive Action := Invoke (attempt : nat) | Push (head : string).

Definition cost_of (i : Invocation) : Z := match i with Answered c => c | LlmFailed _ _ => 0 end.

(** [_invoke_fix]: whether the model was called, the cost, and the error. *)
Definition invoke_fix (max_budget spent : Z) (f : Repair) : bool * Z * option (bool * string) :=
  if Z.leb (max_budget - spent) 0 then (false, 0%Z, Some (false, "Budget exhausted"))
  else (true, cost_of (f_invoke f), match f_invoke f with Answered _ => None | LlmFailed t msg => Some (t, msg) end).

(** [format_fix_llm_failure] *)
Definition format_fix_llm_failure (timed_out : bool) (msg : string) (cycle : nat) : string :=
  (if timed_out then "fix_llm_timeout" else "fix_llm_failed") ++ " on cycle " ++ nat_text cycle ++ ": " ++ msg.

(** [result.cost_usd += cost] *)
Definition costing (cost : Z) (r : StepResult) : StepResult :=
  {| sr_success := sr_success r; sr_summary := sr_summary r; sr_error := sr_error r; sr_cost_usd := sr_cost_usd r + cost;
     sr_awaiting_approval := sr_awaiting_approval r; sr_handoff_actions := sr_handoff_actions r;
     sr_partial_work := sr_partial_work r; sr_usage := sr_usage r; sr_runaway_triggered := sr_runaway_triggered r |}.

(** The loop of [_try_fix_ci] with [n] attempts left; the result is [None] when a polling
    runs out of fuel. *)
Fixpoint fix_loop (cfg : CIConfig) (max_budget : Z) (fuel : nat) (repairs : nat -> Repair) (max_attempts n : nat)
    (failed : list CICheck) (total spent : Z) : list Action * option StepResult :=
  match n with
  | O => ([], Some (costing total (failed_result
            ("CI still failing after " ++ nat_text max_attempts ++ " fix attempt(s): " ++ names_of failed)
            ("Failed checks after " ++ nat_text max_attempts ++ " fix attempt(s): " ++ names_of failed))))
  | S n' =>
      let attempt := (max_attempts - n')%nat in
      let f := repairs attempt in
      if Z.ltb max_budget spent then
        ([], Some (costing total (failed_result
               ("CI fix aborted: budget exceeded after " ++ nat_text (attempt - 1) ++ " attempt(s)")
               ("Budget exceeded. Remaining failures: " ++ names_of failed))))
      else match f_fraction f with
      | Some fraction =>
          ([], Some (costing total (failed_result
                 ("CI still failing after " ++ nat_text (attempt - 1) ++ " fix attempt(s); stopping retries at " ++ fraction
                  ++ " resource remaining. Remaining failures: " ++ names_of failed)
                 ("Failed checks: " ++ names_of failed))))
      | None =>
          let '(called, cost, error) := invoke_fix max_budget spent f in
          let invoked := if called then [Invoke attempt] else [] in
          let total := (total + cost)%Z in
          let spent := (spent + cost)%Z in
          match error with
          | Some (timed_out, msg) =>
              (invoked, Some (costing total (failed_result
                          ("CI fix LLM invocation failed on attempt " ++ nat_text attempt ++ ": " ++ msg)
                          (format_fix_llm_failure timed_out msg attempt))))
          | None =>
              match validate_fix f attempt max_attempts with
              | (_, Some result) => (invoked, Some (costing total result))
              | (true, None) =>
                  let '(actions, result) := fix_loop cfg max_budget fuel repairs max_attempts n' failed total spent in
                  ((invoked ++ actions)%list, result)
              | (false, None) =>
                  match f_push f with
                  | Some error =>
                      (invoked, Some (costing total (failed_result
                                  ("CI fix push failed on attempt " ++ nat_text attempt ++ ": " ++ error) error)))
                  | None =>
                      let pushed := (invoked ++ [Push (f_head f)])%list in
                      match poll_ci cfg fuel (f_poll f) (f_head f) with
                      | None => (pushed, None)
                      | Some (result, new_failed) =>
                          if sr_success result then
                            (pushed, Some (costing total (passed_result
                                       ("CI passed after " ++ nat_text attempt ++ " fix attempt(s)"))))
                          else match new_failed with
                          | [] => (pushed, Some (costing total result))
                          | _ :: _ =>
                              let '(actions, result) := fix_loop cfg max_budget fuel repairs max_attempts n' new_failed total spent in
                              ((pushed ++ actions)%list, result)
                          end
                      end
                  end
              end
          end
      end
  end.

(** ** The step *)

(** [_MAX_CI_FIX_ATTEMPTS] *)
Definition MAX_CI_FIX_ATTEMPTS : nat := 3.

(** [_check_existing_ci]; the lookup is [None] when it raised. *)
Definition check_existing_ci (cfg : CIConfig) (lookup : option (Gh (list PrCheck))) : option StepResult :=
  match lookup ≫= get_ci_checks with
  | None | Some [] => None
  | Some checks =>
      match kept cfg checks with
      | [] => None
      | checks =>
          if (length (List.filter is_completed checks) <? length checks)%nat then None
          else match List.filter is_failed checks with
               | (_ :: _) as failed =>
                   Some (failed_result ("CI already failed: " ++ names_of failed) ("Failed checks: " ++ names_of failed))
               | [] => Some (passed_result ("All " ++ nat_text (length checks) ++ " CI checks already passed (no new push)"))
               end
      end
  end.

(** [_check_ci_on_resume] *)
Definition check_ci_on_resume (cfg : CIConfig) (local_head : string) (a : Round) : option StepResult :=
  let checks := if String.eqb local_head "" then get_ci_checks (a_pr a)
                else match get_ci_checks_for_sha (a_sha a local_head) with Fetched l => Some l | _ => None end in
  match kept cfg (default [] checks) with
  | [] => None
  | checks =>
      if negb (forallb is_completed checks) then None
      else match (if String.eqb local_head "" then None else find_pr_head_mismatch a local_head) with
      | Some _ => None
      | None =>
          Some (match verdict_of checks with
                | Failing failed => failed_result ("CI failed: " ++ names_of failed) ("Failed checks: " ++ names_of failed)
                | NothingPassed checks =>
                    failed_result ("CI checks completed without any passing: " ++ names_of checks)
                                  ("No passing checks: " ++ names_of checks)
                | _ => passed_result ("CI already passed (resumed after interruption, " ++ nat_text (length checks) ++ " checks)")
                end)
      end
  end.

(** What the step is told. *)
Record StepInput := {
  i_pr_number : option Z;
  i_no_new_commits : bool;
  i_existing : option (Gh (list PrCheck));
  i_resuming : bool;
  i_resume_head : string;
  i_resume : Round;
  i_poll : PollStart;
  i_repairs : nat -> Repair;
  i_max_budget : Z;
  i_spent : Z;
}.

(** [MonitorCIStep.execute] *)
Definition execute (cfg : CIConfig) (fuel : nat) (i : StepInput) : list Action * option StepResult :=
  match i_pr_number i with
  | None => ([], Some (failed_result "No PR to monitor" "pr_number is None"))
  | Some _ =>
      match (if i_no_new_commits i then check_existing_ci cfg (i_existing i) else None) with
      | Some result => ([], Some result)
      | None =>
          match (if i_resuming i then check_ci_on_resume cfg (i_resume_head i) (i_resume i) else None) with
          | Some result => ([], Some result)
          | None =>
              match poll_ci cfg fuel (i_poll i) "" with
              | None => ([], None)
              | Some (result, failed) =>
                  if sr_success result then ([], Some result)
                  else match failed with
                  | [] => ([], Some result)
                  | _ :: _ =>
                      match Nat.min (max_fix_attempts cfg) MAX_CI_FIX_ATTEMPTS with
                      | O => ([], Some result)
                      | max_attempts => fix_loop cfg (i_max_budget i) fuel (i_repairs i) max_attempts max_attempts failed 0 (i_spent i)
                      end
                  end
              end
          end
      end
  end.

(** ** What an end of the polling rests on *)

(** The checks that a round reads: those of the commit, or those of the pull request when
    no commit is known. *)
Definition sees (a : Round) (st : Polling) (checks : list CICheck) : Prop :=
  if String.eqb (expected st) "" then get_ci_checks (a_pr a) = Some checks
  else get_ci_checks_for_sha (a_sha a (expected st)) = Fetched checks.

(** GitHub does not say that the head is another commit. *)
Definition head_agrees (a : Round) (st : Polling) : Prop :=
  expected st = "" \/ get_pr_head_sha (a_head a) = "" \/ get_pr_head_sha (a_head a) = expected st.

Definition grace_over (cfg : CIConfig) (a : Round) (st : Polling) : Prop :=
  (no_checks_grace_period cfg * TICKS <= a_grace_clock a - grace_start st)%Z.

(** All the checks that count are complete. *)
Definition complete (cfg : CIConfig) (a : Round) (st : Polling) (l : list CICheck) : Prop :=
  exists checks, sees a st checks /\ l = kept cfg checks /\ l <> [] /\ (forall c, c ∈ l -> is_completed c = true) /\ head_agrees a st.

Definition justified (cfg : CIConfig) (a : Round) (st : Polling) (e : Ended) : Prop :=
  match e with
  | AllPassed l =>
      complete cfg a st l /\ (forall c, c ∈ l -> is_failed c = false) /\
      ((exists c, c ∈ l /\ is_passed c = true) \/ forall c, c ∈ l -> c_conclusion c <> Some CC_CANCELLED)
  | Failing failed => exists l, complete cfg a st l /\ failed = List.filter is_failed l /\ failed <> []
  | NothingPassed l => complete cfg a st l /\ forall c, c ∈ l -> is_passed c = false
  | AllExcluded =>
      grace_over cfg a st /\ exists checks, sees a st checks /\ checks <> [] /\ forall c, c ∈ checks -> excluded cfg c = true
  | NoChecks t =>
      t = elapsed st /\ grace_over cfg a st /\ sees a st [] /\
      exists sha, sha <> "" /\ (expected st = sha \/ expected st = "" /\ get_pr_head_sha (a_head a) = sha) /\
        sha_has_workflow_runs (a_runs a sha) = Some false /\
        (expected st <> "" -> exists l, get_ci_checks (a_pr_again a) = Some l /\ forall c, c ∈ l -> excluded cfg c = true)
  | UnknownHead sha =>
      sha = expected st /\ get_ci_checks_for_sha (a_sha a sha) = UnknownCommit /\
      get_pr_head_sha (a_head a) <> "" /\ get_pr_head_sha (a_head a) <> sha
  | TimedOut => (max_wait cfg <= elapsed st)%Z
  end.

Lemma kept_nil cfg l : kept cfg l = [] <-> forall c, c ∈ l -> excluded cfg c = true.
Proof.
  induction l as [|c l IH]; cbn; [by split; [intros _ c ?%not_elem_of_nil|]|].
  destruct (excluded cfg c) eqn:E; cbn.
  - rewrite IH. split; [intros H d [->|]%elem_of_cons; auto|intros H d Hd; apply H; by constructor].
  - split; [done|]. intros H. rewrite (H c) in E by constructor. done.
Qed.

Lemma find_mismatch_none a sha : find_pr_head_mismatch a sha = None -> get_pr_head_sha (a_head a) = "" \/ get_pr_head_sha (a_head a) = sha.
Proof.
  unfold find_pr_head_mismatch. destruct (String.eqb_spec (get_pr_head_sha (a_head a)) ""); [by left|].
  destruct (String.eqb_spec (get_pr_head_sha (a_head a)) sha); [by right|done].
Qed.

Lemma verdict_justified cfg a st l : complete cfg a st l -> justified cfg a st (verdict_of l).
Proof.
  intros Hc. unfold verdict_of. destruct (List.filter is_failed l) as [|c failed] eqn:Ef; cycle 1.
  { cbn. exists l. split; [done|]. by rewrite Ef. }
  assert (forall c, c ∈ l -> is_failed c = false) as Hnf.
  { intros c Hin. destruct (is_failed c) eqn:E; [|done]. assert (c ∈ List.filter is_failed l) as H; [|rewrite Ef in H; by apply not_elem_of_nil in H].
    by apply list_elem_of_In, List.filter_In; split; [apply list_elem_of_In|]. }
  destruct (existsb is_passed l) eqn:Ep; cbn.
  { apply existsb_exists in Ep as (c & Hin%list_elem_of_In & Hp). split; [done|]. split; [done|]. left. by exists c. }
  destruct (existsb (fun c => bool_decide _) l) eqn:Ec; cbn.
  - split; [done|]. intros c Hin. destruct (is_passed c) eqn:E; [|done]. apply not_true_iff_false in Ep. destruct Ep.
    apply existsb_exists. exists c. by split; [apply list_elem_of_In|].
  - split; [done|]. split; [done|]. right. intros c Hin E. apply not_true_iff_false in Ec. destruct Ec.
    apply existsb_exists. exists c. split; [by apply list_elem_of_In|]. by rewrite bool_decide_eq_true_2.
Qed.

Lemma round_with_justified cfg start a st checks e :
  sees a st checks -> round_with cfg start a st checks = inl e -> justified cfg a st e.
Proof.
  intros Hsees. unfold round_with, next_round. destruct (kept cfg checks) as [|c l] eqn:Ek.
  - destruct (Z.leb _ _) eqn:Eg; [|done]. apply Z.leb_le in Eg. cbn [negb].
    destruct checks as [|c checks].
    + destruct (String.eqb _ "") eqn:Es; [done|]. apply String.eqb_neq in Es.
      destruct (pr_confirms_no_checks _ _ _ _) eqn:Ep; [done|]. intros [= <-]. cbn. split; [done|]. split; [done|]. split; [done|].
      eexists. split; [exact Es|]. unfold pr_confirms_no_checks in Ep.
      destruct (String.eqb_spec (expected st) "") as [E|E].
      * cbn in Ep. split; [by right|]. destruct (sha_has_workflow_runs _) as [[]|]; try done.
      * split; [by left|]. destruct (get_ci_checks (a_pr_again a)) as [l|]; [|done].
        destruct (kept cfg l) eqn:El; [|done]. destruct (sha_has_workflow_runs _) as [[]|]; try done.
        split; [done|]. intros _. exists l. split; [done|]. by apply kept_nil.
    + intros [= <-]. cbn. split; [done|]. eexists. split; [done|]. split; [done|]. by apply kept_nil.
  - destruct (forallb is_completed (c :: l)) eqn:Ec; [|done].
    destruct (if String.eqb (expected st) "" then None else _) eqn:Em; [done|]. intros [= <-]. apply verdict_justified.
    exists checks. split; [done|]. split; [done|]. split; [done|]. split.
    + intros d Hd. rewrite forallb_forall in Ec. by apply Ec, list_elem_of_In.
    + destruct (String.eqb_spec (expected st) ""); [by left|]. right. by apply find_mismatch_none.
Qed.

Lemma poll_round_justified cfg start a st e : poll_round cfg start a st = inl e -> justified cfg a st e.
Proof.
  unfold poll_round. destruct (String.eqb (expected st) "") eqn:Es.
  - destruct (get_ci_checks (a_pr a)) as [checks|] eqn:E; [|done]. apply round_with_justified. unfold sees. by rewrite Es.
  - destruct (get_ci_checks_for_sha _) as [| |checks] eqn:E; [|done|].
    + destruct (String.eqb_spec (get_pr_head_sha (a_head a)) ""); [done|].
      destruct (String.eqb_spec (get_pr_head_sha (a_head a)) (expected st)); [done|]. by intros [= <-].
    + apply round_with_justified. unfold sees. by rewrite Es.
Qed.

(** The states that the loop goes through. *)
Inductive reached (cfg : CIConfig) (start : Z) (rounds : nat -> Round) (st0 : Polling) : nat -> Polling -> Prop :=
  | reached_start : reached cfg start rounds st0 0 st0
  | reached_next n st st' :
      reached cfg start rounds st0 n st -> (elapsed st < max_wait cfg)%Z -> poll_round cfg start (rounds n) st = inr st' ->
      reached cfg start rounds st0 (S n) st'.

(** The commit that is waited for is the first one, or a head that GitHub reported. *)
Lemma poll_round_expected cfg start a st st' :
  poll_round cfg start a st = inr st' ->
  elapsed st' = ((a_end_clock a - start) / TICKS)%Z /\
  (expected st' = expected st /\ grace_start st' = grace_start st \/
   expected st' = get_pr_head_sha (a_head a) /\ expected st' <> "" /\ grace_start st' = a_grace_clock a).
Proof.
  assert (forall checks, round_with cfg start a st checks = inr st' ->
    elapsed st' = ((a_end_clock a - start) / TICKS)%Z /\
    (expected st' = expected st /\ grace_start st' = grace_start st \/
     expected st' = get_pr_head_sha (a_head a) /\ expected st' <> "" /\ grace_start st' = a_grace_clock a)) as Hw.
  { intros checks. unfold round_with, next_round, find_pr_head_mismatch.
    destruct (kept cfg checks) as [|c l]; repeat case_match; intros [= <-]; try (by split; [|left]); try done.
    all: simplify_eq. all: split; [done|right]. all: split; [done|]. all: split; [by apply String.eqb_neq|done]. }
  unfold poll_round, next_round. repeat case_match; try (intros [= <-]; by split; [|left]); try done; apply Hw.
Qed.

Lemma reached_expected cfg start rounds st0 n st :
  reached cfg start rounds st0 n st ->
  expected st = expected st0 /\ grace_start st = grace_start st0 \/
  exists m, (m < n)%nat /\ expected st = get_pr_head_sha (a_head (rounds m)) /\ expected st <> "" /\
            grace_start st = a_grace_clock (rounds m).
Proof.
  induction 1 as [|n st st' _ IH _ Hround]; [by left|]. apply poll_round_expected in Hround as [_ [[E1 E2]|(E1 & E2 & E3)]].
  - rewrite E1, E2. destruct IH as [IH|(m & Hm & IH)]; [by left|]. right. exists m. split; [lia|done].
  - right. exists n. split; [lia|done].
Qed.

Lemma poll_loop_reached cfg start rounds st0 fuel n st e :
  reached cfg start rounds st0 n st -> poll_loop cfg start rounds fuel n st = Some e ->
  exists m st', reached cfg start rounds st0 m st' /\ justified cfg (rounds m) st' e.
Proof.
  revert n st. induction fuel as [|fuel IH]; intros n st Hr; [done|]. cbn [poll_loop].
  destruct (Z.ltb_spec (elapsed st) (max_wait cfg)).
  - destruct (poll_round cfg start (rounds n) st) as [e'|st'] eqn:E.
    + intros [= <-]. exists n, st. split; [done|]. by apply poll_round_justified in E.
    + apply IH. by econstructor.
  - intros [= <-]. exists n, st. by split.
Qed.

Lemma poll_loop_ends cfg start rounds fuel n st :
  (forall k, start + Z.of_nat k < a_end_clock (rounds k))%Z ->
  (0 < max_wait cfg)%Z ->
  (n = 0 /\ elapsed st = 0%Z \/ exists m, n = S m /\ elapsed st = ((a_end_clock (rounds m) - start) / TICKS)%Z)%nat ->
  (Z.to_nat (max_wait cfg * TICKS) + 2 <= fuel + n)%nat -> (0 < fuel)%nat ->
  is_Some (poll_loop cfg start rounds fuel n st).
Proof.
  intros Hclock Hwait. revert n st. induction fuel as [|fuel IH]; intros n st Hn Hfuel Hpos; [lia|]. cbn [poll_loop].
  destruct (Z.ltb_spec (elapsed st) (max_wait cfg)) as [Hlt|]; [|done].
  destruct (poll_round cfg start (rounds n) st) as [e|st'] eqn:E; [done|].
  apply poll_round_expected in E as [Et _].
  assert (Z.of_nat n < max_wait cfg * TICKS)%Z as Hbound.
  { destruct Hn as [[-> _]|(m & -> & Em)]; [unfold TICKS; lia|]. rewrite Em in Hlt. specialize (Hclock m).
    assert (a_end_clock (rounds m) - start < max_wait cfg * TICKS)%Z; [|lia]. unfold TICKS in *.
    destruct (Z.lt_ge_cases (a_end_clock (rounds m) - start) (max_wait cfg * 1000)) as [|Hge]; [done|].
    apply Z.div_le_mono with (c := 1000%Z) in Hge; [|lia]. rewrite Z.div_mul in Hge by lia. lia. }
  apply IH; [right; by exists n|lia|lia].
Qed.

(** ** The repairs *)

Definition invocations (actions : list Action) : list nat :=
  omap (fun x => match x with Invoke k => Some k | Push _ => None end) actions.

Definition spending (repairs : nat -> Repair) (attempts : list nat) : Z :=
  foldr (fun k acc => cost_of (f_invoke (repairs k)) + acc)%Z 0%Z attempts.

(** What a push requires: the work is committed, the hook does not refuse it, and there is
    something to push. *)
Definition pushable (f : Repair) : Prop :=
  (f_changes f = true -> f_add f = true /\ f_commit f = true) /\
  (forall passes output, f_hook f = Some (passes, output) -> passes = true) /\ ahead_count f <> 0%Z.

Definition passing (e : Ended) : bool := match e with AllExcluded | NoChecks _ | AllPassed _ => true | _ => false end.

Lemma poll_result_success cfg e : sr_success (poll_result cfg e).1 = passing e /\ sr_cost_usd (poll_result cfg e).1 = 0%Z.
Proof. by destruct e. Qed.

Lemma validate_fix_spec f attempt max skip result :
  validate_fix f attempt max = (skip, result) ->
  (forall r, result = Some r -> sr_success r = false /\ sr_cost_usd r = 0%Z) /\ (skip = false -> result = None -> pushable f).
Proof.
  unfold validate_fix.
  assert (forall summary error, (if (attempt =? max)%nat then (false, Some (failed_result summary error)) else (true, None)) = (skip, result) ->
    (forall r, result = Some r -> sr_success r = false /\ sr_cost_usd r = 0%Z) /\ (skip = false -> result = None -> pushable f)) as Hreject.
  { intros summary error. destruct (attempt =? max)%nat; intros H; injection H as <- <-; split; try done. by intros r [= <-]. }
  destruct (ensure_committed f) as [b|] eqn:E; [|apply Hreject].
  assert (f_changes f = true -> f_add f = true /\ f_commit f = true) as Hcommit.
  { intros Ech. unfold ensure_committed in E. rewrite Ech in E. by destruct (f_add f), (f_commit f). }
  destruct (f_hook f) as [[[] output]|] eqn:Eh; [|apply Hreject|];
    (destruct (Z.eqb_spec (ahead_count f) 0); [apply Hreject|]; intros H; injection H as <- <-; split; [done|intros _ _];
     split; [done|]; split; [intros passes o Eo; congruence|done]).
Qed.

Record repair_facts (cfg : CIConfig) (max_budget : Z) (fuel : nat) (repairs : nat -> Repair) (first count : nat) (total spent : Z)
    (actions : list Action) (result : option StepResult) : Prop := {
  rf_attempts : invocations actions `sublist_of` seq first count;
  rf_cost : forall r, result = Some r -> sr_cost_usd r = (total + spending repairs (invocations actions))%Z;
  rf_budget : forall pre k post, invocations actions = (pre ++ k :: post)%list -> (spent + spending repairs pre < max_budget)%Z;
  rf_pushes : forall h, Push h ∈ actions -> exists k, Invoke k ∈ actions /\ h = f_head (repairs k) /\ pushable (repairs k);
  rf_success : forall r, result = Some r -> sr_success r = true -> exists k e,
    last actions = Some (Push (f_head (repairs k))) /\
    poll_ended cfg fuel (f_poll (repairs k)) (f_head (repairs k)) = Some e /\ passing e = true;
  rf_result : (forall k, is_Some (poll_ended cfg fuel (f_poll (repairs k)) (f_head (repairs k)))) -> is_Some result;
}.

(** A loop that ends here with a failure, having invoked the model or not. *)
Lemma repair_fails cfg B fuel repairs first count total spent called cost r actions :
  (called = true -> (0 < count)%nat /\ cost = cost_of (f_invoke (repairs first)) /\ (spent < B)%Z) -> (called = false -> cost = 0%Z) ->
  sr_success r = false -> sr_cost_usd r = (total + cost)%Z -> actions = (if called then [Invoke first] else [] : list Action) ->
  repair_facts cfg B fuel repairs first count total spent actions (Some r).
Proof.
  intros Hcalled Hnot Hr Hcost ->. destruct called; split; cbn; try done.
  - destruct (Hcalled eq_refl) as [Hc _]. destruct count; [lia|]. cbn. constructor. apply sublist_nil_l.
  - intros r' [= <-]. destruct (Hcalled eq_refl) as (_ & -> & _). lia.
  - intros pre k post E. destruct (Hcalled eq_refl) as (_ & _ & Hlt). destruct pre as [|? [|]]; [cbn; lia|done..].
  - intros h Hh%list_elem_of_singleton. done.
  - intros r' [= <-]. congruence.
  - apply sublist_nil_l.
  - intros r' [= <-]. rewrite Hnot in Hcost by done. lia.
  - intros pre k post E. by destruct pre.
  - intros h ?%not_elem_of_nil. done.
  - intros r' [= <-]. congruence.
Qed.

Lemma spending_app repairs l l' : spending repairs (l ++ l') = (spending repairs l + spending repairs l')%Z.
Proof. unfold spending. induction l as [|k l IH]; cbn; [done|]. rewrite IH. lia. Qed.

(** An attempt that invoked the model, pushed or not, before the rest of the loop. *)
Lemma repair_goes_on cfg B fuel repairs first count total spent pushed actions result :
  (spent < B)%Z -> (pushed = [] \/ pushed = [Push (f_head (repairs first))] /\ pushable (repairs first)) ->
  let cost := cost_of (f_invoke (repairs first)) in
  repair_facts cfg B fuel repairs (S first) count (total + cost) (spent + cost) actions result ->
  repair_facts cfg B fuel repairs first (S count) total spent (Invoke first :: pushed ++ actions) result.
Proof.
  intros Hlt Hpushed cost [H1 H2 H3 H4 H5 H6].
  assert (invocations (Invoke first :: pushed ++ actions) = first :: invocations actions) as Hinv.
  { by destruct Hpushed as [->|[-> _]]. }
  split.
  - rewrite Hinv. cbn. by constructor.
  - intros r Hr. rewrite Hinv, (H2 r Hr). cbn. fold cost. unfold spending. lia.
  - intros pre k post. rewrite Hinv. destruct pre as [|k' pre]; cbn; [intros _; lia|]. intros [= <- E].
    specialize (H3 pre k post E). fold cost. unfold spending in H3. lia.
  - intros h [?|[Hh|Hh]%elem_of_app]%elem_of_cons; [done| |].
    + destruct Hpushed as [->|[-> Hp]]; [by apply not_elem_of_nil in Hh|]. apply list_elem_of_singleton in Hh as [= ->].
      exists first. split; [by constructor|]. by split.
    + destruct (H4 h Hh) as (k & Hk & Hrest). exists k. split; [|done]. apply elem_of_cons. right. apply elem_of_app. by right.
  - intros r Hr Hs. destruct (H5 r Hr Hs) as (k & e & Hl & He). exists k, e. split; [|done].
    destruct actions as [|x actions]; [done|]. destruct pushed; cbn in *; [done|].
    rewrite last_cons. rewrite last_app_cons. by rewrite Hl.
  - done.
Qed.

(** An attempt that pushed and whose polling ends the loop. *)
Lemma repair_ends_pushed cfg B fuel repairs first count total spent result :
  (spent < B)%Z -> pushable (repairs first) ->
  let f := repairs first in
  let poll := poll_ended cfg fuel (f_poll f) (f_head f) in
  (forall r, result = Some r -> sr_cost_usd r = (total + cost_of (f_invoke f))%Z /\
     (sr_success r = true -> exists e, poll = Some e /\ passing e = true)) ->
  (is_Some poll -> is_Some result) ->
  repair_facts cfg B fuel repairs first (S count) total spent [Invoke first; Push (f_head f)] result.
Proof.
  intros Hlt Hp f poll Hr Hsome. split; cbn.
  - constructor. apply sublist_nil_l.
  - intros r Er. rewrite (proj1 (Hr r Er)). fold f. lia.
  - intros pre k post E. destruct pre as [|? [|]]; [cbn; lia|done..].
  - intros h [?|[= ->]%list_elem_of_singleton]%elem_of_cons; [done|]. exists first. split; [by constructor|]. by split.
  - intros r Er Hs. destruct (proj2 (Hr r Er) Hs) as (e & He & Hpass). by exists first, e.
  - intros H. apply Hsome, H.
Qed.

Lemma costing_facts cost r : sr_success (costing cost r) = sr_success r /\ sr_cost_usd (costing cost r) = (sr_cost_usd r + cost)%Z.
Proof. done. Qed.

Lemma fix_loop_facts cfg B fuel repairs M n failed total spent actions result :
  (n <= M)%nat -> fix_loop cfg B fuel repairs M n failed total spent = (actions, result) ->
  repair_facts cfg B fuel repairs (S (M - n)) n total spent actions result.
Proof.
  revert failed total spent actions result. induction n as [|n IH]; intros failed total spent actions result Hn; cbn [fix_loop].
  { intros [= <- <-]. by apply (repair_fails _ _ _ _ _ _ _ _ false 0%Z); [| | |cbn; lia|]. }
  replace (S (M - S n)) with (M - n)%nat by lia. set (attempt := (M - n)%nat) in *. set (f := repairs attempt) in *.
  destruct (Z.ltb_spec B spent) as [|Hle].
  { intros [= <- <-]. by apply (repair_fails _ _ _ _ _ _ _ _ false 0%Z); [| | |cbn; lia|]. }
  destruct (f_fraction f) as [fraction|].
  { intros [= <- <-]. by apply (repair_fails _ _ _ _ _ _ _ _ false 0%Z); [| | |cbn; lia|]. }
  unfold invoke_fix. destruct (Z.leb_spec (B - spent) 0) as [|Hlt].
  { intros [= <- <-]. by apply (repair_fails _ _ _ _ _ _ _ _ false 0%Z); [| | |cbn; lia|]. }
  set (cost := cost_of (f_invoke f)).
  assert (spent < B)%Z as Hspent by lia.
  destruct (match f_invoke f with Answered _ => None | LlmFailed t msg => Some (t, msg) end) as [[t msg]|].
  { intros [= <- <-]. by apply (repair_fails _ _ _ _ _ _ _ _ true cost); [split; [lia|]| | |cbn; lia|]. }
  destruct (validate_fix f attempt M) as [skip bad] eqn:Ev. apply validate_fix_spec in Ev as [Hbad Hpush].
  destruct bad as [bad|].
  { destruct (Hbad bad eq_refl) as [Hs Hc]. intros H. assert (actions = [Invoke attempt] /\ result = Some (costing (total + cost) bad)) as [-> ->].
    { by destruct skip; injection H as <- <-. }
    apply (repair_fails _ _ _ _ _ _ _ _ true cost); [split; [lia|done]|done|done| |done]. cbn. lia. }
  assert (forall failed pushed, (pushed = [] \/ pushed = [Push (f_head f)] /\ pushable f) ->
    (let '(a, r) := fix_loop cfg B fuel repairs M n failed (total + cost) (spent + cost) in ((Invoke attempt :: pushed) ++ a, r))%list
      = (actions, result) -> repair_facts cfg B fuel repairs attempt (S n) total spent actions result) as Hrest.
  { intros failed' pushed Hp. destruct (fix_loop _ _ _ _ _ _ _ _ _) as [a r] eqn:El. intros [= <- <-].
    apply (repair_goes_on _ _ _ _ _ _ _ _ pushed a); [done|done|]. apply IH in El; [|lia].
    replace (S attempt) with (S (M - n)) by done. exact El. }
  destruct skip; [apply (Hrest failed []); by left|].
  specialize (Hpush eq_refl eq_refl). destruct (f_push f) as [error|].
  { intros [= <- <-]. by apply (repair_fails _ _ _ _ _ _ _ _ true cost); [split; [lia|]| | |cbn; lia|]. }
  unfold poll_ci. destruct (poll_ended cfg fuel (f_poll f) (f_head f)) as [e|] eqn:Ep; cbn [fmap option_fmap option_map].
  2: { intros [= <- <-]. apply repair_ends_pushed; [done|done|done|]. fold f. rewrite Ep. by intros []. }
  destruct (poll_result cfg e) as [r new_failed] eqn:Er. pose proof (poll_result_success cfg e) as [Hs Hc]. rewrite Er in Hs, Hc. cbn in Hs, Hc.
  destruct (sr_success r) eqn:Esr.
  { intros [= <- <-]. apply repair_ends_pushed; [done|done| |done]. intros r' [= <-]. split; [cbn; fold f cost; lia|].
    intros _. exists e. by split; [|rewrite <- Hs]. }
  destruct new_failed as [|c new_failed].
  { intros [= <- <-]. apply repair_ends_pushed; [done|done| |done]. intros r' [= <-]. split; [cbn; fold f cost; lia|].
    cbn. by rewrite Esr. }
  apply (Hrest (c :: new_failed) [Push (f_head f)]). by right.
Qed.

(** ** The step *)

(** What lets the step succeed. *)
Definition step_passes (cfg : CIConfig) (fuel : nat) (i : StepInput) (actions : list Action) (r : StepResult) : Prop :=
  (i_no_new_commits i = true /\ check_existing_ci cfg (i_existing i) = Some r) \/
  (i_resuming i = true /\ check_ci_on_resume cfg (i_resume_head i) (i_resume i) = Some r) \/
  (exists e, poll_ended cfg fuel (i_poll i) "" = Some e /\ passing e = true /\ actions = []) \/
  exists k e, last actions = Some (Push (f_head (i_repairs i k))) /\
    poll_ended cfg fuel (f_poll (i_repairs i k)) (f_head (i_repairs i k)) = Some e /\ passing e = true.

Lemma check_existing_cost cfg lookup r : check_existing_ci cfg lookup = Some r -> sr_cost_usd r = 0%Z.
Proof. unfold check_existing_ci. repeat case_match; intros [= <-]; done. Qed.

Lemma check_resume_cost cfg head a r : check_ci_on_resume cfg head a = Some r -> sr_cost_usd r = 0%Z.
Proof. unfold check_ci_on_resume. repeat case_match; intros [= <-]; done. Qed.

(** The step ends without a repair, or its repairs are those of the loop. *)
Lemma execute_cases cfg fuel i actions r :
  execute cfg fuel i = (actions, Some r) ->
  (actions = [] /\ sr_cost_usd r = 0%Z /\ (sr_success r = true -> step_passes cfg fuel i [] r)) \/
  exists failed, fix_loop cfg (i_max_budget i) fuel (i_repairs i) (Nat.min (max_fix_attempts cfg) MAX_CI_FIX_ATTEMPTS)
    (Nat.min (max_fix_attempts cfg) MAX_CI_FIX_ATTEMPTS) failed 0 (i_spent i) = (actions, Some r).
Proof.
  unfold execute. destruct (i_pr_number i); [|intros [= <- <-]; by left].
  destruct (if i_no_new_commits i then _ else None) as [r'|] eqn:E1.
  { intros [= <- <-]. left. destruct (i_no_new_commits i) eqn:En; [|done]. split; [done|]. split; [by eapply check_existing_cost|].
    intros _. by left. }
  destruct (if i_resuming i then _ else None) as [r'|] eqn:E2.
  { intros [= <- <-]. left. destruct (i_resuming i) eqn:En; [|done]. split; [done|]. split; [by eapply check_resume_cost|].
    intros _. right. by left. }
  unfold poll_ci. destruct (poll_ended cfg fuel (i_poll i) "") as [e|] eqn:Ep; [|done]. cbn [fmap option_fmap option_map].
  destruct (poll_result cfg e) as [res failed] eqn:Er. pose proof (poll_result_success cfg e) as [Hs Hc]. rewrite Er in Hs, Hc. cbn in Hs, Hc.
  destruct (sr_success res) eqn:Es.
  { intros [= <- <-]. left. split; [done|]. split; [done|]. intros _. right; right; left. by exists e. }
  destruct failed as [|c failed]; [intros [= <- <-]; left; split; [done|]; split; [done|congruence]|].
  destruct (Nat.min _ _) as [|m] eqn:Em; [intros [= <- <-]; left; split; [done|]; split; [done|congruence]|].
  intros H. right. by exists (c :: failed).
Qed.

(** ** Pages *)

(** An endpoint that tells the truth about a list: its first page, a right count or none,
    and on each further page its part, unless that page cannot be read. *)
Definition tells {A} (all : list A) (e : Endpoint A) : Prop :=
  exists total, ran (first_page e) = true /\ parsed (first_page e) = Some (take PAGE all, total) /\
    (total = None \/ total = Some (length all)) /\
    forall k, (2 <= k)%nat -> next_pages e k = None \/ next_pages e k = Some (take PAGE (drop (PAGE * (k - 1)) all)).

Definition all_readable {A} (e : Endpoint A) : Prop := forall k, is_Some (next_pages e k).

Lemma fetch_pages_spec {A} (all : list A) pages allowed items total :
  (total = None \/ total = Some (length all)) ->
  (forall k, (2 <= k)%nat -> pages k = None \/ pages k = Some (take PAGE (drop (PAGE * (k - 1)) all))) ->
  (allowed < MAX_CHECK_PAGES)%nat ->
  let p := (MAX_CHECK_PAGES - allowed)%nat in
  items = take (PAGE * p) all -> (p = 1 \/ length items = PAGE * p)%nat ->
  (forall l, fetch_remaining_pages pages allowed items total = Some l -> l = all) /\
  ((forall k, is_Some (pages k)) -> (length all < PAGE * MAX_CHECK_PAGES)%nat -> is_Some (fetch_remaining_pages pages allowed items total)).
Proof.
  intros Htotal Hpages. revert items. induction allowed as [|allowed IH]; intros items Hlt p Hitems Hfull.
  all: assert (length items = Nat.min (PAGE * p) (length all)) as Hlen by (by rewrite Hitems, length_take).
  all: assert (has_more_pages items total = false -> items = all) as Hdone.
  1, 3: unfold has_more_pages; intros Hno.
  1, 2: assert (1 <= p)%nat as Hp by (unfold p, MAX_CHECK_PAGES in *; lia).
  1, 2: destruct (Nat.le_gt_cases (length all) (PAGE * p)) as [Hle|Hgt]; [rewrite Hitems; by apply take_ge|].
  1, 2: rewrite Nat.min_l in Hlen by lia; rewrite Hlen in Hno.
  1, 2: replace (PAGE * p mod PAGE)%nat with 0%nat in Hno by (symmetry; rewrite Nat.mul_comm; apply Nat.Div0.mod_mul).
  1, 2: destruct (Nat.eqb_spec (PAGE * p) 0); [unfold PAGE in *; lia|]; cbn [negb andb] in Hno; destruct Htotal as [->| ->]; [done|];
        apply Nat.ltb_ge in Hno; lia.
  - cbn. destruct (has_more_pages items total); [|split; [by intros l [= <-]; apply Hdone|done]]. split; [done|].
    intros _ Hshort. unfold p, PAGE, MAX_CHECK_PAGES in *. lia.
  - cbn [fetch_remaining_pages]. destruct (has_more_pages items total); [|split; [by intros l [= <-]; apply Hdone|done]].
    replace (MAX_CHECK_PAGES - allowed)%nat with (S p) in * by (unfold p, MAX_CHECK_PAGES in *; lia).
    destruct (pages (S p)) as [page|] eqn:Ep; [|split; [done|]; intros H; destruct (H (S p)); congruence].
    destruct (Hpages (S p)) as [H|H]; [unfold p, MAX_CHECK_PAGES in *; lia|congruence|].
    replace (S p - 1)%nat with p in H by lia. assert (page = take PAGE (drop (PAGE * p) all)) as -> by congruence.
    assert ((items ++ take PAGE (drop (PAGE * p) all))%list = take (PAGE * S p) all) as Happ.
    { rewrite Hitems. rewrite Nat.mul_succ_r. by rewrite take_take_drop. }
    rewrite Happ. rewrite length_take, length_drop. destruct (Nat.ltb_spec (PAGE `min` (length all - PAGE * p)) PAGE) as [Hs|Hs].
    + split; [|done]. intros l E. assert (take (PAGE * S p) all = l) as <- by congruence. apply take_ge. rewrite Nat.mul_succ_r. lia.
    + apply IH; [lia| |]; replace (MAX_CHECK_PAGES - allowed)%nat with (S p) in * by (unfold p, MAX_CHECK_PAGES in *; lia); [done|].
      right. rewrite length_take, Nat.mul_succ_r. lia.
Qed.

(** ** Properties *)

(** C38: The checks read for a commit are all of its check runs and statuses, or the reading
    fails; a reading without failures succeeds below the limit of pages. *)
Theorem sha_checks_complete a runs stats :
  tells runs (check_runs a) -> tells stats (statuses a) ->
  (forall checks, get_ci_checks_for_sha a = Fetched checks -> checks = map check_of_run runs ++ map check_of_status stats)%list /\
  (all_readable (check_runs a) -> all_readable (statuses a) ->
   (length runs < PAGE * MAX_CHECK_PAGES)%nat -> (length stats < PAGE * MAX_CHECK_PAGES)%nat ->
   exists checks, get_ci_checks_for_sha a = Fetched checks).
Proof.
  intros (t1 & Hr1 & Hp1 & Ht1 & Hn1) (t2 & Hr2 & Hp2 & Ht2 & Hn2).
  unfold get_ci_checks_for_sha. rewrite Hr1, Hr2, Hp1, Hp2. cbn [negb orb]. unfold all_items. cbn [fst snd].
  destruct (fetch_pages_spec runs (next_pages (check_runs a)) (MAX_CHECK_PAGES - 1) (take PAGE runs) t1 Ht1 Hn1) as [C1 R1];
    [unfold MAX_CHECK_PAGES; lia|done|by left|].
  destruct (fetch_pages_spec stats (next_pages (statuses a)) (MAX_CHECK_PAGES - 1) (take PAGE stats) t2 Ht2 Hn2) as [C2 R2];
    [unfold MAX_CHECK_PAGES; lia|done|by left|].
  split.
  - intros checks. destruct (fetch_remaining_pages _ _ (take PAGE runs) _) as [l1|]; [|done].
    destruct (fetch_remaining_pages _ _ (take PAGE stats) _) as [l2|]; [|done]. intros [= <-].
    by rewrite (C1 l1), (C2 l2).
  - intros A1 A2 L1 L2. destruct (R1 A1 L1) as [l1 ->]. destruct (R2 A2 L2) as [l2 ->]. by eexists.
Qed.

(** The polling ends, whatever GitHub answers and however often the head moves, as long as
    the clock advances in every round. *)
Theorem polling_ends cfg fuel p sha :
  (0 < max_wait cfg)%Z -> (forall k, s_clock p + Z.of_nat k < a_end_clock (s_rounds p k))%Z ->
  (Z.to_nat (max_wait cfg * TICKS) + 2 <= fuel)%nat ->
  exists result, poll_ci cfg fuel p sha = Some result.
Proof.
  intros Hw Hc Hf. unfold poll_ci, poll_ended.
  destruct (poll_loop_ends cfg (s_clock p) (s_rounds p) fuel 0
              {| expected := if String.eqb sha "" then s_local_head p else sha; grace_start := s_clock p; elapsed := 0 |}) as [e ->];
    [done|done|by left|lia|lia|]. by eexists.
Qed.

(** A polling ends on what its last round saw, of the commit it is bound to: the pushed
    one, or a head that GitHub reported since. It passes only when all the checks that count
    are complete and none failed, when all are excluded, or when there is no CI; the
    last two only after the grace period of that commit, and the last one only when a
    second lookup shows no check and GitHub has no workflow run. *)
Theorem polling_justified cfg fuel p sha e :
  poll_ended cfg fuel p sha = Some e ->
  let bound := if String.eqb sha "" then s_local_head p else sha in
  let st0 := {| expected := bound; grace_start := s_clock p; elapsed := 0 |} in
  exists n st, reached cfg (s_clock p) (s_rounds p) st0 n st /\ justified cfg (s_rounds p n) st e /\
    (expected st = bound /\ grace_start st = s_clock p \/
     exists m, (m < n)%nat /\ expected st = get_pr_head_sha (a_head (s_rounds p m)) /\ expected st <> "" /\
               grace_start st = a_grace_clock (s_rounds p m)).
Proof.
  intros He bound st0. unfold poll_ended in He.
  destruct (poll_loop_reached _ _ _ st0 _ _ _ _ (reached_start _ _ _ _) He) as (n & st & Hr & Hj).
  exists n, st. split; [done|]. split; [done|]. by apply reached_expected in Hr.
Qed.

(** C19: The step invokes the model for at most as many repairs as the configuration and the
    cap allow, each while there is budget left, and reports what they cost. It pushes only
    committed work that the hook does not refuse, after an invocation. It succeeds only on
    checks that had passed before, or on a polling that passed: that of the pull request, or
    that of its last push. *)
Theorem monitor_step_sound cfg fuel i actions r :
  execute cfg fuel i = (actions, Some r) ->
  invocations actions `sublist_of` seq 1 (Nat.min (max_fix_attempts cfg) MAX_CI_FIX_ATTEMPTS) /\
  sr_cost_usd r = spending (i_repairs i) (invocations actions) /\
  (forall pre k post, invocations actions = (pre ++ k :: post)%list -> (i_spent i + spending (i_repairs i) pre < i_max_budget i)%Z) /\
  (forall h, Push h ∈ actions -> exists k, Invoke k ∈ actions /\ h = f_head (i_repairs i k) /\ pushable (i_repairs i k)) /\
  (sr_success r = true -> step_passes cfg fuel i actions r).
Proof.
  intros [(-> & Hc & Hs)|[failed H]]%execute_cases.
  - cbn. split; [apply sublist_nil_l|]. split; [done|]. split; [by intros []|]. split; [by intros h ?%not_elem_of_nil|done].
  - apply fix_loop_facts in H; [|done]. rewrite Nat.sub_diag in H. destruct H as [H1 H2 H3 H4 H5 _].
    split; [done|]. split; [by rewrite (H2 r)|]. split; [done|]. split; [done|].
    intros Hs. right; right; right. by apply (H5 r).
Qed.

(** ** Examples and witnesses *)

Module Examples.

Definition a_config : CIConfig :=
  {| poll_interval := 60; max_wait := 3; no_checks_grace_period := 1; max_fix_attempts := 2; exclude_checks := ["codecov"] |}.

Definition ok {A} (a : A) : Gh A := {| ran := true; stderr := ""; parsed := Some a |}.
Definition none {A} (text : string) : Gh A := {| ran := false; stderr := text; parsed := None |}.

Definition runs_answer (l : list RunItem) : ShaAnswers :=
  {| check_runs := {| first_page := ok (l, Some (length l)); next_pages := fun _ => Some [] |};
     statuses := {| first_page := ok ([], None); next_pages := fun _ => Some [] |} |}.

Definition a_run (name conclusion : string) : RunItem :=
  {| r_name := name; r_status := "completed"; r_conclusion := conclusion; r_url := "" |}.

(** A round at a time, with the checks of commits and a head. *)
Definition a_round (checks : string -> list RunItem) (head : string) (clock : Z) : Round :=
  {| a_sha := fun sha => runs_answer (checks sha); a_pr := ok []; a_pr_again := none "no checks reported"; a_head := ok head;
     a_runs := fun _ => ok 0%nat; a_grace_clock := clock; a_end_clock := clock |}.

Definition start_at (head : string) (rounds : nat -> Round) : PollStart := {| s_clock := 0; s_local_head := head; s_rounds := rounds |}.

(** The head moves while the checks of the first commit are read; those of the new head decide. *)
Example rebinds :
  fst <$> poll_ci a_config 5
    (start_at "a" (fun n => a_round (fun sha => if String.eqb sha "a" then [a_run "t" "success"] else [a_run "t" "failure"]) "b"
                              (600 * (Z.of_nat n + 1)))) ""
  = Some (failed_result "CI failed: t" "Failed checks: t").
Proof. reflexivity. Qed.

(** No checks, no second opinion to the contrary and no run: after the grace period that is no CI. *)
Example no_ci :
  (fun r => sr_summary r.1) <$> poll_ci a_config 5 (start_at "a" (fun n => a_round (fun _ => []) "a" (600 * (Z.of_nat n + 1)))) ""
  = Some "No CI checks found after 0s grace period, proceeding".
Proof. reflexivity. Qed.

(** Only cancelled checks: the polling fails, and so does a resumed step, but the step that
    pushed nothing takes them for passed. *)
Example existing_cancelled_passes :
  let cancelled := ok [{| k_name := "t"; k_state := "CANCELLED"; k_link := "" |}] in
  (sr_success <$> check_existing_ci a_config (Some cancelled)) = Some true /\
  (sr_success <$> check_ci_on_resume a_config "a" (a_round (fun _ => [a_run "t" "cancelled"]) "a" 0)) = Some false /\
  (fun r => sr_success r.1) <$> poll_ci a_config 5 (start_at "a" (fun n => a_round (fun _ => [a_run "t" "cancelled"]) "a" 600)) ""
  = Some false.
Proof. split; [reflexivity|]. split; reflexivity. Qed.

Lemma sha_checks_complete_witness :
  get_ci_checks_for_sha (runs_answer [a_run "t" "success"]) = Fetched [check_of_run (a_run "t" "success")].
Proof.
  destruct (sha_checks_complete (runs_answer [a_run "t" "success"]) [a_run "t" "success"] []) as [H1 H2].
  - exists (Some 1). split; [reflexivity|]. split; [reflexivity|]. split; [by right|]. intros k Hk. right. cbn [next_pages runs_answer check_runs].
    f_equal. rewrite drop_ge; [done|]. unfold PAGE. cbn [length]. lia.
  - exists None. split; [reflexivity|]. split; [reflexivity|]. split; [by left|]. intros k Hk. right. cbn [next_pages runs_answer statuses].
    f_equal. by rewrite drop_nil.
  - destruct H2 as [checks H]; [by intros k; eexists|by intros k; eexists|cbn [length]; unfold PAGE, MAX_CHECK_PAGES; lia..|].
    rewrite H. by rewrite (H1 checks H).
Defined.

Lemma polling_ends_witness :
  exists result, poll_ci a_config (Z.to_nat (max_wait a_config * TICKS) + 2)
                   (start_at "a" (fun n => a_round (fun _ => []) "" (Z.of_nat n + 1))) "" = Some result.
Proof.
  apply polling_ends; [done| |done]. intros k. cbn [s_clock start_at s_rounds a_round a_end_clock]. lia.
Defined.

Lemma polling_justified_witness :
  let p := start_at "a" (fun _ => a_round (fun _ => [a_run "t" "success"]) "a" 600) in
  exists n st, reached a_config 0 (s_rounds p) {| expected := "a"; grace_start := 0; elapsed := 0 |} n st /\
    justified a_config (s_rounds p n) st (AllPassed [check_of_run (a_run "t" "success")]).
Proof.
  destruct (polling_justified a_config 5 (start_at "a" (fun _ => a_round (fun _ => [a_run "t" "success"]) "a" 600)) ""
              (AllPassed [check_of_run (a_run "t" "success")])) as (n & st & H1 & H2 & _); [reflexivity|].
  exists n, st. split; [exact H1|exact H2].
Defined.

Definition a_repair (head : string) (cost : Z) (conclusion : string) : Repair :=
  {| f_fraction := None; f_invoke := Answered cost; f_changes := false; f_add := false; f_commit := false; f_hook := None;
     f_ahead := Some "1"; f_head := head; f_push := None;
     f_poll := start_at head (fun _ => a_round (fun _ => [a_run "t" conclusion]) head 600) |}.

Definition an_input : StepInput :=
  {| i_pr_number := Some 7%Z; i_no_new_commits := false; i_existing := None; i_resuming := false; i_resume_head := "";
     i_resume := a_round (fun _ => []) "" 0;
     i_poll := start_at "a" (fun _ => a_round (fun _ => [a_run "t" "failure"]) "a" 600);
     i_repairs := fun k => if (k =? 1)%nat then a_repair "b" 4 "failure" else a_repair "c" 5 "success";
     i_max_budget := 100; i_spent := 10 |}.

(** Two repairs, of which the second one passes. *)
Lemma monitor_step_sound_witness :
  exists r, execute a_config 5 an_input = ([Invoke 1; Push "b"; Invoke 2; Push "c"], Some r) /\ sr_cost_usd r = 9%Z /\
            step_passes a_config 5 an_input [Invoke 1; Push "b"; Invoke 2; Push "c"] r.
Proof.
  destruct (execute a_config 5 an_input) as [actions result] eqn:E.
  assert (actions = [Invoke 1; Push "b"; Invoke 2; Push "c"]) as Ha by (by vm_compute in E; injection E as <- <-).
  assert (exists r, result = Some r /\ sr_success r = true) as (r & Hr & Hs) by (vm_compute in E; injection E as <- <-; by eexists).
  subst actions result. destruct (monitor_step_sound a_config 5 an_input _ r E) as (_ & Hc & _ & _ & Hp).
  exists r. split; [reflexivity|]. split; [exact Hc|exact (Hp Hs)].
Defined.

End Examples.
