(* ===== verification/PrBody.v ===== *)
(** * PrBody: the body of a pull request

    sova/core/steps/_pr_body.py: the acceptance criteria of an issue, the verdicts that
    the model gives on them, and the section of the body that says what merging does to
    the issue. The prompts are left out. Text is ASCII; the regular expressions are
    executable matchers. *)

From stdpp Require Import base gmap strings list.
From Stdlib Require Import Ascii.
From S2P Require Import Prelude Markdown Fences Sections Links.

Import Markdown.

Local Open Scope string_scope.

Definition or_default {A} (d : list A) (l : list A) : list A := match l with [] => d | _ => l end.

(** ** Titles *)

(** What is left of a text after the prefix that a matcher takes, or the text itself. *)
Definition without_prefix (m : list ascii -> option (list ascii)) (l : list ascii) : list ascii := default l (m l).

(** [_BRANCH_PREFIX_RE] *)
Definition after_branch_prefix (l : list ascii) : option (list ascii) :=
  head (omap (fun p => PyStr.after_literal (PyStr.to_list p) l) ["feat/"; "fix/"; "refactor/"; "chore/"]).

(** Digits, one at least, and what follows them without a hyphen. *)
Definition after_number (l : list ascii) : option (list ascii) :=
  match PyStr.take_while PyStr.is_digit l with
  | [] => None
  | _ => let rest := PyStr.drop_while PyStr.is_digit l in
         Some (match rest with c :: rest' => if Ascii.eqb c "-"%char then rest' else rest | [] => [] end)
  end.

(** [_ISSUE_PREFIX_RE] *)
Definition after_issue_prefix (l : list ascii) : option (list ascii) :=
  PyStr.after_literal (PyStr.to_list "issue-") l ≫= after_number.

Definition is_capital (c : ascii) : bool := let n := nat_of_ascii c in ((65 <=? n) && (n <=? 90))%nat.

(** [_JIRA_KEY_PREFIX_RE] *)
Definition after_jira_prefix (l : list ascii) : option (list ascii) :=
  match PyStr.take_while is_capital l with
  | [] => None
  | _ => PyStr.after_literal ["-"%char] (PyStr.drop_while is_capital l) ≫= after_number
  end.

(** [title_from_branch] *)
Definition title_from_branch (branch : string) : string :=
  let raw := without_prefix after_jira_prefix (without_prefix after_issue_prefix
               (without_prefix after_branch_prefix (PyStr.to_list branch))) in
  let title := PyStr.strip_list (map (fun c => if Ascii.eqb c "-"%char then " "%char else c) raw) in
  PyStr.of_list (or_default (PyStr.to_list "update") title).

(** ** Criteria *)

Definition is_bullet (c : ascii) : bool := existsb (Ascii.eqb c) ["-"; "*"; "+"]%char.

(** An optional checkbox and the text behind it; the checkbox is text when nothing follows it. *)
Definition after_checkbox (l : list ascii) : option (list ascii) :=
  let plain := match l with c :: _ => if PyStr.is_space c then None else Some l | [] => None end in
  match l with
  | a :: b :: c :: rest =>
      if Ascii.eqb a "["%char && existsb (Ascii.eqb b) [" "; "x"; "X"]%char && Ascii.eqb c "]"%char then
        match PyStr.drop_while Fences.is_blank rest with
        | d :: rest' => if PyStr.is_space d then plain else Some (d :: rest')
        | [] => plain
        end
      else plain
  | _ => plain
  end.

(** [_CRITERION_LINE_RE] *)
Definition match_criterion (l : line) : option (list ascii) :=
  match l with
  | m :: b :: rest => if is_bullet m && Fences.is_blank b then after_checkbox (PyStr.drop_while Fences.is_blank rest) else None
  | _ => None
  end.

(** The body of the loop of [extract_acceptance_criteria]. *)
Definition criterion_of (l : line) : option string :=
  if negb (bool_decide (l = lstrip_list l)) then None
  else match_criterion l ≫= fun text =>
       match PyStr.strip_list text with [] => None | text => Some (PyStr.of_list text) end.

(** [extract_acceptance_criteria] *)
Definition extract_acceptance_criteria (issue_body : string) : list string :=
  if String.eqb issue_body "" then []
  else
    let section := extract_section_nocase issue_body "Acceptance Criteria" in
    if String.eqb section "" then []
    else omap criterion_of (PyStr.splitlines (mask_fenced_blocks section)).

(** ** The model's answer *)

Definition VERDICT_MARKER : string := "<!-- ACCEPTANCE_VERDICTS -->".
Definition TITLE_MARKER : string := "<!-- PR_TITLE -->".

Definition rstrip (s : string) : string := PyStr.of_list (rstrip_list (PyStr.to_list s)).
Definition nl2 : string := PyStr.of_list [nl; nl].

(** The first line that is not blank, and what follows it. *)
Fixpoint first_line (lines : list line) : option (line * list line) :=
  match lines with
  | [] => None
  | l :: ls => match PyStr.strip_list l with [] => first_line ls | candidate => Some (candidate, ls) end
  end.

(** [split_title_tail] *)
Definition split_title_tail (raw_text : string) : string * option string :=
  match PyStr.split_once raw_text TITLE_MARKER with
  | (_, None) => (raw_text, None)
  | (before, Some after) =>
      match first_line (PyStr.splitlines after) with
      | None => (rstrip before, None)
      | Some (candidate, rest) =>
          let candidate := PyStr.of_list candidate in
          if PyStr.startswith candidate "<!--" then (raw_text, None)
          else
            let tail := PyStr.of_list (PyStr.strip_list (join_nl rest)) in
            (if String.eqb tail "" then rstrip before else rstrip before ++ nl2 ++ tail, Some candidate)
      end
  end.

(** [split_verdict_tail] *)
Definition split_verdict_tail (raw_text : string) : string * string :=
  match PyStr.split_once raw_text VERDICT_MARKER with
  | (body, Some tail) => (PyStr.strip body, tail)
  | (_, None) => (PyStr.strip raw_text, "")
  end.

(** [_VERDICT_LINE_RE] on a stripped line: the token. *)
Definition match_verdict (l : line) : option string :=
  match l with
  | m :: rest =>
      if Ascii.eqb m "-"%char then
        match PyStr.drop_while PyStr.is_space rest with
        | b :: rest =>
            if Ascii.eqb b "["%char then
              match PyStr.take_while is_word rest, PyStr.drop_while is_word rest with
              | (_ :: _) as token, e :: rest =>
                  if Ascii.eqb e "]"%char then
                    match PyStr.drop_while PyStr.is_space rest with
                    | [] => None
                    | _ :: _ => Some (PyStr.of_list token)
                    end
                  else None
              | _, _ => None
              end
            else None
        | [] => None
        end
      else None
  | [] => None
  end.

Definition VERDICT_TOKENS : list string := ["met"; "unmet"; "owner"].

(** The verdict tokens of the lines that have the shape of one. *)
Definition verdict_tokens (tail : string) : list string :=
  omap match_verdict (List.filter (fun l => negb (bool_decide (l = [])))
                        (map PyStr.strip_list (PyStr.splitlines (PyStr.strip tail)))).

(** The loop over the matches. *)
Fixpoint zip_verdicts (tokens criteria : list string) : option (list (string * string)) :=
  match tokens, criteria with
  | token :: tokens, criterion :: criteria =>
      let verdict := PyStr.lower token in
      if bool_decide (verdict ∈ VERDICT_TOKENS) then cons (criterion, verdict) <$> zip_verdicts tokens criteria else None
  | _, _ => Some []
  end.

(** [parse_verdicts] *)
Definition parse_verdicts (tail : string) (criteria : list string) : option (list (string * string)) :=
  let tokens := verdict_tokens tail in
  if (length tokens =? length criteria)%nat then zip_verdicts tokens criteria else None.

(** The patterns of [CommitConfig]. *)
Record CommitConfig := { ci_gated_patterns : list string; owner_only_patterns : list string }.

Definition usable_patterns (patterns : list string) : list string :=
  List.filter (fun p => negb (String.eqb p "")) (map (fun p => PyStr.lower (PyStr.strip p)) patterns).

(** A criterion contains one of the patterns, whatever its case. *)
Definition matches (patterns : list string) (text : string) : bool :=
  existsb (PyStr.contains (PyStr.lower text)) (usable_patterns patterns).

(** [_force_verdict] *)
Definition force_verdict (verdicts : list (string * string)) (patterns : list string) (forced : string) : list (string * string) :=
  match usable_patterns patterns with
  | [] => verdicts
  | _ => map (fun tv => (tv.1, if matches patterns tv.1 then forced else tv.2)) verdicts
  end.

(** [apply_owner_overrides], [apply_ci_gated_overrides], [apply_verdict_overrides] *)
Definition apply_owner_overrides (verdicts : list (string * string)) (patterns : list string) := force_verdict verdicts patterns "owner".
Definition apply_ci_gated_overrides (verdicts : list (string * string)) (patterns : list string) := force_verdict verdicts patterns "met".
Definition apply_verdict_overrides (verdicts : list (string * string)) (commit : CommitConfig) : list (string * string) :=
  apply_owner_overrides (apply_ci_gated_overrides verdicts (ci_gated_patterns commit)) (owner_only_patterns commit).

(** [process_llm_result] *)
Definition process_llm_result (raw_text : string) (criteria : list string) (commit : CommitConfig)
    : string * option (list (string * string)) :=
  let '(body, tail) := split_verdict_tail (strip_preamble raw_text) in
  match criteria with
  | [] => (body, None)
  | _ :: _ =>
      let parsed := default (map (fun c => (c, "unknown")) criteria) (parse_verdicts tail criteria) in
      (body, Some (apply_verdict_overrides parsed commit))
  end.

(** ** The closing decision *)

Definition UNPARSEABLE_NOTE : string :=
  "Per-criterion verdicts could not be parsed; every criterion is listed conservatively below.".

(** The item of an unmet criterion, without its bullet. *)
Definition unmet_item (tv : string * string) : string :=
  tv.1 ++ (if String.eqb tv.2 "owner" then " (requires owner/manual action)"
           else if String.eqb tv.2 "unknown" then " (unverified)" else "").

Definition unmet_of (verdicts : list (string * string)) : list (string * string) :=
  List.filter (fun tv => negb (String.eqb tv.2 "met")) verdicts.

Definition part_of_lines (issue_number : string) (unmet : list (string * string)) : list string :=
  ["Part of #" ++ issue_number; ""]
  ++ (if existsb (fun tv => String.eqb tv.2 "unknown") unmet then [UNPARSEABLE_NOTE; ""] else [])
  ++ NOT_DONE_LABEL :: map (fun tv => "- " ++ unmet_item tv) unmet.

(** [render_closing_block] *)
Definition render_closing_block (issue_number : string) (verdicts : option (list (string * string))) : string :=
  match unmet_of (default [] verdicts) with
  | [] => "Closes #" ++ issue_number
  | unmet => PyStr.join (PyStr.of_list [nl]) (part_of_lines issue_number unmet)
  end.

(** ** Rewriting the model's prose *)

(** [pattern.sub(...)]: a match is what replaces it and how many characters it takes;
    [skip] characters are still part of the last one. *)
Fixpoint sub (m : Matcher) (prev : option ascii) (skip : nat) (l : list ascii) : list ascii :=
  match l with
  | [] => []
  | c :: l' =>
      match skip with
      | S skip => sub m (Some c) skip l'
      | O => match m prev l with
             | Some (replacement, n) => (replacement ++ sub m (Some c) (n - 1) l')%list
             | None => c :: sub m (Some c) 0 l'
             end
      end
  end.

(** What follows a closing keyword, its separator and the reference to an issue, and what follows the keyword. *)
Definition after_reference (issue_number : string) (l : list ascii) : option (list ascii * list ascii) :=
  head (omap (fun k => after_nocase k l ≫= fun after_keyword =>
                       after_separator after_keyword ≫= fun rest =>
                       after_nocase ("#" ++ issue_number) rest ≫= fun rest => Some (after_keyword, rest)) CLOSING_KEYWORDS).

(** An optional list marker between blanks. *)
Definition after_list_marker (l : list ascii) : list ascii :=
  let l := PyStr.drop_while Fences.is_blank l in
  PyStr.drop_while Fences.is_blank
    (match l with
     | c :: rest =>
         if is_bullet c then rest
         else match PyStr.take_while PyStr.is_digit l, PyStr.drop_while PyStr.is_digit l with
              | _ :: _, d :: rest => if Ascii.eqb d "."%char then rest else l
              | _, _ => l
              end
     | [] => l
     end).

(** [_closing_keyword_re]: a line that is only a closing reference. *)
Definition match_closing_line (issue_number : string) : Matcher := fun prev l =>
  if match prev with None => true | Some c => Ascii.eqb c nl end then
    after_reference issue_number (after_list_marker l) ≫= fun '(_, rest) =>
      let rest := PyStr.drop_while Fences.is_blank rest in
      let rest := match rest with c :: rest' => if Ascii.eqb c "."%char || Ascii.eqb c ";"%char then rest' else rest | [] => [] end in
      let rest := PyStr.drop_while (fun c => Fences.is_blank c || Ascii.eqb c cr) rest in
      match rest with
      | [] => Some ([], length l)
      | c :: _ => if Ascii.eqb c nl then Some ([], length l - length rest)%nat else None
      end
  else None.

(** The pattern of [_neutralize_inline_closing_keyword] and its replacement. *)
Definition match_inline_keyword (issue_number : string) : Matcher := fun prev l =>
  if match prev with Some c => is_word c | None => false end then None
  else
    after_reference issue_number l ≫= fun '(after_keyword, rest) =>
      if match rest with c :: _ => is_word c | [] => false end then None
      else Some ((PyStr.to_list "addresses" ++ take (length after_keyword - length rest) after_keyword)%list,
                 (length l - length rest)%nat).

Definition neutralize_inline_closing_keyword (body issue_number : string) : string :=
  PyStr.of_list (sub (match_inline_keyword issue_number) None 0 (PyStr.to_list body)).

(** [INLINE_CODE_RE.sub(lambda m: " " * len(m.group()), text)]; [skip] characters are still part of a code span. *)
Fixpoint blank_code (skip : nat) (l : list ascii) : list ascii :=
  match l with
  | [] => []
  | c :: l' =>
      match skip with
      | S skip => space :: blank_code skip l'
      | O =>
          if Ascii.eqb c "`"%char then
            let inside := PyStr.take_while (fun c => negb (Ascii.eqb c "`"%char || Ascii.eqb c nl)) l' in
            match drop (length inside) l' with
            | e :: _ => if Ascii.eqb e "`"%char then space :: blank_code (S (length inside)) l' else c :: blank_code 0 l'
            | [] => c :: blank_code 0 l'
            end
          else c :: blank_code 0 l'
      end
  end.

(** [re.sub(r"\s+", " ", s)] *)
Fixpoint collapse (after_space : bool) (l : list ascii) : list ascii :=
  match l with
  | [] => []
  | c :: l => if PyStr.is_space c then if after_space then collapse true l else space :: collapse true l
              else c :: collapse false l
  end.

(** The loop of [_quote_foreign_closing_keywords], over the masked text and the text;
    [skip] characters are still part of the last match, which is kept or not. *)
Fixpoint quote_foreign (issue_number : string) (prev : option ascii) (skip : nat) (keep : bool) (masked body : list ascii) : list ascii :=
  match masked, body with
  | m :: masked', c :: body' =>
      match skip with
      | S skip => ((if keep then [c] else []) ++ quote_foreign issue_number (Some m) skip keep masked' body')%list
      | O =>
          match match_closes prev masked with
          | None => c :: quote_foreign issue_number (Some m) 0 true masked' body'
          | Some (number, n) =>
              if bool_decide (number = PyStr.to_list issue_number)
              then c :: quote_foreign issue_number (Some m) (n - 1) true masked' body'
              else ("`"%char :: collapse false (take n body) ++ ["`"%char]
                    ++ quote_foreign issue_number (Some m) (n - 1) false masked' body')%list
          end
      end
  | _, _ => body
  end.

(** [_quote_foreign_closing_keywords] *)
Definition quote_foreign_closing_keywords (body issue_number : string) : string :=
  PyStr.of_list (quote_foreign issue_number None 0 true
                   (blank_code 0 (PyStr.to_list (mask_fenced_blocks body))) (PyStr.to_list body)).

Definition ISSUE_SECTION_HEADING : string := "Issue".

(** The prose of [compose_body], before the section is written. *)
Definition composed_prose (sections_markdown issue_number : string) (verdicts : option (list (string * string))) (is_jira : bool) : string :=
  let body := rstrip (PyStr.of_list (sub (match_closing_line issue_number) None 0 (PyStr.to_list sections_markdown))) in
  let body := if is_jira || negb (PyStr.startswith (render_closing_block issue_number verdicts) "Closes #")
              then neutralize_inline_closing_keyword body issue_number else body in
  quote_foreign_closing_keywords body issue_number.

(** [compose_body] *)
Definition compose_body (sections_markdown issue_number : string) (verdicts : option (list (string * string)))
    (is_jira : bool) (jira_link : string) : string :=
  upsert_section (composed_prose sections_markdown issue_number verdicts is_jira) ISSUE_SECTION_HEADING
    (if is_jira then jira_link else render_closing_block issue_number verdicts).

(** ** Sections *)

Definition DIFF_CONTENT_LIMIT : nat := 8000.

(** [truncate_diff] *)
Definition truncate_diff (full_diff : string) (diff_succeeded : bool) : string :=
  if diff_succeeded && String.eqb full_diff "" then "(no changes detected)"
  else if (DIFF_CONTENT_LIMIT <? String.length full_diff)%nat
  then PyStr.slice_to DIFF_CONTENT_LIMIT full_diff ++ nl2 ++ "... (diff truncated, showing first 8000 chars)"
  else full_diff.

(** [_BODY_HEADING_RE] on one masked line: the heading. *)
Definition body_heading (l : line) : option string :=
  match PyStr.after_literal (PyStr.to_list "##") l with
  | Some (b :: rest) =>
      if Fences.is_blank b then
        match PyStr.drop_while Fences.is_blank rest with
        | c :: text => if PyStr.is_space c then None else Some (PyStr.strip (PyStr.of_list (c :: text)))
        | [] => None
        end
      else None
  | _ => None
  end.

(** The heading that is open, with the lines under it, and the sections that are complete. *)
Definition section_content (lines : list line) : string := PyStr.of_list (PyStr.strip_list (join_nl lines)).

Definition add_section (sections : list (string * string)) (heading content : string) : list (string * string) :=
  if existsb (fun kv => String.eqb kv.1 heading) sections
  then map (fun kv => if String.eqb kv.1 heading then (heading, PyStr.strip (kv.2 ++ nl2 ++ content)) else kv) sections
  else (sections ++ [(heading, content)])%list.

Fixpoint sections_from (current : option (string * list line)) (masked original : list line) (sections : list (string * string))
    : list (string * string) :=
  let closed := match current with Some (h, lines) => add_section sections h (section_content lines) | None => sections end in
  match masked, original with
  | m :: masked, o :: original =>
      match body_heading m with
      | Some h => sections_from (Some (h, [])) masked original closed
      | None => sections_from (match current with Some (h, lines) => Some (h, (lines ++ [o])%list) | None => None end)
                  masked original sections
      end
  | _, _ => closed
  end.

(** [split_sections]; a dictionary is its entries in the order of their insertion. *)
Definition split_sections (markdown : string) : list (string * string) :=
  let lines := split_nl (PyStr.to_list markdown) in
  sections_from None (mask_lines None lines) lines [].

(** [apply_sections] *)
Definition apply_sections (body : string) (sections : list (string * string)) : string :=
  fold_left (fun body kv => upsert_section body kv.1 kv.2) sections body.

(** *** Examples *)

Example branch_titles :
  map title_from_branch ["feat/issue-12-add-x"; "fix/ABC-7-do-it"; "issue-9"] = ["add x"; "do it"; "update"].
Proof. reflexivity. Qed.
Example criteria_read :
  extract_acceptance_criteria (Sections.lines_text ["## acceptance criteria"; "- [x] one "; "---"; "  - nested"; "* two"; "- [ ]"; "```"; "- no"; "```"])
  = ["one"; "two"; "[ ]"].
Proof. reflexivity. Qed.
Example title_taken : split_title_tail (Sections.lines_text ["body"; "<!-- PR_TITLE -->"; ""; " feat: x "; "rest"])
  = (Sections.lines_text ["body"; ""; "rest"], Some "feat: x").
Proof. reflexivity. Qed.
Example prose_rewritten :
  composed_prose (Sections.lines_text ["## Summary"; "- Closes #42."; "This fixes: #42 and closes #12, `fixes #12`."]) "42" (Some [("a", "unmet")]) false
  = Sections.lines_text ["## Summary"; ""; "This addresses: #42 and `closes #12`, `fixes #12`."].
Proof. reflexivity. Qed.
Example sections_split :
  split_sections (Sections.lines_text ["intro"; "## A"; "x"; "## B"; "y"; "## A"; "z"])
  = [("A", Sections.lines_text ["x"; ""; "z"]); ("B", "y")].
Proof. reflexivity. Qed.

(** ** Lemmas *)

(** *** Verdicts *)

Lemma zip_verdicts_spec tokens criteria :
  length tokens = length criteria ->
  zip_verdicts tokens criteria =
  if forallb (fun t => bool_decide (PyStr.lower t ∈ VERDICT_TOKENS)) tokens then Some (zip criteria (map PyStr.lower tokens)) else None.
Proof.
  revert criteria. induction tokens as [|t tokens IH]; intros [|c criteria]; try done. intros [= Hlen]. cbn [zip_verdicts forallb].
  destruct (bool_decide _); [|done]. rewrite IH by done. cbn. by destruct (forallb _ tokens).
Qed.

Lemma force_verdict_map verdicts patterns forced :
  force_verdict verdicts patterns forced = map (fun tv => (tv.1, if matches patterns tv.1 then forced else tv.2)) verdicts.
Proof.
  unfold force_verdict, matches. destruct (usable_patterns patterns) as [|p ps]; [|done]. cbn.
  induction verdicts as [|[t v] verdicts IH]; cbn; congruence.
Qed.

(** The verdict that the patterns leave of one. *)
Definition overridden (commit : CommitConfig) (tv : string * string) : string :=
  if matches (owner_only_patterns commit) tv.1 then "owner"
  else if matches (ci_gated_patterns commit) tv.1 then "met" else tv.2.

Lemma apply_overrides_map verdicts commit :
  apply_verdict_overrides verdicts commit = map (fun tv => (tv.1, overridden commit tv)) verdicts.
Proof.
  unfold apply_verdict_overrides, apply_owner_overrides, apply_ci_gated_overrides. rewrite !force_verdict_map, map_map.
  apply map_ext. intros [t v]. done.
Qed.

(** What the model said about each criterion, or that it did not say. *)
Definition reported (tail : string) (criteria : list string) : list (string * string) :=
  default (map (fun c => (c, "unknown")) criteria) (parse_verdicts tail criteria).

Lemma process_verdicts raw_text criteria commit :
  default [] (process_llm_result raw_text criteria commit).2 =
  map (fun tv => (tv.1, overridden commit tv)) (reported (split_verdict_tail (strip_preamble raw_text)).2 criteria).
Proof.
  unfold process_llm_result, reported. destruct (split_verdict_tail _) as [body tail]. destruct criteria as [|c criteria]; cbn [snd default].
  - unfold parse_verdicts. by destruct (verdict_tokens tail).
  - by rewrite apply_overrides_map.
Qed.

Lemma zip_fst {A B} (l : list A) (k : list B) : length l = length k -> map fst (zip l k) = l.
Proof. revert k. induction l as [|a l IH]; intros [|b k]; try done. intros [= H]. cbn. by rewrite IH. Qed.

Lemma reported_fst tail criteria : map fst (reported tail criteria) = criteria.
Proof.
  unfold reported, parse_verdicts. destruct (Nat.eqb_spec (length (verdict_tokens tail)) (length criteria)) as [E|].
  - rewrite zip_verdicts_spec by done. destruct (forallb _ _); cbn.
    + apply zip_fst. by rewrite length_map.
    + rewrite map_map. cbn. apply map_id.
  - cbn. rewrite map_map. cbn. apply map_id.
Qed.

(** The model reports a criterion as met: its answer has as many verdicts as there are
    criteria, all of them valid, and the one at the place of the criterion is [met]. *)
Definition reported_met (tail : string) (criteria : list string) (i : nat) : Prop :=
  length (verdict_tokens tail) = length criteria /\
  (forall t, t ∈ verdict_tokens tail -> PyStr.lower t ∈ VERDICT_TOKENS) /\
  exists t, verdict_tokens tail !! i = Some t /\ PyStr.lower t = "met".

Lemma reported_lookup tail criteria i c v :
  reported tail criteria !! i = Some (c, v) -> criteria !! i = Some c /\ (v = "met" <-> reported_met tail criteria i).
Proof.
  intros Hi. assert (criteria !! i = Some c) as Hc by (rewrite <- (reported_fst tail criteria), list_lookup_fmap, Hi; done).
  split; [done|]. unfold reported, parse_verdicts in Hi. unfold reported_met.
  destruct (Nat.eqb_spec (length (verdict_tokens tail)) (length criteria)) as [E|E].
  2: { cbn in Hi. rewrite list_lookup_fmap, Hc in Hi. injection Hi as <-. split; [done|]. by intros [? _]. }
  rewrite zip_verdicts_spec in Hi by done. destruct (forallb _ _) eqn:Ev; cbn in Hi.
  - rewrite lookup_zip_with, Hc, list_lookup_fmap in Hi. cbn in Hi.
    destruct (verdict_tokens tail !! i) as [t|] eqn:Et; [|done]. cbn in Hi. injection Hi as <-.
    rewrite forallb_forall in Ev. split.
    + intros Hm. split; [done|]. split; [|by exists t]. intros t' Ht'. apply list_elem_of_In, Ev in Ht'. by apply bool_decide_eq_true in Ht'.
    + by intros (_ & _ & t' & [= <-] & Hm).
  - rewrite list_lookup_fmap, Hc in Hi. injection Hi as <-. split; [done|]. intros (_ & Hall & _).
    rewrite <- not_true_iff_false, forallb_forall in Ev. destruct Ev. intros t Ht. apply bool_decide_eq_true, Hall. by apply list_elem_of_In.
Qed.

(** *** Lines *)

Definition line_text (l : list ascii) : Prop := forall c, c ∈ l -> PyStr.is_line_break c = false.

Lemma chars_app a b : PyStr.to_list (a ++ b) = (PyStr.to_list a ++ PyStr.to_list b)%list.
Proof. induction a as [|c a IH]; [done|]. cbn. by rewrite <- IH. Qed.

Lemma to_list_join lines : PyStr.to_list (PyStr.join (PyStr.of_list [nl]) lines) = join_nl (map PyStr.to_list lines).
Proof.
  induction lines as [|l lines IH]; [done|]. destruct lines as [|l' lines]; [done|].
  change (PyStr.join (PyStr.of_list [nl]) (l :: l' :: lines)) with (l ++ PyStr.of_list [nl] ++ PyStr.join (PyStr.of_list [nl]) (l' :: lines)).
  rewrite !chars_app, IH. done.
Qed.

Lemma lines_from_line acc l rest : line_text l -> PyStr.lines_from acc (l ++ nl :: rest) = (rev acc ++ l)%list :: PyStr.lines_from [] rest.
Proof.
  revert acc. induction l as [|c l IH]; intros acc Hl; cbn; [by rewrite app_nil_r|].
  rewrite (Hl c) by constructor. rewrite IH; [|intros x Hx; apply Hl; by constructor]. cbn. by rewrite <- app_assoc.
Qed.

Lemma lines_from_last acc l : line_text l -> (rev acc ++ l)%list <> [] -> PyStr.lines_from acc l = [(rev acc ++ l)%list].
Proof.
  revert acc. induction l as [|c l IH]; intros acc Hl Hne; cbn.
  - rewrite app_nil_r in *. by destruct acc.
  - rewrite (Hl c) by constructor. rewrite IH; [cbn; by rewrite <- app_assoc| |].
    + intros x Hx. apply Hl. by constructor.
    + cbn. rewrite <- app_assoc. by destruct (rev acc).
Qed.

Lemma lines_from_join lines last :
  (forall l, l ∈ lines -> line_text l) -> line_text last -> last <> [] ->
  PyStr.lines_from [] (join_nl (lines ++ [last])) = (lines ++ [last])%list.
Proof.
  intros Hl Hlast Hne. induction lines as [|l lines IH]; [by apply lines_from_last|].
  cbn [app]. rewrite join_nl_cons by by destruct lines. rewrite lines_from_line by (apply Hl; by constructor).
  cbn. f_equal. apply IH. intros x Hx. apply Hl. by constructor.
Qed.

(** The lines of [splitlines] have no line break. *)
Lemma lines_from_text acc l x : (forall c, c ∈ acc -> PyStr.is_line_break c = false) -> x ∈ PyStr.lines_from acc l -> line_text x.
Proof.
  remember (length l) as n eqn:En. revert acc l En. induction n as [n IH] using lt_wf_ind. intros acc l -> Hacc. destruct l as [|c l]; cbn.
  - destruct acc as [|a acc]; [by intros ?%not_elem_of_nil|]. intros ->%list_elem_of_singleton c Hc. apply Hacc. by apply list_elem_of_In, in_rev, list_elem_of_In.
  - destruct (PyStr.is_line_break c) eqn:Ec.
    + intros [->|Hx]%elem_of_cons.
      * intros d Hd. apply Hacc. by apply list_elem_of_In, in_rev, list_elem_of_In.
      * destruct (Ascii.eqb c "013"%char); [destruct l as [|d l]; [by apply not_elem_of_nil in Hx|]; destruct (Ascii.eqb d "010"%char)|];
          (eapply (IH (length _)); [|reflexivity| |exact Hx]; [cbn; lia|by intros d' ?%not_elem_of_nil]).
    + apply (IH (length l)); [cbn; lia|done|]. intros d [->|Hd]%elem_of_cons; auto.
Qed.

(** *** Criteria are single lines of text *)

Definition item_text (s : string) : Prop := tight (PyStr.to_list s) /\ line_text (PyStr.to_list s).

Lemma drop_while_suffix (f : ascii -> bool) l : PyStr.drop_while f l `suffix_of` l.
Proof. induction l as [|c l IH]; [done|]. cbn. destruct (f c); [by apply suffix_cons_r|done]. Qed.

Lemma suffix_in {A} (a b : list A) x : a `suffix_of` b -> x ∈ a -> x ∈ b.
Proof. intros [k ->] Hx. apply elem_of_app. by right. Qed.

Lemma after_checkbox_suffix l t : after_checkbox l = Some t -> t `suffix_of` l.
Proof.
  unfold after_checkbox.
  assert (forall t, match l with c :: _ => if PyStr.is_space c then None else Some l | [] => None end = Some t -> t `suffix_of` l) as Hplain.
  { intros t'. destruct l as [|c l']; [done|]. destruct (PyStr.is_space c); [done|]. by intros [= <-]. }
  destruct l as [|a [|b [|c rest]]]; try apply Hplain. destruct (_ && _); [|apply Hplain].
  destruct (PyStr.drop_while Fences.is_blank rest) as [|d rest'] eqn:E; [apply Hplain|].
  destruct (PyStr.is_space d); [apply Hplain|]. intros [= <-]. rewrite <- E.
  do 3 apply suffix_cons_r. apply drop_while_suffix.
Qed.

Lemma criterion_item l s : line_text l -> criterion_of l = Some s -> item_text s.
Proof.
  intros Hl. unfold criterion_of. destruct (negb _); [done|]. destruct (match_criterion l) as [t|] eqn:Em; [|done]. cbn [mbind option_bind].
  assert (t `suffix_of` l) as Ht.
  { unfold match_criterion in Em. destruct l as [|m [|b rest]]; try done. destruct (_ && _); [|done].
    apply after_checkbox_suffix in Em. etransitivity; [exact Em|]. do 2 apply suffix_cons_r. apply drop_while_suffix. }
  destruct (PyStr.strip_list t) as [|c k] eqn:Es; [done|]. intros E. assert (s = PyStr.of_list (c :: k)) as -> by congruence.
  unfold item_text. rewrite PyStr.to_of_list.
  split; [destruct (strip_cases t) as [E1|E1]; [congruence|by rewrite Es in E1]|].
  intros x Hx. apply Hl. eapply suffix_in; [exact Ht|]. rewrite <- Es in Hx. clear -Hx.
  destruct (drop_while_split t) as (pre & Et & _). destruct (rstrip_split (PyStr.drop_while PyStr.is_space t)) as (post & Er & _).
  rewrite Et, Er. apply elem_of_app. right. apply elem_of_app. left. exact Hx.
Qed.

Lemma criteria_items issue_body c : c ∈ extract_acceptance_criteria issue_body -> item_text c.
Proof.
  unfold extract_acceptance_criteria. destruct (String.eqb _ _); [by intros ?%not_elem_of_nil|].
  destruct (String.eqb _ _); [by intros ?%not_elem_of_nil|]. intros (l & Hl & Hc)%list_elem_of_omap.
  eapply criterion_item; [|exact Hc]. eapply lines_from_text; [|exact Hl]. by intros x ?%not_elem_of_nil.
Qed.

Lemma tight_suffix a b : tight a -> b = [] \/ (exists c l', b = (l' ++ [c])%list /\ PyStr.is_space c = false) -> tight (a ++ b)%list.
Proof.
  intros [(c & a' & -> & Hc) Ha] [->|(d & l' & -> & Hd)]; [rewrite app_nil_r; by split; [eexists _, _|]|].
  split; [by eexists _, _|]. exists d, ((c :: a') ++ l')%list. by rewrite <- app_assoc.
Qed.

Lemma unmet_item_text t v : item_text t -> item_text (unmet_item (t, v)).
Proof.
  intros [Ht Hl]. unfold unmet_item, item_text. cbn [fst snd]. rewrite chars_app. split.
  - apply tight_suffix; [done|]. destruct (String.eqb v "owner"); [|destruct (String.eqb v "unknown"); [|by left]]; right;
      eexists ")"%char, _; (split; [|done]).
    + change (PyStr.to_list " (requires owner/manual action)") with (PyStr.to_list " (requires owner/manual action" ++ [")"%char])%list. done.
    + change (PyStr.to_list " (unverified)") with (PyStr.to_list " (unverified" ++ [")"%char])%list. done.
  - intros c [Hc|Hc]%elem_of_app; [by apply Hl|]. revert c Hc.
    destruct (String.eqb v "owner"); [|destruct (String.eqb v "unknown")]; apply Forall_forall, (bool_decide_unpack _); vm_compute; exact I.
Qed.

(** *** The list is read back *)

(** The line of an item. *)
Definition bullet (s : string) : list ascii := ("-" :: " " :: PyStr.to_list s)%char%list.

Lemma match_bullet s : item_text s -> PyStr.drop_while_end PyStr.is_space (bullet s) = bullet s /\ match_item (bullet s) = Some (PyStr.to_list s).
Proof.
  intros [[(c & l & El & Hc) (d & l' & El' & Hd)] _]. split.
  - unfold bullet. rewrite El'. unfold PyStr.drop_while_end. change ("-" :: " " :: l' ++ [d])%char with (("-" :: " " :: l')%char ++ [d])%list.
    rewrite rev_app_distr. cbn [rev app PyStr.drop_while]. rewrite Hd. cbn. by rewrite !rev_app_distr, rev_involutive.
  - unfold bullet, match_item. rewrite El. cbn.
    assert (Fences.is_blank c = false) as ->.
    { unfold Fences.is_blank. apply orb_false_iff. split; apply Ascii.eqb_neq; intros ->; done. }
    by rewrite Hc.
Qed.

Lemma items_read acc items : (forall s, s ∈ items -> item_text s) ->
  items_from acc (map bullet items) = (acc ++ map PyStr.to_list items)%list.
Proof.
  revert acc. induction items as [|s items IH]; intros acc Hitems; cbn [map items_from]; [by rewrite app_nil_r|].
  destruct (match_bullet s) as [-> ->]; [apply Hitems; by constructor|].
  rewrite (bool_decide_eq_false_2 (bullet s = [])) by done. rewrite andb_false_r.
  rewrite IH; [by rewrite <- app_assoc|]. intros x Hx. apply Hitems. by constructor.
Qed.

Definition text_lines (lines : list string) : list line := map PyStr.to_list lines.

(** Lines that start with none of the characters that open a fence or a heading. *)
Definition prose_line (l : line) : Prop :=
  nl ∉ l /\ match l with [] => True | c :: _ => c ∈ ["P"; "N"; "-"]%char end.

Lemma prose_no_fence l : prose_line l -> fence_open l = None /\ is_boundary l = false.
Proof.
  intros [_ H]. destruct l as [|c l]; [done|].
  apply elem_of_cons in H as [->|[->|[->|[]%not_elem_of_nil]%elem_of_cons]%elem_of_cons]; by destruct l as [|? [|]].
Qed.

Lemma prose_plain lines : lines <> [] -> (forall l, l ∈ lines -> prose_line l) ->
  split_nl (join_nl lines) = lines /\ fence_free lines /\ plain_content (join_nl lines).
Proof.
  intros Hne Hl. assert (split_nl (join_nl lines) = lines) as Hs by (apply split_join_nl; [done|intros l Hin; by apply Hl]).
  assert (fence_free lines) as Hf by (intros l Hin; by apply prose_no_fence, Hl).
  split; [done|]. split; [done|]. unfold plain_content. rewrite Hs. destruct (fence_free_mask lines Hf) as [-> ->].
  split; [|done]. intros l Hin. by apply prose_no_fence, Hl.
Qed.

(** The lines of a "Part of" block, without the last item. *)
Lemma part_of_shape n unmet :
  line_text (PyStr.to_list n) -> unmet <> [] -> (forall tv, tv ∈ unmet -> item_text (unmet_item tv)) ->
  let lines := text_lines (part_of_lines n unmet) in
  (forall l, l ∈ lines -> line_text l /\ prose_line l) /\
  (exists before last, lines = (before ++ [last])%list /\ last <> []) /\
  tight (join_nl lines) /\
  first_list lines = Some (map (fun tv => PyStr.to_list (unmet_item tv)) unmet).
Proof.
  intros Hn Hne Hitems lines.
  assert (lines = (PyStr.to_list "Part of #" ++ PyStr.to_list n) :: [] ::
            text_lines (if existsb (fun tv => String.eqb tv.2 "unknown") unmet then [UNPARSEABLE_NOTE; ""] else [])
            ++ PyStr.to_list NOT_DONE_LABEL :: map bullet (map unmet_item unmet))%list as Hlines.
  { unfold lines, part_of_lines, text_lines. rewrite map_app, map_app. cbn [map app]. rewrite chars_app, !map_map. done. }
  assert (forall s, s ∈ map unmet_item unmet -> item_text s) as Hs by (intros s (tv & -> & Htv)%list_elem_of_fmap; auto).
  assert (forall l, l ∈ lines -> line_text l) as Htext.
  { rewrite Hlines. assert (forall s, forallb (fun c => negb (PyStr.is_line_break c)) (PyStr.to_list s) = true -> line_text (PyStr.to_list s)) as Hconst.
    { intros s H c Hc. rewrite forallb_forall in H. apply negb_true_iff, H. by apply list_elem_of_In. }
    intros l [->|[->|[Hl|[->|Hl]%elem_of_cons]%elem_of_app]%elem_of_cons]%elem_of_cons.
    - intros c [Hc|Hc]%elem_of_app; [|by apply Hn]. by apply (Hconst "Part of #").
    - by intros c ?%not_elem_of_nil.
    - destruct (existsb _ _); [|by apply not_elem_of_nil in Hl].
      apply elem_of_cons in Hl as [->|[->|[]%not_elem_of_nil]%elem_of_cons]; by apply Hconst.
    - by apply Hconst.
    - apply list_elem_of_fmap in Hl as (s & -> & Hin). destruct (Hs s Hin) as [_ Hls].
      intros c [->|[->|Hc]%elem_of_cons]%elem_of_cons; [done|done|by apply Hls]. }
  assert (forall l, l ∈ lines -> match l with [] => True | c :: _ => c ∈ ["P"; "N"; "-"]%char end) as Hstart.
  { rewrite Hlines. intros l [->|[->|[Hl|[->|Hl]%elem_of_cons]%elem_of_app]%elem_of_cons]%elem_of_cons; cbn; try (by repeat constructor).
    - destruct (existsb _ _); [|by apply not_elem_of_nil in Hl].
      apply elem_of_cons in Hl as [->|[->|[]%not_elem_of_nil]%elem_of_cons]; cbn; by repeat constructor.
    - apply list_elem_of_fmap in Hl as (s & -> & Hin). cbn. by repeat constructor. }
  assert (exists before s, lines = (before ++ [bullet s])%list /\ item_text s /\ before <> []) as (before & s & Hlast & Hits & Hbne).
  { destruct (exists_last Hne) as (u & tv & E). exists ((PyStr.to_list "Part of #" ++ PyStr.to_list n) :: [] ::
            text_lines (if existsb (fun tv => String.eqb tv.2 "unknown") unmet then [UNPARSEABLE_NOTE; ""] else [])
            ++ PyStr.to_list NOT_DONE_LABEL :: map bullet (map unmet_item u))%list, (unmet_item tv).
    split; [|split; [apply Hitems; rewrite E; apply elem_of_app; right; by constructor|done]].
    rewrite Hlines. rewrite E at 2. rewrite !map_app. cbn. rewrite <- app_assoc. done. }
  split; [|split; [|split]].
  - intros l Hl. split; [by apply Htext|]. split; [|by apply Hstart]. intros Hin. by apply (Htext l Hl) in Hin.
  - exists before, (bullet s). done.
  - split.
    + rewrite Hlines. eexists "P"%char, _. split; [|done]. rewrite join_nl_cons by done. reflexivity.
    + destruct Hits as [[_ (d & l' & El & Hd)] _]. rewrite Hlast, join_nl_app by done.
      exists d, (lines_before before ++ "-"%char :: " "%char :: l')%list. split; [|done]. cbn. unfold bullet. rewrite El, <- app_assoc. done.
  - rewrite Hlines. cbn [first_list].
    rewrite bool_decide_eq_false_2.
    2: { intros E. destruct (rstrip_split (PyStr.to_list "Part of #" ++ PyStr.to_list n)) as (post & Ep & Hpost & Hcase).
         change (PyStr.strip_list (PyStr.to_list "Part of #" ++ PyStr.to_list n)) with (rstrip_list (PyStr.to_list "Part of #" ++ PyStr.to_list n)) in E.
         rewrite E in Ep. discriminate Ep. }
    rewrite (bool_decide_eq_false_2 (PyStr.strip_list [] = _)) by done.
    assert (forall before, (forall l, l ∈ before -> PyStr.strip_list l <> PyStr.to_list NOT_DONE_LABEL) ->
      first_list (before ++ PyStr.to_list NOT_DONE_LABEL :: map bullet (map unmet_item unmet)) =
      Some (map (fun tv => PyStr.to_list (unmet_item tv)) unmet)) as Hfirst.
    { intros bef Hbef. induction bef as [|l bef IH]; cbn [app first_list].
      - rewrite bool_decide_eq_true_2 by reflexivity. rewrite items_read by done. cbn [app]. rewrite map_map. by destruct unmet.
      - rewrite bool_decide_eq_false_2 by (apply Hbef; by constructor). apply IH. intros x Hx. apply Hbef. by constructor. }
    apply Hfirst. intros l Hl. destruct (existsb _ _); [|by apply not_elem_of_nil in Hl].
    apply elem_of_cons in Hl as [->|[->|[]%not_elem_of_nil]%elem_of_cons]; by vm_compute.
Qed.

(** The block closes the issue exactly when nothing is unmet. *)
Lemma render_cases n verdicts :
  (unmet_of (default [] verdicts) = [] /\ render_closing_block n verdicts = "Closes #" ++ n) \/
  (unmet_of (default [] verdicts) <> [] /\ render_closing_block n verdicts <> "Closes #" ++ n /\
   PyStr.to_list (render_closing_block n verdicts) = join_nl (text_lines (part_of_lines n (unmet_of (default [] verdicts))))).
Proof.
  unfold render_closing_block. destruct (unmet_of (default [] verdicts)) as [|tv unmet]; [by left|]. right. split; [done|].
  split; [|apply to_list_join]. intros E. apply (f_equal PyStr.to_list) in E. rewrite to_list_join in E. discriminate E.
Qed.

Lemma no_unmet verdicts : unmet_of verdicts = [] <-> forall i c v, verdicts !! i = Some (c, v) -> v = "met".
Proof.
  unfold unmet_of. induction verdicts as [|[c v] verdicts IH]; cbn; [done|].
  destruct (String.eqb_spec v "met") as [->|Hv]; cbn.
  - rewrite IH. split; [intros H [|i] c' v'; [by intros [= <- <-]|apply H]|intros H i; apply (H (S i))].
  - split; [done|]. intros H. destruct (Hv (H 0 c v eq_refl)).
Qed.

(** ** Properties *)


(** What a body lists as not done is read back from it: for the criteria of any issue and
    whatever the model answers, the items written under the heading of a stripped body
    with no fence left open are those that merging finds there, with their order and
    their suffixes. *)
Theorem not_done_read_back n text raw_text issue_body commit :
  let verdicts := (process_llm_result raw_text (extract_acceptance_criteria issue_body) commit).2 in
  let unmet := unmet_of (default [] verdicts) in
  line_text (PyStr.to_list n) -> PyStr.strip text = text -> appendable text ISSUE_SECTION_HEADING -> unmet <> [] ->
  parse_not_done_items (upsert_section text ISSUE_SECTION_HEADING (render_closing_block n verdicts)) = Some (map unmet_item unmet).
Proof.
  intros verdicts unmet Hn Htext Happ Hne.
  assert (forall tv, tv ∈ unmet -> item_text (unmet_item tv)) as Hitems.
  { intros [c v] Htv. apply unmet_item_text, (criteria_items issue_body). apply list_elem_of_In, List.filter_In in Htv as [Htv%list_elem_of_In _].
    unfold verdicts in Htv. rewrite process_verdicts in Htv. apply list_elem_of_fmap in Htv as ([c' v'] & [= -> ->] & Htv).
    rewrite <- (reported_fst (split_verdict_tail (strip_preamble raw_text)).2 (extract_acceptance_criteria issue_body)).
    apply list_elem_of_fmap. by exists (c', v'). }
  destruct (render_cases n verdicts) as [[? _]|(_ & _ & Hblock)]; [done|]. fold unmet in Hblock.
  destruct (part_of_shape n unmet Hn Hne Hitems) as (Hlines & (before & last & Hlast & Hlne) & Htight & Hfirst).
  set (lines := text_lines (part_of_lines n unmet)) in *.
  assert (lines <> []) as Hlines_ne by (rewrite Hlast; by destruct before).
  destruct (prose_plain lines Hlines_ne (fun l Hl => proj2 (Hlines l Hl))) as (Hsplit & Hfree & Hplain).
  assert (PyStr.strip_list (join_nl lines) = join_nl lines) as Hstrip.
  { rewrite <- (app_nil_r (join_nl lines)) at 1. by apply strip_tail. }
  assert (PyStr.strip_list (PyStr.to_list text) = PyStr.to_list text) as Hx by (rewrite <- Htext at 2; unfold PyStr.strip; by rewrite PyStr.to_of_list).
  assert (good_heading (PyStr.to_list ISSUE_SECTION_HEADING)) as Hh.
  { split; [apply (bool_decide_unpack _); vm_compute; exact I|]. split; [by eexists _, _|]. by exists "e"%char, (PyStr.to_list "Issu"). }
  destruct (upsert_placed (PyStr.to_list text) (PyStr.to_list ISSUE_SECTION_HEADING) (join_nl lines) Hh Hx) as (s & Hplaced & Hsec);
    [by rewrite Hstrip|exact Happ|].
  assert (fence_free s) as Hsf.
  { destruct Hsec as [->|[_ ->]]; [|by intros l ->%list_elem_of_singleton]. rewrite Hstrip. unfold section_lines.
    change (nl :: join_nl lines ++ [nl])%list with ([] ++ nl :: join_nl lines ++ nl :: [])%list. rewrite !split_nl_sep, Hsplit.
    intros l [->%list_elem_of_singleton|[Hl| ->%list_elem_of_singleton]%elem_of_app]%elem_of_app; [done|by apply Hfree|done]. }
  apply placed_masked, placed_extract in Hplaced; [|by apply good_is_heading|done].
  rewrite (section_of_strip _ _ Hsec), Hstrip, !PyStr.of_to_list in Hplaced.
  unfold parse_not_done_items, upsert_section. change "Issue" with ISSUE_SECTION_HEADING. rewrite Hblock, Hplaced.
  unfold PyStr.splitlines. rewrite PyStr.to_of_list.
  rewrite Hlast in Hlines |- *. rewrite lines_from_join, <- Hlast, Hfirst; [|intros l Hl; apply Hlines, elem_of_app; by left|apply Hlines, elem_of_app; right; by constructor|done].
  cbn. rewrite map_map. f_equal. apply map_ext. intros tv. apply PyStr.of_to_list.
Qed.

(** ** Examples and witnesses *)

Module Examples.

Definition an_issue : string :=
  Sections.lines_text ["Add it."; "## Acceptance Criteria"; "- [ ] The parser works"; "- [ ] Merging it closes #42 and closes #12"; "- [ ] `make check` passes"].

Definition an_answer : string :=
  Sections.lines_text ["Sure."; "## Summary"; "- x"; VERDICT_MARKER; "- [met] The parser works"; "- [unmet] Merging it"; "- [unmet] check"].

Definition a_commit : CommitConfig := {| ci_gated_patterns := ["`make check`"]; owner_only_patterns := ["(owner"] |}.

Definition the_verdicts := (process_llm_result an_answer (extract_acceptance_criteria an_issue) a_commit).2.

(** A criterion that names a closing reference is quoted as it is: the body that is to
    leave issue 42 open closes it, and another one with it. *)
Example criterion_closes :
  render_closing_block "42" the_verdicts <> "Closes #42" /\
  closes (parse_issue_links (compose_body (Sections.lines_text ["## Summary"; "- x"]) "42" the_verdicts false "")) = ["42"; "12"].
Proof. split; [|vm_compute; reflexivity]. by vm_compute. Qed.

Lemma not_done_read_back_witness :
  parse_not_done_items (upsert_section (Sections.lines_text ["## Summary"; "- x"]) ISSUE_SECTION_HEADING (render_closing_block "42" the_verdicts))
  = Some ["Merging it closes #42 and closes #12"].
Proof.
  pose proof (not_done_read_back "42" (Sections.lines_text ["## Summary"; "- x"]) an_answer an_issue a_commit) as H.
  cbv zeta in H. unfold the_verdicts. rewrite H.
  - by vm_compute.
  - unfold line_text; apply Forall_forall, (bool_decide_unpack _). vm_compute. exact I.
  - reflexivity.
  - intros _. reflexivity.
  - by vm_compute.
Defined.

End Examples.
