(* ===== verification/Recovery.v ===== *)
(** * Recovery: runs that lost their process

    dashboard/services/agent_recovery.py, up to the banner of interrupted runs: which
    processes the dashboard may signal, the three phases of the recovery of stale runs, and
    the rollback of an issue's state. The process table, GitHub, the handoff files, the
    tracker and what other writers do to the table of runs in between are arguments. *)

From stdpp Require Import base gmap strings list.
From Stdlib Require Import Ascii.
From S2P Require Import Prelude Tracker State MergeQueue.

Local Open Scope string_scope.

(** ** Processes *)

(** What [os.kill(pid, 0)] does: nothing, [PermissionError], or another [OSError]. *)
Inductive Probe := Delivered | NotPermitted | NotFound.

(** What psutil says of a process; a field is [None] when reading it raises. *)
Record Proc := {
  create_time : option Z;
  environ : option (option string);   (* the marker in its environment, if it is set *)
  ppid : option Z;
  cmdline : option (list string);
}.

(** The process table as one sweep sees it; times are seconds. *)
Record Host := { getpid : Z; kill_0 : Z -> Probe; process : Z -> option Proc }.

(** [is_process_alive] *)
Definition is_process_alive (h : Host) (pid : Z) : bool :=
  if Z.leb pid 0 then false
  else match kill_0 h pid with Delivered | NotPermitted => true | NotFound => false end.

Definition RECYCLED_AFTER : Z := 300.

(** [_is_zombie_process] *)
Definition is_zombie_process (h : Host) (pid : Z) (started_at : option Z) : bool :=
  match process h pid ≫= create_time with
  | None => is_process_alive h pid
  | Some created =>
      match started_at with
      | Some started => negb (Z.ltb (started + RECYCLED_AFTER) created)
      | None => true
      end
  end.

(** [os.path.basename] *)
Definition basename (path : string) : string :=
  PyStr.of_list (rev (PyStr.take_while (fun c => negb (Ascii.eqb c "/")) (rev (PyStr.to_list path)))).

(** [_is_sova_cmdline] *)
Definition is_sova_cmdline (cmdline : list string) : bool :=
  existsb (fun token => String.eqb (basename token) "sova") (take 2 cmdline)
  || existsb (fun fm => String.eqb fm.1 "-m" && (String.eqb fm.2 "sova" || PyStr.startswith fm.2 "sova."))
       (zip cmdline (drop 1 cmdline)).

(** [_is_orphaned_process] *)
Definition is_orphaned_process (h : Host) (pid : Z) : bool :=
  if Z.eqb pid (getpid h) then false
  else match process h pid with
       | None => false
       | Some proc =>
           match environ proc with
           | Some (Some marker) =>
               if negb (String.eqb marker "1") then false
               else match ppid proc with
                    | None => false
                    | Some parent =>
                        if Z.leb parent 1 || Z.eqb parent (getpid h) then true
                        else match process h parent ≫= cmdline with
                             | None => false
                             | Some cmdline => negb (is_sova_cmdline cmdline)
                             end
                    end
           | _ => false
           end
       end.

(** [_get_managed_run_ids]: the agents of every project's pool, [None] when there is no pool. *)
Definition get_managed_run_ids (projects : option (list (list Z))) : list Z * bool :=
  match projects with
  | Some agents => (concat agents, true)
  | None => ([], false)
  end.

Inductive Signal := SIGTERM | SIGKILL.

(** What the recovery does outside the database. *)
Inductive Effect :=
  | Send (signal : Signal) (pid : Z)
  | RemoveLabel (issue label : string)
  | Transition (issue : string) (state : TaskState.t).

(** [_kill_process]; [terminated] tells whether the first signal was delivered, [later] is
    the process table two seconds after it. *)
Definition kill_process (terminated : Z -> bool) (later : Host) (pid : Z) : list Effect :=
  Send SIGTERM pid :: (if terminated pid && is_process_alive later pid then [Send SIGKILL pid] else []).

(** ** Runs *)

(** The columns of a [TaskRun] row that the recovery and the resumption of runs read or write. *)
Record TaskRun := {
  id : Z;
  issue_number : option string;
  role : string;
  status : string;
  pr_number : option Z;
  pid : option Z;
  total_cost_usd : Z;
  error_message : option string;
  started_at : option Z;
  ended_at : option Z;
  termination_reason : option string;
  resumed_from_id : option Z;
}.

#[export] Instance TaskRun_eq_dec : EqDecision TaskRun.
Proof. solve_decision. Defined.

Definition is_terminal (run : TaskRun) : bool := bool_decide (status run ∈ TaskStatus.TASK_RUN_TERMINAL).

(** The row with its new status, end, error and cost. *)
Definition ended (status' : string) (now : Z) (error : option string) (cost : option Z) (run : TaskRun) : TaskRun :=
  {| id := id run; issue_number := issue_number run; role := role run; status := status'; pr_number := pr_number run;
     pid := pid run; total_cost_usd := default (total_cost_usd run) cost; error_message := error;
     started_at := started_at run; ended_at := Some now; termination_reason := termination_reason run;
     resumed_from_id := resumed_from_id run |}.

(** [func.coalesce(TaskRun.ended_at, TaskRun.started_at) >= cutoff] *)
Definition since (cutoff : Z) (run : TaskRun) : bool :=
  match ended_at run with
  | Some t => Z.leb cutoff t
  | None => match started_at run with Some t => Z.leb cutoff t | None => false end
  end.

Definition ZOMBIE_RECENCY : Z := 24 * 3600.

(** The processes that [_kill_terminal_zombies] kills. *)
Definition terminal_zombies (now : Z) (projects : option (list (list Z))) (h : Host) (db : list TaskRun) : list Z :=
  omap (fun run =>
    match pid run with
    | Some p =>
        if is_terminal run && since (now - ZOMBIE_RECENCY) run && negb (Z.eqb p 0)
           && negb (bool_decide (id run ∈ (get_managed_run_ids projects).1)) && is_zombie_process h p (started_at run)
        then Some p else None
    | None => None
    end) db.

(** [_kill_terminal_zombies] *)
Definition kill_terminal_zombies (now : Z) (projects : option (list (list Z))) (h later : Host) (terminated : Z -> bool)
    (db : list TaskRun) : list Effect * nat :=
  let pids := terminal_zombies now projects h db in
  (flat_map (kill_process terminated later) pids, length pids).

(** ** Stale runs *)

(** The fields of a handoff file: an instant is absent, or its text cannot be read; reading
    the cost raises when the details are of another shape. *)
Record Handoff := { hf_status : option string; hf_created_at : option (outcome Z); hf_cost : outcome (option Z) }.

(** The check of the handoff: [Some] for a run that finished, with its cost. *)
Definition handoff_check (get_handoff : string -> outcome (option Handoff)) (run : TaskRun) : option (option Z) :=
  match issue_number run with
  | Some ((String _ _) as issue) =>
      match get_handoff issue with
      | Ret (Some hf) =>
          if bool_decide (hf_status hf = Some "awaiting_action") then
            match hf_created_at hf with
            | Some (Ret created) =>
                if match started_at run with Some started => Z.leb started created | None => true end
                then Some (match hf_cost hf with Ret cost => cost | Raise _ => None end)
                else None
            | _ => None
            end
          else None
      | _ => None
      end
  | _ => None
  end.

(** [_MERGE_ROLES] *)
Definition MERGE_ROLES : list string := ["integrate-pr"].

(** [(run.role or "").removeprefix("command:").removeprefix("/").split()] *)
Definition role_parts (role : string) : list string :=
  PyStr.split (PyStr.removeprefix (PyStr.removeprefix role "command:") "/").

Definition merge_role (run : TaskRun) : bool :=
  bool_decide (is_Some (pr_number run))
  && match role_parts (role run) with part :: _ => bool_decide (part ∈ MERGE_ROLES) | [] => false end.

(** What the first phase says of a run. *)
Inductive Judged := StillAlive | Orphan | Gone.

Definition judge (h : Host) (projects : option (list (list Z))) (run : TaskRun) : Judged :=
  let '(managed, loaded) := get_managed_run_ids projects in
  match pid run with
  | Some p =>
      if negb (Z.eqb p 0) && is_zombie_process h p (started_at run) then
        if bool_decide (id run ∈ managed) then StillAlive
        else if negb loaded then StillAlive
        else if negb (is_orphaned_process h p) then StillAlive
        else Orphan
      else Gone
  | None => Gone
  end.

(** A record of [dead_runs]. *)
Record Dead := {
  run_of : TaskRun;
  final_status : string;
  cost_override : option Z;
  error_msg : option string;
  needs_merge_check : bool;
  needs_queue_entry : bool;
}.

Definition dead_run (get_handoff : string -> outcome (option Handoff)) (run : TaskRun) : Dead :=
  match handoff_check get_handoff run with
  | Some cost => {| run_of := run; final_status := "done"; cost_override := cost; error_msg := None;
                    needs_merge_check := false; needs_queue_entry := false |}
  | None => {| run_of := run; final_status := "interrupted"; cost_override := None; error_msg := None;
               needs_merge_check := merge_role run; needs_queue_entry := false |}
  end.

(** *** The merge checks *)

(** What the checks of one pull request are told. *)
Record MergeAnswers := {
  pr_config : outcome string;          (* the repository of the configuration *)
  pr_view : outcome string;            (* the state of the pull request *)
  view_in_time : bool;
  queue_view : outcome (option PrData); (* the queue; [TimeoutError] when it takes too long *)
}.

(** [_check_pr_merged_on_failure] *)
Definition check_pr_merged_on_failure (pr_number : option Z) (a : MergeAnswers) : outcome bool :=
  match pr_number with
  | None => Ret false
  | Some _ =>
      match pr_config a with
      | Ret repo =>
          if String.eqb repo "" then Ret false
          else match pr_view a with
               | Ret state => Ret (String.eqb state "MERGED")
               | Raise e => if caught e then Ret false else Raise e
               end
      | Raise e => if caught e then Ret false else Raise e
      end
  end.

(** [get_merge_queue_status] of a repository: its name is taken apart at the slash first. *)
Definition queue_status_of (repo : string) (answer : outcome (option PrData)) : outcome MergeQueueStatus :=
  if PyStr.contains repo "/" then
    match answer with Ret a => Ret (get_merge_queue_status a) | Raise e => Raise e end
  else Raise (ValueError "not enough values to unpack (expected 2, got 1)").

Inductive Checked := CMerged | CInQueue | CUnknown.

(** [_get_recovery_config]: empty when the configuration cannot be loaded. *)
Definition get_recovery_config (config : outcome string) : string :=
  match config with Ret repo => repo | Raise _ => "" end.

(** [_check_one] *)
Definition check_one (a : MergeAnswers) (pr_number : option Z) : outcome Checked :=
  match (if view_in_time a then check_pr_merged_on_failure pr_number a else Raise TimeoutError) with
  | Ret true => Ret CMerged
  | Raise e => if caught e then Ret CUnknown else Raise e
  | Ret false =>
      match queue_status_of (get_recovery_config (pr_config a)) (queue_view a) with
      | Ret s => Ret (if in_queue s then CInQueue else if is_merged s then CMerged else CUnknown)
      | Raise e => if caught e then Ret CUnknown else Raise e
      end
  end.

Definition pr_text (run : TaskRun) : string := "PR #" ++ pretty.pretty (default 0%Z (pr_number run)).

(** What a result changes in a record. *)
Definition settle (rec : Dead) (result : Checked) : Dead :=
  match result with
  | CMerged => {| run_of := run_of rec; final_status := "done"; cost_override := cost_override rec;
                  error_msg := Some ("Agent process died but " ++ pr_text (run_of rec) ++ " was merged successfully");
                  needs_merge_check := needs_merge_check rec; needs_queue_entry := needs_queue_entry rec |}
  | CInQueue => {| run_of := run_of rec; final_status := "done"; cost_override := cost_override rec;
                   error_msg := Some (pr_text (run_of rec) ++ " is in merge queue, tracked for post-merge cleanup");
                   needs_merge_check := needs_merge_check rec; needs_queue_entry := true |}
  | CUnknown => rec
  end.

(** The gathered checks: the first exception that no check catches ends them. *)
Fixpoint check_merges (merges : Z -> MergeAnswers) (dead : list Dead) : outcome (list Dead) :=
  match dead with
  | [] => Ret []
  | rec :: dead =>
      if needs_merge_check rec then
        match check_one (merges (id (run_of rec))) (pr_number (run_of rec)) with
        | Raise e => Raise e
        | Ret result =>
            match check_merges merges dead with
            | Ret dead => Ret (settle rec result :: dead)
            | Raise e => Raise e
            end
        end
      else match check_merges merges dead with
           | Ret dead => Ret (rec :: dead)
           | Raise e => Raise e
           end
  end.

(** *** Rolling an issue back *)

(** What the rollback of one run is told; [table] is the table of runs as it reads it. *)
Record RollbackAnswers := {
  rb_read : outcome unit;               (* the database *)
  rb_adapter : outcome unit;            (* the configuration and the adapter *)
  rb_labels : outcome (list string);    (* the labels of the issue *)
  rb_removal : string -> outcome unit;
}.

(** The rollback states of the roles. *)
Definition rollback_state_map (role : string) : option TaskState.t :=
  if String.eqb role "researcher" then Some TaskState.TRIAGED
  else if bool_decide (role ∈ ["reviewer"; "integrate-pr"; "address-pr"]) then Some TaskState.IN_REVIEW
  else None.

Definition target_state (role : string) (pr_number : option Z) : option TaskState.t :=
  if String.eqb role "developer" then
    Some (match pr_number with Some n => if Z.eqb n 0 then TaskState.RESEARCHED else TaskState.IN_REVIEW
                             | None => TaskState.RESEARCHED end)
  else rollback_state_map role.

(** Another run of the issue that is not finished. *)
Definition concurrent_run (issue : string) (run_id : Z) (table : list TaskRun) : bool :=
  existsb (fun r => bool_decide (issue_number r = Some issue) && negb (Z.eqb (id r) run_id) && negb (is_terminal r)) table.

Definition agent_labels (labels : list string) : list string :=
  List.filter (fun label => PyStr.startswith label "agent:" && negb (Labels.is_on_hold [label])) labels.

(** The labels are removed one after the other, until a removal raises. *)
Fixpoint remove_all (removal : string -> outcome unit) (issue : string) (labels : list string) : list Effect :=
  match labels with
  | [] => []
  | label :: labels =>
      RemoveLabel issue label :: match removal label with Ret _ => remove_all removal issue labels | Raise _ => [] end
  end.

(** [session.get(TaskRun, run_id)] *)
Definition get_run (run_id : Z) (table : list TaskRun) : option TaskRun := List.find (fun r => Z.eqb (id r) run_id) table.

(** [rollback_issue_state]; every exception ends it. *)
Definition rollback_issue_state (a : RollbackAnswers) (table : list TaskRun) (run_id : Z) : list Effect :=
  match rb_read a with
  | Raise _ => []
  | Ret _ =>
      match get_run run_id table with
      | None => []
      | Some run =>
          match issue_number run with
          | Some ((String _ _) as issue) =>
              if concurrent_run issue run_id table then []
              else match rb_adapter a with
                   | Raise _ => []
                   | Ret _ =>
                       match role_parts (role run) with
                       | [] => []
                       | role_clean :: _ =>
                           if String.eqb role_clean "triage" then
                             match rb_labels a with
                             | Raise _ => []
                             | Ret labels => remove_all (rb_removal a) issue (agent_labels labels)
                             end
                           else match target_state role_clean (pr_number run) with
                                | None => []
                                | Some target => [Transition issue target]
                                end
                       end
                   end
          | _ => []
          end
      end
  end.

(** *** The three phases *)

(** What a sweep is told. *)
Record Answers := {
  now : Z;
  host : Host;
  later : Host;                              (* two seconds after a signal *)
  terminated : Z -> bool;
  projects : option (list (list Z));
  first_read : outcome unit;
  handoffs : string -> outcome (option Handoff);
  merges : Z -> MergeAnswers;                (* by run *)
  checks_in_time : bool;
  meanwhile : list TaskRun -> list TaskRun;  (* what others did to the table before the third phase *)
  write : outcome unit;
  repo : string;
  project_dir : string;
  branches : Z -> option string;             (* the head of the pull request, if GitHub answers *)
  entry_created : Z -> bool;                 (* the database takes the entry *)
  fresh : list Entry -> Z;
  at_rollback : Z -> list TaskRun -> list TaskRun;
  rollbacks : Z -> RollbackAnswers;
}.

(** An element of the result. *)
Record Interrupted := { int_run_id : Z; int_issue : option string; int_role : string; int_pid : option Z }.

Definition interrupted_of (run : TaskRun) : Interrupted :=
  {| int_run_id := id run; int_issue := issue_number run; int_role := role run; int_pid := pid run |}.

Definition stale_message (was_status : string) : string :=
  "Stale run recovered on startup (was '" ++ was_status ++ "')".

(** The row that the third phase writes. *)
Definition recovered_row (now : Z) (rec : Dead) (run : TaskRun) : TaskRun :=
  if String.eqb (final_status rec) "interrupted"
  then ended "interrupted" now (Some (stale_message (status (run_of rec)))) None run
  else ended (final_status rec) now (error_msg rec) (cost_override rec) run.

Definition write_row (row : TaskRun) (table : list TaskRun) : list TaskRun :=
  map (fun r => if Z.eqb (id r) (id row) then row else r) table.

(** The third phase: the rows are looked up once, before the first is written. *)
Fixpoint write_all (now : Z) (read table : list TaskRun) (dead : list Dead) : list TaskRun * list Interrupted :=
  match dead with
  | [] => (table, [])
  | rec :: dead =>
      match get_run (id (run_of rec)) read with
      | None => write_all now read table dead
      | Some run =>
          if is_terminal run then write_all now read table dead
          else
            let '(table', interrupted) := write_all now read (write_row (recovered_row now rec run) table) dead in
            (table', if String.eqb (final_status rec) "interrupted" then interrupted_of run :: interrupted else interrupted)
      end
  end.

(** [_get_pr_branch_for_recovery] *)
Definition pr_branch (repo : string) (answer : option string) : string :=
  if String.eqb repo "" then "" else PyStr.strip (default "" answer).

(** The queue entries of the fourth phase. *)
Fixpoint queue_all (a : Answers) (dead : list Dead) (entries : list Entry) : list Entry :=
  match dead with
  | [] => entries
  | rec :: dead =>
      let run := run_of rec in
      let entries' :=
        if needs_queue_entry rec && entry_created a (id run)
        then (create_merge_queue_entry (fresh a entries) (default 0%Z (pr_number run)) (repo a) (project_dir a)
                (pr_branch (repo a) (branches a (id run))) (issue_number run) (now a) entries).2
        else entries in
      queue_all a dead entries'
  end.

(** What a sweep leaves: its effects, the table of runs, the entries of the queue, and its
    result. *)
Record Swept := { effects : list Effect; table : list TaskRun; queue : list Entry; result : outcome (list Interrupted) }.

(** The exceptions of the sweep that it turns into an empty result. *)
Definition swallow (e : exn) : outcome (list Interrupted) :=
  match e with OSError _ | TimeoutError | RuntimeError _ | SQLAlchemyError _ => Ret [] | _ => Raise e end.

(** The dead runs of the first phase, and the orphans to kill. *)
Definition stale (db : list TaskRun) : list TaskRun := List.filter (fun r => negb (is_terminal r)) db.

Definition dead_runs (a : Answers) (db : list TaskRun) : list Dead :=
  omap (fun run => match judge (host a) (projects a) run with
                   | StillAlive => None
                   | Orphan | Gone => Some (dead_run (handoffs a) run)
                   end) (stale db).

Definition orphans (a : Answers) (db : list TaskRun) : list Z :=
  omap (fun run => match judge (host a) (projects a) run with Orphan => pid run | _ => None end) (stale db).

(** [recover_stale_runs] *)
Definition recover_stale_runs (a : Answers) (db : list TaskRun) (entries : list Entry) : Swept :=
  match first_read a with
  | Raise e => {| effects := []; table := meanwhile a db; queue := entries; result := swallow e |}
  | Ret _ =>
      let kills := flat_map (kill_process (terminated a) (later a)) (orphans a db) in
      let stop r := {| effects := kills; table := meanwhile a db; queue := entries; result := r |} in
      match dead_runs a db with
      | [] => stop (Ret [])
      | (_ :: _) as dead =>
          match (if checks_in_time a then check_merges (merges a) dead else Ret dead) with
          | Raise e => stop (swallow e)
          | Ret dead =>
              match write a with
              | Raise e => stop (swallow e)
              | Ret _ =>
                  let '(written, interrupted) := write_all (now a) (meanwhile a db) (meanwhile a db) dead in
                  {| effects := (kills ++ flat_map (fun i => rollback_issue_state (rollbacks a (int_run_id i))
                                                                (at_rollback a (int_run_id i) written) (int_run_id i)) interrupted)%list;
                     table := written;
                     queue := queue_all a dead entries;
                     result := Ret interrupted |}
              end
          end
      end
  end.

(** ** The banner of interrupted runs *)

Definition INTERRUPTED_RUN_WINDOW : Z := 24 * 3600.

(** [dismiss_interrupted_runs]: how many rows it changed, [-1] for a failure of the database. *)
Definition dismissed (run_ids : list Z) (run : TaskRun) : bool :=
  String.eqb (status run) "interrupted" && bool_decide (id run ∈ run_ids).

Definition dismiss_row (preserve_diagnostic : bool) (run : TaskRun) : TaskRun :=
  {| id := id run; issue_number := issue_number run; role := role run; status := "failed"; pr_number := pr_number run;
     pid := pid run; total_cost_usd := total_cost_usd run;
     error_message := if preserve_diagnostic then error_message run else Some "Dismissed by user";
     started_at := started_at run; ended_at := ended_at run; termination_reason := termination_reason run;
     resumed_from_id := resumed_from_id run |}.

Definition dismiss_interrupted_runs (works : bool) (preserve_diagnostic : bool) (run_ids : list Z) (db : list TaskRun)
    : Z * list TaskRun :=
  match run_ids with
  | [] => (0%Z, db)
  | _ =>
      if works then
        (Z.of_nat (length (List.filter (dismissed run_ids) db)),
         map (fun r => if dismissed run_ids r then dismiss_row preserve_diagnostic r else r) db)
      else ((-1)%Z, db)
  end.

(** ** Lemmas *)

(** An agent of this dashboard that lost its launcher. *)
Definition lost (h : Host) (p : Z) : Prop :=
  p <> getpid h /\
  exists proc parent, process h p = Some proc /\ environ proc = Some (Some "1") /\ ppid proc = Some parent /\
    ((parent <= 1)%Z \/ parent = getpid h \/
     exists pp line, process h parent = Some pp /\ cmdline pp = Some line /\ is_sova_cmdline line = false).

Lemma orphaned_iff h p : is_orphaned_process h p = true <-> lost h p.
Proof.
  unfold is_orphaned_process, lost. destruct (Z.eqb_spec p (getpid h)); [naive_solver|].
  destruct (process h p) as [proc|]; [|naive_solver].
  destruct (environ proc) as [[m|]|] eqn:Em; [|naive_solver..].
  destruct (String.eqb_spec m "1") as [->|]; cbn [negb]; [|naive_solver].
  destruct (ppid proc) as [parent|] eqn:Ep; [|naive_solver].
  destruct (Z.leb_spec parent 1); cbn [orb]; [split; [intros _; split; [done|]; exists proc, parent; naive_solver|done]|].
  destruct (Z.eqb_spec parent (getpid h)); [split; [intros _; split; [done|]; exists proc, parent; naive_solver|done]|].
  destruct (process h parent) as [pp|] eqn:Epp; cbn [mbind option_bind]; [|split; [done|naive_solver lia]].
  destruct (cmdline pp) as [line|] eqn:El; [|split; [done|naive_solver lia]].
  split.
  2: { intros (_ & proc' & parent' & E & _ & Ep' & Hc). assert (proc' = proc) as -> by congruence.
       assert (parent' = parent) as -> by congruence. destruct Hc as [?|[?|(? & ? & E1 & E2 & E3)]]; [lia|done|].
       simplify_eq. by rewrite E3. }
  intros E%negb_true_iff. split; [done|]. exists proc, parent. do 3 (split; [done|]). right. right. eauto.
Qed.

(** A run that is in no pool of a dashboard whose pools are known. *)
Definition unmanaged (projects : option (list (list Z))) (run : TaskRun) : Prop :=
  exists pools, projects = Some pools /\ id run ∉ concat pools.

(** The process of the run lives, as far as it can be told. *)
Definition lives (h : Host) (run : TaskRun) (p : Z) : Prop :=
  pid run = Some p /\ p <> 0%Z /\ is_zombie_process h p (started_at run) = true.

(** A run without a process of its own, or whose process is an orphan. *)
Definition abandoned (a : Answers) (run : TaskRun) : Prop :=
  (forall p, ~ lives (host a) run p) \/
  exists p, lives (host a) run p /\ unmanaged (projects a) run /\ lost (host a) p.

Lemma judge_spec h ps run :
  match judge h ps run with
  | Gone => forall p, ~ lives h run p
  | Orphan => exists p, lives h run p /\ unmanaged ps run /\ lost h p
  | StillAlive => exists p, lives h run p /\ ~ (unmanaged ps run /\ lost h p)
  end.
Proof.
  unfold judge, lives, get_managed_run_ids.
  destruct ps as [pools|]; destruct (pid run) as [p|]; try by intros q (? & _).
  all: destruct (Z.eqb_spec p 0); cbn [negb andb]; [by intros q ([= <-] & ? & _)|].
  all: destruct (is_zombie_process h p (started_at run)) eqn:Ez; [|intros q ([= <-] & _ & E); congruence].
  - case_bool_decide as Em; [|destruct (is_orphaned_process h p) eqn:Eo; cbn [negb]].
    + exists p. split; [done|]. intros ((pools' & [= <-] & Hn) & _). done.
    + exists p. split; [done|]. split; [by exists pools|by apply orphaned_iff].
    + exists p. split; [done|]. intros (_ & E%orphaned_iff). congruence.
  - rewrite bool_decide_eq_false_2 by apply not_elem_of_nil. exists p. split; [done|]. by intros ((? & ? & _) & _).
Qed.

Lemma abandoned_judge a run : abandoned a run <-> judge (host a) (projects a) run <> StillAlive.
Proof.
  pose proof (judge_spec (host a) (projects a) run) as H. unfold abandoned.
  destruct (judge (host a) (projects a) run); [|naive_solver..]. split; [|done].
  destruct H as (p & Hp & Hn). intros [H|(q & Hq & Hu & Hl)]; [by destruct (H p)|].
  destruct Hp as (E & _), Hq as (E' & _). assert (p = q) as -> by congruence. by destruct Hn.
Qed.

(** The agent of the run left a handoff after the run had started. *)
Definition handed_over (a : Answers) (run : TaskRun) : Prop :=
  exists issue hf created, issue_number run = Some issue /\ issue <> "" /\ handoffs a issue = Ret (Some hf) /\
    hf_status hf = Some "awaiting_action" /\ hf_created_at hf = Some (Ret created) /\
    forall started, started_at run = Some started -> (started <= created)%Z.

Lemma handoff_check_iff a run : is_Some (handoff_check (handoffs a) run) <-> handed_over a run.
Proof.
  unfold handoff_check, handed_over.
  destruct (issue_number run) as [[|c issue]|].
  1,3: split; [by intros []|intros (? & ? & ? & E & ? & _); congruence].
  destruct (handoffs a (String c issue)) as [[hf|]|] eqn:Eh.
  2,3: split; [by intros []|intros (? & ? & ? & [= <-] & _ & E & _); congruence].
  case_bool_decide as Es; [|split; [by intros []|intros (? & ? & ? & [= <-] & _ & E & Es' & _); congruence]].
  destruct (hf_created_at hf) as [[created|]|] eqn:Ec.
  2,3: split; [by intros []|intros (? & ? & ? & [= <-] & _ & E & _ & Ec' & _); congruence].
  assert (Hl : (match started_at run with Some started => Z.leb started created | None => true end = true) <->
               forall started, started_at run = Some started -> (started <= created)%Z).
  { destruct (started_at run) as [started|]; [|done]. rewrite Z.leb_le. split; [by intros ? ? [= <-]|auto]. }
  destruct (match started_at run with Some started => _ | None => _ end).
  - split; [intros _|by eexists]. exists (String c issue), hf, created. repeat split; try done. by apply Hl.
  - split; [by intros []|]. intros (x0 & hf' & x1 & [= <-] & _ & E & _ & Ec' & Hl'). assert (x1 = created) as -> by congruence. by apply Hl in Hl'.
Qed.

(** The checks say that the pull request of a merge run is merged, or in the queue. *)
Definition merge_seen (a : Answers) (run : TaskRun) : Prop :=
  merge_role run = true /\ checks_in_time a = true /\
  (check_one (merges a (id run)) (pr_number run) = Ret CMerged \/ check_one (merges a (id run)) (pr_number run) = Ret CInQueue).

(** What the row of an abandoned run becomes. *)
Definition recovered (a : Answers) (s r r' : TaskRun) : Prop :=
  handed_over a s /\ (exists cost, r' = ended "done" (now a) None cost r) \/
  ~ handed_over a s /\ merge_seen a s /\ (exists text, r' = ended "done" (now a) (Some text) None r) \/
  ~ handed_over a s /\ ~ merge_seen a s /\ r' = ended "interrupted" (now a) (Some (stale_message (status s))) None r.

Lemma check_merges_spec merges dead dead' :
  check_merges merges dead = Ret dead' ->
  Forall2 (fun rec rec' => needs_merge_check rec = false /\ rec' = rec \/
                           needs_merge_check rec = true /\
                           exists c, check_one (merges (id (run_of rec))) (pr_number (run_of rec)) = Ret c /\ rec' = settle rec c) dead dead'.
Proof.
  revert dead'. induction dead as [|rec dead IH]; intros dead'; cbn [check_merges]; [intros [= <-]; constructor|].
  destruct (needs_merge_check rec) eqn:En.
  - destruct (check_one _ _) as [c|] eqn:Ec; [|done]. destruct (check_merges merges dead) as [l|]; [|done]. intros [= <-].
    constructor; [right; eauto|by apply IH].
  - destruct (check_merges merges dead) as [l|]; [|done]. intros [= <-]. constructor; [by left|by apply IH].
Qed.

(** The records after the second phase. *)
Definition checked (a : Answers) (db : list TaskRun) : outcome (list Dead) :=
  if checks_in_time a then check_merges (merges a) (dead_runs a db) else Ret (dead_runs a db).

Definition settled (a : Answers) (rec' : Dead) : Prop :=
  forall r, recovered a (run_of rec') r (recovered_row (now a) rec' r) /\
    (final_status rec' = "interrupted" <-> ~ handed_over a (run_of rec') /\ ~ merge_seen a (run_of rec')).

Lemma dead_run_settled a run c :
  (needs_merge_check (dead_run (handoffs a) run) && checks_in_time a = true /\ check_one (merges a (id run)) (pr_number run) = Ret c \/
   needs_merge_check (dead_run (handoffs a) run) && checks_in_time a = false /\ c = CUnknown) ->
  settled a (settle (dead_run (handoffs a) run) c) /\ run_of (settle (dead_run (handoffs a) run) c) = run.
Proof.
  intros Hc. assert (Er : run_of (settle (dead_run (handoffs a) run) c) = run) by (unfold dead_run; destruct (handoff_check _ _), c; done).
  split; [|done]. unfold settled. rewrite Er. intros r. unfold recovered.
  pose proof (handoff_check_iff a run) as Hh. unfold dead_run in *.
  destruct (handoff_check (handoffs a) run) as [cost|].
  - assert (H : handed_over a run) by (apply Hh; eauto). cbn in Hc. destruct Hc as [[? _]|[_ ->]]; [done|]. cbn.
    split; [left; split; [done|by exists cost]|]. split; [done|by intros []].
  - assert (Hn : ~ handed_over a run) by (rewrite <- Hh; by intros []). cbn [needs_merge_check] in Hc.
    destruct Hc as [[Hm Hc]|[Hm ->]].
    + apply andb_true_iff in Hm as [Hr Ht]. destruct c; cbn.
      1,2: assert (merge_seen a run) by (unfold merge_seen; auto);
           split; [right; left; split; [done|]; split; [done|by eexists]|]; split; [done|by intros []].
      assert (~ merge_seen a run) by (intros (_ & _ & [E|E]); congruence). split; [by auto|by split].
    + assert (~ merge_seen a run) by (intros (E1 & E2 & _); by rewrite E1, E2 in Hm). cbn. split; [by auto|by split].
Qed.

(** Every abandoned run has its record, and a record is that of an abandoned run. *)
Definition is_stale (a : Answers) (db : list TaskRun) (s : TaskRun) : Prop :=
  s ∈ db /\ is_terminal s = false /\ abandoned a s.

Lemma elem_of_dead_runs a db rec :
  rec ∈ dead_runs a db <-> exists s, is_stale a db s /\ rec = dead_run (handoffs a) s.
Proof.
  unfold dead_runs, stale, is_stale. rewrite list_elem_of_omap. setoid_rewrite list_elem_of_In. setoid_rewrite filter_In.
  setoid_rewrite negb_true_iff. setoid_rewrite abandoned_judge. split.
  - intros (s & [Hs Ht] & E). exists s. by destruct (judge _ _ s); simplify_eq.
  - intros (s & (Hs & Ht & Hj) & ->). exists s. split; [done|]. by destruct (judge _ _ s).
Qed.

Lemma run_of_dead_run get_handoff s : run_of (dead_run get_handoff s) = s.
Proof. unfold dead_run. by destruct (handoff_check get_handoff s). Qed.

Lemma checked_spec a db dead :
  checked a db = Ret dead -> map run_of dead = map run_of (dead_runs a db) /\ Forall (settled a) dead.
Proof.
  unfold checked. intros H.
  assert (Hd : Forall (fun rec => exists s, rec = dead_run (handoffs a) s) (dead_runs a db)).
  { apply Forall_forall. intros rec (s & _ & ->)%elem_of_dead_runs. by exists s. }
  destruct (checks_in_time a) eqn:Ec.
  - apply check_merges_spec in H. revert Hd H. generalize (dead_runs a db). intros l0 Hd H. induction H as [|rec rec' l l' Hr _ IH]; [done|].
    apply Forall_cons in Hd as [(s & ->) Hd]. destruct (IH Hd) as [E2 IH2]. rewrite run_of_dead_run in Hr. cbn [map]. rewrite E2.
    assert (E : exists c, rec' = settle (dead_run (handoffs a) s) c /\
      (needs_merge_check (dead_run (handoffs a) s) && checks_in_time a = true /\ check_one (merges a (id s)) (pr_number s) = Ret c \/
       needs_merge_check (dead_run (handoffs a) s) && checks_in_time a = false /\ c = CUnknown)).
    { rewrite Ec. destruct Hr as [[En ->]|[En (c & E & ->)]]; rewrite En; [exists CUnknown|exists c]; auto. }
    destruct E as (c & -> & Hc). apply dead_run_settled in Hc as [Hs Hr']. rewrite Hr', run_of_dead_run. auto.
  - simplify_eq. split; [done|]. eapply Forall_impl; [exact Hd|]. intros rec (s & ->).
    apply (dead_run_settled a s CUnknown). right. by rewrite Ec, andb_false_r.
Qed.

Lemma run_of_dead_runs a db s : s ∈ map run_of (dead_runs a db) <-> is_stale a db s.
Proof.
  rewrite list_elem_of_fmap. setoid_rewrite elem_of_dead_runs. split.
  - intros (rec & -> & s' & Hs & ->). by rewrite run_of_dead_run.
  - intros Hs. exists (dead_run (handoffs a) s). rewrite run_of_dead_run. eauto.
Qed.

Lemma NoDup_dead_runs a db : NoDup (map id db) -> NoDup (map id (map run_of (dead_runs a db))).
Proof.
  intros Hnd.
  assert (E : map run_of (dead_runs a db) =
              List.filter (fun s => negb (is_terminal s) && match judge (host a) (projects a) s with StillAlive => false | _ => true end) db).
  { unfold dead_runs, stale. clear. induction db as [|s db IH]; [done|]. cbn [List.filter].
    destruct (is_terminal s); cbn [negb andb]; [done|]. cbn [omap list_omap].
    destruct (judge (host a) (projects a) s); cbn [map]; rewrite ?run_of_dead_run; by rewrite <- IH. }
  rewrite E. by apply NoDup_map_filter.
Qed.

(** *** The third phase *)

Lemma get_run_in run_id l run : get_run run_id l = Some run -> run ∈ l /\ id run = run_id.
Proof. unfold get_run. intros [H ?%Z.eqb_eq]%find_some. by apply list_elem_of_In in H. Qed.

Lemma get_run_unique l run : NoDup (map id l) -> run ∈ l -> get_run (id run) l = Some run.
Proof.
  unfold get_run. induction l as [|r l IH]; intros Hnd; [by intros ?%not_elem_of_nil|]. cbn [map List.find] in *.
  apply NoDup_cons in Hnd as [Hr Hnd]. intros [->|Hin]%elem_of_cons; [by rewrite Z.eqb_refl|].
  destruct (Z.eqb_spec (id r) (id run)) as [E|]; [|auto]. destruct Hr. rewrite E. by apply list_elem_of_fmap_2.
Qed.

(** The record of a row. *)
Definition record_of (dead : list Dead) (r : TaskRun) : option Dead := List.find (fun rec => Z.eqb (id (run_of rec)) (id r)) dead.

(** The row that a table holds after the third phase. *)
Definition new_row (now : Z) (read : list TaskRun) (dead : list Dead) (r : TaskRun) : TaskRun :=
  match record_of dead r with
  | Some rec => match get_run (id r) read with
                | Some run => if is_terminal run then r else recovered_row now rec run
                | None => r
                end
  | None => r
  end.

Lemma id_recovered_row now rec run : id (recovered_row now rec run) = id run.
Proof. unfold recovered_row. by destruct (String.eqb _ _). Qed.

Lemma record_of_none dead r : ~ id r ∈ map id (map run_of dead) -> record_of dead r = None.
Proof.
  unfold record_of. induction dead as [|rec dead IH]; [done|]. cbn [map List.find]. intros H.
  destruct (Z.eqb_spec (id (run_of rec)) (id r)) as [E|]; [destruct H; rewrite E; constructor|].
  apply IH. intros ?. apply H. by constructor.
Qed.

Lemma write_all_rows now read table dead :
  NoDup (map id (map run_of dead)) ->
  (write_all now read table dead).1 = map (new_row now read dead) table.
Proof.
  revert table. induction dead as [|rec dead IH]; intros table Hnd; cbn [write_all].
  { cbn. symmetry. apply map_id. }
  cbn [map] in Hnd. apply NoDup_cons in Hnd as [Hr Hnd].
  assert (Hsame : forall r, id r = id (run_of rec) -> new_row now read dead r = r).
  { intros r E. unfold new_row. rewrite record_of_none; [done|by rewrite E]. }
  assert (Hcons : forall r, new_row now read (rec :: dead) r =
      if Z.eqb (id (run_of rec)) (id r)
      then match get_run (id r) read with Some run => if is_terminal run then r else recovered_row now rec run | None => r end
      else new_row now read dead r).
  { intros r. unfold new_row, record_of. cbn [List.find]. by destruct (Z.eqb _ _). }
  destruct (get_run (id (run_of rec)) read) as [run|] eqn:Eg; [destruct (is_terminal run) eqn:Et|].
  - rewrite IH by done. apply map_ext. intros r. rewrite Hcons. destruct (Z.eqb_spec (id (run_of rec)) (id r)) as [E|]; [|done].
    rewrite <- E, Eg, Et. by apply Hsame.
  - specialize (IH (write_row (recovered_row now rec run) table) Hnd).
    destruct (write_all now read _ dead) as [table' ints]. cbn [fst] in *. rewrite IH. unfold write_row. rewrite map_map.
    apply map_ext. intros r. rewrite id_recovered_row. apply get_run_in in Eg as Hin. destruct Hin as [_ Hid].
    rewrite Hid, Hcons. rewrite (Z.eqb_sym (id r)). destruct (Z.eqb_spec (id (run_of rec)) (id r)) as [E|]; [|done].
    rewrite <- E, Eg, Et. apply Hsame. by rewrite id_recovered_row.
  - rewrite IH by done. apply map_ext. intros r. rewrite Hcons. destruct (Z.eqb_spec (id (run_of rec)) (id r)) as [E|]; [|done].
    rewrite <- E, Eg. by apply Hsame.
Qed.

Lemma write_all_interrupted now read table dead i :
  i ∈ (write_all now read table dead).2 <->
  exists rec run, rec ∈ dead /\ get_run (id (run_of rec)) read = Some run /\ is_terminal run = false /\
                  final_status rec = "interrupted" /\ i = interrupted_of run.
Proof.
  revert table. induction dead as [|rec dead IH]; intros table; cbn [write_all].
  { split; [by intros ?%not_elem_of_nil|]. by intros (? & ? & ?%not_elem_of_nil & _). }
  setoid_rewrite elem_of_cons.
  destruct (get_run (id (run_of rec)) read) as [run|] eqn:Eg; [destruct (is_terminal run) eqn:Et|].
  - rewrite IH. split; [intros (r & ? & ? & ?)|intros (r & ? & [->|?] & E & ? & ?)]; [eauto 10|congruence|eauto 10].
  - specialize (IH (write_row (recovered_row now rec run) table)).
    destruct (write_all now read _ dead) as [table' ints]. cbn [snd] in *.
    assert (E : i ∈ (if String.eqb (final_status rec) "interrupted" then interrupted_of run :: ints else ints) <->
                final_status rec = "interrupted" /\ i = interrupted_of run \/ i ∈ ints).
    { destruct (String.eqb_spec (final_status rec) "interrupted"); [rewrite elem_of_cons; intuition|intuition]. }
    rewrite E, IH. split.
    + intros [[? ->]|(r & ? & ? & ?)]; [exists rec, run; auto|eauto 10].
    + intros (r & run' & [->|?] & Eg' & ? & ? & ->); [left; split; [done|congruence]|right; eauto 10].
  - rewrite IH. split; [intros (r & ? & ? & ?)|intros (r & ? & [->|?] & E & ? & ?)]; [eauto 10|congruence|eauto 10].
Qed.

Lemma check_merges_total a dead :
  Forall (fun rec => needs_merge_check rec = true -> exists c, check_one (merges a (id (run_of rec))) (pr_number (run_of rec)) = Ret c) dead ->
  exists dead', check_merges (merges a) dead = Ret dead'.
Proof.
  induction 1 as [|rec dead Hr _ (dead' & IH)]; cbn [check_merges]; [by eexists|]. rewrite IH.
  destruct (needs_merge_check rec); [|by eexists]. destruct (Hr eq_refl) as (c & ->). by eexists.
Qed.

(** The checks that an abandoned run gets end without an exception of another kind. *)
Definition checks_answer (a : Answers) (db : list TaskRun) : Prop :=
  forall s e, is_stale a db s -> merge_role s = true -> check_one (merges a (id s)) (pr_number s) <> Raise e.

Lemma checked_total a db : checks_answer a db -> exists dead, checked a db = Ret dead.
Proof.
  intros H. unfold checked. destruct (checks_in_time a); [|by eexists]. apply check_merges_total, Forall_forall.
  intros rec (s & Hs & ->)%elem_of_dead_runs Hn. rewrite run_of_dead_run.
  destruct (check_one _ _) as [c|e] eqn:E; [by eexists|]. destruct (H s e Hs); [|done].
  unfold dead_run in Hn. by destruct (handoff_check _ _).
Qed.

Lemma recover_eq a db entries dead :
  first_read a = Ret tt -> write a = Ret tt -> checked a db = Ret dead ->
  let w := write_all (now a) (meanwhile a db) (meanwhile a db) dead in
  table (recover_stale_runs a db entries) = w.1 /\ result (recover_stale_runs a db entries) = Ret w.2 /\
  effects (recover_stale_runs a db entries) =
    (flat_map (kill_process (terminated a) (later a)) (orphans a db)
     ++ flat_map (fun i => rollback_issue_state (rollbacks a (int_run_id i)) (at_rollback a (int_run_id i) w.1) (int_run_id i)) w.2)%list.
Proof.
  intros Hf Hw Hc. unfold recover_stale_runs. rewrite Hf. unfold checked in Hc.
  destruct (dead_runs a db) as [|rec l] eqn:Ed.
  - assert (dead = []) as -> by (destruct (checks_in_time a); cbn in Hc; congruence). cbn. by rewrite app_nil_r.
  - rewrite Hc, Hw. destruct (write_all _ _ _ dead) as [t ints]. done.
Qed.

Lemma elem_of_orphans a db p :
  p ∈ orphans a db -> exists s, s ∈ db /\ is_terminal s = false /\ lives (host a) s p /\ unmanaged (projects a) s /\ lost (host a) p.
Proof.
  unfold orphans, stale. rewrite list_elem_of_omap. intros (s & Hs & E).
  apply list_elem_of_In, filter_In in Hs as [Hs Ht%negb_true_iff]. apply list_elem_of_In in Hs.
  pose proof (judge_spec (host a) (projects a) s) as H. destruct (judge _ _ s); [done| |done].
  destruct H as (q & Hq & Hu & Hl). assert (q = p) as -> by (destruct Hq as [? _]; congruence). eauto 10.
Qed.

Lemma kill_process_sends terminated later p e : e ∈ kill_process terminated later p -> exists sg, e = Send sg p.
Proof.
  unfold kill_process. intros [->|H]%elem_of_cons; [by eexists|]. destruct (_ && _); [|by apply not_elem_of_nil in H].
  apply list_elem_of_singleton in H as ->. by eexists.
Qed.

Lemma sends_of_kills terminated later l e :
  e ∈ flat_map (kill_process terminated later) l -> exists sg p, e = Send sg p /\ p ∈ l.
Proof.
  rewrite list_elem_of_In, in_flat_map. intros (p & Hp & He). apply list_elem_of_In in He, Hp.
  apply kill_process_sends in He as (sg & ->). eauto.
Qed.

Lemma remove_all_removes removal issue labels e :
  e ∈ remove_all removal issue labels -> exists l, l ∈ labels /\ e = RemoveLabel issue l.
Proof.
  induction labels as [|l labels IH]; cbn [remove_all]; [by intros ?%not_elem_of_nil|].
  intros [->|H]%elem_of_cons; [exists l; split; [constructor|done]|].
  destruct (removal l); [|by apply not_elem_of_nil in H]. destruct (IH H) as (l' & ? & ->). exists l'. split; [by constructor|done].
Qed.

(** What a rollback may do. *)
Definition rolls_back (a : RollbackAnswers) (tab : list TaskRun) (run_id : Z) (e : Effect) : Prop :=
  exists run issue role_clean, get_run run_id tab = Some run /\ issue_number run = Some issue /\ issue <> "" /\
    (forall r, r ∈ tab -> issue_number r = Some issue -> id r <> run_id -> is_terminal r = true) /\
    head (role_parts (role run)) = Some role_clean /\
    ((exists target, e = Transition issue target /\ role_clean <> "triage" /\ target_state role_clean (pr_number run) = Some target) \/
     (exists label labels, e = RemoveLabel issue label /\ role_clean = "triage" /\ rb_labels a = Ret labels /\ label ∈ labels /\
        PyStr.startswith label "agent:" = true /\ Labels.is_on_hold [label] = false)).

Lemma concurrent_run_false issue run_id tab :
  concurrent_run issue run_id tab = false <->
  forall r, r ∈ tab -> issue_number r = Some issue -> id r <> run_id -> is_terminal r = true.
Proof.
  unfold concurrent_run. rewrite <- not_true_iff_false, existsb_exists. split.
  - intros H r Hr Hi Hn. destruct (is_terminal r) eqn:Et; [done|]. destruct H. exists r. split; [by apply list_elem_of_In|].
    rewrite bool_decide_eq_true_2 by done. apply Z.eqb_neq in Hn. by rewrite Hn, Et.
  - intros H (r & Hr & E). bool_simp. apply list_elem_of_In in Hr. rewrite (H r) in *; [done..|]. by apply Z.eqb_neq.
Qed.

Lemma rollback_spec a tab run_id e : e ∈ rollback_issue_state a tab run_id -> rolls_back a tab run_id e.
Proof.
  unfold rollback_issue_state, rolls_back. destruct (rb_read a); [|by intros ?%not_elem_of_nil].
  destruct (get_run run_id tab) as [run|]; [|by intros ?%not_elem_of_nil].
  destruct (issue_number run) as [[|c issue]|] eqn:Ei; [by intros ?%not_elem_of_nil| |by intros ?%not_elem_of_nil].
  destruct (concurrent_run _ _ _) eqn:Ec; [by intros ?%not_elem_of_nil|]. pose proof (proj1 (concurrent_run_false _ _ _) Ec) as Hc.
  destruct (rb_adapter a); [|by intros ?%not_elem_of_nil].
  destruct (role_parts (role run)) as [|part parts] eqn:Er; [by intros ?%not_elem_of_nil|].
  intros He. exists run, (String c issue), part. do 3 (split; [done|]). split; [done|]. split; [by rewrite Er|].
  destruct (String.eqb_spec part "triage") as [->|Hn].
  - right. destruct (rb_labels a) as [labels|]; [|by apply not_elem_of_nil in He].
    apply remove_all_removes in He as (l & Hl & ->). unfold agent_labels in Hl.
    apply list_elem_of_In, filter_In in Hl as [Hl E]. apply list_elem_of_In in Hl. bool_simp. exists l, labels. done.
  - left. destruct (target_state part (pr_number run)) as [target|]; [|by apply not_elem_of_nil in He].
    apply list_elem_of_singleton in He as ->. by exists target.
Qed.

(** ** Theorems *)

(** The row of a table after a sweep: left alone when it ended meanwhile or when its run was
    not found abandoned, and recovered otherwise. *)
Definition swept_row (a : Answers) (db : list TaskRun) (r r' : TaskRun) : Prop :=
  r' = r /\ (is_terminal r = true \/ ~ exists s, is_stale a db s /\ id s = id r) \/
  is_terminal r = false /\ exists s, is_stale a db s /\ id s = id r /\ recovered a s r r'.

Lemma swept_rows a db dead :
  NoDup (map id db) -> NoDup (map id (meanwhile a db)) -> checked a db = Ret dead ->
  Forall (fun r => swept_row a db r (new_row (now a) (meanwhile a db) dead r)) (meanwhile a db).
Proof.
  intros Hnd Hm Hc. apply checked_spec in Hc as [Hmap Hs]. apply Forall_forall. intros r Hr. unfold swept_row, new_row.
  rewrite (get_run_unique _ _ Hm Hr). destruct (record_of dead r) as [rec|] eqn:Er.
  - apply find_some in Er as [Hin E%Z.eqb_eq]. apply list_elem_of_In in Hin.
    destruct (is_terminal r) eqn:Et; [left; auto|]. right. split; [done|]. exists (run_of rec).
    split; [apply run_of_dead_runs; rewrite <- Hmap; by apply list_elem_of_fmap_2|]. split; [done|].
    rewrite Forall_forall in Hs. by apply (Hs rec Hin).
  - left. split; [done|]. right. intros (s & Hst & E). apply run_of_dead_runs in Hst. rewrite <- Hmap in Hst.
    apply list_elem_of_fmap in Hst as (rec & -> & Hin).
    apply list_elem_of_In in Hin. pose proof (find_none _ _ Er _ Hin) as H. cbn in H. apply Z.eqb_neq in H. done.
Qed.

(** C17: Whatever the sweep meets, a signal goes only to the live process of an unfinished
    run that is in no pool, that carries the marker of an agent and has lost its launcher,
    and never to the dashboard itself; and the tracker changes only for a run that this
    sweep marked interrupted, whose issue no other unfinished run works on: its state goes
    to the one its role starts from, or, for a triage, its agent labels other than the hold
    are removed. *)
Theorem sweep_effects_justified a db entries e :
  e ∈ effects (recover_stale_runs a db entries) ->
  (exists sg p s, e = Send sg p /\ s ∈ db /\ is_terminal s = false /\ lives (host a) s p /\ unmanaged (projects a) s /\ lost (host a) p) \/
  (exists i interrupted, result (recover_stale_runs a db entries) = Ret interrupted /\ i ∈ interrupted /\
     rolls_back (rollbacks a (int_run_id i)) (at_rollback a (int_run_id i) (table (recover_stale_runs a db entries))) (int_run_id i) e).
Proof.
  assert (Hk : e ∈ flat_map (kill_process (terminated a) (later a)) (orphans a db) ->
    exists sg p s, e = Send sg p /\ s ∈ db /\ is_terminal s = false /\ lives (host a) s p /\ unmanaged (projects a) s /\ lost (host a) p).
  { intros (sg & p & -> & (s & Hs)%elem_of_orphans)%sends_of_kills. naive_solver. }
  unfold recover_stale_runs. destruct (first_read a); [|by intros ?%not_elem_of_nil].
  destruct (dead_runs a db) as [|rec l]; [by auto|]. destruct (if checks_in_time a then _ else _) as [dead|]; [|by auto].
  destruct (write a); [|by auto]. destruct (write_all _ _ _ dead) as [t interrupted]. cbn [effects result table].
  intros [?|H]%elem_of_app; [by auto|]. right.
  apply list_elem_of_In, in_flat_map in H as (i & Hi & He). apply list_elem_of_In in Hi, He.
  exists i, interrupted. split; [done|]. split; [done|]. by apply rollback_spec.
Qed.

(** C18: When the database answers and no merge check fails in a way of its own, every row
    that others left unfinished and whose run the sweep found abandoned ends: done when the
    agent had left a handoff since the run started, done with an explanation when the run
    merges and its pull request is seen merged or queued, interrupted otherwise; every other
    row stays as the others left it, and the result lists exactly the interrupted rows. *)
Theorem recovery_exact a db entries :
  NoDup (map id db) -> NoDup (map id (meanwhile a db)) -> first_read a = Ret tt -> write a = Ret tt -> checks_answer a db ->
  Forall2 (swept_row a db) (meanwhile a db) (table (recover_stale_runs a db entries)) /\
  exists interrupted, result (recover_stale_runs a db entries) = Ret interrupted /\
    forall i, i ∈ interrupted <->
      exists r s, r ∈ meanwhile a db /\ is_terminal r = false /\ is_stale a db s /\ id s = id r /\
                  ~ handed_over a s /\ ~ merge_seen a s /\ i = interrupted_of r.
Proof.
  intros Hnd Hm Hf Hw Hch. destruct (checked_total a db Hch) as (dead & Hc).
  destruct (recover_eq a db entries dead Hf Hw Hc) as (-> & -> & _).
  pose proof (swept_rows a db dead Hnd Hm Hc) as Hrows. apply checked_spec in Hc as [Hmap Hs]. split.
  - rewrite write_all_rows by (rewrite Hmap; by apply NoDup_dead_runs). by apply Forall2_fmap_r, Forall_Forall2_diag.
  - eexists. split; [done|]. intros i. rewrite write_all_interrupted. rewrite Forall_forall in Hs. split.
    + intros (rec & r & Hin & Hg & Ht & Hfin & ->). apply get_run_in in Hg as [Hr E]. exists r, (run_of rec).
      apply (Hs rec Hin r) in Hfin as [Hh Hme]. do 2 (split; [done|]).
      split; [apply run_of_dead_runs; rewrite <- Hmap; by apply list_elem_of_fmap_2|]. auto.
    + intros (r & s & Hr & Ht & Hst & E & Hh & Hme & ->). apply run_of_dead_runs in Hst. rewrite <- Hmap in Hst.
      apply list_elem_of_fmap in Hst as (rec & -> & Hin). exists rec, r. split; [done|]. rewrite E.
      split; [by apply get_run_unique|]. split; [done|]. split; [|done]. by apply (Hs rec Hin r).
Qed.

(** ** Examples *)

Module Examples.

Definition a_run (i : Z) (issue r st : string) (pr p : option Z) : TaskRun :=
  {| id := i; issue_number := Some issue; role := r; status := st; pr_number := pr; pid := p; total_cost_usd := 0;
     error_message := None; started_at := Some 1000%Z; ended_at := None; termination_reason := None; resumed_from_id := None |}.

Definition a_proc (marker : option string) (parent : Z) (line : list string) : Proc :=
  {| create_time := Some 900%Z; environ := Some marker; ppid := Some parent; cmdline := Some line |}.

(** The dashboard (50); an agent whose launcher is gone (30); a terminal run under a shell
    (40, 41); the watch loop of a terminal (60). *)
Definition a_host : Host :=
  {| getpid := 50;
     kill_0 := fun p => if bool_decide (p ∈ [30; 40; 41; 50; 60]%Z) then Delivered else NotFound;
     process := fun p =>
       if Z.eqb p 30 then Some (a_proc (Some "1") 1 ["claude"; "-p"])
       else if Z.eqb p 40 then Some (a_proc None 41 ["/usr/bin/sova"; "run"])
       else if Z.eqb p 41 then Some (a_proc None 1 ["bash"])
       else if Z.eqb p 60 then Some (a_proc None 41 ["python"; "-m"; "sova"; "watch"])
       else None |}.

Definition a_handoff : Handoff :=
  {| hf_status := Some "awaiting_action"; hf_created_at := Some (Ret 1500%Z); hf_cost := Ret (Some 25%Z) |}.

Definition merged_answers : MergeAnswers :=
  {| pr_config := Ret "o/r"; pr_view := Ret "MERGED"; view_in_time := true; queue_view := Ret None |}.

Definition rolled : RollbackAnswers :=
  {| rb_read := Ret tt; rb_adapter := Ret tt; rb_labels := Ret ["agent:ready"; "agent:on-hold"; "bug"]; rb_removal := fun _ => Ret tt |}.

Definition answers : Answers :=
  {| now := 2000; host := a_host; later := a_host; terminated := fun _ => true; projects := Some [[5%Z]];
     first_read := Ret tt; handoffs := fun i => if String.eqb i "1" then Ret (Some a_handoff) else Ret None;
     merges := fun _ => merged_answers; checks_in_time := true; meanwhile := fun db => db; write := Ret tt;
     repo := "o/r"; project_dir := "/p"; branches := fun _ => None; entry_created := fun _ => true; fresh := fun _ => 1%Z;
     at_rollback := fun _ t => t; rollbacks := fun _ => rolled |}.

Definition runs : list TaskRun :=
  [a_run 1 "1" "developer" "running" None (Some 10%Z);                       (* dead, with a handoff *)
   a_run 2 "2" "command:/integrate-pr 7" "running" (Some 7%Z) (Some 11%Z);   (* dead, its pull request merged *)
   a_run 3 "3" "command:triage" "running" None (Some 30%Z);                  (* an orphan *)
   a_run 4 "4" "developer" "running" None (Some 40%Z);                       (* a run in a terminal *)
   a_run 6 "6" "developer" "done" None (Some 60%Z)].                         (* finished by the watch loop *)

Lemma runs_distinct : NoDup (map id runs).
Proof. apply (bool_decide_unpack (NoDup (map id runs))). vm_compute. exact I. Qed.

Example a_sweep :
  let o := recover_stale_runs answers runs [] in
  (effects o, map (fun r => (id r, status r)) (table o)) =
  ([Send SIGTERM 30; Send SIGKILL 30; RemoveLabel "3" "agent:ready"],
   [(1%Z, "done"); (2%Z, "done"); (3%Z, "interrupted"); (4%Z, "running"); (6%Z, "done")]).
Proof. vm_compute. reflexivity. Qed.

(** A run whose row has no process, such as a rebase by the supervisor, is ended by the
    sweep while it works, even when the dashboard itself manages it. *)
Theorem no_pid_is_stale a db r : r ∈ db -> is_terminal r = false -> pid r = None -> is_stale a db r.
Proof. intros Hr Ht Hp. split; [done|]. split; [done|]. left. intros p (E & _). congruence. Qed.

(** The watch loop of a terminal works runs in its own process: once one of them is
    finished, the start of a dashboard kills the loop, which is no agent of the dashboard. *)
Example watch_loop_killed :
  kill_terminal_zombies 2000 (Some [[5%Z]]) a_host a_host (fun _ => true) runs = ([Send SIGTERM 60; Send SIGKILL 60], 1%nat) /\
  is_orphaned_process a_host 60 = false.
Proof. vm_compute. done. Qed.

(** A dead merge run is recorded as done while GitHub answers nothing. *)
Example outage_is_done :
  check_one {| pr_config := Ret "o/r"; pr_view := Raise (RuntimeError "no answer"); view_in_time := true; queue_view := Ret None |} (Some 7%Z)
  = Ret CInQueue.
Proof. vm_compute. reflexivity. Qed.

(** Without a repository in the configuration a dead merge run ends the sweep with an
    exception: no run is recovered. *)
Example no_repository_raises :
  let a := {| now := 2000; host := a_host; later := a_host; terminated := fun _ => true; projects := Some [];
              first_read := Ret tt; handoffs := fun _ => Ret None;
              merges := fun _ => {| pr_config := Ret ""; pr_view := Ret ""; view_in_time := true; queue_view := Ret None |};
              checks_in_time := true; meanwhile := fun db => db; write := Ret tt;
              repo := ""; project_dir := "/p"; branches := fun _ => None; entry_created := fun _ => true; fresh := fun _ => 1%Z;
              at_rollback := fun _ t => t; rollbacks := fun _ => rolled |} in
  match result (recover_stale_runs a runs []) with Raise (ValueError _) => true | _ => false end = true /\
  table (recover_stale_runs a runs []) = runs.
Proof. vm_compute. done. Qed.

Lemma sweep_effects_justified_witness :
  (Send SIGTERM 30 ∈ effects (recover_stale_runs answers runs [])) /\
  ((exists sg p s, Send SIGTERM 30 = Send sg p /\ s ∈ runs /\ is_terminal s = false /\ lives a_host s p /\
      unmanaged (projects answers) s /\ lost a_host p) \/
   (exists i interrupted, result (recover_stale_runs answers runs []) = Ret interrupted /\ i ∈ interrupted /\
      rolls_back (rollbacks answers (int_run_id i)) (at_rollback answers (int_run_id i) (table (recover_stale_runs answers runs [])))
        (int_run_id i) (Send SIGTERM 30))).
Proof.
  assert (H : Send SIGTERM 30 ∈ effects (recover_stale_runs answers runs [])) by (vm_compute; by left).
  split; [done|]. exact (sweep_effects_justified answers runs [] _ H).
Defined.

Lemma answers_all : checks_answer answers runs.
Proof. intros s e _ Hm. unfold check_one. destruct (pr_number s) eqn:E; cbn; [done|]. unfold merge_role in Hm. by rewrite E in Hm. Qed.

Lemma recovery_exact_witness :
  (NoDup (map id runs) /\ checks_answer answers runs) /\
  Forall2 (swept_row answers runs) runs (table (recover_stale_runs answers runs [])).
Proof.
  pose proof runs_distinct as Hnd.
  split; [split; [done|apply answers_all]|].
  exact (proj1 (recovery_exact answers runs [] Hnd Hnd eq_refl eq_refl answers_all)).
Defined.

End Examples.
