(* ===== verification/Liveness.v ===== *)
(** * Liveness: dead processes and one agent per issue

    The faster sweep of dashboard/app.py, which ends runs whose process is dead without a
    look at handoffs or queues, and the check of dashboard/services/agent_validation.py
    that an issue has no other agent. Processes, runs and merge checks are those of
    [Recovery]. *)

From stdpp Require Import base gmap strings list.
From S2P Require Import Prelude State MergeQueue Recovery.

Local Open Scope string_scope.

(** ** The liveness sweep *)

(** The checks of one pull request in the sweep: whether it is seen merged. *)
Definition sweep_check (a : MergeAnswers) (pr_number : option Z) : outcome bool :=
  match (if view_in_time a then check_pr_merged_on_failure pr_number a else Raise TimeoutError) with
  | Ret merged => Ret merged
  | Raise e => if caught e then Ret false else Raise e
  end.

(** What an attempt to write does: it is committed, the database is locked, it fails
    otherwise as an [OperationalError], or with another exception. *)
Inductive Attempt := Committed | Locked | Failed | Fails (e : exn).

(** What the sweep of one directory is told; the [n]-th attempt to write reads the table
    that others left by then. *)
Record SweepAnswers := {
  sw_now : Z;
  sw_host : Host;
  sw_managed : list Z;
  sw_merges : Z -> MergeAnswers;
  sw_in_time : bool;
  sw_meanwhile : nat -> list TaskRun -> list TaskRun;
  sw_attempt : nat -> Attempt;
}.

Definition sweep_dead (a : SweepAnswers) (db : list TaskRun) : list TaskRun :=
  List.filter (fun run =>
    negb (is_terminal run)
    && match pid run with
       | Some p => negb (bool_decide (id run ∈ sw_managed a) || is_process_alive (sw_host a) p)
       | None => false
       end) db.

(** A record of the sweep: the run, and whether its pull request is seen merged. *)
Fixpoint sweep_checks (a : SweepAnswers) (dead : list TaskRun) : outcome (list (TaskRun * bool)) :=
  match dead with
  | [] => Ret []
  | run :: dead =>
      match (if merge_role run && sw_in_time a then sweep_check (sw_merges a (id run)) (pr_number run) else Ret false) with
      | Raise e => Raise e
      | Ret merged => match sweep_checks a dead with Ret l => Ret ((run, merged) :: l) | Raise e => Raise e end
      end
  end.

Definition sweep_row (now : Z) (rec : TaskRun * bool) (run : TaskRun) : TaskRun :=
  if rec.2 then ended "done" now (Some ("Agent process died but " ++ pr_text rec.1 ++ " was merged successfully")) None run
  else ended "interrupted" now (Some "Agent process died unexpectedly") None run.

(** The rows of a transaction: a record applies while the status is the one it was read with. *)
Fixpoint sweep_rows (now : Z) (read table : list TaskRun) (dead : list (TaskRun * bool)) : list TaskRun :=
  match dead with
  | [] => table
  | rec :: dead =>
      match get_run (id rec.1) read with
      | Some run =>
          if String.eqb (status run) (status rec.1) then sweep_rows now read (write_row (sweep_row now rec run) table) dead
          else sweep_rows now read table dead
      | None => sweep_rows now read table dead
      end
  end.

Definition SWEEP_WRITE_RETRY_ATTEMPTS : nat := 5.

(** The attempts, [retries] of them after the first. *)
Fixpoint sweep_write (a : SweepAnswers) (db : list TaskRun) (dead : list (TaskRun * bool)) (retries n : nat) : outcome (list TaskRun) :=
  let table := sw_meanwhile a n db in
  match sw_attempt a n with
  | Committed => Ret (sweep_rows (sw_now a) table table dead)
  | Fails e => Raise e
  | Failed => Ret table
  | Locked => match retries with O => Ret table | S retries => sweep_write a db dead retries (S n) end
  end.

(** [_liveness_sweep_once] on one directory. *)
Definition liveness_sweep (a : SweepAnswers) (db : list TaskRun) : outcome (list TaskRun) :=
  match sweep_dead a db with
  | [] => Ret (sw_meanwhile a 0 db)
  | (_ :: _) as dead =>
      match sweep_checks a dead with
      | Raise e => Raise e
      | Ret dead => sweep_write a db dead (SWEEP_WRITE_RETRY_ATTEMPTS - 1) 0
      end
  end.

(** ** One agent per issue *)

(** The loop of [_check_issue_conflict] over the unfinished runs of the issue: the run that
    is in the way, and the rows it ended. *)
Fixpoint conflict_rows (h : Host) (force : bool) (now : Z) (managed : list Z) (runs : list TaskRun) : option Z * list TaskRun :=
  match runs with
  | [] => (None, [])
  | run :: runs =>
      if bool_decide (id run ∈ managed) then conflict_rows h force now managed runs
      else if is_process_alive h (default 0%Z (pid run)) then
        if force then conflict_rows h force now managed runs else (Some (id run), [])
      else let '(conflict, rows) := conflict_rows h force now managed runs in
           (conflict, ended "interrupted" now (Some "Stale run: process no longer alive") None run :: rows)
  end.

(** [_check_issue_conflict]; the pool is the runs in memory with their issues. *)
Definition check_issue_conflict (h : Host) (works : bool) (issue : string) (force : bool) (now : Z) (pool : list (Z * string))
    (db : list TaskRun) : option Z * list TaskRun :=
  match (if force then None else List.find (fun agent => String.eqb agent.2 issue) pool) with
  | Some agent => (Some agent.1, db)
  | None =>
      if works then
        let '(conflict, rows) :=
          conflict_rows h force now (map fst pool)
            (List.filter (fun r => bool_decide (issue_number r = Some issue) && negb (is_terminal r) && bool_decide (is_Some (pid r))) db) in
        (conflict, foldl (fun table row => write_row row table) db rows)
      else (None, db)
  end.

(** ** Lemmas *)

(** What the liveness sweep may make of a row. *)
Definition swept_dead (a : SweepAnswers) (db : list TaskRun) (r r' : TaskRun) : Prop :=
  r' = r \/
  exists s p merged, s ∈ db /\ id s = id r /\ is_terminal s = false /\ status r = status s /\ pid s = Some p /\
    id s ∉ sw_managed a /\ is_process_alive (sw_host a) p = false /\ r' = sweep_row (sw_now a) (s, merged) r /\
    (merged = true -> merge_role s = true /\ check_pr_merged_on_failure (pr_number s) (sw_merges a (id s)) = Ret true).

Lemma sweep_checks_spec a dead recs :
  sweep_checks a dead = Ret recs ->
  Forall (fun rec => rec.1 ∈ dead /\ (rec.2 = true -> merge_role rec.1 = true /\
                       check_pr_merged_on_failure (pr_number rec.1) (sw_merges a (id rec.1)) = Ret true)) recs.
Proof.
  revert recs. induction dead as [|run dead IH]; intros recs; cbn [sweep_checks]; [intros [= <-]; constructor|].
  destruct (if merge_role run && sw_in_time a then _ else _) as [merged|] eqn:Em; [|done].
  destruct (sweep_checks a dead) as [l|]; [|done]. intros [= <-]. constructor.
  - split; [constructor|]. cbn [snd fst]. intros ->. destruct (merge_role run) eqn:Er; [|done]. split; [done|].
    cbn [andb] in Em. destruct (sw_in_time a); [|done]. unfold sweep_check in Em.
    destruct (view_in_time _); [|done]. destruct (check_pr_merged_on_failure _ _) as [b|e]; [congruence|]. by destruct (caught e).
  - eapply Forall_impl; [apply IH; reflexivity|]. intros rec (H & ?). split; [by constructor|done].
Qed.

Lemma id_sweep_row now rec run : id (sweep_row now rec run) = id run.
Proof. unfold sweep_row. by destruct (rec.2). Qed.

Lemma write_row_other row table : Forall2 (fun r r' => id r' = id r /\ (r' = r \/ r' = row /\ id r = id row)) table (write_row row table).
Proof.
  unfold write_row. apply Forall2_fmap_r, Forall_Forall2_diag, Forall_forall. intros r _.
  cbn. destruct (Z.eqb_spec (id r) (id row)) as [E|]; auto.
Qed.

Lemma sweep_rows_spec now read dead table :
  Forall2 (fun r r' => id r' = id r /\
             (r' = r \/ exists rec run, rec ∈ dead /\ get_run (id rec.1) read = Some run /\ status run = status rec.1 /\
                                     id run = id r /\ r' = sweep_row now rec run))
    table (sweep_rows now read table dead).
Proof.
  revert table. induction dead as [|rec dead IH]; intros table; cbn [sweep_rows].
  { apply Forall_Forall2_diag, Forall_forall. auto. }
  destruct (get_run (id rec.1) read) as [run|] eqn:Eg; [destruct (String.eqb_spec (status run) (status rec.1)) as [Es|]|].
  2,3: eapply Forall2_impl; [apply IH|]; cbn; intros r r' (? & [->|(rec' & run' & ? & ?)]); split; auto; right;
       exists rec', run'; (split; [by constructor|done]).
  eapply Forall2_trans; [|apply write_row_other|apply IH]. cbn. intros r r1 r2 [E1 H1] [E2 H2].
  split; [congruence|]. destruct H2 as [->|(rec' & run' & ? & ? & ? & E3 & ->)].
  - destruct H1 as [->|[-> E3]]; [auto|]. right. exists rec, run. rewrite id_sweep_row in E3. split; [constructor|done].
  - right. exists rec', run'. split; [by constructor|]. by rewrite E3.
Qed.

Lemma elem_of_sweep_dead a db s :
  s ∈ sweep_dead a db <->
  s ∈ db /\ is_terminal s = false /\ exists p, pid s = Some p /\ id s ∉ sw_managed a /\ is_process_alive (sw_host a) p = false.
Proof.
  unfold sweep_dead. rewrite list_elem_of_In, filter_In, <- list_elem_of_In, andb_true_iff, negb_true_iff.
  destruct (pid s) as [p|]; [|split; [by intros (_ & _ & ?)|by intros (_ & _ & ? & ? & _)]].
  rewrite negb_true_iff, orb_false_iff, bool_decide_eq_false. split; [intros (? & ? & ? & ?); eauto 10|].
  intros (? & ? & q & E & ? & ?). injection E as <-. done.
Qed.

Lemma sweep_transaction a db table dead recs :
  NoDup (map id table) -> dead = sweep_dead a db -> sweep_checks a dead = Ret recs ->
  Forall2 (swept_dead a db) table (sweep_rows (sw_now a) table table recs).
Proof.
  intros Hnd -> Hc. apply sweep_checks_spec in Hc. rewrite Forall_forall in Hc.
  pose proof (sweep_rows_spec (sw_now a) table recs table) as H. apply Forall2_same_length_lookup in H as [Hl H].
  apply Forall2_same_length_lookup. split; [done|]. intros i r r' Hr Hr'. destruct (H i r r' Hr Hr') as (_ & H').
  unfold swept_dead. destruct H' as [->|(rec & run & Hin & Hg & Hs & Hid & ->)]; [auto|]. right.
  apply get_run_in in Hg as Hg'. destruct Hg' as [_ Eid].
  apply list_elem_of_lookup_2, (get_run_unique _ _ Hnd) in Hr. rewrite <- Hid, Eid, Hg in Hr. injection Hr as ->.
  destruct (Hc rec Hin) as [(Hdb & Ht & p & Hp & Hm & Ha)%elem_of_sweep_dead Hmerge].
  exists rec.1, p, rec.2. destruct rec as [s merged]. cbn in *. auto 15.
Qed.

(** The liveness sweep ends only runs that it read unfinished, with a process that is
    in no pool and no longer exists, and whose status nobody changed since; a run is called
    done only when it merges and GitHub says that its pull request is merged. Every row is
    otherwise what others left, however often the database was locked. *)
Theorem liveness_sweep_justified a db table :
  (forall n, NoDup (map id (sw_meanwhile a n db))) -> liveness_sweep a db = Ret table ->
  exists n, (n < SWEEP_WRITE_RETRY_ATTEMPTS)%nat /\ Forall2 (swept_dead a db) (sw_meanwhile a n db) table.
Proof.
  intros Hnd. assert (Hsame : forall n, Forall2 (swept_dead a db) (sw_meanwhile a n db) (sw_meanwhile a n db)).
  { intros n. apply Forall_Forall2_diag, Forall_forall. by left. }
  unfold liveness_sweep. destruct (sweep_dead a db) as [|s l] eqn:Ed.
  { intros [= <-]. exists 0%nat. split; [unfold SWEEP_WRITE_RETRY_ATTEMPTS; lia|done]. }
  destruct (sweep_checks a (s :: l)) as [recs|] eqn:Ec; [|done]. intros H.
  assert (Hw : forall retries n, sweep_write a db recs retries n = Ret table ->
                 exists m, (n <= m <= n + retries)%nat /\ Forall2 (swept_dead a db) (sw_meanwhile a m db) table).
  { clear H. induction retries as [|retries IH]; intros n; cbn [sweep_write]; destruct (sw_attempt a n); try done.
    1,4: intros [= <-]; exists n; split; [lia|by eapply sweep_transaction; [apply Hnd|symmetry; exact Ed|exact Ec]].
    1,2,4: intros [= <-]; exists n; split; [lia|done].
    intros (m & ? & ?)%IH. exists m. split; [lia|done]. }
  apply Hw in H as (m & ? & ?). exists m. unfold SWEEP_WRITE_RETRY_ATTEMPTS in *. split; [lia|done].
Qed.

(** *** One agent per issue *)

Lemma conflict_rows_clear h now managed runs rows :
  conflict_rows h false now managed runs = (None, rows) ->
  (forall r, r ∈ runs -> id r ∉ managed -> is_process_alive h (default 0%Z (pid r)) = false) /\
  rows = map (ended "interrupted" now (Some "Stale run: process no longer alive") None)
             (List.filter (fun r => negb (bool_decide (id r ∈ managed))) runs).
Proof.
  revert rows. induction runs as [|r runs IH]; intros rows; cbn [conflict_rows List.filter].
  { intros [= <-]. split; [by intros ? ?%not_elem_of_nil|done]. }
  case_bool_decide as Hm; cbn [negb].
  - intros [H ->]%IH. split; [|done]. intros r' [->|?]%elem_of_cons ?; auto. done.
  - destruct (is_process_alive h (default 0%Z (pid r))) eqn:Ea; [done|].
    destruct (conflict_rows h false now managed runs) as [c rows'] eqn:E. intros [= -> <-].
    destruct (IH rows' eq_refl) as [H ->]. split; [|done]. intros r' [->|?]%elem_of_cons ?; auto.
Qed.

Lemma write_rows_out rows table r :
  (forall row, row ∈ rows -> id row <> id r) -> r ∈ table -> r ∈ foldl (fun t row => write_row row t) table rows.
Proof.
  revert table. induction rows as [|row rows IH]; intros table Hn Hr; cbn [foldl]; [done|]. apply IH.
  - intros row' ?. apply Hn. by constructor.
  - unfold write_row. apply list_elem_of_fmap. exists r. split; [|done].
    destruct (Z.eqb_spec (id r) (id row)) as [E|]; [|done]. destruct (Hn row); [constructor|done].
Qed.

Lemma write_rows_in rows table row :
  NoDup (map id rows) -> row ∈ rows -> (exists r, r ∈ table /\ id r = id row) ->
  row ∈ foldl (fun t row => write_row row t) table rows.
Proof.
  revert table. induction rows as [|row' rows IH]; intros table Hnd; [by intros ?%not_elem_of_nil|]. cbn [map foldl] in *.
  apply NoDup_cons in Hnd as [Hn Hnd]. intros [->|Hin]%elem_of_cons (r & Hr & E).
  - apply write_rows_out; [intros row ? E'; destruct Hn; rewrite <- E'; by apply list_elem_of_fmap_2|].
    unfold write_row. apply list_elem_of_fmap. exists r. by rewrite (proj2 (Z.eqb_eq _ _) E).
  - apply IH; [done..|]. exists r. split; [|done]. unfold write_row. apply list_elem_of_fmap. exists r. split; [|done].
    destruct (Z.eqb_spec (id r) (id row')) as [E'|]; [|done]. destruct Hn. rewrite <- E', E. by apply list_elem_of_fmap_2.
Qed.

(** When nothing is in the way of an agent, no agent of the pool works on the issue, and
    the process of every unfinished run of it outside the pool is dead, and the run ended. *)
Theorem no_second_agent h issue now pool db table :
  NoDup (map id db) -> check_issue_conflict h true issue false now pool db = (None, table) ->
  (forall agent, agent ∈ pool -> agent.2 <> issue) /\
  forall r, r ∈ db -> issue_number r = Some issue -> is_terminal r = false -> id r ∉ map fst pool ->
    forall p, pid r = Some p -> is_process_alive h p = false /\
      ended "interrupted" now (Some "Stale run: process no longer alive") None r ∈ table.
Proof.
  intros Hnd. unfold check_issue_conflict. destruct (List.find _ pool) as [agent|] eqn:Ef; [done|].
  destruct (conflict_rows _ _ _ _ _) as [c rows] eqn:Ec. intros [= -> <-].
  apply conflict_rows_clear in Ec as [Ha ->]. split.
  { intros agent Hin. apply list_elem_of_In in Hin. pose proof (find_none _ _ Ef _ Hin) as H. by apply String.eqb_neq in H. }
  intros r Hr Hi Ht Hm p Hp.
  match goal with |- context [List.filter ?f (List.filter ?g db)] => set (runs := List.filter g db) in *; set (out := f) in * end.
  assert (Hin : r ∈ runs).
  { apply list_elem_of_In, filter_In. split; [by apply list_elem_of_In|]. rewrite bool_decide_eq_true_2 by done. rewrite Ht.
    by rewrite bool_decide_eq_true_2 by (rewrite Hp; eauto). }
  split; [specialize (Ha r Hin Hm); by rewrite Hp in Ha|].
  apply write_rows_in.
  - rewrite map_map. apply (NoDup_map_filter id), NoDup_map_filter. done.
  - apply list_elem_of_fmap. exists r. split; [done|]. apply list_elem_of_In, filter_In. split; [by apply list_elem_of_In|].
    unfold out. by rewrite bool_decide_eq_false_2.
  - by exists r.
Qed.

(** ** Examples *)

Module Examples.
Import Recovery.Examples.

Definition sweep_answers : SweepAnswers :=
  {| sw_now := 2000; sw_host := a_host; sw_managed := []; sw_merges := fun _ => merged_answers; sw_in_time := true;
     sw_meanwhile := fun _ db => db; sw_attempt := fun n => if (n <? 2)%nat then Locked else Committed |}.

Lemma liveness_sweep_justified_witness :
  exists table, (liveness_sweep sweep_answers runs = Ret table /\ map status table = ["interrupted"; "done"; "running"; "running"; "done"]) /\
    exists n, (n < SWEEP_WRITE_RETRY_ATTEMPTS)%nat /\ Forall2 (swept_dead sweep_answers runs) (sw_meanwhile sweep_answers n runs) table.
Proof.
  pose proof runs_distinct as Hnd.
  eexists. assert (H : liveness_sweep sweep_answers runs = Ret (match liveness_sweep sweep_answers runs with Ret t => t | Raise _ => [] end)) by (vm_compute; reflexivity).
  split; [split; [exact H|vm_compute; reflexivity]|].
  exact (liveness_sweep_justified sweep_answers runs _ (fun _ => Hnd) H).
Defined.

Lemma no_second_agent_witness :
  (NoDup (map id runs) /\ (check_issue_conflict a_host true "1" false 2000 [(9%Z, "8")] runs).1 = None) /\
  (forall agent, agent ∈ [(9%Z, "8")] -> agent.2 <> "1").
Proof.
  pose proof runs_distinct as Hnd.
  assert (H : check_issue_conflict a_host true "1" false 2000 [(9%Z, "8")] runs
              = (None, (check_issue_conflict a_host true "1" false 2000 [(9%Z, "8")] runs).2)) by (vm_compute; reflexivity).
  split; [split; [done|vm_compute; reflexivity]|].
  exact (proj1 (no_second_agent a_host "1" 2000 [(9%Z, "8")] runs _ Hnd H)).
Defined.

End Examples.
