(* ===== verification/SelfHeal.v ===== *)
(** * SelfHeal: resuming runs after an outage of the network

    The texts that name an outage (utils/network.py) and the resumption of the runs that
    an outage ended (the last part of dashboard/services/agent_recovery.py). The start of
    the agent is an argument; the connection is that of [Health]. *)

From stdpp Require Import base gmap strings list sorting.
From Stdlib Require Import Ascii.
From S2P Require Import Prelude Complexity Health Recovery.

Local Open Scope string_scope.

(** ** Texts that name an outage *)

(** [_UNAMBIGUOUS_PATTERNS] *)
Definition UNAMBIGUOUS_PATTERNS : list string :=
  ["error connecting to api.github.com"; "could not resolve host"; "could not resolve hostname";
   "temporary failure in name resolution"; "nodename nor servname provided"; "name or service not known";
   "ssh: connect to host"; "network is unreachable"; "no route to host"; "can't reach the api server";
   "cannot reach the api server"].

(** [_ERRNO_RE] *)
Definition ERRNO_RE : list Complexity.piece :=
  [Complexity.Alt ["enotfound"; "eai_again"; "econnrefused"; "econnreset"; "etimedout"; "ehostunreach"]].

(** [_AMBIGUOUS_PATTERNS] *)
Definition AMBIGUOUS_PATTERNS : list string :=
  ["operation timed out"; "connection timed out"; "connection refused"; "connection reset by peer"; "failed to connect to";
   "could not read from remote repository"; "was unreachable while"].

(** [_REMOTE_CORROBORATORS] *)
Definition REMOTE_CORROBORATORS : list string :=
  ["github"; "anthropic"; "githubstatus.com"; "port 22"; "port 443"; "https://"; "git@"].

(** [text.replace("\u2019", "'")], the quotation mark in its three bytes. *)
Fixpoint straight (l : list ascii) : list ascii :=
  match l with
  | c :: l' =>
      match PyStr.after_literal [ascii_of_nat 226; ascii_of_nat 128; ascii_of_nat 153] l with
      | Some _ => "'"%char :: match l' with _ :: _ :: rest => straight rest | _ => [] end
      | None => c :: straight l'
      end
  | [] => []
  end.

(** [looks_like_network_outage] *)
Definition looks_like_network_outage (text : option string) : bool :=
  match text with
  | None | Some EmptyString => false
  | Some text =>
      let lower := PyStr.of_list (straight (PyStr.to_list (PyStr.lower text))) in
      if existsb (PyStr.contains lower) UNAMBIGUOUS_PATTERNS then true
      else if Complexity.search ERRNO_RE lower then true
      else if existsb (PyStr.contains lower) AMBIGUOUS_PATTERNS then existsb (PyStr.contains lower) REMOTE_CORROBORATORS
      else false
  end.

(** ** The candidates *)

(** The fields of [NetworkGuardConfig] that the resumption reads. *)
Record Config := {
  enabled : bool;
  auto_resume : bool;
  recovery_grace_seconds : Z;
  resume_window_minutes : Z;
  max_auto_resumes_per_hour : Z;
}.

(** [_SELF_HEAL_ROLES], [_SELF_HEAL_STATUSES] *)
Definition SELF_HEAL_ROLES : list string := ["developer"; "researcher"; "planner"].
Definition SELF_HEAL_STATUSES : list string := ["failed"; "interrupted"].

(** The statement of the query. *)
Definition matching (cutoff : Z) (run : TaskRun) : bool :=
  bool_decide (status run ∈ SELF_HEAL_STATUSES) && bool_decide (termination_reason run = None)
  && bool_decide (role run ∈ SELF_HEAL_ROLES) && since cutoff run.

Definition when (run : TaskRun) : Z :=
  match ended_at run with Some t => t | None => default 0%Z (started_at run) end.

(** Newest first; rows of the same instant stay in the order of the table. *)
Definition newest_first (runs : list TaskRun) : list TaskRun := sort_by (fun r => [(- when r)%Z]) runs.

(** [_has_newer_live_run] *)
Definition has_newer_live_run (table : list TaskRun) (run : TaskRun) : bool :=
  existsb (fun r => bool_decide (issue_number r = issue_number run) && Z.ltb (id run) (id r)) table.

(** [_already_resumed] *)
Definition already_resumed (table : list TaskRun) (run_id : Z) : bool :=
  existsb (fun r => bool_decide (resumed_from_id r = Some run_id)) table.

Record Candidate := { cd_run_id : Z; cd_issue : string; cd_role : string; cd_pr_number : option Z; cd_steps_done : Z; cd_cost : Z }.

Section Candidates.
(** The table of runs, and the step executions with their runs and their statuses. *)
Variables (table : list TaskRun) (steps : list (Z * string)).

Definition steps_done (run_id : Z) : Z :=
  Z.of_nat (length (List.filter (fun s => Z.eqb s.1 run_id && bool_decide (s.2 ∈ ["passed"; "done"])) steps)).

Definition candidate (issue : string) (run : TaskRun) : Candidate :=
  {| cd_run_id := id run; cd_issue := issue; cd_role := role run; cd_pr_number := pr_number run;
     cd_steps_done := steps_done (id run); cd_cost := total_cost_usd run |}.

Definition eligible (run : TaskRun) : bool :=
  looks_like_network_outage (error_message run) && bool_decide (resumed_from_id run = None)
  && negb (has_newer_live_run table run) && negb (already_resumed table (id run)).

(** The loop; [seen] are the issues whose newest run was looked at. *)
Fixpoint pick (seen : list string) (runs : list TaskRun) : list Candidate :=
  match runs with
  | [] => []
  | run :: runs =>
      match issue_number run with
      | Some ((String _ _) as issue) =>
          if bool_decide (issue ∈ seen) then pick seen runs
          else if eligible run then candidate issue run :: pick (issue :: seen) runs
          else pick (issue :: seen) runs
      | _ => pick seen runs
      end
  end.

(** [candidates.sort(key=lambda c: (c["steps_done"], c["cost"]), reverse=True)] *)
Definition most_valuable_first (l : list Candidate) : list Candidate := sort_by (fun c => [(- cd_steps_done c)%Z; (- cd_cost c)%Z]) l.

(** [_find_self_heal_candidates] *)
Definition find_self_heal_candidates (now window_minutes : Z) : list Candidate :=
  most_valuable_first (pick [] (newest_first (List.filter (matching (now - window_minutes * 60)) table))).
End Candidates.

(** [_count_recent_resumes] *)
Definition count_recent_resumes (now : Z) (table : list TaskRun) : Z :=
  Z.of_nat (length (List.filter (fun r => bool_decide (is_Some (resumed_from_id r))
                                          && match started_at r with Some t => Z.leb (now - 3600) t | None => false end) table)).

(** ** One tick *)

(** The answer of [start_agent]: an error, or the id of the new run, if it has one. *)
Inductive Started := Rejected (error : string) | Launched (run_id : option Z).

(** [_resume_one] *)
Definition resume_one (start_agent : Candidate -> outcome Started) (c : Candidate) : outcome (list (Candidate * option Z)) :=
  match start_agent c with
  | Ret (Rejected _) => Ret []
  | Ret (Launched run_id) => Ret [(c, run_id)]
  | Raise e => Raise e
  end.

(** [attempt_network_self_heal]: the run that is asked to be resumed, and the result. *)
Definition attempt_network_self_heal (guard : outcome Config) (net : Connectivity.t) (monotonic now : Z) (reads : outcome unit)
    (table : list TaskRun) (steps : list (Z * string)) (start_agent : Candidate -> outcome Started)
    : option Candidate * outcome (list (Candidate * option Z)) :=
  let swallowed e :=
    match e with OSError _ | TimeoutError | RuntimeError _ | SQLAlchemyError _ => Ret [] | _ => Raise e end in
  match guard with
  | Raise e => (None, swallowed e)
  | Ret guard =>
      if negb (enabled guard) || negb (auto_resume guard) then (None, Ret [])
      else if Connectivity.is_down net then (None, Ret [])
      else if Z.ltb (Connectivity.healthy_for_seconds monotonic net) (recovery_grace_seconds guard) then (None, Ret [])
      else match reads with
           | Raise e => (None, swallowed e)
           | Ret _ =>
               match find_self_heal_candidates table steps now (resume_window_minutes guard) with
               | [] => (None, Ret [])
               | c :: _ =>
                   if negb (Z.eqb (max_auto_resumes_per_hour guard) 0)
                      && Z.leb (max_auto_resumes_per_hour guard) (count_recent_resumes now table)
                   then (None, Ret [])
                   else (Some c, match resume_one start_agent c with Ret l => Ret l | Raise e => swallowed e end)
               end
           end
  end.

(** ** Lemmas *)

(** The candidate comes from the first run of its issue, the issue being one of [fresh]. *)
Definition picked (table : list TaskRun) (steps : list (Z * string)) (fresh : string -> Prop) (runs : list TaskRun) (c : Candidate) : Prop :=
  exists pre run post issue, runs = (pre ++ run :: post)%list /\ issue_number run = Some issue /\ issue <> "" /\ fresh issue /\
    (forall r, r ∈ pre -> issue_number r <> Some issue) /\ eligible table run = true /\ c = candidate steps issue run.

Lemma picked_cons table steps (F : string -> Prop) run runs c :
  picked table steps F (run :: runs) c <->
  (exists issue, issue_number run = Some issue /\ issue <> "" /\ F issue /\ eligible table run = true /\ c = candidate steps issue run) \/
  picked table steps (fun i => F i /\ issue_number run <> Some i) runs c.
Proof.
  unfold picked. split.
  - intros ([|r0 pre] & r & post & issue & E & Hi & Hne & Hp & Hpre & He & Hc); injection E as -> ->; [left; eauto 10|right].
    exists pre, r, post, issue. do 3 (split; [done|]). split; [split; [done|apply Hpre; left]|].
    split; [|done]. intros r' ?. apply Hpre. by right.
  - intros [(issue & Hi & Hne & Hf & He & Hc)|(pre & r & post & issue & -> & Hi & Hne & [Hf Hn] & Hpre & He & Hc)].
    + exists [], run, runs, issue. do 4 (split; [done|]). split; [by intros ? ?%not_elem_of_nil|done].
    + exists (run :: pre), r, post, issue. do 4 (split; [done|]). split; [|done]. intros r' [->|?]%elem_of_cons; auto.
Qed.

Lemma picked_ext table steps (F G : string -> Prop) runs c :
  (forall i, i <> "" -> F i <-> G i) -> picked table steps F runs c <-> picked table steps G runs c.
Proof.
  intros HFG. unfold picked. split; intros (pre & r & post & issue & ? & ? & Hne & Hp & ?); exists pre, r, post, issue;
    apply HFG in Hp; auto.
Qed.

Lemma elem_of_pick table steps seen runs c : c ∈ pick table steps seen runs <-> picked table steps (fun i => i ∉ seen) runs c.
Proof.
  revert seen. induction runs as [|run runs IH]; intros seen; cbn [pick].
  { split; [by intros ?%not_elem_of_nil|]. by intros ([|? ?] & ? & ? & ? & ? & _). }
  rewrite picked_cons. destruct (issue_number run) as [[|ch i]|] eqn:Ei.
  1,3: rewrite IH; split; [intros H; right; eapply picked_ext, H; cbn; intros ? ?; split; [by intros [? _]|split; congruence]|];
       intros [(? & ? & ? & _)|H]; [congruence|]; eapply picked_ext, H; cbn; intros ? ?; split; [split; congruence|by intros [? _]].
  set (iss := String ch i) in *.
  assert (Hrest : forall seen, picked table steps (fun j => j ∉ iss :: seen) runs c <->
                          picked table steps (fun j => j ∉ seen /\ Some iss <> Some j) runs c).
  { intros seen'. apply picked_ext. intros j _. rewrite not_elem_of_cons. split; intros [? ?]; split; congruence. }
  case_bool_decide as Hs.
  - rewrite IH. split; [intros H; right; eapply picked_ext, H; cbn; intros j ?; split; [by intros [? _]|split; congruence]|].
    intros [(? & [= <-] & _ & ? & _)|H]; [done|]. eapply picked_ext, H. cbn. intros j ?. split; [split; congruence|by intros [? _]].
  - destruct (eligible table run) eqn:Ee; rewrite ?elem_of_cons, IH, Hrest.
    + split; intros [H|H]; [left; by exists iss|by right| |by right]. destruct H as (? & [= <-] & _ & _ & _ & ->). by left.
    + split; [by right|]. intros [(? & _ & _ & _ & ? & _)|?]; done.
Qed.

(** What the code looks for: a run that failed a short while ago, in a role that has a
    checkpoint, without a recorded reason, with a text that names an outage; that resumes no
    other run; and that is the last run of its issue and that no run resumes. *)
Record resumable (table : list TaskRun) (cutoff : Z) (run : TaskRun) (issue : string) : Prop := {
  rs_row : run ∈ table;
  rs_status : status run ∈ SELF_HEAL_STATUSES;
  rs_reason : termination_reason run = None;
  rs_role : role run ∈ SELF_HEAL_ROLES;
  rs_recent : since cutoff run = true;
  rs_issue : issue_number run = Some issue;
  rs_named : issue <> "";
  rs_outage : looks_like_network_outage (error_message run) = true;
  rs_original : resumed_from_id run = None;
  rs_last : forall r, r ∈ table -> issue_number r = Some issue -> (id r <= id run)%Z;
  rs_unhandled : forall r, r ∈ table -> resumed_from_id r <> Some (id run);
}.

Lemma existsb_false_iff {A} (f : A -> bool) l : existsb f l = false <-> forall x, x ∈ l -> f x = false.
Proof.
  rewrite <- not_true_iff_false, existsb_exists. setoid_rewrite list_elem_of_In. split.
  - intros H x Hx. destruct (f x) eqn:E; [|done]. destruct H. eauto.
  - intros H (x & Hx & E). by rewrite (H x Hx) in E.
Qed.

Lemma resumable_iff table cutoff run issue :
  run ∈ table -> issue_number run = Some issue -> issue <> "" ->
  matching cutoff run && eligible table run = true <-> resumable table cutoff run issue.
Proof.
  intros Hin Hi Hne. unfold matching, eligible, has_newer_live_run, already_resumed.
  rewrite !andb_true_iff, !negb_true_iff, !existsb_false_iff, !bool_decide_eq_true. split.
  - intros ((((Hs & Ht) & Hr) & Hc) & ((Hl & Ho) & Hn) & Hu). constructor; try done.
    + intros r Hrin Er. specialize (Hn r Hrin). rewrite Hi, bool_decide_eq_true_2 in Hn by done. cbn in Hn.
      by apply Z.ltb_ge in Hn.
    + intros r Hrin E. specialize (Hu r Hrin). by rewrite bool_decide_eq_true_2 in Hu.
  - intros []. repeat (split; try done).
    + intros r Hr. rewrite Hi. case_bool_decide; [|done]. cbn. apply Z.ltb_ge. auto.
    + intros r Hr. apply bool_decide_eq_false_2. auto.
Qed.

Lemma elem_of_query table cutoff r :
  r ∈ newest_first (List.filter (matching cutoff) table) <-> r ∈ table /\ matching cutoff r = true.
Proof. unfold newest_first. rewrite sort_by_perm, list_elem_of_In, filter_In, <- list_elem_of_In. done. Qed.

(** Among the rows of the query, a candidate ended last for its issue. *)
Definition latest (table : list TaskRun) (cutoff : Z) (run : TaskRun) : Prop :=
  forall r, r ∈ table -> matching cutoff r = true -> issue_number r = issue_number run -> (when r <= when run)%Z.

Lemma newest_first_split runs pre run post r :
  newest_first runs = (pre ++ run :: post)%list -> r ∈ post -> (when r <= when run)%Z.
Proof.
  intros E Hr. pose proof (sort_by_sorted (fun r => [(- when r)%Z]) runs) as H. unfold newest_first in E. rewrite E in H.
  clear E. induction pre as [|p pre IH]; cbn in H; apply StronglySorted_inv in H as [H Hall]; [|by apply IH].
  rewrite Forall_forall in Hall. specialize (Hall r Hr). unfold key_le in Hall. cbn in Hall.
  destruct (Z.ltb_spec (- when run) (- when r)); [lia|]. by destruct (Z.ltb_spec (- when r) (- when run)); [|lia].
Qed.

Lemma candidates_sound table steps now window c :
  c ∈ find_self_heal_candidates table steps now window ->
  exists run issue, c = candidate steps issue run /\ resumable table (now - window * 60) run issue /\ latest table (now - window * 60) run.
Proof.
  unfold find_self_heal_candidates, most_valuable_first. rewrite sort_by_perm, elem_of_pick.
  intros (pre & run & post & issue & E & Hi & Hne & _ & Hpre & He & ->).
  assert (Hrun : run ∈ newest_first (List.filter (matching (now - window * 60)) table)) by (rewrite E; set_solver).
  apply elem_of_query in Hrun as [Hin Hm]. exists run, issue. split; [done|].
  split; [apply resumable_iff; [done..|]; by rewrite Hm, He|].
  intros r Hr Hmr Eir. assert (Hq : r ∈ newest_first (List.filter (matching (now - window * 60)) table)) by (by apply elem_of_query).
  rewrite E in Hq. apply elem_of_app in Hq as [Hq|[->|Hq]%elem_of_cons]; [|lia|by eapply newest_first_split].
  destruct (Hpre r Hq). congruence.
Qed.

(** The only run of an issue that ended as late as it did is its candidate. *)
Lemma candidates_complete table steps now window run issue :
  resumable table (now - window * 60) run issue ->
  (forall r, r ∈ table -> matching (now - window * 60) r = true -> issue_number r = Some issue -> r <> run -> (when r < when run)%Z) ->
  candidate steps issue run ∈ find_self_heal_candidates table steps now window.
Proof.
  intros Hres Hlate. pose proof Hres as H. destruct H. apply (resumable_iff _ _ _ _ rs_row0 rs_issue0 rs_named0) in Hres.
  apply andb_true_iff in Hres as [Hm He].
  unfold find_self_heal_candidates, most_valuable_first. rewrite sort_by_perm, elem_of_pick.
  assert (Hrun : run ∈ newest_first (List.filter (matching (now - window * 60)) table)) by (by apply elem_of_query).
  apply list_elem_of_split_l in Hrun as (pre & post & E & Hout). exists pre, run, post, issue.
  do 3 (split; [done|]). split; [by apply not_elem_of_nil|]. split; [|done]. intros r Hr Eir.
  assert (Hq : r ∈ newest_first (List.filter (matching (now - window * 60)) table)) by (rewrite E; set_solver).
  apply elem_of_query in Hq as [Hin Hmr]. assert (r <> run) by congruence. specialize (Hlate r Hin Hmr Eir ltac:(done)).
  apply list_elem_of_split in Hr as (a & b & ->). rewrite <- app_assoc in E. cbn in E.
  pose proof (newest_first_split _ a r (b ++ run :: post) run E ltac:(set_solver)). lia.
Qed.

Lemma most_valuable_head l c cs c' :
  most_valuable_first l = c :: cs -> c' ∈ l ->
  (cd_steps_done c' < cd_steps_done c)%Z \/ cd_steps_done c' = cd_steps_done c /\ (cd_cost c' <= cd_cost c)%Z.
Proof.
  intros E Hc. pose proof (sort_by_sorted (fun c => [(- cd_steps_done c)%Z; (- cd_cost c)%Z]) l) as H.
  unfold most_valuable_first in E. rewrite E in H. apply StronglySorted_inv in H as [_ Hall].
  assert (Hin : c' ∈ c :: cs) by (rewrite <- E; by rewrite sort_by_perm).
  apply elem_of_cons in Hin as [->|Hin]; [right; lia|]. rewrite Forall_forall in Hall. specialize (Hall c' Hin).
  unfold key_le in Hall. cbn in Hall. repeat match type of Hall with context [Z.ltb ?a ?b] => destruct (Z.ltb_spec a b) end; try done; lia.
Qed.

(** The guard, the connection and the hour let the tick resume a run. *)
Definition may_resume (guard : Config) (net : Connectivity.t) (monotonic now : Z) (table : list TaskRun) : Prop :=
  enabled guard = true /\ auto_resume guard = true /\ Connectivity.is_down net = false /\
  (recovery_grace_seconds guard <= Connectivity.healthy_for_seconds monotonic net)%Z /\
  (max_auto_resumes_per_hour guard = 0%Z \/ (count_recent_resumes now table < max_auto_resumes_per_hour guard)%Z).

Lemma attempt_spec g net monotonic now table steps start c :
  (attempt_network_self_heal (Ret g) net monotonic now (Ret tt) table steps start).1 = Some c <->
  may_resume g net monotonic now table /\ exists cs, find_self_heal_candidates table steps now (resume_window_minutes g) = c :: cs.
Proof.
  unfold attempt_network_self_heal, may_resume.
  destruct (enabled g), (auto_resume g); cbn [negb orb fst]; try (split; [done|intros ((? & ? & _) & _); done]).
  destruct (Connectivity.is_down net); [split; [done|intros ((_ & _ & ? & _) & _); done]|].
  destruct (Z.ltb_spec (Connectivity.healthy_for_seconds monotonic net) (recovery_grace_seconds g)).
  { split; [done|]. intros ((_ & _ & _ & ? & _) & _). lia. }
  destruct (find_self_heal_candidates _ _ _ _) as [|c' cs]; [split; [done|by intros (_ & ? & ?)]|].
  destruct (Z.eqb_spec (max_auto_resumes_per_hour g) 0); cbn [negb andb fst];
    [|destruct (Z.leb_spec (max_auto_resumes_per_hour g) (count_recent_resumes now table)); cbn [fst]].
  - split; [intros [= ->]|intros (_ & ? & [= -> _])]; [|done]. split; [auto 10|by exists cs].
  - split; [done|]. intros ((_ & _ & _ & _ & [?|?]) & _); lia.
  - split; [intros [= ->]|intros (_ & ? & [= -> _])]; [|done]. split; [auto 10|by exists cs].
Qed.

(** ** Theorems *)

(** C32: A tick asks for at most one run to be resumed, and only when the guard lets it, the
    connection has been up for the grace period and the hour has room: a run that an outage
    ended a short while ago, the last of its issue, neither a resume nor resumed; and no
    candidate has more completed steps, or as many at a higher cost. When there is such a
    run, and it ended after every other one of its issue, a run is resumed. *)
Theorem self_heal_exact g net monotonic now table steps start :
  (forall c, (attempt_network_self_heal (Ret g) net monotonic now (Ret tt) table steps start).1 = Some c ->
     may_resume g net monotonic now table /\
     (exists run issue, c = candidate steps issue run /\ resumable table (now - resume_window_minutes g * 60) run issue /\
        latest table (now - resume_window_minutes g * 60) run) /\
     forall c', c' ∈ find_self_heal_candidates table steps now (resume_window_minutes g) ->
       (cd_steps_done c' < cd_steps_done c)%Z \/ cd_steps_done c' = cd_steps_done c /\ (cd_cost c' <= cd_cost c)%Z) /\
  (forall run issue, may_resume g net monotonic now table ->
     resumable table (now - resume_window_minutes g * 60) run issue ->
     (forall r, r ∈ table -> matching (now - resume_window_minutes g * 60) r = true -> issue_number r = Some issue -> r <> run ->
        (when r < when run)%Z) ->
     exists c, (attempt_network_self_heal (Ret g) net monotonic now (Ret tt) table steps start).1 = Some c).
Proof.
  split.
  - intros c (Hm & cs & E)%attempt_spec. split; [done|]. split.
    + apply candidates_sound. rewrite E. left.
    + intros c' Hc'. eapply most_valuable_head; [exact E|].
      unfold find_self_heal_candidates, most_valuable_first in Hc'. by rewrite sort_by_perm in Hc'.
  - intros run issue Hm Hres Hlate. pose proof (candidates_complete table steps now _ run issue Hres Hlate) as Hc.
    destruct (find_self_heal_candidates table steps now (resume_window_minutes g)) as [|c cs] eqn:E; [by apply not_elem_of_nil in Hc|].
    exists c. apply attempt_spec. eauto.
Qed.

(** As long as the last run of an issue carries the mark of a resume, no run of the issue is
    resumed, whatever else happened to the table. *)
Theorem marked_resume_ends_chain guard net monotonic now reads table steps start c r issue :
  r ∈ table -> issue_number r = Some issue -> (exists from, resumed_from_id r = Some from) ->
  (forall r', r' ∈ table -> issue_number r' = Some issue -> (id r' <= id r)%Z) -> NoDup (map id table) ->
  (attempt_network_self_heal guard net monotonic now reads table steps start).1 = Some c ->
  cd_issue c <> issue.
Proof.
  intros Hr Hi (from & Hfrom) Hlast Hnd. destruct guard as [g|]; [|done].
  destruct reads as [[]|]; [|unfold attempt_network_self_heal; repeat case_match; done].
  intros (Hm & cs & E)%attempt_spec Hc.
  assert (Hin : c ∈ find_self_heal_candidates table steps now (resume_window_minutes g)) by (rewrite E; left).
  apply candidates_sound in Hin as (run & issue' & -> & Hres & _). cbn in Hc. subst issue'. destruct Hres.
  assert (id run = id r) as Eid by (specialize (rs_last0 r Hr Hi); specialize (Hlast run rs_row0 rs_issue0); lia).
  apply (get_run_unique _ _ Hnd) in Hr. apply (get_run_unique _ _ Hnd) in rs_row0. congruence.
Qed.

(** ** Examples *)

Module Examples.

Example outage_texts :
  map (fun t => looks_like_network_outage (Some t))
    ["fatal: unable to access: Could not resolve host: github.com"; "getaddrinfo ENOTFOUND api.anthropic.com";
     "FileNotFoundError: claude"; "test: connection refused"; "connect to github.com port 443: Connection refused"; ""]
  = [true; true; false; false; true; false].
Proof. vm_compute. reflexivity. Qed.

Definition failed_run (i : Z) (issue r : string) (error : option string) (from : option Z) (cost t : Z) : TaskRun :=
  {| id := i; issue_number := Some issue; role := r; status := "failed"; pr_number := None; pid := None; total_cost_usd := cost;
     error_message := error; started_at := Some (t - 100)%Z; ended_at := Some t; termination_reason := None; resumed_from_id := from |}.

Definition outage : option string := Some "git push: Could not resolve host: github.com".

Definition table : list TaskRun :=
  [failed_run 1 "7" "developer" outage None 500 9000;                    (* ended by the outage *)
   failed_run 2 "8" "developer" outage None 900 9100;                    (* and another, with more done *)
   failed_run 3 "9" "developer" (Some "tests failed") None 900 9100;     (* not by the outage *)
   failed_run 4 "10" "developer" outage (Some 1%Z) 10 9200].             (* a resume *)

Definition guard : Config :=
  {| enabled := true; auto_resume := true; recovery_grace_seconds := 120; resume_window_minutes := 30; max_auto_resumes_per_hour := 3 |}.

Definition net : Connectivity.t := Connectivity.create 2 0.

Definition steps : list (Z * string) := [(2%Z, "done"); (2%Z, "passed"); (3%Z, "done")].

Definition launch (c : Candidate) : outcome Started := Ret (Launched (Some 5%Z)).

Example one_is_resumed :
  option_map cd_run_id (attempt_network_self_heal (Ret guard) net 1000 9500 (Ret tt) table steps launch).1 = Some 2%Z /\
  (attempt_network_self_heal (Ret guard) net 100 9500 (Ret tt) table steps launch).1 = None.
Proof. vm_compute. done. Qed.

(** A planner that the dashboard resumes runs in the row that the dashboard made, which
    never gets the mark of a resume: when it fails again on the network it is resumed again,
    and the hourly cap does not see it. *)
Example unmarked_resume_again :
  let again := [failed_run 1 "7" "planner" outage None 500 9000; failed_run 5 "7" "planner" outage None 500 9300] in
  option_map cd_run_id (attempt_network_self_heal (Ret guard) net 1000 9500 (Ret tt) again [] launch).1 = Some 5%Z /\
  count_recent_resumes 9500 again = 0%Z.
Proof. vm_compute. done. Qed.

Lemma table_distinct : NoDup (map id table).
Proof. apply (bool_decide_unpack (NoDup (map id table))). vm_compute. exact I. Qed.

Lemma run_2_resumable : resumable table (9500 - 30 * 60) (failed_run 2 "8" "developer" outage None 900 9100) "8".
Proof. apply resumable_iff; [by right; left|done..]. Qed.

Lemma self_heal_exact_witness :
  (may_resume guard net 1000 9500 table /\ resumable table (9500 - 30 * 60) (failed_run 2 "8" "developer" outage None 900 9100) "8") /\
  exists c, (attempt_network_self_heal (Ret guard) net 1000 9500 (Ret tt) table steps launch).1 = Some c.
Proof.
  assert (Hm : may_resume guard net 1000 9500 table).
  { unfold may_resume. split; [done|]. split; [done|]. split; [done|]. split; [vm_compute; congruence|]. right. vm_compute. done. }
  split; [split; [exact Hm|exact run_2_resumable]|].
  apply (proj2 (self_heal_exact guard net 1000 9500 table steps launch) _ _ Hm run_2_resumable).
  intros r Hr Hmr Hi Hne. unfold table in Hr. rewrite !elem_of_cons in Hr.
  destruct Hr as [->|[->|[->|[->|Hr]]]]; try done. by apply not_elem_of_nil in Hr.
Defined.

Lemma marked_resume_ends_chain_witness :
  (option_map cd_issue (attempt_network_self_heal (Ret guard) net 1000 9500 (Ret tt) table steps launch).1 = Some "8") /\
  cd_issue (candidate steps "8" (failed_run 2 "8" "developer" outage None 900 9100)) <> "10".
Proof.
  split; [vm_compute; reflexivity|].
  refine (marked_resume_ends_chain (Ret guard) net 1000 9500 (Ret tt) table steps launch _
            (failed_run 4 "10" "developer" outage (Some 1%Z) 10 9200) "10" _ eq_refl _ _ table_distinct _).
  - by do 3 right; left.
  - by exists 1%Z.
  - intros r Hr Hi. unfold table in Hr. rewrite !elem_of_cons in Hr.
    destruct Hr as [->|[->|[->|[->|Hr]]]]; try done. by apply not_elem_of_nil in Hr.
  - vm_compute. reflexivity.
Defined.

End Examples.
