(* ===== verification/Finalize.v ===== *)
(** * Finalize: what becomes of a run when its agent exits

    dashboard/services/agent_finalize.py and the part of dashboard/services/agent_db.py
    that it uses: the classification of the exit, the row and the steps of the run, the
    validation of what a command or a pipeline was to achieve, and the order of these in
    [_wait_and_finalize]. Answers of GitHub, git and the file system are arguments. Runs
    and their rollback are those of [Recovery], the queue entries those of [MergeQueue],
    and the verdict of the diff guard ([DiffGuard.check_pr_diff_guard]) is an argument. *)

From stdpp Require Import base gmap strings list pretty.
From Stdlib Require Import Ascii.
From S2P Require Import Prelude State Review DiffGuard MergeQueue Recovery SelfHeal.

Local Open Scope string_scope.
#[local] Notation outcome_validation := DiffGuard.OutcomeValidation.

(** ** The exit of the process *)

(** [normalize_signal_exit] *)
Definition normalize_signal_exit (returncode : Z) : option Z :=
  if Z.ltb returncode 0 then Some (- returncode)%Z
  else if Z.leb 128 returncode then
    let sig := (returncode - 128)%Z in if Z.leb 1 sig && Z.leb sig 64 then Some sig else None
  else None.

(** [class AgentState]: the fields that the end of the run reads. *)
Record AgentState := {
  ag_run_id : Z;
  ag_issue : string;
  ag_role : string;
  ag_pr_number : option Z;
  ag_output_lines : list string;
  termination_record : option string;     (* the cause of a deliberate stop *)
  stream_failure : option string;
  last_result_cost : option Z;
  runtime_session_id : string;
  phase_tally : option string;            (* the snapshot of the phases, if there is one *)
  runtime_model : string;
  runtime_name : string;
  input_tokens : Z;
  output_tokens : Z;
  cache_read_tokens : option Z;
  cache_write_tokens : option Z;
  reasoning_tokens : option Z;
  num_turns : option Z;
  cost_source : option string;
  ag_pre_run_sha : option string;
}.

(** [_classify_exit_status] *)
Definition classify_exit_status (exit_code : Z) (agent : AgentState) : string * option string :=
  match termination_record agent with
  | Some cause => ("stopped", Some cause)
  | None =>
      match normalize_signal_exit exit_code with
      | Some _ => ("interrupted", Some "external_signal")
      | None => ("failed", None)
      end
  end.

Definition clip_end (n : nat) (s : string) : string := PyStr.of_list (drop (String.length s - n) (PyStr.to_list s)).

Definition newline : string := PyStr.of_list ["010"%char].

(** The bounds of the message. *)
Definition ERROR_MESSAGE_MAX_LENGTH : nat := 2000.
Definition OUTPUT_TAIL_MAX_LINES : nat := 20.
Definition OUTPUT_TAIL_MAX_CHARS : nat := 500.
Definition OUTPUT_LINE_MAX_CHARS : nat := 2000.

(** [_build_exit_failure_message]; [redact] is [scan_and_redact]. *)
Definition build_exit_failure_message (redact : string -> string) (exit_code : Z) (output_lines : list string)
    (current_step : option string) : string :=
  let tail := drop (length output_lines - OUTPUT_TAIL_MAX_LINES) output_lines in
  let tail := map (PyStr.slice_to OUTPUT_LINE_MAX_CHARS) tail in
  let tail_text :=
    match tail with
    | [] => ""
    | _ => clip_end OUTPUT_TAIL_MAX_CHARS (redact (PyStr.join newline tail))
    end in
  let message := "Process exited with code " ++ pretty exit_code in
  let message :=
    match current_step with
    | Some ((String _ _) as step) => if String.eqb step "agent" then message else message ++ " (step=" ++ step ++ ")"
    | _ => message
    end in
  let message :=
    if String.eqb tail_text "" then message
    else message ++ "; last output: " ++ PyStr.join " | " (map PyStr.of_list (PyStr.splitlines tail_text)) in
  PyStr.slice_to ERROR_MESSAGE_MAX_LENGTH message.

(** ** The database *)

(** What [handoff_json] holds: the details of a handoff file, or the verdict of a review. *)
Inductive HandoffJson :=
  | FileDetails (details : string)
  | ReviewVerdict (next_action : string) (review_head_sha : option string).

(** A row of the table of runs, with the columns that only this part uses. *)
Record Row := {
  run : TaskRun;
  current_step : option string;
  handoff_json : option HandoffJson;
  session : option string;
  phase_usage : option string;
}.

(** A step execution, in the order of the ids. *)
Record Step := { st_run : Z; st_name : string; st_status : string; st_ended_at : option Z }.

(** A row of [cost_records]. *)
Record CostRecord := {
  cr_run : Z; cr_issue : string; cr_model : string; cr_cost_usd : Z; cr_cost_source : option string;
  cr_input_tokens : Z; cr_output_tokens : Z; cr_cache_tokens : Z; cr_cache_read : option Z; cr_cache_write : option Z;
  cr_reasoning : option Z; cr_num_turns : option Z;
}.

(** [class CompletedAgent] *)
Record CompletedAgent := { co_run_id : Z; co_issue : string; co_role : string; co_status : string; co_cost : Z }.

(** What the end of a run does beyond the database and the pool. *)
Inductive Done :=
  | DequeuePr (run_id : Z)                                        (* its pending entry of the throttle queue *)
  | FinalizeEvent (run_id : Z) (status : string)
  | Tracker (e : Recovery.Effect)                                 (* the rollback *)
  | CrashRecoveryCleanup (pr_number : Z)
  | Announce (run_id : Z) (status : string) (status_changed : bool)
  | FinalizeLifecycle (run_id : Z) (exit_code : Z) (cost : Z)
  | Notify (failed : bool)
  | AutoHandoff.

Record World := {
  rows : list Row;
  steps : list Step;
  costs : list CostRecord;
  entries : list Entry;
  pool : list Z;
  recently_completed : list CompletedAgent;
  done : list Done;
}.

Definition with_rows (f : list Row -> list Row) (w : World) : World :=
  {| rows := f (rows w); steps := steps w; costs := costs w; entries := entries w; pool := pool w;
     recently_completed := recently_completed w; done := done w |}.
Definition with_steps (f : list Step -> list Step) (w : World) : World :=
  {| rows := rows w; steps := f (steps w); costs := costs w; entries := entries w; pool := pool w;
     recently_completed := recently_completed w; done := done w |}.
Definition with_costs (f : list CostRecord -> list CostRecord) (w : World) : World :=
  {| rows := rows w; steps := steps w; costs := f (costs w); entries := entries w; pool := pool w;
     recently_completed := recently_completed w; done := done w |}.
Definition with_entries (f : list Entry -> list Entry) (w : World) : World :=
  {| rows := rows w; steps := steps w; costs := costs w; entries := f (entries w); pool := pool w;
     recently_completed := recently_completed w; done := done w |}.
Definition also (d : list Done) (w : World) : World :=
  {| rows := rows w; steps := steps w; costs := costs w; entries := entries w; pool := pool w;
     recently_completed := recently_completed w; done := (done w ++ d)%list |}.

Definition table (w : World) : list TaskRun := map run (rows w).

Definition find_row (run_id : Z) (w : World) : option Row := List.find (fun r => Z.eqb (id (run r)) run_id) (rows w).

Definition set_row (row : Row) : list Row -> list Row :=
  map (fun r => if Z.eqb (id (run r)) (id (run row)) then row else r).

Definition with_run (f : TaskRun -> TaskRun) (row : Row) : Row :=
  {| run := f (run row); current_step := current_step row; handoff_json := handoff_json row; session := session row;
     phase_usage := phase_usage row |}.

(** [bool(task_run.handoff_json)] *)
Definition has_handoff (row : Row) : bool :=
  match handoff_json row with None | Some (FileDetails EmptyString) => false | Some _ => true end.

(** [_finalize_orphaned_steps] *)
Definition finalize_orphaned_steps (run_id now : Z) : list Step -> list Step :=
  map (fun s => if Z.eqb (st_run s) run_id && String.eqb (st_status s) "running"
                then {| st_run := st_run s; st_name := st_name s; st_status := "interrupted"; st_ended_at := Some now |} else s).

(** What [_read_file_handoff] reads. *)
Record FileHandoff := { fh_issue : string; fh_pr_number : option Z; fh_details : string }.

(** [str(x).lstrip("#").strip()] *)
Definition issue_text (s : string) : string :=
  PyStr.strip (PyStr.of_list (PyStr.drop_while (Ascii.eqb "#") (PyStr.to_list s))).

(** [_apply_file_handoff] *)
Definition apply_file_handoff (row : Row) (file_handoff : option FileHandoff) : Row :=
  match file_handoff with
  | None => row
  | Some fh =>
      let handoff_issue := issue_text (fh_issue fh) in
      let run_issue := issue_text (default "" (issue_number (run row))) in
      let empty := String.eqb "" in
      let issue_match := (negb (empty handoff_issue) && negb (empty run_issue) && String.eqb handoff_issue run_issue)
                         || (empty handoff_issue && empty run_issue) in
      let pr_match := match fh_pr_number fh with
                      | Some n => negb (Z.eqb n 0) && bool_decide (pr_number (run row) = Some n)
                      | None => false
                      end in
      if issue_match || pr_match
      then {| run := run row; current_step := current_step row; handoff_json := Some (FileDetails (fh_details fh));
              session := session row; phase_usage := phase_usage row |}
      else row
  end.

(** [_record_cost] *)
Definition record_cost (row : Row) (agent : AgentState) (cost : Z) : list CostRecord :=
  if bool_decide (last_result_cost agent = None) && String.eqb (runtime_model agent) "" then []
  else
    [{| cr_run := id (run row); cr_issue := default "" (issue_number (run row));
        cr_model := if negb (String.eqb (runtime_model agent) "") then runtime_model agent
                    else if negb (String.eqb (runtime_name agent) "claude-code") && negb (String.eqb (runtime_name agent) "")
                    then runtime_name agent else "claude";
        cr_cost_usd := cost; cr_cost_source := cost_source agent; cr_input_tokens := input_tokens agent;
        cr_output_tokens := output_tokens agent;
        cr_cache_tokens := (default 0 (cache_read_tokens agent) + default 0 (cache_write_tokens agent))%Z;
        cr_cache_read := cache_read_tokens agent; cr_cache_write := cache_write_tokens agent;
        cr_reasoning := reasoning_tokens agent; cr_num_turns := num_turns agent |}].

(** What [_finalize_task_run] is told. *)
Record FinalAnswers := {
  fin_now : Z;
  fin_handoff : option FileHandoff;
  fin_write : outcome unit;          (* the transaction *)
  fin_memory : option string;        (* the snapshot of the memory *)
  fin_rollback : RollbackAnswers;
}.

(** The row of the run before its status is looked at: the cost, the session and the phases. *)
Definition with_stream (agent : AgentState) (cost : Z) (row : Row) : Row :=
  {| run := let r := run row in
            {| id := id r; issue_number := issue_number r; role := role r; status := status r; pr_number := pr_number r; pid := pid r;
               total_cost_usd := if Z.ltb 0 cost then cost else total_cost_usd r; error_message := error_message r;
               started_at := started_at r; ended_at := ended_at r; termination_reason := termination_reason r;
               resumed_from_id := resumed_from_id r |};
     current_step := current_step row; handoff_json := handoff_json row;
     session := if String.eqb (runtime_session_id agent) "" then session row else Some (runtime_session_id agent);
     phase_usage := match phase_tally agent with Some p => Some p | None => phase_usage row end |}.

(** The status, the reason, the end and the error of a run that was not finished. *)
Definition final_row (redact : string -> string) (a : FinalAnswers) (exit_code : Z) (agent : AgentState) (row : Row) : Row :=
  let '(status', reason) := if Z.eqb exit_code 0 then ("done", None) else classify_exit_status exit_code agent in
  let message := build_exit_failure_message redact exit_code (ag_output_lines agent) (current_step row) in
  let message := match reason, fin_memory a with
                 | Some "external_signal", Some ((String _ _) as snapshot) => PyStr.slice_to ERROR_MESSAGE_MAX_LENGTH (message ++ "; " ++ snapshot)
                 | _, _ => message
                 end in
  with_run (fun r =>
    {| id := id r; issue_number := issue_number r; role := role r; status := status'; pr_number := pr_number r; pid := pid r;
       total_cost_usd := total_cost_usd r; error_message := if Z.eqb exit_code 0 then error_message r else Some message;
       started_at := started_at r; ended_at := Some (fin_now a); termination_reason := reason;
       resumed_from_id := resumed_from_id r |}) row.

Definition with_handoff (a : FinalAnswers) (row : Row) : Row :=
  if has_handoff row then row else apply_file_handoff row (fin_handoff a).

(** [_finalize_task_run] *)
Definition finalize_task_run (redact : string -> string) (a : FinalAnswers) (exit_code : Z) (agent : AgentState) (w : World) : bool * World :=
  let run_id := ag_run_id agent in
  let cost := default 0%Z (last_result_cost agent) in
  match find_row run_id w, fin_write a with
  | None, _ | _, Raise _ => (false, w)
  | Some row, Ret _ =>
      let row := with_stream agent cost row in
      let close w := also [DequeuePr run_id] (with_steps (finalize_orphaned_steps run_id (fin_now a)) w) in
      if is_terminal (run row) then (false, close (with_rows (set_row (with_handoff a row)) w))
      else
        let row' := final_row redact a exit_code agent row in
        let w := close (with_costs (fun l => l ++ record_cost row agent cost)%list (with_rows (set_row (with_handoff a row')) w)) in
        let w := also [FinalizeEvent run_id (status (run row'))] w in
        (true,
         if bool_decide (status (run row') ∈ ["failed"; "interrupted"; "stopped"])
         then also (map Tracker (rollback_issue_state (fin_rollback a) (table w) run_id)) w else w)
  end.

(** ** The outcome of a command *)

Definition valid : outcome_validation := DiffGuard.VALID.
Definition refused (reason : string) (blocked : bool) : outcome_validation :=
  {| failure_reason := Some reason; network_blocked := blocked |}.

(** What the validators are told. *)
Record Evidence := {
  output : option (list string);           (* the recorded lines of the run, if there are any *)
  sha_fields : option string * bool;       (* the head and the state of the pull request; was the network down *)
  branch_field : option string * bool;     (* its branch *)
  git_fetch : outcome (bool * bool);       (* whether it succeeded, whether the network was down *)
  git_count : outcome (bool * string);     (* the commits that are not pushed *)
  diff_guard : outcome_validation;
  persist : outcome unit;                  (* writing the verdict *)
  repository : outcome string;
  pr_state : outcome string;
  queue_read : bool;                       (* the database answers for the queue *)
}.

Definition has_pr (agent : AgentState) : bool := match ag_pr_number agent with Some n => negb (Z.eqb n 0) | None => false end.

(** [_check_pr_pushed_via_sha] *)
Definition check_pr_pushed_via_sha (v : Evidence) (agent : AgentState) : option bool * bool :=
  match ag_pre_run_sha agent with
  | Some pre_run_sha =>
      if negb (has_pr agent) then (None, false)
      else match sha_fields v with
           | (Some ((String _ _) as output), _) =>
               match map PyStr.of_list (split_by (Ascii.eqb "009") (PyStr.to_list output)) with
               | current_sha :: state :: _ =>
                   if String.eqb current_sha "" || String.eqb state "" then (None, false)
                   else if String.eqb state "MERGED" then (Some true, false)
                   else if negb (String.eqb current_sha pre_run_sha) then (Some true, false)
                   else (None, false)
               | _ => (None, false)
               end
           | (_, network_blocked) => (None, network_blocked)
           end
  | None => (None, false)
  end.

(** [s.isdigit()] on ASCII text *)
Definition is_digits (s : string) : bool :=
  let l := PyStr.to_list s in negb (bool_decide (l = [])) && forallb PyStr.is_digit l.

(** [_check_pr_branch_pushed] *)
Definition check_pr_branch_pushed (v : Evidence) (agent : AgentState) : outcome (option bool * bool) :=
  let or_none {A} (m : outcome A) (k : A -> option bool * bool) : outcome (option bool * bool) :=
    match m with Ret x => Ret (k x) | Raise e => if caught e then Ret (None, false) else Raise e end in
  if negb (has_pr agent) then Ret (None, false)
  else match branch_field v with
       | (Some ((String _ _) as branch), _) =>
           match git_fetch v with
           | Ret (false, network) => Ret (None, network)
           | Ret (true, _) =>
               or_none (git_count v) (fun r =>
                 let count := PyStr.strip r.2 in
                 if r.1 && String.eqb count "0" then (Some true, false)
                 else if r.1 && is_digits count then (Some false, false) else (None, false))
           | Raise e => if caught e then Ret (None, false) else Raise e
           end
       | (_, network_blocked) => Ret (None, network_blocked)
       end.

(** [_PUSH_KEYWORDS] *)
Definition PUSH_KEYWORDS : list string := ["git push"; "force-with-lease"; "force-push"; "pushed to"; "pushed commit"].

Definition matched_keywords (lines : list string) : list string :=
  List.filter (fun kw => existsb (fun line => PyStr.contains (PyStr.lower line) kw) lines) PUSH_KEYWORDS.

(** [_validate_address_pr] *)
Definition validate_address_pr (v : Evidence) (agent : AgentState) : outcome outcome_validation :=
  match ag_pr_number agent with
  | None => Ret (refused "address-pr run has no associated PR number" false)
  | Some pr =>
      match output v with
      | None => Ret (refused "address-pr produced no output (agent never ran meaningfully)" false)
      | Some lines =>
          let '(sha_pushed, sha_blocked) := check_pr_pushed_via_sha v agent in
          if bool_decide (sha_pushed = Some true) then Ret (diff_guard v)
          else
            let? branch := check_pr_branch_pushed v agent in
            match branch.1 with
            | Some true => Ret (diff_guard v)
            | Some false => Ret (refused "address-pr completed without pushing changes" false)
            | None =>
                if (2 <=? length (matched_keywords lines))%nat then Ret (diff_guard v)
                else if sha_blocked || branch.2
                then Ret (refused ("address-pr outcome unverified: GitHub was unreachable while checking PR #" ++ pretty pr) true)
                else Ret (refused "address-pr completed without pushing changes" false)
            end
      end
  end%sova.

(** The last marker of a line; no match of the expression holds the start of another. *)
Fixpoint last_verdict (l : list ascii) : option (string * option (list ascii)) :=
  match l with
  | [] => None
  | _ :: l' => match last_verdict l' with Some m => Some m | None => Markers.verdict_at l end
  end.

(** [_extract_review_verdict_marker] *)
Definition extract_review_verdict_marker (lines : list string) : option (string * option string) :=
  match omap (fun line => last_verdict (PyStr.to_list line)) (rev lines) with
  | (verdict, sha) :: _ => Some (verdict, PyStr.of_list <$> sha)
  | [] => None
  end.

(** [_VERDICT_TO_NEXT_ACTION] *)
Definition next_action_of (verdict : string) : string := if String.eqb verdict "approve" then "approve" else "address_review".

(** The evidence of a posted review in a line. *)
Definition posted_line (line : string) : bool :=
  let line := PyStr.lower line in
  PyStr.contains line "review posted" || PyStr.contains line "pullrequestreview"
  || (PyStr.contains line "pulls/" && PyStr.contains line "/reviews").

(** [_persist_review_verdict], which keeps what is there. *)
Definition persist_verdict (run_id : Z) (verdict : string) (sha : option string) : list Row -> list Row :=
  map (fun r => if Z.eqb (id (run r)) run_id && match handoff_json r with None => true | Some _ => false end
                then {| run := run r; current_step := current_step r; handoff_json := Some (ReviewVerdict (next_action_of verdict) sha);
                        session := session r; phase_usage := phase_usage r |} else r).

(** [_validate_review_pr] *)
Definition validate_review_pr (v : Evidence) (agent : AgentState) (w : World) : outcome outcome_validation * World :=
  match ag_pr_number agent with
  | None => (Ret (refused "review-pr run has no associated PR number" false), w)
  | Some _ =>
      match output v with
      | None => (Ret (refused "review-pr has no recorded output" false), w)
      | Some lines =>
          if negb (existsb posted_line lines)
          then (Ret (refused "review-pr completed without posting a review on GitHub" false), w)
          else
            let '(verdict, sha) := default ("revise", None) (extract_review_verdict_marker lines) in
            match persist v with
            | Raise e => (Raise e, w)
            | Ret _ => (Ret valid, with_rows (persist_verdict (ag_run_id agent) verdict sha) w)
            end
      end
  end.

(** [_strip_command_prefix]: [IndexError] for a role without a name. *)
Definition strip_command_prefix (role : string) : outcome string :=
  match role_parts role with part :: _ => Ret part | [] => Raise (OtherExn "list index out of range") end.

(** [_validate_merge_command] *)
Definition validate_merge_command (v : Evidence) (agent : AgentState) (w : World) : outcome outcome_validation :=
  match ag_pr_number agent with
  | None => Ret valid
  | Some pr =>
      match repository v with
      | Raise _ => Ret valid
      | Ret repo =>
          if String.eqb repo "" then Ret valid
          else match pr_state v with
               | Raise _ => Ret valid
               | Ret state =>
                   if bool_decide (state ∈ ["MERGED"; "CLOSED"]) then Ret valid
                   else if queue_read v && existsb (fun e => Z.eqb (e_pr_number e) pr && bool_decide (e_status e = QUEUED)) (entries w)
                   then Ret valid
                   else
                     let? cmd_name := strip_command_prefix (ag_role agent) in
                     Ret (refused (cmd_name ++ " exited without merging PR #" ++ pretty pr ++ " (state=" ++ state ++ ")") false)
               end
      end
  end%sova.

(** [_validate_command_outcome], with the rows it leaves. *)
Definition validate_command_outcome (v : Evidence) (agent : AgentState) (w : World) : outcome outcome_validation * World :=
  if negb (PyStr.startswith (ag_role agent) "command:") then (Ret valid, w)
  else match strip_command_prefix (ag_role agent) with
       | Raise e => (Raise e, w)
       | Ret cmd_name =>
           let '(result, w) :=
             if String.eqb cmd_name "address-pr" then (validate_address_pr v agent, w)
             else if String.eqb cmd_name "review-pr" then validate_review_pr v agent w
             else if String.eqb cmd_name "integrate-pr" then (validate_merge_command v agent w, w)
             else if bool_decide (cmd_name ∈ ["rearrange-commits"; "pr"]) then (Ret (diff_guard v), w)
             else (Ret valid, w) in
           (Ret (match result with Ret r => r | Raise _ => valid end), w)
       end.

(** ** The outcome of a pipeline *)

(** [_PIPELINE_ROLES] *)
Definition PIPELINE_ROLES : list string := ["developer"; "researcher"; "planner"].

Definition steps_of (run_id : Z) (w : World) : list Step := List.filter (fun s => Z.eqb (st_run s) run_id) (steps w).

(** [_check_incomplete_pr] *)
Definition check_incomplete_pr (run_id : Z) (w : World) : option string :=
  let done_names := map st_name (List.filter (fun s => bool_decide (st_status s ∈ TaskStatus.STEP_DONE_STATUSES)) (steps_of run_id w)) in
  if bool_decide ("create_pr" ∈ done_names) || bool_decide ("push" ∈ done_names)
  then Some "Pipeline incomplete: developer agent reached push/create_pr step but pr_number is still None"
  else if bool_decide ("commit" ∈ done_names)
  then Some "Pipeline incomplete: developer agent committed code but never pushed or created a PR"
  else None.

(** [_check_interrupted_step] *)
Definition check_interrupted_step (run_id : Z) (w : World) : option string :=
  match last (steps_of run_id w) with
  | Some s => if String.eqb (st_status s) "interrupted"
              then Some ("Pipeline incomplete: '" ++ st_name s ++ "' step was interrupted (process exited mid-step)") else None
  | None => None
  end.

(** [_build_bypass_message]; the diagnostics are texts of the environment. *)
Definition build_bypass_message (role : string) (pr_number : option Z) (diagnostics : list string) : string :=
  "Pipeline bypassed: " ++ role ++ " agent completed without executing workflow steps (current_step still 'agent', 0 step executions)"
  ++ (if String.eqb role "developer" && bool_decide (pr_number = None) then " and no PR was created" else "")
  ++ match diagnostics with [] => "" | _ => " [" ++ PyStr.join ", " diagnostics ++ "]" end.

(** [_check_pipeline_steps] *)
Definition check_pipeline_steps (diagnostics : list string) (run_id : Z) (role : string) (w : World) : option string :=
  match find_row run_id w with
  | None => None
  | Some row =>
      if bool_decide (current_step row = Some "agent") && bool_decide (steps_of run_id w = [])
      then Some (build_bypass_message role (pr_number (run row)) diagnostics)
      else
        match (if String.eqb role "developer" && negb (bool_decide (steps_of run_id w = [])) && bool_decide (pr_number (run row) = None)
               then check_incomplete_pr run_id w else None) with
        | Some incomplete => Some incomplete
        | None => check_interrupted_step run_id w
        end
  end.

(** [_validate_pipeline_outcome]; an exception that is not caught ends the end of the run. *)
Definition validate_pipeline_outcome (read : outcome unit) (diagnostics : list string) (agent : AgentState) (w : World)
    : outcome (option string) :=
  if bool_decide (ag_role agent ∈ PIPELINE_ROLES) then
    match read with
    | Ret _ => Ret (check_pipeline_steps diagnostics (ag_run_id agent) (ag_role agent) w)
    | Raise (OSError _ | TimeoutError | RuntimeError _ | SQLAlchemyError _) => Ret None
    | Raise e => Raise e
    end
  else Ret None.

(** [_downgrade_to_failed]; the rollback follows whether or not there was something to downgrade. *)
Definition downgrade_to_failed (rollback : RollbackAnswers) (write : outcome unit) (run_id : Z) (reason status' : string) (w : World)
    : outcome World :=
  match write with
  | Raise (OSError _ | TimeoutError | RuntimeError _ | SQLAlchemyError _) => Ret w
  | Raise e => Raise e
  | Ret _ =>
      let w :=
        match find_row run_id w with
        | Some row =>
            if String.eqb (status (run row)) "done"
            then with_rows (set_row (with_run (fun r =>
                   {| id := id r; issue_number := issue_number r; role := role r; status := status'; pr_number := pr_number r;
                      pid := pid r; total_cost_usd := total_cost_usd r; error_message := Some reason; started_at := started_at r;
                      ended_at := ended_at r; termination_reason := termination_reason r; resumed_from_id := resumed_from_id r |}) row)) w
            else w
        | None => w
        end in
      Ret (also (map Tracker (rollback_issue_state rollback (table w) run_id)) w)
  end.

(** ** The end of a run *)

(** A marker file of the merge queue: [None] when it cannot be read. *)
Record Marker := { mk_pr_number : option Z; mk_repo : string; mk_issue : option string; mk_branch : string; mk_created : bool }.

(** What [_wait_and_finalize] is told. *)
Record Answers := {
  exit_of : Z;                            (* the exit code of the process *)
  merge_view : MergeAnswers;
  queue_branch : string;                  (* the head of the pull request, empty when it is not known *)
  queue_taken : bool;                     (* the database takes the queue entry *)
  markers : list (option Marker);
  clock : Z;
  fresh_entry : list Entry -> Z;
  cwd : string;
  finals : FinalAnswers;
  evidence : Evidence;
  pipeline_read : outcome unit;
  diagnostics : list string;
  downgrade_write : outcome unit;
  downgrade_rollback : RollbackAnswers;
  status_read : bool;                     (* the database answers for the status *)
}.

(** [_check_merge_queue_on_failure]: the status and the exit code, when the pull request is in
    the queue. *)
Definition check_merge_queue_on_failure (a : Answers) (agent : AgentState) (w : World) : option World :=
  match pr_config (merge_view a) with
  | Raise _ => None
  | Ret repo =>
      if String.eqb repo "" then None
      else match queue_status_of repo (queue_view (merge_view a)) with
           | Raise _ => None
           | Ret s =>
               if negb (in_queue s) then None
               else Some (with_entries (fun l =>
                      if queue_taken a
                      then (create_merge_queue_entry (fresh_entry a l) (default 0%Z (ag_pr_number agent)) repo (cwd a) (queue_branch a)
                              (Some (ag_issue agent)) (clock a) l).2
                      else l) w)
           end
  end.

(** [_check_merge_queue_marker_file] *)
Definition check_merge_queue_marker_file (a : Answers) (w : World) : World :=
  with_entries (fun l => foldl (fun l m =>
    match m with
    | Some m =>
        match mk_pr_number m with
        | Some n =>
            if Z.eqb n 0 || String.eqb (mk_repo m) "" then l
            else if mk_created m
                 then (create_merge_queue_entry (fresh_entry a l) n (mk_repo m) (cwd a) (mk_branch m) (mk_issue m) (clock a) l).2
                 else l
        | None => l
        end
    | None => l
    end) l (markers a)) w.

(** The exit code that the stream of the runtime corrects. *)
Definition stream_exit (a : Answers) (agent : AgentState) : Z :=
  match stream_failure agent with
  | Some (String _ _) => if Z.eqb (exit_of a) 0 then 1%Z else exit_of a
  | _ => exit_of a
  end.

(** The exit code and the status that the state of a merge corrects. *)
Definition merge_exit (a : Answers) (agent : AgentState) (exit_code : Z) (w : World) : outcome (string * Z) * World :=
  let status := if Z.eqb exit_code 0 then "done" else "failed" in
  match ag_pr_number agent with
  | Some pr =>
      if Z.eqb exit_code 0 then (Ret (status, exit_code), w)
      else match strip_command_prefix (ag_role agent) with
           | Raise e => (Raise e, w)
           | Ret cmd_name =>
               if bool_decide (cmd_name ∈ MERGE_ROLES) then
                 match check_pr_merged_on_failure (Some pr) (merge_view a) with
                 | Raise e => (Raise e, w)
                 | Ret true => (Ret ("done", 0%Z), also [CrashRecoveryCleanup pr] w)
                 | Ret false =>
                     match check_merge_queue_on_failure a agent w with
                     | Some w => (Ret ("done", 0%Z), w)
                     | None => (Ret (status, exit_code), w)
                     end
                 end
               else (Ret (status, exit_code), w)
           end
  | None => (Ret (status, exit_code), w)
  end.

(** The validation of a run that exited well: its reason to fail, and whether only the
    network kept it from being verified. *)
Definition validate (a : Answers) (agent : AgentState) (w : World) : outcome (option (string * bool)) * World :=
  match validate_command_outcome (evidence a) agent w with
  | (Raise e, w) => (Raise e, w)
  | (Ret validation, w) =>
      match failure_reason validation with
      | Some ((String _ _) as reason) => (Ret (Some (reason, network_blocked validation)), w)
      | _ =>
          match validate_pipeline_outcome (pipeline_read a) (diagnostics a) agent w with
          | Raise e => (Raise e, w)
          | Ret (Some ((String _ _) as reason)) => (Ret (Some (reason, false)), w)
          | Ret _ => (Ret None, w)
          end
      end
  end.

(** The run leaves the pool. *)
Definition leave_pool (agent : AgentState) (status : string) (w : World) : World :=
  let l := (recently_completed w
            ++ [{| co_run_id := ag_run_id agent; co_issue := ag_issue agent; co_role := ag_role agent; co_status := status;
                   co_cost := default 0%Z (last_result_cost agent) |}])%list in
  {| rows := rows w; steps := steps w; costs := costs w; entries := entries w;
     pool := List.filter (fun i => negb (Z.eqb i (ag_run_id agent))) (pool w);
     recently_completed := drop (length l - 5) l; done := done w |}.

(** What follows the removal from the pool. *)
Definition announce (a : Answers) (agent : AgentState) (status_changed : bool) (status : string) (exit_code : Z) (w : World) : World :=
  let announced := match (if status_read a then find_row (ag_run_id agent) w else None) with
                   | Some row => Recovery.status (run row)
                   | None => status
                   end in
  also ([Announce (ag_run_id agent) announced status_changed]
        ++ (if String.eqb (ag_issue agent) "" then []
            else [FinalizeLifecycle (ag_run_id agent) exit_code (default 0%Z (last_result_cost agent))])
        ++ [Notify (negb (Z.eqb exit_code 0))]
        ++ (if Z.eqb exit_code 0 then [AutoHandoff] else []))%list w.

(** [_wait_and_finalize], once the process has exited; an exception leaves the world as it
    is by then. *)
Definition wait_and_finalize (redact : string -> string) (a : Answers) (agent : AgentState) (w : World) : outcome unit * World :=
  match merge_exit a agent (stream_exit a agent) w with
  | (Raise e, w) => (Raise e, w)
  | (Ret (status, exit_code), w) =>
      let w := if Z.eqb exit_code 0 && bool_decide (is_Some (ag_pr_number agent)) then check_merge_queue_marker_file a w else w in
      let '(status_changed, w) := finalize_task_run redact (finals a) exit_code agent w in
      let finish status exit_code w := (Ret tt, announce a agent status_changed status exit_code (leave_pool agent status w)) in
      if Z.eqb exit_code 0 && negb (Z.eqb (ag_run_id agent) 0) then
        match validate a agent w with
        | (Raise e, w) => (Raise e, w)
        | (Ret None, w) => finish status exit_code w
        | (Ret (Some (reason, blocked)), w) =>
            let status := if (blocked : bool) then "interrupted" else "failed" in
            match downgrade_to_failed (downgrade_rollback a) (downgrade_write a) (ag_run_id agent) reason status w with
            | Raise e => (Raise e, w)
            | Ret w => finish status 1%Z w
            end
        end
      else finish status exit_code w
  end.

(** ** Lemmas *)

Definition status_of (run_id : Z) (w : World) : option string := (fun r => status (run r)) <$> find_row run_id w.

(** The rows of the other runs. *)
Definition others (run_id : Z) (w : World) : list Row := List.filter (fun r => negb (Z.eqb (id (run r)) run_id)) (rows w).

(** Some step of the run still counts as running. *)
Definition runs_a_step (run_id : Z) (w : World) : Prop := exists s, s ∈ steps w /\ st_run s = run_id /\ st_status s = "running".

Lemma find_row_id i w row : find_row i w = Some row -> id (run row) = i.
Proof. unfold find_row. by intros [_ ?%Z.eqb_eq]%find_some. Qed.

Lemma find_set_row i w row row0 :
  find_row i w = Some row0 -> id (run row) = i -> find_row i (with_rows (set_row row) w) = Some row.
Proof.
  unfold find_row, with_rows, set_row. cbn. intros H <-. revert H. induction (rows w) as [|r l IH]; [done|]. cbn.
  destruct (Z.eqb_spec (id (run r)) (id (run row))) as [Er|]; cbn.
  - intros _. by rewrite Z.eqb_refl.
  - rewrite (proj2 (Z.eqb_neq _ _)) by done. exact IH.
Qed.

Lemma others_set_row i w row : id (run row) = i -> others i (with_rows (set_row row) w) = others i w.
Proof.
  unfold others, with_rows, set_row. cbn. intros <-. induction (rows w) as [|r l IH]; [done|]. cbn.
  destruct (Z.eqb_spec (id (run r)) (id (run row))) as [Er|]; cbn; [by rewrite Z.eqb_refl|].
  rewrite (proj2 (Z.eqb_neq _ _)) by done. cbn. by rewrite IH.
Qed.

Lemma no_running_step i now l w : steps w = finalize_orphaned_steps i now l -> ~ runs_a_step i w.
Proof.
  intros E (s & Hs & Hi & Hr). rewrite E in Hs. unfold finalize_orphaned_steps in Hs.
  apply list_elem_of_fmap in Hs as (s' & -> & _).
  destruct (Z.eqb (st_run s') i && String.eqb (st_status s') "running") eqn:E'; cbn in *; [done|].
  rewrite Hi, Hr, Z.eqb_refl in E'. done.
Qed.

Lemma apply_file_handoff_run row fh : run (apply_file_handoff row fh) = run row.
Proof. unfold apply_file_handoff. destruct fh as [fh|]; [|done]. by destruct (_ || _). Qed.

Lemma with_handoff_run a row : run (with_handoff a row) = run row.
Proof. unfold with_handoff. destruct (has_handoff row); [done|apply apply_file_handoff_run]. Qed.

Lemma final_row_run redact a exit_code agent row :
  id (run (final_row redact a exit_code agent row)) = id (run row) /\
  status (run (final_row redact a exit_code agent row)) = if Z.eqb exit_code 0 then "done" else (classify_exit_status exit_code agent).1.
Proof.
  unfold final_row. destruct (Z.eqb exit_code 0); [done|]. by destruct (classify_exit_status exit_code agent).
Qed.

(** The status that the exit leaves in the row. *)
Definition exit_status (exit_code : Z) (agent : AgentState) (before : string) : string :=
  if bool_decide (before ∈ TaskStatus.TASK_RUN_TERMINAL) then before
  else if Z.eqb exit_code 0 then "done" else (classify_exit_status exit_code agent).1.

Lemma finalize_row redact a exit_code agent w row :
  find_row (ag_run_id agent) w = Some row -> fin_write a = Ret tt ->
  let w' := (finalize_task_run redact a exit_code agent w).2 in
  status_of (ag_run_id agent) w' = Some (exit_status exit_code agent (status (run row))) /\
  others (ag_run_id agent) w' = others (ag_run_id agent) w /\ ~ runs_a_step (ag_run_id agent) w' /\
  pool w' = pool w /\ recently_completed w' = recently_completed w.
Proof.
  intros Hf Hw. unfold finalize_task_run. rewrite Hf, Hw. pose proof (find_row_id _ _ _ Hf) as Hid.
  set (row1 := with_stream agent _ row). assert (H1 : id (run row1) = ag_run_id agent) by done.
  assert (Hs1 : status (run row1) = status (run row)) by done.
  unfold exit_status. change (bool_decide (status (run row) ∈ TaskStatus.TASK_RUN_TERMINAL)) with (is_terminal (run row1)).
  assert (Hset : forall row', id (run row') = ag_run_id agent ->
            status_of (ag_run_id agent) (with_rows (set_row (with_handoff a row')) w) = Some (status (run row')) /\
            others (ag_run_id agent) (with_rows (set_row (with_handoff a row')) w) = others (ag_run_id agent) w).
  { intros row' E. unfold status_of. rewrite (find_set_row _ _ _ row), others_set_row; rewrite ?with_handoff_run; try done.
    cbn. by rewrite with_handoff_run. }
  destruct (is_terminal (run row1)) eqn:Et.
  - cbn [snd]. destruct (Hset row1 H1) as [E1 E2]. rewrite <- Hs1.
    split; [exact E1|]. split; [exact E2|]. split; [|done]. eapply no_running_step. reflexivity.
  - destruct (final_row_run redact a exit_code agent row1) as [Hi Hst]. set (row2 := final_row redact a exit_code agent row1) in *.
    destruct (Hset row2) as [E1 E2]; [by rewrite Hi|]. rewrite Hst in E1.
    destruct (bool_decide _); cbn [snd]; (split; [exact E1|]; split; [exact E2|]; split; [|done]; eapply no_running_step; reflexivity).
Qed.

Lemma persist_verdict_rows i verdict sha w :
  status_of i (with_rows (persist_verdict i verdict sha) w) = status_of i w /\
  others i (with_rows (persist_verdict i verdict sha) w) = others i w.
Proof.
  unfold status_of, find_row, others, with_rows, persist_verdict. cbn. induction (rows w) as [|r l [IH1 IH2]]; [done|]. cbn.
  destruct (Z.eqb_spec (id (run r)) i) as [E|E]; cbn.
  - destruct (handoff_json r); cbn; rewrite (proj2 (Z.eqb_eq _ _) E); cbn; by rewrite ?IH2.
  - rewrite (proj2 (Z.eqb_neq _ _) E). cbn. rewrite IH2. by split.
Qed.

(** Validating changes neither the status of the run nor another run. *)
Definition same_but_handoff (i : Z) (w w' : World) : Prop :=
  status_of i w' = status_of i w /\ others i w' = others i w /\ steps w' = steps w /\ pool w' = pool w /\
  recently_completed w' = recently_completed w.

Lemma validate_world a agent w : same_but_handoff (ag_run_id agent) w (validate a agent w).2.
Proof.
  assert (H : same_but_handoff (ag_run_id agent) w (validate_command_outcome (evidence a) agent w).2).
  { unfold validate_command_outcome. destruct (negb _); [done|]. destruct (strip_command_prefix _) as [cmd|]; [|done].
    destruct (String.eqb cmd "address-pr"); [done|]. destruct (String.eqb cmd "review-pr");
      [|destruct (String.eqb cmd "integrate-pr"); [done|]; by destruct (bool_decide _)].
    unfold validate_review_pr. destruct (ag_pr_number agent); [|done]. destruct (output _); [|done].
    destruct (negb _); [done|]. destruct (default _ _) as [verdict sha]. destruct (persist _); [|done]. cbn [snd].
    destruct (persist_verdict_rows (ag_run_id agent) verdict sha w) as [E1 E2]. done. }
  unfold validate. destruct (validate_command_outcome (evidence a) agent w) as [[validation|e] w']; [|done]. cbn [snd] in H.
  destruct (failure_reason validation) as [[|]|]; repeat case_match; done.
Qed.

Lemma downgrade_world rb i reason status' w w' :
  downgrade_to_failed rb (Ret tt) i reason status' w = Ret w' ->
  status_of i w' = (if bool_decide (status_of i w = Some "done") then Some status' else status_of i w) /\
  others i w' = others i w /\ steps w' = steps w /\ pool w' = pool w /\ recently_completed w' = recently_completed w.
Proof.
  unfold downgrade_to_failed. intros [= <-]. destruct (find_row i w) as [row|] eqn:Ef.
  - unfold status_of at 2 3. rewrite Ef. cbn [fmap option_fmap option_map].
    destruct (String.eqb_spec (status (run row)) "done") as [E|E].
    + rewrite bool_decide_eq_true_2 by congruence. pose proof (find_row_id _ _ _ Ef) as Hid.
      unfold status_of, also, find_row, others. cbn.
      match goal with |- context [set_row ?r] => pose proof (find_set_row i w r row Ef Hid) as H1; pose proof (others_set_row i w r Hid) as H2 end.
      unfold find_row in H1. cbn in H1. rewrite H1. done.
    + rewrite bool_decide_eq_false_2 by congruence. unfold status_of, also, find_row in *. cbn. rewrite Ef. done.
  - unfold status_of at 2 3. rewrite Ef. cbn. unfold status_of, also, find_row in *. cbn. rewrite Ef. done.
Qed.

(** GitHub says that the pull request of a merge command is merged, or the queue that it holds it. *)
Definition merge_excused (a : Answers) (agent : AgentState) : Prop :=
  exists pr cmd_name, ag_pr_number agent = Some pr /\ strip_command_prefix (ag_role agent) = Ret cmd_name /\ cmd_name ∈ MERGE_ROLES /\
    (check_pr_merged_on_failure (Some pr) (merge_view a) = Ret true \/
     exists repo s, pr_config (merge_view a) = Ret repo /\ queue_status_of repo (queue_view (merge_view a)) = Ret s /\ in_queue s = true).

Lemma merge_exit_spec a agent exit_code w status code w' :
  merge_exit a agent exit_code w = (Ret (status, code), w') ->
  (status = (if Z.eqb code 0 then "done" else "failed") /\ (code = exit_code \/ code = 0%Z /\ merge_excused a agent)) /\
  rows w' = rows w /\ steps w' = steps w /\ pool w' = pool w /\ recently_completed w' = recently_completed w.
Proof.
  unfold merge_exit. destruct (ag_pr_number agent) as [pr|] eqn:Ep; [|intros [= <- <- <-]; auto].
  destruct (Z.eqb exit_code 0) eqn:Ee; [intros [= <- <- <-]; rewrite Ee; auto|].
  destruct (strip_command_prefix (ag_role agent)) as [cmd|] eqn:Ec; [|done].
  case_bool_decide as Hm; [|intros [= <- <- <-]; rewrite Ee; auto].
  destruct (check_pr_merged_on_failure (Some pr) (merge_view a)) as [[]|] eqn:Eg; [| |done].
  - intros [= <- <- <-]. split; [|done]. split; [done|]. right. split; [done|]. exists pr, cmd. auto.
  - unfold check_merge_queue_on_failure. destruct (pr_config (merge_view a)) as [repo|] eqn:Er; [|intros [= <- <- <-]; rewrite Ee; auto].
    destruct (String.eqb repo ""); [intros [= <- <- <-]; rewrite Ee; auto|].
    destruct (queue_status_of repo (queue_view (merge_view a))) as [s|] eqn:Eq; [|intros [= <- <- <-]; rewrite Ee; auto].
    destruct (in_queue s) eqn:Ei; cbn [negb]; [|intros [= <- <- <-]; rewrite Ee; auto].
    intros [= <- <- <-]. split; [|done]. split; [done|]. right. split; [done|]. exists pr, cmd. eauto 10.
Qed.

(** The status after a validation. *)
Definition validated (verdict : option (string * bool)) (status : string) : string :=
  match verdict with
  | Some (_, blocked) => if String.eqb status "done" then if (blocked : bool) then "interrupted" else "failed" else status
  | None => status
  end.

(** What the pool tells of the run: the status that the exit and the validation give. *)
Definition pool_status (code : Z) (verdict : option (string * bool)) : string :=
  validated verdict (if Z.eqb code 0 then "done" else "failed").

Lemma last_drop {A} n (l : list A) x : (n <= length l)%nat -> last (drop n (l ++ [x])%list) = Some x.
Proof. intros H. rewrite drop_app_le by done. by rewrite last_snoc. Qed.

Definition fields (line : string) : list string := map PyStr.of_list (split_by (Ascii.eqb "009") (PyStr.to_list line)).

(** GitHub says that the head of the pull request is not what it was before the run, or
    that it is merged. *)
Definition head_moved (v : Evidence) (agent : AgentState) : Prop :=
  has_pr agent = true /\ exists before line b current state rest,
    ag_pre_run_sha agent = Some before /\ sha_fields v = (Some line, b) /\ line <> "" /\ fields line = current :: state :: rest /\
    current <> "" /\ state <> "" /\ (state = "MERGED" \/ current <> before).

(** The branch of the pull request was fetched, and git counts no commit beyond it. *)
Definition nothing_unpushed (v : Evidence) (agent : AgentState) : Prop :=
  has_pr agent = true /\ exists branch b n count,
    branch_field v = (Some branch, b) /\ branch <> "" /\ git_fetch v = Ret (true, n) /\ git_count v = Ret (true, count) /\
    PyStr.strip count = "0".

#[local] Ltac no_such := split; [done|]; intros; destruct_and?; repeat (match goal with H : exists _, _ |- _ => destruct H end; destruct_and?); simplify_eq; congruence.

Lemma sha_spec v agent : (check_pr_pushed_via_sha v agent).1 = Some true <-> head_moved v agent.
Proof.
  unfold head_moved, check_pr_pushed_via_sha, fields. destruct (ag_pre_run_sha agent) as [before|]; [|no_such].
  destruct (has_pr agent); cbn [negb]; [|no_such].
  destruct (sha_fields v) as [[[|c line]|] b]; [no_such| |no_such].
  destruct (map PyStr.of_list _) as [|current [|state rest]] eqn:El; [no_such..|].
  destruct (String.eqb_spec current ""); [no_such|]. destruct (String.eqb_spec state ""); [no_such|]. cbn [orb].
  assert (Hyes : (state = "MERGED" \/ current <> before) -> true = true /\ exists before0 line0 b0 current0 state0 rest0,
      Some before = Some before0 /\ (Some (String c line), b) = (Some line0, b0) /\ line0 <> "" /\
      map PyStr.of_list (split_by (Ascii.eqb "009") (PyStr.to_list line0)) = current0 :: state0 :: rest0 /\
      current0 <> "" /\ state0 <> "" /\ (state0 = "MERGED" \/ current0 <> before0)).
  { intros H. split; [done|]. by exists before, (String c line), b, current, state, rest. }
  destruct (String.eqb_spec state "MERGED") as [->|Hm]; [split; [intros _; apply Hyes; by left|done]|].
  destruct (String.eqb_spec current before) as [->|Hc]; cbn [negb]; [|split; [intros _; apply Hyes; by right|done]].
  split; [done|]. intros (_ & b1 & l1 & b2 & c1 & s1 & r1 & [= <-] & [= <- <-] & _ & E & _ & _ & H). rewrite El in E.
  injection E as <- <- _. by destruct H.
Qed.

Lemma branch_spec v agent branch :
  check_pr_branch_pushed v agent = Ret branch -> (branch.1 = Some true <-> nothing_unpushed v agent).
Proof.
  unfold check_pr_branch_pushed, nothing_unpushed. destruct (has_pr agent); cbn [negb]; [|intros [= <-]; no_such].
  destruct (branch_field v) as [[[|c br]|] b]; [intros [= <-]; no_such| |intros [= <-]; no_such].
  destruct (git_fetch v) as [[[] n]|e]; [|intros [= <-]; no_such|].
  - destruct (git_count v) as [[ok count]|e]; [|case_match; [intros [= <-]; no_such|done]]. cbn [fst snd].
    destruct ok; cbn [andb]; [|intros [= <-]; no_such].
    destruct (String.eqb_spec (PyStr.strip count) "0") as [E|E].
    + intros [= <-]. split; [|done]. intros _. split; [done|]. by exists (String c br), b, n, count.
    + intros H. split; [destruct (is_digits _); injection H as <-; done|].
      intros (_ & ? & ? & ? & count' & _ & _ & _ & [= <-] & ?). done.
  - case_match; [intros [= <-]; no_such|done].
Qed.

(** ** Theorems *)


(** An address-pr run is accepted exactly when the diff guard accepts the branch and the
    push is confirmed: the head of the pull request moved or is merged, or its branch has
    nothing that is not pushed, or, when git could not say, the output names two different
    signs of a push. *)
Theorem address_pr_confirmed v agent w branch r :
  PyStr.startswith (ag_role agent) "command:" = true -> strip_command_prefix (ag_role agent) = Ret "address-pr" ->
  check_pr_branch_pushed v agent = Ret branch ->
  (validate_command_outcome v agent w).1 = Ret r ->
  failure_reason r = None <->
  is_Some (ag_pr_number agent) /\ failure_reason (diff_guard v) = None /\
  exists lines, output v = Some lines /\
    (head_moved v agent \/ nothing_unpushed v agent \/ branch.1 = None /\ (2 <= length (matched_keywords lines))%nat).
Proof.
  intros Hr Hc Hb. unfold validate_command_outcome. rewrite Hr, Hc. cbn [negb String.eqb Ascii.eqb Bool.eqb fst].
  unfold validate_address_pr. destruct (ag_pr_number agent) as [pr|]; [|intros [= <-]; split; [done|intros ([? ?] & _); done]].
  destruct (output v) as [lines|]; [|intros [= <-]; naive_solver].
  rewrite Hb. cbn [obind]. pose proof (sha_spec v agent) as Hs. pose proof (branch_spec v agent branch Hb) as Hbr.
  destruct (check_pr_pushed_via_sha v agent) as [sha blocked] eqn:Es. cbn [fst] in Hs.
  case_bool_decide as Hsha.
  - intros [= <-]. split; [|tauto]. intros Hg. split; [done|]. split; [done|]. exists lines. tauto.
  - destruct (branch.1) as [[]|] eqn:Eb.
    + intros [= <-]. split; [|tauto]. intros Hg. split; [done|]. split; [done|]. exists lines. tauto.
    + intros [= <-]. split; [done|]. intros (_ & _ & ? & [= <-] & [?|[Hn|[? _]]]); [tauto| |done]. by apply Hbr in Hn.
    + destruct (Nat.leb_spec 2 (length (matched_keywords lines))) as [Hk|Hk].
      * intros [= <-]. split; [|tauto]. intros Hg. split; [done|]. split; [done|]. exists lines. tauto.
      * intros H. split; [destruct (blocked || _); injection H as <-; done|].
        intros (_ & _ & ? & [= <-] & [?|[Hn|[_ ?]]]); [tauto| |lia]. by apply Hbr in Hn.
Qed.

Module Examples.

(** The developer of issue 5 (run 1), an integrate-pr (2) and an address-pr (3) of pull request 7. *)
Definition an_agent (i : Z) (r : string) (pr : option Z) : AgentState :=
  {| ag_run_id := i; ag_issue := "5"; ag_role := r; ag_pr_number := pr; ag_output_lines := ["working"; "done"];
     termination_record := None; stream_failure := None; last_result_cost := Some 12%Z; runtime_session_id := "s1";
     phase_tally := None; runtime_model := ""; runtime_name := "claude-code"; input_tokens := 10; output_tokens := 20;
     cache_read_tokens := Some 1%Z; cache_write_tokens := None; reasoning_tokens := None; num_turns := None;
     cost_source := None; ag_pre_run_sha := Some "aaa" |}.

Definition a_row (i : Z) (r : string) (pr : option Z) (step : string) : Row :=
  {| run := Recovery.Examples.a_run i "5" r "running" pr (Some 10%Z); current_step := Some step; handoff_json := None;
     session := None; phase_usage := None |}.

Definition a_world : World :=
  {| rows := [a_row 1 "developer" None "commit"; a_row 2 "command:/integrate-pr 7" (Some 7%Z) "agent";
              a_row 3 "command:/address-pr 7" (Some 7%Z) "agent"];
     steps := [{| st_run := 1; st_name := "implement"; st_status := "done"; st_ended_at := Some 1%Z |};
               {| st_run := 1; st_name := "commit"; st_status := "running"; st_ended_at := None |}];
     costs := []; entries := []; pool := [1; 2; 3]%Z; recently_completed := []; done := [] |}.

Definition an_evidence : Evidence :=
  {| output := Some ["ran git push --force-with-lease"]; sha_fields := (None, true); branch_field := (None, true);
     git_fetch := Ret (true, false); git_count := Ret (true, "0"); diff_guard := valid; persist := Ret tt; repository := Ret "o/r";
     pr_state := Ret "OPEN"; queue_read := true |}.

(** GitHub cannot be asked about the queue. *)
Definition answers (code : Z) (v : Evidence) : Answers :=
  {| exit_of := code;
     merge_view := {| pr_config := Ret "o/r"; pr_view := Ret "OPEN"; view_in_time := true; queue_view := Ret None |};
     queue_branch := ""; queue_taken := true; markers := []; clock := 2000; fresh_entry := fun _ => 1%Z; cwd := "/p";
     finals := {| fin_now := 2000; fin_handoff := None; fin_write := Ret tt; fin_memory := None;
                  fin_rollback := Recovery.Examples.rolled |};
     evidence := v; pipeline_read := Ret tt; diagnostics := []; downgrade_write := Ret tt;
     downgrade_rollback := Recovery.Examples.rolled; status_read := true |}.

Definition the_end (code : Z) (v : Evidence) (agent : AgentState) : World :=
  (wait_and_finalize (fun s => s) (answers code v) agent a_world).2.

Definition developer : AgentState := an_agent 1 "developer" None.
Definition integrate : AgentState := an_agent 2 "command:/integrate-pr 7" (Some 7%Z).
Definition address : AgentState := an_agent 3 "command:/address-pr 7" (Some 7%Z).

(** A developer that exits with 0 in the middle of a step fails. *)
Example mid_step_exit :
  status_of 1 (the_end 0 an_evidence developer) = Some "failed" /\
  map st_status (steps (the_end 0 an_evidence developer)) = ["done"; "interrupted"] /\
  pool (the_end 0 an_evidence developer) = [2; 3]%Z.
Proof. vm_compute. done. Qed.

(** An outage makes a failed merge a done run with an entry in the queue. *)
Example outage_ends_well :
  status_of 2 (the_end 1 an_evidence integrate) = Some "done" /\ length (entries (the_end 1 an_evidence integrate)) = 1.
Proof. vm_compute. done. Qed.

(** An address-pr run that prints two signs of a push is accepted while GitHub is away;
    with one sign it is interrupted. *)
Example address_outage :
  status_of 3 (the_end 0 an_evidence address) = Some "done" /\
  status_of 3 (the_end 0 {| output := Some ["ran git push"]; sha_fields := (None, true); branch_field := (None, true);
     git_fetch := Ret (true, false); git_count := Ret (true, "0"); diff_guard := valid; persist := Ret tt; repository := Ret "o/r";
     pr_state := Ret "OPEN"; queue_read := true |} address) = Some "interrupted".
Proof. vm_compute. done. Qed.

(** The lines are cut before they are redacted: a secret that the cut goes through stays,
    without its end. *)
Definition redact_token (s : string) : string := if PyStr.contains s "ghp_0123456789" then "[redacted]" else s.

Example fragment_survives :
  let line := (PyStr.of_list (repeat "x"%char 1990) ++ "ghp_0123456789")%string in
  PyStr.contains (build_exit_failure_message redact_token 1 [line] None) "ghp_012345" = true /\ redact_token line = "[redacted]".
Proof. vm_compute. done. Qed.

(** Only the validation of a command reports that the network kept it from its answer, so
    no run that self-heal may resume is interrupted by it. *)
Theorem blocked_never_healed a agent w reason w' :
  validate a agent w = (Ret (Some (reason, true)), w') -> ag_role agent ∉ SelfHeal.SELF_HEAL_ROLES.
Proof.
  unfold validate, validate_command_outcome. intros H Hin.
  assert (E : PyStr.startswith (ag_role agent) "command:" = false) by (unfold SelfHeal.SELF_HEAL_ROLES in Hin; repeat (apply elem_of_cons in Hin as [E|Hin]; [by rewrite E|]); by apply not_elem_of_nil in Hin).
  rewrite E in H. cbn in H. destruct (validate_pipeline_outcome _ _ _ _) as [[[]|]|]; done.
Qed.


Lemma address_pr_confirmed_witness :
  (2 <= length (matched_keywords ["ran git push --force-with-lease"]))%nat.
Proof.
  destruct (proj1 (address_pr_confirmed an_evidence address a_world (None, true) valid
                     ltac:(vm_compute; reflexivity) ltac:(vm_compute; reflexivity) ltac:(vm_compute; reflexivity)
                     ltac:(vm_compute; reflexivity)) ltac:(reflexivity))
    as (_ & _ & lines & [= <-] & [H|[H|[_ H]]]).
  - destruct H as (_ & b & l & b' & c & st & r & _ & E & _). discriminate E.
  - destruct H as (_ & b & b' & n & c & E & _). discriminate E.
  - exact H.
Defined.

End Examples.
