(* ===== verification/Regex.v ===== *)
(** * Regex: searching a text for a regular expression

    The library's engine backtracks; whether [re.search] finds a match does not depend on
    the order in which it tries the alternatives, so a search is modelled by derivatives
    and characterised by the language of the expression. Texts are lists of code points,
    classes of characters are predicates on them. *)

From stdpp Require Import base list.
From Stdlib Require Import String Ascii.
From S2P Require Import Prelude.

Local Open Scope Z_scope.

Inductive re :=
  | Void
  | Eps
  | Class (p : Z -> bool)
  | Cat (r1 r2 : re)
  | Alt (r1 r2 : re)
  | Star (r : re).

(** The language of an expression. *)
Inductive matches : re -> list Z -> Prop :=
  | m_eps : matches Eps []
  | m_class p c : p c = true -> matches (Class p) [c]
  | m_cat r1 r2 s1 s2 : matches r1 s1 -> matches r2 s2 -> matches (Cat r1 r2) (s1 ++ s2)
  | m_alt_l r1 r2 s : matches r1 s -> matches (Alt r1 r2) s
  | m_alt_r r1 r2 s : matches r2 s -> matches (Alt r1 r2) s
  | m_star_nil r : matches (Star r) []
  | m_star_cons r s1 s2 : matches r s1 -> matches (Star r) s2 -> matches (Star r) (s1 ++ s2).

#[export] Hint Constructors matches : core.

Fixpoint nullable (r : re) : bool :=
  match r with
  | Void | Class _ => false
  | Eps | Star _ => true
  | Cat r1 r2 => nullable r1 && nullable r2
  | Alt r1 r2 => nullable r1 || nullable r2
  end.

(** Concatenation and alternation that drop what can never match. *)
Definition cat (r1 r2 : re) : re :=
  match r1 with
  | Void => Void
  | Eps => r2
  | _ => Cat r1 r2
  end.

Definition alt (r1 r2 : re) : re :=
  match r1, r2 with
  | Void, _ => r2
  | _, Void => r1
  | _, _ => Alt r1 r2
  end.

Fixpoint deriv (c : Z) (r : re) : re :=
  match r with
  | Void | Eps => Void
  | Class p => if p c then Eps else Void
  | Cat r1 r2 => if nullable r1 then alt (cat (deriv c r1) r2) (deriv c r2) else cat (deriv c r1) r2
  | Alt r1 r2 => alt (deriv c r1) (deriv c r2)
  | Star r => cat (deriv c r) (Star r)
  end.

(** Some prefix of the text is matched, with a rest that [ok] accepts. *)
Fixpoint match_at (r : re) (ok : list Z -> bool) (s : list Z) : bool :=
  (nullable r && ok s) || match r, s with
                          | Void, _ | _, [] => false
                          | _, c :: s => match_at (deriv c r) ok s
                          end.

(** [re.search], with a condition on what follows the match. *)
Fixpoint search_then (r : re) (ok : list Z -> bool) (s : list Z) : bool :=
  match_at r ok s || match s with [] => false | _ :: s => search_then r ok s end.

Definition anything (_ : list Z) : bool := true.

Definition search (r : re) (s : list Z) : bool := search_then r anything s.

(** ** Expressions *)

Definition opt (r : re) : re := Alt r Eps.
Definition plus (r : re) : re := Cat r (Star r).
Fixpoint one_of (l : list re) : re := match l with [] => Void | [r] => r | r :: l => Alt r (one_of l) end.
Fixpoint times (n : nat) (r : re) : re := match n with O => Eps | S n => Cat r (times n r) end.
Definition at_least (n : nat) (r : re) : re := Cat (times n r) (Star r).
Fixpoint all_of (l : list re) : re := match l with [] => Eps | [r] => r | r :: l => Cat r (all_of l) end.

Definition code (c : ascii) : Z := Z.of_nat (nat_of_ascii c).
Definition codes (s : string) : list Z := map code (PyStr.to_list s).

(** A literal, and a literal under [re.IGNORECASE]. *)
Definition char (c : ascii) : re := Class (Z.eqb (code c)).
Definition lit (s : string) : re := all_of (map char (PyStr.to_list s)).

(** The code points that an ASCII letter matches whatever the case: its two forms, and the
    dotted and dotless i, the long s and the Kelvin sign. *)
Definition same_letter (c : ascii) (x : Z) : bool :=
  let lower := code (PyStr.lower_char c) in
  Z.eqb x (code c) || (Z.leb 97 lower && Z.leb lower 122 && (Z.eqb x lower || Z.eqb x (lower - 32)))
  || (Z.eqb lower 105 && (Z.eqb x 304 || Z.eqb x 305)) || (Z.eqb lower 115 && Z.eqb x 383) || (Z.eqb lower 107 && Z.eqb x 8490).

Definition ichar (c : ascii) : re := Class (same_letter c).
Definition ilit (s : string) : re := all_of (map ichar (PyStr.to_list s)).
Definition iwords (l : list string) : re := one_of (map ilit l).

(** ** Lemmas *)

Lemma nullable_spec r : nullable r = true <-> matches r [].
Proof.
  split.
  - induction r; cbn; intros H; try done; auto.
    + apply andb_true_iff in H as []. change (@nil Z) with (@nil Z ++ []). auto.
    + apply orb_true_iff in H as []; auto.
  - intros H. remember [] as s eqn:E. induction H; cbn; try done.
    + apply app_nil in E as [-> ->]. by rewrite IHmatches1, IHmatches2.
    + by rewrite IHmatches.
    + rewrite IHmatches by done. apply orb_true_r.
Qed.

Lemma cat_spec r1 r2 s : matches (cat r1 r2) s <-> matches (Cat r1 r2) s.
Proof.
  destruct r1; cbn; try done; split; intros H.
  - inversion H.
  - inversion H as [| |? ? ? ? H1| | | |]; subst. inversion H1.
  - change s with (@nil Z ++ s). auto.
  - inversion H as [| |? ? ? ? H1| | | |]; subst. by inversion H1; subst.
Qed.

Lemma alt_spec r1 r2 s : matches (alt r1 r2) s <-> matches r1 s \/ matches r2 s.
Proof.
  assert (G : matches (Alt r1 r2) s <-> matches r1 s \/ matches r2 s).
  { split; [intros H; inversion H; auto|intros [|]; auto]. }
  assert (V : matches Void s <-> False) by (split; [inversion 1|done]).
  destruct r1, r2; cbn; rewrite ?V; tauto.
Qed.

Lemma deriv_spec c r s : matches (deriv c r) s <-> matches r (c :: s).
Proof.
  revert s. induction r as [| |p|r1 IH1 r2 IH2|r1 IH1 r2 IH2|r IH]; intros s; cbn.
  - split; inversion 1.
  - split; inversion 1.
  - destruct (p c) eqn:E; split; intros H; inversion H; subst; auto. congruence.
  - assert (G : matches (Cat r1 r2) (c :: s) <-> matches (Cat (deriv c r1) r2) s \/ nullable r1 = true /\ matches (deriv c r2) s).
    { split.
      - intros H. inversion H as [| |? ? s1 s2 H1 H2 E1 E2| | | |]; subst. destruct s1 as [|c' s1].
        + right. rewrite nullable_spec, IH2. by cbn in E2; subst.
        + left. injection E2 as -> <-. constructor; [by apply IH1|done].
      - intros [H|[H1 H2]].
        + inversion H as [| |? ? s1 s2 H1 H2| | | |]; subst. change (matches (Cat r1 r2) ((c :: s1) ++ s2)).
          constructor; [by apply IH1|done].
        + change (matches (Cat r1 r2) (@nil Z ++ (c :: s))). constructor; [by apply nullable_spec|by apply IH2]. }
    rewrite G. destruct (nullable r1); rewrite ?alt_spec, cat_spec; naive_solver.
  - rewrite alt_spec, IH1, IH2. split; [intros [|]; auto|intros H; inversion H; auto].
  - rewrite cat_spec. split; intros H.
    + inversion H as [| |? ? s1 s2 H1 H2| | | |]; subst. change (matches (Star r) ((c :: s1) ++ s2)).
      constructor; [by apply IH|done].
    + remember (c :: s) as t eqn:Et. remember (Star r) as r' eqn:Er. revert s Et. induction H; intros s' Et; try discriminate.
      injection Er as ->. destruct s1 as [|c' s1]; [by apply IHmatches2|]. injection Et as -> <-.
      constructor; [by apply IH|done].
Qed.

Lemma match_at_spec r ok s : match_at r ok s = true <-> exists p q, s = p ++ q /\ matches r p /\ ok q = true.
Proof.
  revert r. induction s as [|c s IH]; intros r.
  - cbn. assert (E : match r with Void | _ => false end = false) by by destruct r.
    rewrite E, orb_false_r, andb_true_iff, nullable_spec. split.
    + intros []. by exists [], [].
    + intros (p & q & E' & ? & ?). symmetry in E'. by apply app_nil in E' as [-> ->].
  - cbn [match_at]. rewrite orb_true_iff, andb_true_iff, nullable_spec.
    assert (E : (match r with Void => false | _ => match_at (deriv c r) ok s end) = true <->
                exists p q, s = p ++ q /\ matches r (c :: p) /\ ok q = true).
    { assert (G : match_at (deriv c r) ok s = true <-> exists p q, s = p ++ q /\ matches r (c :: p) /\ ok q = true).
      { rewrite IH. by setoid_rewrite deriv_spec. }
      destruct r; try exact G. split; [done|]. intros (p & q & _ & H & _). inversion H. }
    rewrite E. split.
    + intros [[H1 H2]|(p & q & -> & H1 & H2)]; [by exists [], (c :: s)|by exists (c :: p), q].
    + intros ([|c' p] & q & E' & H1 & H2); [left; by cbn in E'; subst|]. injection E' as <- ->. right. by exists p, q.
Qed.

Lemma search_then_spec r ok s : search_then r ok s = true <-> exists a p q, s = a ++ p ++ q /\ matches r p /\ ok q = true.
Proof.
  induction s as [|c s IH]; cbn [search_then]; rewrite orb_true_iff, match_at_spec.
  - split; [intros [(p & q & ? & ?)|]; [by exists [], p, q|done]|].
    intros (a & p & q & E & ?). symmetry in E. apply app_nil in E as [-> E]. left. by exists p, q.
  - rewrite IH. split.
    + intros [(p & q & -> & ?)|(a & p & q & -> & ?)]; [by exists [], p, q|by exists (c :: a), p, q].
    + intros ([|c' a] & p & q & E & ?); [left; by exists p, q|]. injection E as <- ->. right. by exists a, p, q.
Qed.

Lemma search_spec r s : search r s = true <-> exists a p q, s = a ++ p ++ q /\ matches r p.
Proof. unfold search. rewrite search_then_spec. unfold anything. naive_solver. Qed.

Lemma matches_opt r s : s = [] \/ matches r s -> matches (opt r) s.
Proof. unfold opt. intros [->|]; auto. Qed.

Lemma matches_star_class p s : Forall (fun c => p c = true) s -> matches (Star (Class p)) s.
Proof. induction 1 as [|c s]; [auto|]. change (c :: s) with ([c] ++ s). auto. Qed.

Lemma matches_plus_class p s : s <> [] -> Forall (fun c => p c = true) s -> matches (plus (Class p)) s.
Proof. intros Hs H. destruct H as [|c s Hc H]; [done|]. change (c :: s) with ([c] ++ s). constructor; [auto|by apply matches_star_class]. Qed.

Lemma matches_one_of l r s : r ∈ l -> matches r s -> matches (one_of l) s.
Proof.
  intros H Hm. induction l as [|r' l IH]; [by apply elem_of_nil in H|]. apply elem_of_cons in H as [->|H]; cbn.
  - destruct l; auto.
  - destruct l; [by apply elem_of_nil in H|auto].
Qed.

Lemma matches_all_of l s : Forall2 matches l s -> matches (all_of l) (List.concat s).
Proof.
  induction 1 as [|r x l s H Hl IH]; [apply m_eps|]. cbn. destruct l; [|auto].
  inversion Hl; subst. cbn. by rewrite app_nil_r.
Qed.

(** The letters of a word, in whatever case. *)
Definition spells (w : string) (s : list Z) : Prop := Forall2 (fun c x => same_letter c x = true) (PyStr.to_list w) s.

Lemma matches_ilit w s : spells w s -> matches (ilit w) s.
Proof.
  unfold spells, ilit. intros H.
  assert (E : s = List.concat (map (fun x => [x]) s)) by (clear; induction s; cbn; congruence).
  rewrite E. apply matches_all_of. clear E. induction H as [|c x l s Hc]; constructor; [by constructor|done].
Qed.

Lemma matches_iwords l w s : w ∈ l -> spells w s -> matches (iwords l) s.
Proof. intros Hw Hs. apply (matches_one_of _ (ilit w)); [by apply list_elem_of_fmap_2|by apply matches_ilit]. Qed.
