(* ===== verification/CommitFold.v ===== *)
(** * CommitFold: the repair of a hook failure becomes part of the commit it repairs

    core/steps/_commit_fold.py, with the guard on staged files of git/safety.py. Git is an
    argument: what it answers to a command line, and the repository that it leaves. The
    environment that keeps a rebase from opening an editor is left out. *)

From stdpp Require Import base list strings sorting.
From Stdlib Require Import Ascii.
From S2P Require Import Prelude DiffGuard.

Local Open Scope string_scope.

(** ** Git *)

(** [ShellResult] *)
Record Result := { returncode : Z; stdout : string }.
Definition success (r : Result) : bool := Z.eqb (returncode r) 0.

(** A program over a repository; [Raise] is an exception of [run]. *)
Definition M (S A : Type) : Type := S -> outcome A * S.
Definition ret {S A} (x : A) : M S A := fun s => (Ret x, s).
Definition bind {S A B} (m : M S A) (k : A -> M S B) : M S B :=
  fun s => match m s with (Ret x, s) => k x s | (Raise e, s) => (Raise e, s) end.

Declare Scope fold_scope.
Notation "'do!' x := m 'in' k" := (bind m (fun x => k)) (at level 10, x pattern, m at level 100, k at level 200) : fold_scope.
Local Open Scope fold_scope.

Definition text_lines (s : string) : list string := map PyStr.of_list (PyStr.splitlines s).
Definition not_blank (s : string) : bool := negb (String.eqb (PyStr.strip s) "").

(** ** Paths *)

(** [_AGENT_ARTIFACT_PREFIXES], [is_agent_artifact] *)
Definition AGENT_ARTIFACT_PREFIXES : list string := [".claude/"; ".agent-"; ".agents/"; ".sova-"; ".sova/"].
Definition is_agent_artifact (path : string) : bool :=
  if PyStr.startswith path ".claude/specs/" then false else existsb (PyStr.startswith path) AGENT_ARTIFACT_PREFIXES.

(** [SUSPICIOUS_PATHS], [_is_suspicious] *)
Definition SUSPICIOUS_PATHS : list string :=
  [".venv"; ".env"; ".env.local"; "credentials.json"; ".secrets"; "node_modules"; ".DS_Store"; "__pycache__"; ".mcp.json"].
Definition path_parts (path : string) : list string := map PyStr.of_list (split_by (Ascii.eqb "/") (PyStr.to_list path)).
Definition is_suspicious (path : string) : bool :=
  existsb (fun part => bool_decide (part ∈ SUSPICIOUS_PATHS)) (path_parts (PyStr.strip path)).

Definition nul : ascii := "000"%char.

(** The fields of the status, one after the other: a rename or a copy takes two. *)
Fixpoint paths_of_fields (fields : list string) : list string :=
  match fields with
  | [] => []
  | "" :: rest => paths_of_fields rest
  | field :: rest =>
      let status := PyStr.slice_to 2 field in
      let path := PyStr.drop_chars 3 field in
      ((if String.eqb path "" then [] else [path])
       ++ (if PyStr.contains status "R" || PyStr.contains status "C"
           then match rest with [] => [] | _ :: rest => paths_of_fields rest end
           else paths_of_fields rest))%list
  end.

Definition fields_of (out : string) : list string := map PyStr.of_list (split_by (Ascii.eqb nul) (PyStr.to_list out)).

(** [_AUTOSQUASH_PREFIXES] *)
Definition AUTOSQUASH_PREFIXES : list string := ["fixup! "; "squash! "; "amend! "].
Definition is_marker (subject : string) : bool := existsb (PyStr.startswith subject) AUTOSQUASH_PREFIXES.

Section Fold.
Context {S : Type} (run : list string -> M S Result).

(** [_changed_paths] *)
Definition changed_paths : M S (list string) :=
  do! result := run ["git"; "-c"; "core.quotePath=false"; "status"; "--porcelain=v1"; "-z"; "--untracked-files=all"] in
  ret (if success result then paths_of_fields (fields_of (stdout result)) else []).

(** [_head_sha] *)
Definition head_sha : M S (option string) :=
  do! result := run ["git"; "rev-parse"; "HEAD"] in
  ret (if success result then Some (PyStr.strip (stdout result)) else None).

(** [_is_on_base] *)
Definition is_on_base (sha base_ref : string) : M S bool :=
  do! result := run ["git"; "merge-base"; "--is-ancestor"; sha; base_ref] in
  ret (if success result then true else negb (Z.eqb (returncode result) 1)).

(** [_resolve_base_ref] *)
Fixpoint first_resolved (candidates : list string) : M S (option string) :=
  match candidates with
  | [] => ret None
  | candidate :: rest =>
      do! result := run ["git"; "rev-parse"; "--verify"; "--quiet"; candidate] in
      if success result then ret (Some candidate) else first_resolved rest
  end.
Definition resolve_base_ref (base_branch : string) : M S (option string) :=
  first_resolved ["origin/" ++ base_branch; base_branch; "@{upstream}"].

(** The commits that last touched the paths; [None] when a path has none. *)
Fixpoint last_touched (range : string) (paths : list string) : M S (option (list string)) :=
  match paths with
  | [] => ret (Some [])
  | path :: rest =>
      do! result := run ["git"; "log"; "--format=%H"; range; "--"; path] in
      match (if success result then List.filter not_blank (text_lines (stdout result)) else []) with
      | [] => ret None
      | sha :: _ => do! shas := last_touched range rest in ret (cons sha <$> shas)
      end
  end.

(** [commits.pop()] when the set has one element *)
Definition the_only (commits : list string) : option string :=
  match commits with c :: rest => if forallb (String.eqb c) rest then Some c else None | [] => None end.

Definition occurrences (x : string) (l : list string) : nat := length (List.filter (String.eqb x) l).

(** [resolve_fixup_target], once the commits are one *)
Definition confirm_target (head base_ref target : string) : M S (option string) :=
  do! on_base := is_on_base target base_ref in
  if (on_base : bool) then ret (Some head)
  else
    do! subjects := run ["git"; "log"; "--format=%s"; base_ref ++ "..HEAD"] in
    if success subjects then
      do! target_subject := run ["git"; "log"; "--format=%s"; "-1"; target] in
      if success target_subject && (1 <? occurrences (PyStr.strip (stdout target_subject)) (text_lines (stdout subjects)))%nat
      then ret (Some head) else ret (Some target)
    else ret (Some target).

(** [resolve_fixup_target] *)
Definition resolve_fixup_target (base_branch : string) (given : option (list string)) : M S (option string) :=
  do! h := head_sha in
  match h with
  | None => ret None
  | Some head =>
      do! b := resolve_base_ref base_branch in
      match b with
      | None => ret (Some head)
      | Some base_ref =>
          do! on_base := is_on_base head base_ref in
          if (on_base : bool) then ret None
          else
            do! changed := match given with Some paths => ret paths | None => changed_paths end in
            match changed with
            | [] => ret (Some head)
            | _ =>
                do! commits := last_touched (base_ref ++ "..HEAD") changed in
                match commits ≫= the_only with
                | None => ret (Some head)
                | Some target => confirm_target head base_ref target
                end
            end
      end
  end.

(** [_staged_paths] *)
Definition staged_paths : M S (list string) :=
  do! result := run ["git"; "diff"; "--cached"; "--name-only"] in
  ret (if success result then List.filter not_blank (text_lines (stdout result)) else []).

(** [_restore_staged_paths] *)
Definition restore_staged_paths (paths : list string) : M S unit :=
  do! _ := run ["git"; "reset"] in
  match paths with
  | [] => ret tt
  | _ => do! _ := run (["git"; "add"; "--"] ++ paths)%list in ret tt
  end.

(** ** The guard on staged files *)

Record Scan := { checked : bool; unstaged : list string; still_staged : list string }.

Definition RESET_CHUNK_SIZE : nat := 200.

Fixpoint reset_chunks (fuel : nat) (bad : list string) : M S unit :=
  match fuel, bad with
  | O, _ | _, [] => ret tt
  | Datatypes.S fuel, _ =>
      do! _ := run (["git"; "reset"; "HEAD"; "--"] ++ take RESET_CHUNK_SIZE bad)%list in
      reset_chunks fuel (drop RESET_CHUNK_SIZE bad)
  end.

(** [unstage_suspicious_files] *)
Definition unstage_suspicious_files : M S Scan :=
  do! staged := run ["git"; "diff"; "--cached"; "--name-only"] in
  if negb (success staged) then ret {| checked := false; unstaged := []; still_staged := [] |}
  else
    let bad := merge_sort (fun a b => Is_true (String.leb a b))
                 (remove_dups (map PyStr.strip (List.filter is_suspicious (text_lines (PyStr.strip (stdout staged)))))) in
    match bad with
    | [] => ret {| checked := true; unstaged := []; still_staged := [] |}
    | _ =>
        do! _ := reset_chunks (length bad) bad in
        do! recheck := run ["git"; "diff"; "--cached"; "--name-only"] in
        if negb (success recheck) then ret {| checked := true; unstaged := []; still_staged := bad |}
        else
          let remaining := text_lines (PyStr.strip (stdout recheck)) in
          ret {| checked := true; unstaged := List.filter (fun f => negb (bool_decide (f ∈ remaining))) bad;
                 still_staged := List.filter (fun f => bool_decide (f ∈ remaining)) bad |}
    end.

(** ** Folding *)

(** [_fold_uncommitted_changes]: the head before the fixup commit, when one is made *)
Definition fold_uncommitted_changes (base_branch : string) : M S (option string) :=
  do! all := changed_paths in
  let changed := List.filter (fun p => negb (is_agent_artifact p)) all in
  match changed with
  | [] => ret None
  | _ =>
      do! t := resolve_fixup_target base_branch (Some changed) in
      match t with
      | None => ret None
      | Some target =>
          do! h := head_sha in
          match h with
          | None => ret None
          | Some pre_fixup_head =>
              do! pre_add_staged := staged_paths in
              do! add_result := run (["git"; "add"; "--"] ++ changed)%list in
              if negb (success add_result) then ret None
              else
                do! scan := unstage_suspicious_files in
                let bad := (unstaged scan ++ still_staged scan)%list in
                if negb (checked scan) || negb (bool_decide (bad = [])) then
                  do! _ := restore_staged_paths pre_add_staged in ret None
                else
                  do! fixup_result := run ["git"; "commit"; "--no-verify"; "--fixup"; target] in
                  if negb (success fixup_result) then do! _ := restore_staged_paths pre_add_staged in ret None
                  else ret (Some pre_fixup_head)
          end
      end
  end.

(** The subjects of the commits of the branch; [None] when they cannot be listed. *)
Definition branch_subjects (base_branch : string) : M S (option (list string)) :=
  do! b := resolve_base_ref base_branch in
  match b with
  | None => ret None
  | Some base_ref =>
      do! result := run ["git"; "log"; "--format=%s"; base_ref ++ "..HEAD"] in
      ret (if success result then Some (text_lines (stdout result)) else None)
  end.

(** [_has_pending_autosquash_commits] *)
Definition has_pending_autosquash_commits (base_branch : string) : M S (option bool) :=
  do! subjects := branch_subjects base_branch in ret (existsb is_marker <$> subjects).

(** [has_unresolved_marker_commits] *)
Definition has_unresolved_marker_commits (base_branch : string) : M S bool := fun s =>
  match has_pending_autosquash_commits base_branch s with
  | (Ret pending, s) => (Ret (bool_decide (pending = Some true)), s)
  | (Raise (OSError _ | TimeoutError), s) => (Ret false, s)
  | (Raise e, s) => (Raise e, s)
  end.

(** [_marker_commits], oldest first *)
Definition marker_commits (base_branch : string) : M S (list string) :=
  do! b := resolve_base_ref base_branch in
  match b with
  | None => ret []
  | Some base_ref =>
      do! result := run ["git"; "log"; "--format=%H %s"; base_ref ++ "..HEAD"] in
      ret (if success result then
             rev (omap (fun line => let '(sha, subject) := PyStr.split_once line " " in
                                    if is_marker (default "" subject) then Some sha else None) (text_lines (stdout result)))
           else [])
  end.

(** [_surviving_marker_subjects] *)
Definition surviving_marker_subjects (base_branch : string) : M S (list string) :=
  do! subjects := branch_subjects base_branch in ret (List.filter is_marker (default [] subjects)).

(** [_is_empty_commit] *)
Definition is_empty_commit (sha : string) : M S bool :=
  do! result := run ["git"; "diff"; "--quiet"; sha ++ "^"; sha] in ret (Z.eqb (returncode result) 0).

Fixpoint first_empty (markers : list string) : M S (option string) :=
  match markers with
  | [] => ret None
  | candidate :: rest =>
      do! empty := is_empty_commit candidate in
      if (empty : bool) then ret (Some candidate) else first_empty rest
  end.

(** [_MAX_MARKER_DROP_ITERATIONS] *)
Definition MAX_MARKER_DROP_ITERATIONS : nat := 10.

(** [_drop_stranded_empty_markers] *)
Fixpoint drop_markers (iterations : nat) (base_branch : string) (dropped_any : bool) : M S bool :=
  match iterations with
  | O => ret dropped_any
  | Datatypes.S iterations =>
      do! markers := marker_commits base_branch in
      do! found := first_empty markers in
      match found with
      | None => ret dropped_any
      | Some sha =>
          do! result := run ["git"; "rebase"; "--no-autosquash"; "--onto"; sha ++ "^"; sha] in
          if negb (success result) then do! _ := run ["git"; "rebase"; "--abort"] in ret dropped_any
          else drop_markers iterations base_branch true
      end
  end.
Definition drop_stranded_empty_markers (base_branch : string) : M S bool :=
  drop_markers MAX_MARKER_DROP_ITERATIONS base_branch false.

(** [get_merge_base] *)
Definition merge_base_of (base_ref : string) : M S (option string) :=
  do! result := run ["git"; "merge-base"; base_ref; "HEAD"] in
  ret (if success result then let sha := PyStr.strip (stdout result) in if String.eqb sha "" then None else Some sha else None).

(** [_autosquash] *)
Definition autosquash (base_branch : string) : M S bool :=
  do! b := resolve_base_ref base_branch in
  match b with
  | None => ret false
  | Some base_ref =>
      do! m := merge_base_of base_ref in
      match m with
      | None => ret false
      | Some merge_base =>
          do! result := run ["git"; "rebase"; "-i"; "--autosquash"; "--rebase-merges"; merge_base] in
          if success result then ret true else do! _ := run ["git"; "rebase"; "--abort"] in ret false
      end
  end.

(** The end of [_fold], when the fold is not complete. *)
Definition unwind (base_branch : string) (pre_fixup_head : option string) : M S bool :=
  match pre_fixup_head with
  | Some head => do! _ := run ["git"; "reset"; "--soft"; head] in ret false
  | None => do! _ := surviving_marker_subjects base_branch in ret false
  end.

(** [_fold] *)
Definition fold (base_branch : string) : M S bool :=
  do! pre_fixup_head := fold_uncommitted_changes base_branch in
  do! pending := has_pending_autosquash_commits base_branch in
  if bool_decide (pre_fixup_head = None) && bool_decide (pending = Some false) then ret false
  else
    do! squashed := autosquash base_branch in
    do! pending_after := has_pending_autosquash_commits base_branch in
    if (squashed : bool) && bool_decide (pending_after = Some false) then ret true
    else
      do! dropped := drop_stranded_empty_markers base_branch in
      do! pending_after := if (dropped : bool) then has_pending_autosquash_commits base_branch else ret pending_after in
      if (squashed : bool) && bool_decide (pending_after = Some false) && negb (bool_decide (pre_fixup_head = None)) then ret true
      else if bool_decide (pending_after = Some false) && bool_decide (pre_fixup_head = None) then ret false
      else unwind base_branch pre_fixup_head.

(** [fold_fix_into_branch] *)
Definition fold_fix_into_branch (base_branch : string) : M S bool := fun s =>
  match fold base_branch s with
  | (Raise (OSError _ | TimeoutError), s) => (Ret false, s)
  | r => r
  end.

End Fold.

(** ** Lemmas *)

(** The command lines that only look at the repository. *)
Definition read_only (argv : list string) : bool :=
  match argv with
  | "git" :: "-c" :: _ :: "status" :: _ | "git" :: "rev-parse" :: _ | "git" :: "merge-base" :: _ | "git" :: "log" :: _
  | "git" :: "diff" :: _ => true
  | _ => false
  end.

(** A program that leaves the repository as it is. *)
Definition reads {S A} (m : M S A) : Prop := forall s, (m s).2 = s.

Lemma bind_ret {S A B} (m : M S A) (k : A -> M S B) s y s' :
  bind m k s = (Ret y, s') -> exists x s1, m s = (Ret x, s1) /\ k x s1 = (Ret y, s').
Proof. unfold bind. destruct (m s) as [[x|e] s1]; [eauto|done]. Qed.

Lemma reads_ret {S A} (x : A) : reads (@ret S A x).
Proof. by intros s. Qed.

Lemma reads_bind {S A B} (m : M S A) (k : A -> M S B) : reads m -> (forall x, reads (k x)) -> reads (bind m k).
Proof. intros Hm Hk s. unfold bind. specialize (Hm s). destruct (m s) as [[x|e] s1]; cbn in Hm; subst; [apply Hk|done]. Qed.

Lemma reads_step {S A} (m : M S A) s x s1 : reads m -> m s = (x, s1) -> s1 = s.
Proof. intros H E. specialize (H s). by rewrite E in H. Qed.

Create HintDb fold_reads.
#[export] Hint Resolve reads_ret reads_bind : fold_reads.

(** Take the first step of a program that returned. *)
Ltac step H :=
  let x := fresh "x" in let s1 := fresh "s" in let E := fresh "E" in
  apply bind_ret in H as (x & s1 & E & H).

(** ... when it only reads. *)
Ltac look H lem := step H; match goal with E : _ = (Ret _, ?s1) |- _ => let F := fresh in pose proof E as F; apply reads_step in F; [subst s1|apply lem] end.

Section Laws.
Context {S : Type} (run : list string -> M S Result).
Hypothesis run_reads : forall argv, read_only argv = true -> reads (run argv).

Ltac solve_reads := repeat first [apply reads_ret | apply reads_bind; [|intros ?] | apply run_reads; reflexivity | case_match].

Lemma changed_paths_reads : reads (changed_paths run).
Proof. unfold changed_paths. solve_reads. Qed.
Lemma head_sha_reads : reads (head_sha run).
Proof. unfold head_sha. solve_reads. Qed.
Lemma is_on_base_reads sha b : reads (is_on_base run sha b).
Proof. unfold is_on_base. solve_reads. Qed.
Lemma first_resolved_reads l : reads (first_resolved run l).
Proof. induction l; cbn; solve_reads; done. Qed.
Lemma resolve_base_ref_reads b : reads (resolve_base_ref run b).
Proof. apply first_resolved_reads. Qed.
Lemma last_touched_reads r l : reads (last_touched run r l).
Proof. induction l; cbn; solve_reads; done. Qed.
Lemma confirm_target_reads h b t : reads (confirm_target run h b t).
Proof. unfold confirm_target. apply reads_bind; [apply is_on_base_reads|intros ?]. solve_reads. Qed.
Lemma resolve_fixup_target_reads b l : reads (resolve_fixup_target run b l).
Proof.
  unfold resolve_fixup_target. repeat first [apply head_sha_reads|apply resolve_base_ref_reads|apply is_on_base_reads
    |apply last_touched_reads|apply changed_paths_reads|apply confirm_target_reads|apply reads_ret|apply reads_bind; [|intros ?]|case_match].
Qed.
Lemma staged_paths_reads : reads (staged_paths run).
Proof. unfold staged_paths. solve_reads. Qed.
Lemma branch_subjects_reads b : reads (branch_subjects run b).
Proof. unfold branch_subjects. apply reads_bind; [apply resolve_base_ref_reads|intros ?]. solve_reads. Qed.
Lemma pending_reads b : reads (has_pending_autosquash_commits run b).
Proof. apply reads_bind; [apply branch_subjects_reads|intros ?; apply reads_ret]. Qed.
Lemma surviving_reads b : reads (surviving_marker_subjects run b).
Proof. apply reads_bind; [apply branch_subjects_reads|intros ?; apply reads_ret]. Qed.
Lemma marker_commits_reads b : reads (marker_commits run b).
Proof. unfold marker_commits. apply reads_bind; [apply resolve_base_ref_reads|intros ?]. solve_reads. Qed.
Lemma is_empty_commit_reads sha : reads (is_empty_commit run sha).
Proof. unfold is_empty_commit. solve_reads. Qed.
Lemma first_empty_reads l : reads (first_empty run l).
Proof. induction l; cbn; [apply reads_ret|]. apply reads_bind; [apply is_empty_commit_reads|intros []; [apply reads_ret|done]]. Qed.
Lemma merge_base_of_reads b : reads (merge_base_of run b).
Proof. unfold merge_base_of. solve_reads. Qed.

Lemma pending_none b s s1 : has_pending_autosquash_commits run b s = (Ret (Some false), s1) ->
  exists subjects, branch_subjects run b s1 = (Ret (Some subjects), s1) /\ Forall (fun x => is_marker x = false) subjects.
Proof.
  intros H. unfold has_pending_autosquash_commits in H. look H branch_subjects_reads.
  unfold ret in H. injection H as Hx <-. destruct x as [subjects|]; [|done]. exists subjects. split; [done|].
  injection Hx as Hx. apply Forall_forall. intros y Hy. destruct (is_marker y) eqn:Em; [|done].
  assert (existsb is_marker subjects = true); [|congruence]. apply existsb_exists. exists y. by rewrite <- list_elem_of_In.
Qed.

Lemma autosquash_true b s s1 : autosquash run b s = (Ret true, s1) ->
  exists merge_base r s0, run ["git"; "rebase"; "-i"; "--autosquash"; "--rebase-merges"; merge_base] s0 = (Ret r, s1) /\ success r = true.
Proof.
  unfold autosquash. intros H. step H. destruct x as [base_ref|]; [|done]. step H. destruct x as [mb|]; [|done]. step H.
  destruct (success x) eqn:Es.
  - injection H as <-. eauto.
  - step H. done.
Qed.

(** What the loop over stranded markers does to the repository: it drops commits that are
    markers of the branch and empty, one after the other, until a rebase fails and is
    taken back. *)
Inductive drops (b : string) : S -> S -> Prop :=
  | drops_none s : drops b s s
  | drops_one s s1 s2 markers sha r :
      marker_commits run b s = (Ret markers, s) -> sha ∈ markers -> is_empty_commit run sha s = (Ret true, s) ->
      run ["git"; "rebase"; "--no-autosquash"; "--onto"; sha ++ "^"; sha] s = (Ret r, s1) -> success r = true ->
      drops b s1 s2 -> drops b s s2
  | drops_failed s s1 s2 markers sha r r' :
      marker_commits run b s = (Ret markers, s) -> sha ∈ markers -> is_empty_commit run sha s = (Ret true, s) ->
      run ["git"; "rebase"; "--no-autosquash"; "--onto"; sha ++ "^"; sha] s = (Ret r, s1) -> success r = false ->
      run ["git"; "rebase"; "--abort"] s1 = (Ret r', s2) -> drops b s s2.

Lemma first_empty_spec markers s sha s1 : first_empty run markers s = (Ret (Some sha), s1) ->
  sha ∈ markers /\ is_empty_commit run sha s1 = (Ret true, s1).
Proof.
  revert s. induction markers as [|m l IH]; intros s H; cbn in H; [done|].
  look H is_empty_commit_reads. destruct x.
  - injection H as <- <-. split; [constructor|done].
  - apply IH in H as []. split; [by constructor|done].
Qed.

Lemma drop_markers_drops n b d s d' s' : drop_markers run n b d s = (Ret d', s') -> drops b s s' /\ (d' = d \/ d' = true).
Proof.
  revert d s. induction n as [|n IH]; intros d s H; cbn in H; [injection H as <- <-; split; [constructor|auto]|].
  look H marker_commits_reads. look H first_empty_reads. destruct x0 as [sha|]; [|injection H as <- <-; split; [constructor|auto]].
  match goal with F : first_empty _ _ _ = _ |- _ => apply first_empty_spec in F as [Hin Hempty] end.
  step H. destruct (success x0) eqn:Es; cbn [negb] in H.
  - apply IH in H as [Hd Ht]. split; [|destruct Ht; auto]. by eapply drops_one.
  - step H. injection H as <- <-. split; [|auto]. by eapply drops_failed.
Qed.

Lemma the_only_spec l c : the_only l = Some c -> Forall (eq c) l.
Proof.
  destruct l as [|x l]; [done|]. cbn. destruct (forallb (String.eqb x) l) eqn:E; [|done]. intros [= <-].
  constructor; [done|]. apply Forall_forall. intros y Hy. rewrite forallb_forall in E. by apply String.eqb_eq, E, list_elem_of_In.
Qed.

(** The commit of the branch that last touched a path. *)
Definition touched_last (range path sha : string) (s : S) : Prop :=
  exists r rest, run ["git"; "log"; "--format=%H"; range; "--"; path] s = (Ret r, s) /\ success r = true /\
    List.filter not_blank (text_lines (stdout r)) = sha :: rest.

Lemma last_touched_spec range paths s shas s1 :
  last_touched run range paths s = (Ret (Some shas), s1) -> Forall2 (fun p sha => touched_last range p sha s) paths shas.
Proof.
  revert shas s1. induction paths as [|p l IH]; intros shas s1 H; cbn in H; [injection H as <- _; constructor|].
  step H. pose proof (run_reads ["git"; "log"; "--format=%H"; range; "--"; p] eq_refl s) as Hr. rewrite E in Hr. cbn in Hr. subst s0.
  destruct (success x) eqn:Es; [|done]. destruct (List.filter _ _) as [|sha rest] eqn:El; [done|].
  step H. injection H as Hx <-. destruct x0 as [shas'|]; [|done]. injection Hx as <-.
  constructor; [by exists x, rest|by eapply IH].
Qed.

(** The guard lets a commit happen only when no staged name is suspicious; it changes nothing then. *)
Lemma scan_clean s scan s1 :
  unstage_suspicious_files run s = (Ret scan, s1) -> checked scan = true -> (unstaged scan ++ still_staged scan)%list = [] ->
  s1 = s /\ exists r, run ["git"; "diff"; "--cached"; "--name-only"] s = (Ret r, s) /\ success r = true /\
    Forall (fun f => is_suspicious f = false) (text_lines (PyStr.strip (stdout r))).
Proof.
  unfold unstage_suspicious_files. intros H Hc Hb. step H.
  pose proof (run_reads ["git"; "diff"; "--cached"; "--name-only"] eq_refl s) as Hr. rewrite E in Hr. cbn in Hr. subst s0.
  destruct (success x) eqn:Es; cbn [negb] in H; [|injection H as <- <-; done].
  remember (merge_sort _ _) as bad eqn:Ebad. destruct bad as [|b bad].
  - injection H as <- <-. split; [done|]. exists x. split; [done|]. split; [done|].
    apply Forall_forall. intros f Hf. destruct (is_suspicious f) eqn:Ef; [exfalso|done].
    assert (Hin : PyStr.strip f ∈ merge_sort (fun a b => Is_true (String.leb a b))
              (remove_dups (map PyStr.strip (List.filter is_suspicious (text_lines (PyStr.strip (stdout x))))))).
    { rewrite merge_sort_Permutation. apply elem_of_remove_dups, list_elem_of_fmap_2, list_elem_of_In, filter_In.
      split; [by apply list_elem_of_In|done]. }
    rewrite <- Ebad in Hin. by apply elem_of_nil in Hin.
  - step H. step H. exfalso. clear Ebad. destruct (success x1); cbn [negb] in H; injection H as <- _; cbn [unstaged still_staged] in Hb.
    + apply app_nil in Hb as [H1 H2]. cbn [List.filter] in H1, H2. by destruct (bool_decide (b ∈ _)).
    + done.
Qed.

End Laws.

(** *** The status of git *)

(** An entry of [git status -z]: two letters, a path, and the old path of a rename or copy. *)
Record StatusEntry := { index_letter : ascii; tree_letter : ascii; entry_path : string; old_path : option string }.

Definition letters (e : StatusEntry) : string := String (index_letter e) (String (tree_letter e) "").

Definition without_nul (s : string) : Prop := Forall (fun c => c <> nul) (PyStr.to_list s).

Record entry_ok (e : StatusEntry) : Prop := {
  ok_letters : without_nul (letters e);
  ok_path : without_nul (entry_path e) /\ entry_path e <> "";
  ok_old : forall o, old_path e = Some o -> without_nul o;
  ok_rename : (PyStr.contains (letters e) "R" || PyStr.contains (letters e) "C") = bool_decide (is_Some (old_path e));
}.

Definition entry_fields (e : StatusEntry) : list string :=
  (letters e ++ " " ++ entry_path e)%string :: match old_path e with Some o => [o] | None => [] end.

(** What git prints: every field with a NUL behind it. *)
Definition printed (fields : list string) : list ascii := List.concat (map (fun f => PyStr.to_list f ++ [nul])%list fields).

Lemma split_by_word (f : ascii -> bool) w c l :
  Forall (fun x => f x = false) w -> f c = true -> split_by f (w ++ c :: l) = w :: split_by f l.
Proof. intros Hw Hc. induction Hw as [|x w Hx Hw IH]; cbn; [by rewrite Hc|]. by rewrite Hx, IH. Qed.

Lemma fields_printed fields : Forall without_nul fields -> fields_of (PyStr.of_list (printed fields)) = (fields ++ [""])%list.
Proof.
  intros H. unfold fields_of. rewrite PyStr.to_of_list. induction H as [|w fields Hw H IH]; [done|].
  unfold printed in *. cbn [map List.concat]. rewrite <- app_assoc. cbn [app]. rewrite split_by_word; [|eapply Forall_impl; [exact Hw|]|done].
  - cbn [map app]. by rewrite PyStr.of_to_list, IH.
  - intros c Hc. cbn beta in *. destruct (Ascii.eqb_spec nul c); congruence.
Qed.

Lemma to_list_parts x y path : PyStr.to_list (String x (String y "") ++ " " ++ path) = (x :: y :: " "%char :: PyStr.to_list path)%list.
Proof. reflexivity. Qed.

Lemma paths_of_entry e rest : entry_ok e -> paths_of_fields (entry_fields e ++ rest) = entry_path e :: paths_of_fields rest.
Proof.
  intros [_ [_ Hp] _ Hr]. unfold entry_fields, letters in *. destruct e as [x y path old]. cbn [index_letter tree_letter entry_path old_path] in *.
  change (String x (String y "") ++ " " ++ path)%string with (String x (String y (String " " path))).
  assert (E2 : PyStr.slice_to 2 (String x (String y (String " " path))) = String x (String y "")) by done.
  assert (E3 : PyStr.drop_chars 3 (String x (String y (String " " path))) = path) by done.
  cbn [app paths_of_fields]. rewrite E2, E3.
  rewrite Hr, (proj2 (String.eqb_neq path "") Hp). by destruct old.
Qed.

(** *** Folding *)

Section Theorems.
Context {S : Type} (run : list string -> M S Result).
Hypothesis run_reads : forall argv, read_only argv = true -> reads (run argv).

Lemma fold_fix_ret b s x s' : fold_fix_into_branch run b s = (Ret x, s') ->
  fold run b s = (Ret x, s') \/ x = false /\ exists e, fold run b s = (Raise e, s').
Proof.
  unfold fold_fix_into_branch. destruct (fold run b s) as [[y|e] s1]; [by left|]. intros H. right.
  destruct e; try discriminate H; injection H as <- <-; eauto.
Qed.

(** The second half of [_fold], once something is to be squashed. *)
Lemma fold_spec b s x s' pre s1 :
  fold_uncommitted_changes run b s = (Ret pre, s1) -> fold run b s = (Ret x, s') ->
  (x = true -> has_pending_autosquash_commits run b s' = (Ret (Some false), s') /\
     exists merge_base r s2 s3, run ["git"; "rebase"; "-i"; "--autosquash"; "--rebase-merges"; merge_base] s2 = (Ret r, s3) /\
       success r = true /\ drops run b s3 s') /\
  (x = false ->
     match pre with
     | Some head => exists r s2, run ["git"; "reset"; "--soft"; head] s2 = (Ret r, s')
     | None => has_pending_autosquash_commits run b s1 = (Ret (Some false), s1) /\ s' = s1 \/
               exists squashed s2, autosquash run b s1 = (Ret squashed, s2) /\ drops run b s2 s'
     end).
Proof.
  intros Hpre H. unfold fold in H. apply bind_ret in H as (pre' & s1' & E & H). rewrite Hpre in E. injection E as <- <-.
  look H (pending_reads run run_reads). rename x0 into pending.
  destruct (bool_decide (pre = None) && bool_decide (pending = Some false)) eqn:Eq.
  { injection H as <- <-. split; [done|]. intros _. apply andb_true_iff in Eq as [->%bool_decide_eq_true ->%bool_decide_eq_true]. auto. }
  step H. rename x0 into squashed. look H (pending_reads run run_reads). rename x0 into after.
  destruct (squashed && bool_decide (after = Some false)) eqn:Eq2.
  { injection H as <- <-. apply andb_true_iff in Eq2 as [-> ->%bool_decide_eq_true]. split; [|done]. intros _. split; [done|].
    match goal with A : autosquash _ _ _ = _ |- _ => apply autosquash_true in A as (mb & r & s2 & Hr & Hs) end.
    exists mb, r, s2. eexists. split; [exact Hr|]. split; [done|constructor]. }
  step H. rename x0 into dropped.
  match goal with D : drop_stranded_empty_markers _ _ _ = _ |- _ => apply (drop_markers_drops run run_reads) in D as [Hdrops _] end.
  step H. rename x0 into after'.
  match goal with D : (if dropped then _ else _) ?sa = (_, ?sb) |- _ => rename D into Ed; rename sa into s4; rename sb into s5 end.
  assert (s5 = s4 /\ (dropped = true /\ has_pending_autosquash_commits run b s4 = (Ret after', s4) \/ after' = after)) as [-> Hafter].
  { destruct dropped; [|injection Ed as -> ->; auto].
    pose proof (reads_step _ _ _ _ (pending_reads run run_reads b) Ed) as ->. auto. }
  destruct (squashed && bool_decide (after' = Some false) && negb (bool_decide (pre = None))) eqn:Eq3.
  { injection H as <- <-. apply andb_true_iff in Eq3 as [[-> ->%bool_decide_eq_true]%andb_true_iff _]. split; [|done]. intros _.
    destruct Hafter as [[_ Hafter]|<-]; [|done]. split; [done|].
    match goal with A : autosquash _ _ _ = _ |- _ => apply autosquash_true in A as (mb & r & s2 & Hr & Hs) end.
    exists mb, r, s2. eexists. split; [exact Hr|]. by split. }
  destruct (bool_decide (after' = Some false) && bool_decide (pre = None)) eqn:Eq4.
  { injection H as <- <-. split; [done|]. intros _. apply andb_true_iff in Eq4 as [_ ->%bool_decide_eq_true]. right. eauto. }
  unfold unwind in H. destruct pre as [head|].
  - step H. injection H as <- <-. split; [done|]. intros _. eauto.
  - look H (surviving_reads run run_reads). injection H as <- <-. split; [done|]. intros _. right. eauto.
Qed.

(** C34: A fold that succeeds leaves a branch whose commits git lists without a marker among
    them, after a rebase that squashed the markers and, at most, the removal of markers
    that carry nothing. *)
Theorem fold_success_clean b s s' :
  fold_fix_into_branch run b s = (Ret true, s') ->
  (exists subjects, branch_subjects run b s' = (Ret (Some subjects), s') /\ Forall (fun x => is_marker x = false) subjects) /\
  exists merge_base r s2 s3, run ["git"; "rebase"; "-i"; "--autosquash"; "--rebase-merges"; merge_base] s2 = (Ret r, s3) /\
    success r = true /\ drops run b s3 s'.
Proof.
  intros H. apply fold_fix_ret in H as [H|[? _]]; [|done]. pose proof H as H'. unfold fold in H'.
  apply bind_ret in H' as (pre & s1 & E & _). destruct (fold_spec _ _ _ _ _ _ E H) as [Ht _].
  destruct (Ht eq_refl) as [Hp Hr]. split; [by eapply pending_none|done].
Qed.

(** A fold that made a fixup commit and does not succeed ends with the reset to the commit
    before it, so the repair is a staged change again; one that made none changes at most
    what the squashing of markers that were there, and the removal of empty ones, change.
    Only an exception of [run] leaves the branch in between. *)
Theorem failed_fold_unwinds b s s' pre s1 :
  fold_uncommitted_changes run b s = (Ret pre, s1) ->
  fold_fix_into_branch run b s = (Ret false, s') ->
  (exists e, fold run b s = (Raise e, s')) \/
  match pre with
  | Some head => exists r s2, run ["git"; "reset"; "--soft"; head] s2 = (Ret r, s')
  | None => has_pending_autosquash_commits run b s1 = (Ret (Some false), s1) /\ s' = s1 \/
            exists squashed s2, autosquash run b s1 = (Ret squashed, s2) /\ drops run b s2 s'
  end.
Proof.
  intros Hpre H. apply fold_fix_ret in H as [H|[_ H]]; [|by left]. right. by eapply fold_spec.
Qed.

(** The target of a fixup is no commit of the base: it is the head, when the base cannot be
    resolved or the paths do not agree on one commit, and otherwise the commit of the branch
    that last touched every path, with a subject that no other commit of the branch has;
    there is none when the head is unknown or is itself on the base. *)
Theorem fixup_target_exact b paths s t s' :
  paths <> [] -> resolve_fixup_target run b (Some paths) s = (Ret t, s') ->
  s' = s /\
  match t with
  | None => head_sha run s = (Ret None, s) \/
            exists head base, head_sha run s = (Ret (Some head), s) /\ resolve_base_ref run b s = (Ret (Some base), s) /\
              is_on_base run head base s = (Ret true, s)
  | Some target =>
      exists head, head_sha run s = (Ret (Some head), s) /\
        (resolve_base_ref run b s = (Ret None, s) /\ target = head \/
         exists base, resolve_base_ref run b s = (Ret (Some base), s) /\ is_on_base run target base s = (Ret false, s) /\
           (target = head \/
            Forall (fun p => touched_last run (base ++ "..HEAD") p target s) paths /\
            forall r r', run ["git"; "log"; "--format=%s"; base ++ "..HEAD"] s = (Ret r, s) -> success r = true ->
              run ["git"; "log"; "--format=%s"; "-1"; target] s = (Ret r', s) -> success r' = true ->
              (occurrences (PyStr.strip (stdout r')) (text_lines (stdout r)) <= 1)%nat))
  end.
Proof.
  intros Hne H. split; [by eapply reads_step, H; apply resolve_fixup_target_reads|].
  unfold resolve_fixup_target in H. look H (head_sha_reads run run_reads). destruct x as [head|]; [|injection H as <- _; by left].
  look H (resolve_base_ref_reads run run_reads). destruct x as [base|].
  2:{ injection H as <- _. exists head. split; [done|]. by left. }
  look H (is_on_base_reads run run_reads). destruct x; [injection H as <- _; right; by exists head, base|].
  assert (Hhead : exists head0, head_sha run s = (Ret (Some head0), s) /\
     (resolve_base_ref run b s = (Ret None, s) /\ head = head0 \/
      exists base0, resolve_base_ref run b s = (Ret (Some base0), s) /\ is_on_base run head base0 s = (Ret false, s) /\ head = head0)).
  { exists head. split; [done|]. right. by exists base. }
  step H. injection E2 as <- <-. destruct paths as [|p paths]; [done|]. set (all := p :: paths) in *.
  look H (last_touched_reads run run_reads). destruct (x ≫= the_only) as [target|] eqn:Eo.
  2:{ injection H as <- _. exists head. split; [done|]. right. exists base. auto. }
  destruct x as [shas|]; [|done]. cbn in Eo. apply the_only_spec in Eo.
  match goal with L : last_touched _ _ _ _ = _ |- _ => apply (last_touched_spec run run_reads) in L as Hl end.
  assert (Hall : Forall (fun p => touched_last run (base ++ "..HEAD") p target s) all).
  { clear -Hl Eo. induction Hl as [|q sha l l' Hq Hl IH]; [constructor|]. inversion Eo; subst. constructor; auto. }
  unfold confirm_target in H. look H (is_on_base_reads run run_reads). destruct x; [injection H as <- _; exists head; split; [done|]; right; exists base; auto|].
  step H. pose proof (run_reads ["git"; "log"; "--format=%s"; base ++ "..HEAD"] eq_refl s) as Hr.
  match goal with R : run ["git"; "log"; "--format=%s"; _] _ = _ |- _ => rewrite R in Hr; cbn in Hr; subst; rename R into Esub end.
  destruct (success x) eqn:Es.
  - step H. pose proof (run_reads ["git"; "log"; "--format=%s"; "-1"; target] eq_refl s) as Hr.
    match goal with R : run ["git"; "log"; "--format=%s"; "-1"; _] _ = _ |- _ => rewrite R in Hr; cbn in Hr; subst; rename R into Et end.
    destruct (success x0 && _) eqn:Eu; injection H as <- _; exists head; (split; [done|]); right; exists base; (split; [done|]); [auto|].
    split; [done|]. right. split; [done|]. intros r r' R1 S1 R2 S2. rewrite Esub in R1. rewrite Et in R2.
    injection R1 as <-. injection R2 as <-. rewrite S2 in Eu. cbn [andb] in Eu. by apply Nat.ltb_ge in Eu.
  - injection H as <- _. exists head. split; [done|]. right. exists base. split; [done|]. split; [done|]. right. split; [done|].
    intros r r' R1 S1. rewrite Esub in R1. injection R1 as <-. congruence.
Qed.

(** A fixup commit is made only of paths that are no artifacts of the agent, for the target
    that is resolved for them, and when git lists no staged name that is suspicious. *)
Theorem fixup_commit_guarded b s head s' :
  fold_uncommitted_changes run b s = (Ret (Some head), s') ->
  exists all changed target added s2 committed staged,
    changed_paths run s = (Ret all, s) /\ changed = List.filter (fun p => negb (is_agent_artifact p)) all /\ changed <> [] /\
    resolve_fixup_target run b (Some changed) s = (Ret (Some target), s) /\ head_sha run s = (Ret (Some head), s) /\
    run (["git"; "add"; "--"] ++ changed)%list s = (Ret added, s2) /\ success added = true /\
    run ["git"; "diff"; "--cached"; "--name-only"] s2 = (Ret staged, s2) /\ success staged = true /\
    Forall (fun f => is_suspicious f = false) (text_lines (PyStr.strip (stdout staged))) /\
    run ["git"; "commit"; "--no-verify"; "--fixup"; target] s2 = (Ret committed, s') /\ success committed = true.
Proof.
  intros H. unfold fold_uncommitted_changes in H. look H (changed_paths_reads run run_reads). rename x into all.
  destruct (List.filter _ all) as [|p changed] eqn:Ef; [done|]. set (ch := p :: changed) in *.
  look H (resolve_fixup_target_reads run run_reads). destruct x as [target|]; [|done].
  look H (head_sha_reads run run_reads). destruct x as [h|]; [|done].
  look H (staged_paths_reads run run_reads). step H. destruct (success x0) eqn:Ea; cbn [negb] in H; [|done].
  step H. destruct (negb (checked x1) || negb (bool_decide ((unstaged x1 ++ still_staged x1)%list = []))) eqn:Eb; [step H; done|].
  apply orb_false_iff in Eb as [Hc%negb_false_iff Hb%negb_false_iff%bool_decide_eq_true].
  match goal with U : unstage_suspicious_files _ _ = _ |- _ => apply (scan_clean run run_reads) in U as (-> & staged & Hst & Hok & Hclean); [|done..] end.
  step H. destruct (success x2) eqn:Ec; cbn [negb] in H; [|step H; done]. injection H as <- <-.
  exists all, ch, target, x0. do 3 eexists. repeat (split; [first [done|eassumption]|]). done.
Qed.

End Theorems.

(** The paths that are read from the status are the paths of its entries, in their order. *)
Theorem status_paths_exact entries :
  Forall entry_ok entries ->
  paths_of_fields (fields_of (PyStr.of_list (printed (List.concat (map entry_fields entries))))) = map entry_path entries.
Proof.
  intros H. rewrite fields_printed.
  - induction H as [|e l He H IH]; [done|]. cbn [map List.concat]. rewrite <- app_assoc, paths_of_entry by done. by rewrite IH.
  - induction H as [|e l He H IH]; [constructor|]. cbn [map List.concat]. apply Forall_app. split; [|done].
    destruct He as [Hl [Hp _] Ho _]. unfold entry_fields, without_nul, letters in *. constructor.
    + rewrite to_list_parts. inversion Hl as [|? ? ? Hl']; subst. inversion Hl'; subst. repeat constructor; try done.
    + destruct (old_path e); [|constructor]. repeat constructor. by apply Ho.
Qed.

Module Examples.

(** A small repository: the commits of the branch, newest first, with the paths they
    touch, the changed paths and the staged ones. *)
Record Commit := { c_sha : string; c_subject : string; c_paths : list string }.
Record Repository := { commits : list Commit; dirty : list string; staged : list string }.

Definition ok (out : list string) : Result := {| returncode := 0; stdout := PyStr.join (PyStr.of_list ["010"%char]) out |}.
Definition failed (code : Z) : Result := {| returncode := code; stdout := "" |}.
Definition with_sha (sha : string) (s : Repository) : list Commit := List.filter (fun c => String.eqb (c_sha c) sha) (commits s).
Definition head_of (s : Repository) : string := match commits s with c :: _ => c_sha c | [] => "base" end.

Definition answer (argv : list string) (s : Repository) : Result :=
  match argv with
  | ["git"; "rev-parse"; "HEAD"] => ok [head_of s]
  | ["git"; "rev-parse"; _; _; ref] => if String.eqb ref "origin/main" then ok ["base"] else failed 128
  | ["git"; "merge-base"; "--is-ancestor"; sha; _] => if String.eqb sha "base" then ok [] else failed 1
  | ["git"; "merge-base"; _; _] => ok ["base"]
  | ["git"; "log"; "--format=%H"; _; "--"; path] => ok (map c_sha (List.filter (fun c => bool_decide (path ∈ c_paths c)) (commits s)))
  | ["git"; "log"; "--format=%s"; _; sha] => ok (map c_subject (with_sha sha s))
  | ["git"; "log"; "--format=%s"; _] => ok (map c_subject (commits s))
  | ["git"; "log"; _; _] => ok (map (fun c => c_sha c ++ " " ++ c_subject c) (commits s))
  | ["git"; "diff"; "--cached"; _] => ok (staged s)
  | ["git"; "diff"; "--quiet"; _; sha] => if forallb (fun c => bool_decide (c_paths c = [])) (with_sha sha s) then ok [] else failed 1
  | "git" :: "-c" :: _ => {| returncode := 0; stdout := PyStr.of_list (printed (map (fun p => " M " ++ p) (dirty s))) |}
  | _ => failed 1
  end.

(** The markers whose subject names another commit disappear. *)
Definition squash (l : list Commit) : list Commit :=
  List.filter (fun c => negb (existsb (fun d => String.eqb (c_subject c) ("fixup! " ++ c_subject d)) l)) l.

Fixpoint above (head : string) (l : list Commit) : list Commit :=
  match l with [] => [] | c :: l => if String.eqb (c_sha c) head then c :: l else above head l end.

Definition act (argv : list string) (s : Repository) : Result * Repository :=
  match argv with
  | "git" :: "add" :: "--" :: paths => (ok [], {| commits := commits s; dirty := dirty s; staged := paths |})
  | ["git"; "commit"; _; _; target] =>
      (ok [], {| commits := {| c_sha := "f" ++ target; c_subject := "fixup! " ++ PyStr.join "" (map c_subject (with_sha target s));
                               c_paths := staged s |} :: commits s; dirty := []; staged := [] |})
  | "git" :: "rebase" :: "-i" :: _ => (ok [], {| commits := squash (commits s); dirty := dirty s; staged := staged s |})
  | ["git"; "rebase"; _; _; _; sha] =>
      (ok [], {| commits := List.filter (fun c => negb (String.eqb (c_sha c) sha)) (commits s); dirty := dirty s; staged := staged s |})
  | ["git"; "reset"; "--soft"; head] => (ok [], {| commits := above head (commits s); dirty := dirty s; staged := List.concat (map c_paths (take 1 (commits s))) |})
  | ["git"; "reset"] => (ok [], {| commits := commits s; dirty := dirty s; staged := [] |})
  | _ => (failed 1, s)
  end.

Definition git (argv : list string) : M Repository Result := fun s =>
  if read_only argv then (Ret (answer argv s), s) else let '(r, s) := act argv s in (Ret r, s).

Lemma git_reads argv : read_only argv = true -> reads (git argv).
Proof. intros H s. unfold git. by rewrite H. Qed.

Definition feature : Repository :=
  {| commits := [{| c_sha := "c2"; c_subject := "fix: b"; c_paths := ["b.py"] |}; {| c_sha := "c1"; c_subject := "feat: a"; c_paths := ["a.py"] |}];
     dirty := ["a.py"; ".sova/log"]; staged := [] |}.

(** The repair of [a.py] joins the commit of [a.py]; an empty marker of nothing is dropped. *)
Example folds :
  let r := fold_fix_into_branch git "main" feature in
  (r.1, map c_sha (commits r.2)) = (Ret true, ["c2"; "c1"]).
Proof. vm_compute. reflexivity. Qed.

Definition stray : Repository :=
  {| commits := {| c_sha := "c3"; c_subject := "squash! gone"; c_paths := [] |} :: commits feature; dirty := ["a.py"]; staged := [] |}.

Example stray_dropped :
  let r := fold_fix_into_branch git "main" stray in (r.1, map c_sha (commits r.2)) = (Ret true, ["c2"; "c1"]).
Proof. vm_compute. reflexivity. Qed.

(** A marker with content that has no target stays, and the repair is staged again. *)
Definition stranded : Repository :=
  {| commits := {| c_sha := "c3"; c_subject := "squash! gone"; c_paths := ["c.py"] |} :: commits feature; dirty := ["a.py"]; staged := [] |}.

(** The target of the repair is the commit of the path, not the head. *)
Example target_of_path : (resolve_fixup_target git "main" (Some ["a.py"]) feature).1 = Ret (Some "c1").
Proof. vm_compute. reflexivity. Qed.

(** Git quotes a path with a letter beyond ASCII or a tab unless it is asked not to: the last part of the
    quoted path keeps the closing quote, and no part is suspicious. *)
Definition quoted : string := PyStr.of_list ["034"%char] ++ "caf\303\251/.env" ++ PyStr.of_list ["034"%char].

Example quoted_hides : is_suspicious "cafe/.env" = true /\ is_suspicious quoted = false.
Proof. vm_compute. done. Qed.

(** An exception of [run] in the rebase leaves the marker on the branch. *)
Definition broken (argv : list string) : M Repository Result := fun s =>
  match argv with "git" :: "rebase" :: _ => (Raise (OSError "fork"), s) | _ => git argv s end.

Example exception_keeps_marker :
  let r := fold_fix_into_branch broken "main" feature in
  (r.1, map c_subject (commits r.2)) = (Ret false, ["fixup! feat: a"; "fix: b"; "feat: a"]) /\
  (has_unresolved_marker_commits broken "main" r.2).1 = Ret true.
Proof. vm_compute. done. Qed.

Lemma fold_success_clean_witness :
  exists subjects, (branch_subjects git "main" (fold_fix_into_branch git "main" feature).2).1 = Ret (Some subjects) /\
    Forall (fun x => is_marker x = false) subjects.
Proof.
  destruct (fold_success_clean git git_reads "main" feature (fold_fix_into_branch git "main" feature).2) as [(subjects & H & Hm) _].
  - vm_compute. reflexivity.
  - exists subjects. split; [by rewrite H|exact Hm].
Defined.

Lemma failed_fold_unwinds_witness :
  (exists e, (fold git "main" stranded).1 = Raise e) \/
  exists r s2, git ["git"; "reset"; "--soft"; "c3"] s2 = (Ret r, (fold_fix_into_branch git "main" stranded).2).
Proof.
  destruct (failed_fold_unwinds git git_reads "main" stranded (fold_fix_into_branch git "main" stranded).2 (Some "c3")
              (fold_uncommitted_changes git "main" stranded).2) as [[e H]|H].
  - vm_compute. reflexivity.
  - vm_compute. reflexivity.
  - left. exists e. by rewrite H.
  - right. exact H.
Defined.

Lemma fixup_target_exact_witness : (resolve_fixup_target git "main" (Some ["a.py"]) feature).2 = feature.
Proof.
  apply (fixup_target_exact git git_reads "main" ["a.py"] feature (Some "c1") (resolve_fixup_target git "main" (Some ["a.py"]) feature).2).
  - discriminate.
  - vm_compute. reflexivity.
Defined.

Lemma fixup_commit_guarded_witness : exists all, (changed_paths git feature).1 = Ret all.
Proof.
  destruct (fixup_commit_guarded git git_reads "main" feature "c2" (fold_uncommitted_changes git "main" feature).2) as (all & H).
  - vm_compute. reflexivity.
  - destruct H as (? & ? & ? & ? & ? & ? & H & _). exists all. by rewrite H.
Defined.

Definition entries : list StatusEntry :=
  [{| index_letter := "R"; tree_letter := " "; entry_path := "new name.py"; old_path := Some "old.py" |};
   {| index_letter := "?"; tree_letter := "?"; entry_path := "x"; old_path := None |}].

Lemma status_paths_exact_witness :
  paths_of_fields (fields_of (PyStr.of_list (printed (List.concat (map entry_fields entries))))) = ["new name.py"; "x"].
Proof.
  apply (status_paths_exact entries). repeat constructor; cbn; try discriminate; intros o [= <-]; repeat constructor; discriminate.
Defined.

End Examples.
