(* ===== verification/Validate.v ===== *)
(** * Validate: the pre-push hook and the loop that repairs what it refuses

    core/steps/validate.py, with llm/payload.py (the trimming of the hook's output) and the
    comparison of core/test_baseline.py. Git, the hook and the model are arguments over a
    state of the worktree, as in [CommitFold], whose folding the loop uses; the text of the
    prompt is left out. *)

From stdpp Require Import base list strings pretty gmap.
From Stdlib Require Import Ascii.
From S2P Require Import Prelude Context Workflow Review DiffGuard CiMonitor CommitFold.

Local Open Scope string_scope.
Local Open Scope fold_scope.

(** ** Payloads *)

Definition newline : string := PyStr.of_list ["010"%char].

(** [TRUNCATION_MARKER], [KeepDirection] *)
Definition TRUNCATION_MARKER : string := "...(truncated)".
Inductive Keep := Tail | Head.

Definition mark (keep : Keep) : string :=
  match keep with Tail => TRUNCATION_MARKER ++ newline | Head => newline ++ TRUNCATION_MARKER end.

(** The payload without its marker, and with one. *)
Definition unmarked (keep : Keep) (text : string) : string :=
  match keep with
  | Tail => PyStr.removeprefix text (mark Tail)
  | Head => if PyStr.endswith text (mark Head) then PyStr.slice_to (String.length text - String.length (mark Head)) text else text
  end.
Definition marked (keep : Keep) (kept : string) : string :=
  match keep with Tail => mark Tail ++ kept | Head => kept ++ mark Head end.

(** [trim_payload] *)
Definition trim_payload (text : string) (limit : Z) (keep : Keep) : string :=
  let body := unmarked keep text in
  let limit := Z.to_nat (Z.max limit 0) in
  if (String.length body <=? limit)%nat then text
  else marked keep (match keep with
                    | Tail => PyStr.of_list (drop (String.length body - limit) (PyStr.to_list body))
                    | Head => PyStr.slice_to limit body
                    end).

(** [_HOOK_OUTPUT_LIMIT], [_truncate_hook_output] *)
Definition HOOK_OUTPUT_LIMIT : Z := 8000.
Definition truncate_hook_output (output : string) : string := trim_payload output HOOK_OUTPUT_LIMIT Tail.

(** ** The baseline of the tests *)

(** [SingleTestOutcome], [BaselineSnapshot], [RegressionReport] *)
Record SingleTestOutcome := { nodeid : string; test_outcome : string }.
Record BaselineSnapshot := { mode : string; exit_code : Z; tests : list SingleTestOutcome }.
Record RegressionReport := { regressions : list SingleTestOutcome; fixed : list SingleTestOutcome; new_failures : list SingleTestOutcome }.

(** [{t.nodeid: t for t in tests}]: the last outcome of a test, at the place of its first. *)
Definition by_id (tests : list SingleTestOutcome) (id : string) : option SingleTestOutcome :=
  last (List.filter (fun t => String.eqb (nodeid t) id) tests).
Definition values (tests : list SingleTestOutcome) : list SingleTestOutcome :=
  omap (by_id tests) (rev (remove_dups (rev (map nodeid tests)))).

Definition broke (t : SingleTestOutcome) : bool := bool_decide (test_outcome t ∈ ["failed"; "error"]).
Definition passes (t : SingleTestOutcome) : bool := String.eqb (test_outcome t) "passed".

(** [diff_results] *)
Definition diff_results (baseline current : BaselineSnapshot) : RegressionReport :=
  if negb (String.eqb (mode baseline) "per_test") || negb (String.eqb (mode current) "per_test")
  then {| regressions := []; fixed := []; new_failures := [] |}
  else
    let base id := by_id (tests baseline) id in
    let now := values (tests current) in
    {| regressions := List.filter (fun cur => match base (nodeid cur) with Some b => passes b && broke cur | None => false end) now;
       fixed := List.filter (fun cur => match base (nodeid cur) with Some b => broke b && passes cur | None => false end) now;
       new_failures := List.filter (fun cur => match base (nodeid cur) with Some _ => false | None => broke cur end) now |}.

(** [_check_regressions]; the baseline is [None] when none was captured or it cannot be read. *)
Definition check_regressions (baseline : option BaselineSnapshot) (test_cmd : string) (suite : outcome BaselineSnapshot)
    : option GateCheckResult :=
  match baseline with
  | None => None
  | Some baseline =>
      if String.eqb (PyStr.strip test_cmd) "" then None
      else match suite with
           | Raise _ => None
           | Ret current =>
               let report := diff_results baseline current in
               match regressions report with
               | [] => None
               | names =>
                   let part n text := match n with O => [] | _ => [nat_text n ++ text] end in
                   let summary := PyStr.join ", " (part (length names) " regression(s)" ++ part (length (fixed report)) " fixed"
                                                   ++ part (length (new_failures report)) " new failure(s)")%list in
                   Some {| gc_passed := false;
                           gc_reason := Some ("Test regressions detected: " ++ summary ++ ". First: "
                                              ++ PyStr.join ", " (take 3 (map nodeid (take 10 names)))) |}
               end
           end
  end.

(** [verify_output] *)
Definition verify_output (baseline : option BaselineSnapshot) (test_cmd : string) (suite : outcome BaselineSnapshot) : GateCheckResult :=
  default {| gc_passed := true; gc_reason := None |} (check_regressions baseline test_cmd suite).

(** ** The step *)

(** A run of the hook. *)
Record HookRun := { h_exit : Z; h_timed_out : bool; h_stdout : string; h_stderr : string }.
Definition h_success (r : HookRun) : bool := Z.eqb (h_exit r) 0.
Definition output_of (r : HookRun) : string := PyStr.strip (h_stdout r ++ newline ++ h_stderr r).

(** What the model answers: its cost, or a failure that [dispatch_prompt] raises. *)
Inductive Answer := Cost (cost_usd : Z) | LlmError (timed_out : bool) (message : string).

Record Config := {
  hook_timeout : string;
  max_fix_attempts : nat;
  max_budget : Z;
  branch_name : string;
  base_branch : string;
}.

(** The result of the step, what has been spent by then, and whether the loop of repairs ran. *)
Record Executed := { x_result : StepResult; x_spent : Z; x_loop_ran : bool }.

Definition ZERO_SHA : string := PyStr.of_list (repeat "0"%char 40).

Section Validate.
Context {S : Type} (run : list string -> M S Result).
Context (exists_path : string -> S -> bool).                   (* [Path.exists] *)
Context (run_hook : string -> string -> M S HookRun).          (* the hook, and what it reads *)
Context (dispatch : nat -> string -> Z -> M S Answer).         (* the attempt, the output, the budget *)
Context (low_resources : nat -> S -> option string).           (* what remains, when it is below the threshold *)

Definition raise {A} (e : exn) : M S A := fun s => (Raise e, s).

(** [run_checked] *)
Definition run_checked (argv : list string) : M S Result :=
  do! r := run argv in if success r then ret r else raise (RuntimeError ("Command failed: " ++ PyStr.join " " argv)).

(** [get_current_branch] *)
Definition get_current_branch : M S string :=
  do! r := run ["git"; "rev-parse"; "--abbrev-ref"; "HEAD"] in
  if success r then ret (PyStr.strip (stdout r)) else raise (RuntimeError "Failed to get current branch").

(** [build_pre_push_stdin] *)
Definition build_pre_push_stdin (branch : string) : M S string :=
  do! branch := if String.eqb branch "" then get_current_branch else ret branch in
  let ref := "refs/heads/" ++ branch in
  do! head := run_checked ["git"; "rev-parse"; "HEAD"] in
  do! upstream := run ["git"; "rev-parse"; "--verify"; "--quiet"; "origin/" ++ branch] in
  let remote_sha := if success upstream then PyStr.strip (stdout upstream) else ZERO_SHA in
  ret (ref ++ " " ++ PyStr.strip (stdout head) ++ " " ++ ref ++ " " ++ remote_sha ++ newline).

(** [find_pre_push_hook] *)
Definition hooks_dir : M S (option string) :=
  do! configured := run ["git"; "config"; "--get"; "core.hooksPath"] in
  if success configured && not_blank (stdout configured) then ret (Some (PyStr.strip (stdout configured)))
  else
    do! toplevel := run ["git"; "rev-parse"; "--show-toplevel"] in
    if negb (success toplevel) then ret None
    else
      do! there := fun s => (Ret (exists_path (PyStr.strip (stdout toplevel) ++ "/.githooks/pre-push") s), s) in
      if (there : bool) then
        do! _ := run ["git"; "config"; "core.hooksPath"; ".githooks"] in ret (Some ".githooks")
      else
        do! git_dir := run ["git"; "rev-parse"; "--git-dir"] in
        ret (if success git_dir then Some (PyStr.strip (stdout git_dir) ++ "/hooks") else None).

Definition find_pre_push_hook : M S (option string) :=
  do! dir := hooks_dir in
  match dir with
  | None => ret None
  | Some dir =>
      let hook_path := dir ++ "/pre-push" in
      do! test_result := run ["test"; "-x"; hook_path] in
      ret (if success test_result then Some hook_path else None)
  end.

(** [_unwind_ordinary_commits] *)
Definition unwind_ordinary_commits (pre_dispatch_head : Result) (base_branch : string) : M S unit :=
  if negb (success pre_dispatch_head) then ret tt
  else
    let pre_sha := PyStr.strip (stdout pre_dispatch_head) in
    do! post := run ["git"; "rev-parse"; "HEAD"] in
    if negb (success post) || String.eqb (PyStr.strip (stdout post)) pre_sha then ret tt
    else
      do! ancestry := run ["git"; "merge-base"; "--is-ancestor"; pre_sha; "HEAD"] in
      if negb (success ancestry) then
        do! b := resolve_base_ref run base_branch in
        match b with
        | None => ret tt
        | Some base_ref => do! _ := is_on_base run (PyStr.strip (stdout post)) base_ref in ret tt
        end
      else
        do! subjects := run ["git"; "log"; "--format=%s"; pre_sha ++ "..HEAD"] in
        if negb (success subjects) then ret tt
        else if existsb is_marker (text_lines (stdout subjects)) then ret tt
        else do! _ := run ["git"; "reset"; "--soft"; pre_sha] in ret tt.

(** A line of the status that is not an untracked artifact. *)
Definition dirty_line (line : string) : bool :=
  negb (String.eqb line "") && negb (PyStr.startswith line "??" && is_agent_artifact (PyStr.drop_chars 3 line)).

Definition status_argv : list string := ["git"; "status"; "--porcelain"; "--untracked-files=all"].

(** [_worktree_is_dirty] *)
Definition worktree_is_dirty : M S bool := fun s =>
  match run status_argv s with
  | (Ret status, s) => (Ret (success status && existsb dirty_line (text_lines (stdout status))), s)
  | (Raise (OSError _ | TimeoutError), s) => (Ret false, s)
  | (Raise e, s) => (Raise e, s)
  end.

Definition ended (r : StepResult) (total spent : Z) (loop_ran : bool) : M S Executed :=
  ret {| x_result := costing total r; x_spent := spent; x_loop_ran := loop_ran |}.

Definition timed_out_result (cfg : Config) : StepResult :=
  failed_result ("Pre-push hook exceeded " ++ hook_timeout cfg ++ "s and was killed") "hook_timeout".

(** The loop of repairs from attempt [attempt] on, with [more] attempts left. *)
Fixpoint fix_loop (cfg : Config) (hook : string) (more attempt : nat) (hook_output : string) (total spent : Z) : M S Executed :=
  match more with
  | O => ended (failed_result ("Pre-push hook still failing after " ++ nat_text (max_fix_attempts cfg) ++ " fix attempts")
                  (PyStr.slice_to 1000 hook_output)) total spent (negb (attempt =? 1)%nat)
  | Datatypes.S more =>
      if Z.ltb (max_budget cfg) spent then
        ended (failed_result ("Pre-push hook failed; budget exceeded after " ++ nat_text (attempt - 1) ++ " fix attempt(s)") "budget_exceeded")
          total spent true
      else
        do! low := fun s => (Ret (low_resources attempt s), s) in
        match low with
        | Some fraction =>
            ended (passed_result ("Pre-push hook failed; stopping fix retries at " ++ fraction ++ " budget remaining ("
                                  ++ nat_text (attempt - 1) ++ " attempt(s) made)")) total spent true
        | None =>
            do! pre_dispatch_head := run ["git"; "rev-parse"; "HEAD"] in
            do! answer := dispatch attempt (truncate_hook_output hook_output) (max_budget cfg - spent) in
            match answer with
            | LlmError timed_out message =>
                ended (failed_result ("Pre-push hook failed and auto-fix failed: " ++ message) (format_fix_llm_failure timed_out message attempt))
                  total spent true
            | Cost cost =>
                let total := (total + cost)%Z in
                let spent := (spent + cost)%Z in
                do! _ := unwind_ordinary_commits pre_dispatch_head (base_branch cfg) in
                do! folded := fold_fix_into_branch run (base_branch cfg) in
                do! stranded := if (folded : bool) then ret false else has_unresolved_marker_commits run (base_branch cfg) in
                if (stranded : bool) then
                  ended (failed_result ("Pre-push hook fix could not be folded after " ++ nat_text attempt
                                        ++ " attempt(s): a fixup/squash/amend marker commit remains on the branch")
                           "marker_commit_stranded") total spent true
                else
                  do! stdin := build_pre_push_stdin (branch_name cfg) in
                  do! retry := run_hook hook stdin in
                  if h_success retry then
                    do! dirty := if (folded : bool) then ret false else worktree_is_dirty in
                    if (dirty : bool) then
                      ended (failed_result ("Pre-push hook passed after " ++ nat_text attempt
                                            ++ " fix attempt(s), but the fix could not be folded into the branch") "fold_failed")
                        total spent true
                    else ended (passed_result ("Pre-push hook passed after " ++ nat_text attempt ++ " fix attempt(s)")) total spent true
                  else if h_timed_out retry then ended (timed_out_result cfg) total spent true
                  else fix_loop cfg hook more (Datatypes.S attempt) (output_of retry) total spent
            end
        end
  end.

(** [execute] *)
Definition execute (cfg : Config) (spent : Z) : M S Executed :=
  do! hook := find_pre_push_hook in
  match hook with
  | None => ended (passed_result "No pre-push hook found, skipping validation") 0 spent false
  | Some hook =>
      do! stdin := build_pre_push_stdin (branch_name cfg) in
      do! result := run_hook hook stdin in
      if h_success result then ended (passed_result "Pre-push hook passed") 0 spent false
      else if h_timed_out result then ended (timed_out_result cfg) 0 spent false
      else fix_loop cfg hook (max_fix_attempts cfg) 1 (output_of result) 0 spent
  end.

Definition gate_passed : GateCheckResult := {| gc_passed := true; gc_reason := None |}.
Definition gate_failed (reason : string) : GateCheckResult := {| gc_passed := false; gc_reason := Some reason |}.

(** The new files of the status that are no artifacts. *)
Definition new_path (line : string) : option string :=
  let path := PyStr.drop_chars 3 line in
  if PyStr.startswith line "??" && negb (is_agent_artifact path) then Some path else None.

(** [validate_output] *)
Definition validate_output (cfg : Config) (fix_loop_ran : bool) : M S GateCheckResult :=
  do! log_result := run ["git"; "log"; base_branch cfg ++ "..HEAD"; "--oneline"] in
  if negb (success log_result && not_blank (stdout log_result)) then ret (gate_failed "No commits ahead of base after validation")
  else
    let detail r := PyStr.slice_to 200 (PyStr.strip (stdout r)) in
    do! unstaged := run ["git"; "diff"; "--stat"; "HEAD"] in
    if success unstaged && not_blank (stdout unstaged) then ret (gate_failed ("Unstaged changes after validation: " ++ detail unstaged))
    else
      do! staged := run ["git"; "diff"; "--cached"; "--stat"] in
      if success staged && not_blank (stdout staged)
      then ret (gate_failed ("Staged but uncommitted changes after validation: " ++ detail staged))
      else if negb fix_loop_ran then ret gate_passed
      else
        do! untracked := run status_argv in
        match (if success untracked then omap new_path (text_lines (stdout untracked)) else []) with
        | [] => ret gate_passed
        | new_paths => ret (gate_failed ("Untracked changes after validation: " ++ PyStr.join ", " (take 10 new_paths)))
        end.

End Validate.

(** ** Lemmas *)

(** The command lines of this part that only look at the worktree. *)
Definition looks_only (argv : list string) : bool :=
  read_only argv || match argv with "git" :: "config" :: "--get" :: _ | "git" :: "status" :: _ | "test" :: "-x" :: _ => true | _ => false end.

Section Laws.
Context {S : Type} (run : list string -> M S Result) (exists_path : string -> S -> bool)
        (run_hook : string -> string -> M S HookRun) (low_resources : nat -> S -> option string).
Hypothesis run_looks : forall argv, looks_only argv = true -> reads (run argv).

Lemma run_reads argv : read_only argv = true -> reads (run argv).
Proof. intros H. apply run_looks. unfold looks_only. by rewrite H. Qed.

Lemma stdin_reads branch : reads (build_pre_push_stdin run branch).
Proof.
  unfold build_pre_push_stdin, get_current_branch, run_checked, raise.
  repeat first [apply reads_ret | apply reads_bind; [|intros ?] | apply run_looks; reflexivity | case_match | by intros ?].
Qed.

Lemma dirty_reads : reads (worktree_is_dirty run).
Proof.
  intros s. unfold worktree_is_dirty. pose proof (run_looks status_argv eq_refl s) as H.
  destruct (run status_argv s) as [[r|e] s1]; cbn in H; subst; [done|]. by destruct e.
Qed.

Lemma unresolved_reads b : reads (has_unresolved_marker_commits run b).
Proof.
  intros s. unfold has_unresolved_marker_commits. pose proof (pending_reads run run_reads b s) as H.
  destruct (has_pending_autosquash_commits run b s) as [[r|e] s1]; cbn in H; subst; [done|]. by destruct e.
Qed.

(** A passing run of the hook that ends in [s'], on what git says of the branch it pushes. *)
Definition hook_passes (cfg : Config) (hook : string) (s1 s' : S) : Prop :=
  exists stdin r, build_pre_push_stdin run (branch_name cfg) s1 = (Ret stdin, s1) /\ run_hook hook stdin s1 = (Ret r, s') /\
    h_success r = true.

(** A success of the loop, after a passing run or for want of resources. *)
Definition repaired (cfg : Config) (hook : string) (s' : S) : Prop :=
  (exists s1, hook_passes cfg hook s1 s' /\
     ((exists s2, fold_fix_into_branch run (base_branch cfg) s2 = (Ret true, s1)) \/
      has_unresolved_marker_commits run (base_branch cfg) s1 = (Ret false, s1) /\ worktree_is_dirty run s' = (Ret false, s'))) \/
  exists attempt fraction, low_resources attempt s' = Some fraction.

Lemma fix_loop_spec dispatch cfg hook more attempt out total spent s ex s' :
  fix_loop run run_hook dispatch low_resources cfg hook more attempt out total spent s = (Ret ex, s') ->
  (sr_success (x_result ex) = true -> repaired cfg hook s' /\ x_loop_ran ex = true) /\
  (x_spent ex - sr_cost_usd (x_result ex) = spent - total)%Z.
Proof.
  revert attempt out total spent s. induction more as [|more IH]; intros attempt out total spent s H; cbn [fix_loop] in H.
  - injection H as <- <-. split; [done|]. cbn. lia.
  - destruct (Z.ltb (max_budget cfg) spent); [injection H as <- <-; split; [done|cbn; lia]|].
    step H. injection E as <- <-. destruct (low_resources attempt s) as [fraction|] eqn:El.
    { injection H as <- <-. split; [|cbn; lia]. intros _. split; [|done]. right. eauto. }
    step H. step H. destruct x0 as [cost|timed_out message]; [|injection H as <- <-; split; [done|cbn; lia]].
    step H. step H. rename x1 into folded.
    apply bind_ret in H as (stranded & s4 & Estr & H).
    assert (Hs4 : s4 = s3 /\ (folded = false -> stranded = false -> has_unresolved_marker_commits run (base_branch cfg) s3 = (Ret false, s3))).
    { destruct folded; [injection Estr as _ <-; split; [done|discriminate]|]. pose proof (reads_step _ _ _ _ (unresolved_reads (base_branch cfg)) Estr) as ->.
      split; [done|]. by intros _ ->. }
    destruct Hs4 as [-> Hunres]. destruct stranded; [injection H as <- <-; split; [done|cbn; lia]|].
    look H (stdin_reads (branch_name cfg)). rename x1 into stdin. step H. rename x1 into retry.
    destruct (h_success retry) eqn:Er.
    + apply bind_ret in H as (dirty & s5 & Edirty & H).
      assert (Hs5 : s5 = s4 /\ (folded = false -> dirty = false -> worktree_is_dirty run s4 = (Ret false, s4))).
      { destruct folded; [injection Edirty as _ <-; split; [done|discriminate]|]. pose proof (reads_step _ _ _ _ dirty_reads Edirty) as ->.
        split; [done|]. by intros _ ->. }
      destruct Hs5 as [-> Hclean]. destruct dirty; injection H as <- <-; (split; [|cbn; lia]); [done|]. intros _.
      split; [|done]. left. exists s3. split; [exists stdin, retry; auto|].
      destruct folded; [left; eauto|right; auto].
    + destruct (h_timed_out retry); [injection H as <- <-; split; [done|cbn; lia]|].
      apply IH in H as [H1 H2]. split; [done|]. lia.
Qed.

Lemma bind_ext {A B} (m m' : M S A) (k k' : A -> M S B) s :
  m s = m' s -> (forall x s, k x s = k' x s) -> bind m k s = bind m' k' s.
Proof. intros Hm Hk. unfold bind. rewrite Hm. destruct (m' s) as [[x|e] s1]; [apply Hk|done]. Qed.

(** The loop asks the model only in its own attempts, with a budget that is not negative. *)
Lemma fix_loop_dispatch d d' cfg hook more attempt out total spent s :
  (forall k o b, (attempt <= k < attempt + more)%nat -> (0 <= b)%Z -> d k o b = d' k o b) ->
  fix_loop run run_hook d low_resources cfg hook more attempt out total spent s
  = fix_loop run run_hook d' low_resources cfg hook more attempt out total spent s.
Proof.
  revert attempt out total spent s. induction more as [|more IH]; intros attempt out total spent s Hd; cbn [fix_loop]; [done|].
  destruct (Z.ltb_spec (max_budget cfg) spent); [done|]. apply bind_ext; [done|]. intros low s1. destruct low as [fraction|]; [done|].
  apply bind_ext; [done|]. intros pre s2. apply bind_ext; [by rewrite Hd by lia|]. intros answer s3. destruct answer as [cost|]; [|done].
  repeat first [apply IH; intros; apply Hd; lia | apply bind_ext; [done|intros ? ?] | case_match | done].
Qed.

End Laws.

(** *** Payloads *)

Lemma length_marked keep kept : String.length (marked keep kept) = (15 + String.length kept)%nat.
Proof.
  assert (L : forall a b, String.length (a ++ b) = (String.length a + String.length b)%nat) by (intros a b; induction a as [|c a IH]; [done|]; simpl; by rewrite IH).
  destruct keep; unfold marked; rewrite L; [done|]. change (String.length (mark Head)) with 15%nat. lia.
Qed.

Lemma length_of_list l : String.length (PyStr.of_list l) = length l.
Proof. by rewrite <- PyStr.length_to_list, PyStr.to_of_list. Qed.

Lemma prefix_drop p t : String.prefix p (p ++ t) = true /\ PyStr.drop_chars (String.length p) (p ++ t) = t.
Proof.
  induction p as [|c p [IH1 IH2]]; [by destruct t|]. simpl. split; [|done]. destruct (ascii_dec c c); [exact IH1|congruence].
Qed.

Lemma endswith_app t p : PyStr.endswith (t ++ p) p = true.
Proof.
  unfold PyStr.endswith. rewrite to_list_app, rev_app_distr.
  rewrite of_list_app. apply prefix_drop.
Qed.

Lemma unmarked_marked keep kept : unmarked keep (marked keep kept) = kept.
Proof.
  destruct keep; unfold unmarked, marked.
  - unfold PyStr.removeprefix, PyStr.startswith. destruct (prefix_drop (mark Tail) kept) as [-> ->]. done.
  - rewrite endswith_app. unfold PyStr.slice_to.
    rewrite <- !PyStr.length_to_list, to_list_app, length_app, Nat.add_sub, take_app_length. apply PyStr.of_to_list.
Qed.

Lemma by_id_spec tests id t : by_id tests id = Some t -> nodeid t = id /\ t ∈ tests.
Proof.
  unfold by_id. intros H%last_Some_elem_of%list_elem_of_In%filter_In. destruct H as [H ->%String.eqb_eq]. split; [done|by apply list_elem_of_In].
Qed.

Lemma by_id_some tests t : t ∈ tests -> is_Some (by_id tests (nodeid t)).
Proof.
  unfold by_id. intros H. destruct (last _) eqn:E; [eauto|]. apply last_None in E.
  assert (Hin : In t (List.filter (fun t' => String.eqb (nodeid t') (nodeid t)) tests)); [|by rewrite E in Hin].
  apply filter_In. split; [by apply list_elem_of_In|apply String.eqb_refl].
Qed.

Lemma values_spec tests t : t ∈ values tests <-> by_id tests (nodeid t) = Some t.
Proof.
  unfold values. rewrite list_elem_of_omap. split.
  - intros (id & _ & H). destruct (by_id_spec _ _ _ H) as [<- _]. done.
  - intros H. exists (nodeid t). split; [|done]. rewrite elem_of_rev_iff, elem_of_remove_dups, elem_of_rev_iff.
    apply list_elem_of_fmap_2. by eapply by_id_spec.
Qed.

Lemma length_drop_chars k t : (String.length (PyStr.drop_chars k t) <= String.length t <= String.length (PyStr.drop_chars k t) + k)%nat.
Proof. revert t. induction k as [|k IH]; intros [|c t]; cbn; try lia. specialize (IH t). lia. Qed.

(** The marker is all that is set aside. *)
Lemma length_unmarked keep text : (String.length (unmarked keep text) <= String.length text <= String.length (unmarked keep text) + 15)%nat.
Proof.
  destruct keep; unfold unmarked.
  - unfold PyStr.removeprefix. destruct (PyStr.startswith text (mark Tail)); [|lia].
    pose proof (length_drop_chars (String.length (mark Tail)) text). change (String.length (mark Tail)) with 15%nat in *. lia.
  - destruct (PyStr.endswith text (mark Head)); [|lia]. unfold PyStr.slice_to. rewrite length_of_list, length_take, PyStr.length_to_list.
    change (String.length (mark Head)) with 15%nat. lia.
Qed.

Definition cut (keep : Keep) (n : nat) (body : string) : string :=
  match keep with Tail => PyStr.of_list (drop (String.length body - n) (PyStr.to_list body)) | Head => PyStr.slice_to n body end.

Lemma length_cut keep n body : (n <= String.length body)%nat -> String.length (cut keep n body) = n.
Proof. intros H. destruct keep; unfold cut, PyStr.slice_to; rewrite length_of_list, ?length_drop, ?length_take, PyStr.length_to_list; lia. Qed.

Lemma trim_length text limit keep : (String.length (trim_payload text limit keep) <= Z.to_nat (Z.max limit 0) + 15)%nat.
Proof.
  unfold trim_payload. set (n := Z.to_nat (Z.max limit 0)). pose proof (length_unmarked keep text).
  destruct (Nat.leb_spec (String.length (unmarked keep text)) n); [lia|]. fold (cut keep n (unmarked keep text)). rewrite length_marked, length_cut; lia.
Qed.

Lemma trim_short text limit keep : (Z.of_nat (String.length text) <= limit)%Z -> trim_payload text limit keep = text.
Proof. intros H. unfold trim_payload. pose proof (length_unmarked keep text). by rewrite (proj2 (Nat.leb_le _ _)) by lia. Qed.

(** ** Theorems *)

(** A trimmed payload is at most the limit and the marker long, and trimming it again to the
    same limit changes nothing. *)
Theorem trim_bounded text limit keep :
  (String.length (trim_payload text limit keep) <= Z.to_nat (Z.max limit 0) + 15)%nat /\
  trim_payload (trim_payload text limit keep) limit keep = trim_payload text limit keep.
Proof.
  split; [apply trim_length|]. set (n := Z.to_nat (Z.max limit 0)). destruct (Nat.leb_spec (String.length (unmarked keep text)) n) as [H|H].
  - assert (E : trim_payload text limit keep = text) by (unfold trim_payload; fold n; by rewrite (proj2 (Nat.leb_le _ _) H)). by rewrite !E.
  - assert (E : trim_payload text limit keep = marked keep (cut keep n (unmarked keep text)))
      by (unfold trim_payload; fold n; by rewrite (proj2 (Nat.leb_gt _ _) H)).
    rewrite E. unfold trim_payload. fold n. rewrite unmarked_marked, length_cut by lia. by rewrite Nat.leb_refl.
Qed.

(** Between two captures of single tests, a regression is a test whose last outcome was
    passed and now is a failure or an error, a fix the reverse, and a new failure a failing
    test that the baseline does not know; captures of exit codes alone report nothing. *)
Theorem regressions_exact baseline current t :
  let report := diff_results baseline current in
  let per_test := mode baseline = "per_test" /\ mode current = "per_test" in
  let now := by_id (tests current) (nodeid t) = Some t in
  let before := by_id (tests baseline) (nodeid t) in
  (t ∈ regressions report <-> per_test /\ now /\ broke t = true /\ exists b, before = Some b /\ passes b = true) /\
  (t ∈ fixed report <-> per_test /\ now /\ passes t = true /\ exists b, before = Some b /\ broke b = true) /\
  (t ∈ new_failures report <-> per_test /\ now /\ broke t = true /\ before = None).
Proof.
  cbn zeta. unfold diff_results. destruct (String.eqb_spec (mode baseline) "per_test") as [Hb|Hb]; cbn [negb orb].
  2:{ cbn. rewrite elem_of_nil. tauto. }
  destruct (String.eqb_spec (mode current) "per_test") as [Hc|Hc]; cbn [negb regressions fixed new_failures].
  2:{ rewrite elem_of_nil. tauto. }
  rewrite <- values_spec, !list_elem_of_In, !filter_In, <- !list_elem_of_In.
  destruct (by_id (tests baseline) (nodeid t)) as [b|].
  - rewrite !andb_true_iff. split; [|split].
    + split; [intros (? & ? & ?); eauto 10|intros (_ & ? & ? & b' & [= <-] & ?); auto].
    + split; [intros (? & ? & ?); eauto 10|intros (_ & ? & ? & b' & [= <-] & ?); auto].
    + split; [intros (_ & ?); done|intros (_ & _ & _ & ?); done].
  - split; [|split]; (split; [intros (? & ?); try done; auto|]).
    + intros (_ & _ & _ & ? & ? & _). done.
    + intros (_ & _ & _ & ? & ? & _). done.
    + intros (_ & ? & ? & _). auto.
Qed.

Section Theorems.
Context {S : Type} (run : list string -> M S Result) (exists_path : string -> S -> bool)
        (run_hook : string -> string -> M S HookRun) (low_resources : nat -> S -> option string).
Hypothesis run_looks : forall argv, looks_only argv = true -> reads (run argv).

(** C35: The step succeeds only without a hook, after a run of the hook that passes on what is
    then on the branch, or when resources run low; after a repair the hook ran on a branch
    without a marker commit that git can list, and nothing that is not folded is left in
    the worktree. What the step reports as its cost is what it adds to the spending. *)
Theorem validation_justified dispatch cfg spent s ex s' :
  execute run exists_path run_hook dispatch low_resources cfg spent s = (Ret ex, s') ->
  (sr_success (x_result ex) = true ->
     (exists s0, find_pre_push_hook run exists_path s0 = (Ret None, s')) \/
     (exists hook, if x_loop_ran ex then repaired run run_hook low_resources cfg hook s'
                   else exists s1, hook_passes run run_hook cfg hook s1 s')) /\
  x_spent ex = (spent + sr_cost_usd (x_result ex))%Z.
Proof.
  unfold execute. intros H. step H. destruct x as [hook|].
  - look H (stdin_reads run run_looks (branch_name cfg)). step H. destruct (h_success x0) eqn:Er.
    + injection H as <- <-. split; [|cbn; lia]. intros _. right. exists hook. cbn. exists s0, x, x0. auto.
    + destruct (h_timed_out x0); [injection H as <- <-; split; [done|cbn; lia]|].
      apply (fix_loop_spec run run_hook low_resources run_looks) in H as [H1 H2]. split; [|lia].
      intros Hs. destruct (H1 Hs) as [Hr ->]. right. by exists hook.
  - injection H as <- <-. split; [|cbn; lia]. intros _. left. eauto.
Qed.

(** The model is asked at most as often as configured, in the attempts 1, 2, ..., and with a
    budget that is not negative: an answer of the model to anything else is never looked at. *)
Theorem model_asked_within_limits d d' cfg spent s :
  (forall k out budget, (1 <= k <= max_fix_attempts cfg)%nat -> (0 <= budget)%Z -> d k out budget = d' k out budget) ->
  execute run exists_path run_hook d low_resources cfg spent s = execute run exists_path run_hook d' low_resources cfg spent s.
Proof.
  intros Hd. unfold execute. apply bind_ext; [done|]. intros hook s1. destruct hook as [hook|]; [|done].
  apply bind_ext; [done|]. intros stdin s2. apply bind_ext; [done|]. intros r s3.
  destruct (h_success r); [done|]. destruct (h_timed_out r); [done|]. apply fix_loop_dispatch.
  intros k o b Hk Hb. apply Hd; [lia|done].
Qed.

(** Commits of the model are taken back only when they were added on top of the head before
    the call and none of them is a marker; rewritten history is left as it is. *)
Theorem unwind_only_appended pre base s s' :
  unwind_ordinary_commits run pre base s = (Ret tt, s') ->
  s' = s \/
  success pre = true /\ exists post ancestry subjects r,
    run ["git"; "rev-parse"; "HEAD"] s = (Ret post, s) /\ PyStr.strip (stdout post) <> PyStr.strip (stdout pre) /\
    run ["git"; "merge-base"; "--is-ancestor"; PyStr.strip (stdout pre); "HEAD"] s = (Ret ancestry, s) /\ success ancestry = true /\
    run ["git"; "log"; "--format=%s"; PyStr.strip (stdout pre) ++ "..HEAD"] s = (Ret subjects, s) /\ success subjects = true /\
    Forall (fun x => is_marker x = false) (text_lines (stdout subjects)) /\
    run ["git"; "reset"; "--soft"; PyStr.strip (stdout pre)] s = (Ret r, s').
Proof.
  unfold unwind_ordinary_commits. destruct (success pre) eqn:Ep; cbn [negb]; [|intros [= <-]; by left]. intros H.
  assert (R : forall argv r s1, looks_only argv = true -> run argv s = (r, s1) -> s1 = s) by (intros argv r s1 Ha; apply reads_step; auto).
  step H. apply R in E as F; [|done]. subst s0. destruct (negb (success x) || _) eqn:Eh; [injection H as <-; by left|].
  apply orb_false_iff in Eh as [_ Eh%String.eqb_neq].
  step H. apply R in E0 as F; [|done]. subst s0. destruct (success x0) eqn:Ea; cbn [negb] in H.
  - step H. apply R in E1 as F; [|done]. subst s0. destruct (success x1) eqn:Es; cbn [negb] in H; [|injection H as <-; by left].
    destruct (existsb is_marker _) eqn:Em; [injection H as <-; by left|]. step H. injection H as <-. right. split; [done|].
    exists x, x0, x1, x2. repeat (split; [done|]). split; [|done]. apply Forall_forall. intros y Hy.
    destruct (is_marker y) eqn:Ey; [|done]. assert (existsb is_marker (text_lines (stdout x1)) = true); [|congruence].
    apply existsb_exists. exists y. by rewrite <- list_elem_of_In.
  - look H (resolve_base_ref_reads run (run_reads run run_looks) base). destruct x1 as [base_ref|]; [|injection H as <-; by left].
    look H (is_on_base_reads run (run_reads run run_looks) (PyStr.strip (stdout x)) base_ref). injection H as <-. by left.
Qed.

End Theorems.

Module Examples.
Import CommitFold.Examples.

(** The repository of [CommitFold.Examples] with a hook in [.githooks], where a reset leaves
    what the dropped commits changed, and a fixup adds its paths to its target. *)
Definition knows (sha : string) (s : Repository) : bool := negb (bool_decide (with_sha sha s = [])).
Definition since (sha : string) (s : Repository) : list Commit := take (length (commits s) - length (above sha (commits s))) (commits s).
Definition with_fixups (l : list Commit) : list Commit :=
  map (fun c => {| c_sha := c_sha c; c_subject := c_subject c;
                   c_paths := List.concat (map c_paths (List.filter (fun d => String.eqb (c_subject d) ("fixup! " ++ c_subject c)) l)) ++ c_paths c |}%list)
    (squash l).

Definition look (argv : list string) (s : Repository) : Result :=
  match argv with
  | ["git"; "config"; "--get"; _] => ok [".githooks"]
  | ["git"; "status"; _; _] => ok (map (fun p => " M " ++ p) (dirty s))
  | ["test"; _; _] => ok []
  | ["git"; "merge-base"; "--is-ancestor"; sha; "HEAD"] => if knows sha s then ok [] else failed 1
  | ["git"; "log"; "--format=%s"; "c1..HEAD"] => ok (map c_subject (since "c1" s))
  | _ => answer argv s
  end.

Definition change (argv : list string) (s : Repository) : Result * Repository :=
  match argv with
  | ["git"; "reset"; "--soft"; sha] =>
      (ok [], {| commits := above sha (commits s); dirty := List.concat (map c_paths (since sha s)); staged := [] |})
  | "git" :: "rebase" :: "-i" :: _ => (ok [], {| commits := with_fixups (commits s); dirty := dirty s; staged := staged s |})
  | _ => act argv s
  end.

Definition worktree (argv : list string) : M Repository Result := fun s =>
  if looks_only argv then (Ret (look argv s), s) else let '(r, s) := change argv s in (Ret r, s).

Lemma worktree_looks argv : looks_only argv = true -> reads (worktree argv).
Proof. intros H s. unfold worktree. by rewrite H. Qed.

Definition cfg : Config := {| hook_timeout := "60"; max_fix_attempts := 2; max_budget := 100; branch_name := "b"; base_branch := "main" |}.

(** The hook asks for a test; the model adds one, in a commit of its own. *)
Definition hook (_ stdin : string) : M Repository HookRun := fun s =>
  (Ret {| h_exit := if existsb (fun c => bool_decide ("test_a.py" ∈ c_paths c)) (commits s) then 0 else 1; h_timed_out := false;
          h_stdout := "a.py: no test"; h_stderr := "" |}, s).

Definition model (k : nat) (out : string) (budget : Z) : M Repository Answer := fun s =>
  (Ret (Cost 7), {| commits := {| c_sha := "c9"; c_subject := "oops"; c_paths := ["test_a.py"] |} :: commits s; dirty := []; staged := [] |}).

Definition start : Repository :=
  {| commits := [{| c_sha := "c1"; c_subject := "feat: a"; c_paths := ["a.py"] |}]; dirty := []; staged := [] |}.

(** The commit of the model is taken back, and what it holds is folded into the commit it repairs. *)
Example hook_repaired :
  match execute worktree (fun _ _ => true) hook model (fun _ _ => None) cfg 10 start with
  | (Ret ex, s) => (sr_success (x_result ex), x_spent ex, x_loop_ran ex, map (fun c => (c_sha c, c_paths c)) (commits s))
  | (Raise _, s) => (false, 0%Z, false, [])
  end = (true, 17%Z, true, [("c1", ["test_a.py"; "a.py"])]).
Proof. vm_compute. reflexivity. Qed.

Lemma validation_justified_witness :
  exists ex s', execute worktree (fun _ _ => true) hook model (fun _ _ => None) cfg 10 start = (Ret ex, s') /\
    sr_success (x_result ex) = true /\ x_spent ex = (10 + sr_cost_usd (x_result ex))%Z /\
    exists h, repaired worktree hook (fun _ _ => None) cfg h s'.
Proof.
  destruct (execute worktree (fun _ _ => true) hook model (fun _ _ => None) cfg 10 start) as [[ex|e] s'] eqn:E.
  - exists ex, s'. destruct (validation_justified worktree (fun _ _ => true) hook (fun _ _ => None) worktree_looks model cfg 10 start ex s' E) as [Hs Hc].
    assert (Hok : sr_success (x_result ex) = true /\ x_loop_ran ex = true)
      by (vm_compute in E; injection E as <- _; split; reflexivity).
    destruct Hok as [Hok Hran]. split; [done|]. split; [done|]. split; [done|]. destruct (Hs Hok) as [(s0 & H)|(h & H)].
    + exfalso. revert H. unfold find_pre_push_hook, hooks_dir, bind, worktree, ret. cbn. discriminate.
    + exists h. by rewrite Hran in H.
  - exfalso. vm_compute in E. discriminate E.
Defined.

Lemma model_asked_within_limits_witness :
  execute worktree (fun _ _ => true) hook model (fun _ _ => None) cfg 10 start
  = execute worktree (fun _ _ => true) hook (fun k out b => if (k <=? 2)%nat then model k out b else raise (RuntimeError "never")) (fun _ _ => None) cfg 10 start.
Proof.
  apply (model_asked_within_limits worktree (fun _ _ => true) hook (fun _ _ => None)). intros k out b [_ Hk] _.
  cbn in Hk. by rewrite (proj2 (Nat.leb_le k 2) Hk).
Defined.

Lemma unwind_only_appended_witness :
  success (ok ["c1"]) = true \/ (unwind_ordinary_commits worktree (ok ["c1"]) "main" start).2 = start.
Proof.
  destruct (unwind_only_appended worktree worktree_looks (ok ["c1"]) "main" (model 1 "" 0%Z start).2
              (unwind_ordinary_commits worktree (ok ["c1"]) "main" (model 1 "" 0%Z start).2).2) as [H|[H _]].
  - vm_compute. reflexivity.
  - vm_compute in H. discriminate H.
  - left. exact H.
Defined.

(** A capture of exit codes never reports a regression, though the suite that passed now fails. *)
Definition green : BaselineSnapshot := {| mode := "exit_code"; exit_code := 0; tests := [] |}.
Definition red : BaselineSnapshot := {| mode := "exit_code"; exit_code := 1; tests := [] |}.

Example exit_codes_never_compared : verify_output (Some green) "make test" (Ret red) = {| gc_passed := true; gc_reason := None |}.
Proof. vm_compute. reflexivity. Qed.

Example reported : verify_output
    (Some {| mode := "per_test"; exit_code := 0; tests := [{| nodeid := "t1"; test_outcome := "passed" |}; {| nodeid := "t2"; test_outcome := "failed" |}] |})
    "pytest" (Ret {| mode := "per_test"; exit_code := 1; tests := [{| nodeid := "t2"; test_outcome := "passed" |}; {| nodeid := "t1"; test_outcome := "error" |}] |})
  = {| gc_passed := false; gc_reason := Some "Test regressions detected: 1 regression(s), 1 fixed. First: t1" |}.
Proof. vm_compute. reflexivity. Qed.

End Examples.
