(* ===== verification/Confidence.v ===== *)
(** * Confidence: the deployment score of a pull request

    core/steps/confidence_score.py: the diff that is shown to the model, the reading of its
    answer and the section of the body. The answers of git, of the model, of the JSON
    decoder and of GitHub are arguments; texts are ASCII. *)

From stdpp Require Import base list strings pretty.
From Stdlib Require Import Ascii.
From S2P Require Import Prelude Markdown Workflow Sections CiMonitor Regex.

Import Markdown.

Local Open Scope string_scope.

(** ** Which files first *)

(** A text as it follows a character: [^] and [\b] look at what comes before. *)
Definition at_end (rest : list Z) : bool := match rest with [] | [10%Z] => true | _ => false end.
Definition word_code (x : Z) : bool :=
  (Z.leb 48 x && Z.leb x 57) || (Z.leb 65 x && Z.leb x 90) || (Z.leb 97 x && Z.leb x 122) || Z.eqb x 95.

(** [\b] before an expression that starts with a letter *)
Fixpoint search_word (r : re) (after_word : bool) (s : list Z) : bool :=
  (negb after_word && match_at r anything s) || match s with [] => false | c :: s => search_word r (word_code c) s end.

(** [(^|/)] before an expression *)
Fixpoint search_part (r : re) (at_part : bool) (s : list Z) : bool :=
  (at_part && match_at r anything s) || match s with [] => false | c :: s => search_part r (Z.eqb c 47) s end.

(** [_CRITICAL_PATH_RE] *)
Definition critical_path (path : list Z) : bool :=
  search (iwords ["migrat"; "alembic"; "security"; "credential"; "permission"; "schema"; ".github/workflows"; "dockerfile"; "docker-compose"]) path
  || search_word (ilit "auth") false path.

(** [_LOW_PRIORITY_PATH_RE] *)
Definition low_priority_path (path : list Z) : bool :=
  search_part (one_of [iwords ["test/"; "tests/"; "doc/"; "docs/"]; ilit "test_"]) true path
  || search_then (iwords ["_test.py"; ".md"]) at_end path.

(** [_file_priority] *)
Definition file_priority (path : string) : nat :=
  if low_priority_path (codes path) then 2 else if critical_path (codes path) then 0 else 1.

(** ** The diff *)

(** [_DIFF_CONTENT_LIMIT] *)
Definition DIFF_CONTENT_LIMIT : nat := 6000.

Definition nl2 : string := PyStr.of_list ["010"%char; "010"%char].
Definition nl1 : string := PyStr.of_list ["010"%char].
Definition truncated : string := nl2 ++ "... (diff truncated at the size limit)".

(** The loop of [_build_diff_content] over the priorities; [diff] is [git diff] of some files. *)
Fixpoint diff_sections (diff : list string -> option string) (files : list string) (priorities : list nat) (budget : nat)
    : option (list string) :=
  match priorities with
  | [] => Some []
  | priority :: rest =>
      let group_files := List.filter (fun f => (file_priority f =? priority)%nat) files in
      if bool_decide (group_files = []) || (budget =? 0)%nat then diff_sections diff files rest budget
      else match diff group_files with
           | None => None
           | Some "" => diff_sections diff files rest budget
           | Some chunk =>
               let chunk := if (budget <? String.length chunk)%nat then PyStr.slice_to budget chunk ++ truncated else chunk in
               cons chunk <$> diff_sections diff files rest (budget - String.length chunk)
           end
  end.

(** [_build_diff_content] *)
Definition build_diff_content (diff : list string -> option string) (files : list string) : option string :=
  (fun sections => match sections with [] => "(no changes detected)" | _ => PyStr.join nl1 sections end)
  <$> diff_sections diff files [0; 1; 2]%nat DIFF_CONTENT_LIMIT.

(** ** The prose of the model *)

Definition is_hash (c : ascii) : bool := Ascii.eqb c "#".
Definition backtick : ascii := "`"%char.

(** A line that [_MD_HEADING_RE] matches: one to six hashes and a space. *)
Definition heads (line : list ascii) : bool :=
  let hashes := PyStr.take_while is_hash line in
  (1 <=? length hashes)%nat && (length hashes <=? 6)%nat
  && match PyStr.drop_while is_hash line with c :: _ => Ascii.eqb c " " | [] => false end.

Definition escape_heading (line : list ascii) : list ascii := if heads line then "\"%char :: line else line.
Definition escape_headings (text : list ascii) : list ascii := join_nl (map escape_heading (split_nl text)).

(** [_ISSUE_REF_RE] at a character, given the one before; the replacement, and the rest. *)
Definition word_char (c : ascii) : bool := word_code (code c).
Definition guarded (before : option ascii) : bool :=
  match before with Some c => Ascii.eqb c backtick || word_char c | None => false end.

Fixpoint quote_refs (fuel : nat) (before : option ascii) (l : list ascii) : list ascii :=
  match fuel, l with
  | O, _ | _, [] => l
  | S fuel, c :: rest =>
      if is_hash c && negb (guarded before) then
        match PyStr.take_while PyStr.is_digit rest with
        | [] => c :: quote_refs fuel (Some c) rest
        | digits => (backtick :: c :: digits ++ backtick :: quote_refs fuel (last digits) (PyStr.drop_while PyStr.is_digit rest))%list
        end
      else c :: quote_refs fuel (Some c) rest
  end.

(** [_sanitize_for_pr_body] *)
Definition sanitize_list (text : list ascii) : list ascii :=
  let escaped := escape_headings text in quote_refs (length escaped) None escaped.
Definition sanitize_for_pr_body (text : string) : string := PyStr.of_list (sanitize_list (PyStr.to_list text)).

(** ** The answer *)

(** A number of Python's [float], as [int()] sees it. *)
Inductive Float := Finite (truncated : Z) | NotANumber | Infinite.

Inductive Json :=
  | JNull
  | JBool (b : bool)
  | JInt (z : Z)
  | JFloat (f : Float)
  | JString (s : string)
  | JArray (l : list Json)
  | JObject (fields : list (string * Json)).

(** [data.get(key)]: the last value of a key. *)
Definition get (key : string) (fields : list (string * Json)) : option Json :=
  snd <$> last (List.filter (fun f => String.eqb f.1 key) fields).

Definition clamp (score : Z) : Z := Z.max 0 (Z.min 100 score).

(** [_clamp_score] of a number; [int] raises for an infinite one what is not caught. *)
Definition clamp_score (value : Z + Float) : outcome Z :=
  match value with
  | inl z => Ret (clamp z)
  | inr (Finite z) => Ret (clamp z)
  | inr NotANumber => Ret 0%Z
  | inr Infinite => Raise (OtherExn "OverflowError")
  end.

Record Risk := { r_category : string; r_severity : string; r_description : string }.
Record Details := { risks : list Risk; summary : string }.

(** [_parse_risks]; [str_of] is [str]. *)
Definition parse_risk (str_of : Json -> string) (item : Json) : option Risk :=
  match item with
  | JObject fields =>
      let text key default := match get key fields with Some v => str_of v | None => default end in
      Some {| r_category := text "category" "other"; r_severity := text "severity" "follow-up"; r_description := text "description" "" |}
  | _ => None
  end.
Definition parse_risks (str_of : Json -> string) (raw : option Json) : list Risk :=
  match raw with Some (JArray l) => omap (parse_risk str_of) l | _ => [] end.

(** [_render_pr_section] *)
Definition one_line (s : string) : string :=
  PyStr.of_list (map (fun c => if Ascii.eqb c "010" then " "%char else c) (PyStr.to_list s)).
Definition render_risk (r : Risk) : string :=
  one_line (sanitize_for_pr_body ("- [" ++ r_severity r ++ "] " ++ r_category r ++ ": " ++ r_description r)).
Definition render_pr_section (score : Z) (d : Details) : string :=
  let marker := "<!-- sova-confidence: " ++ pretty score ++ " -->" in
  let headline := "**" ++ pretty score ++ "/100**" in
  PyStr.join nl1
    ([marker; ""; headline]
     ++ (if String.eqb (summary d) "" then [] else [""; sanitize_for_pr_body (summary d)])
     ++ match risks d with [] => [] | l => "" :: map render_risk l end)%list.

(** ** The step *)

(** What the step is told. *)
Record Answers := {
  fetched : bool;
  changed_names : option string;              (* [git diff --name-only] *)
  git_diff : list string -> option string;
  max_budget : Z;                             (* of the agent *)
  spent : Z;
  confidence_budget : Z;
  invoked : outcome (string * Z);             (* the text and the cost *)
  decoded : string -> option Json;            (* [json.loads(extract_json(...))] *)
  str_of : Json -> string;
  pr_number : option Z;
  body : option string;                       (* the body of the pull request; [None] for a [RuntimeError] *)
}.

(** The result, what the context holds of the score, and the body that is written. *)
Record Scored := { sc_result : StepResult; sc_score : option (Z * Details); sc_spent : Z; sc_body : option string }.

Definition skipped (a : Answers) (why : string) : Scored :=
  {| sc_result := passed_result ("Confidence scoring skipped" ++ why); sc_score := None; sc_spent := spent a; sc_body := None |}.

(** [_update_pr_body] *)
Definition new_body (a : Answers) (score : Z) (d : Details) : option string :=
  match pr_number a with
  | Some n => if Z.eqb n 0 then None
              else match body a with
                   | Some body => Some (upsert_section body "Confidence Score" (render_pr_section score d))
                   | None => None
                   end
  | None => None
  end.

Definition scored (a : Answers) (cost : Z) (score : Z) (d : Details) (text : string) : Scored :=
  {| sc_result := costing cost (passed_result text); sc_score := Some (score, d); sc_spent := (spent a + cost)%Z;
     sc_body := new_body a score d |}.

Definition charged (a : Answers) (cost : Z) (why : string) : Scored :=
  {| sc_result := costing cost (passed_result ("Confidence scoring skipped: " ++ why)); sc_score := None;
     sc_spent := (spent a + cost)%Z; sc_body := None |}.

Definition not_blank (s : string) : bool := negb (String.eqb (PyStr.strip s) "").

(** The reading of the answer. *)
Definition read_answer (a : Answers) (text : string) (cost : Z) : outcome Scored :=
  match decoded a text with
  | Some (JObject data) =>
      match (match get "score" data with Some (JInt z) => Some (inl z) | Some (JFloat f) => Some (inr f) | _ => None end) with
      | None => Ret (charged a cost "LLM response missing a valid score")
      | Some raw_score =>
          obind (clamp_score raw_score) (fun score =>
            let risks := parse_risks (str_of a) (get "risks" data) in
            let summary := match get "summary" data with Some v => str_of a v | None => "" end in
            Ret (scored a cost score {| risks := risks; summary := summary |}
                   ("Confidence score: " ++ pretty score ++ "/100 (" ++ nat_text (length risks) ++ " risk(s))")))
      end
  | _ => Ret (charged a cost "could not parse LLM response")
  end.

(** [execute] *)
Definition execute (a : Answers) : outcome Scored :=
  if negb (fetched a) then Ret (skipped a ": could not refresh base branch")
  else match changed_names a with
       | None => Ret (skipped a ": could not determine changed files")
       | Some out =>
           match List.filter not_blank (map PyStr.of_list (PyStr.splitlines (PyStr.strip out))) with
           | [] => Ret (scored a 0 100 {| risks := []; summary := "No changes to score." |} "Confidence score: 100/100 (no changes)")
           | files =>
               if Z.leb (Z.min (confidence_budget a) (max_budget a - spent a)) 0 then Ret (skipped a ": budget exhausted")
               else match build_diff_content (git_diff a) files with
                    | None => Ret (skipped a ": could not build diff content")
                    | Some _ =>
                        match invoked a with
                        | Raise (RuntimeError e) => Ret (skipped a (" (non-fatal): " ++ e))
                        | Raise e => Raise e
                        | Ret (text, cost) => read_answer a text cost
                        end
                    end
           end
       end.

(** ** Lemmas *)

(** *** The diff *)

Definition total (l : list string) : nat := foldr (fun s n => String.length s + n)%nat 0%nat l.

Lemma length_string l : String.length (PyStr.of_list l) = length l.
Proof. by rewrite <- PyStr.length_to_list, PyStr.to_of_list. Qed.

Lemma length_string_app a b : String.length (a ++ b) = (String.length a + String.length b)%nat.
Proof. induction a as [|c a IH]; [done|]. simpl. by rewrite IH. Qed.

Lemma length_join l : (String.length (PyStr.join nl1 l) <= total l + (length l - 1))%nat.
Proof.
  induction l as [|s l IH]; [done|]. destruct l as [|s' l]; [cbn; lia|].
  change (PyStr.join nl1 (s :: s' :: l)) with (s ++ nl1 ++ PyStr.join nl1 (s' :: l)). rewrite !length_string_app.
  change (total (s :: s' :: l)) with (String.length s + total (s' :: l))%nat. cbn [length] in *. change (String.length nl1) with 1%nat. lia.
Qed.

Lemma diff_sections_total diff files priorities budget l :
  diff_sections diff files priorities budget = Some l ->
  (total l <= budget + 40)%nat /\ (budget = 0%nat -> l = []) /\ (length l <= length priorities)%nat.
Proof.
  revert budget l. induction priorities as [|p rest IH]; intros budget l H; cbn [diff_sections] in H.
  - injection H as <-. cbn. split; [lia|]. auto.
  - destruct (bool_decide _ || _) eqn:E.
    + apply IH in H as (H1 & H2 & H3). split; [done|]. split; [done|]. cbn. lia.
    + apply orb_false_iff in E as [_ Hb%Nat.eqb_neq]. destruct (diff _) as [[|c chunk]|]; [| |done].
      { apply IH in H as (H1 & H2 & H3). split; [done|]. split; [done|]. cbn. lia. }
      set (text := String c chunk) in *. destruct (Nat.ltb_spec budget (String.length text)) as [Hlt|Hle].
      * destruct (diff_sections diff files rest _) as [l'|] eqn:E'; [|done]. injection H as <-. apply IH in E' as (H1 & H2 & H3).
        assert (Hc : String.length (PyStr.slice_to budget text ++ truncated) = (budget + 40)%nat).
        { rewrite length_string_app. unfold PyStr.slice_to. rewrite length_string, length_take, PyStr.length_to_list.
          change (String.length truncated) with 40%nat. lia. }
        rewrite H2 by (fold text; rewrite Hc; lia). cbn [total foldr length]. rewrite Hc. cbn. split; [lia|]. split; [done|lia].
      * destruct (diff_sections diff files rest _) as [l'|] eqn:E'; [|done]. injection H as <-. apply IH in E' as (H1 & H2 & H3).
        change (total (text :: l')) with (String.length text + total l')%nat. split; [lia|]. split; [done|cbn; lia].
Qed.

(** *** The prose *)

(** Some line of the text is a heading with a space. *)
Fixpoint any_heading (at_start : bool) (l : list ascii) : bool :=
  (at_start && heads l) || match l with [] => false | c :: l => any_heading (Ascii.eqb c nl) l end.

(** Some reference to an issue follows neither a word nor a backtick. *)
Fixpoint any_reference (before : option ascii) (l : list ascii) : bool :=
  match l with
  | [] => false
  | c :: rest => (is_hash c && negb (guarded before) && match rest with d :: _ => PyStr.is_digit d | [] => false end)
                 || any_reference (Some c) rest
  end.

Lemma heads_not_hash c l : is_hash c = false -> heads (c :: l) = false.
Proof. intros H. unfold heads. cbn [PyStr.take_while]. by rewrite H. Qed.

Definition next_is_space (l : list ascii) : bool := match PyStr.drop_while is_hash l with c :: _ => Ascii.eqb c " " | [] => false end.

Lemma quote_refs_hashes fuel before l :
  next_is_space (quote_refs fuel before l) = true ->
  next_is_space l = true /\ PyStr.take_while is_hash (quote_refs fuel before l) = PyStr.take_while is_hash l.
Proof.
  revert before l. induction fuel as [|fuel IH]; intros before [|c rest] H; try done.
  cbn [quote_refs] in *. destruct (is_hash c) eqn:Ec; cbn [andb] in *.
  - destruct (negb (guarded before)).
    + destruct (PyStr.take_while PyStr.is_digit rest); [|done].
      unfold next_is_space in *. cbn [PyStr.drop_while PyStr.take_while] in *. rewrite Ec in *. apply IH in H as [H ->]. done.
    + unfold next_is_space in *. cbn [PyStr.drop_while PyStr.take_while] in *. rewrite Ec in *. apply IH in H as [H ->]. done.
  - unfold next_is_space in *. cbn [PyStr.drop_while PyStr.take_while] in *. rewrite Ec in *. done.
Qed.

Lemma heads_quote fuel before l : heads (quote_refs fuel before l) = true -> heads l = true.
Proof.
  unfold heads. fold (next_is_space (quote_refs fuel before l)). fold (next_is_space l).
  rewrite !andb_true_iff. intros [H Hn]. apply quote_refs_hashes in Hn as [Hn E]. by rewrite E in H.
Qed.

Lemma any_heading_app w l : nl ∉ w -> w <> [] -> any_heading false (w ++ l) = any_heading false l.
Proof.
  intros Hw _. induction w as [|c w IH]; [done|]. apply not_elem_of_cons in Hw as [Hc Hw]. cbn.
  rewrite (proj2 (Ascii.eqb_neq c nl)) by congruence. by apply IH.
Qed.

Lemma take_drop_while {A} (f : A -> bool) l : (PyStr.take_while f l ++ PyStr.drop_while f l)%list = l.
Proof. induction l as [|x l IH]; [done|]. cbn. destruct (f x); [cbn; by rewrite IH|done]. Qed.

Lemma take_while_all {A} (f : A -> bool) l : Forall (fun x => f x = true) (PyStr.take_while f l).
Proof. induction l as [|x l IH]; [constructor|]. cbn. destruct (f x) eqn:E; by constructor. Qed.

Lemma no_nl_digits l : Forall (fun c => PyStr.is_digit c = true) l -> nl ∉ l.
Proof. intros H Hin. rewrite Forall_forall in H. by specialize (H _ Hin). Qed.

Lemma any_heading_weaken flag l : any_heading false l = true -> any_heading flag l = true.
Proof. destruct l as [|c l]; cbn; [done|]. intros ->. apply orb_true_r. Qed.

Lemma any_heading_cons flag c l : any_heading flag (c :: l) = (flag && heads (c :: l)) || any_heading (Ascii.eqb c nl) l.
Proof. done. Qed.

Lemma any_heading_quote fuel before flag l : any_heading flag (quote_refs fuel before l) = true -> any_heading flag l = true.
Proof.
  revert before flag l. induction fuel as [|fuel IH]; intros before flag [|c rest] H; try done.
  pose proof (heads_quote (S fuel) before (c :: rest)) as Hh. cbn [quote_refs] in *.
  destruct (is_hash c && negb (guarded before)) eqn:Ec.
  - apply andb_true_iff in Ec as [Ec Eg]. destruct (PyStr.take_while PyStr.is_digit rest) as [|d digits] eqn:Ed.
    + cbn [any_heading] in *. apply orb_true_iff in H as [[-> H]%andb_true_iff|H]; [rewrite (Hh H); done|].
      apply IH in H. rewrite H. apply orb_true_r.
    + assert (Hdig : Forall (fun c => PyStr.is_digit c = true) (d :: digits)) by (rewrite <- Ed; apply take_while_all).
      assert (Hw : nl ∉ c :: (d :: digits)).
      { apply not_elem_of_cons. split; [|by apply no_nl_digits]. unfold is_hash in Ec. apply Ascii.eqb_eq in Ec as ->. done. }
      rewrite any_heading_cons, heads_not_hash, andb_false_r in H by done. cbn [orb] in H.
      change (Ascii.eqb backtick nl) with false in H.
      change (c :: (d :: digits) ++ backtick :: quote_refs fuel (last (d :: digits)) (PyStr.drop_while PyStr.is_digit rest))%list
        with ((c :: d :: digits) ++ ([backtick] ++ quote_refs fuel (last (d :: digits)) (PyStr.drop_while PyStr.is_digit rest)))%list in H.
      rewrite any_heading_app in H by done. rewrite any_heading_app in H; [|by apply not_elem_of_cons; split; [done|apply not_elem_of_nil]|done].
      apply IH in H. apply any_heading_weaken. rewrite <- (take_drop_while PyStr.is_digit rest), Ed.
      change (c :: (d :: digits) ++ ?x)%list with ((c :: d :: digits) ++ x)%list. by rewrite any_heading_app.
  - cbn [any_heading] in *. apply orb_true_iff in H as [[-> H]%andb_true_iff|H]; [rewrite (Hh H); done|].
    apply IH in H. rewrite H. apply orb_true_r.
Qed.

Lemma heads_line l rest : nl ∉ l -> heads (l ++ nl :: rest) = heads l.
Proof.
  intros Hl. unfold heads.
  assert (E : PyStr.take_while is_hash (l ++ nl :: rest) = PyStr.take_while is_hash l /\
              match PyStr.drop_while is_hash (l ++ nl :: rest) with c :: _ => Ascii.eqb c " " | [] => false end
              = match PyStr.drop_while is_hash l with c :: _ => Ascii.eqb c " " | [] => false end).
  { induction l as [|c l IH]; [done|]. apply not_elem_of_cons in Hl as [_ Hl]. cbn. destruct (is_hash c); [|done].
    destruct (IH Hl) as [-> ->]. done. }
  destruct E as [-> ->]. done.
Qed.

Lemma any_heading_line flag l rest :
  nl ∉ l -> any_heading flag (l ++ nl :: rest) = (flag && heads l) || any_heading true rest.
Proof.
  intros Hl. destruct l as [|c l]; [cbn; by rewrite !andb_false_r|].
  change ((c :: l) ++ nl :: rest)%list with (c :: (l ++ nl :: rest))%list. cbn [any_heading].
  change (c :: (l ++ nl :: rest))%list with ((c :: l) ++ nl :: rest)%list. rewrite heads_line by done.
  apply not_elem_of_cons in Hl as [Hc Hl]. rewrite (proj2 (Ascii.eqb_neq c nl)) by congruence. f_equal.
  clear Hc. induction l as [|d l IH]; [done|]. apply not_elem_of_cons in Hl as [Hd Hl]. cbn. rewrite (proj2 (Ascii.eqb_neq d nl)) by congruence. by apply IH.
Qed.

Lemma escape_not_heads l : heads (escape_heading l) = false.
Proof. unfold escape_heading. destruct (heads l) eqn:E; [by apply heads_not_hash|done]. Qed.

Lemma escape_no_nl l : nl ∉ l -> nl ∉ escape_heading l.
Proof. unfold escape_heading. destruct (heads l); [|done]. intros H. apply not_elem_of_cons. by split. Qed.

Lemma escape_headings_none t : any_heading true (escape_headings t) = false.
Proof.
  unfold escape_headings. assert (H : forall l, l ∈ split_nl t -> nl ∉ l) by (intros l; apply split_nl_no_nl).
  induction (split_nl t) as [|l ls IH]; [done|]. destruct ls as [|l' ls].
  - cbn [map join_nl]. specialize (H l ltac:(constructor)). apply escape_no_nl in H. pose proof (escape_not_heads l) as Hh.
    destruct (escape_heading l) as [|c w]; [done|]. cbn [any_heading]. rewrite Hh. cbn [andb orb].
    apply not_elem_of_cons in H as [Hc Hw]. rewrite (proj2 (Ascii.eqb_neq c nl)) by congruence. clear Hh Hc.
    induction w as [|d w IHw]; [done|]. apply not_elem_of_cons in Hw as [Hd Hw]. cbn. rewrite (proj2 (Ascii.eqb_neq d nl)) by congruence. by apply IHw.
  - change (map escape_heading (l :: l' :: ls)) with (escape_heading l :: map escape_heading (l' :: ls)). rewrite join_nl_cons by done.
    rewrite any_heading_line by (apply escape_no_nl, H; constructor). rewrite escape_not_heads. apply IH. intros x Hx. apply H. by constructor.
Qed.

Lemma any_reference_guard b b' l : guarded b = guarded b' -> any_reference b l = any_reference b' l.
Proof. destruct l; cbn; [done|]. by intros ->. Qed.

Lemma any_reference_word w before l :
  Forall (fun c => is_hash c = false) w -> any_reference before (w ++ l) = any_reference (match last w with Some c => Some c | None => before end) l.
Proof.
  intros H. revert before. induction H as [|c w Hc Hw IH]; intros before; [done|]. cbn. rewrite Hc. cbn. rewrite IH.
  destruct w; [done|]. cbn. by destruct (last (a :: w)) eqn:E; [|apply last_None in E].
Qed.

Lemma quote_first_digit fuel before l :
  match quote_refs fuel before l with d :: _ => PyStr.is_digit d | [] => false end = true ->
  match l with d :: _ => PyStr.is_digit d | [] => false end = true.
Proof.
  destruct fuel, l as [|c rest]; cbn [quote_refs]; try done. destruct (is_hash c && _); [|done].
  by destruct (PyStr.take_while PyStr.is_digit rest).
Qed.

Lemma quote_refs_none fuel before l : (length l <= fuel)%nat -> any_reference before (quote_refs fuel before l) = false.
Proof.
  revert before l. induction fuel as [|fuel IH]; intros before [|c rest] Hl; cbn [length] in Hl; try done; [lia|].
  cbn [quote_refs]. destruct (is_hash c) eqn:Ec; cbn [andb].
  - destruct (guarded before) eqn:Eg; cbn [negb].
    + cbn. rewrite Ec, Eg. cbn. apply IH. lia.
    + destruct (PyStr.take_while PyStr.is_digit rest) as [|d digits] eqn:Ed.
      * cbn [any_reference]. rewrite IH by lia. rewrite Ec, Eg. cbn [andb negb orb]. rewrite orb_false_r.
        destruct (match quote_refs fuel (Some c) rest with d :: _ => _ | [] => _ end) eqn:E; [|done]. apply quote_first_digit in E.
        destruct rest as [|d rest]; [done|]. cbn in Ed. by rewrite E in Ed.
      * assert (Hdig : Forall (fun c => PyStr.is_digit c = true) (d :: digits)) by (rewrite <- Ed; apply take_while_all).
        assert (Hh : Forall (fun c => is_hash c = false) ((d :: digits) ++ [backtick])).
        { apply Forall_app. split; [|by repeat constructor]. eapply Forall_impl; [exact Hdig|]. intros x Hx. cbn beta in *. unfold is_hash.
          destruct (Ascii.eqb_spec x "#") as [->|]; done. }
        cbn [any_reference]. rewrite Ec. cbn [is_hash andb orb].
        change (Ascii.eqb backtick "#") with false. change (guarded (Some backtick)) with true. cbn [andb negb orb].
        change ((d :: digits) ++ backtick :: ?x)%list with ((d :: digits) ++ [backtick] ++ x)%list. rewrite app_assoc.
        rewrite any_reference_word by done. rewrite last_snoc.
        rewrite (any_reference_guard (Some backtick) (last (d :: digits))).
        { apply IH. pose proof (f_equal length (take_drop_while PyStr.is_digit rest)) as Hlen. rewrite length_app in Hlen. lia. }
        destruct (last (d :: digits)) as [x|] eqn:El; [|by apply last_None in El].
        apply last_Some_elem_of in El. rewrite Forall_forall in Hdig. specialize (Hdig _ El). cbn beta in Hdig.
        cbn. unfold word_char, word_code. unfold PyStr.is_digit in Hdig. unfold code.
        clear -Hdig. destruct x as [[] [] [] [] [] [] [] []]; try discriminate Hdig; reflexivity.
  - cbn. rewrite Ec. cbn. apply IH. lia.
Qed.

(** ** Theorems *)

(** A score is between 0 and 100, scoring never fails the step, and what the step costs is
    what is spent; the only exceptions that end it are those of the model that are no
    [RuntimeError], and a score that the decoder takes for infinite. *)
Theorem scoring_never_blocks a :
  match execute a with
  | Ret s => sr_success (sc_result s) = true /\ sc_spent s = (spent a + sr_cost_usd (sc_result s))%Z /\
             (forall z d, sc_score s = Some (z, d) -> (0 <= z <= 100)%Z) /\ (sc_score s = None -> sc_body s = None)
  | Raise e => invoked a = Raise e /\ (forall m, e <> RuntimeError m) \/
               e = OtherExn "OverflowError" /\ exists text cost data, invoked a = Ret (text, cost) /\
                 decoded a text = Some (JObject data) /\ get "score" data = Some (JFloat Infinite)
  end.
Proof.
  assert (Hskip : forall why, let s := skipped a why in sr_success (sc_result s) = true /\ sc_spent s = (spent a + sr_cost_usd (sc_result s))%Z /\
             (forall z d, sc_score s = Some (z, d) -> (0 <= z <= 100)%Z) /\ (sc_score s = None -> sc_body s = None))
    by (intros why; cbn; split; [done|]; split; [lia|done]).
  unfold execute. destruct (fetched a); cbn [negb]; [|apply Hskip]. destruct (changed_names a) as [out|]; [|apply Hskip].
  destruct (List.filter _ _) as [|f files].
  { cbn. split; [done|]. split; [lia|]. split; [|done]. intros z d [= <- _]. lia. }
  destruct (Z.leb _ 0); [apply Hskip|]. destruct (build_diff_content _ _); [|apply Hskip].
  destruct (invoked a) as [[text cost]|e] eqn:Ei.
  2:{ destruct e; first [left; split; [done|discriminate] | apply Hskip]. }
  unfold read_answer. destruct (decoded a text) as [j|] eqn:Ed; [|cbn; split; [done|]; split; [lia|done]].
  destruct j as [| | | | | |data]; try (cbn; split; [done|]; split; [lia|done]).
  assert (Hclamp : forall z, (0 <= clamp z <= 100)%Z) by (intros; unfold clamp; lia).
  destruct (get "score" data) as [[| |z|[z| |]| | |]|] eqn:Eg; try (cbn; split; [done|]; split; [lia|done]).
  - cbn. split; [done|]. split; [lia|]. split; [|done]. intros z' d [= <- _]. apply Hclamp.
  - cbn. split; [done|]. split; [lia|]. split; [|done]. intros z' d [= <- _]. apply Hclamp.
  - cbn. split; [done|]. split; [lia|]. split; [|done]. intros z' d [= <- _]. lia.
  - cbn. right. split; [done|]. by exists text, cost, data.
Qed.

(** The diff that is shown to the model is bounded, however large the change is: it is at
    most the limit, one note of a cut and the separators of the three groups of files. *)
Theorem diff_content_bounded diff files text :
  build_diff_content diff files = Some text -> (String.length text <= DIFF_CONTENT_LIMIT + 42)%nat.
Proof.
  unfold build_diff_content. intros H. apply fmap_Some in H as (l & E & ->).
  apply diff_sections_total in E as (Ht & _ & Hl). cbn [length] in Hl. destruct l as [|s l].
  - vm_compute. lia.
  - pose proof (length_join (s :: l)). cbn [length] in *. lia.
Qed.

(** Prose that goes into the body has no line that GitHub takes for a heading by its hashes
    and a space, and no bare reference to an issue. *)
Theorem sanitized_inert text :
  any_heading true (sanitize_list text) = false /\ any_reference None (sanitize_list text) = false.
Proof.
  split.
  - destruct (any_heading true (sanitize_list text)) eqn:E; [|done]. apply any_heading_quote in E. by rewrite escape_headings_none in E.
  - by apply quote_refs_none.
Qed.

Module Examples.

Definition answers (score : Json) : Answers :=
  {| fetched := true; changed_names := Some ("src/auth.py" ++ nl1 ++ "docs/a.md" ++ nl1); git_diff := fun l => Some (PyStr.join "," l);
     max_budget := 100; spent := 5; confidence_budget := 10; invoked := Ret ("{}", 3%Z);
     decoded := fun _ => Some (JObject [("score", score); ("summary", JString "Fixes #12.")]); str_of := fun j => match j with JString s => s | _ => "" end;
     pr_number := Some 7%Z; body := Some "## Summary" |}.

Example priorities : map file_priority ["src/authz.py"; "src/my_auth.py"; "tests/test_auth.py"; "db/migrations/1.py"; "README.md"; "src/latest/x.py"]
  = [0; 1; 2; 0; 2; 1]%nat.
Proof. vm_compute. reflexivity. Qed.

Example clamped : match execute (answers (JInt 250)) with
  | Ret s => (fst <$> sc_score s, sc_spent s, sr_summary (sc_result s)) = (Some 100%Z, 8%Z, "Confidence score: 100/100 (0 risk(s))")
  | Raise _ => False end.
Proof. vm_compute. reflexivity. Qed.

Example sanitized : sanitize_for_pr_body ("## Risks" ++ nl1 ++ "closes #12, a#3 and ##4") = ("\## Risks" ++ nl1 ++ "closes `#12`, a#3 and #`#4`").
Proof. vm_compute. reflexivity. Qed.

(** A score of 1e999 is a float for the decoder; [int] raises [OverflowError] for it, which the step does not catch. *)
Example infinite_score_raises : execute (answers (JFloat Infinite)) = Raise (OtherExn "OverflowError").
Proof. vm_compute. reflexivity. Qed.

(** Hashes and a tab are a boundary for the sections and no heading for the sanitizer: what
    follows them stays in the body when the section is written again. *)
Definition tabbed : string := "ok" ++ nl1 ++ "##" ++ PyStr.of_list ["009"%char] ++ "Note" ++ nl1 ++ "stale".
Definition rewritten : string :=
  upsert_section (upsert_section "## Summary" "Confidence Score" (render_pr_section 50 {| risks := []; summary := tabbed |}))
    "Confidence Score" (render_pr_section 60 {| risks := []; summary := "new" |}).

Example stale_prose_stays : sanitize_for_pr_body tabbed = tabbed /\ PyStr.contains rewritten "stale" = true /\
  PyStr.contains rewritten "50/100" = false.
Proof. vm_compute. done. Qed.

Lemma diff_content_bounded_witness : (String.length "src/auth.py" <= DIFF_CONTENT_LIMIT + 42)%nat.
Proof.
  apply (diff_content_bounded (fun l => Some (PyStr.join "," l)) ["src/auth.py"] "src/auth.py"). vm_compute. reflexivity.
Defined.

End Examples.
