(* ===== verification/GitRebase.v ===== *)
(** * GitRebase: rebasing a branch, with conflicts resolved by models

    git/rebase.py, with the clearing of runtime files of git/untracked_collisions.py and the
    step core/steps/rebase.py. Git, the files of the worktree and the models are arguments
    over a state of the worktree, as in [CommitFold]; the shares of models that must agree
    are percentages. The texts of prompts and the budgets that are passed on are left out. *)

From stdpp Require Import base list strings pretty sorting.
From Stdlib Require Import Ascii.
From S2P Require Import Prelude Markdown Context Workflow CommitFold.

Local Open Scope string_scope.
Local Open Scope fold_scope.

(** [ShellResult] *)
Record Shell := { code : Z; out : string; err : string }.
Definition ok (r : Shell) : bool := Z.eqb (code r) 0.

Definition throw {S A} (e : exn) : M S A := fun s => (Raise e, s).

(** ** Conflict markers *)

Definition seven (c : ascii -> bool) (l : list ascii) : bool :=
  (length (take 7 l) =? 7)%nat && forallb c (take 7 l) &&
  match drop 7 l with [] => true | c :: _ => Ascii.eqb c " " end.

(** [_CONFLICT_MARKER_RE], [_CONFLICT_FENCE_RE] on one line *)
Definition conflict_marker (l : list ascii) : bool :=
  seven (fun c => Ascii.eqb c "<" || Ascii.eqb c ">" || Ascii.eqb c "|") l || bool_decide (l = repeat "="%char 7).
Definition conflict_fence (l : list ascii) : bool := seven (Ascii.eqb "<") l || seven (Ascii.eqb ">") l.

(** [_has_conflict_markers], [_has_unresolved_conflict] *)
Definition has_conflict_markers (text : string) : bool := existsb conflict_marker (Markdown.split_nl (PyStr.to_list text)).
Definition has_unresolved_conflict (text : string) : bool := existsb conflict_fence (Markdown.split_nl (PyStr.to_list text)).

(** [_count_non_marker_lines], [_is_valid_resolution] *)
Definition count_non_marker_lines (content : string) : nat :=
  length (List.filter (fun l => negb (conflict_marker l)) (PyStr.splitlines content)).
Definition is_valid_resolution (text : string) (original_non_marker_lines : nat) : bool :=
  negb (has_conflict_markers text) &&
  ((original_non_marker_lines =? 0) ||
   negb (2 * length (PyStr.splitlines (PyStr.strip text)) <? original_non_marker_lines))%nat.

(** ** Consensus *)

Fixpoint drop_cr (l : list ascii) : list ascii :=
  match l with
  | [] => []
  | c :: l' => match l' with
               | d :: _ => if Ascii.eqb c "013" && Ascii.eqb d "010" then drop_cr l' else c :: drop_cr l'
               | [] => [c]
               end
  end.

(** [_normalize_resolution] *)
Definition normalize_resolution (text : string) : string :=
  let lines := Markdown.split_nl (drop_cr (PyStr.to_list text)) in
  PyStr.of_list (PyStr.drop_while_end (Ascii.eqb "010") (Markdown.join_nl (map (PyStr.drop_while_end PyStr.is_space) lines))).

(** The groups of resolutions that are the same once normalized, in the order of their
    first members. *)
Fixpoint add_to_group (norm r : string) (groups : list (string * list string)) : list (string * list string) :=
  match groups with
  | [] => [(norm, [r])]
  | (n, rs) :: groups => if String.eqb n norm then (n, rs ++ [r])%list :: groups else (n, rs) :: add_to_group norm r groups
  end.
Definition group_resolutions (resolutions : list string) : list (string * list string) :=
  fold_left (fun groups r => add_to_group (normalize_resolution r) r groups) resolutions [].

(** [_select_consensus]; the threshold is a percentage *)
Definition select_consensus (resolutions : list string) (threshold : Z) : option string :=
  if (length resolutions <? 2)%nat then None
  else
    let total := Z.of_nat (length resolutions) in
    '(_, rs) ← List.find (fun g => Z.leb (total * threshold) (100 * Z.of_nat (length g.2)))
                 (sort_by (fun g : string * list string => [(- Z.of_nat (length g.2))%Z]) (group_resolutions resolutions));
    head rs.

(** [_find_prompt_template] *)
Definition find_prompt_template (model : string) (templates : list (string * string)) : option string :=
  snd <$> List.find (fun t => PyStr.startswith model t.1 || PyStr.contains model ("/" ++ t.1))
            (sort_by (fun t : string * string => [(- Z.of_nat (String.length t.1))%Z]) templates).

(** [ConflictResolutionConfig] *)
Record Conf := { cr_models : list string; cr_threshold : Z; cr_templates : list (string * string) }.

(** [_load_consensus_config]: the configuration, and whether the active backend is Anthropic's own *)
Definition load_consensus_config (loaded : outcome (Conf * bool)) (is_anthropic : string -> bool) : Conf :=
  match loaded with
  | Ret (cr, first_party) =>
      if first_party then cr
      else {| cr_models := List.filter (fun m => negb (is_anthropic m)) (cr_models cr);
              cr_threshold := cr_threshold cr; cr_templates := cr_templates cr |}
  | Raise _ => {| cr_models := []; cr_threshold := 66; cr_templates := [] |}
  end.

(** [RebaseResult] *)
Record RebaseResult := { rb_success : bool; conflicts_resolved : Z; rb_error : string }.
Definition failed (resolved : Z) (error : string) : RebaseResult :=
  {| rb_success := false; conflicts_resolved := resolved; rb_error := error |}.

(** [_update_error_tracking] *)
Definition update_error_tracking (stderr current_error : string) : string :=
  if negb (String.eqb stderr "") && negb (PyStr.contains (PyStr.lower stderr) "no rebase in progress")
  then PyStr.slice_to 300 stderr else current_error.

(** ** Runtime files that a stash leaves in place *)

Definition RUNTIME_STATE_PATHS : list string :=
  [".sova/"; ".claude/sova.db"; ".claude/sova.log"; ".claude/agent-control/"; ".claude/agent-output/";
   ".claude/worktrees/"; ".claude/mcp_secret"].
Definition pathspec_include (prefix : string) : string := if PyStr.endswith prefix "/" then prefix else prefix ++ "*".
Definition pathspec_exclude (prefix : string) : string := ":(exclude)" ++ pathspec_include prefix.

(** [WORKTREE_STASH_PATHSPECS], [unstage_command] *)
Definition WORKTREE_STASH_PATHSPECS : list string := ":/" :: map pathspec_exclude RUNTIME_STATE_PATHS.
Definition unstage_command : list string := (["git"; "reset"; "-q"; "--"] ++ map pathspec_include RUNTIME_STATE_PATHS)%list.

Definition nul_fields (text : string) : list string := List.filter (fun f => negb (String.eqb f "")) (fields_of text).

Definition tab : string := PyStr.of_list ["009"%char].

Section Rebase.
Context {S : Type} (run : list string -> M S Shell) (unlink : string -> M S unit)
        (read_text : string -> S -> option string) (write_text : string -> string -> M S unit)
        (ask : string -> option string -> string -> string -> M S (string * Z))
        (llm : list string -> M S Z).

(** [_untracked], [_tracked_blobs] (its paths) *)
Definition untracked (paths : list string) : M S (option (list string)) :=
  do! result := run (["git"; "ls-files"; "-z"; "--others"; "--"] ++ paths)%list in
  ret (if ok result then Some (nul_fields (out result)) else None).
Definition tracked_paths (ref : string) (dirs : list string) : M S (option (list string)) :=
  do! result := run (["git"; "ls-tree"; "-r"; "-z"; ref; "--"] ++ dirs)%list in
  ret (if ok result then Some (map (fun entry => default "" (PyStr.split_once entry tab).2) (nul_fields (out result))) else None).

Fixpoint unlink_all (paths : list string) : M S unit :=
  match paths with [] => ret tt | p :: paths => do! _ := unlink p in unlink_all paths end.

(** [clear_conflicting_runtime_files] *)
Definition clear_conflicting_runtime_files (ref : string) : M S unit :=
  do! l := untracked (map pathspec_include RUNTIME_STATE_PATHS) in
  match l with
  | None | Some [] => ret tt
  | Some local_paths =>
      do! u := tracked_paths ref [".claude/"; ".sova/"] in
      match u with
      | None | Some [] => ret tt
      | Some upstream =>
          let colliding := List.filter (fun rel => bool_decide (rel ∈ upstream)) local_paths in
          match List.filter (fun rel => negb (PyStr.startswith rel ".sova/")) colliding with
          | [] => unlink_all colliding
          | protected =>
              throw (RuntimeError ("Cannot switch to " ++ ref
                ++ ": it tracks SOVA runtime file(s) that exist locally as untracked files: " ++ PyStr.join ", " protected
                ++ ". SOVA will not overwrite them. Move or remove them (back up the database first if you need it), then retry."))
          end
      end
  end.

(** ** One file, many models *)

(** [_invoke_model]: a model that fails answers nothing and costs nothing. *)
Definition invoke_model (templates : list (string * string)) (filename content model_id : string) : M S (option string * Z) := fun s =>
  match ask model_id (find_prompt_template model_id templates) filename content s with
  | (Ret (text, cost), s) => (Ret (Some text, cost), s)
  | (Raise _, s) => (Ret (None, 0%Z), s)
  end.

Fixpoint invoke_all (templates : list (string * string)) (filename content : string) (models : list string) : M S (list (option string * Z)) :=
  match models with
  | [] => ret []
  | m :: models =>
      do! a := invoke_model templates filename content m in
      do! rest := invoke_all templates filename content models in ret (a :: rest)
  end.

(** [_resolve_file_with_consensus] *)
Definition resolve_file_with_consensus (cr : Conf) (filename content : string) : M S (option string * Z) :=
  if (length (cr_models cr) <? 2)%nat then ret (None, 0%Z)
  else
    do! results := invoke_all (cr_templates cr) filename content (cr_models cr) in
    let cost := foldr Z.add 0%Z (map snd results) in
    let valid := List.filter (fun text => is_valid_resolution text (count_non_marker_lines content)) (omap fst results) in
    ret (match valid with [] => None | _ => select_consensus valid (cr_threshold cr) end, cost).

(** [_try_consensus_resolution] *)
Fixpoint try_consensus_resolution (cr : Conf) (files : list string) (total_cost : Z) : M S (bool * Z) :=
  match files with
  | [] => ret (true, total_cost)
  | filepath :: files => fun s =>
      match read_text filepath s with
      | None => (Ret (false, total_cost), s)
      | Some content =>
          (do! a := resolve_file_with_consensus cr filepath content in
           let total_cost := (total_cost + a.2)%Z in
           match a.1 with
           | None => ret (false, total_cost)
           | Some resolved =>
               do! _ := write_text filepath resolved in
               do! stage := run ["git"; "add"; filepath] in
               if ok stage then try_consensus_resolution cr files total_cost else ret (false, total_cost)
           end) s
      end
  end.

(** ** Looking for conflicts *)

Definition CONFLICTED : list string := ["git"; "diff"; "--name-only"; "--diff-filter=U"].

(** [_get_conflicted_files] *)
Definition get_conflicted_files : M S (option (list string)) :=
  do! result := run CONFLICTED in
  ret (if ok result then Some (List.filter (fun f => negb (String.eqb f "")) (map PyStr.strip (text_lines (PyStr.strip (out result)))))
       else None).

(** [_file_has_conflict] *)
Definition file_has_conflict (path : string) (s : S) : bool :=
  match read_text path s with Some content => has_unresolved_conflict content | None => false end.

(** [_unresolved_paths] *)
Definition unresolved_paths (files : list string) : M S (option (list string)) :=
  do! u := get_conflicted_files in fun s =>
  (Ret (unmerged ← u; Some (fold_left (fun unresolved rel_path =>
     if negb (bool_decide (rel_path ∈ unresolved)) && file_has_conflict rel_path s then unresolved ++ [rel_path] else unresolved)%list
     files unmerged)), s).

(** ** The rebase *)

Definition ABORT : list string := ["git"; "rebase"; "--abort"].
Definition CONTINUE : list string := ["git"; "rebase"; "--continue"].

(** [_pop_stash] *)
Definition pop_stash (stashed : bool) : M S bool :=
  if stashed then do! pop := run ["git"; "stash"; "pop"] in ret (ok pop) else ret true.

Definition abandon (stashed : bool) (r : RebaseResult * Z) : M S (RebaseResult * Z) :=
  do! _ := run ABORT in do! _ := pop_stash stashed in ret r.

(** [_abort_unverifiable] *)
Definition abort_unverifiable (stashed : bool) (resolved cost : Z) : M S (RebaseResult * Z) :=
  abandon stashed (failed resolved "Could not verify conflict resolution: the git conflict check failed", cost).

Definition finished (stashed : bool) (resolved cost : Z) : M S (RebaseResult * Z) :=
  do! popped := pop_stash stashed in
  ret (if (popped : bool) then {| rb_success := true; conflicts_resolved := resolved; rb_error := "" |}
       else failed 0 "Stash restore failed after rebase", cost).

(** The attempts of one model on one commit: they end the rebase, or leave what they worked
    on last, what of it is unresolved, and the cost. *)
Inductive Tried := Stopped (r : RebaseResult * Z) | Attempted (conflicted remaining : list string) (cost : Z).

Fixpoint attempts (n : nat) (stashed : bool) (resolved : Z) (conflicted remaining : list string) (cost : Z) : M S Tried :=
  match n with
  | O => ret (Attempted conflicted remaining cost)
  | Datatypes.S n => fun s =>
      match llm conflicted s with
      | (Raise (RuntimeError msg), s) => (do! r := abandon stashed (failed resolved msg, cost) in ret (Stopped r)) s
      | (Raise e, s) => (Raise e, s)
      | (Ret c, s) =>
          let cost := (cost + c)%Z in
          (do! verified := unresolved_paths conflicted in
           match verified with
           | None => do! r := abort_unverifiable stashed resolved cost in ret (Stopped r)
           | Some [] => ret (Attempted conflicted [] cost)
           | Some remaining => attempts n stashed resolved remaining remaining cost
           end) s
      end
  end.

(** The state of the loop over commits, and how a turn of it ends. *)
Record Progress := { pr_conflicted : list string; pr_resolved : Z; pr_cost : Z; last_error : string }.
Inductive Turn := Return (r : RebaseResult * Z) | Next (p : Progress) | Break (p : Progress).

(** Going on with what is resolved; [next] looks at the conflicts of the following commit. *)
Definition proceed (stashed : bool) (resolved cost : Z) (error : string) (next : M S (option (list string))) : M S Turn :=
  do! cont := run CONTINUE in
  if ok cont then do! r := finished stashed resolved cost in ret (Return r)
  else
    do! n := next in
    match n with
    | None => do! r := abort_unverifiable stashed resolved cost in ret (Return r)
    | Some conflicted => ret (Next {| pr_conflicted := conflicted; pr_resolved := resolved; pr_cost := cost;
                                      last_error := update_error_tracking (err cont) error |})
    end.

(** The conflicts of a commit, left to one model. *)
Definition single_model (use_consensus : bool) (max_attempts : nat) (stashed : bool) (p : Progress) (cost : Z) : M S Turn :=
  do! still_conflicted := if use_consensus then get_conflicted_files else ret None in
  let conflicted := match still_conflicted with Some (f :: rest) => f :: rest | _ => pr_conflicted p end in
  do! t := attempts max_attempts stashed (pr_resolved p) conflicted [] cost in
  match t with
  | Stopped r => ret (Return r)
  | Attempted conflicted [] cost =>
      proceed stashed (pr_resolved p + Z.of_nat (length conflicted))%Z cost (last_error p) (unresolved_paths conflicted)
  | Attempted _ remaining cost =>
      do! r := abandon stashed (failed (pr_resolved p)
        ("Unresolved conflicts after " ++ pretty max_attempts ++ " attempts: " ++ PyStr.join ", " remaining), cost) in
      ret (Return r)
  end.

(** One turn of the loop over commits. *)
Definition commit_turn (use_consensus : bool) (cr : Conf) (max_attempts : nat) (stashed : bool) (p : Progress) : M S Turn :=
  match pr_conflicted p with
  | [] =>
      do! cont := run CONTINUE in
      if ok cont then do! r := finished stashed (pr_resolved p) (pr_cost p) in ret (Return r)
      else ret (Break {| pr_conflicted := []; pr_resolved := pr_resolved p; pr_cost := pr_cost p;
                         last_error := update_error_tracking (err cont) (last_error p) |})
  | conflicted =>
      if use_consensus then
        do! c := try_consensus_resolution cr conflicted 0 in
        let cost := (pr_cost p + c.2)%Z in
        if (c.1 : bool) then
          do! remaining := unresolved_paths conflicted in
          match remaining with
          | None => do! r := abort_unverifiable stashed (pr_resolved p) cost in ret (Return r)
          | Some [] => proceed stashed (pr_resolved p + Z.of_nat (length conflicted))%Z cost (last_error p) get_conflicted_files
          | Some _ => single_model use_consensus max_attempts stashed p cost
          end
        else single_model use_consensus max_attempts stashed p cost
      else single_model use_consensus max_attempts stashed p (pr_cost p)
  end.

(** The loop over commits: it returns, or is left, at the cap or before it. *)
Fixpoint commits (n : nat) (turn : Progress -> M S Turn) (p : Progress) : M S (RebaseResult * Z + Progress * bool) :=
  match n with
  | O => ret (inr (p, true))
  | Datatypes.S n =>
      do! t := turn p in
      match t with
      | Return r => ret (inl r)
      | Next p => commits n turn p
      | Break p => ret (inr (p, false))
      end
  end.

Definition rebase_error (p : Progress) (hit_commit_cap : bool) (max_commits : nat) : string :=
  if hit_commit_cap then "Exceeded max commits cap (" ++ pretty max_commits ++ ", processed " ++ pretty max_commits ++ " commits) during rebase"
  else PyStr.of_list (PyStr.drop_while_end (fun c => Ascii.eqb c ":" || Ascii.eqb c " ")
         (PyStr.to_list ("Rebase could not be completed: " ++ PyStr.slice_to 200 (last_error p)))).

Definition STASH : list string := (["git"; "stash"; "--include-untracked"; "--"] ++ WORKTREE_STASH_PATHSPECS)%list.
Definition is_stashed (result : Shell) : bool := ok result && negb (PyStr.contains (out result) "No local changes to save").

(** [rebase_with_conflict_resolution] once the runtime files are out of the way *)
Definition rebase_from (base : string) (use_consensus : bool) (cr : Conf) (max_attempts max_commits : nat) : M S (RebaseResult * Z) :=
  do! stash_result := run STASH in
  let stashed := is_stashed stash_result in
  do! result := run ["git"; "rebase"; "origin/" ++ base] in
  if ok result then
    do! popped := pop_stash stashed in
    ret (if (popped : bool) then {| rb_success := true; conflicts_resolved := 0; rb_error := "" |}
         else failed 0 "Stash restore failed after clean rebase", 0%Z)
  else
    let initial_error := PyStr.slice_to 300 (if String.eqb (err result) "" then out result else err result) in
    do! c := get_conflicted_files in
    match c with
    | None | Some [] => abandon stashed (failed 0 ("Rebase failed: " ++ initial_error), 0%Z)
    | Some conflicted =>
        do! l := commits max_commits (commit_turn use_consensus cr max_attempts stashed)
          {| pr_conflicted := conflicted; pr_resolved := 0; pr_cost := 0; last_error := initial_error |} in
        match l with
        | inl r => ret r
        | inr (p, hit_commit_cap) =>
            do! r := abandon stashed (failed (pr_resolved p) (rebase_error p hit_commit_cap max_commits), pr_cost p) in
            if hit_commit_cap && (max_commits =? 0)%nat then throw (OtherExn "UnboundLocalError") else ret r
        end
    end.

(** [rebase_with_conflict_resolution]; [litellm] says whether [_create_providers] succeeds. *)
Definition rebase_with_conflict_resolution (cr : Conf) (litellm : bool) (base : string) (max_attempts max_commits : nat) : M S (RebaseResult * Z) :=
  let many := (2 <=? length (cr_models cr))%nat in
  do! _ := (if many then do! _ := run ["git"; "config"; "--local"; "merge.conflictstyle"; "diff3"] in ret tt else ret tt) in
  do! fetch := run ["git"; "fetch"; "origin"; base] in
  if negb (ok fetch) then ret (failed 0 ("Fetch failed: " ++ PyStr.slice_to 200 (err fetch)), 0%Z)
  else
    do! _ := run unstage_command in fun s =>
    match clear_conflicting_runtime_files ("origin/" ++ base) s with
    | (Raise (RuntimeError msg), s) => (Ret (failed 0 (PyStr.slice_to 300 msg), 0%Z), s)
    | (Raise e, s) => (Raise e, s)
    | (Ret _, s) => rebase_from base (many && litellm) cr max_attempts max_commits s
    end.

End Rebase.

(** ** The step *)

Section RebaseStep.
Context {S : Type} (run : list string -> M S Shell) (exists_path : string -> S -> bool)
        (rebase : M S (RebaseResult * Z)) (ensure_claude_artifacts : M S unit).

Definition step_result (success : bool) (summary : string) (error : option string) (cost : Z) : StepResult :=
  {| sr_success := success; sr_summary := summary; sr_error := error; sr_cost_usd := cost;
     sr_awaiting_approval := false; sr_handoff_actions := []; sr_partial_work := false; sr_usage := None; sr_runaway_triggered := false |}.

(** [RebaseStep.execute]: the result, and the cost it adds to the context *)
Definition execute (base_branch : string) (in_worktree : bool) : M S (StepResult * Z) := fun s =>
  match rebase s with
  | (Raise (RuntimeError msg), s) => (Ret (step_result false "Rebase failed" (Some msg) 0, 0%Z), s)
  | (Raise e, s) => (Raise e, s)
  | (Ret (r, cost), s) =>
      (if rb_success r then
         do! _ := if in_worktree then ensure_claude_artifacts else ret tt in
         let n := conflicts_resolved r in
         ret (step_result true ("Rebased onto " ++ base_branch ++ (if Z.eqb n 0 then "" else " (" ++ pretty n ++ " conflicts resolved)")) None cost, cost)
       else ret (step_result false "Rebase failed" (Some (rb_error r)) 0, cost)) s
  end.

(** [Path.is_absolute], and the directory of git under the working directory *)
Definition git_dir (working_dir answer : string) : string :=
  let dir := PyStr.strip answer in if PyStr.startswith dir "/" then dir else working_dir ++ "/" ++ dir.

(** [RebaseStep.validate_output] *)
Definition validate_output (working_dir : string) : M S GateCheckResult :=
  do! result := run ["git"; "rev-parse"; "--git-dir"] in fun s =>
  (Ret (if negb (ok result) then {| gc_passed := false; gc_reason := Some "Cannot determine git directory" |}
        else let dir := git_dir working_dir (out result) in
             if exists_path (dir ++ "/rebase-merge") s || exists_path (dir ++ "/rebase-apply") s
             then {| gc_passed := false; gc_reason := Some "Rebase still in progress" |}
             else {| gc_passed := true; gc_reason := None |}), s).

End RebaseStep.

(** ** Lemmas: consensus *)

Lemma elem_of_add_to_group norm r groups n rs :
  NoDup (map fst groups) ->
  (n, rs) ∈ add_to_group norm r groups <->
  n <> norm /\ (n, rs) ∈ groups \/
  n = norm /\ ((exists rs', (norm, rs') ∈ groups /\ rs = (rs' ++ [r])%list) \/ norm ∉ map fst groups /\ rs = [r]).
Proof.
  induction groups as [|[m ms] groups IH]; intros Hnd; cbn [add_to_group].
  { rewrite list_elem_of_singleton. cbn [map]. pose proof (not_elem_of_nil norm). split.
    - intros [= -> ->]. right. auto.
    - intros [[_ H']|[-> [(rs' & H' & _)|[_ ->]]]]; [by apply elem_of_nil in H'|by apply elem_of_nil in H'|done]. }
  cbn in Hnd. apply NoDup_cons in Hnd as [Hm Hnd]. specialize (IH Hnd). destruct (String.eqb_spec m norm) as [->|Hne].
  - rewrite !elem_of_cons. split.
    + intros [E|H]; [injection E as -> ->; right; split; [done|]; left; exists ms; split; [left|done]|].
      left. split; [|auto]. intros ->. apply Hm. apply (list_elem_of_fmap_2 fst) in H. exact H.
    + intros [[Hn [[= -> _]|H]]|[-> [(rs' & H & ->)|[H _]]]]; [done|by right| |].
      * apply elem_of_cons in H as [[= <-]|H]; [by left|]. exfalso. apply Hm. apply (list_elem_of_fmap_2 fst) in H. exact H.
      * exfalso. apply H. cbn. left.
  - rewrite !elem_of_cons, IH. cbn [map fst]. split.
    + intros [[= -> ->]|[[? ?]|[-> [(rs' & ? & ->)|[Hn ->]]]]]; [left; auto|left; auto|right; split; [done|left; exists rs'; rewrite elem_of_cons; auto]|].
      right. split; [done|]. right. split; [|done]. rewrite elem_of_cons. naive_solver.
    + intros [[Hn [[= -> ->]|H]]|[-> [(rs' & H & ->)|[Hn ->]]]]; [auto|auto| |].
      * apply elem_of_cons in H as [[= -> _]|H]; [done|]. right. right. split; [done|]. left. eauto.
      * right. right. split; [done|]. right. split; [|done]. rewrite elem_of_cons in Hn. naive_solver.
Qed.

Lemma fst_add_to_group norm r groups :
  map fst (add_to_group norm r groups) = if bool_decide (norm ∈ map fst groups) then map fst groups else (map fst groups ++ [norm])%list.
Proof.
  induction groups as [|[m ms] groups IH]; cbn [add_to_group map fst]; [done|].
  destruct (String.eqb_spec m norm) as [->|Hne]; cbn [map fst].
  - rewrite bool_decide_eq_true_2 by left. done.
  - rewrite IH. case_bool_decide as H; case_bool_decide as H'; try done.
    + exfalso. apply H'. by right.
    + exfalso. apply elem_of_cons in H' as [?|?]; congruence.
Qed.

Definition same_as (norm : string) (r : string) : bool := String.eqb (normalize_resolution r) norm.

(** The groups are the classes of the resolutions. *)
Lemma group_spec rs :
  NoDup (map fst (group_resolutions rs)) /\
  forall n l, (n, l) ∈ group_resolutions rs <-> l = List.filter (same_as n) rs /\ l <> [].
Proof.
  unfold group_resolutions. induction rs as [|r rs [Hnd IH]] using rev_ind.
  { cbn. split; [constructor|]. intros n l. rewrite elem_of_nil. naive_solver. }
  rewrite fold_left_app. cbn [fold_left]. set (groups := fold_left _ rs []) in *. split.
  { rewrite fst_add_to_group. case_bool_decide as H; [done|]. apply NoDup_app. split; [done|]. split; [|apply NoDup_singleton].
    intros x Hx ->%list_elem_of_singleton. done. }
  intros n l. rewrite elem_of_add_to_group by done. rewrite List.filter_app. cbn [List.filter]. unfold same_as at 2.
  destruct (String.eqb_spec (normalize_resolution r) n) as [E|E].
  - rewrite E. split.
    + intros [[? _]|[_ [(rs' & H & ->)|[H ->]]]]; [done| |].
      * apply IH in H as [-> _]. split; [done|]. by destruct (List.filter _ rs).
      * split; [|done]. destruct (List.filter (same_as n) rs) as [|x xs] eqn:F; [done|]. exfalso. apply H.
        apply (list_elem_of_fmap_2' fst _ (n, x :: xs)); [|done]. apply IH. by rewrite F.
    + intros [-> _]. right. split; [done|]. destruct (List.filter (same_as n) rs) as [|x xs] eqn:F.
      * right. split; [|done]. intros ([n' l'] & E' & Hin)%list_elem_of_fmap. cbn in E'. subst n'. apply IH in Hin as [-> Hne]. congruence.
      * left. exists (x :: xs). split; [|done]. apply IH. by rewrite F.
  - rewrite app_nil_r, IH. naive_solver.
Qed.

(** How many resolutions agree with one of them. *)
Definition agreeing (rs : list string) (r : string) : Z := Z.of_nat (length (List.filter (same_as (normalize_resolution r)) rs)).

(** What a search of a sorted list finds comes before everything else that it could find. *)
Lemma find_sorted {A} (key : A -> list Z) (fits : A -> bool) l g g' :
  StronglySorted (key_le key) l -> List.find fits l = Some g -> g' ∈ l -> fits g' = true -> key_le key g g'.
Proof.
  induction l as [|x l IH]; [done|]. cbn [List.find]. intros [Hs Hle]%StronglySorted_inv E Hin Hg.
  rewrite Forall_forall in Hle. destruct (fits x) eqn:Ex.
  - injection E as ->. apply elem_of_cons in Hin as [->|Hin]; [apply lex_leb_refl|auto].
  - apply elem_of_cons in Hin as [<-|Hin]; [congruence|auto].
Qed.

Lemma elem_of_agreeing rs r : r ∈ rs -> List.filter (same_as (normalize_resolution r)) rs <> [].
Proof.
  intros Hr Hnil. assert (H : r ∈ List.filter (same_as (normalize_resolution r)) rs).
  { apply list_elem_of_In, filter_In. split; [by apply list_elem_of_In|apply String.eqb_refl]. }
  rewrite Hnil in H. by apply elem_of_nil in H.
Qed.

Lemma head_same n rs r : head (List.filter (same_as n) rs) = Some r -> normalize_resolution r = n.
Proof.
  destruct (List.filter _ _) as [|x l] eqn:F; [done|]. intros [= ->].
  assert (In r (List.filter (same_as n) rs)) as [_ H]%filter_In by (rewrite F; by left). by apply String.eqb_eq.
Qed.

(** The first group in the order of descending sizes that is large enough is a greatest one. *)
Lemma select_consensus_spec rs threshold r :
  select_consensus rs threshold = Some r ->
  (2 <= length rs)%nat /\ head (List.filter (same_as (normalize_resolution r)) rs) = Some r /\
  (Z.of_nat (length rs) * threshold <= 100 * agreeing rs r)%Z /\ forall r', r' ∈ rs -> (agreeing rs r' <= agreeing rs r)%Z.
Proof.
  unfold select_consensus. destruct (Nat.ltb_spec (length rs) 2) as [|Hlen]; [done|].
  destruct (List.find _ _) as [[n l]|] eqn:E; [|done]. cbn. intros Hh.
  destruct (group_spec rs) as [Hnd Hg].
  pose proof (find_some _ _ E) as [Hin Hf%Z.leb_le]. apply list_elem_of_In in Hin. rewrite sort_by_perm in Hin.
  apply Hg in Hin as [-> _]. cbn [snd] in Hf. pose proof (head_same _ _ _ Hh) as <-.
  repeat split; [done|done|exact Hf|]. intros r' Hr'. destruct (decide (agreeing rs r' <= agreeing rs r)%Z) as [|Hgt]; [done|]. exfalso.
  pose proof (find_sorted _ _ _ _ (normalize_resolution r', List.filter (same_as (normalize_resolution r')) rs) (sort_by_sorted _ _) E) as H.
  rewrite sort_by_perm, Hg, Z.leb_le in H. cbn [snd] in H. unfold agreeing in Hgt.
  unfold key_le in H. cbn [lex_leb snd] in H.
  specialize (H (conj eq_refl (elem_of_agreeing _ _ Hr')) ltac:(lia)).
  rewrite (proj2 (Z.ltb_ge _ _)) in H by lia. by rewrite (proj2 (Z.ltb_lt _ _)) in H by lia.
Qed.

(** Without a consensus no text has enough agreement. *)
Lemma select_consensus_none rs threshold r :
  select_consensus rs threshold = None -> (2 <= length rs)%nat -> r ∈ rs -> (100 * agreeing rs r < Z.of_nat (length rs) * threshold)%Z.
Proof.
  unfold select_consensus. intros E Hlen Hr. destruct (Nat.ltb_spec (length rs) 2) as [|_]; [lia|].
  destruct (group_spec rs) as [_ Hg]. destruct (List.find _ _) as [[n l]|] eqn:F.
  - pose proof (find_some _ _ F) as [Hin _]. apply list_elem_of_In in Hin. rewrite sort_by_perm in Hin.
    apply Hg in Hin as [-> Hne]. cbn in E. by destruct (List.filter _ _).
  - pose proof (find_none _ _ F (normalize_resolution r, List.filter (same_as (normalize_resolution r)) rs)) as H.
    rewrite <- list_elem_of_In, sort_by_perm, Hg in H. specialize (H (conj eq_refl (elem_of_agreeing _ _ Hr))).
    apply Z.leb_gt in H. exact H.
Qed.

(** ** Lemmas: the rebase *)

Lemma bind_same {S A B} (m m' : M S A) (k k' : A -> M S B) s :
  m s = m' s -> (forall x s1, m' s = (Ret x, s1) -> k x s1 = k' x s1) -> bind m k s = bind m' k' s.
Proof. intros E H. unfold bind. rewrite E. destruct (m' s) as [[x|e] s1]; [by apply H|done]. Qed.

Section Laws.
Context {S : Type} (run : list string -> M S Shell) (unlink : string -> M S unit)
        (read_text : string -> S -> option string) (write_text : string -> string -> M S unit)
        (ask : string -> option string -> string -> string -> M S (string * Z))
        (llm : list string -> M S Z).
Hypothesis run_reads : reads (run CONFLICTED).

(** Git lists no file as unmerged. *)
Definition nothing_unmerged (s : S) : Prop := get_conflicted_files run s = (Ret (Some []), s).

Lemma conflicted_reads : reads (get_conflicted_files run).
Proof. apply reads_bind; [exact run_reads|]. intros x. apply reads_ret. Qed.

Lemma unmerged_reads files : reads (unresolved_paths run read_text files).
Proof. apply reads_bind; [exact conflicted_reads|]. by intros x s. Qed.

Lemma unresolved_nil files s s1 :
  unresolved_paths run read_text files s = (Ret (Some []), s1) ->
  s1 = s /\ nothing_unmerged s /\ Forall (fun f => file_has_conflict read_text f s = false) files.
Proof.
  intros H. pose proof H as Hr. apply reads_step in Hr as ->; [|apply unmerged_reads]. split; [done|].
  apply bind_ret in H as (u & s1 & E & H). pose proof E as E'. apply reads_step in E' as ->; [|apply conflicted_reads].
  injection H as H. destruct u as [u|]; [|done]. cbn in H. injection H as H.
  assert (G : forall files u, fold_left (fun unresolved rel_path =>
     if negb (bool_decide (rel_path ∈ unresolved)) && file_has_conflict read_text rel_path s then unresolved ++ [rel_path] else unresolved)%list
     files u = [] -> u = [] /\ Forall (fun f => file_has_conflict read_text f s = false) files).
  { clear. induction files as [|f files IH]; cbn [fold_left]; intros u H; [done|]. apply IH in H as [H Hf].
    destruct (file_has_conflict read_text f s) eqn:Ef; [|rewrite andb_false_r in H; by subst; auto].
    case_bool_decide as Hin; cbn [negb andb] in H; [subst; by apply elem_of_nil in Hin|]. by destruct u. }
  apply G in H as [-> H]. done.
Qed.

(** The rebase goes on after a command, which ends it; the stash is back, or not. *)
Definition completed (stashed : bool) (popped : bool) (s' : S) : Prop :=
  exists s1 r s2, run CONTINUE s1 = (Ret r, s2) /\ ok r = true /\ nothing_unmerged s1 /\ pop_stash run stashed s2 = (Ret popped, s').

(** The rebase is aborted, and the restoration of the stash is tried. *)
Definition aborted (stashed : bool) (s' : S) : Prop :=
  exists s1 r s2 popped, run ABORT s1 = (Ret r, s2) /\ pop_stash run stashed s2 = (Ret popped, s').

Definition ended (stashed : bool) (r : RebaseResult * Z) (s' : S) : Prop :=
  if rb_success r.1 then completed stashed true s' else completed stashed false s' \/ aborted stashed s'.

Lemma abandon_spec stashed r r' s s' : abandon run stashed r s = (Ret r', s') -> r' = r /\ aborted stashed s'.
Proof.
  intros H. unfold abandon in H. step H. step H. injection H as <- <-. split; [done|]. by exists s, x, s0, x0.
Qed.

Lemma gave_up stashed resolved error cost r s s' :
  abandon run stashed (failed resolved error, cost) s = (Ret r, s') -> ended stashed r s'.
Proof. intros [-> H]%abandon_spec. by right. Qed.

Lemma finished_ended stashed resolved cost r s s1 x s' :
  nothing_unmerged s -> run CONTINUE s = (Ret x, s1) -> ok x = true -> finished run stashed resolved cost s1 = (Ret r, s') -> ended stashed r s'.
Proof.
  intros Hn Hr Ho H. unfold finished in H. step H. injection H as <- <-.
  assert (completed stashed x0 s0) by (exists s, x, s1; auto). destruct x0; [done|]. by left.
Qed.

Lemma attempts_spec n stashed resolved conflicted remaining cost t s s' :
  remaining <> [] \/ (0 < n)%nat ->
  attempts run read_text llm n stashed resolved conflicted remaining cost s = (Ret t, s') ->
  match t with
  | Stopped r => ended stashed r s'
  | Attempted c [] _ => nothing_unmerged s' /\ Forall (fun f => file_has_conflict read_text f s' = false) c
  | Attempted _ _ _ => True
  end.
Proof.
  revert conflicted remaining cost s. induction n as [|n IH]; intros conflicted remaining cost s Hr H; cbn [attempts] in H.
  { destruct Hr as [Hr|?]; [|lia]. injection H as <- <-. by destruct remaining. }
  destruct (llm conflicted s) as [[c|e] s1].
  - step H. destruct x as [[|f fs]|].
    + injection H as <- <-. by apply unresolved_nil in E as (-> & ? & ?).
    + apply IH in H; [done|by left].
    + step H. injection H as <- <-. by apply gave_up in E0.
  - destruct e; try done. step H. injection H as <- <-. by apply gave_up in E.
Qed.

Definition left_clean (t : Turn) (stashed : bool) (s' : S) : Prop :=
  match t with
  | Return r => ended stashed r s'
  | Next p => pr_conflicted p = [] -> nothing_unmerged s'
  | Break _ => True
  end.

Lemma proceed_spec stashed resolved cost error next t s s' :
  nothing_unmerged s -> (forall s s1, next s = (Ret (Some []), s1) -> nothing_unmerged s1) ->
  proceed run stashed resolved cost error next s = (Ret t, s') -> left_clean t stashed s'.
Proof.
  intros Hn Hnext H. unfold proceed in H. step H. destruct (ok x) eqn:Ex.
  - step H. injection H as <- <-. cbn. eauto using finished_ended.
  - step H. destruct x0 as [c|].
    + injection H as <- <-. cbn. intros ->. eauto.
    + step H. injection H as <- <-. by eapply gave_up.
Qed.

Lemma single_model_spec use_consensus max_attempts stashed p cost t s s' :
  (0 < max_attempts)%nat ->
  single_model run read_text llm use_consensus max_attempts stashed p cost s = (Ret t, s') -> left_clean t stashed s'.
Proof.
  intros Ha H. unfold single_model in H. step H. step H. apply attempts_spec in E0; [|by right].
  destruct x0 as [r|c [|f fs] cost'].
  - injection H as <- <-. done.
  - eapply proceed_spec; [apply E0| |exact H]. intros s4 s5 (-> & ? & _)%unresolved_nil. done.
  - step H. injection H as <- <-. by eapply gave_up.
Qed.

Lemma turn_spec use_consensus cr max_attempts stashed p t s s' :
  (0 < max_attempts)%nat -> (pr_conflicted p = [] -> nothing_unmerged s) ->
  commit_turn run read_text write_text ask llm use_consensus cr max_attempts stashed p s = (Ret t, s') -> left_clean t stashed s'.
Proof.
  intros Ha Hp. unfold commit_turn. destruct (pr_conflicted p) as [|f fs] eqn:Ec.
  - intros H. step H. destruct (ok x) eqn:Ex.
    + step H. injection H as <- <-. cbn. eauto using finished_ended.
    + by injection H as <- <-.
  - destruct use_consensus; [|by apply single_model_spec]. intros H. step H.
    destruct x as [[] c]; cbn [fst snd] in H; [|by apply single_model_spec in H].
    step H. destruct x as [[|g gs]|].
    + apply unresolved_nil in E0 as (-> & ? & _). eapply proceed_spec; [done| |exact H].
      intros s4 s5 Hg. pose proof Hg as Hg'. apply reads_step in Hg' as ->; [done|apply conflicted_reads].
    + by apply single_model_spec in H.
    + step H. injection H as <- <-. by eapply gave_up.
Qed.

Lemma commits_spec n use_consensus cr max_attempts stashed p l s s' :
  (0 < max_attempts)%nat -> (pr_conflicted p = [] -> nothing_unmerged s) ->
  commits n (commit_turn run read_text write_text ask llm use_consensus cr max_attempts stashed) p s = (Ret l, s') ->
  match l with inl r => ended stashed r s' | inr _ => True end.
Proof.
  intros Ha. revert p s. induction n as [|n IH]; intros p s Hp H; cbn [commits] in H; [by injection H as <- <-|].
  step H. apply turn_spec in E; [|done..]. destruct x as [r|p'|p'].
  - by injection H as <- <-.
  - by apply IH in H.
  - by injection H as <- <-.
Qed.

End Laws.

(** Two gits that answer alike, except to [--continue] where something is unmerged. *)
Section Agree.
Context {S : Type} (run run' : list string -> M S Shell) (unlink : string -> M S unit)
        (read_text : string -> S -> option string) (write_text : string -> string -> M S unit)
        (ask : string -> option string -> string -> string -> M S (string * Z))
        (llm : list string -> M S Z).
Hypothesis run_reads : reads (run CONFLICTED).
Hypothesis agree : forall argv s, argv <> CONTINUE -> run argv s = run' argv s.
Hypothesis agree_clean : forall s, nothing_unmerged run s -> run CONTINUE s = run' CONTINUE s.

Ltac alike := repeat first [reflexivity | apply agree; solve [intros [=]] | apply bind_same; [|intros ? ? ?] | case_match].

Lemma agree_conflicted s : get_conflicted_files run s = get_conflicted_files run' s.
Proof. unfold get_conflicted_files. alike. Qed.

Lemma agree_unresolved files s : unresolved_paths run read_text files s = unresolved_paths run' read_text files s.
Proof. unfold unresolved_paths. apply bind_same; [apply agree_conflicted|done]. Qed.

Lemma agree_pop stashed s : pop_stash run stashed s = pop_stash run' stashed s.
Proof. unfold pop_stash. alike. Qed.

Lemma agree_abandon stashed r s : abandon run stashed r s = abandon run' stashed r s.
Proof. unfold abandon. apply bind_same; [alike|]. intros. apply bind_same; [apply agree_pop|done]. Qed.

Lemma agree_finished stashed resolved cost s : finished run stashed resolved cost s = finished run' stashed resolved cost s.
Proof. apply bind_same; [apply agree_pop|done]. Qed.

Lemma agree_consensus cr files cost s :
  try_consensus_resolution run read_text write_text ask cr files cost s = try_consensus_resolution run' read_text write_text ask cr files cost s.
Proof.
  revert cost s. induction files as [|f files IH]; intros cost s; cbn; [done|]. destruct (read_text f s); [|done]. alike.
  by rewrite IH.
Qed.

Lemma agree_attempts n stashed resolved conflicted remaining cost s :
  attempts run read_text llm n stashed resolved conflicted remaining cost s = attempts run' read_text llm n stashed resolved conflicted remaining cost s.
Proof.
  revert conflicted remaining cost s. induction n as [|n IH]; intros; cbn; [done|]. destruct (llm conflicted s) as [[c|e] s1].
  - apply bind_same; [apply agree_unresolved|]. intros [[|f fs]|] s2 _; [done|apply IH|].
    apply bind_same; [apply agree_abandon|done].
  - destruct e; try done. apply bind_same; [apply agree_abandon|done].
Qed.

Lemma agree_proceed stashed resolved cost error next next' s :
  nothing_unmerged run s -> (forall s, next s = next' s) ->
  proceed run stashed resolved cost error next s = proceed run' stashed resolved cost error next' s.
Proof.
  intros Hn Hnext. apply bind_same; [by apply agree_clean|]. intros x s1 _. destruct (ok x).
  - apply bind_same; [apply agree_finished|done].
  - apply bind_same; [apply Hnext|]. intros [c|] s2 _; [done|]. apply bind_same; [apply agree_abandon|done].
Qed.

Lemma agree_single use_consensus max_attempts stashed p cost s :
  (0 < max_attempts)%nat ->
  single_model run read_text llm use_consensus max_attempts stashed p cost s = single_model run' read_text llm use_consensus max_attempts stashed p cost s.
Proof.
  intros Ha. apply bind_same; [destruct use_consensus; [apply agree_conflicted|done]|]. intros x s1 _.
  apply bind_same; [apply agree_attempts|]. intros t s2 E. rewrite <- agree_attempts in E.
  apply attempts_spec in E; [|done|by right]. destruct t as [r|c [|f fs] cost']; [done| |].
  - apply agree_proceed; [apply E|]. intros s3. apply agree_unresolved.
  - apply bind_same; [apply agree_abandon|done].
Qed.

Lemma agree_turn use_consensus cr max_attempts stashed p s :
  (0 < max_attempts)%nat -> (pr_conflicted p = [] -> nothing_unmerged run s) ->
  commit_turn run read_text write_text ask llm use_consensus cr max_attempts stashed p s
  = commit_turn run' read_text write_text ask llm use_consensus cr max_attempts stashed p s.
Proof.
  intros Ha Hp. unfold commit_turn. destruct (pr_conflicted p) as [|f fs] eqn:Ec.
  - apply bind_same; [by apply agree_clean, Hp|]. intros x s1 _. destruct (ok x); [|done]. apply bind_same; [apply agree_finished|done].
  - destruct use_consensus; [|by apply agree_single]. apply bind_same; [apply agree_consensus|]. intros [[] c] s1 _; [|by apply agree_single].
    apply bind_same; [apply agree_unresolved|]. intros [[|g gs]|] s2 E; [|by apply agree_single|apply bind_same; [apply agree_abandon|done]].
    rewrite <- agree_unresolved in E. apply unresolved_nil in E as (-> & ? & _); [|done]. apply agree_proceed; [done|exact agree_conflicted].
Qed.

Lemma agree_commits n use_consensus cr max_attempts stashed p s :
  (0 < max_attempts)%nat -> (pr_conflicted p = [] -> nothing_unmerged run s) ->
  commits n (commit_turn run read_text write_text ask llm use_consensus cr max_attempts stashed) p s
  = commits n (commit_turn run' read_text write_text ask llm use_consensus cr max_attempts stashed) p s.
Proof.
  intros Ha. revert p s. induction n as [|n IH]; intros p s Hp; cbn [commits]; [done|].
  apply bind_same; [by apply agree_turn|]. intros t s1 E. rewrite <- agree_turn in E by done. apply turn_spec in E; [|done|done|done].
  destruct t as [r|p'|p']; [done|by apply IH|done].
Qed.

Lemma agree_clear ref s : clear_conflicting_runtime_files run unlink ref s = clear_conflicting_runtime_files run' unlink ref s.
Proof. unfold clear_conflicting_runtime_files, untracked, tracked_paths. alike. Qed.

Lemma agree_rebase_from base use_consensus cr max_attempts max_commits s :
  (0 < max_attempts)%nat ->
  rebase_from run read_text write_text ask llm base use_consensus cr max_attempts max_commits s
  = rebase_from run' read_text write_text ask llm base use_consensus cr max_attempts max_commits s.
Proof.
  intros Ha. unfold rebase_from. apply bind_same; [alike|]. intros x s1 _. cbv zeta. apply bind_same; [alike|]. intros y s2 _. destruct (ok y).
  { apply bind_same; [apply agree_pop|done]. }
  apply bind_same; [apply agree_conflicted|]. intros [[|f fs]|] s3 _; [apply agree_abandon| |apply agree_abandon].
  apply bind_same; [by apply agree_commits|]. intros [r|[p cap]] s4 _; [done|]. apply bind_same; [apply agree_abandon|done].
Qed.

End Agree.

(** ** Lemmas: programs that return, and how often the model is asked *)

Section Bounded.
Context {S : Type} (asked : S -> nat).

(** The program returns a value, and asks the model at most [k] times. *)
Definition within (k : nat) {A} (m : M S A) : Prop :=
  forall s, exists x s1, m s = (Ret x, s1) /\ (asked s1 <= asked s + k)%nat.

Lemma within_ret {A} (x : A) : within 0 (ret x).
Proof. intros s. exists x, s. split; [done|lia]. Qed.

Lemma within_bind {A B} a b (m : M S A) (k : A -> M S B) :
  within a m -> (forall x, within b (k x)) -> within (a + b) (bind m k).
Proof.
  intros Hm Hk s. destruct (Hm s) as (x & s1 & E & H1). destruct (Hk x s1) as (y & s2 & E2 & H2).
  exists y, s2. unfold bind. rewrite E. split; [done|lia].
Qed.

Lemma within_free {A B} b (m : M S A) (k : A -> M S B) : within 0 m -> (forall x, within b (k x)) -> within b (bind m k).
Proof. apply (within_bind 0 b). Qed.

Lemma within_le {A} a b (m : M S A) : (a <= b)%nat -> within a m -> within b m.
Proof. intros Hab Hm s. destruct (Hm s) as (x & s1 & E & H). exists x, s1. split; [done|lia]. Qed.

Context (run : list string -> M S Shell) (unlink : string -> M S unit)
        (read_text : string -> S -> option string) (write_text : string -> string -> M S unit)
        (ask : string -> option string -> string -> string -> M S (string * Z))
        (llm : list string -> M S Z).
Hypothesis run_returns : forall argv, within 0 (run argv).
Hypothesis unlink_returns : forall path, within 0 (unlink path).
Hypothesis write_returns : forall path text, within 0 (write_text path text).
Hypothesis ask_counts : forall model template filename content s, (asked (ask model template filename content s).2 <= asked s)%nat.
Hypothesis llm_counts : forall files s, (asked (llm files s).2 <= asked s + 1)%nat.
Hypothesis llm_raises : forall files s e, (llm files s).1 = Raise e -> exists msg, e = RuntimeError msg.

Ltac quiet := repeat first [apply within_ret | apply run_returns | apply unlink_returns | apply write_returns
  | apply within_free; [|intros ?] | case_match].

Lemma unlink_all_within l : within 0 (unlink_all unlink l).
Proof. induction l as [|p l IH]; cbn; [apply within_ret|]. apply within_free; [apply unlink_returns|by intros _]. Qed.

Lemma conflicted_within : within 0 (get_conflicted_files run).
Proof. unfold get_conflicted_files. quiet. Qed.

Lemma unresolved_within files : within 0 (unresolved_paths run read_text files).
Proof. apply within_free; [apply conflicted_within|]. intros u s. eexists _, s. split; [done|lia]. Qed.

Lemma pop_within stashed : within 0 (pop_stash run stashed).
Proof. unfold pop_stash. quiet. Qed.

Lemma abandon_within stashed r : within 0 (abandon run stashed r).
Proof. apply within_free; [apply run_returns|]. intros _. apply within_free; [apply pop_within|]. intros _. apply within_ret. Qed.

Lemma finished_within stashed resolved cost : within 0 (finished run stashed resolved cost).
Proof. apply within_free; [apply pop_within|]. intros b. apply within_ret. Qed.

Lemma invoke_all_within templates filename content models : within 0 (invoke_all ask templates filename content models).
Proof.
  induction models as [|m models IH]; cbn; [apply within_ret|]. apply within_free.
  - intros s. unfold invoke_model. pose proof (ask_counts m (find_prompt_template m templates) filename content s) as H.
    destruct (ask _ _ _ _ s) as [[[text cost]|e] s1]; cbn in H; eexists _, s1; (split; [done|lia]).
  - intros a. apply within_free; [exact IH|]. intros l. apply within_ret.
Qed.

Lemma consensus_within cr files cost : within 0 (try_consensus_resolution run read_text write_text ask cr files cost).
Proof.
  revert cost. induction files as [|f files IH]; intros cost; cbn; [apply within_ret|]. intros s. destruct (read_text f s) as [content|].
  - revert s. apply within_free.
    + unfold resolve_file_with_consensus. case_match; [apply within_ret|]. apply within_free; [apply invoke_all_within|]. intros l. apply within_ret.
    + intros [[r|] c]; [|apply within_ret]. apply within_free; [apply write_returns|]. intros _.
      apply within_free; [apply run_returns|]. intros x. destruct (ok x); [apply IH|apply within_ret].
  - eexists _, s. split; [done|lia].
Qed.

Lemma attempts_within n stashed resolved conflicted remaining cost :
  within n (attempts run read_text llm n stashed resolved conflicted remaining cost).
Proof.
  revert conflicted remaining cost. induction n as [|n IH]; intros; cbn [attempts]; [apply within_ret|]. intros s.
  pose proof (llm_counts conflicted s) as Hc. pose proof (llm_raises conflicted s) as Hr.
  destruct (llm conflicted s) as [[c|e] s1]; cbn [fst snd] in *.
  - assert (H : within n (do! verified := unresolved_paths run read_text conflicted in
      match verified with
      | None => do! r := abort_unverifiable run stashed resolved (cost + c) in ret (Stopped r)
      | Some [] => ret (Attempted conflicted [] (cost + c))
      | Some remaining => attempts run read_text llm n stashed resolved remaining remaining (cost + c)
      end)).
    { apply within_free; [apply unresolved_within|]. intros [[|f fs]|]; [by apply (within_le 0); [lia|apply within_ret]|apply IH|].
      apply (within_le 0); [lia|]. apply within_free; [apply abandon_within|]. intros r. apply within_ret. }
    destruct (H s1) as (x & s2 & E & Hs). exists x, s2. split; [exact E|lia].
  - destruct (Hr e eq_refl) as [msg ->].
    assert (H : within 0 (do! r := abandon run stashed (failed resolved msg, cost) in ret (Stopped r))).
    { apply within_free; [apply abandon_within|]. intros r. apply within_ret. }
    destruct (H s1) as (x & s2 & E & Hs). exists x, s2. split; [exact E|lia].
Qed.

Lemma proceed_within stashed resolved cost error next :
  within 0 next -> within 0 (proceed run stashed resolved cost error next).
Proof.
  intros Hn. apply within_free; [apply run_returns|]. intros x. destruct (ok x).
  - apply within_free; [apply finished_within|]. intros r. apply within_ret.
  - apply within_free; [exact Hn|]. intros [c|]; [apply within_ret|]. apply within_free; [apply abandon_within|]. intros r. apply within_ret.
Qed.

Lemma single_within use_consensus n stashed p cost : within n (single_model run read_text llm use_consensus n stashed p cost).
Proof.
  apply within_free; [destruct use_consensus; [apply conflicted_within|apply within_ret]|]. intros x.
  apply (within_le (n + 0)); [lia|]. apply within_bind; [apply attempts_within|]. intros [r|c [|f fs] cost'].
  - apply within_ret.
  - apply proceed_within, unresolved_within.
  - apply within_free; [apply abandon_within|]. intros r. apply within_ret.
Qed.

Lemma turn_within use_consensus cr n stashed p :
  within n (commit_turn run read_text write_text ask llm use_consensus cr n stashed p).
Proof.
  unfold commit_turn. destruct (pr_conflicted p) as [|f fs].
  - apply (within_le 0); [lia|]. apply within_free; [apply run_returns|]. intros x. destruct (ok x); [|apply within_ret].
    apply within_free; [apply finished_within|]. intros r. apply within_ret.
  - destruct use_consensus; [|apply single_within]. apply within_free; [apply consensus_within|]. intros [[] c]; [|apply single_within].
    apply within_free; [apply unresolved_within|]. intros [[|g gs]|]; [|apply single_within|].
    + apply (within_le 0); [lia|]. apply proceed_within, conflicted_within.
    + apply (within_le 0); [lia|]. apply within_free; [apply abandon_within|]. intros r. apply within_ret.
Qed.

Lemma commits_within n k turn p : (forall p, within k (turn p)) -> within (n * k) (commits (S := S) n turn p).
Proof.
  intros Ht. revert p. induction n as [|n IH]; intros p; cbn [commits]; [apply within_ret|]. cbn [Nat.mul]. apply within_bind; [apply Ht|].
  intros [r|p'|p']; [apply (within_le 0); [lia|apply within_ret]|apply IH|apply (within_le 0); [lia|apply within_ret]].
Qed.

Lemma clear_within ref s :
  (exists s1, clear_conflicting_runtime_files run unlink ref s = (Ret tt, s1) /\ (asked s1 <= asked s)%nat) \/
  (exists msg s1, clear_conflicting_runtime_files run unlink ref s = (Raise (RuntimeError msg), s1) /\ (asked s1 <= asked s)%nat).
Proof.
  unfold clear_conflicting_runtime_files, untracked, tracked_paths, bind.
  destruct (run_returns (["git"; "ls-files"; "-z"; "--others"; "--"] ++ map pathspec_include RUNTIME_STATE_PATHS)%list s) as (x & s1 & -> & H1).
  cbn [ret]. destruct (ok x); [|left; exists s1; split; [done|lia]].
  destruct (nul_fields (out x)) as [|l ls]; [left; exists s1; split; [done|lia]|].
  destruct (run_returns (["git"; "ls-tree"; "-r"; "-z"; ref; "--"] ++ [".claude/"; ".sova/"])%list s1) as (y & s2 & -> & H2). cbn [ret].
  destruct (ok y); [|left; exists s2; split; [done|lia]].
  destruct (map _ (nul_fields (out y))) as [|u us]; [left; exists s2; split; [done|lia]|].
  destruct (List.filter (fun rel => negb (PyStr.startswith rel ".sova/")) _).
  - destruct (unlink_all_within (List.filter (fun rel => bool_decide (rel ∈ u :: us)) (l :: ls)) s2) as ([] & s3 & -> & H3).
    left. exists s3. split; [done|lia].
  - right. eexists _, s2. split; [done|lia].
Qed.

End Bounded.

(** ** Theorems *)

Section Theorems.
Context {S : Type} (run : list string -> M S Shell) (unlink : string -> M S unit)
        (read_text : string -> S -> option string) (write_text : string -> string -> M S unit)
        (ask : string -> option string -> string -> string -> M S (string * Z))
        (llm : list string -> M S Z).

(** The stash was taken, or not, as git said; without conflicts git has rebased alone. *)
Definition stash_taken (stashed : bool) : Prop := exists s1 x s2, run STASH s1 = (Ret x, s2) /\ stashed = is_stashed x.
Definition rebased (base : string) (stashed popped : bool) (s' : S) : Prop :=
  exists s1 x s2, run ["git"; "rebase"; "origin/" ++ base] s1 = (Ret x, s2) /\ ok x = true /\ pop_stash run stashed s2 = (Ret popped, s').

(** The rebase was not begun: the base could not be fetched, or a runtime file is in the way. *)
Definition not_begun (base : string) (s' : S) : Prop :=
  (exists s1 x, run ["git"; "fetch"; "origin"; base] s1 = (Ret x, s') /\ ok x = false) \/
  (exists s1 msg, clear_conflicting_runtime_files run unlink ("origin/" ++ base) s1 = (Raise (RuntimeError msg), s')).


(** Git is told to continue only where it lists nothing as unmerged: what it answers, and
    does, anywhere else is without effect, since it is never asked there. *)
Theorem continue_only_when_resolved run' cr litellm base max_attempts max_commits s :
  reads (run CONFLICTED) -> (0 < max_attempts)%nat ->
  (forall argv s, argv <> CONTINUE -> run argv s = run' argv s) ->
  (forall s, nothing_unmerged run s -> run CONTINUE s = run' CONTINUE s) ->
  rebase_with_conflict_resolution run unlink read_text write_text ask llm cr litellm base max_attempts max_commits s
  = rebase_with_conflict_resolution run' unlink read_text write_text ask llm cr litellm base max_attempts max_commits s.
Proof.
  intros Hr Ha Hag Hcl. unfold rebase_with_conflict_resolution. apply bind_same.
  { destruct (2 <=? _)%nat; [|done]. apply bind_same; [by apply Hag|done]. }
  intros _ s1 _. apply bind_same; [by apply Hag|]. intros x s2 _. destruct (ok x); cbn [negb]; [|done].
  apply bind_same; [by apply Hag|]. intros y s3 _. rewrite (agree_clear run run' unlink Hag).
  destruct (clear_conflicting_runtime_files _ _ _ _) as [[[]|e] s4]; [|done]. by apply agree_rebase_from.
Qed.

(** When git and the file system answer and the model raises nothing but [RuntimeError], a
    rebase returns, having asked the model at most as often as attempts on commits are
    allowed. *)
Theorem rebase_returns (asked : S -> nat) cr litellm base max_attempts max_commits s :
  (forall argv, within asked 0 (run argv)) -> (forall path, within asked 0 (unlink path)) ->
  (forall path text, within asked 0 (write_text path text)) ->
  (forall model template filename content s, (asked (ask model template filename content s).2 <= asked s)%nat) ->
  (forall files s, (asked (llm files s).2 <= asked s + 1)%nat) ->
  (forall files s e, (llm files s).1 = Raise e -> exists msg, e = RuntimeError msg) ->
  (0 < max_commits)%nat ->
  exists r s', rebase_with_conflict_resolution run unlink read_text write_text ask llm cr litellm base max_attempts max_commits s = (Ret r, s') /\
               (asked s' <= asked s + max_commits * max_attempts)%nat.
Proof.
  intros Hrun Hun Hw Hask Hllm Hraise Hc. unfold rebase_with_conflict_resolution.
  enough (H : within asked (max_commits * max_attempts) (do! fetch := run ["git"; "fetch"; "origin"; base] in
    if negb (ok fetch) then ret (failed 0 ("Fetch failed: " ++ PyStr.slice_to 200 (err fetch)), 0%Z)
    else do! _ := run unstage_command in fun s =>
      match clear_conflicting_runtime_files run unlink ("origin/" ++ base) s with
      | (Raise (RuntimeError msg), s) => (Ret (failed 0 (PyStr.slice_to 300 msg), 0%Z), s)
      | (Raise e, s) => (Raise e, s)
      | (Ret _, s) => rebase_from run read_text write_text ask llm base ((2 <=? length (cr_models cr))%nat && litellm) cr max_attempts max_commits s
      end)).
  { revert s. apply within_free; [|intros _; exact H]. destruct (2 <=? _)%nat; [|apply within_ret]. apply within_free; [apply Hrun|]. intros x. apply within_ret. }
  apply within_free; [apply Hrun|]. intros x. destruct (ok x); cbn [negb]; [|apply (within_le _ 0); [lia|apply within_ret]].
  apply within_free; [apply Hrun|]. intros _ s1.
  destruct (clear_within asked run unlink Hrun Hun ("origin/" ++ base) s1) as [(s2 & -> & H2)|(msg & s2 & -> & H2)]; [|eexists _, s2; split; [done|lia]].
  enough (H : within asked (max_commits * max_attempts) (rebase_from run read_text write_text ask llm base ((2 <=? length (cr_models cr))%nat && litellm) cr max_attempts max_commits)).
  { destruct (H s2) as (r & s3 & E & H3). exists r, s3. split; [exact E|lia]. }
  apply within_free; [apply Hrun|]. intros y. cbv zeta. apply within_free; [apply Hrun|]. intros z. destruct (ok z).
  { apply (within_le _ 0); [lia|]. apply within_free; [by apply pop_within|]. intros b. apply within_ret. }
  apply within_free; [by apply conflicted_within|]. intros [[|f fs]|]; [apply (within_le _ 0); [lia|by apply abandon_within]| |apply (within_le _ 0); [lia|by apply abandon_within]].
  apply (within_le _ (max_commits * max_attempts + 0)); [lia|]. apply within_bind; [apply commits_within; intros p; by apply turn_within|].
  intros [r|[p cap]]; [apply within_ret|]. apply within_free; [by apply abandon_within|]. intros r.
  destruct (Nat.eqb_spec max_commits 0); [lia|]. rewrite andb_false_r. apply within_ret.
Qed.

(** What many models resolve is a text that one of them answered, without a conflict marker
    and with at least half of the lines there were; at least two answers are such texts, and
    no other has more that agree with it, up to ends of lines, than the first that the
    threshold of agreement among them accepts. *)
Theorem consensus_sound cr filename content s text cost s' :
  resolve_file_with_consensus ask cr filename content s = (Ret (Some text, cost), s') ->
  exists results, invoke_all ask (cr_templates cr) filename content (cr_models cr) s = (Ret results, s') /\
  let valid := List.filter (fun t => is_valid_resolution t (count_non_marker_lines content)) (omap fst results) in
  cost = foldr Z.add 0%Z (map snd results) /\
  text ∈ omap fst results /\ has_conflict_markers text = false /\
  (count_non_marker_lines content <= 2 * length (PyStr.splitlines (PyStr.strip text)))%nat /\
  (2 <= length valid)%nat /\ (Z.of_nat (length valid) * cr_threshold cr <= 100 * agreeing valid text)%Z /\
  forall t, t ∈ valid -> (agreeing valid t <= agreeing valid text)%Z.
Proof.
  unfold resolve_file_with_consensus. destruct (_ <? 2)%nat; [done|]. intros H. step H. exists x. injection H as H <- <-. split; [done|].
  set (valid := List.filter _ _) in *. cbv zeta. split; [done|].
  assert (Hs : select_consensus valid (cr_threshold cr) = Some text) by (by destruct valid).
  apply select_consensus_spec in Hs as (Hl & Hh & Ht & Hm).
  assert (Hin : text ∈ valid).
  { destruct (List.filter (same_as _) valid) as [|y ys] eqn:F; [done|]. injection Hh as ->.
    assert (In text (List.filter (same_as (normalize_resolution text)) valid)) as [Hin _]%filter_In by (rewrite F; by left). by apply list_elem_of_In. }
  apply list_elem_of_In, filter_In in Hin as [Hin Hv]. apply andb_true_iff in Hv as [Hv1%negb_true_iff Hv2].
  split; [by apply list_elem_of_In|]. split; [done|]. split; [|auto].
  apply orb_true_iff in Hv2 as [->%Nat.eqb_eq|Hv2%negb_true_iff%Nat.ltb_ge]; [lia|done].
Qed.

End Theorems.

(** ** Examples *)

Module Examples.

(** A worktree: its files, what git lists as unmerged, and whether a rebase is going on, a
    stash is kept, and how often the model was asked. *)
Record Worktree := { files : list (string * string); unmerged : list string; rebasing : bool; kept : bool; rounds : nat }.

Definition nl1 : string := PyStr.of_list ["010"%char].
Definition done_with (w : Worktree) (text : string) : outcome Shell * Worktree := (Ret {| code := 0; out := text; err := "" |}, w).

(** What git is asked to do. *)
Definition asks (argv words : list string) : bool := bool_decide (take (length words) argv = words).

Definition git (argv : list string) (w : Worktree) : outcome Shell * Worktree :=
  if asks argv CONTINUE then
    match unmerged w with
    | [] => done_with {| files := files w; unmerged := []; rebasing := false; kept := kept w; rounds := rounds w |} ""
    | _ => (Ret {| code := 1; out := ""; err := "needs merge" |}, w)
    end
  else if asks argv ABORT then
    done_with {| files := files w; unmerged := []; rebasing := false; kept := kept w; rounds := rounds w |} ""
  else if asks argv ["git"; "rebase"] then
    (Ret {| code := 1; out := ""; err := "CONFLICT" |}, {| files := files w; unmerged := unmerged w; rebasing := true; kept := kept w; rounds := rounds w |})
  else if asks argv ["git"; "stash"; "pop"] then
    done_with {| files := files w; unmerged := unmerged w; rebasing := rebasing w; kept := false; rounds := rounds w |} ""
  else if asks argv ["git"; "stash"] then
    done_with {| files := files w; unmerged := unmerged w; rebasing := rebasing w; kept := true; rounds := rounds w |} "Saved"
  else if asks argv ["git"; "diff"] then done_with w (PyStr.join nl1 (unmerged w))
  else if asks argv ["git"; "add"] then
    done_with {| files := files w; unmerged := List.filter (fun g => negb (bool_decide (g ∈ argv))) (unmerged w); rebasing := rebasing w; kept := kept w; rounds := rounds w |} ""
  else done_with w "".

Definition read (path : string) (w : Worktree) : option string := snd <$> List.find (fun f => String.eqb f.1 path) (files w).
Definition write (path text : string) (w : Worktree) : outcome unit * Worktree :=
  (Ret tt, {| files := (path, text) :: files w; unmerged := unmerged w; rebasing := rebasing w; kept := kept w; rounds := rounds w |}).

Definition conflict : string := "<<<<<<< HEAD" ++ nl1 ++ "a" ++ nl1 ++ "=======" ++ nl1 ++ "b" ++ nl1 ++ ">>>>>>> branch".
Definition worktree (names : list string) : Worktree :=
  {| files := map (fun n => (n, conflict)) names; unmerged := names; rebasing := false; kept := false; rounds := 0 |}.

(** A model that, in the round [n], leaves these files with these texts, all of them staged. *)
Definition model (script : nat -> list (string * string)) (_ : list string) (w : Worktree) : outcome Z * Worktree :=
  let edits := script (rounds w) in
  (Ret 1%Z, {| files := (edits ++ files w)%list; unmerged := List.filter (fun f => negb (bool_decide (f ∈ map fst edits))) (unmerged w);
               rebasing := rebasing w; kept := kept w; rounds := Datatypes.S (rounds w) |}).

Definition alone : Conf := {| cr_models := []; cr_threshold := 66; cr_templates := [] |}.
Definition unlinked (_ : string) (w : Worktree) : outcome unit * Worktree := (Ret tt, w).
Definition answers (text : string -> string) (model_id : string) (_ : option string) (_ _ : string) (w : Worktree) : outcome (string * Z) * Worktree :=
  (Ret (text model_id, 2%Z), w).
Definition rebase (cr : Conf) (ask : string -> option string -> string -> string -> M Worktree (string * Z)) (llm : list string -> M Worktree Z) (w : Worktree) :=
  rebase_with_conflict_resolution git unlinked read write ask llm cr true "main" 3 5 w.
Definition silent := answers (fun _ => "").

Example resolved_in_two_rounds :
  (rebase alone silent (model (fun n => match n with O => [("a.py", "ab")] | _ => [("b.py", "ab")] end)) (worktree ["a.py"; "b.py"])).1
  = Ret ({| rb_success := true; conflicts_resolved := 1; rb_error := "" |}, 2%Z).
Proof. vm_compute. done. Qed.

Definition three : Conf := {| cr_models := ["m1"; "m2"; "m3"]; cr_threshold := 66; cr_templates := [] |}.
Definition mostly (m : string) : string := if String.eqb m "m2" then "other" else "a" ++ nl1 ++ "b".

Example resolved_by_consensus :
  (rebase three (answers mostly) (model (fun _ => [])) (worktree ["a.py"])).1
  = Ret ({| rb_success := true; conflicts_resolved := 1; rb_error := "" |}, 6%Z).
Proof. vm_compute. done. Qed.

Example unresolved_is_aborted :
  let '(r, w) := rebase alone silent (model (fun _ => [])) (worktree ["a.py"]) in
  r = Ret ({| rb_success := false; conflicts_resolved := 0; rb_error := "Unresolved conflicts after 3 attempts: a.py" |}, 3%Z) /\
  rebasing w = false /\ kept w = false /\ rounds w = 3%nat.
Proof. vm_compute. auto. Qed.

(** The timeout of a call raises [TimeoutError], which nothing catches: the rebase goes on in
    the worktree, and the changes that were stashed stay in the stash. *)
Example timeout_leaves_rebase :
  let '(r, w) := rebase alone silent (fun _ w => (Raise TimeoutError, w)) (worktree ["a.py"]) in
  r = Raise TimeoutError /\ rebasing w = true /\ kept w = true.
Proof. vm_compute. auto. Qed.

(** What was resolved in an attempt is not looked at after the next ones: markers that come
    back into it are committed. *)
Example resolved_file_not_checked_again :
  let '(r, w) := rebase alone silent (model (fun n => match n with O => [("a.py", "ab")] | _ => [("b.py", "ab"); ("a.py", conflict)] end))
                   (worktree ["a.py"; "b.py"]) in
  (exists x, r = Ret x /\ rb_success x.1 = true) /\ file_has_conflict read "a.py" w = true.
Proof. vm_compute. split; [|done]. eexists. split; [done|done]. Qed.

(** Git quotes a name beyond ASCII (here of the file written "cafe.py"); no file has the quoted
    name, so its text is not looked at. *)
Definition quote : string := PyStr.of_list ["034"%char].
Definition quoted : string := quote ++ "caf\303\251.py" ++ quote.
Definition quoting (argv : list string) (w : Worktree) : outcome Shell * Worktree :=
  if asks argv ["git"; "diff"] then done_with w (match unmerged w with [] => "" | _ => quoted end) else git argv w.

Example quoted_file_not_checked :
  let '(r, w) := rebase_with_conflict_resolution quoting unlinked read write silent (model (fun _ => [("cafe.py", conflict)])) alone true "main" 3 5
                   (worktree ["cafe.py"]) in
  (exists x, r = Ret x /\ rb_success x.1 = true) /\ file_has_conflict read "cafe.py" w = true.
Proof. vm_compute. split; [|done]. eexists. split; [done|done]. Qed.

Lemma git_looks : reads (git CONFLICTED).
Proof. by intros w. Qed.


(** A git whose continuation erases everything, where something is unmerged. *)
Definition dangerous (argv : list string) (w : Worktree) : outcome Shell * Worktree :=
  if bool_decide (argv = CONTINUE) && negb (match (get_conflicted_files git w).1 with Ret (Some []) => true | _ => false end)
  then done_with (worktree []) "" else git argv w.

Lemma continue_only_when_resolved_witness :
  rebase alone silent (model (fun n => match n with O => [("a.py", "ab")] | _ => [("b.py", "ab")] end)) (worktree ["a.py"; "b.py"])
  = rebase_with_conflict_resolution dangerous unlinked read write silent
      (model (fun n => match n with O => [("a.py", "ab")] | _ => [("b.py", "ab")] end)) alone true "main" 3 5 (worktree ["a.py"; "b.py"]).
Proof.
  apply (continue_only_when_resolved git unlinked read write silent
           (model (fun n => match n with O => [("a.py", "ab")] | _ => [("b.py", "ab")] end)) dangerous); [exact git_looks|lia| |].
  - intros argv w Hne. unfold dangerous. by rewrite (bool_decide_eq_false_2 _ Hne).
  - intros w Hn. unfold dangerous. rewrite Hn. cbn [fst negb]. by rewrite andb_false_r.
Defined.

Lemma rebase_returns_witness :
  exists r s', rebase alone silent (model (fun _ => [])) (worktree ["a.py"]) = (Ret r, s') /\ (rounds s' <= 0 + 5 * 3)%nat.
Proof.
  apply (rebase_returns git unlinked read write silent (model (fun _ => [])) rounds alone true "main" 3 5 (worktree ["a.py"])).
  - intros argv w. unfold git, done_with. repeat (destruct (asks _ _); [try (destruct (unmerged w)); eexists _, _; (split; [reflexivity|cbn; lia])|]).
    eexists _, _. split; [reflexivity|lia].
  - intros path w. exists tt, w. split; [reflexivity|lia].
  - intros path text w. eexists tt, _. split; [reflexivity|cbn; lia].
  - intros m t f c w. cbn. lia.
  - intros fs w. cbn. lia.
  - intros fs w e H. discriminate H.
  - lia.
Defined.

Lemma consensus_sound_witness :
  exists text cost w', resolve_file_with_consensus (answers mostly) three "a.py" conflict (worktree ["a.py"]) = (Ret (Some text, cost), w') /\
  has_conflict_markers text = false.
Proof.
  destruct (resolve_file_with_consensus (answers mostly) three "a.py" conflict (worktree ["a.py"])) as [[[[text|] cost]|e] w'] eqn:E;
    [|vm_compute in E; discriminate E..].
  exists text, cost, w'. split; [reflexivity|].
  destruct (consensus_sound (answers mostly) three "a.py" conflict (worktree ["a.py"]) text cost w' E) as (rs & _ & H). apply H.
Defined.

End Examples.
