(* ===== verification/Worktrees.v ===== *)
(** * Worktrees: where agents work, and what may be taken away from them

    git/worktree.py: the creation, reuse and repair of worktrees, the search for an agent that
    works in one, the removal of those that are no longer needed, and the preservation of
    partial work. Git, the file system, the table of runs and the copying of files are
    arguments over a state, as in [CommitFold]; the process table is that of [Recovery]. *)

From stdpp Require Import base list strings pretty sorting.
From Stdlib Require Import Ascii.
From S2P Require Import Prelude Commits CommitFold GitRebase Recovery.

Local Open Scope string_scope.
Local Open Scope fold_scope.

Definition newline : string := PyStr.of_list ["010"%char].

(** [subprocess_error] *)
Definition subprocess_error (argv : list string) (r : Shell) : exn :=
  RuntimeError ("Command failed: " ++ PyStr.join " " argv ++ newline ++ "Exit code: " ++ pretty (code r) ++ newline
                ++ "stderr: " ++ PyStr.slice_to 500 (err r)).

Definition WORKTREE_DIR : string := ".claude/worktrees".
Definition under (dir name : string) : string := dir ++ "/" ++ name.

(** ** Names *)

Definition is_upper (c : ascii) : bool := (65 <=? nat_of_ascii c)%nat && (nat_of_ascii c <=? 90)%nat.

(** [[A-Z][A-Z0-9]+-\d+] at the start of a text, and what follows it *)
Definition jira_key (l : list ascii) : option (list ascii * list ascii) :=
  match l with
  | c :: l' =>
      let project := PyStr.take_while (fun c => is_upper c || PyStr.is_digit c) l' in
      match PyStr.drop_while (fun c => is_upper c || PyStr.is_digit c) l' with
      | "-"%char :: rest =>
          let number := PyStr.take_while PyStr.is_digit rest in
          if is_upper c && negb (bool_decide (project = [])) && negb (bool_decide (number = []))
          then Some (c :: project ++ "-"%char :: number, PyStr.drop_while PyStr.is_digit rest)%list else None
      | _ => None
      end
  | [] => None
  end.

(** [_JIRA_KEY_RE] on a name without a line feed *)
Definition is_jira_key (name : string) : bool := match jira_key (PyStr.to_list name) with Some (_, []) => true | _ => false end.

(** [extract_issue_from_branch] *)
Definition extract_issue_from_branch (branch : string) : option string * option string :=
  match List.find (fun prefix => PyStr.startswith branch (prefix ++ "/")) ["feat"; "fix"; "refactor"; "chore"; "test"; "docs"] with
  | None => (None, None)
  | Some prefix =>
      let rest := PyStr.to_list (PyStr.drop_chars (Datatypes.S (String.length prefix)) branch) in
      let number := PyStr.take_while PyStr.is_digit (drop 6 rest) in
      if PyStr.startswith (PyStr.of_list rest) "issue-" && negb (bool_decide (number = [])) then (Some (PyStr.of_list number), None)
      else match jira_key rest with Some (key, _) => (None, Some (PyStr.of_list key)) | None => (None, None) end
  end.

(** ** Paths of agent infrastructure *)

(** [RUNTIME_ARTIFACT_PREFIXES]; the adapters' prefixes are a parameter *)
Definition RUNTIME_ARTIFACT_PREFIXES (adapters : list string) : list string := (".claude/" :: ".sova/" :: adapters)%list.
Definition exclude_anywhere (name : string) : string := ":(exclude,glob)**/" ++ name.

(** [_PRESERVE_ADD_EXCLUDE_PATHSPECS] *)
Definition PRESERVE_ADD_EXCLUDE_PATHSPECS (adapters : list string) : list string :=
  (flat_map (fun name => [exclude_anywhere name; exclude_anywhere (name ++ "/**")]) (sort_by str_key SUSPICIOUS_PATHS)
   ++ map pathspec_exclude (sort_by str_key (dedup [] (RUNTIME_ARTIFACT_PREFIXES adapters))))%list.

(** The columns of a row that the search for an active agent reads. *)
Record AgentRow := { ar_worktree : option string; ar_status : string; ar_pid : option Z }.

(** [_TERMINAL] of [check_worktree_active_agent] *)
Definition NOT_ACTIVE : list string := ["done"; "failed"; "rejected"; "interrupted"; "paused"; "stopped"].

(** [GCResult] *)
Record GCResult := { worktrees_removed : nat; branches_removed : nat; stashes_found : list string; errors : list string }.

(** What a checkout has of files and directories; [None] for a directory that cannot be read. *)
Record Side := { has_file : string -> bool; names_in : string -> option (list string); has_claude : bool }.

(** A directory of the project that the worktree does not have in full. *)
Definition lacks (source destination : option (list string)) : bool :=
  match source, destination with
  | None, _ => false
  | Some _, None => true
  | Some names, Some there => negb (forallb (fun n => bool_decide (n ∈ there)) names)
  end.

Definition CLAUDE_DIRS : list string := ["commands"; "rules"; "agent-memory"; "skills"].
Definition CLAUDE_FILES : list string := ["settings.local.json"; "settings.json"].

(** [missing_claude_artifacts]; [skills] is the directory of the runtime's own skills, when it
    has one, with its names on both sides. *)
Definition missing_claude_artifacts (project worktree : Side) (skills : option (string * option (list string) * option (list string))) : list string :=
  ((if has_file project "CLAUDE.md" && negb (has_file worktree "CLAUDE.md") then ["CLAUDE.md"] else [])
   ++ (match skills with Some (path, source, destination) => if lacks source destination then [path] else [] | None => [] end)
   ++ (if has_claude project then
         map (String.append ".claude/") (List.filter (fun d => lacks (names_in project (String.append ".claude/" d)) (names_in worktree (String.append ".claude/" d))) CLAUDE_DIRS)
         ++ map (String.append ".claude/") (List.filter (fun f => has_file project (String.append ".claude/" f) && negb (has_file worktree (String.append ".claude/" f))) CLAUDE_FILES)
       else []))%list.

Section Worktrees.
Context {S : Type} (run : string -> list string -> M S Shell)
        (exists_path is_dir : string -> S -> bool) (entries : string -> S -> list string) (mtime : string -> S -> outcome Z)
        (resolve : string -> S -> string) (mkdir rmtree : string -> M S unit)
        (agent_rows : S -> outcome (list AgentRow)) (host : S -> Host)
        (copy_artifacts : string -> bool -> M S unit)
        (side : string -> S -> Side) (skills : string -> string -> S -> option (string * option (list string) * option (list string)))
        (copy_files compose_name : string -> M S unit).

(** [run_checked] *)
Definition run_checked (cwd : string) (argv : list string) : M S Shell :=
  do! r := run cwd argv in if ok r then ret r else throw (subprocess_error argv r).

(** ** Finding, and looking *)

Definition LIST : list string := ["git"; "worktree"; "list"; "--porcelain"].

(** The worktree of a branch in the listing; [current] is the last path seen. *)
Fixpoint worktree_of (branch : string) (current : option string) (lines : list string) : option string :=
  match lines with
  | [] => None
  | line :: lines =>
      match (if PyStr.startswith line "worktree " then Some (PyStr.drop_chars 9 line) else None), current with
      | Some path, _ => worktree_of branch (Some path) lines
      | None, Some path =>
          if PyStr.startswith line "branch refs/heads/" && String.eqb (PyStr.drop_chars 18 line) branch then Some path
          else worktree_of branch current lines
      | None, None => worktree_of branch current lines
      end
  end.

(** [find_worktree_by_branch] *)
Definition find_worktree_by_branch (branch cwd : string) : M S (option string) :=
  do! result := run cwd LIST in
  ret (if ok result then worktree_of branch None (text_lines (out result)) else None).

(** A row whose agent works in the worktree, with its process. *)
Definition works_in (worktree_path : string) (s : S) (row : AgentRow) : bool :=
  match ar_worktree row, ar_pid row with
  | Some path, Some pid =>
      negb (String.eqb path "") && negb (bool_decide (ar_status row ∈ NOT_ACTIVE))
      && String.eqb (resolve path s) (resolve worktree_path s) && negb (Z.eqb pid 0) && is_process_alive (host s) pid
  | _, _ => false
  end.

(** [check_worktree_active_agent] *)
Definition check_worktree_active_agent (worktree_path : string) : M S (option Z) := fun s =>
  match agent_rows s with
  | Ret rows => (Ret (List.find (works_in worktree_path s) rows ≫= ar_pid), s)
  | Raise (OSError _ | RuntimeError _ | SQLAlchemyError _ | TimeoutError) =>
      (Raise (RuntimeError ("Cannot verify worktree safety for " ++ worktree_path
                            ++ ": DB query failed. Refusing to remove (fail-closed).")), s)
  | Raise e => (Raise e, s)
  end.

(** ** Removing *)

Definition REMOVE (path : string) : list string := ["git"; "worktree"; "remove"; path; "--force"].

(** [cleanup_worktree] *)
Definition cleanup_worktree (worktree_path cwd : string) : M S unit :=
  do! result := run cwd (REMOVE worktree_path) in
  if ok result then ret tt
  else fun s =>
    if exists_path worktree_path s then (do! _ := rmtree worktree_path in do! _ := run cwd ["git"; "worktree"; "prune"] in ret tt) s
    else (Ret tt, s).

(** [cleanup_stale_worktrees] *)
Fixpoint remove_stale (now ttl_days : Z) (project_dir : string) (paths : list string) (removed : nat) : M S nat :=
  match paths with
  | [] => ret removed
  | entry :: paths => fun s =>
      if negb (is_dir entry s) then remove_stale now ttl_days project_dir paths removed s
      else match mtime entry s with
           | Raise e => (Raise e, s)
           | Ret changed =>
               if Z.ltb (ttl_days * 86400) (now - changed) then
                 (do! _ := cleanup_worktree entry project_dir in remove_stale now ttl_days project_dir paths (Datatypes.S removed)) s
               else remove_stale now ttl_days project_dir paths removed s
           end
  end.
Definition cleanup_stale_worktrees (project_dir : string) (now ttl_days : Z) : M S nat := fun s =>
  let dir := under project_dir WORKTREE_DIR in
  if exists_path dir s then remove_stale now ttl_days project_dir (map (under dir) (entries dir s)) 0 s else (Ret 0%nat, s).

(** [resolve_worktree_conflict] *)
Definition resolve_worktree_conflict (branch cwd : string) : M S (option string) :=
  do! _ := run cwd ["git"; "worktree"; "prune"] in
  do! found := find_worktree_by_branch branch cwd in
  match found with
  | None => ret None
  | Some wt_path =>
      do! toplevel := run cwd ["git"; "rev-parse"; "--show-toplevel"] in
      if negb (ok toplevel) then
        throw (RuntimeError ("Cannot verify repository root for branch " ++ branch ++ ". Refusing to remove worktree " ++ wt_path ++ " (fail-closed)."))
      else fun s =>
        let repo_root := resolve (PyStr.strip (out toplevel)) s in
        if String.eqb repo_root (resolve wt_path s) then
          (Raise (RuntimeError ("Branch " ++ branch ++ " is checked out in the main worktree (" ++ wt_path ++ "). Cannot auto-resolve: switch branches manually.")), s)
        else if negb (exists_path wt_path s) then (Ret (Some wt_path), s)
        else
          (do! active := check_worktree_active_agent wt_path in
           match active with
           | Some pid => throw (RuntimeError ("Cannot remove worktree " ++ wt_path ++ ": agent with PID " ++ pretty pid ++ " is actively using it"))
           | None => do! _ := cleanup_worktree wt_path cwd in ret (Some wt_path)
           end) s
  end.

(** ** Creating *)

Definition add_argv (path branch base : string) : list string := ["git"; "worktree"; "add"; path; "-b"; branch; base].

(** [_prune_worktrees], [_add_worktree] *)
Definition prune_worktrees (project_dir : string) : M S unit := do! _ := run project_dir ["git"; "worktree"; "prune"] in ret tt.
Definition add_worktree (path branch base project_dir : string) : M S Shell := run project_dir (add_argv path branch base).

(** The worktree is added for a new branch, or for one that exists. *)
Definition add_for_branch (path branch base project_dir : string) : M S unit :=
  do! _ := prune_worktrees project_dir in
  do! first := add_worktree path branch base project_dir in
  do! result := (if negb (ok first) && PyStr.contains (err first) "missing but already registered"
                 then do! _ := prune_worktrees project_dir in add_worktree path branch base project_dir else ret first) in
  if ok result then ret tt
  else if PyStr.contains (err result) "a branch named" && PyStr.contains (err result) "already exists" then
    do! _ := run_checked project_dir ["git"; "worktree"; "add"; path; branch] in ret tt
  else throw (subprocess_error (add_argv path branch base) result).

(** [create_worktree]; the result is the path. *)
Definition create_worktree (issue_id branch base_branch project_dir : string) (files : bool) : M S string :=
  if PyStr.contains issue_id ".." || PyStr.contains issue_id "/" || PyStr.startswith issue_id "\" then
    throw (ValueError ("Invalid issue_id (path traversal): " ++ issue_id))
  else
    let worktree_path := under (under project_dir WORKTREE_DIR) issue_id in
    do! _ := mkdir (under project_dir WORKTREE_DIR) in
    let add : M S string :=
      do! _ := add_for_branch worktree_path branch base_branch project_dir in
      do! _ := if files then copy_files worktree_path else ret tt in
      do! _ := copy_artifacts worktree_path true in
      do! _ := compose_name worktree_path in ret worktree_path in
    fun s =>
    if exists_path worktree_path s then
      (do! head := run worktree_path ["git"; "rev-parse"; "--abbrev-ref"; "HEAD"] in
       if ok head && String.eqb (PyStr.strip (out head)) branch then
         do! _ := run worktree_path ["git"; "rev-list"; "--count"; "origin/" ++ branch ++ "..HEAD"] in
         do! _ := copy_artifacts worktree_path true in ret worktree_path
       else do! _ := cleanup_worktree worktree_path project_dir in add) s
    else add s.

(** [ensure_worktree_usable] *)
Definition CRITICAL_CLAUDE_ARTIFACTS : list string := [".claude/commands"].

Definition needs_recreate (worktree_path : string) : M S bool := fun s =>
  if negb (is_dir worktree_path s) || negb (exists_path (under worktree_path ".git") s) then (Ret true, s)
  else (do! probe := run worktree_path ["git"; "rev-parse"; "--git-dir"] in ret (negb (ok probe))) s.

Definition caught_os {A} (default : A) (m : M S A) : M S A := fun s =>
  match m s with (Raise (OSError _ | TimeoutError), s) => (Ret default, s) | r => r end.

Definition recreate (project_dir worktree_path branch base_branch : string) : M S (option string) :=
  if String.eqb branch "" then ret None
  else fun s =>
    let name := basename worktree_path in
    let canonical := under (under project_dir WORKTREE_DIR) name in
    (do! _ := (if String.eqb (resolve worktree_path s) (resolve canonical s) then ret tt
               else caught_os tt (cleanup_worktree worktree_path project_dir)) in fun s =>
     match create_worktree name branch base_branch project_dir false s with
     | (Ret path, s) => (Ret (Some path), s)
     | (Raise (RuntimeError _ | OSError _ | ValueError _ | TimeoutError), s) => (Ret None, s)
     | (Raise e, s) => (Raise e, s)
     end) s.

(** The artifacts are copied; [false] when what was missing could not be. *)
Definition refreshed (worktree_path : string) (missing : bool) : M S bool :=
  caught_os (negb missing) (do! _ := copy_artifacts worktree_path missing in ret true).

Definition ensure_worktree_usable (project_dir worktree_path branch base_branch : string) : M S (option string) :=
  do! broken := needs_recreate worktree_path in
  if (broken : bool) then recreate project_dir worktree_path branch base_branch
  else fun s =>
    let missing_artifacts s := missing_claude_artifacts (side project_dir s) (side worktree_path s) (skills project_dir worktree_path s) in
    let missing := negb (bool_decide (missing_artifacts s = [])) in
    (do! refreshed := refreshed worktree_path missing in fun s =>
     (Ret (if negb refreshed then None
           else if missing && existsb (fun m => bool_decide (m ∈ CRITICAL_CLAUDE_ARTIFACTS)) (missing_artifacts s) then None
           else Some worktree_path), s)) s.

(** [get_primary_worktree_root] *)
Definition parent (path : string) : string :=
  let reversed := PyStr.drop_while (fun c => negb (Ascii.eqb c "/")) (rev (PyStr.to_list path)) in
  match reversed with
  | _ :: (_ :: _) as rest => PyStr.of_list (rev (drop 1 rest))
  | _ => "/"
  end.
Definition get_primary_worktree_root (cwd : string) : M S string :=
  do! result := run cwd ["git"; "rev-parse"; "--git-common-dir"] in
  ret (if ok result && PyStr.startswith (PyStr.strip (out result)) "/" then parent (PyStr.strip (out result)) else cwd).

(** ** Collecting what closed issues leave *)

(** [_fetch_closed_issues], [_list_local_branches], [_has_gone_upstream], [_list_stashes] *)
Definition stripped_lines (text : string) : list string := List.filter (fun l => negb (String.eqb l "")) (map PyStr.strip (text_lines text)).

Definition fetch_closed_issues (project_dir : string) : M S (list string) :=
  do! result := run project_dir ["gh"; "issue"; "list"; "--state"; "closed"; "--limit"; "200"; "--json"; "number"; "--jq"; ".[].number"] in
  ret (if ok result then stripped_lines (out result) else []).

Definition list_local_branches (project_dir : string) : M S (list string) :=
  do! result := run project_dir ["git"; "branch"; "--format=%(refname:short)"] in
  if negb (ok result) then ret []
  else
    do! current := run project_dir ["git"; "branch"; "--show-current"] in
    ret (if ok current then List.filter (fun b => negb (String.eqb b (PyStr.strip (out current)))) (stripped_lines (out result)) else []).

Definition has_gone_upstream (branch project_dir : string) : M S bool :=
  do! result := run project_dir ["git"; "for-each-ref"; "--format=%(upstream)|%(upstream:track)"; "refs/heads/" ++ branch] in
  let '(upstream, track) := PyStr.split_once (PyStr.strip (out result)) "|" in
  ret (ok result && negb (String.eqb upstream "") && PyStr.contains (default "" track) "gone").

Definition list_stashes (project_dir : string) : M S (list string) :=
  do! result := run project_dir ["git"; "stash"; "list"] in ret (if ok result then stripped_lines (out result) else []).

(** Whether the issue of a worktree is closed, or its branch is gone upstream. *)
Definition eligible (closed_issues : list string) (project_dir issue_id entry : string) : M S bool :=
  if bool_decide (issue_id ∈ closed_issues) then ret true
  else if is_jira_key issue_id then
    do! result := run entry ["git"; "branch"; "--show-current"] in
    let branch := if ok result then PyStr.strip (out result) else "" in
    if String.eqb branch "" then ret false else has_gone_upstream branch project_dir
  else ret false.

(** No agent works in the worktree, and git says that it is clean. *)
Definition idle_and_clean (entry : string) : M S bool :=
  do! active := check_worktree_active_agent entry in
  match active with
  | Some _ => ret false
  | None =>
      do! dirty := run entry ["git"; "status"; "--porcelain"] in
      ret (ok dirty && String.eqb (PyStr.strip (out dirty)) "")
  end.

(** The result of removing a worktree: an error of the removal is recorded. *)
Definition removal (entry project_dir : string) : M S (option string) := fun s =>
  match cleanup_worktree entry project_dir s with
  | (Ret _, s) => (Ret None, s)
  | (Raise (RuntimeError _ as e | OSError _ as e | TimeoutError as e), s) =>
      (Ret (Some ("Failed to remove worktree " ++ entry ++ ": " ++ exn_str e)), s)
  | (Raise e, s) => (Raise e, s)
  end.

Fixpoint collect_worktrees (closed_issues : list string) (project_dir : string) (dry_run : bool) (names : list string)
    (removed : nat) (errors : list string) : M S (nat * list string) :=
  match names with
  | [] => ret (removed, errors)
  | issue_id :: names => fun s =>
      let entry := under (under project_dir WORKTREE_DIR) issue_id in
      if negb (is_dir entry s) then collect_worktrees closed_issues project_dir dry_run names removed errors s
      else
        (do! e := eligible closed_issues project_dir issue_id entry in
         if (e : bool) then
           do! safe := idle_and_clean entry in
           if (safe : bool) then
             do! error := if dry_run then ret None else removal entry project_dir in
             match error with
             | Some text => collect_worktrees closed_issues project_dir dry_run names removed (errors ++ [text])%list
             | None => collect_worktrees closed_issues project_dir dry_run names (Datatypes.S removed) errors
             end
           else collect_worktrees closed_issues project_dir dry_run names removed errors
         else collect_worktrees closed_issues project_dir dry_run names removed errors) s
  end.

(** Whether a branch is to be removed. *)
Definition should_remove (closed_issues : list string) (project_dir branch : string) : M S bool :=
  match extract_issue_from_branch branch with
  | (Some number, key) =>
      if bool_decide (number ∈ closed_issues) then ret true
      else match key with Some _ => has_gone_upstream branch project_dir | None => ret false end
  | (None, Some _) => has_gone_upstream branch project_dir
  | (None, None) => ret false
  end.

Fixpoint collect_branches (closed_issues in_worktrees : list string) (project_dir : string) (dry_run : bool) (branches : list string)
    (removed : nat) (errors : list string) : M S (nat * list string) :=
  match branches with
  | [] => ret (removed, errors)
  | branch :: branches =>
      if bool_decide (branch ∈ in_worktrees) then collect_branches closed_issues in_worktrees project_dir dry_run branches removed errors
      else
        do! r := should_remove closed_issues project_dir branch in
        if negb r then collect_branches closed_issues in_worktrees project_dir dry_run branches removed errors
        else if dry_run then collect_branches closed_issues in_worktrees project_dir dry_run branches (Datatypes.S removed) errors
        else
          do! result := run project_dir ["git"; "branch"; "-d"; branch] in
          if ok result then collect_branches closed_issues in_worktrees project_dir dry_run branches (Datatypes.S removed) errors
          else collect_branches closed_issues in_worktrees project_dir dry_run branches removed
                 (errors ++ [("Failed to delete branch " ++ branch ++ ": " ++ PyStr.strip (err result))%string])%list
  end.

Definition branches_in_worktrees (lines : list string) : list string :=
  omap (fun line => if PyStr.startswith line "branch refs/heads/" then Some (PyStr.drop_chars 18 line) else None) lines.

(** [cleanup_by_issue_state] *)
Definition cleanup_by_issue_state (project_dir : string) (dry_run include_branches : bool) : M S GCResult :=
  do! closed_issues := fetch_closed_issues project_dir in
  do! listed := run project_dir LIST in
  let in_worktrees := if ok listed then branches_in_worktrees (text_lines (out listed)) else [] in
  do! w := (fun s =>
    let dir := under project_dir WORKTREE_DIR in
    if exists_path dir s then collect_worktrees closed_issues project_dir dry_run (entries dir s) 0 [] s else (Ret (0%nat, []), s)) in
  do! b := (if include_branches then
              do! branches := list_local_branches project_dir in
              collect_branches closed_issues in_worktrees project_dir dry_run branches 0 w.2
            else ret (0%nat, w.2)) in
  do! stashes := list_stashes project_dir in
  ret {| worktrees_removed := w.1; branches_removed := b.1; stashes_found := stashes; errors := b.2 |}.

(** ** Preserving partial work *)

Definition screen (work_dir : string) (argv : list string) : M S Result :=
  do! r := run work_dir argv in ret {| returncode := code r; stdout := out r |}.

Definition partial_work (work_dir message : string) (adapters : list string) : M S bool :=
  do! add_result := run work_dir (["git"; "add"; "-A"; "--"; "."] ++ PRESERVE_ADD_EXCLUDE_PATHSPECS adapters)%list in
  if negb (ok add_result) then ret false
  else
    do! scan := unstage_suspicious_files (screen work_dir) in
    if negb (CommitFold.checked scan) || negb (bool_decide (still_staged scan = [])) then
      do! _ := run work_dir ["git"; "reset"; "HEAD"] in ret false
    else
      do! diff_result := run work_dir ["git"; "diff"; "--cached"; "--quiet"] in
      if Z.eqb (code diff_result) 0 then ret false
      else do! commit_result := run work_dir ["git"; "commit"; "-m"; message] in ret (ok commit_result).

(** [preserve_partial_work] *)
Definition preserve_partial_work (work_dir : option string) (reason commit_type scope : string) (adapters : list string) : M S bool :=
  match work_dir with
  | None => ret false
  | Some dir => fun s =>
      if negb (exists_path (under dir ".git") s) then (Ret false, s)
      else
        let prefix := PyStr.of_list (format_type_scope (PyStr.to_list commit_type) (PyStr.to_list scope)) in
        match partial_work dir (prefix ++ ": preserve partial work from " ++ reason) adapters s with
        | (Raise (RuntimeError _ | OSError _ | TimeoutError), s) => (Ret false, s)
        | r => r
        end
  end.

End Worktrees.

(** ** Lemmas *)

(** The command lines that only look. *)
Definition looks (argv : list string) : bool :=
  match argv with
  | ["git"; "branch"; "--show-current"] | "git" :: "for-each-ref" :: _ | "git" :: "status" :: _ | "git" :: "rev-parse" :: _
  | "gh" :: "issue" :: "list" :: _ | ["git"; "worktree"; "list"; "--porcelain"] => true
  | _ => false
  end.

Section Laws.
Context {S : Type} (run : string -> list string -> M S Shell)
        (exists_path is_dir : string -> S -> bool) (entries : string -> S -> list string)
        (resolve : string -> S -> string) (rmtree : string -> M S unit)
        (agent_rows : S -> outcome (list AgentRow)) (host : S -> Host).
Hypothesis run_looks : forall cwd argv, looks argv = true -> reads (run cwd argv).

Ltac solve_reads := repeat first [apply reads_ret | apply reads_bind; [|intros ?] | apply run_looks; reflexivity | case_match].

Lemma fetch_reads project_dir : reads (fetch_closed_issues run project_dir).
Proof. unfold fetch_closed_issues. solve_reads. Qed.

Lemma find_reads branch cwd : reads (find_worktree_by_branch run branch cwd).
Proof. unfold find_worktree_by_branch. solve_reads. Qed.

Lemma eligible_reads closed project_dir issue_id entry : reads (eligible run closed project_dir issue_id entry).
Proof. unfold eligible, has_gone_upstream. solve_reads. Qed.

Lemma active_reads path : reads (check_worktree_active_agent resolve agent_rows host path).
Proof. intros s. unfold check_worktree_active_agent. destruct (agent_rows s) as [rows|e]; [done|]. by destruct e. Qed.

Lemma idle_reads entry : reads (idle_and_clean run resolve agent_rows host entry).
Proof. apply reads_bind; [apply active_reads|]. intros [pid|]; solve_reads. Qed.

(** The worktree of an issue that is closed, or gone upstream, with no agent and nothing that
    git lists as changed. *)
Definition spent (closed : list string) (project_dir issue_id : string) (s : S) : Prop :=
  let entry := under (under project_dir WORKTREE_DIR) issue_id in
  (issue_id ∈ closed \/
   is_jira_key issue_id = true /\ exists r, run entry ["git"; "branch"; "--show-current"] s = (Ret r, s) /\ ok r = true /\
     PyStr.strip (out r) <> "" /\ has_gone_upstream run (PyStr.strip (out r)) project_dir s = (Ret true, s)) /\
  check_worktree_active_agent resolve agent_rows host entry s = (Ret None, s) /\
  exists r, run entry ["git"; "status"; "--porcelain"] s = (Ret r, s) /\ ok r = true /\ PyStr.strip (out r) = "".

Lemma spent_intro closed project_dir issue_id s :
  let entry := under (under project_dir WORKTREE_DIR) issue_id in
  eligible run closed project_dir issue_id entry s = (Ret true, s) ->
  idle_and_clean run resolve agent_rows host entry s = (Ret true, s) -> spent closed project_dir issue_id s.
Proof.
  cbv zeta. unfold spent, eligible, idle_and_clean. set (entry := under _ issue_id). intros He Hi. split.
  - case_bool_decide as Hin; [by left|]. right. destruct (is_jira_key issue_id); [|discriminate He]. split; [done|].
    apply bind_ret in He as (r & s1 & Er & He). pose proof Er as Er'. apply reads_step in Er' as ->; [|by apply run_looks].
    exists r. destruct (ok r); [|discriminate He]. destruct (String.eqb_spec (PyStr.strip (out r)) "") as [E|E]; [discriminate He|done].
  - apply bind_ret in Hi as ([pid|] & s1 & Ea & Hi); [discriminate Hi|]. pose proof Ea as Ea'. apply reads_step in Ea' as ->; [|apply active_reads].
    split; [done|]. apply bind_ret in Hi as (r & s2 & Er & Hi). injection Hi as Hc ->. exists r. split; [done|].
    by apply andb_true_iff in Hc as [? ?%String.eqb_eq].
Qed.

Section Agree.
Context (run' : string -> list string -> M S Shell).
Hypothesis agree : forall cwd argv s, (forall path, argv <> REMOVE path) -> run cwd argv s = run' cwd argv s.

Ltac alike := repeat first [reflexivity | apply agree; intros ? [=] | apply bind_same; [|intros ? ? ?] | case_match].

Lemma agree_closed project_dir s : fetch_closed_issues run project_dir s = fetch_closed_issues run' project_dir s.
Proof. unfold fetch_closed_issues. alike. Qed.

Lemma agree_gone branch project_dir s : has_gone_upstream run branch project_dir s = has_gone_upstream run' branch project_dir s.
Proof. unfold has_gone_upstream. alike. Qed.

Lemma agree_eligible closed project_dir issue_id entry s : eligible run closed project_dir issue_id entry s = eligible run' closed project_dir issue_id entry s.
Proof.
  unfold eligible. case_bool_decide; [done|]. destruct (is_jira_key issue_id); [|done]. apply bind_same; [alike|]. intros x s1 _. cbv zeta.
  case_match; [done|apply agree_gone].
Qed.

Lemma agree_idle entry s : idle_and_clean run resolve agent_rows host entry s = idle_and_clean run' resolve agent_rows host entry s.
Proof. unfold idle_and_clean. apply bind_same; [done|]. intros [pid|] s1 _; alike. Qed.

Lemma agree_cleanup path cwd s :
  run cwd (REMOVE path) s = run' cwd (REMOVE path) s -> cleanup_worktree run exists_path rmtree path cwd s = cleanup_worktree run' exists_path rmtree path cwd s.
Proof.
  intros E. apply bind_same; [exact E|]. intros x s1 _. destruct (ok x); [done|]. destruct (exists_path path s1); [|done].
  apply bind_same; [done|]. intros _ s2 _. alike.
Qed.

Lemma agree_collect closed project_dir dry_run names removed errors s :
  (forall name s, name ∈ names -> dry_run = false -> spent closed project_dir name s ->
     let entry := under (under project_dir WORKTREE_DIR) name in run project_dir (REMOVE entry) s = run' project_dir (REMOVE entry) s) ->
  collect_worktrees run exists_path is_dir resolve rmtree agent_rows host closed project_dir dry_run names removed errors s
  = collect_worktrees run' exists_path is_dir resolve rmtree agent_rows host closed project_dir dry_run names removed errors s.
Proof.
  revert removed errors s. induction names as [|name names IH]; intros removed errors s Hsafe; [done|].
  assert (IH' : forall removed errors s, collect_worktrees run exists_path is_dir resolve rmtree agent_rows host closed project_dir dry_run names removed errors s
    = collect_worktrees run' exists_path is_dir resolve rmtree agent_rows host closed project_dir dry_run names removed errors s).
  { intros. apply IH. intros n s1 Hn. apply Hsafe. by right. }
  clear IH. cbn [collect_worktrees]. cbv zeta. destruct (is_dir _ s); cbn [negb]; [|apply IH'].
  apply bind_same; [apply agree_eligible|]. intros e s1 He. destruct e; [|apply IH'].
  rewrite <- agree_eligible in He. pose proof He as He'. apply reads_step in He' as ->; [|apply eligible_reads].
  apply bind_same; [apply agree_idle|]. intros safe s2 Hi. destruct safe; [|apply IH'].
  rewrite <- agree_idle in Hi. pose proof Hi as Hi'. apply reads_step in Hi' as ->; [|apply idle_reads].
  apply bind_same; [|intros [text|] s3 _; apply IH'].
  destruct dry_run; [done|]. unfold removal. rewrite agree_cleanup; [done|]. apply Hsafe; [by left|done|by apply spent_intro].
Qed.

Lemma agree_local project_dir s : list_local_branches run project_dir s = list_local_branches run' project_dir s.
Proof. unfold list_local_branches. alike. Qed.

Lemma agree_should closed project_dir branch s : should_remove run closed project_dir branch s = should_remove run' closed project_dir branch s.
Proof.
  unfold should_remove. destruct (extract_issue_from_branch branch) as [[n|] [k|]]; repeat case_bool_decide; first [done|apply agree_gone].
Qed.

Lemma agree_branches closed in_worktrees project_dir dry_run branches removed errors s :
  collect_branches run closed in_worktrees project_dir dry_run branches removed errors s
  = collect_branches run' closed in_worktrees project_dir dry_run branches removed errors s.
Proof.
  revert removed errors s. induction branches as [|b branches IH]; intros; cbn [collect_branches]; [done|].
  case_bool_decide; [apply IH|]. apply bind_same; [apply agree_should|]. intros [] s1 _; cbn [negb]; [|apply IH].
  destruct dry_run; [apply IH|]. apply bind_same; [apply agree; intros ? [=]|]. intros x s2 _. destruct (ok x); apply IH.
Qed.

Lemma agree_stashes project_dir s : list_stashes run project_dir s = list_stashes run' project_dir s.
Proof. unfold list_stashes. alike. Qed.

End Agree.
End Laws.

(** ** Theorems *)

Section Theorems.
Context {S : Type} (run : string -> list string -> M S Shell)
        (exists_path is_dir : string -> S -> bool) (entries : string -> S -> list string)
        (resolve : string -> S -> string) (mkdir rmtree : string -> M S unit)
        (agent_rows : S -> outcome (list AgentRow)) (host : S -> Host)
        (copy_artifacts : string -> bool -> M S unit)
        (side : string -> S -> Side) (skills : string -> string -> S -> option (string * option (list string) * option (list string)))
        (copy_files compose_name : string -> M S unit).

(** C27: The collection removes a worktree only at a moment when its issue is closed or its branch
    gone upstream, no agent works in it and git lists nothing in it as changed, and none in a
    dry run: what a removal would do anywhere else is without effect, since it is never asked for there. *)
Theorem gc_removes_only_spent run' project_dir dry_run include_branches closed s s1 :
  (forall cwd argv, looks argv = true -> reads (run cwd argv)) ->
  (forall cwd argv s, (forall path, argv <> REMOVE path) -> run cwd argv s = run' cwd argv s) ->
  fetch_closed_issues run project_dir s = (Ret closed, s1) ->
  (forall name s, dry_run = false -> spent run resolve agent_rows host closed project_dir name s ->
     let entry := under (under project_dir WORKTREE_DIR) name in run project_dir (REMOVE entry) s = run' project_dir (REMOVE entry) s) ->
  cleanup_by_issue_state run exists_path is_dir entries resolve rmtree agent_rows host project_dir dry_run include_branches s
  = cleanup_by_issue_state run' exists_path is_dir entries resolve rmtree agent_rows host project_dir dry_run include_branches s.
Proof.
  intros Hl Hag Hc Hsafe. apply bind_same; [by apply agree_closed|]. intros closed' s2 Hc'.
  rewrite <- (agree_closed run run' Hag), Hc in Hc'. injection Hc' as <- <-.
  apply bind_same; [by apply Hag|]. intros listed s3 _. apply bind_same.
  { cbv zeta. destruct (exists_path (under project_dir WORKTREE_DIR) s3); [|done]. apply agree_collect; [exact Hl|exact Hag|]. intros name s4 _. apply Hsafe. }
  intros w s4 _. apply bind_same.
  { destruct include_branches; [|done]. apply bind_same; [by apply agree_local|]. intros bs s5 _. by apply agree_branches. }
  intros b s5 _. apply bind_same; [by apply agree_stashes|done].
Qed.

(** A conflict is resolved by removing a worktree only when it is not the one of the
    repository, exists, and no agent works in it; and then it is the worktree that git lists
    for the branch. *)
Theorem conflict_removes_only_idle run' branch cwd s :
  (forall cwd argv, looks argv = true -> reads (run cwd argv)) ->
  (forall cwd argv s, (forall path, argv <> REMOVE path) -> run cwd argv s = run' cwd argv s) ->
  (forall path s, find_worktree_by_branch run branch cwd s = (Ret (Some path), s) ->
     (exists top, run cwd ["git"; "rev-parse"; "--show-toplevel"] s = (Ret top, s) /\ ok top = true /\
                  resolve (PyStr.strip (out top)) s <> resolve path s) ->
     exists_path path s = true -> check_worktree_active_agent resolve agent_rows host path s = (Ret None, s) ->
     run cwd (REMOVE path) s = run' cwd (REMOVE path) s) ->
  resolve_worktree_conflict run exists_path resolve rmtree agent_rows host branch cwd s
  = resolve_worktree_conflict run' exists_path resolve rmtree agent_rows host branch cwd s.
Proof.
  intros Hl Hag Hsafe. apply bind_same; [by apply Hag|]. intros _ s1 _.
  assert (Hf : forall s, find_worktree_by_branch run branch cwd s = find_worktree_by_branch run' branch cwd s)
    by (intros s0; apply bind_same; [by apply Hag|done]).
  apply bind_same; [apply Hf|]. intros [path|] s2 E; [|done]. rewrite <- Hf in E.
  pose proof E as E'. apply reads_step in E' as ->; [|by apply find_reads].
  apply bind_same; [by apply Hag|]. intros top s3 E2. rewrite <- Hag in E2 by (by intros ?).
  pose proof E2 as E2'. apply reads_step in E2' as ->; [|by apply Hl].
  destruct (ok top) eqn:Eo; cbn [negb]; [|done]. cbv zeta. destruct (String.eqb_spec (resolve (PyStr.strip (out top)) s1) (resolve path s1)) as [|Hne]; [done|].
  destruct (exists_path path s1) eqn:Ex; cbn [negb]; [|done]. apply bind_same; [done|]. intros [pid|] s4 Ea; [done|].
  pose proof Ea as Ea'. apply reads_step in Ea' as ->; [|apply active_reads].
  apply bind_same; [|done]. apply agree_cleanup; [exact Hag|]. apply Hsafe; try done. by exists top.
Qed.

(** The worktree that is created has the branch: it was there and git says so, or git added
    it, with a new branch at the base when there was none of that name, and with the branch
    when git said that there is one. *)
Theorem created_worktree_has_branch issue_id branch base project_dir files s path s' :
  create_worktree run exists_path mkdir rmtree copy_artifacts copy_files compose_name issue_id branch base project_dir files s = (Ret path, s') ->
  path = under (under project_dir WORKTREE_DIR) issue_id /\ PyStr.contains issue_id "/" = false /\
  ((exists s0 r s1, run path ["git"; "rev-parse"; "--abbrev-ref"; "HEAD"] s0 = (Ret r, s1) /\ ok r = true /\ PyStr.strip (out r) = branch) \/
   (exists s0 r s1, run project_dir (add_argv path branch base) s0 = (Ret r, s1) /\ ok r = true) \/
   (exists s0 r s1 s2 r' s3, run project_dir (add_argv path branch base) s0 = (Ret r, s1) /\ ok r = false /\
      PyStr.contains (err r) "already exists" = true /\
      run project_dir ["git"; "worktree"; "add"; path; branch] s2 = (Ret r', s3) /\ ok r' = true)).
Proof.
  unfold create_worktree. destruct (PyStr.contains issue_id ".."); [done|]. destruct (PyStr.contains issue_id "/"); [done|].
  destruct (PyStr.startswith issue_id "\"); [done|]. cbn [orb]. set (path0 := under _ issue_id). intros H. step H. clear E.
  set (add := bind (add_for_branch run path0 branch base project_dir) _) in H.
  assert (G : forall s0, add s0 = (Ret path, s') -> path = path0 /\
    ((exists s0 r s1, run project_dir (add_argv path0 branch base) s0 = (Ret r, s1) /\ ok r = true) \/
     (exists s0 r s1 s2 r' s3, run project_dir (add_argv path0 branch base) s0 = (Ret r, s1) /\ ok r = false /\
      PyStr.contains (err r) "already exists" = true /\
      run project_dir ["git"; "worktree"; "add"; path0; branch] s2 = (Ret r', s3) /\ ok r' = true))).
  { clear H. intros s1 H. unfold add in H. step H. step H. step H. step H. injection H as <- _. split; [done|].
    unfold add_for_branch in E. apply bind_ret in E as (_ & t1 & _ & E). apply bind_ret in E as (first & t2 & Ef & E).
    apply bind_ret in E as (r & t3 & Er & E).
    assert (Hr : exists t4 t5, run project_dir (add_argv path0 branch base) t4 = (Ret r, t5)).
    { destruct (negb (ok first) && _); [apply bind_ret in Er as (_ & t4 & _ & Er); by exists t4, t3|]. injection Er as <- <-. by exists t1, t2. }
    destruct Hr as (t4 & t5 & Hr). destruct (ok r) eqn:Eo; [left; eauto|].
    destruct (PyStr.contains (err r) "a branch named"); [|done]. destruct (PyStr.contains (err r) "already exists") eqn:Ee; [|done].
    cbn [andb] in E. apply bind_ret in E as (r2 & t6 & E & _). unfold run_checked in E. apply bind_ret in E as (r3 & t7 & E & Hret).
    destruct (ok r3) eqn:Eo3; [|done]. right. exists t4, r, t5, t3, r3, t7. auto. }
  destruct (exists_path path0 s0).
  - step H. destruct (ok x0) eqn:Eo; cbn [andb] in H.
    + destruct (String.eqb_spec (PyStr.strip (out x0)) branch) as [Eb|Eb].
      * step H. step H. injection H as <- _. split; [done|]. split; [done|]. left. eauto 10.
      * step H. apply G in H as [-> H]. auto.
    + step H. apply G in H as [-> H]. auto.
  - apply G in H as [-> H]. auto.
Qed.

(** A worktree that is handed to an agent is a directory with its link to git, in which git
    answers, and lacks no slash command that the project has; or it was created anew. *)
Theorem usable_worktree project_dir worktree_path branch base s path s' :
  ensure_worktree_usable run exists_path is_dir resolve mkdir rmtree copy_artifacts side skills copy_files compose_name
    project_dir worktree_path branch base s = (Ret (Some path), s') ->
  (path = worktree_path /\ is_dir path s = true /\ exists_path (under path ".git") s = true /\
   (exists r s1, run path ["git"; "rev-parse"; "--git-dir"] s = (Ret r, s1) /\ ok r = true /\
      (missing_claude_artifacts (side project_dir s1) (side path s1) (skills project_dir path s1) = [] \/
       ".claude/commands" ∉ missing_claude_artifacts (side project_dir s') (side path s') (skills project_dir path s')))) \/
  (branch <> "" /\ exists s1, create_worktree run exists_path mkdir rmtree copy_artifacts copy_files compose_name
                               (basename worktree_path) branch base project_dir false s1 = (Ret path, s')).
Proof.
  unfold ensure_worktree_usable. intros H. step H. unfold needs_recreate in E.
  assert (Hre : forall s1, recreate run exists_path resolve mkdir rmtree copy_artifacts copy_files compose_name project_dir worktree_path branch base s1 = (Ret (Some path), s') ->
    branch <> "" /\ exists s2, create_worktree run exists_path mkdir rmtree copy_artifacts copy_files compose_name
                               (basename worktree_path) branch base project_dir false s2 = (Ret path, s')).
  { clear. intros s1 H. unfold recreate in H. destruct (String.eqb_spec branch ""); [done|]. split; [done|]. cbv zeta in H. apply bind_ret in H as (_ & s3 & _ & H).
    exists s3. destruct (create_worktree _ _ _ _ _ _ _ _ _ _ _ _ s3) as [[p|e] s2]; [by injection H as -> ->|]. by destruct e. }
  destruct (is_dir worktree_path s) eqn:Ed; cbn [negb orb] in E; [|injection E as <- <-; right; by eapply Hre].
  destruct (exists_path (under worktree_path ".git") s) eqn:Eg; cbn [negb] in E; [|injection E as <- <-; right; by eapply Hre].
  apply bind_ret in E as (probe & s1 & Ep & E). injection E as <- <-.
  destruct (ok probe) eqn:Eo; cbn [negb] in H; [|right; by eapply Hre]. left. cbv zeta in H. apply bind_ret in H as (fresh & s2 & Ef & H).
  injection H as H <-. destruct fresh; cbn [negb] in H; [|done].
  case_bool_decide as Hm; cbn [negb andb] in H.
  - injection H as <-. do 3 (split; [done|]). exists probe, s1. auto.
  - destruct (existsb _ (missing_claude_artifacts (side project_dir s2) _ _)) eqn:Ec; [done|]. injection H as <-.
    do 3 (split; [done|]). exists probe, s1. split; [done|]. split; [done|]. right. intros Hin.
    assert (existsb (fun m => bool_decide (m ∈ CRITICAL_CLAUDE_ARTIFACTS))
              (missing_claude_artifacts (side project_dir s2) (side worktree_path s2) (skills project_dir worktree_path s2)) = true); [|congruence].
    apply existsb_exists. exists ".claude/commands". split; [by apply list_elem_of_In|]. apply bool_decide_eq_true_2. left.
Qed.

End Theorems.

(** What the guard on staged files unstaged is not in the last listing of git. *)
Lemma scan_screened {S : Type} (run : list string -> M S Result) s scan s1 :
  unstage_suspicious_files run s = (Ret scan, s1) -> CommitFold.checked scan = true -> still_staged scan = [] ->
  exists first s2 last s3, run ["git"; "diff"; "--cached"; "--name-only"] s = (Ret first, s2) /\ success first = true /\
    run ["git"; "diff"; "--cached"; "--name-only"] s3 = (Ret last, s1) /\ success last = true /\
    forall f, f ∈ text_lines (PyStr.strip (stdout first)) -> is_suspicious f = true -> PyStr.strip f ∉ text_lines (PyStr.strip (stdout last)).
Proof.
  unfold unstage_suspicious_files. intros H Hc Hb. step H. destruct (success x) eqn:Es; cbn [negb] in H; [|injection H as <- <-; done].
  remember (merge_sort _ _) as bad eqn:Ebad.
  assert (Hin : forall f, f ∈ text_lines (PyStr.strip (stdout x)) -> is_suspicious f = true -> PyStr.strip f ∈ bad).
  { intros f Hf Hs. rewrite Ebad, merge_sort_Permutation. apply elem_of_remove_dups, list_elem_of_fmap_2, list_elem_of_In, filter_In.
    split; [by apply list_elem_of_In|done]. }
  destruct bad as [|b bad].
  - injection H as <- <-. exists x, s0, x, s. do 4 (split; [done|]). intros f Hf Hs. by apply Hin, elem_of_nil in Hf.
  - step H. step H. destruct (success x1) eqn:Es1; cbn [negb] in H; [|injection H as <- <-; done].
    injection H as <- <-. cbn [still_staged] in Hb. exists x, s0, x1, s2. do 4 (split; [done|]). intros f Hf Hs Hl.
    assert (PyStr.strip f ∈ List.filter (fun f => bool_decide (f ∈ text_lines (PyStr.strip (stdout x1)))) (b :: bad)) as Hx.
    { apply list_elem_of_In, filter_In. split; [apply list_elem_of_In; auto|by apply bool_decide_eq_true_2]. }
    cbn [List.filter] in Hx. rewrite Hb in Hx. by apply elem_of_nil in Hx.
Qed.

(** Partial work is preserved only by a commit that git confirms, with something staged, made
    after a scan of what is staged: a suspicious path that the scan found is no longer in the
    last listing of git before the commit. *)
Theorem partial_work_screened {S : Type} (run : string -> list string -> M S Shell) exists_path work_dir reason type scope adapters s s' :
  preserve_partial_work run exists_path work_dir reason type scope adapters s = (Ret true, s') ->
  exists dir message s1 first s2 last s3 s4 quiet s5 committed,
    work_dir = Some dir /\ exists_path (under dir ".git") s = true /\
    screen run dir ["git"; "diff"; "--cached"; "--name-only"] s1 = (Ret first, s2) /\ success first = true /\
    screen run dir ["git"; "diff"; "--cached"; "--name-only"] s3 = (Ret last, s4) /\ success last = true /\
    (forall f, f ∈ text_lines (PyStr.strip (stdout first)) -> is_suspicious f = true -> PyStr.strip f ∉ text_lines (PyStr.strip (stdout last))) /\
    run dir ["git"; "diff"; "--cached"; "--quiet"] s4 = (Ret quiet, s5) /\ code quiet <> 0%Z /\
    run dir ["git"; "commit"; "-m"; message] s5 = (Ret committed, s') /\ ok committed = true.
Proof.
  unfold preserve_partial_work. destruct work_dir as [dir|]; [|done]. destruct (exists_path (under dir ".git") s) eqn:Ex; cbn [negb]; [|done].
  cbv zeta. set (message := (_ ++ ": preserve partial work from " ++ reason)).
  destruct (partial_work run dir message adapters s) as [[b|e] s1] eqn:E; [|by destruct e]. intros [= -> <-].
  unfold partial_work in E. step E. destruct (ok x); cbn [negb] in E; [|done]. step E.
  destruct (CommitFold.checked x0) eqn:Ec; cbn [negb orb] in E; [|step E; done].
  case_bool_decide as Hs; cbn [negb] in E; [|step E; done].
  apply scan_screened in E1 as (first & t2 & last & t3 & H1 & H2 & H3 & H4 & H5); [|done|done].
  step E. destruct (Z.eqb_spec (code x1) 0); [done|]. step E. injection E as Ek <-.
  exists dir, message, s0, first, t2, last, t3. do 4 eexists. repeat (split; [done|]). eauto 10.
Qed.

(** ** Examples *)

Module Examples.

(** A disk: the directories of worktrees, those that are linked to git, those with changes,
    and the processes that run. *)
Record Disk := { dirs : list string; linked : list string; dirty : list string; alive : list Z }.

Definition asks (argv words : list string) : bool := bool_decide (take (length words) argv = words).
Definition answer (text : string) (d : Disk) : outcome Shell * Disk := (Ret {| code := 0; out := text; err := "" |}, d).
Definition without (path : string) (d : Disk) : Disk :=
  {| dirs := List.filter (fun p => negb (String.eqb p path)) (dirs d); linked := linked d; dirty := dirty d; alive := alive d |}.

(** In a directory that is not linked, git answers for the repository around it, which is clean. *)
Definition system (cwd : string) (argv : list string) (d : Disk) : outcome Shell * Disk :=
  if asks argv ["gh"; "issue"; "list"] then answer "7" d
  else if asks argv ["git"; "status"] then answer (if bool_decide (cwd ∈ linked d) && bool_decide (cwd ∈ dirty d) then " M a.py" else "") d
  else if asks argv ["git"; "worktree"; "remove"] then
    let path := nth 3 argv "" in
    if bool_decide (path ∈ linked d) then answer "" (without path d)
    else (Ret {| code := 128; out := ""; err := "is not a working tree" |}, d)
  else if asks argv LIST then answer ("worktree /p/.claude/worktrees/8" ++ newline ++ "branch refs/heads/feat/issue-8") d
  else if asks argv ["git"; "rev-parse"; "--show-toplevel"] then answer "/p" d
  else if asks argv ["git"; "rev-parse"; "--abbrev-ref"] then answer "feat/issue-8" d
  else if asks argv ["git"; "diff"; "--cached"; "--name-only"] then answer "a.py" d
  else if asks argv ["git"; "diff"; "--cached"; "--quiet"] then (Ret {| code := 1; out := ""; err := "" |}, d)
  else answer "" d.

Definition there (path : string) (d : Disk) : bool := bool_decide (path ∈ dirs d) || String.eqb path "/p/.claude/worktrees" || bool_decide (path ∈ map (fun p => under p ".git") (linked d)).
Definition listing (_ : string) (d : Disk) : list string := ["7"; "8"].
Definition same_path (path : string) (_ : Disk) : string := path.
Definition delete (path : string) (d : Disk) : outcome unit * Disk := (Ret tt, without path d).
Definition done_nothing (_ : string) (d : Disk) : outcome unit * Disk := (Ret tt, d).
Definition rows (_ : Disk) : outcome (list AgentRow) := Ret [{| ar_worktree := Some "/p/.claude/worktrees/7"; ar_status := "developing"; ar_pid := Some 42%Z |}].
Definition processes (d : Disk) : Host :=
  {| getpid := 1; kill_0 := fun p => if bool_decide (p ∈ alive d) then Delivered else NotFound; process := fun _ => None |}.

Definition collect (dry_run : bool) (d : Disk) := cleanup_by_issue_state system there there listing same_path delete rows processes "/p" dry_run true d.
Definition disk (linked dirty : list string) (alive : list Z) : Disk :=
  {| dirs := ["/p/.claude/worktrees/7"; "/p/.claude/worktrees/8"]; linked := linked; dirty := dirty; alive := alive |}.
Definition both := ["/p/.claude/worktrees/7"; "/p/.claude/worktrees/8"].

Example closed_is_collected :
  let '(r, d) := collect false (disk both [] []) in
  r = Ret {| worktrees_removed := 1; branches_removed := 0; stashes_found := []; errors := [] |} /\ dirs d = ["/p/.claude/worktrees/8"].
Proof. vm_compute. done. Qed.

Example active_is_kept : dirs (collect false (disk both [] [42%Z])).2 = both.
Proof. vm_compute. done. Qed.

Example dirty_is_kept : dirs (collect false (disk both ["/p/.claude/worktrees/7"] [])).2 = both.
Proof. vm_compute. done. Qed.

(** A worktree that has lost its link to git: git answers for the repository around it, the
    worktree seems clean, and its files are deleted whatever they hold. *)
Example lost_link_is_deleted : dirs (collect false (disk ["/p/.claude/worktrees/8"] ["/p/.claude/worktrees/7"] [])).2 = ["/p/.claude/worktrees/8"].
Proof. vm_compute. done. Qed.

(** A worktree with changes that are not committed is removed to free its branch. *)
Example conflict_removes_changes :
  let '(r, d) := resolve_worktree_conflict system there same_path delete rows processes "feat/issue-8" "/p" (disk both ["/p/.claude/worktrees/8"] []) in
  r = Ret (Some "/p/.claude/worktrees/8") /\ dirs d = ["/p/.claude/worktrees/7"].
Proof. vm_compute. done. Qed.

Example issue_of_branch :
  map extract_issue_from_branch ["feat/issue-12-x"; "fix/ABC-7"; "wip/issue-3"; "fix/issue-"]
  = [(Some "12", None); (None, Some "ABC-7"); (None, None); (None, None)].
Proof. vm_compute. done. Qed.

Lemma system_looks cwd argv : looks argv = true -> reads (system cwd argv).
Proof.
  intros H d. unfold system. repeat (match goal with |- context [if asks ?a ?w then _ else _] => destruct (asks a w) eqn:? end; [try done|]); [|done].
  cbv zeta. case_bool_decide; [|done]. exfalso.
  match goal with E : asks argv ["git"; "worktree"; "remove"] = true |- _ => apply bool_decide_eq_true in E; revert E H end. clear.
  destruct argv as [|a [|b [|c l]]]; try done. cbn. intros [= -> -> ->]. cbn. by destruct l.
Qed.

(** A system that deletes everything when it is asked to remove another worktree. *)
Definition removes (argv : list string) : bool := bool_decide (argv = REMOVE (nth 3 argv "")).
Definition reckless (except : string) (cwd : string) (argv : list string) (d : Disk) : outcome Shell * Disk :=
  if removes argv && negb (String.eqb (nth 3 argv "") except)
  then answer "" {| dirs := []; linked := []; dirty := []; alive := [] |} else system cwd argv d.

Lemma reckless_agrees except cwd argv d : (forall path, argv <> REMOVE path) -> system cwd argv d = reckless except cwd argv d.
Proof. intros H. unfold reckless, removes. by rewrite (bool_decide_eq_false_2 _ (H _)). Qed.

Lemma reckless_spares except cwd d : system cwd (REMOVE except) d = reckless except cwd (REMOVE except) d.
Proof. unfold reckless. cbn [REMOVE nth]. by rewrite String.eqb_refl, andb_false_r. Qed.

Lemma gc_removes_only_spent_witness :
  collect false (disk both [] [])
  = cleanup_by_issue_state (reckless "/p/.claude/worktrees/7") there there listing same_path delete rows processes "/p" false true (disk both [] []).
Proof.
  apply (gc_removes_only_spent system there there listing same_path delete rows processes (reckless "/p/.claude/worktrees/7") "/p" false true ["7"] (disk both [] []) (disk both [] [])).
  - exact system_looks.
  - exact (reckless_agrees _).
  - vm_compute. reflexivity.
  - intros name d _ [[Hin|(_ & r & Hr & _ & _ & Hg)] _].
    + apply list_elem_of_singleton in Hin as ->. apply reckless_spares.
    + vm_compute in Hr. injection Hr as <-. vm_compute in Hg. discriminate Hg.
Defined.

Lemma conflict_removes_only_idle_witness :
  resolve_worktree_conflict system there same_path delete rows processes "feat/issue-8" "/p" (disk both [] [])
  = resolve_worktree_conflict (reckless "/p/.claude/worktrees/8") there same_path delete rows processes "feat/issue-8" "/p" (disk both [] []).
Proof.
  apply (conflict_removes_only_idle system there same_path delete rows processes (reckless "/p/.claude/worktrees/8") "feat/issue-8" "/p" (disk both [] [])).
  - exact system_looks.
  - exact (reckless_agrees _).
  - intros path d Hf _ _ _. assert (path = "/p/.claude/worktrees/8") as ->; [|apply reckless_spares]. vm_compute in Hf. injection Hf as <-. reflexivity.
Defined.

Definition create (issue branch : string) (d : Disk) :=
  create_worktree system there done_nothing delete (fun path _ => done_nothing path) done_nothing done_nothing issue branch "main" "/p" false d.

Lemma created_worktree_has_branch_witness :
  exists path d', create "8" "feat/issue-8" (disk both [] []) = (Ret path, d') /\ path = "/p/.claude/worktrees/8".
Proof.
  destruct (create "8" "feat/issue-8" (disk both [] [])) as [[path|e] d'] eqn:E; [|vm_compute in E; discriminate E].
  exists path, d'. split; [reflexivity|].
  exact (proj1 (created_worktree_has_branch system there done_nothing delete (fun path _ => done_nothing path) done_nothing done_nothing
                  "8" "feat/issue-8" "main" "/p" false (disk both [] []) path d' E)).
Defined.

Definition whole : Side := {| has_file := fun _ => true; names_in := fun _ => Some []; has_claude := true |}.

Lemma usable_worktree_witness :
  exists path d', ensure_worktree_usable system there there same_path done_nothing delete (fun path _ => done_nothing path) (fun _ _ => whole)
    (fun _ _ _ => None) done_nothing done_nothing "/p" "/p/.claude/worktrees/8" "feat/issue-8" "main" (disk both [] []) = (Ret (Some path), d') /\
    (path = "/p/.claude/worktrees/8" \/ "feat/issue-8" <> "").
Proof.
  destruct (ensure_worktree_usable system there there same_path done_nothing delete (fun path _ => done_nothing path) (fun _ _ => whole)
    (fun _ _ _ => None) done_nothing done_nothing "/p" "/p/.claude/worktrees/8" "feat/issue-8" "main" (disk both [] [])) as [[[path|]|e] d'] eqn:E;
    [|vm_compute in E; discriminate E..].
  exists path, d'. split; [reflexivity|].
  destruct (usable_worktree system there there same_path done_nothing delete (fun path _ => done_nothing path) (fun _ _ => whole)
    (fun _ _ _ => None) done_nothing done_nothing "/p" "/p/.claude/worktrees/8" "feat/issue-8" "main" (disk both [] []) path d' E) as [[H _]|[H _]]; auto.
Defined.

Lemma partial_work_screened_witness :
  exists d', preserve_partial_work system there (Some "/p/.claude/worktrees/8") "timeout" "chore" "core" [] (disk both [] []) = (Ret true, d') /\
             exists dir, there (under dir ".git") (disk both [] []) = true.
Proof.
  destruct (preserve_partial_work system there (Some "/p/.claude/worktrees/8") "timeout" "chore" "core" [] (disk both [] [])) as [[[]|e] d'] eqn:E;
    [|vm_compute in E; discriminate E..].
  exists d'. split; [reflexivity|].
  destruct (partial_work_screened system there (Some "/p/.claude/worktrees/8") "timeout" "chore" "core" [] (disk both [] []) d' E)
    as (dir & ? & ? & ? & ? & ? & ? & ? & ? & ? & ? & _ & H & _). exists dir. exact H.
Defined.

End Examples.
