(* ===== verification/AutoRebase.v ===== *)
(** * AutoRebase: the supervisor rebases a pull request that conflicts with its base

    supervisor/rebase.py over [GitRebase] and [Worktrees]: the worktree to rebase in, the
    rebase, the hook, the push, and the row of the table of runs that records the attempt.
    The configuration, GitHub and the file system are arguments, and every transaction of the
    database may fail; calls for one pull request follow each other, as its lock has them do.
    Cancellation is left out. *)

From stdpp Require Import base list strings pretty.
From Stdlib Require Import Ascii.
From S2P Require Import Prelude CommitFold GitRebase Recovery Worktrees.

Local Open Scope string_scope.
Local Open Scope fold_scope.

Definition ROLE_SUPERVISOR_REBASE : string := "supervisor:rebase".

(** The columns of a row that a rebase reads or writes; the record is [handoff_json]. *)
Record Row := { r_id : Z; r_role : string; r_pr : option Z; r_status : string; r_error : option string;
                r_cost : Z; r_record : option (string * option bool) }.

(** The result of an attempt. *)
Inductive Outcome := Skipped (pr : option Z) (reason : string) | Failed (pr : option Z) (error : string) | Success (pr : Z) (resolved : Z).

(** [_get_pr_info] *)
Record PrInfo := { pi_number : Z; pi_branch : string; pi_head : string; pi_base : string }.
Definition pr_info (number : Z) (view : option (option string * option string * option string)) : option PrInfo :=
  '(branch, head, base) ← view;
  Some {| pi_number := number; pi_branch := default "" branch; pi_head := default "" head; pi_base := default "" base |}.

(** What surrounds the rebases, the table of runs and the handoffs for people. *)
Record World (S : Type) := { around : S; rows : list Row; handoffs : list (string * string) }.
Arguments around {S} _. Arguments rows {S} _. Arguments handoffs {S} _. Arguments Build_World {S} _ _ _.

(** A row that counts as an attempt at a head. *)
Definition counts (pr_number : Z) (head_sha : string) (r : Row) : bool :=
  String.eqb (r_role r) ROLE_SUPERVISOR_REBASE && bool_decide (r_pr r = Some pr_number)
  && match r_record r with Some (head, attempted) => String.eqb head head_sha && default true attempted | None => false end.

Definition fresh_row (run_id pr_number : Z) : Row :=
  {| r_id := run_id; r_role := ROLE_SUPERVISOR_REBASE; r_pr := Some pr_number; r_status := "running"; r_error := None; r_cost := 0; r_record := None |}.

Definition next_id (rows : list Row) : Z := (1 + foldr Z.max 0 (map r_id rows))%Z.

Definition update (run_id : Z) (f : Row -> Row) (rows : list Row) : list Row :=
  map (fun r => if Z.eqb (r_id r) run_id then f r else r) rows.

Definition finalized (status : string) (error : option string) (head_sha : string) (attempted : bool) (r : Row) : Row :=
  {| r_id := r_id r; r_role := r_role r; r_pr := r_pr r; r_status := status; r_error := error; r_cost := r_cost r;
     r_record := Some (head_sha, Some attempted) |}.

Definition charge (cost : Z) (r : Row) : Row :=
  {| r_id := r_id r; r_role := r_role r; r_pr := r_pr r; r_status := r_status r; r_error := r_error r; r_cost := (r_cost r + cost)%Z;
     r_record := r_record r |}.

Section AutoRebase.
Context {S : Type} (run : string -> list string -> M S Shell) (exists_path : string -> S -> bool) (resolve : string -> S -> string)
        (rmtree : string -> M S unit) (agent_rows : S -> outcome (list AgentRow)) (host : S -> Host)
        (create : string -> string -> string -> M S string)
        (rebase : string -> string -> M S (RebaseResult * Z))
        (transaction write_file : string -> M S unit).

(** A program over what surrounds the rebases *)
Definition outside {A} (m : M S A) : M (World S) A := fun w =>
  let '(r, s) := m (around w) in (r, Build_World s (rows w) (handoffs w)).

(** A transaction: it fails, or changes the rows. *)
Definition transact (name : string) (f : list Row -> list Row) : M (World S) unit :=
  do! _ := outside (transaction name) in fun w => (Ret tt, Build_World (around w) (f (rows w)) (handoffs w)).

(** [_already_attempted] *)
Definition already_attempted (pr_number : Z) (head_sha : string) : M (World S) bool :=
  do! _ := outside (transaction "select") in fun w => (Ret (existsb (counts pr_number head_sha) (rows w)), w).

(** [_create_rebase_run]: the row is committed before it is read again. *)
Definition create_rebase_run (pr_number : Z) : M (World S) Z := fun w =>
  let run_id := next_id (rows w) in
  (do! _ := transact "insert" (fun rows => rows ++ [fresh_row run_id pr_number])%list in
   do! _ := outside (transaction "refresh") in ret run_id) w.

(** [_update_run_cost], [_finalize_run] *)
Definition update_run_cost (run_id cost : Z) : M (World S) unit := transact "cost" (update run_id (charge cost)).
Definition finalize_run (run_id : Z) (status : string) (error : option string) (head_sha : string) (attempted : bool) : M (World S) unit :=
  transact "finalize" (update run_id (finalized status error head_sha attempted)).

(** [_write_manual_handoff] *)
Definition write_manual_handoff (issue summary : string) : M (World S) unit :=
  do! _ := outside (write_file issue) in fun w => (Ret tt, Build_World (around w) (rows w) (handoffs w ++ [(issue, summary)])).

(** [_worktree_is_clean] *)
Definition worktree_is_clean (path : string) : M S bool :=
  do! status := run path ["git"; "status"; "--porcelain"] in ret (ok status && String.eqb (PyStr.strip (out status)) "").

(** [_run_pre_push_hook] *)
Definition run_pre_push_hook (path : string) : M S (bool * string) := fun s =>
  let hook := under (under path ".githooks") "pre-push" in
  if exists_path hook s then (do! r := run path [hook] in ret (ok r, out r ++ err r)) s else (Ret (true, ""), s).

(** The lookup of the branch's worktree: an error counts as none. *)
Definition lookup_worktree (branch project_dir : string) : M S (option string) := fun s =>
  match find_worktree_by_branch run branch project_dir s with
  | (Raise (RuntimeError _ | OSError _ | TimeoutError), s) => (Ret None, s)
  | r => r
  end.

(** What is settled of a call before it knows what to do: the row of its run. *)
Record Call := { c_issue : string; c_pr : Z; c_branch : string; c_base : string; c_head : string; c_project : string }.

Definition refuse (c : Call) (run_id : Z) (reason : string) (result : Outcome) : M (World S) (string * bool + Outcome) :=
  do! _ := finalize_run run_id "failed" (Some reason) (c_head c) false in ret (inr result).

(** [_resolve_rebase_worktree]: the worktree and whether it is reused, or the result. *)
Definition resolve_rebase_worktree (c : Call) (run_id : Z) : M (World S) (string * bool + Outcome) :=
  do! _ := outside (run (c_project c) ["git"; "worktree"; "prune"]) in
  do! existing := outside (lookup_worktree (c_branch c) (c_project c)) in
  match existing with
  | None =>
      do! path := outside (create ("rebase-pr-" ++ pretty (c_pr c)) (c_branch c) (c_base c)) in ret (inl (path, false))
  | Some path => fun w =>
      if String.eqb (resolve path (around w)) (resolve (c_project c) (around w)) then
        let reason := "Branch " ++ c_branch c ++ " is checked out in the main project checkout; auto-rebase does not reuse it" in
        refuse c run_id reason (Skipped (Some (c_pr c)) reason) w
      else
        match outside (check_worktree_active_agent resolve agent_rows host path) w with
        | (Raise (RuntimeError msg), w) => refuse c run_id ("Cannot verify worktree safety: " ++ msg) (Failed (Some (c_pr c)) msg) w
        | (Raise e, w) => (Raise e, w)
        | (Ret (Some pid), w) =>
            let reason := "Branch " ++ c_branch c ++ " worktree is actively in use by agent PID " ++ pretty pid in
            refuse c run_id reason (Skipped (Some (c_pr c)) reason) w
        | (Ret None, w) =>
            (do! clean := outside (worktree_is_clean path) in
             if (clean : bool) then ret (inl (path, true))
             else let reason := "Branch " ++ c_branch c ++ " worktree has uncommitted changes or its status could not be verified" in
                  refuse c run_id reason (Skipped (Some (c_pr c)) reason)) w
        end
  end.

Definition PUSH (branch : string) : list string := ["git"; "push"; "origin"; branch; "--force-with-lease"].

(** [_run_rebase_and_push] *)
Definition run_rebase_and_push (c : Call) (run_id : Z) (path : string) : M (World S) Outcome :=
  let finalize status error := finalize_run run_id status error (c_head c) true in
  do! a := outside (rebase (c_base c) path) in
  let '(result, cost) := a in
  do! _ := update_run_cost run_id cost in
  if negb (rb_success result) then
    do! _ := finalize "failed" (Some (rb_error result)) in
    do! _ := write_manual_handoff (c_issue c) ("Auto-rebase failed: " ++ rb_error result) in
    ret (Failed (Some (c_pr c)) (rb_error result))
  else
    do! hook := outside (run_pre_push_hook path) in
    if negb (hook.1 : bool) then
      do! _ := finalize "failed" (Some "Pre-push hook failed") in
      do! _ := write_manual_handoff (c_issue c) "Rebase succeeded but pre-push hook failed" in
      ret (Failed (Some (c_pr c)) "Pre-push hook failed after rebase")
    else
      do! push := outside (run path (PUSH (c_branch c))) in
      if ok push then do! _ := finalize "done" None in ret (Success (c_pr c) (conflicts_resolved result))
      else if PyStr.contains (err push) "stale info" || PyStr.contains (err push) "rejected" then
        do! _ := finalize "done" (Some "Branch HEAD changed during rebase") in
        ret (Skipped (Some (c_pr c)) "Branch HEAD changed during rebase")
      else
        do! _ := finalize "failed" (Some (PyStr.slice_to 500 (err push))) in
        ret (Failed (Some (c_pr c)) (PyStr.slice_to 500 (err push))).

(** The end of a call: an exception fails the run. *)
Definition recorded (c : Call) (run_id : option Z) (m : M (World S) Outcome) : M (World S) Outcome := fun w =>
  match m w with
  | (Ret r, w) => (Ret r, w)
  | (Raise e, w) =>
      (do! _ := match run_id with Some i => finalize_run i "failed" (Some (exn_str e)) (c_head c) true | None => ret tt end in
       ret (Failed (Some (c_pr c)) (exn_str e))) w
  end.

(** ... and removes the worktree that was created for it. *)
Definition cleaned (path project_dir : string) (m : M (World S) Outcome) : M (World S) Outcome := fun w =>
  let '(r, w) := m w in
  match outside (cleanup_worktree run exists_path rmtree path project_dir) w with
  | (Raise (RuntimeError _ | OSError _ | TimeoutError), w) | (Ret _, w) => (r, w)
  | (Raise e, w) => (Raise e, w)
  end.

(** A call whose run has its row: the worktree, the rebase in it, and what ends them. *)
Definition started (c : Call) (run_id : Z) : M (World S) Outcome := fun w =>
  match resolve_rebase_worktree c run_id w with
  | (Raise e, w) => recorded c (Some run_id) (throw e) w
  | (Ret (inr result), w) => (Ret result, w)
  | (Ret (inl (path, reused)), w) =>
      let body := recorded c (Some run_id) (run_rebase_and_push c run_id path) in
      if (reused : bool) then body w else cleaned path (c_project c) body w
  end.

(** [_run_locked_rebase] *)
Definition run_locked_rebase (c : Call) : M (World S) Outcome := fun w =>
  match already_attempted (c_pr c) (c_head c) w with
  | (Raise e, w) => recorded c None (throw e) w
  | (Ret true, w) => (Ret (Skipped None ("Already attempted rebase for PR #" ++ pretty (c_pr c) ++ " at HEAD " ++ PyStr.slice_to 8 (c_head c))), w)
  | (Ret false, w) =>
      match create_rebase_run (c_pr c) w with
      | (Raise e, w) => recorded c None (throw e) w
      | (Ret run_id, w) => started c run_id w
      end
  end.

(** [attempt_auto_rebase]: the repository of the configuration, and what GitHub says. *)
Definition attempt_auto_rebase (config : outcome string) (get_pr_info : string -> M S (option PrInfo)) (issue project_dir : string)
    : M (World S) Outcome :=
  match config with
  | Raise e => ret (Failed None (exn_str e))
  | Ret "" => ret (Skipped None "No github_repo configured")
  | Ret repo => fun w =>
      match outside (get_pr_info repo) w with
      | (Raise e, w) => (Ret (Failed None (exn_str e)), w)
      | (Ret None, w) => (Ret (Skipped None ("No open PR found for issue #" ++ issue)), w)
      | (Ret (Some i), w) =>
          run_locked_rebase {| c_issue := issue; c_pr := pi_number i; c_branch := pi_branch i; c_base := pi_base i;
                               c_head := pi_head i; c_project := project_dir |} w
      end
  end.

End AutoRebase.

(** ** Lemmas: the row of a run *)

(** What a change of a row leaves alone; its record may become one of this head. *)
Definition keeps (head : string) (f : Row -> Row) : Prop := forall r,
  r_id (f r) = r_id r /\ r_role (f r) = r_role r /\ r_pr (f r) = r_pr r /\
  (r_record (f r) = r_record r \/ exists attempted, r_record (f r) = Some (head, Some attempted)).

Lemma keeps_same head : keeps head (fun r => r).
Proof. intros r. auto. Qed.

#[local] Hint Resolve keeps_same : core.

Lemma keeps_compose head f g : keeps head f -> keeps head g -> keeps head (fun r => g (f r)).
Proof.
  intros Hf Hg r. destruct (Hg (f r)) as (-> & -> & -> & H), (Hf r) as (-> & -> & -> & H').
  split; [done|]. split; [done|]. split; [done|]. destruct H as [->|H]; auto.
Qed.

Lemma update_update head i f g rows : keeps head g -> update i f (update i g rows) = update i (fun r => f (g r)) rows.
Proof.
  intros Hg. unfold update. rewrite map_map. apply map_ext. intros r. destruct (Z.eqb_spec (r_id r) i) as [E|E].
  - rewrite (proj1 (Hg r)), E. by rewrite Z.eqb_refl.
  - by rewrite (proj2 (Z.eqb_neq _ _) E).
Qed.

Lemma update_id i rows : update i (fun r => r) rows = rows.
Proof. unfold update. rewrite <- (map_id rows) at 2. apply map_ext. intros r. by destruct (Z.eqb _ _). Qed.

Lemma next_id_fresh rows r : r ∈ rows -> (r_id r < next_id rows)%Z.
Proof.
  unfold next_id. induction rows as [|x rows IH]; [by intros ?%elem_of_nil|]. cbn. intros [->|Hr]%elem_of_cons; [lia|]. specialize (IH Hr). lia.
Qed.

Lemma update_fresh rows f row : r_id row = next_id rows -> update (next_id rows) f (rows ++ [row]) = (rows ++ [f row])%list.
Proof.
  intros E. unfold update. rewrite map_app. cbn [map]. rewrite E, Z.eqb_refl. f_equal. transitivity (map (fun r => r) rows); [|apply map_id].
  apply map_ext_in. intros r Hr. apply list_elem_of_In, next_id_fresh in Hr. destruct (Z.eqb_spec (r_id r) (next_id rows)); [lia|done].
Qed.

Section Laws.
Context {S : Type}.

(** The program changes no row. *)
Definition rowless {A} (m : M (World S) A) : Prop := forall w, rows (m w).2 = rows w.

(** The program changes no row but one, and when it returns, the row and the result are related. *)
Definition tracked {A} (head : string) (i : Z) (m : M (World S) A) (Q : A -> Row -> Prop) : Prop := forall w,
  exists f, keeps head f /\ rows (m w).2 = update i f (rows w) /\ forall x, (m w).1 = Ret x -> forall r, Q x (f r).

Lemma rowless_outside {A} (m : M S A) : rowless (outside m).
Proof. intros w. unfold outside. by destruct (m (around w)). Qed.

Lemma rowless_ret {A} (x : A) : rowless (ret x).
Proof. by intros w. Qed.

Lemma rowless_throw {A} (e : exn) : rowless (throw (A := A) e).
Proof. by intros w. Qed.

Lemma rowless_bind {A B} (m : M (World S) A) (k : A -> M (World S) B) : rowless m -> (forall x, rowless (k x)) -> rowless (bind m k).
Proof. intros Hm Hk w. unfold bind. specialize (Hm w). destruct (m w) as [[x|e] w1]; cbn in *; [|done]. rewrite Hk. done. Qed.

Lemma tracked_rowless {A} head i (m : M (World S) A) (Q : A -> Row -> Prop) :
  rowless m -> (forall w x, (m w).1 = Ret x -> forall r, Q x r) -> tracked head i m Q.
Proof. intros Hm HQ w. exists (fun r => r). split; [done|]. split; [by rewrite update_id|]. intros x Hx r. by eapply HQ. Qed.

Lemma tracked_impl {A} head i (m : M (World S) A) (P Q : A -> Row -> Prop) : tracked head i m P -> (forall x r, P x r -> Q x r) -> tracked head i m Q.
Proof. intros Hm HPQ w. destruct (Hm w) as (f & ? & ? & H). exists f. split; [done|]. split; [done|]. intros x Hx r. apply HPQ, H, Hx. Qed.

(** What follows other changes of the row. *)
Lemma tracked_after {A} head i f (w0 w1 : World S) (m : M (World S) A) (Q : A -> Row -> Prop) :
  keeps head f -> rows w1 = update i f (rows w0) -> tracked head i m Q ->
  exists h, keeps head h /\ rows (m w1).2 = update i h (rows w0) /\ forall x, (m w1).1 = Ret x -> forall r, Q x (h r).
Proof.
  intros Hf Hr Hm. destruct (Hm w1) as (g & Hg & Hr2 & HQ). exists (fun r => g (f r)). split; [|split].
  - by apply keeps_compose.
  - rewrite Hr2, Hr. by eapply update_update.
  - intros x Hx r. by apply HQ.
Qed.

(** What comes before does not matter ... *)
Lemma tracked_bind {A B} head i (m : M (World S) A) (k : A -> M (World S) B) (P : A -> Row -> Prop) Q :
  tracked head i m P -> (forall x, tracked head i (k x) Q) -> tracked head i (bind m k) Q.
Proof.
  intros Hm Hk w. unfold bind. destruct (Hm w) as (f & Hf & Hr & _). destruct (m w) as [[x|e] w1]; cbn in *.
  - by eapply tracked_after.
  - exists f. done.
Qed.

(** ... except when it is followed by what changes nothing. *)
Lemma tracked_then {A B} head i (m : M (World S) A) (k : A -> M (World S) B) (P : A -> Row -> Prop) (Q : B -> Row -> Prop) :
  tracked head i m P -> (forall x, rowless (k x)) -> (forall x w y r, (k x w).1 = Ret y -> P x r -> Q y r) -> tracked head i (bind m k) Q.
Proof.
  intros Hm Hk HPQ w. unfold bind. destruct (Hm w) as (f & Hf & Hr & HP). destruct (m w) as [[x|e] w1]; cbn in *.
  - exists f. split; [done|]. split; [by rewrite Hk|]. intros y Hy r. eapply HPQ; eauto.
  - exists f. done.
Qed.

Context (run : string -> list string -> M S Shell) (exists_path : string -> S -> bool) (resolve : string -> S -> string)
        (rmtree : string -> M S unit) (agent_rows : S -> outcome (list AgentRow)) (host : S -> Host)
        (create : string -> string -> string -> M S string)
        (rebase : string -> string -> M S (RebaseResult * Z))
        (transaction write_file : string -> M S unit).

(** The row of a run that is settled. *)
Definition settled (status : string) (error : option string) (head : string) (attempted : bool) (r : Row) : Prop :=
  r_status r = status /\ r_error r = error /\ r_record r = Some (head, Some attempted).

Lemma tracked_finalize i status error head attempted :
  tracked head i (finalize_run transaction i status error head attempted) (fun _ r => settled status error head attempted r).
Proof.
  intros w. unfold finalize_run, transact, bind, outside. destruct (transaction "finalize" (around w)) as [[x|e] s]; cbn.
  - exists (finalized status error head attempted). split; [|done]. intros r. split; [done|]. split; [done|]. split; [done|]. right. by exists attempted.
  - exists (fun r => r). rewrite update_id. done.
Qed.

Lemma tracked_cost head i cost : tracked head i (update_run_cost transaction i cost) (fun _ _ => True).
Proof.
  intros w. unfold update_run_cost, transact, bind, outside. destruct (transaction "cost" (around w)) as [[x|e] s]; cbn.
  - exists (charge cost). split; [|done]. intros r. auto.
  - exists (fun r => r). rewrite update_id. done.
Qed.

Lemma rowless_handoff issue summary : rowless (write_manual_handoff write_file issue summary).
Proof. apply rowless_bind; [apply rowless_outside|]. by intros _ w. Qed.

Definition CHANGED : string := "Branch HEAD changed during rebase".

(** How the result of a call and the row of its run belong together. *)
Definition outcome_row (head : string) (result : Outcome) (r : Row) : Prop :=
  match result with
  | Success _ _ => settled "done" None head true r
  | Skipped _ reason => reason = CHANGED /\ settled "done" (Some CHANGED) head true r \/ settled "failed" (Some reason) head false r
  | Failed _ error => settled "failed" (r_error r) head true r \/
                      settled "failed" (Some ("Cannot verify worktree safety: " ++ error)) head false r
  end.

Lemma tracked_end c i status error attempted (result : Outcome) :
  (forall r, settled status error (c_head c) attempted r -> outcome_row (c_head c) result r) ->
  tracked (c_head c) i (do! _ := finalize_run transaction i status error (c_head c) attempted in ret result) (outcome_row (c_head c)).
Proof. intros H. eapply tracked_then; [apply tracked_finalize|intros _; apply rowless_ret|]. intros ? w y r [= <-] Hr. auto. Qed.

Lemma failed_row head pr error error' r : settled "failed" error head true r -> outcome_row head (Failed pr error') r.
Proof. intros (H1 & H2 & H3). left. unfold settled. auto. Qed.

Lemma tracked_handoff c i reason issue summary error :
  tracked (c_head c) i (do! _ := finalize_run transaction i "failed" reason (c_head c) true in
             do! _ := write_manual_handoff write_file issue summary in ret (Failed (Some (c_pr c)) error)) (outcome_row (c_head c)).
Proof.
  eapply tracked_then; [apply tracked_finalize| |].
  - intros _. apply rowless_bind; [apply rowless_handoff|]. intros _. apply rowless_ret.
  - intros ? w y r Hy Hr. unfold bind in Hy. destruct (write_manual_handoff _ _ _ w) as [[?|e] w']; [|done].
    revert Hy. intros [= <-]. exact (failed_row _ _ _ _ _ Hr).
Qed.

Lemma tracked_rebase c i path : tracked (c_head c) i (run_rebase_and_push run exists_path rebase transaction write_file c i path) (outcome_row (c_head c)).
Proof.
  unfold run_rebase_and_push.
  apply (tracked_bind _ _ _ _ (fun _ _ => True)); [by apply tracked_rowless; [apply rowless_outside|]|]. intros [result cost].
  eapply tracked_bind; [apply tracked_cost|]. intros _. destruct (rb_success result); cbn [negb].
  2:{ apply tracked_handoff. }
  apply (tracked_bind _ _ _ _ (fun _ _ => True)); [by apply tracked_rowless; [apply rowless_outside|]|]. intros [passed output]. destruct passed; cbn [fst negb].
  2:{ apply tracked_handoff. }
  apply (tracked_bind _ _ _ _ (fun _ _ => True)); [by apply tracked_rowless; [apply rowless_outside|]|]. intros push. destruct (ok push); [by apply tracked_end|].
  destruct (PyStr.contains (err push) "stale info" || _).
  - apply tracked_end. intros r Hr. by left.
  - apply tracked_end. intros r Hr. by eapply failed_row.
Qed.

Definition either_row (head : string) (x : string * bool + Outcome) (r : Row) : Prop :=
  match x with inl _ => True | inr result => outcome_row head result r end.

Lemma tracked_refuse c i reason result :
  (forall r, settled "failed" (Some reason) (c_head c) false r -> outcome_row (c_head c) result r) ->
  tracked (c_head c) i (refuse transaction c i reason result) (either_row (c_head c)).
Proof. intros H. eapply tracked_then; [apply tracked_finalize|intros _; apply rowless_ret|]. intros ? w y r [= <-] Hr. cbn. auto. Qed.

Lemma tracked_resolve c i : tracked (c_head c) i (resolve_rebase_worktree run resolve agent_rows host create transaction c i) (either_row (c_head c)).
Proof.
  unfold resolve_rebase_worktree.
  apply (tracked_bind _ _ _ _ (fun _ _ => True)); [by apply tracked_rowless; [apply rowless_outside|]|]. intros _.
  apply (tracked_bind _ _ _ _ (fun _ _ => True)); [by apply tracked_rowless; [apply rowless_outside|]|]. intros [path|].
  2:{ apply (tracked_bind _ _ _ _ (fun _ _ => True)); [by apply tracked_rowless; [apply rowless_outside|]|]. intros path.
      apply tracked_rowless; [apply rowless_ret|]. by intros w x [= <-]. }
  intros w. destruct (String.eqb _ _).
  { apply (tracked_refuse c i _ (Skipped _ _)). intros r Hr. by right. }
  pose proof (rowless_outside (check_worktree_active_agent resolve agent_rows host path) w) as Hq.
  destruct (outside (check_worktree_active_agent resolve agent_rows host path) w) as [[[pid|]|e] w1]; cbn in Hq.
  - destruct (tracked_refuse c i ("Branch " ++ c_branch c ++ " worktree is actively in use by agent PID " ++ pretty pid)
      (Skipped (Some (c_pr c)) ("Branch " ++ c_branch c ++ " worktree is actively in use by agent PID " ++ pretty pid)) ltac:(by right) w1) as (f & Hf & Hr & HQ).
    exists f. rewrite <- Hq. done.
  - assert (G : tracked (c_head c) i (do! clean := outside (worktree_is_clean run path) in
      if (clean : bool) then ret (inl (path, true))
      else let reason := "Branch " ++ c_branch c ++ " worktree has uncommitted changes or its status could not be verified" in
           refuse transaction c i reason (Skipped (Some (c_pr c)) reason)) (either_row (c_head c))).
    { apply (tracked_bind _ _ _ _ (fun _ _ => True)); [by apply tracked_rowless; [apply rowless_outside|]|]. intros [].
      - apply tracked_rowless; [apply rowless_ret|]. by intros w2 x [= <-].
      - apply tracked_refuse. intros r Hr. by right. }
    destruct (G w1) as (f & Hf & Hr & HQ). exists f. rewrite <- Hq. done.
  - destruct e as [| |msg| | | | |]; try (exists (fun r => r); rewrite update_id; done).
    destruct (tracked_refuse c i ("Cannot verify worktree safety: " ++ msg) (Failed (Some (c_pr c)) msg) ltac:(by right) w1) as (f & Hf & Hr & HQ).
    exists f. rewrite <- Hq. done.
Qed.

Lemma tracked_recorded c i m : tracked (c_head c) i m (outcome_row (c_head c)) -> tracked (c_head c) i (recorded transaction c (Some i) m) (outcome_row (c_head c)).
Proof.
  intros Hm w. unfold recorded. destruct (Hm w) as (f & Hf & Hr & HQ). destruct (m w) as [[x|e] w1]; [by exists f|]. cbn in Hr.
  eapply (tracked_after _ _ _ _ _ (do! _ := _ in ret (Failed (Some (c_pr c)) (exn_str e)))); [done|done|]. apply tracked_end. intros r. apply failed_row.
Qed.

Lemma tracked_cleaned head path project_dir i m Q : tracked head i m Q -> tracked head i (cleaned run exists_path rmtree path project_dir m) Q.
Proof.
  intros Hm w. unfold cleaned. destruct (Hm w) as (f & Hf & Hr & HQ). destruct (m w) as [x w1]. cbn in *.
  pose proof (rowless_outside (cleanup_worktree run exists_path rmtree path project_dir) w1) as Hq.
  destruct (outside _ w1) as [[u|e] w2]; cbn in Hq; [exists f; rewrite <- Hr, <- Hq; done|].
  exists f. rewrite <- Hr, <- Hq. by destruct e.
Qed.

(** A call with the row of its run. *)
Lemma tracked_call c i :
  tracked (c_head c) i (started run exists_path resolve rmtree agent_rows host create rebase transaction write_file c i) (outcome_row (c_head c)).
Proof.
  intros w. unfold started. destruct (tracked_resolve c i w) as (f & Hf & Hr & HQ).
  destruct (resolve_rebase_worktree _ _ _ _ _ _ c i w) as [[[[path reused]|result]|e] w1]; cbn in Hr, HQ.
  - cbv zeta. destruct reused; (eapply tracked_after; [done|done|]).
    + apply tracked_recorded, tracked_rebase.
    + apply tracked_cleaned, tracked_recorded, tracked_rebase.
  - exists f. split; [done|]. split; [done|]. intros x [= <-] r. by apply (HQ (inr result)).
  - eapply tracked_after; [done|done|]. apply tracked_recorded. apply tracked_rowless; [apply rowless_throw|]. by intros ? ? [=].
Qed.

End Laws.


(** ** What a call does *)

Section Theorems.
Context {S : Type} (run : string -> list string -> M S Shell) (exists_path : string -> S -> bool) (resolve : string -> S -> string)
        (rmtree : string -> M S unit) (agent_rows : S -> outcome (list AgentRow)) (host : S -> Host)
        (create : string -> string -> string -> M S string)
        (rebase : string -> string -> M S (RebaseResult * Z))
        (transaction write_file : string -> M S unit).

Definition already (c : Call) : Outcome :=
  Skipped None ("Already attempted rebase for PR #" ++ pretty (c_pr c) ++ " at HEAD " ++ PyStr.slice_to 8 (c_head c)).

(** A transaction before the run of the call is known fails: the row is left when it was inserted. *)
Definition unstarted (c : Call) (rows rows' : list Row) (r : outcome Outcome) : Prop :=
  exists name s e s', transaction name s = (Raise e, s') /\ r = Ret (Failed (Some (c_pr c)) (exn_str e)) /\
    (name = "select" /\ rows' = rows \/ name = "insert" /\ rows' = rows \/
     name = "refresh" /\ rows' = (rows ++ [fresh_row (next_id rows) (c_pr c)])%list).

Lemma call_cases c w r w' :
  run_locked_rebase run exists_path resolve rmtree agent_rows host create rebase transaction write_file c w = (r, w') ->
  (existsb (counts (c_pr c) (c_head c)) (rows w) = true /\ rows w' = rows w /\ r = Ret (already c)) \/
  unstarted c (rows w) (rows w') r \/
  (existsb (counts (c_pr c) (c_head c)) (rows w) = false /\ exists f, keeps (c_head c) f /\
     rows w' = (rows w ++ [f (fresh_row (next_id (rows w)) (c_pr c))])%list /\
     forall x, r = Ret x -> outcome_row (c_head c) x (f (fresh_row (next_id (rows w)) (c_pr c)))).
Proof.
  intros H. unfold run_locked_rebase, already_attempted, create_rebase_run, transact in H. unfold outside at 1, bind at 1 in H.
  destruct (transaction "select" (around w)) as [[[]|e] s1] eqn:E1; cbn in H.
  2:{ injection H as <- <-. right. left. exists "select", (around w), e, s1. auto 10. }
  destruct (existsb _ (rows w)) eqn:Ea; [injection H as <- <-; left; auto|].
  unfold bind, outside in H. cbn in H. destruct (transaction "insert" s1) as [[[]|e] s2] eqn:E2; cbn in H.
  2:{ injection H as <- <-. right. left. exists "insert", s1, e, s2. auto 10. }
  destruct (transaction "refresh" s2) as [[[]|e] s3] eqn:E3; cbn in H.
  2:{ injection H as <- <-. right. left. exists "refresh", s2, e, s3. auto 10. }
  right. right. split; [done|]. set (i := next_id (rows w)) in *.
  destruct (tracked_call run exists_path resolve rmtree agent_rows host create rebase transaction write_file c i
    (Build_World s3 (rows w ++ [fresh_row i (c_pr c)])%list (handoffs w))) as (f & Hf & Hr & HQ).
  exists f. split; [done|]. rewrite H in Hr, HQ. cbn in Hr, HQ. split; [|intros x Hx; by apply HQ].
  rewrite Hr. unfold i. by apply update_fresh.
Qed.

(** What counts for a head in the rows after a call. *)
Definition attempts_at (pr_number : Z) (head_sha : string) (rows : list Row) : nat := length (List.filter (counts pr_number head_sha) rows).

Lemma attempts_app p h rows rows' : attempts_at p h (rows ++ rows') = (attempts_at p h rows + attempts_at p h rows')%nat.
Proof. unfold attempts_at. by rewrite List.filter_app, length_app. Qed.

Lemma attempts_none p h rows : existsb (counts p h) rows = false -> attempts_at p h rows = 0%nat.
Proof. unfold attempts_at. induction rows as [|r rows IH]; cbn; [done|]. intros [-> H]%orb_false_iff. auto. Qed.

Lemma attempts_one p h r : (attempts_at p h [r] <= 1)%nat /\ (counts p h r = false -> attempts_at p h [r] = 0%nat).
Proof. unfold attempts_at. cbn. destruct (counts p h r); cbn; split; try done; lia. Qed.

(** The row of a call counts for its own pull request and head only. *)
Lemma counts_elsewhere c f i p h : keeps (c_head c) f -> counts p h (f (fresh_row i (c_pr c))) = true -> p = c_pr c /\ h = c_head c.
Proof.
  intros Hf H. destruct (Hf (fresh_row i (c_pr c))) as (_ & _ & Hp & Hr). unfold counts in H. rewrite Hp in H.
  apply andb_true_iff in H as [[_ H]%andb_true_iff H']. apply bool_decide_eq_true in H. injection H as H. split; [done|].
  destruct Hr as [Hr|[a Hr]]; rewrite Hr in H'; [done|]. apply andb_true_iff in H' as [H'%String.eqb_eq _]. done.
Qed.

Lemma call_attempts c w p h : (attempts_at p h (rows w) <= 1)%nat ->
  (attempts_at p h (rows (run_locked_rebase run exists_path resolve rmtree agent_rows host create rebase transaction write_file c w).2) <= 1)%nat.
Proof.
  intros Hle. destruct (run_locked_rebase _ _ _ _ _ _ _ _ _ _ c w) as [r w'] eqn:E. cbn.
  destruct (call_cases c w r w' E) as [(_ & -> & _)|[(name & s & e & s' & _ & _ & H)|(Ha & f & Hf & -> & _)]]; [done| |].
  - destruct H as [[_ ->]|[[_ ->]|[_ ->]]]; [done|done|]. rewrite attempts_app. rewrite (proj2 (attempts_one p h _)); [lia|].
    unfold counts, fresh_row. cbn. by rewrite andb_false_r.
  - rewrite attempts_app. destruct (counts p h (f (fresh_row (next_id (rows w)) (c_pr c)))) eqn:Ec.
    + destruct (counts_elsewhere c f _ p h Hf Ec) as [-> ->]. rewrite (attempts_none _ _ _ Ha). apply attempts_one.
    + rewrite (proj2 (attempts_one _ _ _) Ec). lia.
Qed.

(** A call that returns has said in the table what became of it: it was made before at this
    head and the rows are untouched; or the database failed before the run had begun; or one
    row more is there, of this pull request, settled as the result tells, and it counts as an
    attempt unless the worktree was refused. *)
Theorem outcome_recorded c w result w' :
  run_locked_rebase run exists_path resolve rmtree agent_rows host create rebase transaction write_file c w = (Ret result, w') ->
  (existsb (counts (c_pr c) (c_head c)) (rows w) = true /\ rows w' = rows w /\ result = already c) \/
  unstarted c (rows w) (rows w') (Ret result) \/
  exists row, rows w' = (rows w ++ [row])%list /\ r_id row = next_id (rows w) /\ r_role row = ROLE_SUPERVISOR_REBASE /\
    r_pr row = Some (c_pr c) /\ outcome_row (c_head c) result row.
Proof.
  intros H. destruct (call_cases c w _ w' H) as [(? & ? & [= ->])|[Hu|(_ & f & Hf & Hr & HQ)]]; [auto|auto|].
  right. right. exists (f (fresh_row (next_id (rows w)) (c_pr c))).
  destruct (Hf (fresh_row (next_id (rows w)) (c_pr c))) as (-> & -> & -> & _). split; [done|]. split; [done|]. split; [done|]. split; [done|]. by apply HQ.
Qed.

(** C29: At most one run of a pull request ever counts as an attempt at one head, whatever a
    call does and however it ends. *)
Theorem one_attempt_per_head config get_pr_info issue project_dir w p h : (attempts_at p h (rows w) <= 1)%nat ->
  (attempts_at p h (rows (attempt_auto_rebase run exists_path resolve rmtree agent_rows host create rebase transaction write_file
                            config get_pr_info issue project_dir w).2) <= 1)%nat.
Proof.
  intros Hle. unfold attempt_auto_rebase. destruct config as [[|a repo]|e]; [done| |done].
  pose proof (rowless_outside (get_pr_info (String a repo)) w) as Hq.
  destruct (outside (get_pr_info (String a repo)) w) as [[[i|]|e] w1]; cbn in Hq |- *; [|by rewrite Hq|by rewrite Hq].
  apply call_attempts. by rewrite Hq.
Qed.

(** The worktree of a call, at the moment it is settled: it was made for the branch, or git lists
    it for the branch, it is not the repository's own, no agent works in it and nothing in it is changed. *)
Definition chosen (c : Call) (path : string) (s : S) : Prop :=
  (exists s0, create ("rebase-pr-" ++ pretty (c_pr c)) (c_branch c) (c_base c) s0 = (Ret path, s)) \/
  (exists s0 s1 s2, find_worktree_by_branch run (c_branch c) (c_project c) s0 = (Ret (Some path), s1) /\
     resolve path s1 <> resolve (c_project c) s1 /\ check_worktree_active_agent resolve agent_rows host path s1 = (Ret None, s2) /\
     exists r, run path ["git"; "status"; "--porcelain"] s2 = (Ret r, s) /\ ok r = true /\ PyStr.strip (out r) = "").

(** A push that is justified: the rebase in the chosen worktree succeeded, and then the hook, if there is one. *)
Definition justified (c : Call) (path : string) (s : S) : Prop :=
  exists s0 result cost s1 s2, chosen c path s0 /\ rebase (c_base c) path s0 = (Ret (result, cost), s1) /\ rb_success result = true /\
    transaction "cost" s1 = (Ret tt, s2) /\
    let hook := under (under path ".githooks") "pre-push" in
    if exists_path hook s2 then exists r, run path [hook] s2 = (Ret r, s) /\ ok r = true else s = s2.

Lemma hook_passed path s output s' : run_pre_push_hook run exists_path path s = (Ret (true, output), s') ->
  let hook := under (under path ".githooks") "pre-push" in
  if exists_path hook s then exists r, run path [hook] s = (Ret r, s') /\ ok r = true else s' = s.
Proof.
  unfold run_pre_push_hook. cbv zeta. destruct (exists_path _ s); [|by intros [= _ <-]].
  intros H. apply bind_ret in H as (r & s1 & Hr & [= Ho _ ->]). exists r. auto.
Qed.

Section Agree.
Context (run' : string -> list string -> M S Shell) (c : Call).
Hypothesis agree : forall cwd argv s, argv <> PUSH (c_branch c) -> run cwd argv s = run' cwd argv s.

Lemma outside_same {A} (m m' : M S A) w : m (around w) = m' (around w) -> outside m w = outside m' w.
Proof. unfold outside. by intros ->. Qed.

Lemma outside_ret {A} (m : M S A) w x w1 : outside m w = (Ret x, w1) -> m (around w) = (Ret x, around w1).
Proof. unfold outside. destruct (m (around w)) as [r s]. by intros [= -> <-]. Qed.

Lemma agree_find branch cwd s : find_worktree_by_branch run branch cwd s = find_worktree_by_branch run' branch cwd s.
Proof. apply bind_same; [by apply agree|done]. Qed.

Lemma agree_status path s : worktree_is_clean run path s = worktree_is_clean run' path s.
Proof. apply bind_same; [by apply agree|done]. Qed.

Lemma agree_hook path s : run_pre_push_hook run exists_path path s = run_pre_push_hook run' exists_path path s.
Proof. unfold run_pre_push_hook. case_match; [|done]. apply bind_same; [by apply agree|done]. Qed.

Lemma agree_remove path cwd s : cleanup_worktree run exists_path rmtree path cwd s = cleanup_worktree run' exists_path rmtree path cwd s.
Proof.
  apply bind_same; [by apply agree|]. intros x s1 _. destruct (ok x); [done|]. destruct (exists_path path s1); [|done].
  apply bind_same; [done|]. intros _ s2 _. repeat first [reflexivity | by apply agree | apply bind_same; [|intros ? ? ?] | case_match].
Qed.

Lemma agree_worktree i w :
  resolve_rebase_worktree run resolve agent_rows host create transaction c i w
  = resolve_rebase_worktree run' resolve agent_rows host create transaction c i w.
Proof.
  unfold resolve_rebase_worktree. apply bind_same; [by apply outside_same, agree|]. intros _ w1 _.
  apply bind_same; [apply outside_same; unfold lookup_worktree; by rewrite agree_find|]. intros [path|] w2 _; [|done].
  case_match; [done|]. destruct (outside _ w2) as [[[pid|]|e] w3]; [done| |done].
  apply bind_same; [apply outside_same, agree_status|done].
Qed.

Lemma resolve_chosen i path reused w w' :
  resolve_rebase_worktree run resolve agent_rows host create transaction c i w = (Ret (inl (path, reused)), w') -> chosen c path (around w').
Proof.
  unfold resolve_rebase_worktree. intros H. apply bind_ret in H as (_ & w1 & _ & H). apply bind_ret in H as (existing & w2 & E & H).
  destruct existing as [p|].
  2:{ apply bind_ret in H as (p & w3 & E3 & H). injection H as -> _ <-. left. apply outside_ret in E3. eauto. }
  destruct (String.eqb_spec (resolve p (around w2)) (resolve (c_project c) (around w2))) as [|Hne].
  { apply bind_ret in H as (_ & w3 & _ & [=]). }
  destruct (outside (check_worktree_active_agent resolve agent_rows host p) w2) as [[[pid|]|e] w3] eqn:E3.
  - apply bind_ret in H as (_ & w4 & _ & [=]).
  - apply bind_ret in H as (clean & w4 & E4 & H). destruct clean; [|apply bind_ret in H as (_ & w5 & _ & [=])].
    injection H as -> _ <-. right. exists (around w1), (around w2), (around w3). apply outside_ret in E, E3, E4.
    apply bind_ret in E4 as (r & s4 & Er & [= Hc%andb_true_iff ->]). destruct Hc as [Hok Hout%String.eqb_eq].
    split; [|split; [done|]; split; [done|]; eauto]. unfold lookup_worktree in E. destruct (find_worktree_by_branch run _ _ (around w1)) as [[q|[]] s2]; try discriminate E; by injection E as -> ->.
  - destruct e; try done. apply bind_ret in H as (_ & w4 & _ & [=]).
Qed.

Hypothesis spares : forall path s, justified c path s -> run path (PUSH (c_branch c)) s = run' path (PUSH (c_branch c)) s.

Lemma agree_push i path w : chosen c path (around w) ->
  run_rebase_and_push run exists_path rebase transaction write_file c i path w
  = run_rebase_and_push run' exists_path rebase transaction write_file c i path w.
Proof.
  intros Hc. apply bind_same; [done|]. intros [result cost] w1 E1. apply outside_ret in E1. apply bind_same; [done|]. intros [] w2 E2.
  destruct (rb_success result) eqn:Es; cbn [negb]; [|done]. apply bind_same; [apply outside_same, agree_hook|]. intros [passed output] w3 E3.
  destruct passed; cbn [fst negb]; [|done]. apply bind_same; [|done]. apply outside_same, spares. apply outside_ret in E3.
  apply bind_ret in E2 as ([] & w4 & E2 & [= <-]). apply outside_ret in E2. exists (around w), result, cost, (around w1), (around w4).
  split_and!; try done. rewrite <- agree_hook in E3. by apply hook_passed in E3.
Qed.

End Agree.

(** C28: The branch of a pull request is pushed over only when the worktree was made for it, or
    is one git lists for it that no agent uses and that has no changes, and there the rebase
    succeeded and the hook let it pass: what a push would do anywhere else is without effect,
    since it is never asked for there. *)
Theorem push_justified run' c w :
  (forall cwd argv s, argv <> PUSH (c_branch c) -> run cwd argv s = run' cwd argv s) ->
  (forall path s, justified c path s -> run path (PUSH (c_branch c)) s = run' path (PUSH (c_branch c)) s) ->
  run_locked_rebase run exists_path resolve rmtree agent_rows host create rebase transaction write_file c w
  = run_locked_rebase run' exists_path resolve rmtree agent_rows host create rebase transaction write_file c w.
Proof.
  intros Hag Hsp. unfold run_locked_rebase. destruct (already_attempted _ _ _ w) as [[[]|e] w1]; [done| |done].
  destruct (create_rebase_run _ _ w1) as [[i|e] w2]; [|done]. unfold started. rewrite <- (agree_worktree run' c Hag).
  destruct (resolve_rebase_worktree _ _ _ _ _ _ c i w2) as [[[[path reused]|result]|e] w3] eqn:E; [|done|done]. apply resolve_chosen in E.
  assert (Hb : recorded transaction c (Some i) (run_rebase_and_push run exists_path rebase transaction write_file c i path) w3
    = recorded transaction c (Some i) (run_rebase_and_push run' exists_path rebase transaction write_file c i path) w3)
    by (unfold recorded; by rewrite (agree_push run' c Hag Hsp)).
  destruct reused; [exact Hb|]. unfold cleaned. rewrite Hb. destruct (recorded _ _ _ (run_rebase_and_push run' _ _ _ _ _ _ _) w3) as [x w4].
  by rewrite (outside_same _ _ w4 (agree_remove run' c Hag path (c_project c) (around w4))).
Qed.

End Theorems.

(** ** Examples *)

Module Examples.

(** A site: the commits of the branch here and upstream, those of its base, what git says of a
    worktree, and what the server answers to a push. *)
Record Site := { local : option (list string); remote : list string; base : list string; changes : string; refusal : string }.

Definition answer (text : string) (s : Site) : outcome Shell * Site := (Ret {| code := 0; out := text; err := "" |}, s).
Definition fails (text : string) (s : Site) : outcome Shell * Site := (Ret {| code := 1; out := ""; err := text |}, s).
Definition moved (commits : option (list string)) (s : Site) : Site :=
  {| local := commits; remote := remote s; base := base s; changes := changes s; refusal := refusal s |}.
Definition asks (argv words : list string) : bool := bool_decide (take (length words) argv = words).

Definition git (worktrees : string) (_ : string) (argv : list string) (s : Site) : outcome Shell * Site :=
  if asks argv LIST then answer worktrees s
  else if asks argv ["git"; "status"] then answer (changes s) s
  else if asks argv ["git"; "worktree"; "add"] then
    if bool_decide ("-b" ∈ argv) then
      match local s with None => answer "" (moved (Some (base s)) s) | Some _ => fails "fatal: a branch named 'feat/x' already exists" s end
    else answer "" s
  else if asks argv ["git"; "rebase"] then
    answer "" (moved ((fun commits => base s ++ List.filter (fun c => negb (bool_decide (c ∈ base s))) commits)%list <$> local s) s)
  else if asks argv ["git"; "push"] then
    match refusal s with
    | "" => answer "" {| local := local s; remote := default [] (local s); base := base s; changes := changes s; refusal := "" |}
    | text => fails text s
    end
  else answer "" s.

Definition absent (_ : string) (_ : Site) : bool := false.
Definition same_path (path : string) (_ : Site) : string := path.
Definition quietly (_ : string) (s : Site) : outcome unit * Site := (Ret tt, s).
Definition no_agents (_ : Site) : outcome (list AgentRow) := Ret [].
Definition alone (_ : Site) : Host := {| getpid := 1; kill_0 := fun _ => NotFound; process := fun _ => None |}.
Definition create (worktrees id branch base : string) : M Site string :=
  create_worktree (git worktrees) absent quietly quietly (fun path _ => quietly path) quietly quietly id branch base "/p" false.
Definition rebase (worktrees base path : string) : M Site (RebaseResult * Z) :=
  rebase_with_conflict_resolution (git worktrees path) quietly (fun _ _ => None) (fun _ _ => quietly "") (fun _ _ _ _ => throw TimeoutError)
    (fun _ => throw TimeoutError) GitRebase.Examples.alone true base 3 5.

Definition pr5 : outcome (option PrInfo) := Ret (pr_info 5 (Some (Some "feat/x", Some "0123456789", Some "main"))).
Definition attempt (worktrees : string) (transaction : string -> M Site unit) : M (World Site) Outcome :=
  attempt_auto_rebase (git worktrees) absent same_path quietly no_agents alone (create worktrees) (rebase worktrees) transaction quietly
    (Ret "o/r") (fun _ s => (pr5, s)) "7" "/p".
Definition world (local : option (list string)) (changes refusal : string) : World Site :=
  {| around := {| local := local; remote := ["base"; "feature"]; base := ["base"; "new"]; changes := changes; refusal := refusal |};
     rows := []; handoffs := [] |}.
Definition listed : string := "worktree /w" ++ newline ++ "branch refs/heads/feat/x".

Example rebased_and_pushed :
  let '(r, w) := attempt "" quietly (world (Some ["base"; "feature"]) "" "") in
  r = Ret (Success 5 0) /\ remote (around w) = ["base"; "new"; "feature"] /\ map r_status (rows w) = ["done"].
Proof. vm_compute. auto. Qed.

Example once_per_head :
  let '(_, w) := attempt "" quietly (world (Some ["base"; "feature"]) "" "") in
  attempt "" quietly w = (Ret (Skipped None "Already attempted rebase for PR #5 at HEAD 01234567"), w).
Proof. vm_compute. reflexivity. Qed.

(** A refusal of the worktree is not an attempt: the next call tries again. *)
Example changes_are_waited_for :
  let '(r, w) := attempt listed quietly (world (Some ["base"; "feature"]) " M a.py" "") in
  let clean := {| around := around (world (Some ["base"; "feature"]) "" ""); rows := rows w; handoffs := [] |} in
  r = Ret (Skipped (Some 5%Z) "Branch feat/x worktree has uncommitted changes or its status could not be verified") /\
  map r_status (rows w) = ["failed"] /\ (attempt listed quietly clean).1 = Ret (Success 5 0).
Proof. vm_compute. auto. Qed.

(** Where the branch of the pull request is not known, [create_worktree] makes one of its name
    at the base, which needs no rebase and is pushed over the pull request: its commits are
    gone, and the run is a success. The head is not compared with that of the pull request. *)
Example commits_are_dropped :
  let '(r, w) := attempt "" quietly (world None "" "") in
  r = Ret (Success 5 0) /\ remote (around w) = ["base"; "new"].
Proof. vm_compute. auto. Qed.

(** A push that the server refuses is recorded as done, with a change of the head as the reason. *)
Example refused_push_is_done :
  let '(r, w) := attempt "" quietly (world (Some ["base"; "feature"]) "" "! [remote rejected] feat/x (protected branch hook declined)") in
  r = Ret (Skipped (Some 5%Z) CHANGED) /\ map r_status (rows w) = ["done"] /\ remote (around w) = ["base"; "feature"].
Proof. vm_compute. auto. Qed.

(** When the row cannot be read again after its insertion, it is left running. *)
Example unread_row_stays_running :
  let '(r, w) := attempt "" (fun name s => if String.eqb name "refresh" then (Raise (SQLAlchemyError "locked"), s) else (Ret tt, s))
                   (world (Some ["base"; "feature"]) "" "") in
  r = Ret (Failed (Some 5%Z) "locked") /\ map r_status (rows w) = ["running"].
Proof. vm_compute. auto. Qed.

Definition call5 : Call := {| c_issue := "7"; c_pr := 5; c_branch := "feat/x"; c_base := "main"; c_head := "0123456789"; c_project := "/p" |}.
Definition locked (run : string -> list string -> M Site Shell) (create : string -> string -> string -> M Site string) : M (World Site) Outcome :=
  run_locked_rebase run absent same_path quietly no_agents alone create (rebase listed) quietly quietly call5.
Definition never (_ _ _ : string) : M Site string := throw (RuntimeError "not needed").

(** A system in which a push from any other directory erases the branch upstream. *)
Definition reckless (cwd : string) (argv : list string) (s : Site) : outcome Shell * Site :=
  if bool_decide (argv = PUSH "feat/x") && negb (String.eqb cwd "/w")
  then answer "" {| local := local s; remote := []; base := base s; changes := changes s; refusal := refusal s |}
  else git listed cwd argv s.

Lemma push_justified_witness :
  locked (git listed) never (world (Some ["base"; "feature"]) "" "") = locked reckless never (world (Some ["base"; "feature"]) "" "").
Proof.
  apply (push_justified (git listed) absent same_path quietly no_agents alone never (rebase listed) quietly quietly reckless call5).
  - intros cwd argv s Hne. unfold reckless. by rewrite bool_decide_eq_false_2.
  - intros path s (s0 & result & cost & s1 & s2 & [(s3 & [=])|(s3 & s4 & s5 & Hf & _)] & _).
    assert (path = "/w") as -> by (vm_compute in Hf; by injection Hf as <-). unfold reckless. by rewrite andb_false_r.
Defined.

Lemma outcome_recorded_witness :
  exists w', locked (git listed) never (world (Some ["base"; "feature"]) "" "") = (Ret (Success 5 0), w') /\
  exists row, rows w' = [row] /\ outcome_row "0123456789" (Success 5 0) row.
Proof.
  destruct (locked (git listed) never (world (Some ["base"; "feature"]) "" "")) as [r w'] eqn:E.
  assert (r = Ret (Success 5 0)) as -> by (vm_compute in E; congruence). exists w'. split; [reflexivity|].
  destruct (outcome_recorded (git listed) absent same_path quietly no_agents alone never (rebase listed) quietly quietly call5 _ _ _ E)
    as [(H & _)|[(name & s & e & s' & H & _)|(row & H & _ & _ & _ & Ho)]]; [discriminate H|discriminate H|].
  exists row. split; [exact H|exact Ho].
Defined.

Lemma one_attempt_per_head_witness :
  let w := (attempt "" quietly (world (Some ["base"; "feature"]) "" "")).2 in
  attempts_at 5 "0123456789" (rows w) = 1%nat /\ (attempts_at 5 "0123456789" (rows (attempt "" quietly w).2) <= 1)%nat.
Proof.
  split; [vm_compute; reflexivity|].
  apply (one_attempt_per_head (git "") absent same_path quietly no_agents alone (create "") (rebase "") quietly quietly (Ret "o/r") (fun _ s => (pr5, s)) "7" "/p").
  vm_compute. apply le_n.
Defined.

End Examples.
