(* ===== verification/CheckCache.v ===== *)
(** * CheckCache: a check that passed is not run again on the same content

    core/check_cache.py. The answers of git, the digest and the writing of the marker are
    arguments; a marker is what its file holds once it is read as JSON, and none when it is
    not an object. An execution is a list of events, any change of the worktree among them. *)

From stdpp Require Import base list strings.
From Stdlib Require Import Ascii.
From S2P Require Import Prelude Markdown Review PrBody CommitFold Validate GitRebase.

Local Open Scope string_scope.
Local Open Scope fold_scope.

Definition SOH : ascii := "001"%char.
Definition NUL : ascii := "000"%char.
Definition soh : string := String SOH "".
Definition nul : string := String NUL "".

(** What the marker holds of what is read. *)
Record Marker := { m_hash : option string; m_passed : option bool; m_cmd : option string }.

(** The worktree, and the marker in it. *)
Record World (S : Type) := { tree : S; marker : option Marker }.
Arguments tree {S} _. Arguments marker {S} _. Arguments Build_World {S} _ _.

(** [is_pipeline_dispatch], of the variable's value *)
Definition is_pipeline_dispatch (stage : option string) : bool := String.eqb (PyStr.strip (default "" stage)) "1".

Section CheckCache.
Context {S : Type} (run : list string -> string -> M S Shell).      (* the command, and what it reads *)
Context (sha256 : string -> string) (save unlink : M S unit).

(** [_diff_base] *)
Fixpoint first_merge_base (refs : list string) (head : string) : M S string :=
  match refs with
  | [] => ret head
  | ref :: refs =>
      do! r := run ["git"; "merge-base"; ref; "HEAD"] "" in
      if ok r && not_blank (out r) then ret (PyStr.strip (out r)) else first_merge_base refs head
  end.

Definition diff_base : M S (option string) :=
  do! head := run ["git"; "rev-parse"; "HEAD"] "" in
  if negb (ok head && not_blank (out head)) then ret None
  else
    do! symref := run ["git"; "symbolic-ref"; "--short"; "refs/remotes/origin/HEAD"] "" in
    let candidates := ((if ok symref && not_blank (out symref) then [PyStr.strip (out symref)] else []) ++ ["origin/main"; "origin/master"])%list in
    do! base := first_merge_base candidates (PyStr.strip (out head)) in ret (Some base).

(** [_untracked_fingerprint]: the files with the digests of their contents ... *)
Definition UNTRACKED : list string :=
  ["git"; "ls-files"; "--others"; "--exclude-standard"; "--"; "."; ":(exclude).claude/agent-control"].
Definition HASH_OBJECT : list string := ["git"; "hash-object"; "--stdin-paths"].

Definition untracked_files : M S (option (list (string * string))) :=
  do! listed := run UNTRACKED "" in
  if negb (ok listed) then ret None
  else
    match List.filter (fun l => negb (String.eqb l "")) (text_lines (out listed)) with
    | [] => ret (Some [])
    | paths =>
        do! hashed := run HASH_OBJECT (PyStr.join newline paths ++ newline) in
        let blobs := PyStr.split (out hashed) in
        ret (if negb (ok hashed) || negb (length blobs =? length paths)%nat then None else Some (combine paths blobs))
    end.

(** ... and as a text *)
Definition entry (f : string * string) : string := f.1 ++ soh ++ f.2.
Definition untracked_fingerprint : M S (option string) :=
  do! files := untracked_files in ret (option_map (fun l => PyStr.join newline (map entry l)) files).

(** [_compute_hash] *)
Definition DIFF (base : string) : list string := ["git"; "diff"; base].
Definition payload (base untracked diff check_cmd : string) : string := PyStr.join nul [base; untracked; diff; check_cmd].

Definition compute_hash (check_cmd : string) : M S (option string) :=
  do! base := diff_base in
  match base with
  | None => ret None
  | Some base =>
      do! untracked := untracked_fingerprint in
      do! diff := run (DIFF base) "" in
      ret (match untracked with
           | Some untracked => if ok diff then Some (sha256 (payload base untracked (out diff) check_cmd)) else None
           | None => None
           end)
  end.

(** A program over the worktree *)
Definition within {A} (m : M S A) : M (World S) A := fun w => let '(r, s) := m (tree w) in (r, Build_World s (marker w)).

(** [should_skip] *)
Definition should_skip (stage : option string) (check_cmd : string) : M (World S) bool :=
  if negb (is_pipeline_dispatch stage) then ret false
  else fun w =>
    match marker w with
    | Some m =>
        if bool_decide (m_passed m = Some true) then
          (do! current := within (compute_hash check_cmd) in
           ret (match current with Some h => bool_decide (m_hash m = Some h) | None => false end)) w
        else (Ret false, w)
    | None => (Ret false, w)
    end.

(** [record_result] *)
Definition record_result (check_cmd : string) (passed : bool) : M (World S) bool :=
  do! hash := within (compute_hash check_cmd) in
  match hash with
  | None => ret false
  | Some h => fun w =>
      match within save w with
      | (Ret _, w) => (Ret true, Build_World (tree w) (Some {| m_hash := Some h; m_passed := Some passed; m_cmd := Some check_cmd |}))
      | (Raise (OSError _ | TimeoutError), w) => (Ret false, w)
      | (Raise e, w) => (Raise e, w)
      end
  end.

(** [clear_marker] *)
Definition clear_marker : M (World S) unit := fun w =>
  match within unlink w with
  | (Ret _, w) => (Ret tt, Build_World (tree w) None)
  | (Raise (OSError _ | TimeoutError), w) => (Ret tt, w)
  | (Raise e, w) => (Raise e, w)
  end.

(** What happens to a worktree over time. *)
Inductive Event := Records (check_cmd : string) (passed : bool) | Asks (stage : option string) (check_cmd : string) | Clears | Changes (f : S -> S).

Definition happen (w : World S) (e : Event) : World S :=
  match e with
  | Records cmd passed => (record_result cmd passed w).2
  | Asks stage cmd => (should_skip stage cmd w).2
  | Clears => (clear_marker w).2
  | Changes f => Build_World (f (tree w)) (marker w)
  end.
Definition history (s : S) (events : list Event) : World S := foldl happen (Build_World s None) events.

End CheckCache.

(** ** Lemmas: texts that are put together can be taken apart *)

Definition lacks (c : ascii) (s : string) : Prop := c ∉ PyStr.to_list s.

Lemma to_list_inj a b : PyStr.to_list a = PyStr.to_list b -> a = b.
Proof. intros H. rewrite <- (PyStr.of_to_list a), <- (PyStr.of_to_list b). by f_equal. Qed.

Lemma first_split (c : ascii) (a a' x x' : list ascii) : c ∉ a -> c ∉ a' -> (a ++ c :: x)%list = (a' ++ c :: x')%list -> a = a' /\ x = x'.
Proof.
  revert a'. induction a as [|d a IH]; intros [|d' a'] Ha Ha' H; cbn in H.
  - by injection H as ->.
  - injection H as -> _. exfalso. apply Ha'. left.
  - injection H as -> _. exfalso. apply Ha. left.
  - injection H as -> H. apply not_elem_of_cons in Ha as [_ Ha], Ha' as [_ Ha']. by destruct (IH a' Ha Ha' H) as [-> ->].
Qed.

Lemma last_split (c : ascii) (a a' x x' : list ascii) : c ∉ x -> c ∉ x' -> (a ++ c :: x)%list = (a' ++ c :: x')%list -> a = a' /\ x = x'.
Proof.
  intros Hx Hx' H. apply (f_equal (@rev ascii)) in H. rewrite !rev_app_distr in H. cbn in H. rewrite <- !app_assoc in H. cbn in H.
  apply first_split in H as [Hr Ha]; [|by rewrite elem_of_rev_iff..]. apply (f_equal (@rev ascii)) in Hr, Ha. by rewrite !rev_involutive in Hr, Ha.
Qed.

Lemma payload_inj b u d c b' u' d' c' :
  lacks NUL b -> lacks NUL b' -> lacks NUL u -> lacks NUL u' -> lacks NUL c -> lacks NUL c' ->
  payload b u d c = payload b' u' d' c' -> b = b' /\ u = u' /\ d = d' /\ c = c'.
Proof.
  intros Hb Hb' Hu Hu' Hc Hc' H. apply (f_equal PyStr.to_list) in H. unfold payload in H. cbn [PyStr.join] in H. rewrite !to_list_app in H. cbn [PyStr.to_list nul] in H.
  change (PyStr.to_list nul) with [NUL] in H. cbn [app] in H.
  apply first_split in H as [Eb H]; [|done..]. apply first_split in H as [Eu H]; [|done..]. apply last_split in H as [Ed Ec]; [|done..].
  by apply to_list_inj in Eb, Eu, Ed, Ec.
Qed.

Lemma entry_inj f f' : lacks SOH f.2 -> lacks SOH f'.2 -> entry f = entry f' -> f = f'.
Proof.
  destruct f as [p b], f' as [p' b']. cbn. intros Hb Hb' H. apply (f_equal PyStr.to_list) in H. unfold entry in H. cbn [fst snd] in H. rewrite !to_list_app in H.
  change (PyStr.to_list soh) with [SOH] in H. cbn [app] in H. apply last_split in H as [Ep Eb]; [|done..]. by apply to_list_inj in Ep as ->, Eb as ->.
Qed.

(** Parts of a text have no other characters. *)
Lemma strip_lacks c s : lacks c s -> lacks c (PyStr.strip s).
Proof.
  unfold lacks, PyStr.strip. rewrite PyStr.to_of_list. intros H Hc. apply H. unfold PyStr.strip_list, PyStr.drop_while_end in Hc.
  rewrite elem_of_rev_iff in Hc. apply Review.elem_of_drop_while in Hc. rewrite elem_of_rev_iff in Hc. by apply Review.elem_of_drop_while in Hc.
Qed.

Lemma lines_from_chars acc l x c : x ∈ PyStr.lines_from acc l -> c ∈ x -> c ∈ acc \/ c ∈ l.
Proof.
  remember (length l) as n eqn:En. revert acc l En. induction n as [n IH] using lt_wf_ind. intros acc l -> Hx Hc. destruct l as [|d l]; cbn in Hx.
  - destruct acc as [|a acc]; [by apply not_elem_of_nil in Hx|]. apply list_elem_of_singleton in Hx as ->. rewrite elem_of_rev_iff in Hc. auto.
  - assert (R : forall k, (length k <= length l)%nat -> x ∈ PyStr.lines_from [] k -> c ∈ k)
      by (intros k Hk Hx'; destruct (IH (length k) ltac:(cbn; lia) [] k eq_refl Hx' Hc) as [H|H]; [by apply not_elem_of_nil in H|done]).
    destruct (PyStr.is_line_break d).
    + apply elem_of_cons in Hx as [->|Hx]; [rewrite elem_of_rev_iff in Hc; auto|]. right. right.
      destruct (Ascii.eqb d "013"%char); [|by apply R]. destruct l as [|e l]; [by apply not_elem_of_nil in Hx|].
      destruct (Ascii.eqb e "010"%char); [right|]; apply R; cbn; first [done | lia].
    + destruct (IH (length l) ltac:(cbn; lia) (d :: acc) l eq_refl Hx Hc) as [[->|H]%elem_of_cons|H]; [right; left|by left|right; by right].
Qed.

Lemma text_lines_lack c s l : lacks c s -> l ∈ text_lines s -> lacks c l.
Proof.
  intros H Hl Hc. unfold text_lines in Hl. apply list_elem_of_fmap in Hl as (x & -> & Hx). rewrite PyStr.to_of_list in Hc.
  destruct (lines_from_chars _ _ _ _ Hx Hc) as [Hn|Hn]; [by apply not_elem_of_nil in Hn|done].
Qed.

Lemma text_lines_one_line s l : l ∈ text_lines s -> lacks Markdown.nl l.
Proof.
  intros Hl Hc. unfold text_lines in Hl. apply list_elem_of_fmap in Hl as (x & -> & Hx). rewrite PyStr.to_of_list in Hc.
  apply lines_from_text in Hx; [|by intros ? ?%not_elem_of_nil]. specialize (Hx _ Hc). by vm_compute in Hx.
Qed.

Lemma split_lacks c s w : lacks c s -> w ∈ PyStr.split s -> lacks c w.
Proof.
  intros H Hw Hc. unfold PyStr.split in Hw. apply list_elem_of_fmap in Hw as (x & -> & Hx). rewrite PyStr.to_of_list in Hc.
  destruct (elem_of_words _ _ _ _ Hx Hc) as [Hn|Hn]; [by apply not_elem_of_nil in Hn|done].
Qed.

(** A word has no space, and no line break therefore. *)
Lemma words_no_space k l w c : (forall d, d ∈ k -> PyStr.is_space d = false) -> w ∈ PyStr.words k l -> c ∈ w -> PyStr.is_space c = false.
Proof.
  revert k. induction l as [|a l IH]; intros k Hk Hw Hc; cbn in Hw.
  - destruct k as [|b k]; [by apply not_elem_of_nil in Hw|]. apply list_elem_of_singleton in Hw as ->. rewrite elem_of_rev_iff in Hc. auto.
  - destruct (PyStr.is_space a) eqn:Ea.
    + assert (Hr : w ∈ PyStr.words [] l -> PyStr.is_space c = false) by (intros H; eapply IH; [|exact H|done]; by intros ? ?%not_elem_of_nil).
      destruct k as [|b k]; [auto|]. apply elem_of_cons in Hw as [->|Hw]; [rewrite elem_of_rev_iff in Hc; auto|auto].
    + eapply IH; [|exact Hw|done]. intros d [->|Hd]%elem_of_cons; auto.
Qed.

Lemma split_one_line s w : w ∈ PyStr.split s -> lacks Markdown.nl w.
Proof.
  intros Hw Hc. unfold PyStr.split in Hw. apply list_elem_of_fmap in Hw as (x & -> & Hx). rewrite PyStr.to_of_list in Hc.
  eapply (words_no_space [] _ _ _) in Hx; [|by intros ? ?%not_elem_of_nil|exact Hc]. by vm_compute in Hx.
Qed.

(** A file whose name and digest can be told apart in the fingerprint. *)
Definition tellable (f : string * string) : Prop :=
  lacks NUL f.1 /\ lacks NUL f.2 /\ lacks SOH f.2 /\ lacks Markdown.nl f.1 /\ lacks Markdown.nl f.2.

Lemma lacks_app c a b : lacks c a -> lacks c b -> lacks c (a ++ b).
Proof. unfold lacks. rewrite to_list_app. intros Ha Hb [H|H]%elem_of_app; auto. Qed.

Lemma entry_lacks c f : c <> SOH -> lacks c f.1 -> lacks c f.2 -> lacks c (entry f).
Proof. intros Hc H1 H2. apply lacks_app; [done|]. apply lacks_app; [|done]. intros H. change (PyStr.to_list soh) with [SOH] in H. by apply list_elem_of_singleton in H. Qed.

Lemma join_lacks c l : c <> Markdown.nl -> (forall x, x ∈ l -> lacks c x) -> lacks c (PyStr.join newline l).
Proof.
  intros Hc. induction l as [|x l IH]; intros H; [apply not_elem_of_nil|]. destruct l as [|y l]; [apply H; left|].
  change (PyStr.join newline (x :: y :: l)) with (x ++ newline ++ PyStr.join newline (y :: l)). apply lacks_app; [apply H; left|]. apply lacks_app.
  - intros Hn. change (PyStr.to_list newline) with [Markdown.nl] in Hn. by apply list_elem_of_singleton in Hn.
  - apply IH. intros z Hz. apply H. by right.
Qed.

Lemma join_lines_inj l l' :
  (forall x, x ∈ l -> x <> "" /\ lacks Markdown.nl x) -> (forall x, x ∈ l' -> x <> "" /\ lacks Markdown.nl x) -> PyStr.join newline l = PyStr.join newline l' -> l = l'.
Proof.
  intros Hl Hl' H. apply (f_equal PyStr.to_list) in H. change newline with (PyStr.of_list [Markdown.nl]) in H. rewrite !to_list_join in H.
  assert (G : forall k, (forall x, x ∈ k -> x <> "" /\ lacks Markdown.nl x) -> Markdown.split_nl (Markdown.join_nl (map PyStr.to_list k)) = match k with [] => [[]] | _ => map PyStr.to_list k end).
  { intros [|x k] Hk; [done|]. apply Markdown.split_join_nl; [done|]. intros y Hy. apply list_elem_of_fmap in Hy as (z & -> & Hz). by apply Hk. }
  apply (f_equal Markdown.split_nl) in H. rewrite !G in H by done.
  assert (N : forall x k, (forall y, y ∈ x :: k -> y <> "" /\ lacks Markdown.nl y) -> [[]] = map PyStr.to_list (x :: k) -> False).
  { intros x k Hk E. injection E as E _. destruct (Hk x) as [Hne _]; [left|]. apply Hne. by destruct x. }
  destruct l as [|x l], l' as [|x' l']; [done|by apply N in H|symmetry in H; by apply N in H|].
  revert H. generalize (x :: l), (x' :: l'). clear. intros k. induction k as [|y k IH]; intros [|y' k'] H; [done|done|done|].
  injection H as Hy H. f_equal; [by apply to_list_inj|by apply IH].
Qed.

Lemma fingerprint_inj l l' : (forall f, f ∈ l -> tellable f) -> (forall f, f ∈ l' -> tellable f) ->
  PyStr.join newline (map entry l) = PyStr.join newline (map entry l') -> l = l'.
Proof.
  intros Hl Hl' H.
  assert (G : forall k, (forall f, f ∈ k -> tellable f) -> forall x, x ∈ map entry k -> x <> "" /\ lacks Markdown.nl x).
  { intros k Hk x Hx. apply list_elem_of_fmap in Hx as (f & -> & Hf). destruct (Hk f Hf) as (_ & _ & _ & H1 & H2). split; [|by apply entry_lacks].
    unfold entry. destruct f as [[|c p] b]; [done|done]. }
  apply join_lines_inj in H; [|by apply G..]. clear G. revert l' Hl' H. induction l as [|f l IH]; intros [|f' l'] Hl' H; [done|done|done|].
  injection H as Hf H. f_equal; [apply entry_inj; [apply Hl; left|apply Hl'; left|done]|].
  apply IH; [intros g Hg; apply Hl; by right|intros g Hg; apply Hl'; by right|done].
Qed.

(** ** What a marker vouches for *)

(** The content of a worktree, as git tells it. *)
Record Content := { k_base : string; k_files : list (string * string); k_diff : string }.

Section Laws.
Context {S : Type} (run : list string -> string -> M S Shell) (sha256 : string -> string) (save unlink : M S unit).

Definition content (s : S) (k : Content) : Prop :=
  exists s1 s2 s3 r, diff_base run s = (Ret (Some (k_base k)), s1) /\ untracked_files run s1 = (Ret (Some (k_files k)), s2) /\
    run (DIFF (k_base k)) "" s2 = (Ret r, s3) /\ ok r = true /\ k_diff k = out r.

Definition digest (k : Content) (check_cmd : string) : string :=
  sha256 (payload (k_base k) (PyStr.join newline (map entry (k_files k))) (k_diff k) check_cmd).

Lemma hash_content check_cmd s h s' : compute_hash run sha256 check_cmd s = (Ret (Some h), s') -> exists k, content s k /\ h = digest k check_cmd.
Proof.
  intros H. apply bind_ret in H as (base & s1 & Hb & H). destruct base as [base|]; [|discriminate H].
  apply bind_ret in H as (fingerprint & s2 & Hf & H). apply bind_ret in H as (r & s3 & Hr & H).
  apply bind_ret in Hf as (files & s4 & Hf & [= <- ->]). destruct files as [files|]; [|discriminate H]. cbn [option_map] in H.
  destruct (ok r) eqn:Hok; [|discriminate H]. injection H as <- _.
  exists {| k_base := base; k_files := files; k_diff := out r |}. split; [|done]. by exists s1, s2, s3, r.
Qed.

(** The answers of git other than a difference print neither of the two characters. *)
Hypothesis printable : forall argv stdin s r s', (forall base, argv <> DIFF base) -> run argv stdin s = (Ret r, s') -> lacks NUL (out r) /\ lacks SOH (out r).

Lemma merge_base_lacks refs head s b s' : lacks NUL head -> first_merge_base run refs head s = (Ret b, s') -> lacks NUL b.
Proof.
  revert s. induction refs as [|ref refs IH]; intros s Hh H; cbn in H; [by injection H as <- _|].
  apply bind_ret in H as (r & s1 & Hr & H). destruct (ok r && not_blank (out r)); [|by eapply IH].
  injection H as <- _. apply strip_lacks. by eapply printable in Hr as [? _].
Qed.

Lemma base_lacks s b s' : diff_base run s = (Ret (Some b), s') -> lacks NUL b.
Proof.
  intros H. apply bind_ret in H as (head & s1 & Hh & H). destruct (negb _); [discriminate H|]. apply bind_ret in H as (symref & s2 & _ & H).
  apply bind_ret in H as (base & s3 & Hb & [= <- _]). eapply merge_base_lacks; [|exact Hb]. apply strip_lacks. by eapply printable in Hh as [? _].
Qed.

Lemma files_tellable s l s' : untracked_files run s = (Ret (Some l), s') -> forall f, f ∈ l -> tellable f.
Proof.
  intros H [p b] Hf. apply bind_ret in H as (listed & s1 & Hl & H). destruct (negb (ok listed)); [discriminate H|].
  destruct (List.filter _ _) as [|p0 paths] eqn:Ep; [injection H as <- _; by apply not_elem_of_nil in Hf|].
  apply bind_ret in H as (hashed & s2 & Hh & H). cbv zeta in H. destruct (negb (ok hashed) || negb (length (PyStr.split (out hashed)) =? length (p0 :: paths))%nat); [discriminate H|]. injection H as <- _.
  apply list_elem_of_In in Hf. change (In (p, b) (combine (p0 :: paths) (PyStr.split (out hashed)))) in Hf. pose proof (in_combine_l _ _ _ _ Hf) as Hp. pose proof (in_combine_r _ _ _ _ Hf) as Hbl.
  rewrite <- Ep in Hp. apply filter_In in Hp as [Hp _]. apply list_elem_of_In in Hp, Hbl.
  destruct (printable UNTRACKED _ _ _ _ ltac:(done) Hl) as [Hl1 _], (printable HASH_OBJECT _ _ _ _ ltac:(done) Hh) as [Hh1 Hh2]. unfold tellable. cbn.
  split; [exact (text_lines_lack _ _ _ Hl1 Hp)|]. split; [exact (split_lacks _ _ _ Hh1 Hbl)|]. split; [exact (split_lacks _ _ _ Hh2 Hbl)|].
  split; [exact (text_lines_one_line _ _ Hp)|exact (split_one_line _ _ Hbl)].
Qed.

Hypothesis sha_inj : forall x y, sha256 x = sha256 y -> x = y.

Lemma digest_inj s s' k k' c c' : content s k -> content s' k' -> lacks NUL c -> lacks NUL c' -> digest k c = digest k' c' -> k = k' /\ c = c'.
Proof.
  intros (s1 & s2 & s3 & r & Hb & Hf & _) (t1 & t2 & t3 & r' & Hb' & Hf' & _) Hc Hc' H. apply sha_inj in H.
  pose proof (files_tellable _ _ _ Hf) as Ht. pose proof (files_tellable _ _ _ Hf') as Ht'.
  assert (L : forall l, (forall f, f ∈ l -> tellable f) -> lacks NUL (PyStr.join newline (map entry l))).
  { intros l Hl. apply join_lacks; [done|]. intros x Hx. apply list_elem_of_fmap in Hx as (f & -> & Hx). destruct (Hl f Hx) as (? & ? & _). by apply entry_lacks. }
  apply payload_inj in H as (Eb & Ef & Ed & Ec); [|by eapply base_lacks|by eapply base_lacks|by apply L|by apply L|done|done].
  apply fingerprint_inj in Ef; [|done|done]. destruct k, k'; cbn in *. by subst.
Qed.

Lemma history_snoc s events e : history run sha256 save unlink s (events ++ [e]) = happen run sha256 save unlink (history run sha256 save unlink s events) e.
Proof. unfold history. by rewrite foldl_app. Qed.

(** A marker was written by the recording of a result, at a content it names. *)
Lemma marker_recorded s events m : marker (history run sha256 save unlink s events) = Some m ->
  exists before check_cmd passed after k, events = (before ++ Records check_cmd passed :: after)%list /\ content (tree (history run sha256 save unlink s before)) k /\
    m_passed m = Some passed /\ m_hash m = Some (digest k check_cmd).
Proof.
  induction events as [|e events IH] using rev_ind; [done|]. rewrite history_snoc. set (w := history _ _ _ _ s events) in *.
  assert (K : forall w1 : World S, marker w1 = marker w -> marker w1 = Some m -> exists before check_cmd passed after k,
    (events ++ [e])%list = (before ++ Records check_cmd passed :: after)%list /\ content (tree (history run sha256 save unlink s before)) k /\
    m_passed m = Some passed /\ m_hash m = Some (digest k check_cmd)).
  { intros w1 E H. rewrite E in H. destruct (IH H) as (before & c & p & after & k & -> & Hk). exists before, c, p, (after ++ [e])%list, k.
    split; [by rewrite <- app_assoc|done]. }
  destruct e as [check_cmd passed|stage check_cmd| |f]; cbn.
  - destruct (record_result run sha256 save check_cmd passed w) as [r w1] eqn:E. cbn. unfold record_result, within, bind in E.
    destruct (compute_hash run sha256 check_cmd (tree w)) as [[[h|]|e] s1] eqn:Eh; cbn in E; [|injection E as _ <-; by apply K|injection E as _ <-; by apply K].
    destruct (save s1) as [[[]|e] s2]; cbn in E.
    + injection E as _ <-. cbn. intros [= <-]. apply hash_content in Eh as (k & Hk & ->). exists events, check_cmd, passed, [], k. done.
    + destruct e; injection E as _ <-; by apply K.
  - apply K. unfold should_skip. destruct (is_pipeline_dispatch stage); [|done]. cbn. destruct (marker w) as [m'|] eqn:Em; [|done].
    case_bool_decide; [|done]. unfold bind, within. destruct (compute_hash run sha256 check_cmd (tree w)) as [[h|e] s1]; done.
  - unfold clear_marker, within. destruct (unlink (tree w)) as [[[]|e] s1]; [done|]. destruct e; by apply K.
  - by apply K.
Qed.

End Laws.

(** C39: A check is skipped only in a run of the pipeline, and when the very same command was
    recorded as passed before, at the same base, difference and untracked files with the same
    digests: whatever else happened to the worktree and to the marker. *)
Theorem reuse_justified {S : Type} run sha256 save unlink stage check_cmd (s : S) events w' :
  (forall argv stdin s r s', (forall base, argv <> DIFF base) -> run argv stdin s = (Ret r, s') -> lacks NUL (out r) /\ lacks SOH (out r)) ->
  (forall x y, sha256 x = sha256 y -> x = y) ->
  lacks NUL check_cmd -> (forall cmd passed, Records cmd passed ∈ events -> lacks NUL cmd) ->
  should_skip run sha256 stage check_cmd (history run sha256 save unlink s events) = (Ret true, w') ->
  is_pipeline_dispatch stage = true /\
  exists before after k, events = (before ++ Records check_cmd true :: after)%list /\
    content run (tree (history run sha256 save unlink s before)) k /\ content run (tree (history run sha256 save unlink s events)) k.
Proof.
  intros Hp Hi Hc He H. unfold should_skip in H. destruct (is_pipeline_dispatch stage); [|discriminate H]. split; [done|]. cbn [negb] in H.
  destruct (marker (history _ _ _ _ s events)) as [m|] eqn:Em; [|discriminate H]. case_bool_decide as Hpassed; [|discriminate H].
  apply bind_ret in H as (current & w1 & Hh & H). destruct current as [h|]; [|discriminate H]. injection H as H _. apply bool_decide_eq_true in H.
  unfold within in Hh. destruct (compute_hash run sha256 check_cmd (tree (history run sha256 save unlink s events))) as [r s1] eqn:E. injection Hh as -> _.
  apply hash_content in E as (k & Hk & ->). apply marker_recorded in Em as (before & cmd & passed & after & k' & -> & Hk' & Hm & Hd).
  rewrite Hm in Hpassed. injection Hpassed as ->. rewrite Hd in H. injection H as H.
  eapply digest_inj in H as [-> ->]; [|done|done|exact Hk'|exact Hk| |done]; [by exists before, after, k|].
  apply (He _ true). apply elem_of_app. right. left.
Qed.

(** When git only reads, a content is found again. *)
Lemma merge_base_reads {S : Type} (run : list string -> string -> M S Shell) refs head : (forall argv stdin, reads (run argv stdin)) -> reads (first_merge_base run refs head).
Proof. intros Hr. induction refs as [|ref refs IH]; [apply reads_ret|]. apply reads_bind; [apply Hr|]. intros x. destruct (_ && _); [apply reads_ret|apply IH]. Qed.

Lemma base_reads {S : Type} (run : list string -> string -> M S Shell) : (forall argv stdin, reads (run argv stdin)) -> reads (diff_base run).
Proof.
  intros Hr. apply reads_bind; [apply Hr|]. intros head. destruct (negb _); [apply reads_ret|]. apply reads_bind; [apply Hr|]. intros symref.
  apply reads_bind; [by apply merge_base_reads|]. intros b. apply reads_ret.
Qed.

Lemma files_reads {S : Type} (run : list string -> string -> M S Shell) : (forall argv stdin, reads (run argv stdin)) -> reads (untracked_files run).
Proof.
  intros Hr. apply reads_bind; [apply Hr|]. intros listed. destruct (negb _); [apply reads_ret|]. destruct (List.filter _ _); [apply reads_ret|].
  apply reads_bind; [apply Hr|]. intros hashed. apply reads_ret.
Qed.

Lemma content_hash {S : Type} (run : list string -> string -> M S Shell) sha256 check_cmd s k :
  (forall argv stdin, reads (run argv stdin)) -> content run s k -> compute_hash run sha256 check_cmd s = (Ret (Some (digest sha256 k check_cmd)), s).
Proof.
  intros Hr (s1 & s2 & s3 & r & Hb & Hf & Hd & Hok & He). unfold compute_hash, bind, untracked_fingerprint, bind. rewrite Hb, Hf. cbn. rewrite Hd, Hok.
  unfold digest. rewrite He. pose proof (reads_step _ _ _ _ (Hr _ _) Hd) as ->. pose proof (reads_step _ _ _ _ (files_reads run Hr) Hf) as ->.
  by pose proof (reads_step _ _ _ _ (base_reads run Hr) Hb) as ->.
Qed.

(** A content that was recorded as passed is recognised, as long as the marker is there:
    commits, rearrangements and other changes of the worktree that leave its content as git
    tells it do not matter. *)
Theorem same_content_skipped {S : Type} run sha256 save stage check_cmd (w w1 w2 : World S) k :
  (forall argv stdin, reads (run argv stdin)) -> is_pipeline_dispatch stage = true ->
  content run (tree w) k -> record_result run sha256 save check_cmd true w = (Ret true, w1) ->
  marker w2 = marker w1 -> content run (tree w2) k ->
  should_skip run sha256 stage check_cmd w2 = (Ret true, w2).
Proof.
  intros Hr Hs Hk H Hm Hk2. unfold should_skip. rewrite Hs. cbn [negb]. rewrite Hm. unfold record_result, bind, within in H.
  rewrite (content_hash _ _ _ _ _ Hr Hk) in H. cbn in H.
  destruct (save (tree w)) as [[[]|e] s1]; cbn in H; [|destruct e; discriminate H]. injection H as <-. cbn [marker m_passed m_hash].
  rewrite bool_decide_eq_true_2 by done. unfold bind, within. rewrite (content_hash _ _ _ _ _ Hr Hk2). cbn.
  rewrite bool_decide_eq_true_2 by done. by destruct w2.
Qed.

(** ** Examples *)

Module Examples.

(** A worktree: its head, the base it grew from, the difference to it, and the new files. *)
Record Site := { head_sha : string; trunk : string; difference : string; fresh : list (string * string) }.

Definition says (text : string) (s : Site) : outcome Shell * Site := (Ret {| code := 0; out := text; err := "" |}, s).
Definition git (argv : list string) (_ : string) (s : Site) : outcome Shell * Site :=
  match nth 1 argv "" with
  | "rev-parse" => says (head_sha s) s
  | "symbolic-ref" => says "origin/main" s
  | "merge-base" => says (trunk s) s
  | "ls-files" => says (PyStr.join newline (map fst (fresh s))) s
  | "hash-object" => says (PyStr.join newline (map snd (fresh s))) s
  | "diff" => says (difference s) s
  | _ => says "" s
  end.

Definition saved (s : Site) : outcome unit * Site := (Ret tt, s).
Definition site : Site := {| head_sha := "h1"; trunk := "b0"; difference := "+x"; fresh := [("new.py", "aa")] |}.
Definition commit (s : Site) : Site := {| head_sha := "h2"; trunk := trunk s; difference := difference s; fresh := fresh s |}.
Definition edit_new_file (s : Site) : Site := {| head_sha := head_sha s; trunk := trunk s; difference := difference s; fresh := [("new.py", "ab")] |}.
Definition ask (events : list (Event (S := Site))) (stage : option string) (cmd : string) : outcome bool :=
  (should_skip git (fun x => x) stage cmd (history git (fun x => x) saved saved site events)).1.

Example reused_after_commit :
  ask [Records "make check" true; Changes commit] (Some "1") "make check" = Ret true /\
  ask [Records "make check" true; Changes commit] None "make check" = Ret false /\
  ask [Records "make check" true] (Some "1") "make test" = Ret false /\
  ask [Records "make check" true; Changes edit_new_file] (Some "1") "make check" = Ret false /\
  ask [Records "make check" true; Records "make check" false] (Some "1") "make check" = Ret false /\
  ask [Records "make check" true; Clears] (Some "1") "make check" = Ret false.
Proof. vm_compute. auto 10. Qed.

(** A git that prints plain texts only. *)
Definition plain_git (argv : list string) (stdin : string) (s : Site) : outcome Shell * Site := git argv stdin site.

Lemma plain_prints argv stdin s r s' : (forall base, argv <> DIFF base) -> plain_git argv stdin s = (Ret r, s') -> lacks NUL (out r) /\ lacks SOH (out r).
Proof.
  intros _ H. unfold plain_git, git in H.
  assert (P : forall t s1, says t s1 = (Ret r, s') -> forallb (fun c => negb (Ascii.eqb c NUL) && negb (Ascii.eqb c SOH)) (PyStr.to_list t) = true -> lacks NUL (out r) /\ lacks SOH (out r)).
  { intros t s1 E F. injection E as <- _. cbn. rewrite forallb_forall in F. split; intros Hc%list_elem_of_In; specialize (F _ Hc); discriminate F. }
  repeat case_match; (eapply P; [exact H|vm_compute; reflexivity]).
Qed.

Lemma reuse_justified_witness :
  exists w', should_skip plain_git (fun x => x) (Some "1") "make check" (history plain_git (fun x => x) saved saved site [Records "make check" true; Changes commit]) = (Ret true, w') /\
  is_pipeline_dispatch (Some "1") = true.
Proof.
  destruct (should_skip plain_git (fun x => x) (Some "1") "make check" (history plain_git (fun x => x) saved saved site [Records "make check" true; Changes commit])) as [r w'] eqn:E.
  assert (r = Ret true) as -> by (vm_compute in E; congruence). exists w'. split; [reflexivity|].
  refine (proj1 (reuse_justified plain_git (fun x => x) saved saved (Some "1") "make check" site [Records "make check" true; Changes commit] w' plain_prints _ _ _ E)).
  - intros x y Hxy. exact Hxy.
  - intros Hc. vm_compute in Hc. repeat (apply elem_of_cons in Hc as [Hc|Hc]; [discriminate Hc|]). by apply not_elem_of_nil in Hc.
  - intros cmd passed Hin. apply elem_of_cons in Hin as [Hin|Hin]; [|apply elem_of_cons in Hin as [Hin|Hin]; [discriminate Hin|by apply not_elem_of_nil in Hin]].
    injection Hin as -> _. intros Hc. vm_compute in Hc. repeat (apply elem_of_cons in Hc as [Hc|Hc]; [discriminate Hc|]). by apply not_elem_of_nil in Hc.
Defined.

Lemma same_content_skipped_witness :
  let w1 := history git (fun x => x) saved saved site [Records "make check" true] in
  let w2 := Build_World (commit site) (marker w1) in
  should_skip git (fun x => x) (Some "1") "make check" w2 = (Ret true, w2).
Proof.
  refine (same_content_skipped git (fun x => x) saved (Some "1") "make check" (Build_World site None)
    (history git (fun x => x) saved saved site [Records "make check" true]) _ {| k_base := "b0"; k_files := [("new.py", "aa")]; k_diff := "+x" |} _ _ _ _ _ _).
  - intros argv stdin s. unfold git. repeat case_match; reflexivity.
  - reflexivity.
  - eexists _, _, _, _. split; [vm_compute; reflexivity|]. split; [vm_compute; reflexivity|]. split; [vm_compute; reflexivity|]. split; reflexivity.
  - vm_compute. reflexivity.
  - reflexivity.
  - eexists _, _, _, _. split; [vm_compute; reflexivity|]. split; [vm_compute; reflexivity|]. split; [vm_compute; reflexivity|]. split; reflexivity.
Defined.

End Examples.
